(* ===== verification/_CoqProject ===== *)
-Q . S2P
Prelude.v
PyBase.v
PyRuntime.v
PyFloat.v
PyText.v
PyDates.v
Decimals.v
LvmModels.v
LvmText.v
LvmTextRound.v
LvmBinary.v
LvmParser.v
LvmReader.v
ExtJournal.v
ExtScan.v
ExtDirs.v
ExtRecover.v
QuerySyntax.v
QueryParse.v
QueryEval.v
SigmaCondition.v
SigmaRpn.v
SigmaTables.v
SigmaMatch.v
SigmaCompile.v
SigmaEngine.v
SigmaEquiv.v
JournalBinary.v
JournalRead.v
JournalLayout.v
Handlers.v
FileSystem.v
PurePaths.v
Effects.v
Ad1Image.v
Archive.v
ArchiveSafe.v
ArchiveExact.v
ArchiveFlaws.v
Ad1Listed.v
Prefetch.v
PrefetchRead.v
PrefetchLayout.v
PrefetchSamples.v
LocalTime.v
LocalTimeYears.v
LocalTimeSamples.v
UploadModel.v
UploadShared.v
UploadSession.v
UploadPlan.v
UploadPromote.v
UploadSamples.v
UploadInvariant.v
UploadRaces.v
UploadRun.v
UploadComplete.v
MemoryCapacity.v
MemorySlot.v
MemorySave.v
MemorySaveRules.v
EvidenceOperations.v
OperationRules.v
OperationReconcile.v
OperationOutcome.v
ExperimentalTrust.v
ExperimentalCanary.v
ExperimentalModel.v
ExperimentalRun.v
ExperimentalGates.v
ExperimentalRules.v
ExperimentalVerdict.v
ExperimentalFlaws.v
