(* ===== verification/Prelude.v ===== *)
(** * Verification of the evidence-processing core of Kairon DFIR

    Kairon DFIR takes in disk images, logs and memory captures, indexes what they
    hold and lets analysts search and run detection rules over it.  This library
    models the parts of its Python back end (paths below are relative to
    src/backend/app/) whose results an investigation rests on, as functions that
    evaluate, and proves what they promise.  Where the code does not do what it
    means to, the theorem states what it does.

    ** How the code is modelled

    A function that may raise returns [result E A] of this file: a value, an
    exception, or [OutOfFuel] when a loop was given too little fuel.  Fuel is
    never left to the caller: each function passes a bound computed from its
    input (the length of the text or of the buffer, the number of tokens or
    blocks, each plus one), and a theorem shows that the bound is enough, since
    every iteration consumes a byte, a token or an entry.  [PyBase] has the
    Python data: [bytes], slices and little-endian fields at their width
    ([u_le], [u_be]), strings as code points with the character classes that are
    read, insertion-ordered dicts, stable sorts.  [PyRuntime] is the interface
    ([Class Runtime]) to what the code takes from the interpreter and this library
    does not define (floating-point numbers, dates, lower-casing of all of
    Unicode, case-insensitive comparison in patterns); its users' theorems hold for
    every instance.  [PyFloat] has the
    quotients and products of floats that the code rounds or compares, exactly as
    IEEE doubles.  [Decimals] is the printing and reading of integers.  [PyText] has
    UTF-16 with its surrogates and the order of strings, [PyDates] the calendar and
    the ISO text of a time, whose order is that of the times.  Third-party libraries (decompressors,
    hash functions, UUIDs, the directory of a block device) are parameters.

    ** Parts

    - LVM2 metadata, disk_images/lvm/.  [LvmModels] (models.py, exceptions.py),
      [LvmText] and [LvmTextRound] (text_format.py: tokenizer, parser; parsing ends
      in a tree or a metadata error; every layout of a document parses back to
      it), [LvmBinary] (binary.py: label, physical volume header, metadata area,
      ring buffer, checksum, which rejects every burst of up to 32 bits),
      [LvmParser] (parser.py: what is accepted is exactly the valid metadata; which
      exceptions are raised), [LvmReader] (reader.py: reading a logical
      volume refines a flat map from its bytes to extents; the class [ExtentMap]
      is what the parser promises the reader).
    - ext3/ext4 journals, disk_images/ext_journal.py.  [ExtJournal] has the
      definitions: the scan of the journal into an index of block copies, past
      names of a directory, inodes, block maps, file content.  [ExtScan] shows
      the chunked scan equal to a block-by-block walk and descriptor tags read
      back, [ExtDirs] the records of a directory block and the history of names,
      [ExtRecover] which inode copy a deleted file is recovered from and that its
      content is the requested prefix of the mapped blocks.
    - The search language, search/query_syntax.py.  [QuerySyntax] has tokens,
      parser, field tables, the query sent to the search engine and the evaluator
      of one event.  [QueryParse]: the parser ends, within its limits, and reads
      any printed expression back.  [QueryEval]: query and evaluator agree on a
      model of what the engine matches, and where they do not.
    - Detection rules, rules_engine/sigma.py.  [SigmaCondition] and [SigmaRpn]: a
      condition's tokens, their translation to postfix order and its value, equal
      to the condition's truth value.  [SigmaTables], [SigmaMatch],
      [SigmaCompile], [SigmaEngine]: field maps, modifiers, keyword patterns,
      compilation, log source gate, both evaluators, candidate query.
      [SigmaEquiv]: a compiled rule gives the verdict of the rule as written; the
      keyword clause loses no match; what is lost otherwise.
    - systemd journals, ingest/linux/journal_binary.py.  [JournalBinary] is the
      whole reader, its field cache included; [JournalRead]: it always ends,
      without an exception for a journal, and the cache changes nothing;
      [JournalLayout]: a file laid out as header and objects is read back.
    - Chunked uploads, services/memory/upload_sessions.py, upload_lifecycle.py,
      services/upload_shared/, services/upload_locks.py, models/memory.py.
      [Handlers] has programs of atomic steps on a shared world, a run of one
      program alone and the interleaving of several; [FileSystem] the file
      operations with their errors; [UploadModel] the rows, locks and files of the
      uploads and the steps on them; [UploadShared] and [UploadSession] the
      services and the requests.  One step is one database transaction, one lock
      operation, or one scan or change of the file tree: a chunk's payload comes in
      pieces, each written to its temporary file by a step, and may break off.
      [UploadPlan]: the chunk plan, computed with floats, is exact.
      [UploadPromote]: promotion is atomic at every step.  [UploadInvariant]: the
      lengths of chunk files under their final names and of records in every
      interleaving; a request owns the temporary file whose name it has drawn
      ([acts] in [Handlers]), and a session that is opened meanwhile appears as a
      row without chunks.  [UploadRun] and [UploadComplete]: undisturbed, every chunk
      sent is stored and finalization completes.  [UploadRaces]: interleavings in
      which records and final states are lost.  [UploadSamples]: concrete data.
    - Evidence operations, services/evidence_operations.py with its tables.
      [EvidenceOperations]: transitions, progress, following a session, the
      reconciliation over a database session whose queries see committed rows.
      [OperationRules]: completion times.  [OperationReconcile]: the whole pass in
      closed form.  [OperationOutcome]: what it leaves, and what it gets wrong.

    - Experimental memory runs, services/memory/experimental_*.py and
      api/routes_memory_experimental.py.  [ExperimentalTrust]: what makes a symbol
      eligible, the catalogue, the acknowledgement, the trust of a run.
      [ExperimentalCanary]: the checks of the canary, its score and verdict.
      [ExperimentalModel] has the rows, what a commit writes, the unique indexes
      and the transitions of a run; [ExperimentalRun] the services, the jobs of
      the worker and the requests as programs of [Handlers].  [ExperimentalGates]
      and [ExperimentalRules]: whatever requests and jobs are interleaved, a run
      passes the acknowledgement before its canary and its full run, counts as
      passed or reaches its full run only after its canary was recorded as
      passed, or as degraded with an override, and nothing but experimental rows
      changes, of which the scans are never trusted (plugin runs first are:
      [ExperimentalFlaws]); what else may happen meanwhile ([others]) is
      any change that removes no row and keeps the identities of a requirement and
      a symbol.  The rely-guarantee rule they use is the last section of
      [Handlers].  [ExperimentalVerdict]: what a verdict means, and that the
      canary the worker runs never passes.  [ExperimentalFlaws]: concrete runs,
      among them interleavings that lose work.  The normalized documents of an
      output, the reading of JSON and dates, hashes, new identifiers and the access
      to the evidence file are parameters.

    - Archives, ingest/archive.py and ingest/ad1_image.py.  [PurePaths] has
      [pathlib] on the tree of [FileSystem]: paths with pairs of dots, what
      [resolve] makes of them, how the kernel follows them, [mkdir] with parents.
      [Effects] has programs that change a world and may raise, with rules for
      what every run does and what it returns.  [Archive]: paths and names that
      are refused or ignored, times, limits, extraction, folders, classification.
      [ArchiveSafe]: nothing outside the directory changes; [ArchiveExact]: what a
      ZIP leaves; [Ad1Image] and [Ad1Listed]: the files of an AD1 image;
      [ArchiveFlaws]: concrete archives.  The readers of the formats are
      parameters; there are no symbolic links.

    - Windows Prefetch files, ingest/raw_parsers/prefetch_parser.py.  [Prefetch]
      has the whole reader and what a failure is reported as.  [PrefetchRead]:
      every file is read or refused for one of the reported reasons, the work is
      bounded by the length of the file, the last run is the latest.
      [PrefetchLayout]: a file that was laid out is read back, compressed or not,
      and its name taken apart.  [PrefetchSamples]: a concrete file.  The
      decompressor is a parameter.
    - Times of Linux logs, ingest/linux/local_time.py.  [LocalTime]: the year and
      zone of lines written without them.  [LocalTimeYears]: when lines in order get the
      times at which they were written; uptime intervals; where the evidence of a
      host begins.  [LocalTimeSamples]: a concrete log, and lines out of order
      around a New Year.

    - Memory uploads in one request, services/memory/upload_capacity.py and
      core/storage.py.  [MemoryCapacity]: what an upload needs of each device, the
      decision, the largest upload that fits, found by halving.  [MemorySlot]: one
      upload at a time, by a key of Redis that expires; [KeyStore] has the commands
      and their laws; a call and its answer are two steps between which every
      other process may act, and either may be lost.  Its rules: of two holders within their leases one was
      disowned, a holder that refreshes in time stays one unless it is disowned, no
      dead holder keeps the slot; cancelling an upload or reconciling it by force
      disowns its request, and then the next one is let in.  [MemorySave]: [save_memory_upload], its surroundings
      asked at every call, what files read back as among them; [MemorySaveRules]: it
      is all or nothing, and what a refused request destroys.

    A disk image goes through LvmReader to a file system whose journal ExtJournal
    reads; uploads put the evidence in place, operations tell the analyst how far
    it is; search and rules run over the events that were indexed.

    ** Not modelled

    The API routers, background workers, job watchdog and command line, which
    sequence calls to services around queues and database sessions; the parsers
    of artifacts other than the systemd journal and Prefetch files, of which most
    drive a library or map columns (link files, event logs, the events made of
    journal entries), and the tables of the normalizers; the memory-analysis
    services other than uploads and experimental runs; reports, hosts, timelines
    and other services over indexed events; the AI assistant; the search engine's
    and database's own behaviour.  Within modelled files: reading the YAML of
    rules and the texts shown to analysts, the query of an uncompiled rule, the
    indexing of experimental documents, the import of a symbol, uploads made from
    a staged file, failing storage in chunked uploads, the repair and
    reconciliation of uploads made in one request, the repacking of an AD1 image,
    AD1 entries whose size the reader does not give,
    the zone and login records that a host clock is read from, the row a Prefetch
    file is handed on as, permissions of files, log lines. *)
From Stdlib Require Export ZArith Lia Sorted Permutation.
From Stdlib Require Export(notations) Ascii.
From stdpp Require Export base list gmap strings option.
(* stdpp's list lemmas take precedence over the Standard Library's. *)
Export stdpp.list_basics.list stdpp.list_relations.list stdpp.list_monad.list.

#[global] Open Scope Z_scope.

(** * Results of Python code

    A call either returns a value, raises an exception of the component's own
    exception type, or (in the model only) runs out of the fuel a loop was
    given.  The last case is kept apart from both, so that "the loop
    terminates" is the theorem that it never happens. *)
Inductive result (E A : Type) : Type :=
  | Ok (a : A)
  | Raise (e : E)
  | OutOfFuel.
Arguments Ok {E A} a.
Arguments Raise {E A} e.
Arguments OutOfFuel {E A}.

#[export] Instance result_ret E : MRet (result E) := fun _ a => Ok a.
#[export] Instance result_bind E : MBind (result E) := fun _ _ f m =>
  match m with Ok a => f a | Raise e => Raise e | OutOfFuel => OutOfFuel end.
#[export] Instance result_fmap E : FMap (result E) := fun _ _ f m =>
  match m with Ok a => Ok (f a) | Raise e => Raise e | OutOfFuel => OutOfFuel end.

Declare Scope py_scope.
Delimit Scope py_scope with py.
Notation "'let!' x := m 'in' k" := (mbind (M := result _) (fun x => k) m)
  (at level 200, x pattern, m at level 100, k at level 200, right associativity,
   format "'[v' 'let!'  x  :=  m  'in' '/' k ']'") : py_scope.
#[global] Open Scope py_scope.

(** [if b: raise e] *)
Definition raise_if {E} (b : bool) (e : E) : result E unit :=
  if b then Raise e else Ok tt.

Definition of_option {E A} (e : E) (o : option A) : result E A :=
  match o with Some a => Ok a | None => Raise e end.

Definition map_err {E E' A} (f : E -> E') (m : result E A) : result E' A :=
  match m with Ok a => Ok a | Raise e => Raise (f e) | OutOfFuel => OutOfFuel end.

Definition is_ok {E A} (m : result E A) : bool :=
  match m with Ok _ => true | _ => false end.

(** What a run must satisfy: [Q] of the value it returns, [R] of the exception
    it raises; running out of fuel satisfies nothing. *)
Definition outcome {E A} (Q : A -> Prop) (R : E -> Prop) (m : result E A) : Prop :=
  match m with Ok a => Q a | Raise e => R e | OutOfFuel => False end.

Lemma bind_Ok {E A B} (m : result E A) (f : A -> result E B) b :
  mbind f m = Ok b <-> exists a, m = Ok a /\ f a = Ok b.
Proof. destruct m; split; cbn; try naive_solver. Qed.

Lemma bind_Raise {E A B} (m : result E A) (f : A -> result E B) e :
  mbind f m = Raise e <-> m = Raise e \/ exists a, m = Ok a /\ f a = Raise e.
Proof. destruct m; split; cbn; try naive_solver. Qed.

Lemma raise_if_Ok {E} (b : bool) (e : E) u : raise_if b e = Ok u <-> b = false.
Proof. destruct b, u; cbn; naive_solver. Qed.

Lemma raise_if_Raise {E} (b : bool) (e e' : E) :
  raise_if b e = Raise e' <-> b = true /\ e = e'.
Proof. destruct b; cbn; naive_solver. Qed.

Lemma raise_if_cases {E} (b : bool) (e : E) : raise_if b e = Ok tt \/ raise_if b e = Raise e.
Proof. destruct b; [by right|by left]. Qed.

Lemma of_option_Ok {E A} (e : E) (o : option A) a : of_option e o = Ok a <-> o = Some a.
Proof. destruct o; cbn; naive_solver. Qed.

Lemma outcome_bind {E A B} (Q : B -> Prop) (R : E -> Prop) (m : result E A) (f : A -> result E B) :
  outcome (fun a => outcome Q R (f a)) R m -> outcome Q R (mbind f m).
Proof. by destruct m. Qed.

Lemma outcome_mono {E A} (Q Q' : A -> Prop) (R R' : E -> Prop) (m : result E A) :
  (forall a, Q a -> Q' a) -> (forall e, R e -> R' e) ->
  outcome Q R m -> outcome Q' R' m.
Proof. destruct m; cbn; auto. Qed.

Lemma outcome_Ok {E A} (Q : A -> Prop) (R : E -> Prop) (m : result E A) a :
  outcome Q R m -> m = Ok a -> Q a.
Proof. by intros H ->. Qed.

Lemma outcome_Raise {E A} (Q : A -> Prop) (R : E -> Prop) (m : result E A) e :
  outcome Q R m -> m = Raise e -> R e.
Proof. by intros H ->. Qed.

(** * Loops

    [while fuel body s] is [while True:] whose body either continues with a
    new state ([inl]), leaves the loop with a value ([inr]) or raises. *)
Fixpoint while {E S A} (fuel : nat) (body : S -> result E (S + A)) (s : S) : result E A :=
  match fuel with
  | O => OutOfFuel
  | Datatypes.S n =>
      match body s with
      | Ok (inl s') => while n body s'
      | Ok (inr a) => Ok a
      | Raise e => Raise e
      | OutOfFuel => OutOfFuel
      end
  end.

(** The total-correctness rule: an invariant, a measure that every iteration
    decreases, and fuel above the measure. *)
Lemma while_total {E S A} (I : S -> Prop) (m : S -> nat) (Q : A -> Prop) (R : E -> Prop)
    (body : S -> result E (S + A)) :
  (forall s, I s ->
     outcome (fun r => match r with
                       | inl s' => I s' /\ (m s' < m s)%nat
                       | inr a => Q a
                       end) R (body s)) ->
  forall fuel s, I s -> (m s < fuel)%nat -> outcome Q R (while fuel body s).
Proof.
  intros Hstep fuel. induction fuel as [|fuel IH]; intros s Hs Hm; [lia|].
  cbn [while]. specialize (Hstep s Hs).
  destruct (body s) as [[s'|a]|e|]; cbn in *; [|done..].
  destruct Hstep. apply IH; [done|lia].
Qed.

(** More fuel than the measure changes nothing. *)
Lemma while_fuel_mono {E S A} (body : S -> result E (S + A)) fuel fuel' s r :
  while fuel body s = r -> r <> OutOfFuel -> (fuel <= fuel')%nat ->
  while fuel' body s = r.
Proof.
  revert fuel' s. induction fuel as [|fuel IH]; intros fuel' s Hr Hne Hle; [by subst|].
  destruct fuel' as [|fuel']; [lia|]. cbn [while] in *.
  destruct (body s) as [[s'|a]|e|]; try done. apply IH; auto; lia.
Qed.

(** One unrolling. *)
Lemma while_unfold {E S A} (body : S -> result E (S + A)) fuel s :
  while (Datatypes.S fuel) body s =
  match body s with
  | Ok (inl s') => while fuel body s'
  | Ok (inr a) => Ok a
  | Raise e => Raise e
  | OutOfFuel => OutOfFuel
  end.
Proof. done. Qed.

(** [for x in l: s = f(s, x)] with a body that may raise. *)
Fixpoint foldM {E S X} (f : S -> X -> result E S) (s : S) (l : list X) : result E S :=
  match l with
  | [] => Ok s
  | x :: l' => let! s' := f s x in foldM f s' l'
  end.

(** A list comprehension whose element expression may raise. *)
Fixpoint mapM_py {E X Y} (f : X -> result E Y) (l : list X) : result E (list Y) :=
  match l with
  | [] => Ok []
  | x :: l' => let! y := f x in let! ys := mapM_py f l' in Ok (y :: ys)
  end.

(** [any] and [all] of conditions that may raise, stopping early. *)
Fixpoint anyM {E X} (f : X -> result E bool) (l : list X) : result E bool :=
  match l with
  | [] => Ok false
  | x :: l' => let! b := f x in if (b : bool) then Ok true else anyM f l'
  end.
Fixpoint allM {E X} (f : X -> result E bool) (l : list X) : result E bool :=
  match l with
  | [] => Ok true
  | x :: l' => let! b := f x in if (b : bool) then allM f l' else Ok false
  end.

Lemma foldM_app {E S X} (f : S -> X -> result E S) s l1 l2 :
  foldM f s (l1 ++ l2) = let! s' := foldM f s l1 in foldM f s' l2.
Proof.
  revert s. induction l1 as [|x l1 IH]; intros s; [done|].
  cbn. destruct (f s x); cbn; auto.
Qed.

Lemma mapM_py_Ok {E X Y} (f : X -> result E Y) l ys :
  mapM_py f l = Ok ys <-> Forall2 (fun x y => f x = Ok y) l ys.
Proof.
  revert ys. induction l as [|x l IH]; intros ys; cbn; split.
  - intros [= <-]. constructor.
  - by intros ->%Forall2_nil_inv_l.
  - intros (y & Hy & (ys' & Hys & [= <-])%bind_Ok)%bind_Ok.
    constructor; [done|]. by apply IH.
  - intros (y & ys' & Hy & Hys & ->)%Forall2_cons_inv_l.
    rewrite Hy. cbn. by apply IH in Hys as ->.
Qed.

Lemma mapM_py_build {E X Y} (f : X -> result E Y) (R : X -> Y -> Prop) (P : Y -> Prop) l ys :
  (forall x y, R x y -> P y -> f x = Ok y) -> Forall2 R l ys -> Forall P ys -> mapM_py f l = Ok ys.
Proof.
  intros Hf Hl Hp. apply mapM_py_Ok.
  induction Hl as [|x y l ys Hxy _ IH]; [constructor|].
  apply Forall_cons in Hp as [? ?]. constructor; auto.
Qed.

Lemma foldM_inv {E S X} (P : S -> Prop) (f : S -> X -> result E S) l s s' :
  (forall s x s', x ∈ l -> P s -> f s x = Ok s' -> P s') ->
  P s -> foldM f s l = Ok s' -> P s'.
Proof.
  revert s. induction l as [|x l IH]; intros s Hf Hs; cbn.
  - by intros [= <-].
  - intros (s1 & H1 & H2)%bind_Ok.
    eapply (IH s1); [|by eapply Hf; [left| |]|done].
    intros; eapply Hf; [by right|..]; done.
Qed.

(** * Records

    [r <| f := v |>] is [r] with the field [f] changed.  A record type supports
    it once it has an instance of [Rebuild] that lists its fields. *)
Class Rebuild (R : Type) := rebuild : R -> R.
Class Setter {R T : Type} (proj : R -> T) := set_field : (T -> T) -> R -> R.
Arguments set_field {R T} proj {_} _ _.
Ltac derive_setter :=
  match goal with
  | |- @Setter ?R ?T ?proj =>
      let change := fresh "change" in let r := fresh "r" in
      intros change r;
      let b := constr:(_ : Rebuild R) in
      let b := eval red in b in
      let t := eval cbv beta in (b r) in
      match eval pattern (proj r) in t with
      | ?g _ => let t' := eval cbv beta in (g (change (proj r))) in exact t'
      end
  end.
#[export] Hint Extern 1 (Setter _) => derive_setter : typeclass_instances.
Notation "r <| f := v |>" := (set_field f (fun _ => v) r)
  (at level 12, left associativity, f constr at level 10, v at level 200, format "r  <| f  :=  v |>") : py_scope.

(** * Lists *)
Lemma filter_none {A} (P : A -> Prop) `{forall x, Decision (P x)} l : (forall x, x ∈ l -> ~ P x) -> filter P l = [].
Proof.
  intros Hl. destruct (filter P l) as [|x l'] eqn:Hf; [done|].
  assert (x ∈ filter P l) as [Hp Hx]%list_elem_of_filter by (rewrite Hf; by left). by destruct (Hl x).
Qed.

Lemma lookup_mid {A} (p : list A) c r : (p ++ c :: r) !! length p = Some c.
Proof. rewrite lookup_app_r by lia. by rewrite Nat.sub_diag. Qed.

Lemma lookup_mid_S {A} (p : list A) c d r : (p ++ c :: d :: r) !! (length p + 1)%nat = Some d.
Proof. rewrite lookup_app_r by lia. by replace (length p + 1 - length p)%nat with 1%nat by lia. Qed.

(** The lemmas that close a goal by themselves. *)
Create HintDb py.
#[export] Hint Resolve outcome_bind lookup_mid lookup_mid_S : py.

Lemma lookup_at {A} (l p : list A) c r : l = p ++ c :: r -> l !! length p = Some c.
Proof. intros ->. auto with py. Qed.

Lemma lookup_at_S {A} (l p : list A) c d r :
  l = p ++ c :: d :: r -> l !! (length p + 1)%nat = Some d.
Proof. intros ->. auto with py. Qed.

Lemma drop_mid {A} (p r : list A) : drop (length p) (p ++ r) = r.
Proof. apply drop_app_length. Qed.

Lemma lookup_repeat {A} (x : A) n i : (i < n)%nat -> repeat x n !! i = Some x.
Proof. revert i. induction n as [|n IH]; intros [|i] Hi; cbn; try lia; [done|]. apply IH. lia. Qed.

(** The tactic of the error monad: take apart every hypothesis saying that a
    run returned a value. *)
Ltac res_inv :=
  repeat match goal with
  | H : mbind _ _ = Ok _ |- _ => apply bind_Ok in H as (? & ? & ?)
  | H : raise_if _ _ = Ok _ |- _ => apply raise_if_Ok in H
  | H : of_option _ _ = Ok _ |- _ => apply of_option_Ok in H
  | H : Ok _ = Ok _ |- _ => injection H as H
  | H : Some _ = Some _ |- _ => injection H as H
  | H : Raise _ = Ok _ |- _ => discriminate H
  | H : OutOfFuel = Ok _ |- _ => discriminate H
  | H : None = Some _ |- _ => discriminate H
  | H : (_, _) = (_, _) |- _ => injection H as ? ?
  | p : (_ * _)%type |- _ => destruct p
  end; cbn in *; subst.

(** Case analysis on the tests of a guard, with the arithmetic ones as
    propositions. *)
Ltac to_prop :=
  repeat match goal with
  | H : (_ && _) = true |- _ => apply andb_prop in H as [? ?]
  | H : (_ || _) = false |- _ => apply orb_false_elim in H as [? ?]
  | H : negb _ = true |- _ => apply negb_true_iff in H
  | H : negb _ = false |- _ => apply negb_false_iff in H
  | H : (_ <? _) = true |- _ => apply Z.ltb_lt in H
  | H : (_ <? _) = false |- _ => apply Z.ltb_ge in H
  | H : (_ <=? _) = true |- _ => apply Z.leb_le in H
  | H : (_ <=? _) = false |- _ => apply Z.leb_gt in H
  | H : (_ =? _) = true |- _ => apply Z.eqb_eq in H
  | H : (_ =? _) = false |- _ => apply Z.eqb_neq in H
  | H : (_ <? _)%nat = true |- _ => apply Nat.ltb_lt in H
  | H : (_ <? _)%nat = false |- _ => apply Nat.ltb_ge in H
  | H : (_ <=? _)%nat = true |- _ => apply Nat.leb_le in H
  | H : (_ <=? _)%nat = false |- _ => apply Nat.leb_gt in H
  | H : (_ =? _)%nat = true |- _ => apply Nat.eqb_eq in H
  | H : (_ =? _)%nat = false |- _ => apply Nat.eqb_neq in H
  | H : bool_decide _ = true |- _ => apply bool_decide_eq_true in H
  | H : bool_decide _ = false |- _ => apply bool_decide_eq_false in H
  end.
