(* ===== verification/PyBase.v ===== *)
(** Python data the components share: [bytes] and slices, the [struct] formats
    the code reads, [str] as a sequence of code points with the character
    classes and conversions the code calls, and [dict] with its insertion
    order.  Every definition is a pure, executable function. *)
From S2P Require Import Prelude.

(** Exceptions the Python runtime and standard library raise. *)
Inductive py_exn : Type :=
  | StructError          (** struct.error: buffer too short *)
  | IndexError
  | KeyError
  | ValueError
  | UnicodeDecodeError
  | TypeError
  | ZeroDivisionError
  | OSError
  | OverflowError
  | AttributeError
  | LookupError.

#[export] Instance py_exn_eq_dec : EqDecision py_exn.
Proof. solve_decision. Defined.

(** * bytes *)
Module Bytes.

Definition is_byte (b : Z) : Prop := 0 <= b < 256.
Definition wf (d : list Z) : Prop := Forall is_byte d.

Definition len {A} (d : list A) : Z := Z.of_nat (length d).

(** [data[a:b]] for non-negative bounds; a reversed or out-of-range slice is
    short or empty, as in Python. *)
Definition slice {A} (a b : Z) (d : list A) : list A :=
  take (Z.to_nat (b - a)) (drop (Z.to_nat a) d).

(** The value of little- and big-endian digits. *)
Fixpoint le_val (d : list Z) : Z :=
  match d with [] => 0 | b :: d' => b + 256 * le_val d' end.
Definition be_val (d : list Z) : Z := le_val (rev d).

Fixpoint le_enc (n : nat) (v : Z) : list Z :=
  match n with O => [] | S n' => v mod 256 :: le_enc n' (v / 256) end.
Definition be_enc (n : nat) (v : Z) : list Z := rev (le_enc n v).

(** [struct.unpack_from("<..." , data, off)] of one unsigned field of [n]
    bytes; [struct.error] when the buffer is too short. *)
Definition u_le (n : nat) (d : list Z) (off : Z) : option Z :=
  let s := slice off (off + Z.of_nat n) d in
  if Nat.eqb (length s) n then Some (le_val s) else None.
Definition u_be (n : nat) (d : list Z) (off : Z) : option Z :=
  let s := slice off (off + Z.of_nat n) d in
  if Nat.eqb (length s) n then Some (be_val s) else None.

Lemma le_val_bound d : wf d -> 0 <= le_val d < 256 ^ len d.
Proof.
  unfold len. induction 1 as [|b d [? ?] Hd IH]; [cbn; lia|].
  cbn [length le_val]. rewrite Nat2Z.inj_succ, Z.pow_succ_r by lia. lia.
Qed.

Lemma le_enc_length n v : length (le_enc n v) = n.
Proof. revert v. induction n; cbn; auto. Qed.

Lemma be_enc_length n v : length (be_enc n v) = n.
Proof. unfold be_enc. by rewrite length_rev, le_enc_length. Qed.

Lemma le_enc_wf n v : wf (le_enc n v).
Proof.
  revert v. induction n; intros v; cbn; constructor; [|by apply IHn].
  unfold is_byte. apply Z.mod_pos_bound. lia.
Qed.

Lemma be_enc_wf n v : wf (be_enc n v).
Proof. apply Forall_rev, le_enc_wf. Qed.

Lemma le_val_enc n v : 0 <= v < 256 ^ Z.of_nat n -> le_val (le_enc n v) = v.
Proof.
  revert v. induction n as [|n IH]; intros v Hv; [cbn in *; lia|].
  rewrite Nat2Z.inj_succ, Z.pow_succ_r in Hv by lia.
  cbn [le_enc le_val]. rewrite IH.
  - pose proof (Z.div_mod v 256). lia.
  - split; [apply Z.div_pos; lia|]. apply Z.div_lt_upper_bound; lia.
Qed.

Lemma be_val_enc n v : 0 <= v < 256 ^ Z.of_nat n -> be_val (be_enc n v) = v.
Proof. intros. unfold be_val, be_enc. rewrite rev_involutive. by apply le_val_enc. Qed.

Lemma slice_app {A} (p x s : list A) a b :
  a = len p -> b = len p + len x -> slice a b (p ++ x ++ s) = x.
Proof.
  unfold slice, len. intros -> ->.
  rewrite Nat2Z.id, drop_app_length.
  replace (Z.to_nat _) with (length x) by lia. by rewrite take_app_length.
Qed.

Lemma slice_length {A} (a b : Z) (d : list A) :
  0 <= a -> a <= b -> b <= len d -> len (slice a b d) = b - a.
Proof. unfold slice, len. intros. rewrite length_take, length_drop. lia. Qed.

Lemma slice_length_le {A} (a b : Z) (d : list A) : a <= b -> len (slice a b d) <= b - a.
Proof. unfold slice, len. intros. rewrite length_take. lia. Qed.

Lemma slice_all {A} (d : list A) b : len d <= b -> slice 0 b d = d.
Proof. unfold slice, len. intros. cbn. apply take_ge. lia. Qed.

Lemma slice_app_l {A} (p s : list A) a b : 0 <= a <= b -> b <= len p -> slice a b (p ++ s) = slice a b p.
Proof.
  unfold slice, len. intros ? ?. rewrite drop_app_le by lia.
  rewrite take_app_le; [done|]. rewrite length_drop. lia.
Qed.

Lemma slice_app_r {A} (p s : list A) a b :
  len p <= a -> slice a b (p ++ s) = slice (a - len p) (b - len p) s.
Proof.
  unfold slice, len. intros ?. rewrite drop_app_ge by lia. f_equal; [lia|]. f_equal. lia.
Qed.

Lemma slice_slice {A} (d : list A) a b c e :
  0 <= c -> c <= e -> 0 <= a -> e <= b - a -> slice c e (slice a b d) = slice (a + c) (a + e) d.
Proof.
  unfold slice. intros. rewrite skipn_firstn_comm, drop_drop, take_take. f_equal; [lia|]. f_equal. lia.
Qed.

Lemma slice_wf a b d : wf d -> wf (slice a b d).
Proof. intros. by apply Forall_take, Forall_drop. Qed.

Lemma u_le_app n p x s off :
  length x = n -> off = len p -> u_le n (p ++ x ++ s) off = Some (le_val x).
Proof.
  intros Hx ->. unfold u_le. rewrite slice_app; [|done|unfold len; lia].
  by rewrite Hx, Nat.eqb_refl.
Qed.

Lemma u_be_app n p x s off :
  length x = n -> off = len p -> u_be n (p ++ x ++ s) off = Some (be_val x).
Proof.
  intros Hx ->. unfold u_be. rewrite slice_app; [|done|unfold len; lia].
  by rewrite Hx, Nat.eqb_refl.
Qed.

Lemma u_le_Some n d off :
  0 <= off -> off + Z.of_nat n <= len d -> is_Some (u_le n d off).
Proof.
  intros. unfold u_le. case_match eqn:E; [eauto|].
  apply Nat.eqb_neq in E. destruct E.
  pose proof (slice_length off (off + Z.of_nat n) d) as Hl. unfold len in *. lia.
Qed.

Lemma u_be_Some n d off :
  0 <= off -> off + Z.of_nat n <= len d -> is_Some (u_be n d off).
Proof.
  intros. unfold u_be. case_match eqn:E; [eauto|].
  apply Nat.eqb_neq in E. destruct E.
  pose proof (slice_length off (off + Z.of_nat n) d) as Hl. unfold len in *. lia.
Qed.

Lemma u_le_inv n d off v :
  0 <= off -> (0 < n)%nat -> u_le n d off = Some v -> off + Z.of_nat n <= len d.
Proof.
  unfold u_le. intros ? ?. case_match eqn:E; [|done]. intros _.
  apply Nat.eqb_eq in E. unfold slice, len in *.
  rewrite length_take, length_drop in E. lia.
Qed.

Lemma u_be_inv n d off v :
  0 <= off -> (0 < n)%nat -> u_be n d off = Some v -> off + Z.of_nat n <= len d.
Proof.
  unfold u_be. intros ? ?. case_match eqn:E; [|done]. intros _.
  apply Nat.eqb_eq in E. unfold slice, len in *.
  rewrite length_take, length_drop in E. lia.
Qed.

Lemma u_le_bound n d off v : wf d -> u_le n d off = Some v -> 0 <= v < 256 ^ Z.of_nat n.
Proof.
  unfold u_le. intros Hd. case_match eqn:E; [|done]. intros [= <-].
  apply Nat.eqb_eq in E.
  pose proof (le_val_bound _ (slice_wf off (off + Z.of_nat n) d Hd)) as Hb.
  unfold len in Hb. by rewrite E in Hb.
Qed.

Lemma u_be_bound n d off v : wf d -> u_be n d off = Some v -> 0 <= v < 256 ^ Z.of_nat n.
Proof.
  unfold u_be, be_val. intros Hd. case_match eqn:E; [|done]. intros [= <-].
  apply Nat.eqb_eq in E.
  assert (wf (rev (slice off (off + Z.of_nat n) d))) as Hw%le_val_bound
    by (apply Forall_rev, slice_wf, Hd).
  unfold len in Hw. by rewrite length_rev, E in Hw.
Qed.

End Bytes.

(** * str *)
Module Str.

(** A [str] is its sequence of code points. *)
Abbreviation str := (list Z).

Definition code (a : Ascii.ascii) : Z := Z.of_N (Ascii.N_of_ascii a).
#[global] Arguments code a%_char.
(** A literal of the source. *)
Definition lit (s : string) : str := map code (String.list_ascii_of_string s).

Definition in_ranges (rs : list (Z * Z)) (c : Z) : bool :=
  existsb (fun '(a, b) => (a <=? c) && (c <=? b)) rs.

(** [str.isspace] of one character. *)
Definition isspace (c : Z) : bool :=
  in_ranges [(9, 13); (28, 32); (133, 133); (160, 160); (5760, 5760); (8192, 8202);
             (8232, 8233); (8239, 8239); (8287, 8287); (12288, 12288)] c.

(** The zero of each run of ten decimal digits (category Nd), Unicode 15. *)
Definition decimal_zeros : list Z :=
  [48; 1632; 1776; 1984; 2406; 2534; 2662; 2790; 2918; 3046; 3174; 3302; 3430; 3558;
   3664; 3792; 3872; 4160; 4240; 6112; 6160; 6470; 6608; 6784; 6800; 6992; 7088; 7232;
   7248; 42528; 43216; 43264; 43472; 43504; 43600; 44016; 65296; 66720; 68912; 69734;
   69872; 69942; 70096; 70384; 70736; 70864; 71248; 71360; 71472; 71904; 72016; 72784;
   73040; 73120; 73552; 92768; 92864; 93008; 120782; 120792; 120802; 120812; 120822;
   123200; 123632; 124144; 125264; 130032].
(** Digits that are not decimal digits: superscripts, circled digits, ... *)
Definition other_digits : list (Z * Z) :=
  [(178, 179); (185, 185); (4969, 4977); (6618, 6618); (8304, 8304); (8308, 8313);
   (8320, 8329); (9312, 9320); (9332, 9340); (9352, 9360); (9450, 9450); (9461, 9469);
   (9471, 9471); (10102, 10110); (10112, 10120); (10122, 10130); (68160, 68163);
   (69216, 69224); (69714, 69722); (127232, 127242)].

Definition decimal_value (c : Z) : option Z :=
  match List.find (fun z => (z <=? c) && (c <=? z + 9)) decimal_zeros with
  | Some z => Some (c - z)
  | None => None
  end.
Definition isdecimal (c : Z) : bool := bool_decide (is_Some (decimal_value c)).
(** [str.isdigit] of one character. *)
Definition isdigit (c : Z) : bool := isdecimal c || in_ranges other_digits c.

(** The characters [str.isprintable] refuses (Unicode 15.0). *)
Definition unprintable : list (Z * Z) :=
  [(0, 31); (127, 160); (173, 173); (888, 889); (896, 899); (907, 907); (909, 909); (930, 930); (1328, 1328);
   (1367, 1368); (1419, 1420); (1424, 1424); (1480, 1487); (1515, 1518); (1525, 1541); (1564, 1564);
   (1757, 1757); (1806, 1807); (1867, 1868); (1970, 1983); (2043, 2044); (2094, 2095); (2111, 2111);
   (2140, 2141); (2143, 2143); (2155, 2159); (2191, 2199); (2274, 2274); (2436, 2436); (2445, 2446);
   (2449, 2450); (2473, 2473); (2481, 2481); (2483, 2485); (2490, 2491); (2501, 2502); (2505, 2506);
   (2511, 2518); (2520, 2523); (2526, 2526); (2532, 2533); (2559, 2560); (2564, 2564); (2571, 2574);
   (2577, 2578); (2601, 2601); (2609, 2609); (2612, 2612); (2615, 2615); (2618, 2619); (2621, 2621);
   (2627, 2630); (2633, 2634); (2638, 2640); (2642, 2648); (2653, 2653); (2655, 2661); (2679, 2688);
   (2692, 2692); (2702, 2702); (2706, 2706); (2729, 2729); (2737, 2737); (2740, 2740); (2746, 2747);
   (2758, 2758); (2762, 2762); (2766, 2767); (2769, 2783); (2788, 2789); (2802, 2808); (2816, 2816);
   (2820, 2820); (2829, 2830); (2833, 2834); (2857, 2857); (2865, 2865); (2868, 2868); (2874, 2875);
   (2885, 2886); (2889, 2890); (2894, 2900); (2904, 2907); (2910, 2910); (2916, 2917); (2936, 2945);
   (2948, 2948); (2955, 2957); (2961, 2961); (2966, 2968); (2971, 2971); (2973, 2973); (2976, 2978);
   (2981, 2983); (2987, 2989); (3002, 3005); (3011, 3013); (3017, 3017); (3022, 3023); (3025, 3030);
   (3032, 3045); (3067, 3071); (3085, 3085); (3089, 3089); (3113, 3113); (3130, 3131); (3141, 3141);
   (3145, 3145); (3150, 3156); (3159, 3159); (3163, 3164); (3166, 3167); (3172, 3173); (3184, 3190);
   (3213, 3213); (3217, 3217); (3241, 3241); (3252, 3252); (3258, 3259); (3269, 3269); (3273, 3273);
   (3278, 3284); (3287, 3292); (3295, 3295); (3300, 3301); (3312, 3312); (3316, 3327); (3341, 3341);
   (3345, 3345); (3397, 3397); (3401, 3401); (3408, 3411); (3428, 3429); (3456, 3456); (3460, 3460);
   (3479, 3481); (3506, 3506); (3516, 3516); (3518, 3519); (3527, 3529); (3531, 3534); (3541, 3541);
   (3543, 3543); (3552, 3557); (3568, 3569); (3573, 3584); (3643, 3646); (3676, 3712); (3715, 3715);
   (3717, 3717); (3723, 3723); (3748, 3748); (3750, 3750); (3774, 3775); (3781, 3781); (3783, 3783);
   (3791, 3791); (3802, 3803); (3808, 3839); (3912, 3912); (3949, 3952); (3992, 3992); (4029, 4029);
   (4045, 4045); (4059, 4095); (4294, 4294); (4296, 4300); (4302, 4303); (4681, 4681); (4686, 4687);
   (4695, 4695); (4697, 4697); (4702, 4703); (4745, 4745); (4750, 4751); (4785, 4785); (4790, 4791);
   (4799, 4799); (4801, 4801); (4806, 4807); (4823, 4823); (4881, 4881); (4886, 4887); (4955, 4956);
   (4989, 4991); (5018, 5023); (5110, 5111); (5118, 5119); (5760, 5760); (5789, 5791); (5881, 5887);
   (5910, 5918); (5943, 5951); (5972, 5983); (5997, 5997); (6001, 6001); (6004, 6015); (6110, 6111);
   (6122, 6127); (6138, 6143); (6158, 6158); (6170, 6175); (6265, 6271); (6315, 6319); (6390, 6399);
   (6431, 6431); (6444, 6447); (6460, 6463); (6465, 6467); (6510, 6511); (6517, 6527); (6572, 6575);
   (6602, 6607); (6619, 6621); (6684, 6685); (6751, 6751); (6781, 6782); (6794, 6799); (6810, 6815);
   (6830, 6831); (6863, 6911); (6989, 6991); (7039, 7039); (7156, 7163); (7224, 7226); (7242, 7244);
   (7305, 7311); (7355, 7356); (7368, 7375); (7419, 7423); (7958, 7959); (7966, 7967); (8006, 8007);
   (8014, 8015); (8024, 8024); (8026, 8026); (8028, 8028); (8030, 8030); (8062, 8063); (8117, 8117);
   (8133, 8133); (8148, 8149); (8156, 8156); (8176, 8177); (8181, 8181); (8191, 8207); (8232, 8239);
   (8287, 8303); (8306, 8307); (8335, 8335); (8349, 8351); (8385, 8399); (8433, 8447); (8588, 8591);
   (9255, 9279); (9291, 9311); (11124, 11125); (11158, 11158); (11508, 11512); (11558, 11558);
   (11560, 11564); (11566, 11567); (11624, 11630); (11633, 11646); (11671, 11679); (11687, 11687);
   (11695, 11695); (11703, 11703); (11711, 11711); (11719, 11719); (11727, 11727); (11735, 11735);
   (11743, 11743); (11870, 11903); (11930, 11930); (12020, 12031); (12246, 12271); (12284, 12288);
   (12352, 12352); (12439, 12440); (12544, 12548); (12592, 12592); (12687, 12687); (12772, 12783);
   (12831, 12831); (42125, 42127); (42183, 42191); (42540, 42559); (42744, 42751); (42955, 42959);
   (42962, 42962); (42964, 42964); (42970, 42993); (43053, 43055); (43066, 43071); (43128, 43135);
   (43206, 43213); (43226, 43231); (43348, 43358); (43389, 43391); (43470, 43470); (43482, 43485);
   (43519, 43519); (43575, 43583); (43598, 43599); (43610, 43611); (43715, 43738); (43767, 43776);
   (43783, 43784); (43791, 43792); (43799, 43807); (43815, 43815); (43823, 43823); (43884, 43887);
   (44014, 44015); (44026, 44031); (55204, 55215); (55239, 55242); (55292, 63743); (64110, 64111);
   (64218, 64255); (64263, 64274); (64280, 64284); (64311, 64311); (64317, 64317); (64319, 64319);
   (64322, 64322); (64325, 64325); (64451, 64466); (64912, 64913); (64968, 64974); (64976, 65007);
   (65050, 65055); (65107, 65107); (65127, 65127); (65132, 65135); (65141, 65141); (65277, 65280);
   (65471, 65473); (65480, 65481); (65488, 65489); (65496, 65497); (65501, 65503); (65511, 65511);
   (65519, 65531); (65534, 65535); (65548, 65548); (65575, 65575); (65595, 65595); (65598, 65598);
   (65614, 65615); (65630, 65663); (65787, 65791); (65795, 65798); (65844, 65846); (65935, 65935);
   (65949, 65951); (65953, 65999); (66046, 66175); (66205, 66207); (66257, 66271); (66300, 66303);
   (66340, 66348); (66379, 66383); (66427, 66431); (66462, 66462); (66500, 66503); (66518, 66559);
   (66718, 66719); (66730, 66735); (66772, 66775); (66812, 66815); (66856, 66863); (66916, 66926);
   (66939, 66939); (66955, 66955); (66963, 66963); (66966, 66966); (66978, 66978); (66994, 66994);
   (67002, 67002); (67005, 67071); (67383, 67391); (67414, 67423); (67432, 67455); (67462, 67462);
   (67505, 67505); (67515, 67583); (67590, 67591); (67593, 67593); (67638, 67638); (67641, 67643);
   (67645, 67646); (67670, 67670); (67743, 67750); (67760, 67807); (67827, 67827); (67830, 67834);
   (67868, 67870); (67898, 67902); (67904, 67967); (68024, 68027); (68048, 68049); (68100, 68100);
   (68103, 68107); (68116, 68116); (68120, 68120); (68150, 68151); (68155, 68158); (68169, 68175);
   (68185, 68191); (68256, 68287); (68327, 68330); (68343, 68351); (68406, 68408); (68438, 68439);
   (68467, 68471); (68498, 68504); (68509, 68520); (68528, 68607); (68681, 68735); (68787, 68799);
   (68851, 68857); (68904, 68911); (68922, 69215); (69247, 69247); (69290, 69290); (69294, 69295);
   (69298, 69372); (69416, 69423); (69466, 69487); (69514, 69551); (69580, 69599); (69623, 69631);
   (69710, 69713); (69750, 69758); (69821, 69821); (69827, 69839); (69865, 69871); (69882, 69887);
   (69941, 69941); (69960, 69967); (70007, 70015); (70112, 70112); (70133, 70143); (70162, 70162);
   (70210, 70271); (70279, 70279); (70281, 70281); (70286, 70286); (70302, 70302); (70314, 70319);
   (70379, 70383); (70394, 70399); (70404, 70404); (70413, 70414); (70417, 70418); (70441, 70441);
   (70449, 70449); (70452, 70452); (70458, 70458); (70469, 70470); (70473, 70474); (70478, 70479);
   (70481, 70486); (70488, 70492); (70500, 70501); (70509, 70511); (70517, 70655); (70748, 70748);
   (70754, 70783); (70856, 70863); (70874, 71039); (71094, 71095); (71134, 71167); (71237, 71247);
   (71258, 71263); (71277, 71295); (71354, 71359); (71370, 71423); (71451, 71452); (71468, 71471);
   (71495, 71679); (71740, 71839); (71923, 71934); (71943, 71944); (71946, 71947); (71956, 71956);
   (71959, 71959); (71990, 71990); (71993, 71994); (72007, 72015); (72026, 72095); (72104, 72105);
   (72152, 72153); (72165, 72191); (72264, 72271); (72355, 72367); (72441, 72447); (72458, 72703);
   (72713, 72713); (72759, 72759); (72774, 72783); (72813, 72815); (72848, 72849); (72872, 72872);
   (72887, 72959); (72967, 72967); (72970, 72970); (73015, 73017); (73019, 73019); (73022, 73022);
   (73032, 73039); (73050, 73055); (73062, 73062); (73065, 73065); (73103, 73103); (73106, 73106);
   (73113, 73119); (73130, 73439); (73465, 73471); (73489, 73489); (73531, 73533); (73562, 73647);
   (73649, 73663); (73714, 73726); (74650, 74751); (74863, 74863); (74869, 74879); (75076, 77711);
   (77811, 77823); (78896, 78911); (78934, 82943); (83527, 92159); (92729, 92735); (92767, 92767);
   (92778, 92781); (92863, 92863); (92874, 92879); (92910, 92911); (92918, 92927); (92998, 93007);
   (93018, 93018); (93026, 93026); (93048, 93052); (93072, 93759); (93851, 93951); (94027, 94030);
   (94088, 94094); (94112, 94175); (94181, 94191); (94194, 94207); (100344, 100351); (101590, 101631);
   (101641, 110575); (110580, 110580); (110588, 110588); (110591, 110591); (110883, 110897);
   (110899, 110927); (110931, 110932); (110934, 110947); (110952, 110959); (111356, 113663);
   (113771, 113775); (113789, 113791); (113801, 113807); (113818, 113819); (113824, 118527);
   (118574, 118575); (118599, 118607); (118724, 118783); (119030, 119039); (119079, 119080);
   (119155, 119162); (119275, 119295); (119366, 119487); (119508, 119519); (119540, 119551);
   (119639, 119647); (119673, 119807); (119893, 119893); (119965, 119965); (119968, 119969);
   (119971, 119972); (119975, 119976); (119981, 119981); (119994, 119994); (119996, 119996);
   (120004, 120004); (120070, 120070); (120075, 120076); (120085, 120085); (120093, 120093);
   (120122, 120122); (120127, 120127); (120133, 120133); (120135, 120137); (120145, 120145);
   (120486, 120487); (120780, 120781); (121484, 121498); (121504, 121504); (121520, 122623);
   (122655, 122660); (122667, 122879); (122887, 122887); (122905, 122906); (122914, 122914);
   (122917, 122917); (122923, 122927); (122990, 123022); (123024, 123135); (123181, 123183);
   (123198, 123199); (123210, 123213); (123216, 123535); (123567, 123583); (123642, 123646);
   (123648, 124111); (124154, 124895); (124903, 124903); (124908, 124908); (124911, 124911);
   (124927, 124927); (125125, 125126); (125143, 125183); (125260, 125263); (125274, 125277);
   (125280, 126064); (126133, 126208); (126270, 126463); (126468, 126468); (126496, 126496);
   (126499, 126499); (126501, 126502); (126504, 126504); (126515, 126515); (126520, 126520);
   (126522, 126522); (126524, 126529); (126531, 126534); (126536, 126536); (126538, 126538);
   (126540, 126540); (126544, 126544); (126547, 126547); (126549, 126550); (126552, 126552);
   (126554, 126554); (126556, 126556); (126558, 126558); (126560, 126560); (126563, 126563);
   (126565, 126566); (126571, 126571); (126579, 126579); (126584, 126584); (126589, 126589);
   (126591, 126591); (126602, 126602); (126620, 126624); (126628, 126628); (126634, 126634);
   (126652, 126703); (126706, 126975); (127020, 127023); (127124, 127135); (127151, 127152);
   (127168, 127168); (127184, 127184); (127222, 127231); (127406, 127461); (127491, 127503);
   (127548, 127551); (127561, 127567); (127570, 127583); (127590, 127743); (128728, 128731);
   (128749, 128751); (128765, 128767); (128887, 128890); (128986, 128991); (129004, 129007);
   (129009, 129023); (129036, 129039); (129096, 129103); (129114, 129119); (129160, 129167);
   (129198, 129199); (129202, 129279); (129620, 129631); (129646, 129647); (129661, 129663);
   (129673, 129679); (129726, 129726); (129734, 129741); (129756, 129759); (129769, 129775);
   (129785, 129791); (129939, 129939); (129995, 130031); (130042, 131071); (173792, 173823);
   (177977, 177983); (178206, 178207); (183970, 183983); (191457, 194559); (195102, 196607);
   (201547, 201551); (205744, 917759); (918000, 1114111)].
Definition isprintable (s : str) : bool := forallb (fun c => negb (in_ranges unprintable c)) s.

(** [str.lower] of one character: exact for code points below 256 (ASCII and
    Latin-1); other characters are left unchanged. *)
Definition lower1 (c : Z) : Z :=
  if (65 <=? c) && (c <=? 90) || (192 <=? c) && (c <=? 222) && negb (c =? 215)
  then c + 32 else c.
Definition lower (s : str) : str := map lower1 s.

(** [c in "..."] for a one-character string [c]. *)
Definition one_of (cs : str) (c : Z) : bool := existsb (Z.eqb c) cs.

(** [while end < len and p(text[end]): end += 1] advances by this much. *)
Fixpoint span_len (p : Z -> bool) (l : str) : nat :=
  match l with
  | [] => 0
  | c :: l' => if p c then S (span_len p l') else 0
  end.

(** [text.find(c, pos)] *)
Definition find_char (c : Z) (text : str) (pos : nat) : option nat :=
  let n := span_len (fun x => negb (x =? c)) (drop pos text) in
  if (pos + n <? length text)%nat then Some (pos + n)%nat else None.

Fixpoint lstrip (p : Z -> bool) (s : str) : str :=
  match s with [] => [] | c :: s' => if p c then lstrip p s' else s end.
Definition rstrip (p : Z -> bool) (s : str) : str := rev (lstrip p (rev s)).
Definition strip (s : str) : str := rstrip isspace (lstrip isspace s).

Fixpoint startswith (p s : str) : bool :=
  match p, s with
  | [], _ => true
  | c :: p', d :: s' => (c =? d) && startswith p' s'
  | _ :: _, [] => false
  end.
Definition endswith (p s : str) : bool := startswith (rev p) (rev s).
(** [p in s] *)
Fixpoint contains (p s : str) : bool :=
  startswith p s || match s with [] => false | _ :: s' => contains p s' end.

(** [a < b] on strings: code points, the shorter first. *)
Fixpoint str_lt (a b : str) : bool :=
  match a, b with
  | [], _ :: _ => true
  | x :: a', y :: b' => (x <? y) || ((x =? y) && str_lt a' b')
  | _, [] => false
  end.


(** [s.split(sep)] for a one-character separator. *)
Fixpoint split_on (c : Z) (s : str) : list str :=
  match s with
  | [] => [[]]
  | d :: s' =>
      if d =? c then [] :: split_on c s'
      else match split_on c s' with
           | [] => [[d]]
           | w :: ws => (d :: w) :: ws
           end
  end.

(** [sys.get_int_max_str_digits()] *)
Definition int_max_str_digits : nat := Z.to_nat 4300.

(** The digits of [int(text)]: decimal digits with single underscores between
    them. *)
Fixpoint int_digits (s : str) (after_digit : bool) : option (list Z) :=
  match s with
  | [] => if after_digit then Some [] else None
  | c :: s' =>
      match decimal_value c with
      | Some d => match int_digits s' true with Some ds => Some (d :: ds) | None => None end
      | None => if (c =? 95) && after_digit then int_digits s' false else None
      end
  end.

Definition digits_value (ds : list Z) : Z := fold_left (fun a d => 10 * a + d) ds 0.

(** [int(text)]; [None] stands for [ValueError]. *)
Definition py_int (s : str) : option Z :=
  let t := strip s in
  let '(neg, body) :=
    match t with
    | c :: r => if c =? 45 then (true, r) else if c =? 43 then (false, r) else (false, t)
    | [] => (false, t)
    end in
  match int_digits body false with
  | Some ds =>
      if (int_max_str_digits <? length ds)%nat then None
      else Some (if neg then - digits_value ds else digits_value ds)
  | None => None
  end.

(** [str(n)] / f"{n}" of a non-negative or negative integer. *)
Fixpoint nat_digits (fuel : nat) (n : Z) (acc : str) : str :=
  match fuel with
  | O => acc
  | S f =>
      let acc' := (48 + n mod 10) :: acc in
      if n <? 10 then acc' else nat_digits f (n / 10) acc'
  end.
Definition str_of_Z (n : Z) : str :=
  let a := Z.abs n in
  let ds := nat_digits (S (Z.to_nat (Z.log2 a + 1))) a [] in
  if n <? 0 then 45 :: ds else ds.

(** * Decoding *)
(** [bytes.decode("ascii")] *)
Definition decode_ascii (d : list Z) : option str :=
  if forallb (fun b => b <? 128) d then Some d else None.

Definition cont (b : Z) : bool := (128 <=? b) && (b <=? 191).

(** [bytes.decode("utf-8", errors="strict")] *)
Fixpoint utf8_decode (d : list Z) : option str :=
  match d with
  | [] => Some []
  | b0 :: d1 =>
    if b0 <? 128 then cons b0 <$> utf8_decode d1
    else match d1 with
    | [] => None
    | b1 :: d2 =>
      if (194 <=? b0) && (b0 <=? 223) then
        if cont b1 then cons ((b0 - 192) * 64 + (b1 - 128)) <$> utf8_decode d2 else None
      else match d2 with
      | [] => None
      | b2 :: d3 =>
        if (224 <=? b0) && (b0 <=? 239) then
          if cont b1 && cont b2 && negb ((b0 =? 224) && (b1 <? 160)) && negb ((b0 =? 237) && (160 <=? b1))
          then cons ((b0 - 224) * 4096 + (b1 - 128) * 64 + (b2 - 128)) <$> utf8_decode d3
          else None
        else match d3 with
        | [] => None
        | b3 :: d4 =>
          if (240 <=? b0) && (b0 <=? 244) then
            if cont b1 && cont b2 && cont b3 && negb ((b0 =? 240) && (b1 <? 144)) && negb ((b0 =? 244) && (144 <=? b1))
            then cons ((b0 - 240) * 262144 + (b1 - 128) * 4096 + (b2 - 128) * 64 + (b3 - 128)) <$> utf8_decode d4
            else None
          else None
        end
      end
    end
  end.

Lemma span_len_le p l : (span_len p l <= length l)%nat.
Proof. induction l as [|c l IH]; cbn; [lia|]. case_match; lia. Qed.

Lemma span_len_app p l r :
  forallb p l = true -> match r with [] => True | c :: _ => p c = false end ->
  span_len p (l ++ r) = length l.
Proof.
  induction l as [|c l IH]; cbn; intros Hl Hr.
  - destruct r; [done|]. cbn. by rewrite Hr.
  - apply andb_prop in Hl as [-> Hl]. by rewrite IH.
Qed.

Lemma find_char_lt c text pos n :
  find_char c text pos = Some n -> (pos <= n < length text)%nat.
Proof.
  unfold find_char. case_match eqn:E; [|done]. intros [= <-].
  apply Nat.ltb_lt in E. lia.
Qed.

Lemma find_char_mid c p body r :
  forallb (fun x => negb (x =? c)) body = true ->
  find_char c (p ++ body ++ c :: r) (length p) = Some (length p + length body)%nat.
Proof.
  intros Hb. unfold find_char. rewrite drop_mid, span_len_app;
    [|done|by rewrite Z.eqb_refl].
  cbv zeta. rewrite (proj2 (Nat.ltb_lt _ _)); [done|].
  rewrite !length_app. cbn. lia.
Qed.

Lemma find_char_none c p body :
  forallb (fun x => negb (x =? c)) body = true ->
  find_char c (p ++ body) (length p) = None.
Proof.
  intros Hb. unfold find_char. rewrite drop_mid.
  rewrite <- (app_nil_r body) at 1. rewrite span_len_app by done.
  cbv zeta. rewrite (proj2 (Nat.ltb_ge _ _)); [done|]. rewrite length_app. lia.
Qed.

Lemma utf8_decode_ascii d : forallb (fun b => b <? 128) d = true -> utf8_decode d = Some d.
Proof.
  induction d as [|b d IH]; [done|]. cbn [forallb utf8_decode].
  intros [Hb Hd]%andb_prop. rewrite Hb, IH by done. done.
Qed.

Lemma startswith_refl_app p s : startswith p (p ++ s) = true.
Proof. induction p; cbn; [done|]. by rewrite Z.eqb_refl. Qed.

Lemma startswith_spec p s : startswith p s = true <-> exists r, s = p ++ r.
Proof.
  revert s. induction p as [|c p IH]; intros s; cbn.
  - split; [by exists s|done].
  - destruct s as [|d s]; [split; [done|by intros [? ?]]|].
    rewrite andb_true_iff, Z.eqb_eq, IH. split.
    + intros [-> [r ->]]. by exists r.
    + intros [r [= -> ->]]. eauto.
Qed.

Lemma contains_spec p s : contains p s = true <-> exists a b, s = a ++ p ++ b.
Proof.
  induction s as [|d s IH]; cbn.
  - rewrite orb_false_r, startswith_spec. split.
    + intros [r Hr]. by exists [], r.
    + intros (a & b & H). destruct a; [by exists b|done].
  - rewrite orb_true_iff, startswith_spec, IH. split.
    + intros [[r Hr]|(a & b & ->)]; [by exists [], r|by exists (d :: a), b].
    + intros ([|x a] & b & H); [left; by exists b|].
      right. injection H as _ ->. by exists a, b.
Qed.

End Str.
#[global] Arguments Str.lit : simpl never.
#[global] Arguments Str.one_of : simpl never.
#[global] Arguments Str.isspace : simpl never.
#[global] Arguments Str.isprintable : simpl never.
#[global] Arguments Str.isdigit : simpl never.
#[global] Arguments Str.decimal_value : simpl never.
#[global] Arguments Str.py_int : simpl never.
#[global] Arguments Str.code : simpl never.
#[global] Arguments Bytes.slice : simpl never.
#[global] Arguments Bytes.u_le : simpl never.
#[global] Arguments Bytes.u_be : simpl never.

(** * dict *)
Module Dict.
Section dict.
Context {K V : Type} `{EqDecision K}.

(** Keys in insertion order; assigning to a present key keeps its place. *)
Fixpoint get (k : K) (d : list (K * V)) : option V :=
  match d with
  | [] => None
  | (k', v) :: d' => if decide (k = k') then Some v else get k d'
  end.

Fixpoint set (k : K) (v : V) (d : list (K * V)) : list (K * V) :=
  match d with
  | [] => [(k, v)]
  | (k', v') :: d' => if decide (k = k') then (k', v) :: d' else (k', v') :: set k v d'
  end.

Definition keys (d : list (K * V)) : list K := map fst d.

Lemma get_set k v d k' : get k' (set k v d) = if decide (k' = k) then Some v else get k' d.
Proof.
  induction d as [|[k1 v1] d IH]; cbn; [done|].
  destruct (decide (k = k1)) as [->|Hne]; cbn; [by destruct (decide (k' = k1))|].
  rewrite IH. destruct (decide (k' = k1)), (decide (k' = k)); congruence.
Qed.

Lemma set_fresh k v d : k ∉ keys d -> set k v d = d ++ [(k, v)].
Proof.
  induction d as [|[k1 v1] d IH]; cbn; [done|].
  intros [? ?]%not_elem_of_cons. rewrite decide_False by done. by rewrite IH.
Qed.

Lemma keys_set k v d : keys (set k v d) = if decide (k ∈ keys d) then keys d else keys d ++ [k].
Proof.
  induction d as [|[k1 v1] d IH]; cbn; [done|].
  destruct (decide (k = k1)) as [->|Hne]; cbn.
  - rewrite decide_True; [done|]. by left.
  - unfold keys in *. rewrite IH.
    destruct (decide (k ∈ map fst d)) as [Hin|Hin].
    + by rewrite decide_True by (by right).
    + rewrite decide_False; [done|]. by intros [->|?]%elem_of_cons.
Qed.

Lemma set_nodup k v d : NoDup (keys d) -> NoDup (keys (set k v d)).
Proof.
  intros Hd. rewrite keys_set. case_decide as Hk; [done|].
  apply NoDup_app. repeat split; [done| |by apply NoDup_singleton].
  by intros x Hx ->%list_elem_of_singleton.
Qed.

Lemma get_elem k v d : get k d = Some v -> (k, v) ∈ d.
Proof.
  induction d as [|[k1 v1] d IH]; cbn; [done|].
  case_decide; [intros [= ->]; subst; by left|]. intros; right; auto.
Qed.

Lemma elem_set k v d k' v' : (k', v') ∈ set k v d -> (k' = k /\ v' = v) \/ (k', v') ∈ d.
Proof.
  induction d as [|[k1 v1] d IH]; cbn; [intros [= -> ->]%list_elem_of_singleton; by left|].
  case_decide as Hk; intros [[= -> ->]|Hin]%elem_of_cons.
  - left. split; [by symmetry|done].
  - right. by right.
  - right. by left.
  - destruct (IH Hin); [by left|right; by right].
Qed.

Lemma elem_get k v d : NoDup (keys d) -> (k, v) ∈ d -> get k d = Some v.
Proof.
  induction d as [|[k1 v1] d IH]; cbn; [by intros ? ?%elem_of_nil|].
  intros [Hk1 Hd]%NoDup_cons [[= -> ->]|Hin]%elem_of_cons; [by rewrite decide_True|].
  rewrite decide_False; [by apply IH|].
  intros ->. apply Hk1. unfold keys. apply list_elem_of_fmap. by exists (k1, v).
Qed.

Lemma get_None k d : get k d = None <-> k ∉ keys d.
Proof.
  induction d as [|[k1 v1] d IH]; cbn.
  - split; [intros _; apply not_elem_of_nil|done].
  - case_decide as E.
    + subst. split; [done|]. intros H. destruct H. by left.
    + rewrite IH. unfold keys. rewrite not_elem_of_cons. naive_solver.
Qed.

End dict.
End Dict.

(** * sorted / list.sort / bisect *)
Module Sort.
Section sort.
Context {A : Type} (key : A -> Z).

(** A stable sort by an integer key: an element stays before the later ones
    whose key is equal. *)
Fixpoint insert_by (x : A) (l : list A) : list A :=
  match l with
  | [] => [x]
  | y :: l' => if key x <=? key y then x :: l else y :: insert_by x l'
  end.
Definition sort_by (l : list A) : list A := fold_right insert_by [] l.

Definition le_key (x y : A) : Prop := key x <= key y.

Lemma insert_by_perm x l : insert_by x l ≡ₚ x :: l.
Proof.
  induction l as [|y l IH]; cbn; [done|]. case_match; [done|].
  by rewrite IH, Permutation_swap.
Qed.

Lemma sort_by_perm l : sort_by l ≡ₚ l.
Proof. induction l as [|x l IH]; cbn; [done|]. by rewrite insert_by_perm, IH. Qed.

Lemma insert_by_sorted x l : StronglySorted le_key l -> StronglySorted le_key (insert_by x l).
Proof.
  induction 1 as [|y l Hl IH Hy]; cbn; [repeat constructor|].
  destruct (Z.leb_spec (key x) (key y)).
  - constructor; [by constructor|]. constructor; [done|].
    eapply Forall_impl; [done|]. unfold le_key. lia.
  - constructor; [done|]. rewrite insert_by_perm. constructor; [unfold le_key; lia|done].
Qed.

Lemma sort_by_sorted l : StronglySorted le_key (sort_by l).
Proof. induction l; cbn; [constructor|]. by apply insert_by_sorted. Qed.

(** Stability: the elements of one key keep their order. *)
Lemma insert_by_filter k x l :
  filter (fun y => key y = k) (insert_by x l) = filter (fun y => key y = k) (x :: l).
Proof.
  induction l as [|y l IH]; cbn [insert_by]; [done|].
  destruct (Z.leb_spec (key x) (key y)); [done|].
  rewrite !filter_cons, IH, filter_cons.
  destruct (decide (key y = k)), (decide (key x = k)); try done. lia.
Qed.

Lemma sort_by_stable k l :
  filter (fun y => key y = k) (sort_by l) = filter (fun y => key y = k) l.
Proof.
  induction l as [|x l IH]; [done|]. cbn [sort_by fold_right].
  rewrite insert_by_filter, !filter_cons. fold (sort_by l). by rewrite IH.
Qed.

(** Distinct keys determine the sorted order. *)
Definition lt_key (x y : A) : Prop := key x < key y.
Lemma sort_by_unique l l' : StronglySorted lt_key l' -> l ≡ₚ l' -> sort_by l = l'.
Proof.
  intros Hl' Hp. pose proof (sort_by_sorted l) as Hs.
  rewrite <- (sort_by_perm l) in Hp. revert Hs Hp. generalize (sort_by l). clear l.
  induction Hl' as [|x l' Hl' IH Hx]; intros l Hs Hp; [by apply Permutation_nil_r in Hp|].
  destruct Hs as [|y l Hs Hy]; [by apply Permutation_nil_l in Hp|].
  assert (y = x) as ->.
  { assert (y ∈ x :: l') as [->|Hin]%elem_of_cons by (rewrite <- Hp; by left); [done|].
    rewrite Forall_forall in Hx. specialize (Hx _ Hin).
    assert (x ∈ y :: l) as [->|Hin']%elem_of_cons by (rewrite Hp; by left); [done|].
    rewrite Forall_forall in Hy. specialize (Hy _ Hin'). unfold le_key, lt_key in *. lia. }
  f_equal. apply IH; [done|]. by apply Permutation_cons_inv in Hp.
Qed.

(** A list that is already sorted is left alone. *)
Lemma sort_by_id l : StronglySorted le_key l -> sort_by l = l.
Proof.
  induction 1 as [|x l Hl IH Hx]; [done|]. cbn [sort_by fold_right]. fold (sort_by l).
  rewrite IH. destruct Hx as [|y l Hxy Hx]; [done|]. cbn.
  by rewrite (proj2 (Z.leb_le _ _)).
Qed.
End sort.

(** [bisect.bisect_right(a, x)]: the binary search of the standard library. *)
Fixpoint bisect_loop (fuel : nat) (a : list Z) (x : Z) (lo hi : nat) : nat :=
  match fuel with
  | O => lo
  | S fuel =>
      if (lo <? hi)%nat then
        let mid := Nat.div2 (lo + hi) in
        if x <? nth mid a 0 then bisect_loop fuel a x lo mid
        else bisect_loop fuel a x (S mid) hi
      else lo
  end.
Definition bisect_right (a : list Z) (x : Z) : nat := bisect_loop (length a) a x 0 (length a).

Lemma div2_between lo hi : (lo < hi)%nat -> (lo <= Nat.div2 (lo + hi) < hi)%nat.
Proof.
  intros. rewrite Nat.div2_div.
  pose proof (Nat.div_le_lower_bound (lo + hi) 2 lo).
  pose proof (Nat.Div0.div_lt_upper_bound (lo + hi) 2 hi). lia.
Qed.

Lemma bisect_loop_spec fuel a x lo hi :
  (lo <= hi <= length a)%nat -> (hi - lo <= fuel)%nat -> StronglySorted Z.le a ->
  (forall i v, (i < lo)%nat -> a !! i = Some v -> v <= x) ->
  (forall i v, (hi <= i)%nat -> a !! i = Some v -> x < v) ->
  let r := bisect_loop fuel a x lo hi in
  (r <= length a)%nat /\
  (forall i v, (i < r)%nat -> a !! i = Some v -> v <= x) /\
  (forall i v, (r <= i)%nat -> a !! i = Some v -> x < v).
Proof.
  revert lo hi. induction fuel as [|fuel IH]; intros lo hi Hb Hf Hs Hlo Hhi; cbn [bisect_loop]; cbv zeta.
  { assert (hi = lo) as -> by lia. split; [lia|done]. }
  destruct (Nat.ltb_spec lo hi); [|assert (hi = lo) as -> by lia; split; [lia|done]].
  pose proof (div2_between lo hi ltac:(lia)) as Hm. set (mid := Nat.div2 (lo + hi)) in *.
  destruct (lookup_lt_is_Some_2 a mid) as [m Em]; [lia|].
  rewrite (nth_lookup_Some _ _ _ _ Em).
  assert (forall i j u v, (i < j)%nat -> a !! i = Some u -> a !! j = Some v -> u <= v) as Hmono.
  { clear -Hs. induction Hs as [|y l Hl IHl Hy]; intros i j u v Hij Hi Hj; [done|].
    destruct j as [|j]; [lia|]. destruct i as [|i]; cbn in *.
    - injection Hi as ->. rewrite Forall_lookup in Hy. by eapply Hy.
    - eapply (IHl i j); [lia|done|done]. }
  destruct (Z.ltb_spec x m); apply IH; try lia; try done.
  - intros i v Hi Ev. destruct (decide (i = mid)) as [->|]; [congruence|].
    specialize (Hmono mid i m v ltac:(lia) Em Ev). lia.
  - intros i v Hi Ev. destruct (decide (i = mid)) as [->|]; [congruence|].
    specialize (Hmono i mid v m ltac:(lia) Ev Em). lia.
Qed.

Lemma bisect_right_spec a x :
  StronglySorted Z.le a ->
  (bisect_right a x <= length a)%nat /\
  (forall i v, (i < bisect_right a x)%nat -> a !! i = Some v -> v <= x) /\
  (forall i v, (bisect_right a x <= i)%nat -> a !! i = Some v -> x < v).
Proof.
  intros. apply bisect_loop_spec; try lia; try done.
  intros i v Hi Ev. apply lookup_lt_Some in Ev. lia.
Qed.
End Sort.
