(* ===== verification/PyRuntime.v ===== *)
(** What the code takes from the Python runtime beyond PyBase, and the values of
    parsed JSON and YAML documents, shared by the search language and the
    detection rules. *)
From S2P Require Import Prelude PyBase.
Import Str.

Module PyRuntime.

(** The numbers and dates of the runtime: floats with their parsing and
    comparisons, [dateutil]'s parser, the ISO text of a date moved to UTC, and
    the parts of [str] that depend on Unicode tables.  The parser accepts offsets
    such as [+99:00]; [astimezone] raises [ValueError] for an offset of a day or
    more, and [OverflowError] for a date that leaves the calendar. *)
Inductive utc_error : Type := OffsetTooLarge | OutsideCalendar.
Class Runtime := {
  float : Type;
  float_of_str : str -> option float;
  float_of_Z : Z -> float;
  num_lt : Z + float -> Z + float -> bool;   (** an [int] or a [float] each side *)
  num_le : Z + float -> Z + float -> bool;
  float_trunc : float -> option Z;
  float_is_zero : float -> bool;
  str_of_float : float -> str;
  datetime : Type;
  date_parse : str -> option datetime;   (** a date without zone taken as UTC *)
  utc_isoformat : datetime -> utc_error + str;
  py_lower : str -> str;
  re_same : Z -> Z -> bool }.

Definition utc_exn (e : utc_error) : py_exn := match e with OffsetTooLarge => ValueError | OutsideCalendar => OverflowError end.

Section values.
Context `{Runtime}.

Inductive json : Type :=
  | JNull
  | JBool (b : bool)
  | JInt (n : Z)
  | JFloat (f : float)
  | JStr (s : str)
  | JList (l : list json)
  | JDict (d : list (str * json)).

(** The truth value of an object. *)
Definition truthy (v : json) : bool :=
  match v with
  | JNull => false
  | JBool b => b
  | JInt n => negb (n =? 0)
  | JFloat f => negb (float_is_zero f)
  | JStr s => match s with [] => false | _ => true end
  | JList l => match l with [] => false | _ => true end
  | JDict d => match d with [] => false | _ => true end
  end.

(** [str(v)]; [repr] is that of containers. *)
Definition py_str (repr : json -> str) (v : json) : str :=
  match v with
  | JNull => lit "None"
  | JStr s => s
  | JBool b => if b then lit "True" else lit "False"
  | JInt n => str_of_Z n
  | JFloat f => str_of_float f
  | JList _ | JDict _ => repr v
  end.
End values.

(** A runtime whose floats and dates are plain, for the examples. *)
Definition toy_runtime : Runtime := {|
  float := Z;
  float_of_str := py_int;
  float_of_Z n := n;
  num_lt a b := (match a with inl x | inr x => x end <? match b with inl y | inr y => y end);
  num_le a b := (match a with inl x | inr x => x end <=? match b with inl y | inr y => y end);
  float_trunc f := Some f;
  float_is_zero f := f =? 0;
  str_of_float := str_of_Z;
  datetime := str;
  date_parse s := Some s;
  utc_isoformat s := inr s;
  py_lower := lower;
  re_same c d := bool_decide (lower [c] = lower [d]) |}.
End PyRuntime.
