(* ===== verification/PyFloat.v ===== *)
(** Python's floats where the code divides integers: a float is [m * 2 ^ e] with a
    mantissa of 53 bits; quotients and products are rounded to it, and [round] to
    the nearest integer, all with ties to even. *)
From S2P Require Import Prelude PyBase.

Module PyFloat.

(** The nearest integer to [a / b], for positive [b]. *)
Definition round_div (a b : Z) : Z :=
  let q := a / b in
  let r := a mod b in
  if (2 * r <? b) then q else if (b <? 2 * r) then q + 1 else if Z.even q then q else q + 1.

(** [a / b] of a natural and a positive integer, [n * x], and [round(x)]. *)
Definition float_ratio (a b : Z) : Z * Z :=
  if a =? 0 then (0, 0)
  else
    let s := Z.log2 a - Z.log2 b - 52 in
    let s := if a * 2 ^ Z.max 0 (- s) <? 2 ^ 52 * (b * 2 ^ Z.max 0 s) then s - 1 else s in
    (round_div (a * 2 ^ Z.max 0 (- s)) (b * 2 ^ Z.max 0 s), s).
Definition float_times (n : Z) (x : Z * Z) : Z * Z := float_ratio (n * fst x * 2 ^ Z.max 0 (snd x)) (2 ^ Z.max 0 (- snd x)).
Definition float_round (x : Z * Z) : Z := round_div (fst x * 2 ^ Z.max 0 (snd x)) (2 ^ Z.max 0 (- snd x)).
Definition float_lt (x y : Z * Z) : bool :=
  fst x * 2 ^ Z.max 0 (snd x) * 2 ^ Z.max 0 (- snd y) <? fst y * 2 ^ Z.max 0 (snd y) * 2 ^ Z.max 0 (- snd x).

Lemma round_div_bounds a b lo hi : 0 < b -> lo * b <= a <= hi * b -> lo <= round_div a b <= hi.
Proof.
  intros Hb [Hlo Hhi]. unfold round_div. pose proof (Z.div_mod a b ltac:(lia)) as Hd.
  pose proof (Z.mod_pos_bound a b Hb) as Hm.
  assert (lo <= a / b) by (apply Z.div_le_lower_bound; lia).
  assert (a / b <= hi) by (apply Z.div_le_upper_bound; lia).
  assert (b <= 2 * (a mod b) -> a / b + 1 <= hi) by nia.
  destruct (Z.ltb_spec (2 * (a mod b)) b); [lia|]. destruct (Z.ltb_spec b (2 * (a mod b))); [lia|].
  destruct (Z.even _); lia.
Qed.

(** Rounding up happens past the middle. *)
Lemma round_div_above a b lo : 0 < b -> (2 * lo + 1) * b < 2 * a -> lo < round_div a b.
Proof.
  intros Hb Hlo. unfold round_div. pose proof (Z.div_mod a b ltac:(lia)) as Hd.
  pose proof (Z.mod_pos_bound a b Hb) as Hm.
  assert (lo <= a / b) by (apply Z.div_le_lower_bound; lia).
  destruct (Z.ltb_spec (2 * (a mod b)) b).
  - assert (lo <> a / b) by (intros ->; nia). lia.
  - destruct (Z.ltb_spec b (2 * (a mod b))); [lia|].
    assert (lo <> a / b) by (intros ->; nia). destruct (Z.even _); lia.
Qed.

Lemma round_div_exact a b : 0 < b -> round_div (a * b) b = a.
Proof. intros Hb. unfold round_div. rewrite Z.mod_mul, Z.div_mul by lia. by destruct (Z.ltb_spec (2 * 0) b); [|lia]. Qed.

Lemma float_ratio_same n : 0 < n -> float_ratio n n = (2 ^ 52, -52).
Proof.
  intros Hn. unfold float_ratio. destruct (Z.eqb_spec n 0); [lia|]. rewrite Z.sub_diag. change (0 - 52) with (-52).
  change (Z.max 0 (- (-52))) with 52. change (Z.max 0 (-52)) with 0.
  destruct (Z.ltb_spec (n * 2 ^ 52) (2 ^ 52 * (n * 2 ^ 0))); [lia|].
  change (Z.max 0 (- (-52))) with 52. change (Z.max 0 (-52)) with 0.
  by rewrite Z.pow_0_r, Z.mul_1_r, (Z.mul_comm n (2 ^ 52)), round_div_exact.
Qed.

(** A quotient of at most one is rounded to at most one. *)
Lemma float_ratio_le_one a b : 0 <= a <= b -> 0 < b ->
  let x := float_ratio a b in snd x <= 0 /\ 0 <= fst x <= 2 ^ - snd x.
Proof.
  intros Hab Hb. unfold float_ratio. destruct (Z.eqb_spec a 0) as [->|Ha]; [cbn; lia|].
  pose proof (Z.log2_le_mono a b ltac:(lia)) as Hlog.
  set (s0 := Z.log2 a - Z.log2 b - 52).
  set (s := if a * 2 ^ Z.max 0 (- s0) <? 2 ^ 52 * (b * 2 ^ Z.max 0 s0) then s0 - 1 else s0). cbn [fst snd].
  assert (Hs : s <= -52) by (unfold s; case_match; lia).
  split; [lia|]. rewrite Z.max_r by lia. rewrite (Z.max_l 0 s) by lia. rewrite Z.pow_0_r, Z.mul_1_r.
  pose proof (Z.pow_pos_nonneg 2 (- s)). apply round_div_bounds; [lia|]. nia.
Qed.
End PyFloat.
