(* ===== verification/PyText.v ===== *)
(** Text as the binary parsers meet it: UTF-16 with its surrogates, lists of
    distinct strings in their first or in sorted order, hexadecimal digits. *)
From S2P Require Import Prelude PyBase.
Import Bytes Str.

Module PyText.

(** [s.replace(a, b)] of one character by another. *)
Definition replace_char (a b : Z) (s : str) : str := map (fun c => if c =? a then b else c) s.

(** [list(dict.fromkeys(l))]: the first of each. *)
Definition add_new (seen : list str) (s : str) : list str := if bool_decide (s ∈ seen) then seen else seen ++ [s].
Definition dedup (l : list str) : list str := fold_left add_new l [].

(** [sorted(l)] of strings. *)
Fixpoint insert_sorted (s : str) (l : list str) : list str :=
  match l with
  | [] => [s]
  | t :: l' => if str_lt t s then t :: insert_sorted s l' else s :: l
  end.
Definition sorted_strs (l : list str) : list str := fold_right insert_sorted [] l.

(** [bytes.decode("ascii", errors="ignore")] *)
Definition ascii_ignore (d : list Z) : str := filter (fun b => b < 128) d.

Definition high_surrogate (u : Z) : bool := (55296 <=? u) && (u <? 56320).
Definition low_surrogate (u : Z) : bool := (56320 <=? u) && (u <? 57344).
(** [bytes.decode("utf-16le", errors="ignore")]: a surrogate without its partner and
    a last byte alone are left out. *)
Fixpoint utf16_ignore (d : list Z) : str :=
  match d with
  | b0 :: b1 :: d' =>
      let u := b0 + 256 * b1 in
      if high_surrogate u then
        match d' with
        | c0 :: c1 :: d'' =>
            let v := c0 + 256 * c1 in
            if low_surrogate v then 65536 + (u - 55296) * 1024 + (v - 56320) :: utf16_ignore d'' else utf16_ignore d'
        | _ => []
        end
      else if low_surrogate u then utf16_ignore d'
      else u :: utf16_ignore d'
  | _ => []
  end.
(** [str.encode("utf-16le")] of characters that are not surrogates. *)
Definition utf16_units (c : Z) : list Z := if c <? 65536 then [c] else [55296 + (c - 65536) / 1024; 56320 + (c - 65536) mod 1024].
Definition utf16_encode (s : str) : list Z := flat_map (fun c => flat_map (le_enc 2) (utf16_units c)) s.
Definition is_char (c : Z) : Prop := 0 <= c < 55296 \/ 57344 <= c < 1114112.

(** [f"{n:0wX}"] of a number that fits. *)
Definition hex_digit (d : Z) : Z := if d <? 10 then 48 + d else 55 + d.
Fixpoint hexfill (w : nat) (n : Z) : str := match w with O => [] | S w => hexfill w (n / 16) ++ [hex_digit (n mod 16)] end.

(** * UTF-16 *)
Lemma utf16_ignore_unit u d : 0 <= u < 65536 -> high_surrogate u = false -> low_surrogate u = false ->
  utf16_ignore (le_enc 2 u ++ d) = u :: utf16_ignore d.
Proof.
  intros Hu Hh Hl. cbn [le_enc app utf16_ignore]. replace (u mod 256 + 256 * (u / 256 mod 256)) with u by (Z.div_mod_to_equations; lia).
  by rewrite Hh, Hl.
Qed.
Lemma utf16_ignore_pair u v d : high_surrogate u = true -> low_surrogate v = true ->
  utf16_ignore (le_enc 2 u ++ le_enc 2 v ++ d) = 65536 + (u - 55296) * 1024 + (v - 56320) :: utf16_ignore d.
Proof.
  unfold high_surrogate, low_surrogate. intros Hu Hv. cbn [le_enc app utf16_ignore].
  replace (u mod 256 + 256 * (u / 256 mod 256)) with u by (Z.div_mod_to_equations; lia).
  replace (v mod 256 + 256 * (v / 256 mod 256)) with v by (Z.div_mod_to_equations; lia).
  unfold high_surrogate, low_surrogate. by rewrite Hu, Hv.
Qed.
Lemma utf16_encode_cons c s : utf16_encode (c :: s) = flat_map (le_enc 2) (utf16_units c) ++ utf16_encode s.
Proof. reflexivity. Qed.
Lemma utf16_decode_encode s d : Forall is_char s -> utf16_ignore (utf16_encode s ++ d) = s ++ utf16_ignore d.
Proof.
  induction 1 as [|c s Hc _ IH]; [done|]. rewrite utf16_encode_cons, <- app_assoc. unfold utf16_units.
  unfold is_char in Hc. destruct (Z.ltb_spec c 65536) as [Hb|Hb]; cbn [flat_map]; rewrite app_nil_r, <- ?app_assoc.
  - rewrite utf16_ignore_unit, IH; [done|lia|unfold high_surrogate; lia|unfold low_surrogate; lia].
  - rewrite utf16_ignore_pair, IH; [cbn; f_equal|unfold high_surrogate|unfold low_surrogate]; Z.div_mod_to_equations; lia.
Qed.
Lemma utf16_encode_app a b : utf16_encode (a ++ b) = utf16_encode a ++ utf16_encode b.
Proof. apply flat_map_app. Qed.
Lemma utf16_round s : Forall is_char s -> utf16_ignore (utf16_encode s) = s.
Proof. intros Hs. rewrite <- (app_nil_r (utf16_encode s)), utf16_decode_encode by done. apply app_nil_r. Qed.
Lemma utf16_encode_len s : len (utf16_encode s) mod 2 = 0.
Proof.
  unfold len. induction s as [|c s IH]; [done|]. rewrite utf16_encode_cons, length_app, Nat2Z.inj_add.
  assert ((Z.of_nat (length (flat_map (le_enc 2) (utf16_units c)))) mod 2 = 0) by (unfold utf16_units; by destruct (c <? 65536)).
  Z.div_mod_to_equations; lia.
Qed.

(** * Distinct strings *)
Lemma add_new_elem seen s t : t ∈ add_new seen s <-> t ∈ seen \/ t = s.
Proof.
  unfold add_new. case_bool_decide as Hs; [naive_solver|]. rewrite elem_of_app, list_elem_of_singleton. naive_solver.
Qed.
Lemma add_new_nodup seen s : NoDup seen -> NoDup (add_new seen s).
Proof.
  unfold add_new. intros Hn. case_bool_decide as Hs; [done|]. apply NoDup_app. split; [done|]. split; [|apply NoDup_singleton].
  intros t Ht ->%list_elem_of_singleton. done.
Qed.
Lemma fold_add_new_elem l seen t : t ∈ fold_left add_new l seen <-> t ∈ seen \/ t ∈ l.
Proof.
  revert seen. induction l as [|s l IH]; intros seen; cbn [fold_left]; [rewrite elem_of_nil; naive_solver|].
  rewrite IH, add_new_elem, elem_of_cons. naive_solver.
Qed.
Lemma dedup_elem l t : t ∈ dedup l <-> t ∈ l.
Proof. unfold dedup. rewrite fold_add_new_elem, elem_of_nil. naive_solver. Qed.
Lemma fold_add_new_nodup l seen : NoDup seen -> NoDup (fold_left add_new l seen).
Proof. revert seen. induction l as [|s l IH]; intros seen Hn; [done|]. by apply IH, add_new_nodup. Qed.
Lemma dedup_nodup l : NoDup (dedup l).
Proof. apply fold_add_new_nodup, NoDup_nil_2. Qed.
Lemma fold_add_new_id l seen : NoDup (seen ++ l) -> fold_left add_new l seen = seen ++ l.
Proof.
  revert seen. induction l as [|s l IH]; intros seen Hn; cbn [fold_left]; [by rewrite app_nil_r|].
  unfold add_new at 2. rewrite bool_decide_eq_false_2.
  - rewrite IH; rewrite <- app_assoc; done.
  - intros Hs. apply NoDup_app in Hn as (_ & Hd & _). apply (Hd s Hs). by left.
Qed.
Lemma dedup_id l : NoDup l -> dedup l = l.
Proof. intros. unfold dedup. by rewrite fold_add_new_id. Qed.

Lemma fold_add_new_fold l acc seen : fold_left add_new (fold_left add_new l acc) seen = fold_left add_new l (fold_left add_new acc seen).
Proof.
  revert acc. induction l as [|s l IH]; intros acc; [done|]. cbn [fold_left]. rewrite IH. f_equal. unfold add_new at 2. case_bool_decide as Hs.
  - unfold add_new at 2. rewrite bool_decide_eq_true_2; [done|]. apply fold_add_new_elem. by right.
  - by rewrite fold_left_app.
Qed.
Lemma dedup_concat ll : dedup (concat (map dedup ll)) = dedup (concat ll).
Proof.
  assert (Hseen : forall seen, fold_left add_new (concat (map dedup ll)) seen = fold_left add_new (concat ll) seen); [|apply Hseen].
  induction ll as [|l ll IH]; intros seen; [done|]. cbn [map concat]. unfold dedup at 1. by rewrite !fold_left_app, fold_add_new_fold, IH.
Qed.

(** * The order of strings *)
Lemma str_lt_irrefl a : str_lt a a = false.
Proof. induction a as [|x a IH]; [done|]. cbn. by rewrite Z.ltb_irrefl, Z.eqb_refl, IH. Qed.
Lemma str_lt_trans a b c : str_lt a b = true -> str_lt b c = true -> str_lt a c = true.
Proof.
  revert b c. induction a as [|x a IH]; intros [|y b] [|z c]; try done. cbn [str_lt].
  rewrite !orb_true_iff, !andb_true_iff, !Z.ltb_lt, !Z.eqb_eq. intros [?|[-> Hab]] [?|[<- Hbc]]; [left; lia|by left|by left|right; eauto].
Qed.
Lemma str_lt_total a b : str_lt a b = false -> str_lt b a = false -> a = b.
Proof.
  revert b. induction a as [|x a IH]; intros [|y b]; try done. cbn [str_lt].
  rewrite !orb_false_iff, !andb_false_iff, !Z.ltb_ge, !Z.eqb_neq. intros [? Hab] [? Hba].
  assert (x = y) as -> by lia. f_equal. apply IH; naive_solver.
Qed.
Lemma str_lt_app p a b : str_lt (p ++ a) (p ++ b) = str_lt a b.
Proof. induction p as [|c p IH]; [done|]. cbn. by rewrite Z.ltb_irrefl, Z.eqb_refl, IH. Qed.

Definition before (a b : str) : Prop := str_lt a b = true.
Lemma insert_sorted_perm s l : insert_sorted s l ≡ₚ s :: l.
Proof. induction l as [|t l IH]; cbn; [done|]. case_match; [|done]. by rewrite IH, Permutation_swap. Qed.
Lemma sorted_strs_perm l : sorted_strs l ≡ₚ l.
Proof. induction l as [|s l IH]; cbn; [done|]. by rewrite insert_sorted_perm, IH. Qed.
Lemma insert_sorted_sorted s l : s ∉ l -> StronglySorted before l -> StronglySorted before (insert_sorted s l).
Proof.
  intros Hs Hl. induction Hl as [|t l Hl IH Ht]; cbn; [repeat constructor|]. apply not_elem_of_cons in Hs as [Hne Hs].
  destruct (str_lt t s) eqn:E.
  - constructor; [by apply IH|]. rewrite insert_sorted_perm. by constructor.
  - assert (Hst : before s t).
    { unfold before. destruct (str_lt s t) eqn:E'; [done|]. by destruct Hne; apply str_lt_total. }
    constructor; [by constructor|]. constructor; [done|]. eapply Forall_impl; [exact Ht|]. intros u. by apply str_lt_trans.
Qed.
Lemma sorted_strs_sorted l : NoDup l -> StronglySorted before (sorted_strs l).
Proof.
  induction 1 as [|s l Hs _ IH]; [constructor|]. cbn. apply insert_sorted_sorted; [|done]. fold (sorted_strs l). by rewrite sorted_strs_perm.
Qed.
(** The last of a sorted list is the greatest. *)
Lemma sorted_last l x : StronglySorted before l -> last l = Some x -> x ∈ l /\ forall y, y ∈ l -> y = x \/ before y x.
Proof.
  intros Hl. induction Hl as [|t l Hl IH Ht]; [done|]. destruct l as [|u l].
  - intros [= ->]. split; [by left|]. intros y ->%list_elem_of_singleton. by left.
  - intros Hlast. rewrite last_cons_cons in Hlast. specialize (IH Hlast) as [Hin Hmax]. split; [by right|].
    intros y [->|Hy]%elem_of_cons; [right|by apply Hmax]. rewrite Forall_forall in Ht. by apply Ht.
Qed.
End PyText.
