(* ===== verification/PyDates.v ===== *)
(** [datetime] in UTC: days and dates of the Gregorian calendar, seconds since 1970,
    the ISO text of a time and its order. *)
From S2P Require Import Prelude PyBase PyText.
Import Bytes Str PyText.

Module PyDates.

Definition is_leap (y : Z) : bool := (y mod 4 =? 0) && (negb (y mod 100 =? 0) || (y mod 400 =? 0)).
Definition days_in_month (y m : Z) : Z :=
  if (m =? 4) || (m =? 6) || (m =? 9) || (m =? 11) then 30
  else if m =? 2 then if is_leap y then 29 else 28 else 31.
Definition days_before_year (y : Z) : Z := (y - 1) * 365 + (y - 1) / 4 - (y - 1) / 100 + (y - 1) / 400.
Definition days_before_month (y m : Z) : Z :=
  fold_left (fun n k => n + days_in_month y k) (map Z.of_nat (seq 1 (Z.to_nat (m - 1)))) 0.
(** [datetime(..., tzinfo=utc).timestamp()] in seconds; [None]: [ValueError]. *)
Definition utc_timestamp (d : Z * Z * Z * Z * Z * Z) : option Z :=
  let '(y, m, day, h, mi, s) := d in
  if (1 <=? y) && (y <=? 9999) && (1 <=? m) && (m <=? 12) && (1 <=? day) && (day <=? days_in_month y m) &&
     (0 <=? h) && (h <=? 23) && (0 <=? mi) && (mi <=? 59) && (0 <=? s) && (s <=? 59)
  then Some ((days_before_year y + days_before_month y m + day - 719163) * 86400 + h * 3600 + mi * 60 + s)
  else None.

(** The date of a day counted from 1 January of year 1, which is day 1. *)
Definition ymd2ord (y m d : Z) : Z := days_before_year y + days_before_month y m + d.
Definition month_step (y : Z) (s : Z * Z) (_ : nat) : Z * Z :=
  let '(m, d) := s in if days_in_month y m <? d then (m + 1, d - days_in_month y m) else (m, d).
Definition ord2ymd (n : Z) : Z * Z * Z :=
  let n := n - 1 in
  let n400 := n / 146097 in
  let n := n mod 146097 in
  let n100 := n / 36524 in
  let n := n mod 36524 in
  let n4 := n / 1461 in
  let n := n mod 1461 in
  let n1 := n / 365 in
  let year := n400 * 400 + n100 * 100 + n4 * 4 + n1 + 1 in
  if (n1 =? 4) || (n100 =? 4) then (year - 1, 12, 31)
  else
    let '(m, d) := fold_left (month_step year) (seq 0 11) (1, n mod 365 + 1) in
    (year, m, d).

(** The number with leading zeros, [f"{n:0wd}"] of one that fits. *)
Fixpoint zfill (w : nat) (n : Z) : str := match w with O => [] | S w => zfill w (n / 10) ++ [48 + n mod 10] end.

(** [isoformat()] of the time that is [us] microseconds after the beginning of day
    [day] or later; [None]: after year 9999. *)
Definition us_per_day : Z := 86400000000.
Definition max_ordinal : Z := 3652059.
Definition isoformat (day us : Z) : option str :=
  let ord := day + us / us_per_day in
  let t := us mod us_per_day in
  let '(y, m, d) := ord2ymd ord in
  if max_ordinal <? ord then None
  else
    let s := t / 1000000 in
    Some (zfill 4 y ++ lit "-" ++ zfill 2 m ++ lit "-" ++ zfill 2 d ++ lit "T" ++
          zfill 2 (s / 3600) ++ lit ":" ++ zfill 2 (s / 60 mod 60) ++ lit ":" ++ zfill 2 (s mod 60) ++
          (if t mod 1000000 =? 0 then [] else lit "." ++ zfill 6 (t mod 1000000)) ++ lit "+00:00").

(** * Days and dates *)
Definition is_date (y m d : Z) : Prop := 1 <= m <= 12 /\ 1 <= d <= days_in_month y m.

(** The calendar of a year depends on whether it is a leap year. *)
Definition month_length (leap : bool) (m : Z) : Z :=
  if (m =? 4) || (m =? 6) || (m =? 9) || (m =? 11) then 30 else if m =? 2 then if leap then 29 else 28 else 31.
Definition before_month (leap : bool) (m : Z) : Z :=
  fold_left (fun n k : Z => n + month_length leap k) (map Z.of_nat (seq 1 (Z.to_nat (m - 1)))) 0.
Definition in_month (leap : bool) (r : Z) : Z * Z :=
  fold_left (fun (s : Z * Z) (_ : nat) => let '(m, d) := s in if month_length leap m <? d then (m + 1, d - month_length leap m) else (m, d))
    (seq 0 11) (1, r + 1).
Lemma in_month_spec (leap : bool) (r : Z) : 0 <= r < (if leap then 366 else 365) ->
  let '(m, d) := in_month leap r in 1 <= m <= 12 /\ 1 <= d <= month_length leap m /\ before_month leap m + d = r + 1.
Proof.
  set (good := fun r : Z => let '(m, d) := in_month leap r in
    (1 <=? m) && (m <=? 12) && (1 <=? d) && (d <=? month_length leap m) && (before_month leap m + d =? r + 1)).
  intros Hr. assert (Hg : good r = true).
  { assert (Hall : forallb good (map Z.of_nat (seq 0 (if leap then 366 else 365))) = true) by (subst good; destruct leap; vm_compute; reflexivity).
    rewrite forallb_forall in Hall. apply Hall, in_map_iff. exists (Z.to_nat r). split; [lia|]. apply in_seq. destruct leap; lia. }
  unfold good in Hg. destruct (in_month leap r) as [m d]. lia.
Qed.
Lemma before_month_next leap m : 1 <= m <= 11 -> before_month leap (m + 1) = before_month leap m + month_length leap m.
Proof.
  intros Hm. assert (Hall : forallb (fun m => before_month leap (m + 1) =? before_month leap m + month_length leap m) [1; 2; 3; 4; 5; 6; 7; 8; 9; 10; 11] = true)
    by (destruct leap; vm_compute; reflexivity).
  rewrite forallb_forall in Hall. apply Z.eqb_eq, Hall. cbn. lia.
Qed.
Lemma before_month_mono leap m m' : 1 <= m -> m < m' -> m' <= 12 -> before_month leap m + month_length leap m <= before_month leap m'.
Proof.
  intros H1 Hlt H12. assert (Hex : exists k : nat, m' = m + 1 + Z.of_nat k) by (exists (Z.to_nat (m' - m - 1)); lia).
  destruct Hex as [k ->]. clear Hlt. induction k as [|k IH].
  - rewrite Z.add_0_r, before_month_next by lia. lia.
  - replace (m + 1 + Z.of_nat (S k)) with ((m + 1 + Z.of_nat k) + 1) in * by lia. rewrite before_month_next by lia.
    specialize (IH ltac:(lia)). assert (0 <= month_length leap (m + 1 + Z.of_nat k)); [|lia].
    unfold month_length. destruct (_ || _); [lia|]. destruct (_ =? 2); [destruct leap|]; lia.
Qed.
Lemma year_length (leap : bool) : before_month leap 12 + month_length leap 12 = if leap then 366 else 365.
Proof. by destruct leap. Qed.

Lemma days_in_month_leap y m : days_in_month y m = month_length (is_leap y) m.
Proof. reflexivity. Qed.
Lemma days_before_month_leap y m : days_before_month y m = before_month (is_leap y) m.
Proof. reflexivity. Qed.
Lemma month_steps y r : fold_left (month_step y) (seq 0 11) (1, r + 1) = in_month (is_leap y) r.
Proof. reflexivity. Qed.

(** A year by its place in the cycles of 400, 100 and 4 years. *)
Lemma year_parts a b c e : 0 <= b <= 3 -> 0 <= c <= 24 -> 0 <= e <= 3 ->
  let y := a * 400 + b * 100 + c * 4 + e + 1 in
  days_before_year y = a * 146097 + b * 36524 + c * 1461 + e * 365 /\
  is_leap y = (e =? 3) && (negb (c =? 24) || (b =? 3)).
Proof.
  intros Hb Hc He y. unfold days_before_year, is_leap. subst y. split.
  - replace (a * 400 + b * 100 + c * 4 + e + 1 - 1) with (a * 400 + b * 100 + c * 4 + e) by lia.
    replace ((a * 400 + b * 100 + c * 4 + e) / 4) with (a * 100 + b * 25 + c) by (apply (Z.div_unique _ _ _ e); lia).
    replace ((a * 400 + b * 100 + c * 4 + e) / 100) with (a * 4 + b) by (apply (Z.div_unique _ _ _ (c * 4 + e)); lia).
    replace ((a * 400 + b * 100 + c * 4 + e) / 400) with a by (apply (Z.div_unique _ _ _ (b * 100 + c * 4 + e)); lia). lia.
  - assert (H4 : ((a * 400 + b * 100 + c * 4 + e + 1) mod 4 =? 0) = (e =? 3)) by (Z.div_mod_to_equations; lia).
    assert (H100 : ((a * 400 + b * 100 + c * 4 + e + 1) mod 100 =? 0) = (c =? 24) && (e =? 3)) by (Z.div_mod_to_equations; lia).
    assert (H400 : ((a * 400 + b * 100 + c * 4 + e + 1) mod 400 =? 0) = (b =? 3) && (c =? 24) && (e =? 3)) by (Z.div_mod_to_equations; lia).
    rewrite H4, H100, H400. destruct (e =? 3), (c =? 24), (b =? 3); reflexivity.
Qed.

Lemma ord2ymd_spec n : 1 <= n -> let '(y, m, d) := ord2ymd n in is_date y m d /\ ymd2ord y m d = n.
Proof.
  intros Hn. unfold ord2ymd. set (n0 := n - 1). set (a := n0 / 146097). set (n1 := n0 mod 146097). set (b := n1 / 36524).
  set (n2 := n1 mod 36524). set (c := n2 / 1461). set (n3 := n2 mod 1461). set (e := n3 / 365).
  pose proof (Z.div_mod n0 146097 ltac:(lia)) as Ha. pose proof (Z.mod_pos_bound n0 146097 ltac:(lia)) as Ha'. fold a n1 in Ha, Ha'.
  pose proof (Z.div_mod n1 36524 ltac:(lia)) as Hb. pose proof (Z.mod_pos_bound n1 36524 ltac:(lia)) as Hb'. fold b n2 in Hb, Hb'.
  pose proof (Z.div_mod n2 1461 ltac:(lia)) as Hc. pose proof (Z.mod_pos_bound n2 1461 ltac:(lia)) as Hc'. fold c n3 in Hc, Hc'.
  set (r := n3 mod 365) in *.
  pose proof (Z.div_mod n3 365 ltac:(lia)) as He. pose proof (Z.mod_pos_bound n3 365 ltac:(lia)) as Hr. fold e r in He, Hr.
  clearbody a n1 b n2 c n3 e r. subst n0.
  assert (0 <= b <= 4) by lia. assert (0 <= c <= 24) by lia. assert (0 <= e <= 4) by lia.
  destruct (Z.eqb_spec e 4) as [He4|He4]; cbn [orb].
  - assert (c < 24) by lia. assert (b <= 3) by lia. destruct (year_parts a b c 3) as [Hy Hl]; [lia..|].
    replace (a * 400 + b * 100 + c * 4 + e + 1 - 1) with (a * 400 + b * 100 + c * 4 + 3 + 1) by lia.
    assert (is_leap (a * 400 + b * 100 + c * 4 + 3 + 1) = true) as Hleap by (rewrite Hl; destruct (Z.eqb_spec c 24); [lia|done]).
    unfold is_date, ymd2ord. rewrite days_before_month_leap, days_in_month_leap, Hleap, Hy. change (before_month true 12) with 335.
    change (month_length true 12) with 31. lia.
  - destruct (Z.eqb_spec b 4) as [Hb4|Hb4].
    + assert (c = 0 /\ e = 0) as [-> ->] by lia. destruct (year_parts a 3 24 3) as [Hy Hl]; [lia..|].
      replace (a * 400 + b * 100 + 0 * 4 + 0 + 1 - 1) with (a * 400 + 3 * 100 + 24 * 4 + 3 + 1) by lia.
      change (is_leap (a * 400 + 3 * 100 + 24 * 4 + 3 + 1) = true) in Hl.
      unfold is_date, ymd2ord. rewrite days_before_month_leap, days_in_month_leap, Hl, Hy. change (before_month true 12) with 335.
      change (month_length true 12) with 31. lia.
    + destruct (year_parts a b c e) as [Hy Hl]; [lia..|]. set (y := a * 400 + b * 100 + c * 4 + e + 1) in *.
      rewrite month_steps. pose proof (in_month_spec (is_leap y) r) as Hm. destruct (in_month (is_leap y) r) as [m d].
      destruct Hm as (Hm & Hd & Hsum); [destruct (is_leap y); lia|]. unfold is_date, ymd2ord.
      rewrite days_before_month_leap, days_in_month_leap, Hy. lia.
Qed.

(** A later date has a later day. *)
Definition date_lt (a b : Z * Z * Z) : Prop :=
  let '(y, m, d) := a in let '(y', m', d') := b in y < y' \/ y = y' /\ (m < m' \/ m = m' /\ d < d').
Lemma days_before_next y : days_before_year (y + 1) = days_before_year y + (if is_leap y then 366 else 365).
Proof.
  unfold days_before_year, is_leap. replace (y + 1 - 1) with y by lia.
  destruct (Z.eqb_spec (y mod 4) 0), (Z.eqb_spec (y mod 100) 0), (Z.eqb_spec (y mod 400) 0); cbn [andb orb negb];
    Z.div_mod_to_equations; lia.
Qed.
Lemma days_before_mono y y' : y < y' -> days_before_year y + (if is_leap y then 366 else 365) <= days_before_year y'.
Proof.
  intros Hlt. assert (exists k : nat, y' = y + 1 + Z.of_nat k) as [k ->] by (exists (Z.to_nat (y' - y - 1)); lia). clear Hlt.
  induction k as [|k IH]; [rewrite Z.add_0_r, days_before_next; lia|].
  replace (y + 1 + Z.of_nat (S k)) with ((y + 1 + Z.of_nat k) + 1) by lia. rewrite days_before_next. destruct (is_leap (y + 1 + _)); lia.
Qed.
Lemma ymd2ord_lt y m d y' m' d' : is_date y m d -> is_date y' m' d' -> date_lt (y, m, d) (y', m', d') -> ymd2ord y m d < ymd2ord y' m' d'.
Proof.
  unfold is_date, ymd2ord. rewrite !days_before_month_leap, !days_in_month_leap. intros [Hm Hd] [Hm' Hd'] [Hy|[<- [Hlt|[<- Hlt]]]].
  - pose proof (days_before_mono y y' Hy). pose proof (year_length (is_leap y)).
    assert (before_month (is_leap y) m + month_length (is_leap y) m <= before_month (is_leap y) 12 + month_length (is_leap y) 12).
    { destruct (Z.eq_dec m 12) as [->|]; [lia|]. pose proof (before_month_mono (is_leap y) m 12). change (month_length (is_leap y) 12) with 31. lia. }
    assert (0 <= before_month (is_leap y') m').
    { destruct (Z.eq_dec m' 1) as [->|]; [done|]. pose proof (before_month_mono (is_leap y') 1 m'). change (before_month (is_leap y') 1) with 0 in *.
      change (month_length (is_leap y') 1) with 31 in *. lia. }
    lia.
  - pose proof (before_month_mono (is_leap y) m m'). lia.
  - lia.
Qed.
Lemma ord2ymd_lt n n' : 1 <= n -> n < n' -> date_lt (ord2ymd n) (ord2ymd n').
Proof.
  intros Hn Hlt. pose proof (ord2ymd_spec n Hn) as Hs. pose proof (ord2ymd_spec n' ltac:(lia)) as Hs'.
  destruct (ord2ymd n) as [[y m] d], (ord2ymd n') as [[y' m'] d'], Hs as [Hd <-], Hs' as [Hd' <-].
  destruct (Z.lt_trichotomy y y') as [|[<-|Hy]]; [by left| |pose proof (ymd2ord_lt _ _ _ _ _ _ Hd' Hd ltac:(by left)); lia].
  right. split; [done|]. destruct (Z.lt_trichotomy m m') as [|[<-|Hm]]; [by left| |].
  - right. split; [done|]. unfold ymd2ord in Hlt. lia.
  - pose proof (ymd2ord_lt _ _ _ _ _ _ Hd' Hd ltac:(right; split; [done|by left])). lia.
Qed.
Lemma ord2ymd_year n : 1 <= n <= max_ordinal -> let '(y, _, _) := ord2ymd n in 1 <= y <= 9999.
Proof.
  intros Hn. pose proof (ord2ymd_spec n ltac:(lia)) as Hs. destruct (ord2ymd n) as [[y m] d]. destruct Hs as [Hd Heq]. split.
  - destruct (Z.le_gt_cases 1 y) as [|Hy]; [done|]. pose proof (ymd2ord_lt y m d 1 1 1 Hd ltac:(by vm_compute) ltac:(left; lia)) as Hlt.
    change (ymd2ord 1 1 1) with 1 in Hlt. lia.
  - destruct (Z.le_gt_cases y 9999) as [|Hy]; [done|]. pose proof (ymd2ord_lt 9999 12 31 y m d ltac:(by vm_compute) Hd ltac:(left; lia)) as Hlt.
    change (ymd2ord 9999 12 31) with max_ordinal in Hlt. lia.
Qed.

(** * The order of texts *)
Lemma zfill_lt w n n' a b : 0 <= n -> n < n' -> n' < 10 ^ Z.of_nat w -> str_lt (zfill w n ++ a) (zfill w n' ++ b) = true.
Proof.
  revert n n' a b. induction w as [|w IH]; intros n n' a b Hn Hlt Hw; [cbn in Hw; lia|].
  rewrite Nat2Z.inj_succ, Z.pow_succ_r in Hw by lia. cbn [zfill]. rewrite <- !app_assoc.
  destruct (Z.lt_ge_cases (n / 10) (n' / 10)) as [Hd|Hd].
  - apply IH; [apply Z.div_pos; lia|done|]. apply Z.div_lt_upper_bound; lia.
  - assert (n / 10 = n' / 10) as -> by (pose proof (Z.div_le_mono n n' 10); lia). rewrite str_lt_app. cbn.
    assert (n mod 10 < n' mod 10) by (Z.div_mod_to_equations; lia). destruct (Z.ltb_spec (48 + n mod 10) (48 + n' mod 10)); [done|lia].
Qed.

(** The fraction of a second is left out when it is zero; ["+"] sorts before ["."]. *)
Definition fraction (us : Z) : str := (if us =? 0 then [] else lit "." ++ zfill 6 us) ++ lit "+00:00".
Lemma fraction_lt u u' : 0 <= u -> u < u' -> u' < 1000000 -> str_lt (fraction u) (fraction u') = true.
Proof.
  intros Hu Hlt Hu'. unfold fraction. destruct (Z.eqb_spec u' 0); [lia|]. destruct (Z.eqb_spec u 0) as [->|]; [done|].
  rewrite <- !app_assoc, str_lt_app. by apply zfill_lt.
Qed.
Lemma field_lt w n n' sep a b : 0 <= n -> n < n' \/ n = n' /\ str_lt a b = true -> n' < 10 ^ Z.of_nat w ->
  str_lt (zfill w n ++ sep ++ a) (zfill w n' ++ sep ++ b) = true.
Proof. intros Hn [Hlt|[<- Hlt]] Hw; [by apply zfill_lt|by rewrite !str_lt_app]. Qed.

Lemma days_in_month_max y m : days_in_month y m <= 31.
Proof. unfold days_in_month. repeat case_match; lia. Qed.
Definition time_text (t : Z) : str :=
  zfill 2 (t / 1000000 / 3600) ++ lit ":" ++ zfill 2 (t / 1000000 / 60 mod 60) ++ lit ":" ++ zfill 2 (t / 1000000 mod 60) ++ fraction (t mod 1000000).
Lemma time_text_lt t t' : 0 <= t -> t < t' -> t' < us_per_day -> str_lt (time_text t) (time_text t') = true.
Proof.
  unfold us_per_day. intros Ht Hlt Ht'. unfold time_text.
  assert (Hs : t / 1000000 < t' / 1000000 \/ t / 1000000 = t' / 1000000 /\ t mod 1000000 < t' mod 1000000) by (Z.div_mod_to_equations; lia).
  assert (0 <= t / 1000000 < 86400) by (Z.div_mod_to_equations; lia). assert (0 <= t' / 1000000 < 86400) by (Z.div_mod_to_equations; lia).
  pose proof (Z.mod_pos_bound t 1000000 ltac:(done)). pose proof (Z.mod_pos_bound t' 1000000 ltac:(done)).
  set (s := t / 1000000) in *. set (s' := t' / 1000000) in *. set (u := t mod 1000000) in *. set (u' := t' mod 1000000) in *. clearbody s s' u u'.
  apply field_lt; [apply Z.div_pos; lia| |change (10 ^ Z.of_nat 2) with 100; apply Z.div_lt_upper_bound; lia].
  destruct (Z.lt_ge_cases (s / 3600) (s' / 3600)); [by left|right]. split; [Z.div_mod_to_equations; lia|].
  apply field_lt; [apply Z.mod_pos_bound; lia| |change (10 ^ Z.of_nat 2) with 100; pose proof (Z.mod_pos_bound (s' / 60) 60); lia].
  destruct (Z.lt_ge_cases (s / 60 mod 60) (s' / 60 mod 60)); [by left|right]. split; [Z.div_mod_to_equations; lia|].
  apply (field_lt 2 _ _ []); [apply Z.mod_pos_bound; lia| |change (10 ^ Z.of_nat 2) with 100; pose proof (Z.mod_pos_bound s' 60); lia].
  destruct (Z.lt_ge_cases (s mod 60) (s' mod 60)); [by left|right]. split; [Z.div_mod_to_equations; lia|].
  apply fraction_lt; [lia| |lia]. Z.div_mod_to_equations; lia.
Qed.
Lemma date_text_lt y y' m m' d d' t t' : 0 <= y -> y' <= 9999 -> 0 <= m -> m' <= 12 -> 0 <= d -> d' <= 31 ->
  (date_lt (y, m, d) (y', m', d') \/ (y, m, d) = (y', m', d') /\ str_lt t t' = true) ->
  str_lt (zfill 4 y ++ lit "-" ++ zfill 2 m ++ lit "-" ++ zfill 2 d ++ lit "T" ++ t)
         (zfill 4 y' ++ lit "-" ++ zfill 2 m' ++ lit "-" ++ zfill 2 d' ++ lit "T" ++ t') = true.
Proof.
  intros Hy Hy' Hm Hm' Hd Hd' Hlt.
  assert (Hl : y < y' \/ y = y' /\ (m < m' \/ m = m' /\ (d < d' \/ d = d' /\ str_lt t t' = true)))
    by (unfold date_lt in Hlt; destruct Hlt as [Hlt|[[= -> -> ->] ?]]; [intuition|auto 8]).
  apply field_lt; [done| |change (10 ^ Z.of_nat 4) with 10000; lia]. destruct Hl as [|[-> Hl]]; [by left|right]. split; [done|].
  apply field_lt; [done| |change (10 ^ Z.of_nat 2) with 100; lia]. destruct Hl as [|[-> Hl]]; [by left|right]. split; [done|].
  apply field_lt; [done|done|change (10 ^ Z.of_nat 2) with 100; lia].
Qed.

Lemma isoformat_lt day us us' a b : 1 <= day -> 0 <= us -> us < us' ->
  isoformat day us = Some a -> isoformat day us' = Some b -> str_lt a b = true.
Proof.
  unfold isoformat. intros Hday Hus Hlt. set (o := day + us / us_per_day). set (o' := day + us' / us_per_day).
  assert (1 <= o) by (pose proof (Z.div_pos us us_per_day Hus ltac:(done)); lia).
  assert (Hoo : o < o' \/ o = o' /\ us mod us_per_day < us' mod us_per_day).
  { unfold o, o', us_per_day. pose proof (Z.div_le_mono us us' 86400000000). Z.div_mod_to_equations; lia. }
  pose proof (Z.mod_pos_bound us us_per_day ltac:(done)). pose proof (Z.mod_pos_bound us' us_per_day ltac:(done)).
  assert (Hdate : o = o' \/ date_lt (ord2ymd o) (ord2ymd o')) by (destruct Hoo as [|[-> _]]; [right; by apply ord2ymd_lt|by left]).
  set (t := us mod us_per_day) in *. set (t' := us' mod us_per_day) in *. change us_per_day with 86400000000 in *.
  pose proof (ord2ymd_spec o ltac:(lia)) as Hs. pose proof (ord2ymd_spec o' ltac:(lia)) as Hs'.
  pose proof (ord2ymd_year o) as Hy. pose proof (ord2ymd_year o') as Hy'.
  assert (Hsame : o = o' -> ord2ymd o = ord2ymd o') by congruence.
  destruct (ord2ymd o) as [[y m] d], (ord2ymd o') as [[y' m'] d']. destruct Hs as [Hd _], Hs' as [Hd' _].
  destruct (Z.ltb_spec max_ordinal o), (Z.ltb_spec max_ordinal o'); [done..|]. specialize (Hy ltac:(lia)). specialize (Hy' ltac:(lia)).
  intros <-%Some_inj <-%Some_inj. unfold is_date in Hd, Hd'. pose proof (days_in_month_max y' m').
  apply (date_text_lt y y' m m' d d' (time_text t) (time_text t')); [lia..|].
  destruct Hoo as [Hoo|[Ho Hoo]]; [destruct Hdate as [->|Hdate]; [lia|by left]|].
  right. split; [by apply Hsame|]. apply time_text_lt; unfold us_per_day; lia.
Qed.
End PyDates.
