(* ===== verification/Decimals.v ===== *)
(** Decimal numbers as text: printing an integer and reading it back. *)
From S2P Require Import Prelude PyBase.
Import Str.

Module Decimals.

Definition int_ok (n : Z) : Prop := Z.abs n < 10 ^ Z.of_nat int_max_str_digits.

(** * Characters *)
Lemma decimal_ascii n : 0 <= n < 10 -> decimal_value (48 + n) = Some n.
Proof.
  intros. unfold decimal_value. cbn -[Z.add].
  replace ((48 <=? 48 + n) && (48 + n <=? 48 + 9)) with true by lia. f_equal. lia.
Qed.

Lemma isdigit_ascii n : 0 <= n < 10 -> isdigit (48 + n) = true.
Proof.
  intros. unfold isdigit, isdecimal. rewrite decimal_ascii by done.
  by rewrite bool_decide_eq_true_2.
Qed.

Lemma decimal_not_space n : 0 <= n < 10 -> isspace (48 + n) = false.
Proof.
  intros. unfold isspace, in_ranges. cbn -[Z.add].
  repeat match goal with |- context [(?a <=? 48 + n) && (48 + n <=? ?b)] =>
    replace ((a <=? 48 + n) && (48 + n <=? b)) with false by lia end. done.
Qed.

Lemma one_of_elem cs c : one_of cs c = true <-> c ∈ cs.
Proof.
  unfold one_of. rewrite existsb_exists. split.
  - intros (x & Hx & ->%Z.eqb_eq). by apply list_elem_of_In.
  - intros H%list_elem_of_In. exists c. split; [done|]. apply Z.eqb_refl.
Qed.

Lemma one_of_Forall cs (P : Z -> bool) c : one_of cs c = true -> forallb P cs = true -> P c = true.
Proof.
  intros Hc%one_of_elem Hf. rewrite forallb_forall in Hf. apply Hf. by apply list_elem_of_In.
Qed.

Lemma not_minus_plus n : 0 <= n < 10 -> (48 + n =? 45) = false /\ (48 + n =? 43) = false.
Proof. lia. Qed.

(** * Numbers *)
Definition is_dig (d : Z) : Prop := 0 <= d < 10.

Lemma nat_digits_spec fuel n acc :
  0 <= n -> n < 10 ^ Z.of_nat fuel -> Forall (fun c => is_dig (c - 48)) acc ->
  exists ds, nat_digits fuel n acc = map (Z.add 48) ds ++ acc /\ Forall is_dig ds /\
    digits_value ds = n /\ (ds <> [] \/ fuel = 0%nat) /\
    (Z.of_nat (length ds) <= 1 \/ 10 ^ (Z.of_nat (length ds) - 1) <= n).
Proof.
  revert n acc. induction fuel as [|fuel IH]; intros n acc Hn Hlt Hacc.
  - exists []. cbn in *. repeat split; try done; lia.
  - cbn [nat_digits].
    pose proof (Z.mod_pos_bound n 10). pose proof (Z.div_mod n 10).
    case_match eqn:E; to_prop.
    + exists [n mod 10]. rewrite Z.mod_small by lia. repeat split; cbn; try lia.
      * repeat constructor; lia.
      * by left.
    + rewrite Nat2Z.inj_succ, Z.pow_succ_r in Hlt by lia.
      edestruct (IH (n / 10) ((48 + n mod 10) :: acc)) as (ds & Heq & Hds & Hv & Hne & Hlen).
      { lia. }
      { apply Z.div_lt_upper_bound; lia. }
      { constructor; [unfold is_dig; lia|done]. }
      exists (ds ++ [n mod 10]). rewrite Heq, map_app, <- app_assoc. cbn.
      split; [done|]. split; [apply Forall_app; split; [done|repeat constructor; lia]|].
      split; [|split].
      * unfold digits_value in *. rewrite fold_left_app. cbn. rewrite Hv. lia.
      * left. by destruct ds.
      * right. rewrite length_app. cbn.
        replace (Z.of_nat (length ds + 1) - 1) with (Z.of_nat (length ds)) by lia.
        destruct Hlen as [Hl|Hl].
        -- assert (10 ^ Z.of_nat (length ds) <= 10 ^ 1) by (apply Z.pow_le_mono_r; lia). lia.
        -- destruct (decide (length ds = 0)%nat) as [->|]; [cbn; lia|].
           replace (Z.of_nat (length ds)) with (Z.succ (Z.of_nat (length ds) - 1)) by lia.
           rewrite Z.pow_succ_r by lia. lia.
Qed.

Definition unsigned_str (a : Z) : str := nat_digits (S (Z.to_nat (Z.log2 a + 1))) a [].

Lemma unsigned_str_spec a :
  0 <= a ->
  exists ds, unsigned_str a = map (Z.add 48) ds /\ Forall is_dig ds /\
    digits_value ds = a /\ ds <> [] /\
    (a < 10 ^ Z.of_nat int_max_str_digits -> (length ds <= int_max_str_digits)%nat).
Proof.
  intros Ha. unfold unsigned_str.
  destruct (nat_digits_spec (S (Z.to_nat (Z.log2 a + 1))) a []) as (ds & Heq & Hds & Hv & Hne & Hlen);
    [done| |constructor|].
  - rewrite Nat2Z.inj_succ, Z2Nat.id by (pose proof (Z.log2_nonneg a); lia).
    destruct (decide (a = 0)) as [->|]; [done|].
    destruct (Z.log2_spec a) as [_ Hl]; [lia|].
    eapply Z.lt_le_trans; [exact Hl|].
    transitivity (2 ^ Z.succ (Z.log2 a + 1)).
    + apply Z.pow_le_mono_r; lia.
    + apply Z.pow_le_mono_l. pose proof (Z.log2_nonneg a). lia.
  - exists ds. rewrite app_nil_r in Heq. repeat split; try done.
    { by destruct Hne. }
    intros Hb. destruct Hlen as [?|Hl].
    { unfold int_max_str_digits. lia. }
    assert (10 ^ (Z.of_nat (length ds) - 1) < 10 ^ Z.of_nat int_max_str_digits) as Hp
      by (eapply Z.le_lt_trans; [exact Hl|exact Hb]).
    apply Z.pow_lt_mono_r_iff in Hp; lia.
Qed.

Lemma int_digits_map ds b :
  Forall is_dig ds -> (ds <> [] \/ b = true) -> int_digits (map (Z.add 48) ds) b = Some ds.
Proof.
  intros Hds. revert b. induction Hds as [|d ds Hd Hds IH]; intros b Hb.
  - by destruct Hb as [?| ->].
  - cbn [map int_digits]. rewrite decimal_ascii by done. rewrite IH; [done|by right].
Qed.

Lemma strip_digits ds p :
  Forall is_dig ds -> ds <> [] -> (p = [] \/ p = [45]) ->
  strip (p ++ map (Z.add 48) ds) = p ++ map (Z.add 48) ds.
Proof.
  intros Hds Hne Hp. unfold strip.
  assert (lstrip isspace (p ++ map (Z.add 48) ds) = p ++ map (Z.add 48) ds) as ->.
  { destruct Hp as [->| ->]; [|done].
    destruct ds as [|d ds]; [done|]. inversion_clear Hds. cbn.
    by rewrite decimal_not_space. }
  unfold rstrip. destruct ds as [|d ds _] using rev_ind; [done|].
  apply Forall_app in Hds as [_ Hd]. apply (Forall_inv (P := is_dig)) in Hd.
  rewrite map_app, app_assoc, rev_app_distr. cbn [rev map app lstrip].
  rewrite decimal_not_space by exact Hd.
  by rewrite <- (rev_unit (p ++ map (Z.add 48) ds) (48 + d)), rev_involutive.
Qed.

Lemma str_of_Z_eq n :
  str_of_Z n = (if n <? 0 then [45] else []) ++ unsigned_str (Z.abs n).
Proof. unfold str_of_Z, unsigned_str. by case_match. Qed.

Lemma py_int_str_of_Z n : int_ok n -> py_int (str_of_Z n) = Some n.
Proof.
  intros Hn. rewrite str_of_Z_eq.
  destruct (unsigned_str_spec (Z.abs n)) as (ds & -> & Hds & Hv & Hne & Hlen); [lia|].
  specialize (Hlen Hn). unfold py_int.
  rewrite strip_digits; [|done|done|case_match; auto].
  destruct (n <? 0) eqn:Hneg; to_prop; cbn [app].
  - rewrite Z.eqb_refl. rewrite int_digits_map by auto.
    rewrite (proj2 (Nat.ltb_ge _ _)) by done. f_equal. lia.
  - destruct ds as [|d ds]; [done|]. cbn [map].
    destruct (not_minus_plus d) as [-> ->]; [by inversion Hds|].
    change (48 + d :: map (Z.add 48) ds) with (map (Z.add 48) (d :: ds)).
    rewrite int_digits_map by auto.
    rewrite (proj2 (Nat.ltb_ge _ _)) by done. f_equal. lia.
Qed.

(** Leading zeros change nothing. *)
Lemma digits_value_zeros k ds : digits_value (repeat 0 k ++ ds) = digits_value ds.
Proof. unfold digits_value. rewrite fold_left_app. f_equal. induction k as [|k IH]; [done|]. exact IH. Qed.

Lemma unsigned_nonneg n : 0 <= n -> str_of_Z n = unsigned_str n.
Proof. intros Hn. rewrite str_of_Z_eq, Z.abs_eq by done. by destruct (Z.ltb_spec n 0); [lia|]. Qed.

(** The digits of a non-negative number after leading zeros. *)
Lemma padded_digits k n : 0 <= n ->
  exists ds, repeat (code "0") k ++ str_of_Z n = map (Z.add 48) ds /\ Forall is_dig ds /\ digits_value ds = n /\ ds <> [] /\
    (n < 10 ^ Z.of_nat int_max_str_digits -> (length ds <= k + int_max_str_digits)%nat).
Proof.
  intros Hn. rewrite unsigned_nonneg by done. destruct (unsigned_str_spec n Hn) as (ds & -> & Hds & Hv & Hne & Hl).
  exists (repeat 0 k ++ ds). split_and!.
  - rewrite map_app. f_equal. change (code "0") with (48 + 0). by rewrite map_repeat.
  - apply Forall_app. split; [|done]. apply Forall_forall. intros x Hx%list_elem_of_In%repeat_spec. subst x. unfold is_dig. lia.
  - by rewrite digits_value_zeros.
  - by destruct k.
  - rewrite length_app, repeat_length. lia.
Qed.

Lemma map_add_inj a l l' : map (Z.add a) l = map (Z.add a) l' -> l = l'.
Proof.
  revert l'. induction l as [|x l IH]; intros [|y l']; try done. cbn. intros [= Hx Hl%IH]. f_equal; [lia|done].
Qed.

Lemma padded_inj k k' n n' : 0 <= n -> 0 <= n' ->
  repeat (code "0") k ++ str_of_Z n = repeat (code "0") k' ++ str_of_Z n' -> n = n'.
Proof.
  intros Hn Hn' He. destruct (padded_digits k n Hn) as (ds & Hs & _ & Hv & _).
  destruct (padded_digits k' n' Hn') as (ds' & Hs' & _ & Hv' & _). rewrite Hs, Hs' in He.
  apply map_add_inj in He. congruence.
Qed.

(** No other character occurs in it. *)
Lemma padded_no_char k n c : 0 <= n -> c < 48 \/ 58 <= c -> c ∉ repeat (code "0") k ++ str_of_Z n.
Proof.
  intros Hn Hc Hin. destruct (padded_digits k n Hn) as (ds & Hs & Hds & _). rewrite Hs in Hin.
  apply list_elem_of_fmap in Hin as (d & -> & Hd). rewrite Forall_forall in Hds. apply Hds in Hd. unfold is_dig in Hd. lia.
Qed.

#[export] Instance str_of_Z_inj : Inj eq eq str_of_Z.
Proof.
  assert (Hsign : forall n m, n < 0 -> 0 <= m -> str_of_Z n <> str_of_Z m).
  { intros n m Hn Hm He. apply (padded_no_char 0 m 45 Hm); [by left|]. cbn [repeat app]. rewrite <-He, str_of_Z_eq.
    destruct (Z.ltb_spec n 0); [by left|lia]. }
  intros n m He. destruct (Z.ltb_spec n 0) as [Hn|Hn], (Z.ltb_spec m 0) as [Hm|Hm].
  - rewrite !str_of_Z_eq in He. destruct (Z.ltb_spec n 0), (Z.ltb_spec m 0); try lia. injection He as He.
    rewrite <-!unsigned_nonneg in He by lia. apply (padded_inj 0 0) in He; lia.
  - by destruct (Hsign n m Hn Hm).
  - by destruct (Hsign m n Hm Hn).
  - by apply (padded_inj 0 0) in He.
Qed.

Lemma py_int_digits ds : Forall is_dig ds -> ds <> [] -> (length ds <= int_max_str_digits)%nat ->
  py_int (map (Z.add 48) ds) = Some (digits_value ds).
Proof.
  intros Hds Hne Hl. unfold py_int. pose proof (strip_digits ds [] Hds Hne (or_introl eq_refl)) as Hs. cbn [app] in Hs. rewrite Hs.
  destruct ds as [|d ds]; [done|]. cbn [map]. destruct (not_minus_plus d) as [-> ->]; [by inversion Hds|].
  change (48 + d :: map (Z.add 48) ds) with (map (Z.add 48) (d :: ds)). rewrite int_digits_map by auto.
  by rewrite (proj2 (Nat.ltb_ge _ _)).
Qed.

(** Reading a number back from its zero-padded text. *)
Lemma py_int_padded m n : 0 <= n < 10 ^ Z.of_nat int_max_str_digits -> (m <= int_max_str_digits)%nat ->
  py_int (repeat (code "0") (m - length (str_of_Z n)) ++ str_of_Z n) = Some n.
Proof.
  intros Hn Hm. destruct (padded_digits (m - length (str_of_Z n)) n ltac:(lia)) as (ds & Hs & Hds & Hv & Hne & _).
  destruct (padded_digits 0 n ltac:(lia)) as (ds0 & Hs0 & _ & _ & _ & Hl0). cbn [repeat app] in Hs0. specialize (Hl0 ltac:(lia)).
  rewrite Hs, py_int_digits; [by rewrite Hv|done|done|].
  apply (f_equal length) in Hs, Hs0. rewrite length_app, repeat_length, length_map in Hs. rewrite length_map in Hs0. lia.
Qed.

Lemma split_on_cut c a b : c ∉ a -> split_on c (a ++ c :: b) = a :: split_on c b.
Proof.
  induction a as [|d a IH]; cbn [app split_on]; intros Ha.
  - by rewrite Z.eqb_refl.
  - apply not_elem_of_cons in Ha as [Hne Ha]. destruct (Z.eqb_spec d c) as [->|]; [done|]. by rewrite IH.
Qed.
End Decimals.
