(* ===== verification/LvmModels.v ===== *)
(** LVM2 data model: the exception classes of disk_images/lvm/exceptions.py,
    the frozen dataclasses of disk_images/lvm/models.py and the tree
    disk_images/lvm/text_format.py builds. *)
From S2P Require Import Prelude PyBase.
Import Str.

Module LvmModels.

(** [LVMMetadataError] and its subclasses. *)
Inductive LVMMetadataError : Type :=
  | InvalidLabelError
  | UnsupportedMetadataVersionError
  | UnsupportedMetadataLayoutError
  | MalformedMetadataTextError
  | MissingRequiredFieldError
  | UnsupportedSegmentTypeError
  | InconsistentMetadataError.

(** What the metadata parser can raise: its own classes, or an exception of
    the runtime that none of its code translates. *)
Inductive lvm_exn : Type :=
  | LVM (e : LVMMetadataError)
  | LvmPy (e : py_exn).

(** [LogicalVolumeReadError] and its subclasses; [PhysicalReadError] is
    whatever the caller's [read_physical] raised, passed on unchanged. *)
Inductive LogicalVolumeReadError : Type :=
  | InvalidReadRequestError
  | ExtentMapGapError
  | UnresolvedPhysicalVolumeError
  | UnderlyingReadError
  | PhysicalReadError (e : py_exn)
  | ReaderPy (e : py_exn).

Record MetadataArea := {
  header_offset_bytes : Z;
  ma_area_size_bytes : Z;
  metadata_text_offset_bytes : Z;
  metadata_text_size_bytes : Z }.

Record LinearSegment := {
  start_extent : Z;
  extent_count : Z;
  physical_volume_name : str;
  start_physical_extent : Z }.

Record LogicalVolume := {
  lv_name : str;
  lv_id : str;
  segments : list LinearSegment }.

(** The [extent_count] property: the sum over the segments. *)
Definition lv_extent_count (lv : LogicalVolume) : Z :=
  fold_right Z.add 0 (map extent_count (segments lv)).

Record PhysicalVolume := {
  pv_name : str;
  pv_id : str;
  device_size_bytes : Z;
  pv_extent_size_bytes : Z;
  pe_start_bytes : Z;
  pv_extent_count : Z }.

Record VolumeGroup := {
  vg_name : str;
  vg_id : str;
  extent_size_bytes : Z;
  physical_volumes : list PhysicalVolume;
  logical_volumes : list LogicalVolume;
  metadata_area : MetadataArea }.

Record PhysicalVolumeMetadata := {
  physical_volume : PhysicalVolume;
  volume_group : VolumeGroup }.

(** The parsed tree ([ConfigValue]): integers, strings, arrays of integers
    and strings, and sections, a [dict] in insertion order. *)
Inductive scalar : Type :=
  | SInt (n : Z)
  | SStr (s : str).

Inductive ConfigValue : Type :=
  | CInt (n : Z)
  | CStr (s : str)
  | CArr (items : list scalar)
  | CSec (body : list (str * ConfigValue)).

Abbreviation ConfigSection := (list (str * ConfigValue)).

#[export] Instance LVMMetadataError_eq_dec : EqDecision LVMMetadataError.
Proof. solve_decision. Defined.
#[export] Instance lvm_exn_eq_dec : EqDecision lvm_exn.
Proof. solve_decision. Defined.

(** [isinstance(exc, LVMMetadataError)] *)
Definition is_LVMMetadataError (e : lvm_exn) : bool :=
  match e with LVM _ => true | LvmPy _ => false end.

End LvmModels.
