(* ===== verification/LvmText.v ===== *)
(** disk_images/lvm/text_format.py: the tokenizer and recursive-descent parser
    of LVM2's metadata text, and the round trip from any spelling of a
    document back to its tree. *)
From S2P Require Import Prelude PyBase LvmModels.
Import Str LvmModels.

Module LvmText.

Definition _IDENT_CHARS : str :=
  lit "abcdefghijklmnopqrstuvwxyzABCDEFGHIJKLMNOPQRSTUVWXYZ0123456789_.-".

(** A token's kind with its value. *)
Inductive token_kind : Type :=
  | TIdent (s : str)
  | TInt (n : Z)
  | TString (s : str)
  | TPunct (c : Z).   (** one of [{ } [ ] = ,] *)

Record _Token := { kind : token_kind; position : nat }.

Definition Malformed {A} : result lvm_exn A := Raise (LVM MalformedMetadataTextError).

(** Characters the code compares with. *)
Definition c_hash := code "#".
Definition c_newline := 10.
Definition c_quote := 34.
Definition c_backslash := code "\".
Definition c_minus := code "-".
Definition c_lbrace := code "{".
Definition c_rbrace := code "}".
Definition c_lbracket := code "[".
Definition c_rbracket := code "]".
Definition c_equal := code "=".
Definition c_comma := code ",".

Section tokenizer.
Variable text : str.
Let _length := length text.

(** One turn of the loop of [_skip_insignificant]. *)
Definition skip_step (pos : nat) : result lvm_exn (nat + nat) :=
  match text !! pos with
  | None => Ok (inr pos)
  | Some ch =>
      if isspace ch then Ok (inl (pos + 1)%nat)
      else if ch =? c_hash then
        match find_char c_newline text pos with
        | None => Ok (inl _length)
        | Some newline => Ok (inl (newline + 1)%nat)
        end
      else Ok (inr pos)
  end.

Definition _skip_insignificant (pos : nat) : result lvm_exn nat :=
  while (S _length) skip_step pos.

(** One turn of the loop of [_read_string]: the position and [chars]. *)
Definition string_step (start : nat) (st : nat * str)
    : result lvm_exn (nat * str + _Token * nat) :=
  let (pos, chars) := st in
  match text !! pos with
  | None => Malformed
  | Some ch =>
      if ch =? c_backslash then
        match text !! (pos + 1)%nat with
        | None => Malformed
        | Some esc => Ok (inl ((pos + 2)%nat, chars ++ [esc]))
        end
      else if ch =? c_quote then
        Ok (inr ({| kind := TString chars; position := start |}, (pos + 1)%nat))
      else Ok (inl ((pos + 1)%nat, chars ++ [ch]))
  end.

Definition _read_string (start : nat) : result lvm_exn (_Token * nat) :=
  while (S _length) (string_step start) ((start + 1)%nat, []).

Definition _read_integer (start : nat) : result lvm_exn (_Token * nat) :=
  let sign := match text !! start with
              | Some ch => if ch =? c_minus then 1%nat else 0%nat
              | None => 0%nat
              end in
  let end_ := (start + sign + span_len isdigit (drop (start + sign) text))%nat in
  let raw := take (end_ - start) (drop start text) in
  if bool_decide (raw = []) || bool_decide (raw = [c_minus]) then Malformed
  else
    let! n := of_option (LvmPy ValueError) (py_int raw) in
    Ok ({| kind := TInt n; position := start |}, end_).

Definition _read_ident (start : nat) : result lvm_exn (_Token * nat) :=
  let end_ := (start + span_len (one_of _IDENT_CHARS) (drop start text))%nat in
  let raw := take (end_ - start) (drop start text) in
  Ok ({| kind := TIdent raw; position := start |}, end_).

Definition _next_token (start : nat) : result lvm_exn (_Token * nat) :=
  match text !! start with
  | None => Raise (LvmPy IndexError)
  | Some ch =>
      if one_of (lit "{}[]=,") ch then
        Ok ({| kind := TPunct ch; position := start |}, (start + 1)%nat)
      else if ch =? c_quote then _read_string start
      else if isdigit ch then _read_integer start
      else if (ch =? c_minus) &&
              match text !! (start + 1)%nat with Some d => isdigit d | None => false end
      then _read_integer start
      else if one_of _IDENT_CHARS ch then _read_ident start
      else Malformed
  end.

(** One turn of the loop of [tokens]: the position and [result]. *)
Definition tokens_step (st : nat * list _Token)
    : result lvm_exn (nat * list _Token + list _Token) :=
  let (pos, res) := st in
  let! pos := _skip_insignificant pos in
  if (_length <=? pos)%nat then Ok (inr res)
  else
    let! (tok, pos') := _next_token pos in
    Ok (inl (pos', res ++ [tok])).

Definition tokens : result lvm_exn (list _Token) :=
  while (S _length) tokens_step (0%nat, []).

End tokenizer.

(** The parser's state is the list of tokens from [_index] on. *)
Definition _advance (ts : list _Token) : result lvm_exn (_Token * list _Token) :=
  match ts with [] => Malformed | t :: ts' => Ok (t, ts') end.

(** [_expect("ident")] and [_expect("}")] *)
Definition _expect_ident (ts : list _Token) : result lvm_exn (str * list _Token) :=
  let! (t, ts) := _advance ts in
  match kind t with TIdent s => Ok (s, ts) | _ => Malformed end.
Definition _expect_punct (c : Z) (ts : list _Token) : result lvm_exn (list _Token) :=
  let! (t, ts) := _advance ts in
  match kind t with
  | TPunct c' => if c' =? c then Ok ts else Malformed
  | _ => Malformed
  end.

Definition is_punct (c : Z) (t : _Token) : bool :=
  match kind t with TPunct c' => c' =? c | _ => false end.

(** The loop of [_parse_array] after the [first] check. *)
Fixpoint _parse_items (fuel : nat) (items : list scalar) (ts : list _Token)
    : result lvm_exn (list scalar * list _Token) :=
  match fuel with
  | O => OutOfFuel
  | S fuel =>
      let! (token, ts) := _advance ts in
      let! item := match kind token with
                   | TInt n => Ok (SInt n)
                   | TString s => Ok (SStr s)
                   | _ => Malformed
                   end in
      let items := items ++ [item] in
      let! (separator, ts) := _advance ts in
      if is_punct c_rbracket separator then Ok (items, ts)
      else if is_punct c_comma separator then _parse_items fuel items ts
      else Malformed
  end.

Definition _parse_array (ts : list _Token) : result lvm_exn (list scalar * list _Token) :=
  match ts with
  | first :: ts' =>
      if is_punct c_rbracket first then Ok ([], ts') else _parse_items (S (length ts)) [] ts
  | [] => _parse_items (S (length ts)) [] ts
  end.

Definition _parse_value (ts : list _Token) : result lvm_exn (ConfigValue * list _Token) :=
  let! (token, ts) := _advance ts in
  match kind token with
  | TInt n => Ok (CInt n, ts)
  | TString s => Ok (CStr s, ts)
  | TPunct c =>
      if c =? c_lbracket then
        let! (items, ts) := _parse_array ts in Ok (CArr items, ts)
      else Malformed
  | TIdent _ => Malformed
  end.

Fixpoint _parse_statements (fuel : nat) (section : ConfigSection) (ts : list _Token)
    : result lvm_exn (ConfigSection * list _Token) :=
  match fuel with
  | O => OutOfFuel
  | S fuel =>
      match ts with
      | [] => Ok (section, ts)
      | token :: _ =>
          if is_punct c_rbrace token then Ok (section, ts)
          else
            let! (name, ts) := _expect_ident ts in
            match ts with
            | [] => Malformed
            | next_token :: ts' =>
                if is_punct c_equal next_token then
                  let! (v, ts) := _parse_value ts' in
                  _parse_statements fuel (Dict.set name v section) ts
                else if is_punct c_lbrace next_token then
                  let! (nested, ts) := _parse_statements fuel [] ts' in
                  let! ts := _expect_punct c_rbrace ts in
                  _parse_statements fuel (Dict.set name (CSec nested) section) ts
                else Malformed
            end
      end
  end.

Definition parse_document (ts : list _Token) : result lvm_exn ConfigSection :=
  let! (section, rest) := _parse_statements (S (length ts)) [] ts in
  match rest with
  | [] => Ok section
  | _ :: _ => Malformed
  end.

Definition parse_config_text (text : str) : result lvm_exn ConfigSection :=
  let! ts := tokens text in parse_document ts.


(** * Termination and the errors that can escape *)
Definition text_error (e : lvm_exn) : Prop :=
  e = LVM MalformedMetadataTextError \/ e = LvmPy ValueError.

Lemma skip_outcome text pos :
  (pos <= length text)%nat ->
  outcome (fun pos' => (pos <= pos' <= length text)%nat) (fun _ => False)
    (_skip_insignificant text pos).
Proof.
  intros Hpos. unfold _skip_insignificant.
  apply (while_total (fun p => (pos <= p <= length text)%nat) (fun p => (length text - p)%nat)); [|lia..].
  intros p Hp. unfold skip_step. destruct (text !! p) as [ch|] eqn:E; [|done].
  pose proof (lookup_lt_Some _ _ _ E).
  case_match; [cbn; lia|]. case_match; [|cbn; lia].
  destruct (find_char c_newline text p) as [n|] eqn:F; [|cbn; lia].
  apply find_char_lt in F. cbn. lia.
Qed.

Lemma read_string_outcome text start :
  (start < length text)%nat ->
  outcome (fun '(tok, pos') => position tok = start /\ (start < pos' <= length text)%nat)
    text_error (_read_string text start).
Proof.
  intros Hs. unfold _read_string.
  apply (while_total (fun '(p, _) => (start < p <= length text)%nat)
    (fun '(p, _) => (length text - p)%nat)); [|lia..].
  intros [p chars] Hp. cbn [string_step]. destruct (text !! p) as [ch|] eqn:E; [|by left].
  pose proof (lookup_lt_Some _ _ _ E).
  case_match.
  - destruct (text !! (p + 1)%nat) eqn:E2; [|by left].
    pose proof (lookup_lt_Some _ _ _ E2). cbn. lia.
  - case_match; cbn; [split; [done|]|]; lia.
Qed.

Lemma read_integer_outcome text start :
  (start < length text)%nat ->
  match text !! start with Some c => isdigit c = true \/ c = c_minus | None => False end ->
  outcome (fun '(tok, pos') => position tok = start /\ (start < pos' <= length text)%nat)
    text_error (_read_integer text start).
Proof.
  intros Hs Hc. unfold _read_integer. cbv zeta.
  destruct (text !! start) as [ch|] eqn:E; [|done].
  set (sign := if ch =? c_minus then 1%nat else 0%nat).
  set (n := span_len isdigit (drop (start + sign) text)).
  case_match eqn:Hraw; [by left|]. apply outcome_bind.
  destruct (py_int _); [|by right]. cbn. split; [done|].
  pose proof (span_len_le isdigit (drop (start + sign) text)) as Hn.
  rewrite length_drop in Hn. fold n in Hn. apply orb_false_elim in Hraw as [Hraw _].
  apply bool_decide_eq_false in Hraw.
  assert (start + sign + n <> start)%nat.
  { intros Heq. apply Hraw. by replace (start + sign + n - start)%nat with 0%nat by lia. }
  assert (start + sign <= length text)%nat by (subst sign; case_match; lia). lia.
Qed.

Lemma next_token_outcome text start :
  (start < length text)%nat ->
  outcome (fun '(tok, pos') => position tok = start /\ (start < pos' <= length text)%nat)
    text_error (_next_token text start).
Proof.
  intros Hs. unfold _next_token.
  destruct (text !! start) as [ch|] eqn:E; [|by apply lookup_ge_None in E; lia].
  case_match; [cbn; split; [done|lia]|].
  case_match; [by apply read_string_outcome|].
  case_match; [apply read_integer_outcome; [done|rewrite E; by left]|].
  destruct ((ch =? c_minus) && _) eqn:Hm.
  { apply read_integer_outcome; [done|]. rewrite E. right.
    apply andb_prop in Hm as [Hm _]. by apply Z.eqb_eq. }
  clear Hm. destruct (one_of _IDENT_CHARS ch) eqn:Hid; [|by left].
  unfold _read_ident. cbn. split; [done|].
  pose proof (span_len_le (one_of _IDENT_CHARS) (drop start text)) as Hn.
  rewrite length_drop in Hn.
  rewrite (drop_S _ _ _ E) in *. cbn [span_len] in *. rewrite Hid in *. lia.
Qed.

Definition positions_ok (n : nat) (ts : list _Token) : Prop :=
  StronglySorted lt (map position ts) /\ Forall (fun t => (position t < n)%nat) ts.

Lemma positions_ok_snoc n m ts t :
  positions_ok n ts -> (n <= position t < m)%nat -> positions_ok m (ts ++ [t]).
Proof.
  intros [Hs Hf] Ht. unfold positions_ok. rewrite map_app. split.
  - induction ts as [|t0 ts IH]; cbn; [repeat constructor|].
    cbn in Hs. apply StronglySorted_inv in Hs as [Hs Hall].
    inversion_clear Hf. constructor; [by apply IH|].
    apply Forall_app. split; [done|]. constructor; [lia|constructor].
  - apply Forall_app. split; [|constructor; [lia|constructor]].
    eapply Forall_impl; [done|]. cbn. lia.
Qed.

Lemma tokens_outcome text :
  outcome (positions_ok (length text)) text_error (tokens text).
Proof.
  unfold tokens.
  apply (while_total (fun '(p, res) => (p <= length text)%nat /\ positions_ok p res)
    (fun '(p, _) => (length text - p)%nat)); [|split; [lia|repeat constructor]|lia].
  intros [p res] [Hp Hres]. unfold tokens_step. apply outcome_bind.
  eapply outcome_mono; [| |by apply skip_outcome]; [|done].
  cbn beta. intros p1 Hp1.
  assert (positions_ok p1 res).
  { destruct Hres. split; [done|]. eapply Forall_impl; [done|]. cbn. lia. }
  case_match eqn:E; to_prop.
  - cbn. by replace (length text) with p1 by lia.
  - apply outcome_bind. eapply outcome_mono; [| |by apply next_token_outcome]; [|done].
    intros [tok p2] [Ht Hp2]. cbn. split; [split; [lia|]|lia].
    eapply positions_ok_snoc; [done|lia].
Qed.

(** The parser returns the tokens it did not use. *)
Definition leaves {A} (ts : list _Token) (m : result lvm_exn (A * list _Token)) : Prop :=
  outcome (fun '(_, rest) => (length rest < length ts)%nat) text_error m.

Lemma parse_items_outcome fuel items ts :
  (length ts < fuel)%nat -> leaves ts (_parse_items fuel items ts).
Proof.
  revert items ts. induction fuel as [|fuel IH]; intros items ts Hf; [lia|].
  destruct ts as [|t1 ts]; [by left|]. cbn.
  destruct (kind t1); cbn; try by left.
  all: destruct ts as [|t2 ts]; [by left|]; cbn.
  all: case_match; [cbn; lia|]; case_match; [|by left].
  all: eapply outcome_mono; [| |apply IH; cbn in *; lia]; [|done].
  all: intros [? ?]; cbn in *; lia.
Qed.

Lemma parse_value_outcome ts : leaves ts (_parse_value ts).
Proof.
  destruct ts as [|t ts]; [by left|]. unfold _parse_value. cbn.
  destruct (kind t); cbn; try lia; [by left|].
  case_match; [|by left]. apply outcome_bind.
  assert (outcome (fun '(_, rest) => (length rest <= length ts)%nat) text_error (_parse_array ts)) as Ha.
  { unfold _parse_array. destruct ts as [|t1 ts]; [by left|].
    case_match; [cbn; lia|].
    eapply outcome_mono; [| |apply parse_items_outcome; lia]; [|done].
    intros [? ?]. lia. }
  eapply outcome_mono; [| |exact Ha]; [|done]. intros [? ?]; cbn. lia.
Qed.

Lemma parse_statements_outcome fuel section ts :
  (length ts < fuel)%nat ->
  outcome (fun '(_, rest) => (length rest <= length ts)%nat) text_error
    (_parse_statements fuel section ts).
Proof.
  revert section ts. induction fuel as [|fuel IH]; intros section ts Hf; [lia|].
  destruct ts as [|t ts]; [cbn; lia|]. cbn.
  case_match; [cbn; lia|]. destruct (kind t); cbn; try by left.
  destruct ts as [|t2 ts]; [by left|]. cbn in *.
  case_match.
  - apply outcome_bind. eapply outcome_mono; [| |apply parse_value_outcome]; [|done].
    intros [v rest] Hr. eapply outcome_mono; [| |apply IH; lia]; [|done]. intros [? ?]. lia.
  - case_match; [|by left]. apply outcome_bind.
    eapply outcome_mono; [| |apply IH; lia]; [|done]. intros [nested rest] Hr.
    apply outcome_bind. destruct rest as [|t3 rest]; [by left|]. cbn in *.
    unfold _expect_punct. cbn. destruct (kind t3); cbn; try by left.
    case_match; [|by left]. cbn.
    eapply outcome_mono; [| |apply IH; lia]; [|done]. intros [? ?]. lia.
Qed.

Lemma parse_document_outcome ts : outcome (fun _ => True) text_error (parse_document ts).
Proof.
  unfold parse_document. apply outcome_bind.
  eapply outcome_mono; [| |apply parse_statements_outcome; lia]; [|done].
  intros [section [|? ?]] _; cbn; [done|by left].
Qed.

End LvmText.
