(* ===== verification/LvmTextRound.v ===== *)
(** Round trip of the metadata text: every layout of a well-formed document
    (any whitespace and comments between its tokens) parses back to that
    document. *)
From S2P Require Import Prelude PyBase Decimals LvmModels LvmText.
Import Str Decimals LvmModels LvmText.

Module LvmTextRound.

(** * The text of a document *)

(** Whitespace and comments between two tokens. *)
Inductive insignificant : str -> Prop :=
  | ins_nil : insignificant []
  | ins_space c s : isspace c = true -> insignificant s -> insignificant (c :: s)
  | ins_comment body s :
      forallb (fun c => negb (c =? c_newline)) body = true -> insignificant s ->
      insignificant (c_hash :: body ++ c_newline :: s).

(** What may follow the last token: a final comment needs no newline. *)
Definition trailing (s : str) : Prop :=
  insignificant s \/
  exists a body, s = a ++ c_hash :: body /\ insignificant a /\
    forallb (fun c => negb (c =? c_newline)) body = true.

(** LVM2 escapes quotes and backslashes. *)
Definition escape (c : Z) : str :=
  if (c =? c_quote) || (c =? c_backslash) then [c_backslash; c] else [c].

Definition render (k : token_kind) : str :=
  match k with
  | TIdent s => s
  | TInt n => str_of_Z n
  | TString s => c_quote :: flat_map escape s ++ [c_quote]
  | TPunct c => [c]
  end.

Definition ident_ok (s : str) : Prop :=
  forallb (one_of _IDENT_CHARS) s = true /\
  match s with
  | [] => False
  | c :: s' => isdigit c = false /\
      (c = c_minus -> match s' with d :: _ => isdigit d = false | [] => True end)
  end.

Definition kind_ok (k : token_kind) : Prop :=
  match k with
  | TIdent s => ident_ok s
  | TInt n => int_ok n
  | TString _ => True
  | TPunct c => one_of (lit "{}[]=,") c = true
  end.

(** An identifier or a number must not run into the next token. *)
Definition stops (k : token_kind) (rest : str) : Prop :=
  match k, rest with
  | (TIdent _ | TInt _), c :: _ => one_of _IDENT_CHARS c = false /\ isdigit c = false
  | _, _ => True
  end.

Inductive spells : list token_kind -> str -> Prop :=
  | spells_nil s : trailing s -> spells [] s
  | spells_cons pre k ks rest :
      insignificant pre -> kind_ok k -> stops k rest -> spells ks rest ->
      spells (k :: ks) (pre ++ render k ++ rest).

(** The tokens of a document. *)
Definition scalar_kind (s : scalar) : token_kind :=
  match s with SInt n => TInt n | SStr s => TString s end.

Fixpoint items_kinds (items : list scalar) : list token_kind :=
  match items with
  | [] => [TPunct c_rbracket]
  | [x] => [scalar_kind x; TPunct c_rbracket]
  | x :: items' => scalar_kind x :: TPunct c_comma :: items_kinds items'
  end.

Fixpoint stmt_kinds (name : str) (v : ConfigValue) : list token_kind :=
  match v with
  | CInt n => [TIdent name; TPunct c_equal; TInt n]
  | CStr s => [TIdent name; TPunct c_equal; TString s]
  | CArr items => TIdent name :: TPunct c_equal :: TPunct c_lbracket :: items_kinds items
  | CSec body =>
      TIdent name :: TPunct c_lbrace ::
      (fix go (l : ConfigSection) :=
         match l with
         | [] => [TPunct c_rbrace]
         | (n, v) :: l' => stmt_kinds n v ++ go l'
         end) body
  end.

Definition doc_kinds (d : ConfigSection) : list token_kind :=
  flat_map (fun '(n, v) => stmt_kinds n v) d.

(** A dict has each key once. *)
Fixpoint value_ok (v : ConfigValue) : Prop :=
  match v with
  | CSec body =>
      NoDup (map fst body) /\
      (fix go (l : ConfigSection) : Prop :=
         match l with [] => True | (_, v) :: l' => value_ok v /\ go l' end) body
  | _ => True
  end.
Definition doc_ok (d : ConfigSection) : Prop := value_ok (CSec d).

(** * The tokenizer on spelled text

    [p] is what has been read, so [length p] is the tokenizer's position. *)
Definition stops_skip (r : str) : Prop :=
  match r with [] => True | c :: _ => isspace c = false /\ (c =? c_hash) = false end.

(** Insignificant text costs at most one turn per character. *)
Lemma skip_over text p s r :
  insignificant s -> text = p ++ s ++ r ->
  exists k, (k <= length s)%nat /\
    forall fuel, while (k + fuel) (skip_step text) (length p)
      = while fuel (skip_step text) (length (p ++ s)).
Proof.
  intros Hs. revert p. induction Hs as [|c s Hc Hs IH|body s Hb Hs IH]; intros p Heq.
  - exists 0%nat. split; [lia|]. intros fuel. by rewrite app_nil_r.
  - destruct (IH (p ++ [c])) as (k & Hk & IH'); [by rewrite <- app_assoc|].
    exists (S k). split; [cbn; lia|]. intros fuel. cbn [Nat.add]. rewrite while_unfold.
    unfold skip_step at 1. rewrite Heq at 1. cbn [app]. rewrite lookup_mid, Hc.
    replace (length p + 1)%nat with (length (p ++ [c])) by (rewrite length_app; cbn; lia).
    by rewrite IH', <- app_assoc.
  - set (q := p ++ c_hash :: body ++ [c_newline]).
    destruct (IH q) as (k & Hk & IH'); [subst q text; cbn; by rewrite <- !app_assoc; cbn; rewrite <- !app_assoc|].
    exists (S k). split; [cbn; rewrite length_app; cbn; lia|]. intros fuel.
    cbn [Nat.add]. rewrite while_unfold.
    assert (text = p ++ (c_hash :: body) ++ c_newline :: s ++ r) as Heq'.
    { rewrite Heq. cbn. by rewrite <- app_assoc. }
    unfold skip_step at 1. rewrite Heq' at 1. rewrite <- app_comm_cons, lookup_mid.
    change (isspace c_hash) with false. rewrite Z.eqb_refl. cbv iota.
    assert (find_char c_newline text (length p) = Some (length p + length (c_hash :: body))%nat) as ->.
    { rewrite Heq'. by apply find_char_mid. }
    replace (length p + length (c_hash :: body) + 1)%nat with (length q)
      by (subst q; rewrite !length_app; cbn; rewrite !length_app; cbn; lia).
    rewrite IH'. f_equal. subst q. rewrite <- app_assoc. cbn. by rewrite <- app_assoc.
Qed.

Lemma skip_from text p s r :
  insignificant s -> text = p ++ s ++ r ->
  exists fuel, (length r < fuel)%nat /\
    _skip_insignificant text (length p) = while fuel (skip_step text) (length (p ++ s)).
Proof.
  intros Hs Heq. destruct (skip_over text p s r Hs Heq) as (k & Hk & H).
  exists (S (length text) - k)%nat. split.
  { subst text. rewrite !length_app. lia. }
  unfold _skip_insignificant. rewrite <- H. f_equal. subst text. rewrite !length_app. lia.
Qed.

Lemma skip_exact p s r :
  insignificant s -> stops_skip r ->
  _skip_insignificant (p ++ s ++ r) (length p) = Ok (length (p ++ s)).
Proof.
  intros Hs Hr. destruct (skip_from _ p s r Hs eq_refl) as ([|fuel] & Hf & ->); [lia|].
  rewrite while_unfold. unfold skip_step at 1. rewrite app_assoc.
  destruct r as [|c r].
  - rewrite lookup_ge_None_2; [done|]. rewrite app_nil_r. lia.
  - rewrite lookup_mid. by destruct Hr as [-> ->].
Qed.

Lemma skip_trailing p s :
  trailing s -> _skip_insignificant (p ++ s) (length p) = Ok (length (p ++ s)).
Proof.
  intros [Hs|(a & body & -> & Ha & Hb)].
  { rewrite <- (app_nil_r s) at 1. by apply skip_exact. }
  destruct (skip_from _ p a (c_hash :: body) Ha eq_refl) as ([|[|fuel]] & Hf & ->); [cbn in Hf; lia..|].
  rewrite while_unfold. unfold skip_step at 1. rewrite app_assoc, lookup_mid.
  change (isspace c_hash) with false. rewrite Z.eqb_refl. cbv iota.
  rewrite find_char_none; [|cbn [forallb]; by rewrite Hb].
  rewrite while_unfold. unfold skip_step at 1. by rewrite lookup_ge_None_2.
Qed.

(** * Single tokens *)
Lemma ident_char_facts c :
  one_of _IDENT_CHARS c = true ->
  one_of (lit "{}[]=,") c = false /\ (c =? c_quote) = false /\
  isspace c = false /\ (c =? c_hash) = false.
Proof.
  intros H.
  assert ((negb (one_of (lit "{}[]=,") c) && negb (c =? c_quote) && negb (isspace c) &&
           negb (c =? c_hash)) = true) as Hf.
  { apply (one_of_Forall _IDENT_CHARS (fun c => negb (one_of (lit "{}[]=,") c) &&
      negb (c =? c_quote) && negb (isspace c) && negb (c =? c_hash))); [done|]. by vm_compute. }
  to_prop. repeat split; try done; by apply Z.eqb_neq.
Qed.

Lemma stops_ident k rest : stops k rest ->
  match k with TIdent _ => True | _ => False end ->
  match rest with [] => True | c :: _ => one_of _IDENT_CHARS c = false end.
Proof. destruct k, rest; cbn; tauto. Qed.

Lemma read_ident_exact p s rest :
  ident_ok s -> stops (TIdent s) rest ->
  _next_token (p ++ s ++ rest) (length p) =
    Ok ({| kind := TIdent s; position := length p |}, length (p ++ s)).
Proof.
  intros [Hs Hd] Hstop. destruct s as [|c s]; [done|]. destruct Hd as [Hd Hm].
  unfold _next_token. cbn [app]. rewrite lookup_mid.
  pose proof Hs as Hs'. cbn [forallb] in Hs'. apply andb_prop in Hs' as [Hc _].
  destruct (ident_char_facts c Hc) as (-> & -> & _ & _). rewrite Hd.
  assert ((c =? c_minus) &&
    match (p ++ c :: s ++ rest) !! (length p + 1)%nat with Some d => isdigit d | None => false end = false) as ->.
  { destruct (c =? c_minus) eqn:E; [|done]. to_prop. specialize (Hm E). cbn [andb].
    destruct s as [|d s]; cbn [app]; [|by rewrite lookup_mid_S].
    destruct rest as [|d rest]; [|rewrite lookup_mid_S; by destruct Hstop].
    by rewrite lookup_ge_None_2 by (rewrite length_app; cbn; lia). }
  rewrite Hc. unfold _read_ident. rewrite app_comm_cons, drop_mid, span_len_app;
    [|done|destruct rest; [done|by destruct Hstop]].
  replace (length p + length (c :: s) - length p)%nat with (length (c :: s)) by lia.
  by rewrite take_app_length, length_app.
Qed.

Lemma string_step_chars text start fuel p s chars rest :
  text = p ++ flat_map escape s ++ c_quote :: rest ->
  (length (flat_map escape s) < fuel)%nat ->
  while fuel (string_step text start) (length p, chars) =
    Ok ({| kind := TString (chars ++ s); position := start |},
        (length (p ++ flat_map escape s) + 1)%nat).
Proof.
  revert fuel p chars. induction s as [|c s IH]; intros fuel p chars Heq Hf;
    (destruct fuel as [|fuel]; [lia|]); rewrite while_unfold; unfold string_step at 1.
  - cbn in Heq. rewrite (lookup_at _ _ _ _ Heq). change (c_quote =? c_backslash) with false.
    rewrite Z.eqb_refl. cbv iota. by rewrite !app_nil_r.
  - cbn [flat_map] in *.
    destruct ((c =? c_quote) || (c =? c_backslash)) eqn:E.
    + assert (escape c = [c_backslash; c]) as He by (unfold escape; by rewrite E).
      rewrite He in *. cbn [app] in Heq. rewrite (lookup_at _ _ _ _ Heq), Z.eqb_refl.
      rewrite (lookup_at_S _ _ _ _ _ Heq). cbn in Hf.
      replace (length p + 2)%nat with (length (p ++ [c_backslash; c])) by (rewrite length_app; cbn; lia).
      rewrite (IH fuel); [|by rewrite <- app_assoc|lia].
      by rewrite <- !app_assoc.
    + assert (escape c = [c]) as He by (unfold escape; by rewrite E).
      rewrite He in *. apply orb_false_elim in E as [E1 E2]. cbn [app] in Heq.
      rewrite (lookup_at _ _ _ _ Heq), E1, E2. cbn in Hf.
      replace (length p + 1)%nat with (length (p ++ [c])) by (rewrite length_app; cbn; lia).
      rewrite (IH fuel); [|by rewrite <- app_assoc|lia].
      by rewrite <- !app_assoc.
Qed.

Lemma read_string_exact p s rest :
  _next_token (p ++ render (TString s) ++ rest) (length p) =
    Ok ({| kind := TString s; position := length p |}, length (p ++ render (TString s))).
Proof.
  unfold _next_token. cbn [render app]. rewrite lookup_mid.
  change (one_of (lit "{}[]=,") c_quote) with false. rewrite Z.eqb_refl. cbv iota.
  unfold _read_string.
  replace (length p + 1)%nat with (length (p ++ [c_quote])) by (rewrite length_app; cbn; lia).
  rewrite (string_step_chars _ _ _ _ s [] rest).
  - cbn [app]. repeat f_equal. rewrite !length_app. cbn. rewrite !length_app. cbn. lia.
  - by rewrite <- !app_assoc.
  - rewrite !length_app. cbn. rewrite !length_app. lia.
Qed.

Lemma dig_map_isdigit ds : Forall is_dig ds -> forallb isdigit (map (Z.add 48) ds) = true.
Proof. induction 1; [done|]. cbn [map forallb]. by rewrite isdigit_ascii. Qed.

Lemma read_integer_exact p n rest :
  int_ok n -> stops (TInt n) rest ->
  _next_token (p ++ str_of_Z n ++ rest) (length p) =
    Ok ({| kind := TInt n; position := length p |}, length (p ++ str_of_Z n)).
Proof.
  intros Hn Hstop. pose proof (py_int_str_of_Z n Hn) as Hint.
  rewrite str_of_Z_eq in *.
  destruct (unsigned_str_spec (Z.abs n)) as (ds & Heq & Hds & _ & Hne & _); [lia|].
  rewrite Heq in *. destruct ds as [|d ds]; [done|].
  assert (match rest with [] => True | c :: _ => isdigit c = false end) as Hr
    by (destruct rest; [done|by destruct Hstop]).
  pose proof (dig_map_isdigit _ Hds) as Hdig.
  assert (is_dig d) as Hd by by inversion Hds.
  assert (isdigit (48 + d) = true) as Hd1 by by apply isdigit_ascii.
  assert (one_of (lit "{}[]=,") (48 + d) = false /\ (48 + d =? c_quote) = false /\ (48 + d =? c_minus) = false) as (Hp1 & Hp2 & Hp3).
  { unfold is_dig in Hd. change c_quote with 34. change c_minus with 45.
    repeat split; [|lia..].
    apply not_true_iff_false. intros Ho. 
    apply (one_of_Forall _ (fun c => (c <? 48) || (57 <? c))) in Ho; [|done]. lia. }
  set (sgn := if n <? 0 then [45] else []) in *.
  set (body := map (Z.add 48) (d :: ds)) in *.
  assert (_next_token (p ++ (sgn ++ body) ++ rest) (length p) =
          _read_integer (p ++ (sgn ++ body) ++ rest) (length p)) as ->.
  { unfold _next_token. subst sgn body. destruct (n <? 0); cbn [app map].
    - rewrite lookup_mid, lookup_mid_S, Hd1. by change (one_of (lit "{}[]=,") 45) with false.
    - by rewrite lookup_mid, Hp1, Hp2, Hd1. }
  unfold _read_integer.
  assert (match (p ++ (sgn ++ body) ++ rest) !! length p with
          | Some ch => if ch =? c_minus then 1%nat else 0%nat | None => 0%nat end = length sgn) as ->.
  { subst sgn body. destruct (n <? 0); cbn [app map]; rewrite lookup_mid; [done|]. by rewrite Hp3. }
  replace (length p + length sgn)%nat with (length (p ++ sgn)) by apply length_app.
  rewrite <- (app_assoc sgn), (app_assoc p sgn), drop_mid, span_len_app by done.
  rewrite length_app. cbv zeta.
  replace (length p + length sgn + length body - length p)%nat with (length (sgn ++ body)) by (rewrite length_app; lia).
  rewrite <- !app_assoc, drop_mid, app_assoc, take_app_length.
  rewrite bool_decide_eq_false_2 by (subst body; by destruct sgn).
  rewrite bool_decide_eq_false_2.
  2:{ subst sgn body. destruct (n <? 0); cbn; [done|]. intros [= Hx _]. change c_minus with 45 in Hx. unfold is_dig in Hd. lia. }
  rewrite Hint. cbn [of_option mbind result_bind]. repeat f_equal. rewrite !length_app. lia.
Qed.

Lemma next_token_exact p k rest :
  kind_ok k -> stops k rest ->
  _next_token (p ++ render k ++ rest) (length p) =
    Ok ({| kind := k; position := length p |}, length (p ++ render k)).
Proof.
  destruct k as [s|n|s|c]; cbn [kind_ok]; intros Hk Hstop.
  - by apply read_ident_exact.
  - by apply read_integer_exact.
  - apply read_string_exact.
  - unfold _next_token. cbn [render app]. by rewrite lookup_mid, Hk, length_app.
Qed.

(** The first character of a token is not skipped. *)
Lemma render_stops_skip k rest : kind_ok k -> stops_skip (render k ++ rest).
Proof.
  destruct k as [s|n|s|c]; cbn [kind_ok render].
  - intros [Hs Hd]. destruct s as [|c s]; [done|]. cbn in *.
    apply andb_prop in Hs as [Hc _]. by apply ident_char_facts in Hc as (_ & _ & ? & ?).
  - intros Hn. rewrite str_of_Z_eq.
    destruct (unsigned_str_spec (Z.abs n)) as (ds & -> & Hds & _ & Hne & _); [lia|].
    destruct (n <? 0); [done|]. destruct ds as [|d ds]; [done|]. cbn [app map stops_skip].
    assert (is_dig d) as Hd by by inversion Hds.
    split; [by apply decimal_not_space|]. change c_hash with 35. unfold is_dig in Hd. lia.
  - done.
  - intros Hc. cbn. 
    assert ((negb (isspace c) && negb (c =? c_hash)) = true) as Hf
      by (eapply (one_of_Forall (lit "{}[]=,") (fun c => negb (isspace c) && negb (c =? c_hash))); done).
    to_prop. split; [done|by apply Z.eqb_neq].
Qed.

Theorem tokens_spelled text ks :
  spells ks text -> exists ts, tokens text = Ok ts /\ map kind ts = ks.
Proof.
  intros Hsp. unfold tokens.
  enough (forall p s res fuel, spells ks s -> text = p ++ s -> (length s < fuel)%nat ->
    exists ts, while fuel (tokens_step text) (length p, res) = Ok (res ++ ts) /\ map kind ts = ks) as Hgen.
  { apply (Hgen [] text [] (S (length text))); [done..|lia]. }
  clear Hsp. intros p s res fuel Hsp. revert p res fuel.
  induction Hsp as [s Hs|pre k ks rest Hpre Hk Hstop Hsp IH]; intros p res fuel Heq Hf;
    (destruct fuel as [|fuel]; [lia|]); rewrite while_unfold; unfold tokens_step at 1.
  - assert (_skip_insignificant text (length p) = Ok (length text)) as ->
      by (rewrite Heq; by apply skip_trailing).
    cbn [mbind result_bind]. rewrite (proj2 (Nat.leb_le _ _)) by done.
    exists []. by rewrite app_nil_r.
  - assert (_skip_insignificant text (length p) = Ok (length (p ++ pre))) as ->.
    { rewrite Heq. apply skip_exact; [done|by apply render_stops_skip]. }
    cbn [mbind result_bind].
    assert (render k <> []) as Hne.
    { destruct k as [s|n|s|c]; cbn in *; try done; [by destruct s; [destruct Hk|]|].
      rewrite str_of_Z_eq. destruct (unsigned_str_spec (Z.abs n)) as (ds & -> & _ & _ & Hne & _); [lia|].
      destruct (n <? 0); [done|]. by destruct ds. }
    rewrite (proj2 (Nat.leb_gt _ _)).
    2:{ rewrite Heq, !length_app. destruct (render k); [done|]. cbn. lia. }
    assert (text = (p ++ pre) ++ render k ++ rest) as Heq' by by rewrite Heq, <- app_assoc.
    assert (_next_token text (length (p ++ pre)) =
      Ok ({| kind := k; position := length (p ++ pre) |}, length ((p ++ pre) ++ render k))) as ->
      by (rewrite Heq'; by apply next_token_exact).
    cbn [mbind result_bind].
    destruct (IH ((p ++ pre) ++ render k) (res ++ [{| kind := k; position := length (p ++ pre) |}]) fuel)
      as (ts & Hts & Hks).
    { by rewrite Heq', !app_assoc. }
    { rewrite !length_app in Hf. destruct (render k); [done|]. cbn in Hf. lia. }
    rewrite Hts. eexists. split; [by rewrite <- app_assoc|]. cbn. by rewrite Hks.
Qed.

(** * The parser on the tokens of a document *)
Section value_ind.
Variable P : ConfigValue -> Prop.
Hypothesis P_int : forall n, P (CInt n).
Hypothesis P_str : forall s, P (CStr s).
Hypothesis P_arr : forall items, P (CArr items).
Hypothesis P_sec : forall body, Forall (fun nv => P (snd nv)) body -> P (CSec body).

(** Induction on a tree whose sections are lists of entries. *)
Fixpoint ConfigValue_induction (v : ConfigValue) : P v :=
  match v with
  | CInt n => P_int n
  | CStr s => P_str s
  | CArr items => P_arr items
  | CSec body =>
      P_sec body
        ((fix go (l : ConfigSection) : Forall (fun nv => P (snd nv)) l :=
            match l with
            | [] => List.Forall_nil _
            | nv :: l' => List.Forall_cons _ _ _ (ConfigValue_induction (snd nv)) (go l')
            end) body)
  end.
End value_ind.

Lemma stmt_kinds_sec name body :
  stmt_kinds name (CSec body) =
  TIdent name :: TPunct c_lbrace :: doc_kinds body ++ [TPunct c_rbrace].
Proof.
  cbn [stmt_kinds]. do 2 f_equal. induction body as [|[n v] body IH]; [done|].
  unfold doc_kinds in *. cbn [flat_map]. by rewrite IH, <- app_assoc.
Qed.

Lemma value_ok_sec body :
  value_ok (CSec body) <-> NoDup (map fst body) /\ Forall (fun nv => value_ok (snd nv)) body.
Proof.
  cbn [value_ok]. apply and_iff_compat_l. induction body as [|[n v] body IH].
  - split; [constructor|done].
  - rewrite Forall_cons, IH. done.
Qed.

Lemma is_punct_kind c t k : kind t = k ->
  is_punct c t = match k with TPunct c' => c' =? c | _ => false end.
Proof. by intros <-. Qed.

(** Split the tokens whose kinds are known. *)
Ltac kinds_inv :=
  repeat match goal with
  | H : map kind ?ts = _ :: _ |- _ => destruct ts; [discriminate H|]; cbn [map] in H; injection H as ? H
  | H : map kind ?ts = [] |- _ => destruct ts; [|discriminate H]; clear H
  | H : map kind ?ts = _ ++ _ |- _ =>
      let l1 := fresh "ts" in let l2 := fresh "ts" in
      let H1 := fresh "H" in let H2 := fresh "H" in
      apply map_eq_app in H as (l1 & l2 & -> & H1 & H2)
  end.

Lemma parse_items_exact items fuel acc ts rest :
  items <> [] -> map kind ts = items_kinds items -> (length ts < fuel)%nat ->
  _parse_items fuel acc (ts ++ rest) = Ok (acc ++ items, rest).
Proof.
  revert fuel acc ts. induction items as [|x items IH]; intros fuel acc ts Hne Hts Hf; [done|].
  destruct fuel as [|fuel]; [lia|]. destruct items as [|y items].
  - cbn [items_kinds] in Hts. kinds_inv. cbn. destruct x; cbn in H; rewrite H; cbn;
      by rewrite (is_punct_kind _ _ _ H0).
  - cbn [items_kinds] in Hts. kinds_inv. cbn in Hf.
    cbn [_parse_items app _advance mbind result_bind].
    assert (forall A (f : scalar -> result lvm_exn A),
      (let! item := match kind _t with TInt n => Ok (SInt n) | TString s => Ok (SStr s) | _ => Malformed end
       in f item) = f x) as Hk.
    { intros A f. by destruct x; cbn in H; rewrite H. }
    rewrite Hk. cbn [mbind result_bind].
    rewrite !(is_punct_kind _ _ _ H0). change (c_comma =? c_rbracket) with false.
    rewrite Z.eqb_refl. rewrite IH; [by rewrite <- app_assoc|done|done|lia].
Qed.

Definition stmt_parses (v : ConfigValue) : Prop :=
  forall name ts rest section fuel,
    map kind ts = stmt_kinds name v -> value_ok v -> name ∉ map fst section ->
    (length ts < fuel)%nat ->
    exists fuel', (fuel <= fuel' + length ts)%nat /\
      _parse_statements fuel section (ts ++ rest) =
      _parse_statements fuel' (section ++ [(name, v)]) rest.

(** The statements of a section, up to its closing brace or the end. *)
Lemma doc_parses body ts rest section fuel :
  Forall (fun nv => stmt_parses (snd nv)) body -> Forall (fun nv => value_ok (snd nv)) body ->
  NoDup (map fst section ++ map fst body) ->
  map kind ts = doc_kinds body ->
  match rest with [] => True | t :: _ => is_punct c_rbrace t = true end ->
  (length ts < fuel)%nat ->
  _parse_statements fuel section (ts ++ rest) = Ok (section ++ body, rest).
Proof.
  intros Hp. revert ts section fuel. induction Hp as [|[n v] body Hv Hp IH];
    intros ts section fuel Hok Hnd Hts Hrest Hf.
  - cbn in Hts. kinds_inv. destruct fuel as [|fuel]; [lia|]. cbn. rewrite app_nil_r.
    destruct rest as [|t rest]; [done|]. by rewrite Hrest.
  - apply Forall_cons in Hok as [Hv' Hok]. unfold doc_kinds in Hts. cbn [flat_map] in Hts.
    kinds_inv. rewrite length_app in Hf. cbn in Hnd.
    destruct (Hv n ts0 (ts1 ++ rest) section fuel) as (fuel' & Hf' & Heq); [done|done| |lia|].
    { apply NoDup_app in Hnd as (_ & Hnd & _). intros Hin. apply (Hnd _ Hin). by left. }
    rewrite <- app_assoc, Heq, IH; [by rewrite <- app_assoc|done| |done|done|lia].
    rewrite map_app, <- app_assoc. done.
Qed.

Lemma all_stmts_parse v : stmt_parses v.
Proof.
  induction v as [n|s|items|body IH] using ConfigValue_induction;
    intros name ts rest section fuel Hts Hok Hfresh Hf.
  1-3: cbn [stmt_kinds] in Hts; kinds_inv; destruct fuel as [|fuel]; [lia|];
    exists fuel; cbn in Hf; (split; [cbn; lia|]); cbn [_parse_statements app];
    rewrite (is_punct_kind _ _ _ H); unfold _expect_ident; cbn [_advance mbind result_bind];
    rewrite H; cbn [mbind result_bind];
    rewrite (is_punct_kind _ _ _ H0), Z.eqb_refl;
    unfold _parse_value; cbn [_advance mbind result_bind]; rewrite H1;
    cbn [mbind result_bind]; try by rewrite Dict.set_fresh.
  - rewrite Z.eqb_refl. unfold _parse_array.
    destruct items as [|x items].
    + cbn [items_kinds] in Hts. kinds_inv. cbn [app].
      rewrite (is_punct_kind _ _ _ H2), Z.eqb_refl. cbn [mbind result_bind].
      by rewrite Dict.set_fresh.
    + assert (exists t ts', ts = t :: ts' /\ kind t = scalar_kind x) as (t & ts' & -> & Ht).
      { destruct items; cbn [items_kinds] in Hts; destruct ts as [|t ts']; try discriminate Hts;
          cbn [map] in Hts; injection Hts as Ht _; eauto. }
      cbn [app]. rewrite (is_punct_kind _ _ _ Ht).
      replace (match scalar_kind x with TPunct c' => c' =? c_rbracket | _ => false end)
        with false by by destruct x.
      rewrite app_comm_cons, (parse_items_exact (x :: items)); [|done|done|rewrite length_app; lia].
      cbn [mbind result_bind app]. by rewrite Dict.set_fresh.
  - rewrite stmt_kinds_sec in Hts. kinds_inv.
    apply value_ok_sec in Hok as [Hnd Hok].
    destruct fuel as [|fuel]; [lia|]. exists fuel. cbn [length] in Hf. rewrite length_app in Hf.
    cbn in Hf. split; [cbn [length]; rewrite length_app; cbn; lia|].
    cbn [_parse_statements app]. rewrite (is_punct_kind _ _ _ H).
    unfold _expect_ident. cbn [_advance mbind result_bind]. rewrite H. cbn [mbind result_bind].
    rewrite !(is_punct_kind _ _ _ H0). change (c_lbrace =? c_equal) with false.
    rewrite Z.eqb_refl, <- app_assoc.
    rewrite (doc_parses body ts0 _ [] fuel); [|done|done|done|done| |lia].
    2:{ cbn [app]. by rewrite (is_punct_kind _ _ _ H3). }
    cbn [mbind result_bind app]. unfold _expect_punct. cbn [_advance mbind result_bind].
    rewrite H3, Z.eqb_refl. cbn [mbind result_bind]. by rewrite Dict.set_fresh.
Qed.

Lemma parse_document_exact d ts :
  doc_ok d -> map kind ts = doc_kinds d -> parse_document ts = Ok d.
Proof.
  intros [Hnd Hok]%value_ok_sec Hts. unfold parse_document.
  rewrite <- (app_nil_r ts) at 2.
  rewrite (doc_parses d ts [] [] (S (length ts))); [done| |done|done|done|done|lia].
  apply Forall_forall. intros nv _. apply all_stmts_parse.
Qed.

Lemma parse_config_text_spelled d text :
  doc_ok d -> spells (doc_kinds d) text -> parse_config_text text = Ok d.
Proof.
  intros Hd Hsp. destruct (tokens_spelled _ _ Hsp) as (ts & Hts & Hks).
  unfold parse_config_text. rewrite Hts. cbn [mbind result_bind].
  by apply parse_document_exact.
Qed.

Lemma parse_config_text_outcome text : outcome (fun _ => True) text_error (parse_config_text text).
Proof.
  unfold parse_config_text. apply outcome_bind.
  eapply outcome_mono; [| |apply tokens_outcome]; [|done]. intros ts _. apply parse_document_outcome.
Qed.

(** One spelling: every token followed by a space. *)
Definition print_kinds (ks : list token_kind) : str := flat_map (fun k => render k ++ [32]) ks.

Lemma spells_space ks s : spells ks s -> spells ks (32 :: s).
Proof.
  intros H. destruct H as [s [H|(a & body & -> & H & Hb)]|pre k ks rest H].
  - constructor. left. by apply ins_space.
  - constructor. right. exists (32 :: a), body. split; [done|]. split; [by apply ins_space|done].
  - apply (spells_cons (32 :: pre)); [by apply ins_space|done..].
Qed.

Lemma print_kinds_spells ks : Forall kind_ok ks -> spells ks (print_kinds ks).
Proof.
  induction 1 as [|k ks Hk Hks IH]; [constructor; left; constructor|].
  cbn [print_kinds flat_map]. rewrite <- app_assoc.
  apply (spells_cons [] k ks ([32] ++ print_kinds ks)); [constructor|done| |by apply spells_space].
  by destruct k.
Qed.

#[export] Instance ident_ok_dec s : Decision (ident_ok s).
Proof.
  unfold ident_ok. apply and_dec; [apply _|]. destruct s as [|c [|d s]]; [right; tauto|apply _..].
Defined.
(** A quick sufficient test: integers of at most 18 digits. *)
Definition kind_okb (k : token_kind) : bool :=
  match k with
  | TIdent s => bool_decide (ident_ok s)
  | TInt n => Z.abs n <? 10 ^ 18
  | TString _ => true
  | TPunct c => one_of (lit "{}[]=,") c
  end.

Lemma kind_okb_ok ks : forallb kind_okb ks = true -> Forall kind_ok ks.
Proof.
  intros H. apply Forall_forall. intros k Hk%list_elem_of_In.
  pose proof (proj1 (forallb_forall _ _) H k Hk) as Hb. destruct k; cbn in *; try done; to_prop; [done|].
  unfold int_ok. eapply Z.lt_le_trans; [exact Hb|].
  apply Z.pow_le_mono_r; [lia|]. unfold int_max_str_digits. lia.
Qed.

(** * Properties *)

(** C35. Round trip: whatever whitespace and comments a well-formed document is
    laid out with, [parse_config_text] returns exactly that document: its
    names, integers, escaped strings, arrays and nested sections, in order. *)
Theorem parse_config_text_roundtrip d text :
  doc_ok d -> spells (doc_kinds d) text -> parse_config_text text = Ok d.
Proof. apply parse_config_text_spelled. Qed.

Definition sample_doc : ConfigSection :=
  [(lit "vg-0", CSec [(lit "id", CStr (lit "a" ++ [34; 92])); (lit "n", CInt (-7));
                      (lit "flags", CArr [SStr (lit "RW"); SInt 2])])].
Definition sample_text : str :=
  lit "# metadata" ++ [10] ++ lit "vg-0 {" ++ [10] ++ lit "id=" ++ [34] ++ lit "a" ++
  [92; 34; 92; 92; 34] ++ lit " n = -7 # seven" ++ [10] ++ lit "flags = [" ++ [34] ++
  lit "RW" ++ [34] ++ lit ", 2 ] } # end".

Lemma int_ok_small n : Z.abs n <= 9 -> int_ok n.
Proof.
  intros. unfold int_ok. eapply Z.le_lt_trans; [exact H|].
  apply (Z.lt_le_trans _ (10 ^ 1)); [lia|]. apply Z.pow_le_mono_r; [lia|].
  unfold int_max_str_digits. lia.
Qed.

Lemma spells_step pre k ks rest s :
  insignificant pre -> kind_ok k -> stops k rest -> s = pre ++ render k ++ rest ->
  spells ks rest -> spells (k :: ks) s.
Proof. intros ? ? ? -> ?. by constructor. Qed.

Lemma insignificant_spaces s : forallb isspace s = true -> insignificant s.
Proof.
  induction s; cbn; [constructor|]. intros [? ?]%andb_prop. constructor; auto.
Qed.

Lemma sample_spells : spells (doc_kinds sample_doc) sample_text.
Proof.
  apply (spells_step (lit "# metadata" ++ [10]) _ _ (drop 15 sample_text));
    [by apply (ins_comment (lit " metadata") []); [|constructor]|by vm_compute|by vm_compute|reflexivity|].
  apply (spells_step [32] _ _ (drop 17 sample_text)); [by apply insignificant_spaces|done|done|reflexivity|].
  apply (spells_step [10] _ _ (drop 20 sample_text)); [by apply insignificant_spaces|by vm_compute|by vm_compute|reflexivity|].
  apply (spells_step [] _ _ (drop 21 sample_text)); [constructor|done|done|reflexivity|].
  apply (spells_step [] _ _ (drop 28 sample_text)); [constructor|done|done|reflexivity|].
  apply (spells_step [32] _ _ (drop 30 sample_text)); [by apply insignificant_spaces|by vm_compute|by vm_compute|reflexivity|].
  apply (spells_step [32] _ _ (drop 32 sample_text)); [by apply insignificant_spaces|done|done|reflexivity|].
  apply (spells_step [32] _ _ (drop 35 sample_text)); [by apply insignificant_spaces|by apply int_ok_small|by vm_compute|reflexivity|].
  apply (spells_step (lit " # seven" ++ [10]) _ _ (drop 49 sample_text));
    [apply ins_space; [done|]; by apply (ins_comment (lit " seven") []); [|constructor]|by vm_compute|by vm_compute|reflexivity|].
  apply (spells_step [32] _ _ (drop 51 sample_text)); [by apply insignificant_spaces|done|done|reflexivity|].
  apply (spells_step [32] _ _ (drop 53 sample_text)); [by apply insignificant_spaces|done|done|reflexivity|].
  apply (spells_step [] _ _ (drop 57 sample_text)); [constructor|done|done|reflexivity|].
  apply (spells_step [] _ _ (drop 58 sample_text)); [constructor|done|done|reflexivity|].
  apply (spells_step [32] _ _ (drop 60 sample_text)); [by apply insignificant_spaces|by apply int_ok_small|by vm_compute|reflexivity|].
  apply (spells_step [32] _ _ (drop 62 sample_text)); [by apply insignificant_spaces|done|done|reflexivity|].
  apply (spells_step [32] _ _ (drop 64 sample_text)); [by apply insignificant_spaces|done|done|reflexivity|].
  constructor. right. exists [32], (lit " end"). repeat split. by apply insignificant_spaces.
Qed.

Lemma parse_config_text_roundtrip_witness : parse_config_text sample_text = Ok sample_doc.
Proof.
  apply (parse_config_text_roundtrip sample_doc sample_text); [|exact sample_spells].
  repeat split; apply (bool_decide_unpack _); vm_compute; exact I.
Defined.

(** The parser terminates on every text, and the only exceptions it lets
    out are [MalformedMetadataTextError] and the [ValueError] of [int()]; the
    tokens it works on are in strictly increasing positions of the text. *)
Lemma parse_config_text_total text :
  outcome (fun _ => True) text_error (parse_config_text text) /\
  outcome (positions_ok (length text)) text_error (tokens text).
Proof. split; [apply parse_config_text_outcome|apply tokens_outcome]. Qed.

(** An error outside the documented hierarchy escapes: a digit that
    [str.isdigit] accepts and [int()] refuses, here a superscript two, makes
    the parser raise a bare [ValueError]. *)
Lemma parse_config_text_superscript :
  parse_config_text (lit "a = " ++ [178]) = Raise (LvmPy ValueError) /\
  is_LVMMetadataError (LvmPy ValueError) = false.
Proof. by vm_compute. Qed.

End LvmTextRound.
