(* ===== verification/LvmBinary.v ===== *)
(** disk_images/lvm/binary.py: the label, physical volume and metadata area
    headers, LVM2's checksum, and what they guarantee. *)
From S2P Require Import Prelude PyBase LvmModels.
Import Str Bytes LvmModels.

Module LvmBinary.

Definition SECTOR_SIZE : Z := 512.
Definition _LABEL_SIGNATURE := lit "LABELONE".
Definition _LABEL_TYPE := lit "LVM2 001".
Definition _LABEL_STRUCT_size : Z := 32.
Definition LABEL_SCAN_SECTORS : nat := 4.
Definition _DISK_LOCN_SIZE : Z := 16.
Definition MDA_HEADER_SIZE : Z := 512.
Definition _MDA_MAGIC := lit " LVM2 x[5A%r0N*>".
Definition _MDA_HEADER_FIXED_size : Z := 40.
Definition _MDA_SUPPORTED_VERSION : Z := 1.
Definition _RAW_LOCN_SIZE : Z := 24.
Definition _RAW_LOCN_IGNORED : Z := 1.

(** [zlib.crc32(data, value)]: the reflected CRC-32 of polynomial 0xEDB88320,
    complemented before and after. *)
Definition crc_poly : Z := 0xEDB88320.
Definition crc_bit (x : Z) : Z :=
  if Z.odd x then Z.lxor (Z.shiftr x 1) crc_poly else Z.shiftr x 1.
Definition crc_byte (c b : Z) : Z := Nat.iter 8 crc_bit (Z.lxor c b).
Definition raw_algorithm (data : list Z) (seed : Z) : Z := fold_left crc_byte data seed.
Definition zlib_crc32 (data : list Z) (value : Z) : Z :=
  Z.lxor (raw_algorithm data (Z.lxor value 0xFFFFFFFF)) 0xFFFFFFFF.

Definition _LVM_CRC_SEED : Z := Z.lxor 0xF597A6CF 0xFFFFFFFF.

Definition lvm_weak_crc32 (data : list Z) : Z :=
  Z.lxor (zlib_crc32 data _LVM_CRC_SEED) 0xFFFFFFFF.

Definition Invalid {A} : result lvm_exn A := Raise (LVM InvalidLabelError).
Definition Malformed {A} : result lvm_exn A := Raise (LVM MalformedMetadataTextError).
(** A [struct] field; the guards make it present. *)
Definition field (n : nat) (d : list Z) (off : Z) : result lvm_exn Z :=
  of_option (LvmPy StructError) (u_le n d off).

(** ["-".join(groups)] *)
Fixpoint join (sep : str) (ws : list str) : str :=
  match ws with
  | [] => []
  | [w] => w
  | w :: ws' => w ++ sep ++ join sep ws'
  end.

Definition format_lvm_uuid (raw : list Z) : result lvm_exn str :=
  let! text := of_option (LvmPy UnicodeDecodeError) (decode_ascii raw) in
  let! _ := raise_if (negb (len text =? 32)) (LVM InvalidLabelError) in
  Ok (join (lit "-") [slice 0 6 text; slice 6 10 text; slice 10 14 text; slice 14 18 text;
                      slice 18 22 text; slice 22 26 text; slice 26 32 text]).

Record _DiskLocation := { dl_offset_bytes : Z; dl_size_bytes : Z }.

Record _LabelHeader := { label_sector : Z; pv_header_offset : Z }.

Record _PhysicalVolumeHeader := {
  pv_uuid : str;
  pvh_device_size_bytes : Z;
  data_areas : list _DiskLocation;
  metadata_areas : list _DiskLocation }.

Record _RawLocation := {
  rl_offset_bytes : Z;
  rl_size_bytes : Z;
  checksum : Z;
  ignored : bool }.

Record _MetadataAreaHeader := {
  area_start_bytes : Z;
  area_size_bytes : Z;
  locations : list _RawLocation }.

Definition parse_label_header (sector_bytes : list Z) (sector_number : Z)
    : result lvm_exn _LabelHeader :=
  let! _ := raise_if (len sector_bytes <? _LABEL_STRUCT_size) (LVM InvalidLabelError) in
  let signature := slice 0 8 sector_bytes in
  let! recorded_sector := field 8 sector_bytes 8 in
  let! offset := field 4 sector_bytes 20 in
  let label_type := slice 24 32 sector_bytes in
  let! _ := raise_if (negb (bool_decide (signature = _LABEL_SIGNATURE))) (LVM InvalidLabelError) in
  let! _ := raise_if (negb (bool_decide (label_type = _LABEL_TYPE))) (LVM InvalidLabelError) in
  let! _ := raise_if (negb (recorded_sector =? sector_number)) (LVM InvalidLabelError) in
  Ok {| label_sector := sector_number; pv_header_offset := offset |}.

(** The scan of [parse_label]: [n] sectors left, from [sector_number] on. *)
Fixpoint scan_labels (first_sectors : list Z) (n : nat) (sector_number : Z)
    : result lvm_exn _LabelHeader :=
  match n with
  | O => Invalid
  | S n =>
      let start := sector_number * SECTOR_SIZE in
      let candidate := slice start (start + SECTOR_SIZE) first_sectors in
      if len candidate <? SECTOR_SIZE then Invalid
      else
        match parse_label_header candidate sector_number with
        | Raise (LVM InvalidLabelError) => scan_labels first_sectors n (sector_number + 1)
        | r => r
        end
  end.

Definition parse_label (first_sectors : list Z) : result lvm_exn _LabelHeader :=
  scan_labels first_sectors LABEL_SCAN_SECTORS 0.

(** One turn of the loop of [_parse_disk_locations]. *)
Definition disk_locations_step (data : list Z) (st : list _DiskLocation * Z)
    : result lvm_exn (list _DiskLocation * Z + list _DiskLocation * Z) :=
  let (locs, offset) := st in
  if offset + _DISK_LOCN_SIZE <=? len data then
    let! entry_offset := field 8 data offset in
    let! entry_size := field 8 data (offset + 8) in
    let offset := offset + _DISK_LOCN_SIZE in
    if entry_offset =? 0 then Ok (inr (locs, offset))
    else Ok (inl (locs ++ [{| dl_offset_bytes := entry_offset; dl_size_bytes := entry_size |}], offset))
  else Invalid.

Definition _parse_disk_locations (data : list Z) : result lvm_exn (list _DiskLocation * Z) :=
  while (S (length data)) (disk_locations_step data) ([], 0).

Definition parse_pv_header (header_bytes : list Z) : result lvm_exn _PhysicalVolumeHeader :=
  let prefix_size := 32 + 8 in
  let! _ := raise_if (len header_bytes <? prefix_size + _DISK_LOCN_SIZE) (LVM InvalidLabelError) in
  let raw_uuid := slice 0 32 header_bytes in
  let! device_size := field 8 header_bytes 32 in
  let! uuid := format_lvm_uuid raw_uuid in
  let remainder := drop (Z.to_nat prefix_size) header_bytes in
  let! (das, data_areas_consumed) := _parse_disk_locations remainder in
  let! (mas, _) := _parse_disk_locations (drop (Z.to_nat data_areas_consumed) remainder) in
  let! _ := raise_if (bool_decide (mas = [])) (LVM MalformedMetadataTextError) in
  Ok {| pv_uuid := uuid; pvh_device_size_bytes := device_size;
        data_areas := das; metadata_areas := mas |}.

(** One turn of the loop of [parse_mda_header]. *)
Definition raw_locations_step (mda_bytes : list Z) (st : list _RawLocation * Z)
    : result lvm_exn (list _RawLocation * Z + list _RawLocation) :=
  let (locs, offset) := st in
  if offset + _RAW_LOCN_SIZE <=? Z.min (len mda_bytes) MDA_HEADER_SIZE then
    let! entry_offset := field 8 mda_bytes offset in
    let! entry_size := field 8 mda_bytes (offset + 8) in
    let! entry_checksum := field 4 mda_bytes (offset + 16) in
    let! entry_flags := field 4 mda_bytes (offset + 20) in
    if entry_offset =? 0 then Ok (inr locs)
    else
      Ok (inl (locs ++ [{| rl_offset_bytes := entry_offset; rl_size_bytes := entry_size;
                           checksum := entry_checksum;
                           ignored := negb (Z.land entry_flags _RAW_LOCN_IGNORED =? 0) |}],
               offset + _RAW_LOCN_SIZE))
  else Ok (inr locs).

Definition parse_mda_header (mda_bytes : list Z) : result lvm_exn _MetadataAreaHeader :=
  let! _ := raise_if (len mda_bytes <? MDA_HEADER_SIZE) (LVM MalformedMetadataTextError) in
  let! recorded := field 4 mda_bytes 0 in
  let magic := slice 4 20 mda_bytes in
  let! version := field 4 mda_bytes 20 in
  let! area_start := field 8 mda_bytes 24 in
  let! area_size := field 8 mda_bytes 32 in
  let! _ := raise_if (negb (bool_decide (magic = _MDA_MAGIC))) (LVM UnsupportedMetadataVersionError) in
  let! _ := raise_if (negb (version =? _MDA_SUPPORTED_VERSION)) (LVM UnsupportedMetadataVersionError) in
  let expected_checksum := lvm_weak_crc32 (slice 4 MDA_HEADER_SIZE mda_bytes) in
  let! _ := raise_if (negb (recorded =? expected_checksum)) (LVM MalformedMetadataTextError) in
  let! locs := while (S (length mda_bytes)) (raw_locations_step mda_bytes) ([], _MDA_HEADER_FIXED_size) in
  let! _ := raise_if (bool_decide (locs = [])) (LVM MalformedMetadataTextError) in
  Ok {| area_start_bytes := area_start; area_size_bytes := area_size; locations := locs |}.

Fixpoint select_location (area_size : Z) (locs : list _RawLocation) : result lvm_exn _RawLocation :=
  match locs with
  | [] => Malformed
  | l :: ls =>
      if ignored l then select_location area_size ls
      else
        let! _ := raise_if (area_size <? rl_offset_bytes l + rl_size_bytes l)
                    (LVM UnsupportedMetadataLayoutError) in
        Ok l
  end.

Definition select_active_location (mda_header : _MetadataAreaHeader) : result lvm_exn _RawLocation :=
  select_location (area_size_bytes mda_header) (locations mda_header).

Definition verify_metadata_text_checksum (text_bytes : list Z) (expected_checksum : Z)
    : result lvm_exn unit :=
  raise_if (negb (lvm_weak_crc32 text_bytes =? expected_checksum)) (LVM MalformedMetadataTextError).

#[export] Instance _DiskLocation_eq_dec : EqDecision _DiskLocation.
Proof. solve_decision. Defined.
#[export] Instance _RawLocation_eq_dec : EqDecision _RawLocation.
Proof. solve_decision. Defined.

(** * The checksum *)
Definition word32 (x : Z) : Prop := 0 <= x < 2 ^ 32.

Lemma lvm_crc_raw data : lvm_weak_crc32 data = raw_algorithm data 0xF597A6CF.
Proof.
  unfold lvm_weak_crc32, zlib_crc32, _LVM_CRC_SEED.
  by rewrite !Z.lxor_assoc, !Z.lxor_nilpotent, !Z.lxor_0_r.
Qed.

Lemma lxor_range x y : word32 x -> word32 y -> word32 (Z.lxor x y).
Proof.
  unfold word32. intros Hx Hy. split; [by apply Z.lxor_nonneg; lia|].
  destruct (decide (Z.lxor x y = 0)) as [->|]; [lia|].
  apply Z.log2_lt_pow2; [assert (0 <= Z.lxor x y) by (apply Z.lxor_nonneg; lia); lia|].
  eapply Z.le_lt_trans; [apply Z.log2_lxor; lia|].
  apply Z.max_lub_lt; (destruct (decide (x = 0)) as [->|]; [|]);
    try (destruct (decide (y = 0)) as [->|]; [|]); cbn; try lia; apply Z.log2_lt_pow2; lia.
Qed.

Lemma crc_bit_range x : word32 x -> word32 (crc_bit x).
Proof.
  intros Hx. unfold crc_bit.
  assert (word32 (Z.shiftr x 1)).
  { unfold word32 in *. rewrite Z.shiftr_div_pow2 by lia. change (2 ^ 1) with 2.
    split; [apply Z.div_pos; lia|apply Z.div_lt_upper_bound; lia]. }
  destruct (Z.odd x); [|done]. apply lxor_range; [done|unfold word32, crc_poly; lia].
Qed.

(** The top bit of the result is the bit that was shifted out. *)
Lemma crc_bit_top x : word32 x -> Z.testbit (crc_bit x) 31 = Z.odd x.
Proof.
  intros Hx. unfold crc_bit.
  assert (Z.testbit (Z.shiftr x 1) 31 = false) as Ht.
  { rewrite Z.shiftr_spec by lia. unfold word32 in Hx.
    destruct (decide (x = 0)) as [->|]; [done|].
    apply Z.bits_above_log2; [lia|]. apply Z.log2_lt_pow2; cbn; lia. }
  destruct (Z.odd x); [|done]. by rewrite Z.lxor_spec, Ht.
Qed.

Lemma crc_bit_inj x y : word32 x -> word32 y -> crc_bit x = crc_bit y -> x = y.
Proof.
  intros Hx Hy Heq.
  assert (Z.odd x = Z.odd y) as Hodd by (rewrite <- !crc_bit_top, Heq by done; done).
  assert (Z.shiftr x 1 = Z.shiftr y 1) as Hs.
  { unfold crc_bit in Heq. rewrite Hodd in Heq. destruct (Z.odd y); [|done].
    apply (f_equal (fun z => Z.lxor z crc_poly)) in Heq.
    by rewrite !Z.lxor_assoc, !Z.lxor_nilpotent, !Z.lxor_0_r in Heq. }
  rewrite (Z.div2_odd x), (Z.div2_odd y). rewrite !Z.div2_spec, Hs, Hodd. done.
Qed.

Lemma crc_iter_range n x : word32 x -> word32 (Nat.iter n crc_bit x).
Proof. intros Hx. induction n; [done|]. rewrite Nat.iter_succ. by apply crc_bit_range. Qed.

Lemma crc_iter_inj n x y :
  word32 x -> word32 y -> Nat.iter n crc_bit x = Nat.iter n crc_bit y -> x = y.
Proof.
  intros Hx Hy. induction n as [|n IH]; [done|]. rewrite !Nat.iter_succ.
  intros H%crc_bit_inj; [auto|by apply crc_iter_range..].
Qed.

(** High bits pass through the low-order steps. *)
Lemma crc_bit_shift x y : crc_bit (Z.lxor x (Z.shiftl y 1)) = Z.lxor (crc_bit x) y.
Proof.
  unfold crc_bit.
  assert (Z.odd (Z.lxor x (Z.shiftl y 1)) = Z.odd x) as ->.
  { rewrite <- !Z.bit0_odd, Z.lxor_spec, Z.shiftl_spec_low by lia. by rewrite xorb_false_r. }
  rewrite Z.shiftr_lxor, Z.shiftr_shiftl_l, Z.sub_diag, Z.shiftl_0_r by lia.
  destruct (Z.odd x); [|done].
  by rewrite !Z.lxor_assoc, (Z.lxor_comm y).
Qed.

Lemma crc_iter_shift n x y :
  Nat.iter n crc_bit (Z.lxor x (Z.shiftl y (Z.of_nat n))) = Z.lxor (Nat.iter n crc_bit x) y.
Proof.
  revert x y. induction n as [|n IH]; intros x y.
  - cbn [Nat.iter]. by rewrite Z.shiftl_0_r.
  - replace (Z.of_nat (S n)) with (1 + Z.of_nat n) by lia.
    rewrite <- Z.shiftl_shiftl by lia. rewrite !Nat.iter_succ, IH. apply crc_bit_shift.
Qed.

Lemma iter_add_crc n m x : Nat.iter (n + m) crc_bit x = Nat.iter n crc_bit (Nat.iter m crc_bit x).
Proof. apply Nat.iter_add. Qed.

Lemma byte_lxor_shift b r : is_byte b -> b + 256 * r = Z.lxor b (Z.shiftl r 8).
Proof.
  intros [Hb1 Hb2]. rewrite Z.shiftl_mul_pow2 by lia. change (2 ^ 8) with 256.
  rewrite Z.mul_comm. apply Z.add_nocarry_lxor.
  apply Z.bits_inj. intros i. rewrite Z.land_spec, Z.bits_0.
  destruct (decide (i < 0)); [by rewrite Z.testbit_neg_r by lia|].
  destruct (decide (i < 8)).
  - replace (r * 256) with (r * 2 ^ 8) by lia. by rewrite Z.mul_pow2_bits_low, andb_false_r by lia.
  - destruct (decide (b = 0)) as [->|]; [by rewrite Z.bits_0|].
    rewrite Z.bits_above_log2; [done|lia|].
    apply Z.lt_le_trans with 8; [|lia]. apply Z.log2_lt_pow2; cbn; lia.
Qed.

(** Feeding bytes one by one is one pass over their little-endian value. *)
Lemma raw_algorithm_word w c :
  wf w -> raw_algorithm w c = Nat.iter (8 * length w) crc_bit (Z.lxor c (le_val w)).
Proof.
  intros Hw. revert c. induction Hw as [|b w Hb Hw IH]; intros c.
  - cbn. by rewrite Z.lxor_0_r.
  - unfold raw_algorithm in *. cbn [fold_left length le_val]. rewrite IH. unfold crc_byte.
    rewrite byte_lxor_shift, <- Z.lxor_assoc by done.
    replace (8 * S (length w))%nat with (8 * length w + 8)%nat by lia.
    rewrite iter_add_crc. f_equal. change 8 with (Z.of_nat 8). by rewrite crc_iter_shift.
Qed.

Lemma raw_algorithm_app a b c : raw_algorithm (a ++ b) c = raw_algorithm b (raw_algorithm a c).
Proof. apply fold_left_app. Qed.

Lemma le_val_word32 w : wf w -> (length w <= 4)%nat -> word32 (le_val w).
Proof.
  intros Hw Hl. pose proof (le_val_bound w Hw) as [? ?]. unfold word32. split; [done|].
  eapply Z.lt_le_trans; [done|]. change (2 ^ 32) with (256 ^ 4).
  apply Z.pow_le_mono_r; unfold len; lia.
Qed.

Lemma byte_word32 b : is_byte b -> word32 b.
Proof. unfold is_byte, word32. lia. Qed.

Lemma crc_byte_range c b : word32 c -> is_byte b -> word32 (crc_byte c b).
Proof. intros. by apply crc_iter_range, lxor_range, byte_word32. Qed.

Lemma raw_algorithm_range data c : wf data -> word32 c -> word32 (raw_algorithm data c).
Proof.
  intros Hd. revert c. induction Hd as [|b d Hb Hd IH]; intros c Hc; [done|].
  cbn. by apply IH, crc_byte_range.
Qed.

Lemma lxor_cancel_l c x y : Z.lxor c x = Z.lxor c y -> x = y.
Proof.
  intros H. apply (f_equal (Z.lxor c)) in H.
  by rewrite <- !Z.lxor_assoc, Z.lxor_nilpotent, !Z.lxor_0_l in H.
Qed.

(** Different states stay different whatever is read next. *)
Lemma raw_algorithm_inj data c c' :
  wf data -> word32 c -> word32 c' ->
  raw_algorithm data c = raw_algorithm data c' -> c = c'.
Proof.
  intros Hd. revert c c'. induction Hd as [|b d Hb Hd IH]; intros c c' Hc Hc'; [done|].
  change (raw_algorithm d (crc_byte c b) = raw_algorithm d (crc_byte c' b) -> c = c').
  intros H%IH; [|by apply crc_byte_range..].
  apply (crc_iter_inj 8) in H; [|by apply lxor_range, byte_word32..].
  rewrite !(Z.lxor_comm _ b) in H. by apply lxor_cancel_l in H.
Qed.

Lemma le_val_inj w w' : wf w -> wf w' -> length w = length w' -> le_val w = le_val w' -> w = w'.
Proof.
  unfold wf, is_byte. intros Hw. revert w'. induction Hw as [|b w Hb Hw IH]; intros [|b' w'] Hw' Hl Hv;
    try discriminate Hl; [done|].
  inversion_clear Hw'. cbn in Hv. assert (b = b') as -> by lia. f_equal. apply IH; [done|by injection Hl|lia].
Qed.

Lemma raw_algorithm_burst p w w' s c :
  word32 c -> wf p -> wf w -> wf w' -> wf s -> length w = length w' -> (length w <= 4)%nat ->
  raw_algorithm (p ++ w ++ s) c = raw_algorithm (p ++ w' ++ s) c -> w = w'.
Proof.
  intros Hc Hp Hw Hw' Hs Hl H4. rewrite !raw_algorithm_app.
  set (c1 := raw_algorithm p c). assert (word32 c1) by by apply raw_algorithm_range.
  intros Heq%raw_algorithm_inj; [|done|by apply raw_algorithm_range..].
  rewrite !raw_algorithm_word, <- Hl in Heq by done.
  apply crc_iter_inj in Heq.
  - apply lxor_cancel_l in Heq. by apply le_val_inj.
  - by apply lxor_range, le_val_word32.
  - apply lxor_range, le_val_word32; [done..|]. by rewrite <- Hl.
Qed.

(** * Loops over the descriptor lists *)
Definition invalid_label (e : lvm_exn) : Prop := e = LVM InvalidLabelError.

Lemma field_Some n d off :
  0 <= off -> off + Z.of_nat n <= len d -> exists v, field n d off = Ok v.
Proof. intros H1 H2. unfold field. destruct (u_le_Some n d off H1 H2) as [v ->]. by exists v. Qed.

Ltac take_field :=
  match goal with
  | |- context [field ?n ?d ?off] =>
      let v := fresh "v" in let E := fresh "E" in
      destruct (field_Some n d off) as [v E]; [lia|lia|rewrite E; cbn [mbind result_bind]]
  end.

(** The list is read to its terminator or refused: at most one turn per
    descriptor, and never past the end of the buffer. *)
Lemma parse_disk_locations_outcome data :
  outcome (fun '(locs, used) => 0 < used <= len data /\ used = 16 * (len locs + 1)) invalid_label
    (_parse_disk_locations data).
Proof.
  unfold _parse_disk_locations.
  apply (while_total (fun '(locs, off) => 0 <= off <= len data /\ off = 16 * len locs)
    (fun '(_, off) => Z.to_nat (len data - off))); [|unfold len; cbn; lia|unfold len; lia].
  intros [locs off] [Hoff Hl]. unfold disk_locations_step, _DISK_LOCN_SIZE.
  case_match eqn:E; to_prop; [|done].
  do 2 take_field. case_match; cbn; [lia|]. unfold len in *. rewrite length_app. cbn. lia.
Qed.

Lemma raw_locations_outcome mda :
  outcome (fun _ => True) (fun _ => False)
    (while (S (length mda)) (raw_locations_step mda) ([], _MDA_HEADER_FIXED_size)).
Proof.
  unfold _MDA_HEADER_FIXED_size.
  apply (while_total (fun '(locs, off) => 0 <= off)
    (fun '(_, off) => Z.to_nat (len mda - off))); [|lia|unfold len; lia].
  intros [locs off] Hoff. unfold raw_locations_step, _RAW_LOCN_SIZE.
  case_match eqn:E; to_prop; [|done].
  do 4 take_field. case_match; cbn; [done|]. lia.
Qed.

(** * Encoders: the layouts LVM2 writes *)
Definition enc_loc (l : _DiskLocation) : list Z :=
  le_enc 8 (dl_offset_bytes l) ++ le_enc 8 (dl_size_bytes l).
Definition enc_locs (ls : list _DiskLocation) : list Z := flat_map enc_loc ls ++ repeat 0 16.
Definition loc_ok (l : _DiskLocation) : Prop :=
  0 < dl_offset_bytes l < 256 ^ 8 /\ 0 <= dl_size_bytes l < 256 ^ 8.

Lemma field_enc n p v s off :
  off = len p -> 0 <= v < 256 ^ Z.of_nat n -> field n (p ++ le_enc n v ++ s) off = Ok v.
Proof.
  intros Hoff Hv. unfold field. rewrite u_le_app by (done || apply le_enc_length).
  by rewrite le_val_enc.
Qed.

Lemma field_enc8 p v s off :
  off = len p -> 0 <= v < 256 ^ 8 -> field 8 (p ++ le_enc 8 v ++ s) off = Ok v.
Proof. apply (field_enc 8). Qed.
Lemma field_enc4 p v s off :
  off = len p -> 0 <= v < 256 ^ 4 -> field 4 (p ++ le_enc 4 v ++ s) off = Ok v.
Proof. apply (field_enc 4). Qed.

(** Lengths of encoded pieces. *)
Ltac len_lia := unfold len in *; rewrite ?length_app, ?le_enc_length, ?repeat_length in *; lia.

Lemma enc_loc_length l : length (enc_loc l) = 16%nat.
Proof. unfold enc_loc. by rewrite length_app, !le_enc_length. Qed.

Lemma field_enc8_2 p v w s off :
  off = len p -> 0 <= w < 256 ^ 8 ->
  field 8 (p ++ le_enc 8 v ++ le_enc 8 w ++ s) (off + 8) = Ok w.
Proof. intros. rewrite app_assoc. apply field_enc8; [len_lia|done]. Qed.

Lemma disk_locations_enc ls p r fuel acc off :
  Forall loc_ok ls -> off = len p -> (length ls < fuel)%nat ->
  while fuel (disk_locations_step (p ++ enc_locs ls ++ r)) (acc, off)
    = Ok (acc ++ ls, off + len (enc_locs ls)).
Proof.
  unfold enc_locs. intros Hls. revert p fuel acc off.
  induction Hls as [|l ls Hl Hls IH]; intros p fuel acc off Hoff Hf;
    (destruct fuel as [|fuel]; [lia|]); rewrite while_unfold; unfold disk_locations_step at 1;
    unfold _DISK_LOCN_SIZE.
  - cbn [flat_map app].
    rewrite (proj2 (Z.leb_le _ _)) by len_lia.
    change (repeat 0 16) with (le_enc 8 0 ++ le_enc 8 0). rewrite <- app_assoc.
    rewrite (field_enc8 _ _ _ off), field_enc8_2 by (done || lia).
    cbn [mbind result_bind]. by rewrite Z.eqb_refl, app_nil_r.
  - destruct Hl as [Ho Hs]. set (d := p ++ _).
    assert (d = p ++ le_enc 8 (dl_offset_bytes l) ++ le_enc 8 (dl_size_bytes l) ++
                (flat_map enc_loc ls ++ repeat 0 16) ++ r) as Hd.
    { subst d. cbn [flat_map]. unfold enc_loc at 1. by rewrite <- !app_assoc. }
    rewrite (proj2 (Z.leb_le _ _)) by (rewrite Hd; len_lia).
    assert (field 8 d off = Ok (dl_offset_bytes l)) as -> by (rewrite Hd; apply field_enc8; [done|lia]).
    assert (field 8 d (off + 8) = Ok (dl_size_bytes l)) as -> by (rewrite Hd; by apply field_enc8_2).
    cbn [mbind result_bind]. rewrite (proj2 (Z.eqb_neq _ _)) by lia.
    assert (d = (p ++ enc_loc l) ++ (flat_map enc_loc ls ++ repeat 0 16) ++ r) as ->.
    { rewrite Hd. unfold enc_loc. by rewrite <- !app_assoc. }
    rewrite IH; [|pose proof (enc_loc_length l); len_lia|cbn in Hf; lia].
    rewrite <- app_assoc. destruct l as [o z]. cbn [flat_map].
    do 2 f_equal. pose proof (enc_loc_length {| dl_offset_bytes := o; dl_size_bytes := z |}). len_lia.
Qed.

Lemma parse_disk_locations_enc ls r :
  Forall loc_ok ls -> _parse_disk_locations (enc_locs ls ++ r) = Ok (ls, len (enc_locs ls)).
Proof.
  intros. unfold _parse_disk_locations.
  apply (disk_locations_enc ls [] r); [done..|].
  unfold enc_locs. rewrite !length_app. induction ls; cbn [length flat_map]; [lia|].
  rewrite length_app, enc_loc_length. inversion_clear H. specialize (IHls H1). lia.
Qed.

Definition dashed (raw : str) : str :=
  join (lit "-") [slice 0 6 raw; slice 6 10 raw; slice 10 14 raw; slice 14 18 raw;
                  slice 18 22 raw; slice 22 26 raw; slice 26 32 raw].
Definition uuid_ok (raw : list Z) : Prop :=
  length raw = 32%nat /\ forallb (fun b => b <? 128) raw = true.

Definition encode_pv_header (raw_uuid : list Z) (dev : Z) (das mas : list _DiskLocation) : list Z :=
  raw_uuid ++ le_enc 8 dev ++ enc_locs das ++ enc_locs mas.

Lemma format_lvm_uuid_ok raw : uuid_ok raw -> format_lvm_uuid raw = Ok (dashed raw).
Proof.
  intros [Hl Ha]. unfold format_lvm_uuid, decode_ascii. rewrite Ha. cbn [of_option mbind result_bind].
  unfold len. by rewrite Hl.
Qed.

(** A raw descriptor of the metadata area header. *)
Definition enc_raw (l : _RawLocation) : list Z :=
  le_enc 8 (rl_offset_bytes l) ++ le_enc 8 (rl_size_bytes l) ++ le_enc 4 (checksum l) ++
  le_enc 4 (if ignored l then 1 else 0).
Definition raw_ok (l : _RawLocation) : Prop :=
  0 < rl_offset_bytes l < 256 ^ 8 /\ 0 <= rl_size_bytes l < 256 ^ 8 /\ 0 <= checksum l < 256 ^ 4.

Definition mda_body (start size : Z) (ls : list _RawLocation) : list Z :=
  _MDA_MAGIC ++ le_enc 4 1 ++ le_enc 8 start ++ le_enc 8 size ++
  flat_map enc_raw ls ++ repeat 0 (472 - 24 * length ls).
Definition encode_mda_header (start size : Z) (ls : list _RawLocation) : list Z :=
  le_enc 4 (lvm_weak_crc32 (mda_body start size ls)) ++ mda_body start size ls.

Lemma enc_raw_length l : length (enc_raw l) = 24%nat.
Proof. unfold enc_raw. by rewrite !length_app, !le_enc_length. Qed.

Lemma enc_raws_length ls : length (flat_map enc_raw ls) = (24 * length ls)%nat.
Proof. induction ls; [done|]. cbn [flat_map length]. rewrite length_app, enc_raw_length. lia. Qed.

Lemma raw_locations_enc mda ls p z fuel acc off :
  Forall raw_ok ls -> mda = p ++ flat_map enc_raw ls ++ repeat 0 z -> off = len p ->
  len mda = 512 -> (length ls < fuel)%nat ->
  while fuel (raw_locations_step mda) (acc, off) = Ok (acc ++ ls).
Proof.
  intros Hls. revert p fuel acc off.
  induction Hls as [|l ls Hl Hls IH]; intros p fuel acc off Hm Hoff Hlen Hf;
    (destruct fuel as [|fuel]; [lia|]); rewrite while_unfold; unfold raw_locations_step at 1;
    unfold _RAW_LOCN_SIZE, MDA_HEADER_SIZE; rewrite Hlen; change (Z.min 512 512) with 512.
  - cbn [flat_map app] in Hm. rewrite app_nil_r.
    destruct (off + 24 <=? 512) eqn:E; [|done]. to_prop.
    assert (mda = p ++ le_enc 8 0 ++ repeat 0 (z - 8)) as Hm8.
    { rewrite Hm. f_equal. change (le_enc 8 0) with (repeat 0 8). rewrite <- repeat_app. f_equal.
      rewrite Hm in Hlen. unfold len in *. rewrite length_app, repeat_length in Hlen. lia. }
    assert (field 8 mda off = Ok 0) as -> by (rewrite Hm8; by apply field_enc8).
    cbn [mbind result_bind].
    assert (0 <= off) by (unfold len in Hoff; lia).
    do 3 take_field. done.
  - destruct Hl as (Ho & Hs & Hc).
    assert (mda = p ++ le_enc 8 (rl_offset_bytes l) ++ le_enc 8 (rl_size_bytes l) ++
              le_enc 4 (checksum l) ++ le_enc 4 (if ignored l then 1 else 0) ++
              flat_map enc_raw ls ++ repeat 0 z) as Hd.
    { rewrite Hm. cbn [flat_map]. unfold enc_raw at 1. by rewrite <- !app_assoc. }
    rewrite (proj2 (Z.leb_le _ _)).
    2:{ rewrite <- Hlen, Hd. unfold len in *. rewrite !length_app, !le_enc_length. lia. }
    assert (field 8 mda off = Ok (rl_offset_bytes l)) as ->
      by (rewrite Hd; apply field_enc8; [done|lia]).
    assert (field 8 mda (off + 8) = Ok (rl_size_bytes l)) as ->
      by (rewrite Hd; by apply field_enc8_2).
    assert (field 4 mda (off + 16) = Ok (checksum l)) as ->
      by (rewrite Hd, app_assoc, (app_assoc (p ++ _)); apply field_enc4; [len_lia|done]).
    assert (field 4 mda (off + 20) = Ok (if ignored l then 1 else 0)) as ->
      by (rewrite Hd, app_assoc, (app_assoc (p ++ _)), (app_assoc ((p ++ _) ++ _));
          apply field_enc4; [len_lia|by destruct (ignored l)]).
    cbn [mbind result_bind]. rewrite (proj2 (Z.eqb_neq _ _)) by lia.
    rewrite (IH (p ++ enc_raw l)).
    + rewrite <- app_assoc. destruct l as [? ? ? []]; done.
    + rewrite Hm. cbn [flat_map]. by rewrite <- !app_assoc.
    + unfold len in *. rewrite length_app, enc_raw_length. lia.
    + done.
    + cbn in Hf. lia.
Qed.

Lemma mda_body_wf start size ls : wf (mda_body start size ls).
Proof.
  unfold mda_body, wf. repeat (apply Forall_app; split); try apply le_enc_wf.
  - apply (bool_decide_unpack _). by vm_compute.
  - induction ls as [|l ls IH]; [constructor|]. cbn [flat_map]. apply Forall_app. split; [|done].
    unfold enc_raw. repeat (apply Forall_app; split); apply le_enc_wf.
  - apply Forall_forall. intros x Hx%list_elem_of_In%repeat_spec. subst. done.
Qed.

Lemma mda_body_length start size ls :
  (length ls <= 19)%nat -> length (mda_body start size ls) = 508%nat.
Proof.
  intros. unfold mda_body. rewrite !length_app, !le_enc_length, enc_raws_length, repeat_length.
  change (length _MDA_MAGIC) with 16%nat. lia.
Qed.

(** * Round trips *)
(** Round trip of the physical volume header: from the bytes LVM2 writes
    (UUID, size, and two terminated descriptor lists, followed by anything)
    [parse_pv_header] reads the same UUID, size and descriptors. *)
Lemma parse_pv_header_enc raw dev das mas r :
  uuid_ok raw -> 0 <= dev < 256 ^ 8 -> Forall loc_ok das -> Forall loc_ok mas -> mas <> [] ->
  parse_pv_header (encode_pv_header raw dev das mas ++ r) =
    Ok {| pv_uuid := dashed raw; pvh_device_size_bytes := dev;
          data_areas := das; metadata_areas := mas |}.
Proof.
  intros Hu Hdev Hdas Hmas Hne. pose proof Hu as [Hl _].
  unfold encode_pv_header, parse_pv_header. rewrite <- !app_assoc.
  set (d := raw ++ _). unfold _DISK_LOCN_SIZE.
  assert (len d <? 32 + 8 + 16 = false) as ->.
  { apply Z.ltb_ge. subst d. unfold enc_locs. len_lia. }
  assert (slice 0 32 d = raw) as ->.
  { apply (slice_app [] raw); [done|]. unfold len. by rewrite Hl. }
  assert (field 8 d 32 = Ok dev) as -> by (apply field_enc8; [unfold len; lia|done]).
  rewrite format_lvm_uuid_ok by done. cbn [raise_if mbind result_bind].
  assert (drop (Z.to_nat (32 + 8)) d = enc_locs das ++ enc_locs mas ++ r) as ->.
  { subst d. rewrite app_assoc.
    replace (Z.to_nat (32 + 8)) with (length (raw ++ le_enc 8 dev)) by len_lia. apply drop_app_length. }
  rewrite parse_disk_locations_enc by done. cbn [mbind result_bind].
  replace (Z.to_nat (len (enc_locs das))) with (length (enc_locs das)) by len_lia.
  rewrite drop_app_length, parse_disk_locations_enc by done. cbn [mbind result_bind].
  by rewrite bool_decide_eq_false_2.
Qed.

(** Round trip of the metadata area header: whatever one to 19 descriptors
    it records, superseded or not, a 512-byte header with a correct checksum
    is read back exactly, flags included. *)
Lemma parse_mda_header_enc start size ls :
  0 <= start < 256 ^ 8 -> 0 <= size < 256 ^ 8 -> Forall raw_ok ls -> ls <> [] -> (length ls <= 19)%nat ->
  parse_mda_header (encode_mda_header start size ls) =
    Ok {| area_start_bytes := start; area_size_bytes := size; locations := ls |}.
Proof.
  intros Hst Hsz Hls Hne H19. unfold parse_mda_header.
  set (b := mda_body start size ls). set (d := encode_mda_header start size ls).
  pose proof (mda_body_length start size ls H19) as Hbl. pose proof (mda_body_wf start size ls) as Hbw.
  assert (len d = 512) as Hd by (subst d; unfold encode_mda_header; len_lia).
  assert (0 <= lvm_weak_crc32 b < 256 ^ 4) as Hcrc.
  { rewrite lvm_crc_raw. by apply raw_algorithm_range. }
  assert (d = le_enc 4 (lvm_weak_crc32 b) ++ _MDA_MAGIC ++ le_enc 4 1 ++ le_enc 8 start ++
              le_enc 8 size ++ flat_map enc_raw ls ++ repeat 0 (472 - 24 * length ls)) as Hdeq by done.
  rewrite Hd. change (512 <? MDA_HEADER_SIZE) with false. cbn [raise_if mbind result_bind].
  assert (field 4 d 0 = Ok (lvm_weak_crc32 b)) as -> by (by apply (field_enc4 [])).
  assert (slice 4 20 d = _MDA_MAGIC) as -> by (by apply slice_app).
  assert (slice 4 MDA_HEADER_SIZE d = b) as ->.
  { subst d. unfold encode_mda_header. fold b. rewrite <- (app_nil_r b) at 2. apply slice_app; [done|].
    unfold len. change (length b) with (length (mda_body start size ls)). by rewrite Hbl. }
  assert (field 4 d 20 = Ok 1) as -> by (rewrite Hdeq, app_assoc; by apply field_enc4).
  assert (field 8 d 24 = Ok start) as ->
    by (rewrite Hdeq, app_assoc, (app_assoc (_ ++ _MDA_MAGIC)); by apply field_enc8).
  assert (field 8 d 32 = Ok size) as ->
    by (rewrite Hdeq, app_assoc, (app_assoc (_ ++ _MDA_MAGIC)), (app_assoc ((_ ++ _MDA_MAGIC) ++ _)); by apply field_enc8).
  rewrite bool_decide_eq_true_2 by done. cbn [mbind result_bind negb raise_if]. rewrite Z.eqb_refl.
  cbn [mbind result_bind negb raise_if Z.eqb Pos.eqb _MDA_SUPPORTED_VERSION].
  rewrite (raw_locations_enc d ls (le_enc 4 (lvm_weak_crc32 b) ++ _MDA_MAGIC ++ le_enc 4 1 ++ le_enc 8 start ++ le_enc 8 size) (472 - 24 * length ls)).
  - cbn [mbind result_bind app]. by rewrite bool_decide_eq_false_2.
  - done.
  - rewrite Hdeq. by rewrite <- !app_assoc.
  - done.
  - done.
  - unfold len in Hd. lia.
Qed.

(** * Properties *)

(** The checksum computed through [zlib.crc32], its pre- and
    post-complement cancelled by the seed, is the plain reflected CRC-32
    algorithm started from 0xF597A6CF, and fits in 32 bits. *)
Lemma lvm_weak_crc32_raw data :
  lvm_weak_crc32 data = raw_algorithm data 0xF597A6CF /\
  (wf data -> word32 (lvm_weak_crc32 data)).
Proof.
  rewrite lvm_crc_raw. split; [done|]. intros. by apply raw_algorithm_range.
Qed.

Lemma lvm_weak_crc32_raw_witness :
  wf [49; 50; 51] /\ word32 (lvm_weak_crc32 [49; 50; 51]).
Proof.
  assert (wf [49; 50; 51]) as H by (repeat constructor; done).
  split; [exact H|]. exact (proj2 (lvm_weak_crc32_raw [49; 50; 51]) H).
Defined.

(** Corruption is detected: once a checksum accepts a text, it rejects
    every text obtained by changing any bytes within a window of four. *)
Lemma checksum_rejects_burst p w w' s expected :
  wf p -> wf w -> wf w' -> wf s -> length w = length w' -> (length w <= 4)%nat -> w <> w' ->
  verify_metadata_text_checksum (p ++ w ++ s) expected = Ok tt ->
  verify_metadata_text_checksum (p ++ w' ++ s) expected = Raise (LVM MalformedMetadataTextError).
Proof.
  intros Hp Hw Hw' Hs Hl H4 Hne. unfold verify_metadata_text_checksum.
  intros Hok%raise_if_Ok. to_prop. apply raise_if_Raise. split; [|done].
  apply negb_true_iff, Z.eqb_neq. intros Hbad. apply Hne.
  apply (raw_algorithm_burst p w w' s 0xF597A6CF); try done.
  by rewrite <- !lvm_crc_raw, Hok.
Qed.

Lemma checksum_rejects_burst_witness :
  verify_metadata_text_checksum ([118; 103] ++ [1; 2] ++ [10]) (lvm_weak_crc32 [118; 103; 1; 2; 10]) = Ok tt /\
  verify_metadata_text_checksum ([118; 103] ++ [1; 3] ++ [10]) (lvm_weak_crc32 [118; 103; 1; 2; 10])
    = Raise (LVM MalformedMetadataTextError).
Proof.
  split; [by vm_compute|].
  apply (checksum_rejects_burst [118; 103] [1; 2] [1; 3] [10]);
    try (repeat constructor; done); try (cbn; lia); try done.
Defined.

(** The sector [n] of the scanned range. *)
Definition sector (d : list Z) (n : Z) : list Z := slice (n * SECTOR_SIZE) (n * SECTOR_SIZE + SECTOR_SIZE) d.
(** A full sector that carries a valid label header for its own number. *)
Definition label_at (d : list Z) (n : Z) (h : _LabelHeader) : Prop :=
  len (sector d n) = SECTOR_SIZE /\ parse_label_header (sector d n) n = Ok h.

Lemma parse_label_header_outcome d n :
  outcome (fun _ => True) (fun e => e = LVM InvalidLabelError) (parse_label_header d n).
Proof.
  unfold parse_label_header, _LABEL_STRUCT_size.
  destruct (len d <? 32) eqn:E; [done|]. to_prop.
  destruct (field_Some 8 d 8) as [v ->]; [lia..|].
  destruct (field_Some 4 d 20) as [w ->]; [lia..|].
  cbn [raise_if mbind result_bind].
  do 3 (match goal with |- context [raise_if ?b _] => destruct b; [done|] end; cbn [raise_if mbind result_bind]).
  done.
Qed.

Lemma sector_len d n : 0 <= n -> len (sector d n) <= SECTOR_SIZE.
Proof.
  intros Hn. unfold sector, slice, len, SECTOR_SIZE. rewrite length_take. lia.
Qed.

Lemma scan_labels_spec d k n h :
  0 <= n ->
  scan_labels d k n = Ok h <->
  exists j, n <= j < n + Z.of_nat k /\ label_at d j h /\
    forall i, n <= i < j -> len (sector d i) = SECTOR_SIZE /\ forall h', ~ label_at d i h'.
Proof.
  revert n. induction k as [|k IH]; intros n Hn; cbn [scan_labels].
  { split; [done|]. intros (j & ? & _). lia. }
  change (slice (n * SECTOR_SIZE) (n * SECTOR_SIZE + SECTOR_SIZE) d) with (sector d n).
  pose proof (sector_len d n Hn) as Hle. pose proof (parse_label_header_outcome (sector d n) n) as Ho.
  destruct (len (sector d n) <? SECTOR_SIZE) eqn:Es; to_prop.
  { split; [done|]. intros (j & Hj & [Hl _] & Hbefore). exfalso.
    destruct (decide (j = n)) as [->|]; [lia|]. destruct (Hbefore n) as [? _]; lia. }
  destruct (parse_label_header (sector d n) n) as [h0|e|] eqn:Ep; [| |done].
  - split.
    + intros [= <-]. exists n. split; [lia|]. split; [split; [lia|done]|]. intros; lia.
    + intros (j & Hj & [_ Hp] & Hbefore). destruct (decide (j = n)) as [->|]; [congruence|].
      exfalso. destruct (Hbefore n ltac:(lia)) as [_ Hno]. apply (Hno h0). split; [lia|done].
  - cbn in Ho. subst e. rewrite IH by lia. split; intros (j & Hj & Hl & Hbefore).
    + exists j. split; [lia|]. split; [done|]. intros i Hi.
      destruct (decide (i = n)) as [->|]; [|apply Hbefore; lia].
      split; [lia|]. intros h' [_ Hp]. congruence.
    + exists j. split; [|split; [done|intros; apply Hbefore; lia]].
      destruct (decide (j = n)) as [->|]; [|lia]. destruct Hl as [_ Hp]. congruence.
Qed.

Lemma scan_labels_outcome d k n :
  outcome (fun _ => True) (fun e => e = LVM InvalidLabelError) (scan_labels d k n).
Proof.
  revert n. induction k as [|k IH]; intros n; cbn [scan_labels]; [done|].
  destruct (_ <? _); [done|].
  pose proof (parse_label_header_outcome (slice (n * SECTOR_SIZE) (n * SECTOR_SIZE + SECTOR_SIZE) d) n) as Ho.
  destruct (parse_label_header _ n) as [h0|e|]; [done| |done]. cbn in Ho. subst. apply IH.
Qed.

(** The label scan finds the first of the first four sectors that carries
    a valid label for its own number, every sector up to it being complete,
    and when there is none the only exception is [InvalidLabelError]. *)
Lemma parse_label_first d :
  (forall h, parse_label d = Ok h <->
     exists n, 0 <= n < 4 /\ label_at d n h /\
       forall i, 0 <= i < n -> len (sector d i) = SECTOR_SIZE /\ forall h', ~ label_at d i h') /\
  outcome (fun _ => True) (fun e => e = LVM InvalidLabelError) (parse_label d).
Proof.
  split; [|apply scan_labels_outcome]. intros h. by apply (scan_labels_spec d LABEL_SCAN_SECTORS 0).
Qed.

(** The label's own CRC (bytes 16 to 20) takes no part in accepting it:
    whatever those four bytes are, the header is read the same way. *)
Lemma label_crc_ignored p crc crc' s n :
  length p = 16%nat -> length crc = 4%nat -> length crc' = 4%nat ->
  parse_label_header (p ++ crc ++ s) n = parse_label_header (p ++ crc' ++ s) n.
Proof.
  intros Hp Hc Hc'. unfold parse_label_header.
  assert (forall c, length c = 4%nat ->
    slice 0 8 (p ++ c ++ s) = slice 0 8 p /\ field 8 (p ++ c ++ s) 8 = field 8 p 8 /\
    field 4 (p ++ c ++ s) 20 = field 4 s 0 /\ slice 24 32 (p ++ c ++ s) = slice 4 12 s /\
    len (p ++ c ++ s) = 20 + len s) as H.
  { intros c Hlc. unfold field, u_le.
    assert (len p = 16) as Hlp by (unfold len; lia). assert (len c = 4) as Hc4 by (unfold len; lia).
    rewrite !(slice_app_l p) by lia. rewrite !(slice_app_r p), !(slice_app_r c), Hlp, Hc4 by lia.
    repeat split. unfold len in *. rewrite !length_app. lia. }
  destruct (H crc Hc) as (-> & -> & -> & -> & ->). by destruct (H crc' Hc') as (-> & -> & -> & -> & ->).
Qed.

Definition sample_label : list Z := _LABEL_SIGNATURE ++ le_enc 8 1.
Definition sample_label_tail : list Z := le_enc 4 32 ++ _LABEL_TYPE.

Lemma label_crc_ignored_witness :
  parse_label_header (sample_label ++ [1; 2; 3; 4] ++ sample_label_tail) 1 =
    parse_label_header (sample_label ++ [0; 0; 0; 0] ++ sample_label_tail) 1 /\
  parse_label_header (sample_label ++ [0; 0; 0; 0] ++ sample_label_tail) 1 =
    Ok {| label_sector := 1; pv_header_offset := 32 |}.
Proof.
  split; [|by vm_compute].
  exact (label_crc_ignored sample_label [1; 2; 3; 4] [0; 0; 0; 0] sample_label_tail 1
           eq_refl eq_refl eq_refl).
Defined.

End LvmBinary.
