(* ===== verification/LvmParser.v ===== *)
(** disk_images/lvm/parser.py: from the parsed metadata text to a validated
    volume group, and the whole read of one physical volume. *)
From S2P Require Import Prelude PyBase LvmModels LvmText LvmTextRound LvmBinary.
Import Str Bytes LvmModels LvmText LvmTextRound LvmBinary.

Module LvmParser.

Definition _PV_HEADER_READ_SIZE : Z := 1024.

Definition Missing {A} : result lvm_exn A := Raise (LVM MissingRequiredFieldError).

(** [isinstance(value, t)] for the types the parser asks for, with the value
    at that type. *)
Definition as_int (v : ConfigValue) : option Z := match v with CInt n => Some n | _ => None end.
Definition as_str (v : ConfigValue) : option str := match v with CStr s => Some s | _ => None end.
Definition as_dict (v : ConfigValue) : option ConfigSection :=
  match v with CSec d => Some d | _ => None end.

Definition _require {A} (cast : ConfigValue -> option A) (section : ConfigSection) (key : str)
    : result lvm_exn A :=
  match Dict.get key section with
  | None => Missing
  | Some value => of_option (LVM MissingRequiredFieldError) (cast value)
  end.

(** The items whose value is a section. *)
Definition sections_of (document : ConfigSection) : list (str * ConfigSection) :=
  omap (fun '(name, value) => (fun d => (name, d)) <$> as_dict value) document.

Definition _find_volume_group_section (document : ConfigSection) : result lvm_exn (str * ConfigSection) :=
  match sections_of document with
  | [] => Missing
  | [c] => Ok c
  | _ :: _ :: _ => Malformed
  end.

(** The body of the loop of [_build_physical_volumes]. *)
Definition build_physical_volume (extent_size_bytes : Z) (item : str * ConfigValue)
    : result lvm_exn PhysicalVolume :=
  let (name, body) := item in
  let! pv_body := of_option (LVM MalformedMetadataTextError) (as_dict body) in
  let! id := _require as_str pv_body (lit "id") in
  let! dev_size := _require as_int pv_body (lit "dev_size") in
  let! pe_start := _require as_int pv_body (lit "pe_start") in
  let! pe_count := _require as_int pv_body (lit "pe_count") in
  let! _ := raise_if ((dev_size <=? 0) || (pe_count <=? 0) || (pe_start <? 0))
              (LVM InconsistentMetadataError) in
  Ok {| pv_name := name; pv_id := id; device_size_bytes := dev_size * SECTOR_SIZE;
        pv_extent_size_bytes := extent_size_bytes; pe_start_bytes := pe_start * SECTOR_SIZE;
        pv_extent_count := pe_count |}.

Definition _build_physical_volumes (vg_body : ConfigSection) (extent_size_bytes : Z)
    : result lvm_exn (list PhysicalVolume) :=
  let! pv_section := _require as_dict vg_body (lit "physical_volumes") in
  let! pvs := mapM_py (build_physical_volume extent_size_bytes) pv_section in
  let! _ := raise_if (bool_decide (pvs = [])) (LVM MissingRequiredFieldError) in
  Ok pvs.

Definition _build_linear_segment (segment_body : ConfigSection) (known_pv_names : list str)
    : result lvm_exn LinearSegment :=
  let! start := _require as_int segment_body (lit "start_extent") in
  let! count := _require as_int segment_body (lit "extent_count") in
  let! segment_type := _require as_str segment_body (lit "type") in
  let! stripe_count := _require as_int segment_body (lit "stripe_count") in
  let stripes := Dict.get (lit "stripes") segment_body in
  let! _ := raise_if (negb (bool_decide (segment_type = lit "striped"))) (LVM UnsupportedSegmentTypeError) in
  let! _ := raise_if (negb (stripe_count =? 1)) (LVM UnsupportedSegmentTypeError) in
  match stripes with
  | None => Missing
  | Some (CArr [SStr name; SInt start_pe]) =>
      let! _ := raise_if (negb (bool_decide (name ∈ known_pv_names))) (LVM InconsistentMetadataError) in
      let! _ := raise_if (count <=? 0) (LVM InconsistentMetadataError) in
      let! _ := raise_if ((start <? 0) || (start_pe <? 0)) (LVM InconsistentMetadataError) in
      Ok {| start_extent := start; extent_count := count; physical_volume_name := name;
            start_physical_extent := start_pe |}
  | Some _ => Raise (LVM InconsistentMetadataError)
  end.

(** f"segment{index}" *)
Definition segment_key (index : Z) : str := lit "segment" ++ str_of_Z index.

Definition build_segment (lv_body : ConfigSection) (known_pv_names : list str) (index : Z)
    : result lvm_exn LinearSegment :=
  match Dict.get (segment_key index) lv_body with
  | Some (CSec segment_body) => _build_linear_segment segment_body known_pv_names
  | _ => Missing
  end.

(** One turn of the contiguity loop: [expected_start]. *)
Definition contiguous_step (expected_start : Z) (segment : LinearSegment) : result lvm_exn Z :=
  let! _ := raise_if (negb (start_extent segment =? expected_start)) (LVM InconsistentMetadataError) in
  Ok (expected_start + extent_count segment).

Definition _build_logical_volume (lv_name : str) (lv_body : ConfigSection) (known_pv_names : list str)
    : result lvm_exn LogicalVolume :=
  let! id := _require as_str lv_body (lit "id") in
  let! segment_count := _require as_int lv_body (lit "segment_count") in
  let! _ := raise_if (segment_count <=? 0) (LVM MissingRequiredFieldError) in
  let! segs := mapM_py (build_segment lv_body known_pv_names) (seqZ 1 segment_count) in
  let segs := Sort.sort_by start_extent segs in
  let! _ := foldM contiguous_step 0 segs in
  Ok {| lv_name := lv_name; lv_id := id; segments := segs |}.

Definition build_lv_item (known_pv_names : list str) (item : str * ConfigValue)
    : result lvm_exn LogicalVolume :=
  let (name, body) := item in
  let! lv_body := of_option (LVM MalformedMetadataTextError) (as_dict body) in
  _build_logical_volume name lv_body known_pv_names.

Definition _build_logical_volumes (vg_body : ConfigSection) (known_pv_names : list str)
    : result lvm_exn (list LogicalVolume) :=
  let! lv_section := _require as_dict vg_body (lit "logical_volumes") in
  let! lvs := mapM_py (build_lv_item known_pv_names) lv_section in
  let! _ := raise_if (match lvs with [] => true | _ => false end) (LVM MissingRequiredFieldError) in
  Ok lvs.

Definition build_volume_group (document : ConfigSection) (ma : MetadataArea) : result lvm_exn VolumeGroup :=
  let! (name, vg_body) := _find_volume_group_section document in
  let! id := _require as_str vg_body (lit "id") in
  let! extent_size_sectors := _require as_int vg_body (lit "extent_size") in
  let! _ := raise_if (extent_size_sectors <=? 0) (LVM InconsistentMetadataError) in
  let extent_size := extent_size_sectors * SECTOR_SIZE in
  let! pvs := _build_physical_volumes vg_body extent_size in
  let known_pv_names := map pv_name pvs in
  let! lvs := _build_logical_volumes vg_body known_pv_names in
  Ok {| vg_name := name; vg_id := id; extent_size_bytes := extent_size;
        physical_volumes := pvs; logical_volumes := lvs; metadata_area := ma |}.

(** [next((pv for pv in pvs if pv.id == uuid), None)] *)
Definition find_pv (uuid : str) (pvs : list PhysicalVolume) : option PhysicalVolume :=
  find (fun pv => bool_decide (pv_id pv = uuid)) pvs.

Section read.
(** The caller's byte reader. *)
Variable read : Z -> Z -> result lvm_exn (list Z).

Definition parse_physical_volume_metadata : result lvm_exn PhysicalVolumeMetadata :=
  let! first_sectors := read 0 (SECTOR_SIZE * Z.of_nat LABEL_SCAN_SECTORS) in
  let! label := parse_label first_sectors in
  let label_absolute_offset := label_sector label * SECTOR_SIZE in
  let pv_header_absolute_offset := label_absolute_offset + pv_header_offset label in
  let! pv_header_bytes := read pv_header_absolute_offset _PV_HEADER_READ_SIZE in
  let! pv_header := parse_pv_header pv_header_bytes in
  let! descriptor := of_option (LvmPy IndexError) (head (metadata_areas pv_header)) in
  let! mda_header_bytes := read (dl_offset_bytes descriptor) MDA_HEADER_SIZE in
  let! mda_header := parse_mda_header mda_header_bytes in
  let! _ := raise_if (negb (area_start_bytes mda_header =? dl_offset_bytes descriptor))
              (LVM InconsistentMetadataError) in
  let! _ := raise_if (negb (area_size_bytes mda_header =? dl_size_bytes descriptor))
              (LVM InconsistentMetadataError) in
  let! active_location := select_active_location mda_header in
  let text_offset := area_start_bytes mda_header + rl_offset_bytes active_location in
  let! text_bytes := read text_offset (rl_size_bytes active_location) in
  let! _ := verify_metadata_text_checksum text_bytes (checksum active_location) in
  let! metadata_text := of_option (LvmPy UnicodeDecodeError) (utf8_decode text_bytes) in
  let metadata_text := rstrip (Z.eqb 0) metadata_text in
  let! document := parse_config_text metadata_text in
  let ma := {| header_offset_bytes := dl_offset_bytes descriptor;
               ma_area_size_bytes := area_size_bytes mda_header;
               metadata_text_offset_bytes := text_offset;
               metadata_text_size_bytes := rl_size_bytes active_location |} in
  let! vg := build_volume_group document ma in
  match find_pv (pv_uuid pv_header) (physical_volumes vg) with
  | None => Raise (LVM InconsistentMetadataError)
  | Some matching_pv => Ok {| physical_volume := matching_pv; volume_group := vg |}
  end.
End read.
(** * What parsing guarantees *)

(** Section names are unique at every level. *)
Inductive doc_wf : ConfigSection -> Prop :=
  | doc_wf_intro d :
      NoDup (Dict.keys d) -> (forall k d', (k, CSec d') ∈ d -> doc_wf d') -> doc_wf d.

Lemma doc_wf_nil : doc_wf [].
Proof. constructor; [constructor|]. by intros ? ? ?%elem_of_nil. Qed.

Lemma doc_wf_set k v d : doc_wf d -> (forall d', v = CSec d' -> doc_wf d') -> doc_wf (Dict.set k v d).
Proof.
  intros [d0 Hn Hd] Hv. constructor; [by apply Dict.set_nodup|].
  intros k' d' [[-> <-]|Hin]%Dict.elem_set; [by apply Hv|by eapply Hd].
Qed.

Lemma parse_value_not_section ts v rest d : _parse_value ts = Ok (v, rest) -> v <> CSec d.
Proof.
  unfold _parse_value. destruct ts as [|t ts]; [done|]. cbn.
  destruct (kind t); cbn; try naive_solver. case_match; [|done].
  intros ([items rest'] & _ & [= <- <-])%bind_Ok. done.
Qed.

Lemma parse_statements_wf fuel section ts d rest :
  doc_wf section -> _parse_statements fuel section ts = Ok (d, rest) -> doc_wf d.
Proof.
  revert section ts d rest. induction fuel as [|fuel IH]; intros section ts d rest Hs; [done|].
  destruct ts as [|t ts]; cbn [_parse_statements]; [by intros [= <- <-]|].
  case_match; [by intros [= <- <-]|].
  intros ([name ts1] & _ & Hk)%bind_Ok. destruct ts1 as [|t2 ts2]; [done|].
  case_match; [|case_match; [|done]].
  - apply bind_Ok in Hk as ([v ts3] & Hv & Hk). eapply IH; [|done].
    apply doc_wf_set; [done|]. intros d' ->. by eapply parse_value_not_section in Hv.
  - apply bind_Ok in Hk as ([nested ts3] & Hn & Hk). apply bind_Ok in Hk as (ts4 & _ & Hk).
    eapply IH; [|done]. apply doc_wf_set; [done|]. intros d' [= <-].
    eapply IH; [|done]. apply doc_wf_nil.
Qed.

Lemma parse_config_text_wf text d : parse_config_text text = Ok d -> doc_wf d.
Proof.
  unfold parse_config_text, parse_document.
  intros (ts & _ & ([d' rest] & Hs & Hr)%bind_Ok)%bind_Ok.
  destruct rest; [|done]. injection Hr as <-. eapply parse_statements_wf; [|done]. apply doc_wf_nil.
Qed.

(** A segment list that covers an extent range from [start] on, in order and
    without gap or overlap. *)
Fixpoint contiguous (start : Z) (segs : list LinearSegment) : Prop :=
  match segs with
  | [] => True
  | s :: segs' => start_extent s = start /\ contiguous (start + extent_count s) segs'
  end.

Definition segment_ok (known : list str) (s : LinearSegment) : Prop :=
  physical_volume_name s ∈ known /\ 0 < extent_count s /\ 0 <= start_extent s /\
  0 <= start_physical_extent s.

Definition lv_ok (known : list str) (lv : LogicalVolume) : Prop :=
  segments lv <> [] /\ contiguous 0 (segments lv) /\ Forall (segment_ok known) (segments lv).

Definition pv_ok (extent_size : Z) (pv : PhysicalVolume) : Prop :=
  pv_extent_size_bytes pv = extent_size /\ 0 < pv_extent_count pv /\
  (exists n, 0 < n /\ device_size_bytes pv = n * SECTOR_SIZE) /\
  (exists n, 0 <= n /\ pe_start_bytes pv = n * SECTOR_SIZE).

Record vg_ok (vg : VolumeGroup) : Prop := {
  vg_extent_size : exists n, 0 < n /\ extent_size_bytes vg = n * SECTOR_SIZE;
  vg_pvs_nonempty : physical_volumes vg <> [];
  vg_lvs_nonempty : logical_volumes vg <> [];
  vg_pv_names : NoDup (map pv_name (physical_volumes vg));
  vg_lv_names : NoDup (map lv_name (logical_volumes vg));
  vg_pvs_ok : Forall (pv_ok (extent_size_bytes vg)) (physical_volumes vg);
  vg_lvs_ok : Forall (lv_ok (map pv_name (physical_volumes vg))) (logical_volumes vg) }.

Lemma require_Ok {A} (cast : ConfigValue -> option A) section key a :
  _require cast section key = Ok a <-> exists v, Dict.get key section = Some v /\ cast v = Some a.
Proof.
  unfold _require. destruct (Dict.get key section) as [v|]; [|naive_solver].
  rewrite of_option_Ok. naive_solver.
Qed.

Lemma build_physical_volume_ok es item pv :
  build_physical_volume es item = Ok pv -> pv_name pv = item.1 /\ pv_ok es pv.
Proof.
  destruct item as [name body]. unfold build_physical_volume. intros H. res_inv. to_prop.
  split; [done|]. repeat split; cbn; try done; eexists; (split; [|done]); lia.
Qed.

Lemma build_physical_volumes_ok vg_body es pvs :
  doc_wf vg_body -> _build_physical_volumes vg_body es = Ok pvs ->
  pvs <> [] /\ NoDup (map pv_name pvs) /\ Forall (pv_ok es) pvs.
Proof.
  intros Hwf. unfold _build_physical_volumes. intros H. res_inv. to_prop.
  apply require_Ok in H as (v & Hg & Hc). destruct v; try done. injection Hc as ->.
  apply Dict.get_elem in Hg. destruct Hwf as [vg_body _ Hd]. destruct (Hd _ _ Hg) as [d Hn _].
  apply mapM_py_Ok in H0. split; [done|]. unfold Dict.keys in Hn. revert Hn.
  assert (map fst d = map pv_name pvs /\ Forall (pv_ok es) pvs) as [-> ?]; [|done].
  clear -H0. induction H0 as [|item pv d pvs Hb _ [IH1 IH2]]; [done|].
  apply build_physical_volume_ok in Hb as [Hn ?]. cbn. split; [congruence|by constructor].
Qed.

Lemma build_linear_segment_ok body known s :
  _build_linear_segment body known = Ok s -> segment_ok known s.
Proof.
  unfold _build_linear_segment. intros H. res_inv.
  destruct (Dict.get (lit "stripes") body) as [[| |[|[|name] [|[start_pe|] [|]]]|]|]; try done.
  res_inv. to_prop. done.
Qed.

Lemma contiguous_fold segs start last :
  foldM contiguous_step start segs = Ok last -> contiguous start segs.
Proof.
  revert start. induction segs as [|s segs IH]; intros start; cbn; [done|].
  intros (x & Hx & H)%bind_Ok. unfold contiguous_step in Hx. res_inv. to_prop.
  split; [done|]. by apply IH.
Qed.

Lemma build_logical_volume_ok name body known lv :
  _build_logical_volume name body known = Ok lv -> lv_name lv = name /\ lv_ok known lv.
Proof.
  unfold _build_logical_volume. intros H. res_inv. to_prop. split; [done|].
  match goal with H : mapM_py _ _ = Ok ?segs |- _ => apply mapM_py_Ok in H; rename H into Hm, segs into ss end.
  assert (Forall (segment_ok known) ss) as Hall.
  { clear -Hm. induction Hm as [|i s il ss Hb _ IH]; constructor; [|done].
    unfold build_segment in Hb. do 2 (case_match; try done). by eapply build_linear_segment_ok. }
  repeat split; cbn.
  - intros Hnil. apply Forall2_length in Hm. rewrite length_seqZ in Hm.
    pose proof (Permutation_length (Sort.sort_by_perm start_extent ss)) as Hp.
    rewrite Hnil in Hp. cbn in Hp. lia.
  - by eapply contiguous_fold.
  - by rewrite Sort.sort_by_perm.
Qed.

Lemma build_logical_volumes_ok vg_body known lvs :
  doc_wf vg_body -> _build_logical_volumes vg_body known = Ok lvs ->
  lvs <> [] /\ NoDup (map lv_name lvs) /\ Forall (lv_ok known) lvs.
Proof.
  intros Hwf. unfold _build_logical_volumes. intros H. res_inv.
  apply require_Ok in H as (v & Hg & Hc). destruct v; try done. injection Hc as ->.
  apply Dict.get_elem in Hg. destruct Hwf as [vg_body _ Hd]. destruct (Hd _ _ Hg) as [d Hn _].
  apply mapM_py_Ok in H0. split; [by destruct lvs|]. unfold Dict.keys in Hn. revert Hn.
  assert (map fst d = map lv_name lvs /\ Forall (lv_ok known) lvs) as [-> ?]; [|done].
  clear -H0. induction H0 as [|[name body] lv d lvs Hb _ [IH1 IH2]]; [done|].
  unfold build_lv_item in Hb. res_inv.
  match goal with H : _build_logical_volume _ _ _ = _ |- _ => apply build_logical_volume_ok in H as [? ?] end.
  split; [congruence|by constructor].
Qed.

Lemma sections_of_elem document name d :
  (name, d) ∈ sections_of document -> (name, CSec d) ∈ document.
Proof.
  unfold sections_of. intros ([k v] & Hin & Hf)%list_elem_of_omap.
  destruct v; try done. by injection Hf as -> ->.
Qed.

Lemma build_volume_group_ok document ma vg :
  doc_wf document -> build_volume_group document ma = Ok vg -> vg_ok vg /\ metadata_area vg = ma.
Proof.
  intros Hwf. unfold build_volume_group. intros ([name body] & Hf & H)%bind_Ok. res_inv. to_prop.
  assert (doc_wf body) as Hc.
  { destruct Hwf as [document _ Hd]. apply (Hd name). apply sections_of_elem.
    unfold _find_volume_group_section in Hf.
    destruct (sections_of document) as [|c [|]]; try done. injection Hf as ->. by left. }
  match goal with H : _build_physical_volumes _ _ = _ |- _ =>
    apply build_physical_volumes_ok in H as (? & ? & ?); [|done] end.
  match goal with H : _build_logical_volumes _ _ = _ |- _ =>
    apply build_logical_volumes_ok in H as (? & ? & ?); [|done] end.
  split; [|done]. constructor; try done. eexists. split; [|done]. lia.
Qed.

(** * The documents that describe a volume group

    The fields the parser reads, whatever else the sections hold, segments in
    any order. *)
Definition describes_pv (item : str * ConfigValue) (pv : PhysicalVolume) : Prop :=
  item.1 = pv_name pv /\ exists d dev_size pe_start, item.2 = CSec d /\
    Dict.get (lit "id") d = Some (CStr (pv_id pv)) /\
    Dict.get (lit "dev_size") d = Some (CInt dev_size) /\ device_size_bytes pv = dev_size * SECTOR_SIZE /\
    Dict.get (lit "pe_start") d = Some (CInt pe_start) /\ pe_start_bytes pv = pe_start * SECTOR_SIZE /\
    Dict.get (lit "pe_count") d = Some (CInt (pv_extent_count pv)).

Definition describes_segment (d : ConfigSection) (s : LinearSegment) : Prop :=
  Dict.get (lit "start_extent") d = Some (CInt (start_extent s)) /\
  Dict.get (lit "extent_count") d = Some (CInt (extent_count s)) /\
  Dict.get (lit "type") d = Some (CStr (lit "striped")) /\
  Dict.get (lit "stripe_count") d = Some (CInt 1) /\
  Dict.get (lit "stripes") d =
    Some (CArr [SStr (physical_volume_name s); SInt (start_physical_extent s)]).

Definition describes_lv (item : str * ConfigValue) (lv : LogicalVolume) : Prop :=
  item.1 = lv_name lv /\ exists d segs, item.2 = CSec d /\
    Dict.get (lit "id") d = Some (CStr (lv_id lv)) /\
    Dict.get (lit "segment_count") d = Some (CInt (len segs)) /\
    Forall2 (fun i s => exists b, Dict.get (segment_key i) d = Some (CSec b) /\ describes_segment b s)
      (seqZ 1 (len segs)) segs /\
    segs ≡ₚ segments lv.

Definition describes (document : ConfigSection) (vg : VolumeGroup) : Prop :=
  exists d extent_size pvs lvs, sections_of document = [(vg_name vg, d)] /\
    Dict.get (lit "id") d = Some (CStr (vg_id vg)) /\
    Dict.get (lit "extent_size") d = Some (CInt extent_size) /\
    extent_size_bytes vg = extent_size * SECTOR_SIZE /\
    Dict.get (lit "physical_volumes") d = Some (CSec pvs) /\
    Forall2 describes_pv pvs (physical_volumes vg) /\
    Dict.get (lit "logical_volumes") d = Some (CSec lvs) /\
    Forall2 describes_lv lvs (logical_volumes vg).

Lemma require_at {A} (cast : ConfigValue -> option A) section key v a :
  Dict.get key section = Some v -> cast v = Some a -> _require cast section key = Ok a.
Proof. intros H1 H2. apply require_Ok. by exists v. Qed.

Ltac require_step :=
  match goal with
  | H : Dict.get ?k ?d = Some ?v |- context [_require ?c ?d ?k] =>
      rewrite (require_at c d k v _ H eq_refl); cbn [mbind result_bind]
  end.
Ltac guard_off := rewrite (proj2 (raise_if_Ok _ _ tt)); [cbn [mbind result_bind]|].

Lemma orb3_false a b c : a = false -> b = false -> c = false -> a || b || c = false.
Proof. by intros -> -> ->. Qed.

Lemma describes_pv_built es item pv :
  describes_pv item pv -> pv_ok es pv -> build_physical_volume es item = Ok pv.
Proof.
  destruct item as [name v]. intros [Hname (d & ds & ps & Hv & ? & ? & Hds & ? & Hps & ?)].
  cbn in Hname, Hv. subst name v. intros (Hes & Hc & (n & Hn & Hd) & (m & Hm & Hp)). cbn. do 4 require_step.
  unfold SECTOR_SIZE in *. guard_off.
  - f_equal. destruct pv; cbn in *. by subst.
  - apply orb3_false; [apply Z.leb_gt|apply Z.leb_gt|apply Z.ltb_ge]; lia.
Qed.

Lemma describes_segment_built known d s :
  describes_segment d s -> segment_ok known s -> _build_linear_segment d known = Ok s.
Proof.
  intros (? & ? & ? & ? & Hs) (Hk & ? & ? & ?). unfold _build_linear_segment.
  do 4 require_step. rewrite bool_decide_eq_true_2 by done. rewrite Hs. cbn.
  rewrite bool_decide_eq_true_2 by done. cbn.
  rewrite (proj2 (Z.leb_gt _ _)), !(proj2 (Z.ltb_ge _ _)) by lia. cbn. by destruct s.
Qed.

Lemma contiguous_foldM segs start : contiguous start segs -> is_Some (match foldM (E := lvm_exn) contiguous_step start segs with Ok n => Some n | _ => None end).
Proof.
  revert start. induction segs as [|s segs IH]; intros start; cbn; [by eexists|].
  intros [Hs Hc]. unfold contiguous_step at 2. rewrite (proj2 (Z.eqb_eq _ _) Hs). cbn. by apply IH.
Qed.

Lemma contiguous_sorted known segs start :
  contiguous start segs -> Forall (segment_ok known) segs ->
  StronglySorted (Sort.lt_key start_extent) segs /\ Forall (fun s => start <= start_extent s) segs.
Proof.
  intros Hc Hok. revert start Hc. induction Hok as [|s segs (_ & Hpos & _) Hok IH]; intros start.
  { split; constructor. }
  intros [Hs Hc]. destruct (IH _ Hc) as [IH1 IH2]. split.
  - constructor; [done|]. eapply Forall_impl; [done|]. unfold Sort.lt_key. cbn. lia.
  - constructor; [lia|]. eapply Forall_impl; [done|]. cbn. lia.
Qed.

Lemma describes_lv_built known item lv :
  describes_lv item lv -> lv_ok known lv -> build_lv_item known item = Ok lv.
Proof.
  destruct item as [name v]. intros [Hname (d & segs & Hv & ? & ? & Hsegs & Hp)] (Hne & Hc & Hok).
  cbn in Hname, Hv. subst name v. cbn. unfold _build_logical_volume. do 2 require_step.
  assert (0 < len segs).
  { unfold len. destruct segs; [by apply Permutation_nil_l in Hp|cbn; lia]. }
  guard_off; [|by apply Z.leb_gt].
  assert (mapM_py (build_segment d known) (seqZ 1 (len segs)) = Ok segs) as ->.
  { eapply mapM_py_build; [|done|by rewrite Hp]. intros i s (b & Hb & Hd) Hs.
    unfold build_segment. rewrite Hb. by apply describes_segment_built. }
  cbn [mbind result_bind]. destruct (contiguous_sorted known _ _ Hc Hok) as [Hs _].
  rewrite (Sort.sort_by_unique _ _ _ Hs Hp).
  destruct (contiguous_foldM _ _ Hc) as [n Hn].
  destruct (foldM contiguous_step 0 (segments lv)) as [m| |]; try done. cbn. by destruct lv.
Qed.

Lemma describes_built document vg :
  describes document vg -> vg_ok vg -> build_volume_group document (metadata_area vg) = Ok vg.
Proof.
  intros (d & es & pvs & lvs & Hsec & ? & ? & Hes & ? & Hpvs & ? & Hlvs) [(n & Hn & Hn') Hp0 Hl0 _ _ Hp Hl].
  unfold build_volume_group, _find_volume_group_section. rewrite Hsec. cbn [mbind result_bind].
  do 2 require_step. guard_off; [|apply Z.leb_gt; unfold SECTOR_SIZE in *; lia].
  unfold _build_physical_volumes, _build_logical_volumes. do 2 require_step.
  rewrite <- Hes.
  assert (mapM_py (build_physical_volume (extent_size_bytes vg)) pvs = Ok (physical_volumes vg)) as ->.
  { eapply mapM_py_build; [|done|done]. intros. by apply describes_pv_built. }
  cbn [mbind result_bind]. rewrite bool_decide_eq_false_2 by done. cbn [raise_if mbind result_bind].
  assert (mapM_py (build_lv_item (map pv_name (physical_volumes vg))) lvs = Ok (logical_volumes vg)) as ->.
  { eapply mapM_py_build; [|done|done]. intros. by apply describes_lv_built. }
  cbn [mbind result_bind]. destruct vg as [? ? ? ? [|? ?] ?]; [done|]. done.
Qed.

(** * Which exceptions escape *)
Definition escapes (raised : lvm_exn -> Prop) (e : lvm_exn) : Prop :=
  is_LVMMetadataError e = true \/ e = LvmPy ValueError \/ e = LvmPy UnicodeDecodeError \/ raised e.

Lemma invalid_label_escapes raised e : invalid_label e -> escapes raised e.
Proof. intros ->. by left. Qed.

Lemma raise_lvm_outcome raised b e :
  outcome (fun _ => True) (escapes raised) (raise_if b (LVM e)).
Proof. destruct b; [by left|done]. Qed.

Lemma format_lvm_uuid_outcome raised raw : outcome (fun _ => True) (escapes raised) (format_lvm_uuid raw).
Proof.
  unfold format_lvm_uuid. destruct (decode_ascii raw); [|cbn; unfold escapes; auto].
  cbn [of_option mbind result_bind]. destruct (negb _); [by left|done].
Qed.

Lemma parse_pv_header_outcome raised d :
  outcome (fun h => metadata_areas h <> []) (escapes raised) (parse_pv_header d).
Proof.
  unfold parse_pv_header, _DISK_LOCN_SIZE. destruct (len d <? 32 + 8 + 16) eqn:E; [by left|]. to_prop.
  destruct (field_Some 8 d 32) as [v ->]; [lia..|]. cbn [raise_if mbind result_bind].
  apply outcome_bind. eapply outcome_mono; [|done|apply format_lvm_uuid_outcome]. intros u _.
  apply outcome_bind. eapply outcome_mono; [|apply invalid_label_escapes|apply parse_disk_locations_outcome].
  intros [das used] _. apply outcome_bind.
  eapply outcome_mono; [|apply invalid_label_escapes|apply parse_disk_locations_outcome].
  intros [mas ?] _. case_bool_decide; [by left|done].
Qed.

Lemma parse_mda_header_outcome raised d :
  outcome (fun _ => True) (escapes raised) (parse_mda_header d).
Proof.
  unfold parse_mda_header. destruct (len d <? MDA_HEADER_SIZE) eqn:E; [by left|]. to_prop.
  unfold MDA_HEADER_SIZE in E.
  destruct (field_Some 4 d 0) as [v0 ->]; [lia..|]. destruct (field_Some 4 d 20) as [v1 ->]; [lia..|].
  destruct (field_Some 8 d 24) as [v2 ->]; [lia..|]. destruct (field_Some 8 d 32) as [v3 ->]; [lia..|].
  cbn [raise_if mbind result_bind].
  do 3 (apply outcome_bind; eapply outcome_mono; [|done|apply raise_lvm_outcome]; intros ? _).
  apply outcome_bind. eapply outcome_mono; [| |apply raw_locations_outcome]; [|done].
  intros locs _. case_bool_decide; [by left|done].
Qed.

Lemma select_location_outcome raised n ls : outcome (fun _ => True) (escapes raised) (select_location n ls).
Proof.
  induction ls as [|l ls IH]; cbn [select_location]; [by left|]. destruct (ignored l); [done|].
  by destruct (_ <? _); [left|].
Qed.

Lemma require_outcome {A} raised (cast : ConfigValue -> option A) d k :
  outcome (fun _ => True) (escapes raised) (_require cast d k).
Proof. unfold _require. destruct (Dict.get k d) as [v|]; [|by left]. destruct (cast v); [done|by left]. Qed.

Lemma mapM_outcome {E X Y} (f : X -> result E Y) (R : E -> Prop) l :
  (forall x, outcome (fun _ => True) R (f x)) -> outcome (fun _ => True) R (mapM_py f l).
Proof.
  intros Hf. induction l as [|x l IH]; cbn; [done|]. apply outcome_bind.
  eapply outcome_mono; [|done|apply Hf]. intros y _. apply outcome_bind.
  by eapply outcome_mono; [|done|exact IH].
Qed.

Ltac outcome_step :=
  match goal with
  | |- outcome _ _ (Raise _) => by left
  | |- outcome _ _ (Ok _) => done
  | |- outcome _ _ (of_option (LVM _) ?o) => destruct o; [done|by left]
  | |- outcome _ _ (_require _ _ _) => apply require_outcome
  | |- outcome _ _ (raise_if _ _) => apply raise_lvm_outcome
  | |- outcome _ _ (mapM_py _ _) => apply mapM_outcome; intros
  | |- outcome _ (escapes ?r) (mbind _ _) =>
      apply outcome_bind; apply (outcome_mono (fun _ => True) _ (escapes r)); [intros|done|]
  end.

Lemma build_linear_segment_outcome raised d known :
  outcome (fun _ => True) (escapes raised) (_build_linear_segment d known).
Proof.
  unfold _build_linear_segment, Missing. repeat outcome_step.
  repeat (case_match; try outcome_step); repeat outcome_step.
Qed.

Lemma contiguous_outcome raised segs start :
  outcome (fun _ => True) (escapes raised) (foldM contiguous_step start segs).
Proof.
  revert start. induction segs as [|s segs IH]; intros start; cbn; [done|].
  unfold contiguous_step at 2. destruct (negb _); [by left|apply IH].
Qed.

Lemma build_volume_group_outcome raised d ma :
  outcome (fun _ => True) (escapes raised) (build_volume_group d ma).
Proof.
  unfold build_volume_group, _find_volume_group_section, _build_physical_volumes, _build_logical_volumes.
  apply outcome_bind, (outcome_mono (fun _ => True) _ (escapes raised)); [|done|].
  2:{ destruct (sections_of d) as [|? [|? ?]]; [by left|done|by left]. }
  intros [name body] _. repeat outcome_step.
  - destruct x as [n v]. unfold build_lv_item, _build_logical_volume. repeat outcome_step.
    + apply contiguous_outcome.
    + unfold build_segment. destruct (Dict.get _ _) as [[]|]; try by left. apply build_linear_segment_outcome.
  - destruct x as [n v]. unfold build_physical_volume. repeat outcome_step.
Qed.

(** * A disk that holds a volume group

    The layout pvcreate writes: a boot sector, the label in sector 1 with the
    physical volume header after it, one metadata area at byte 4096 whose
    current text follows its header. *)
Definition encode_label (crc : list Z) : list Z :=
  _LABEL_SIGNATURE ++ le_enc 8 1 ++ crc ++ le_enc 4 32 ++ _LABEL_TYPE.

Definition text_location (text : list Z) : _RawLocation :=
  {| rl_offset_bytes := 512; rl_size_bytes := len text; checksum := lvm_weak_crc32 text; ignored := false |}.
Definition area_location (area_size : Z) : _DiskLocation :=
  {| dl_offset_bytes := 4096; dl_size_bytes := area_size |}.

Record disk := {
  boot : list Z;            (** sector 0 *)
  label_crc : list Z;       (** the label's CRC field *)
  raw_uuid : list Z;
  device_size : Z;
  area_size : Z;
  padding : list Z;         (** up to the metadata area *)
  text : list Z;
  tail_bytes : list Z }.

Definition front (d : disk) : list Z :=
  encode_label (label_crc d) ++
  encode_pv_header (raw_uuid d) (device_size d) [] [area_location (area_size d)] ++ padding d.
Definition area (d : disk) : list Z :=
  encode_mda_header 4096 (area_size d) [text_location (text d)].
Definition image (d : disk) : list Z := boot d ++ front d ++ area d ++ text d ++ tail_bytes d.

Definition image_reader (d : disk) (offset size : Z) : result lvm_exn (list Z) :=
  Ok (slice offset (offset + size) (image d)).

Record disk_ok (d : disk) : Prop := {
  boot_sector : length (boot d) = 512%nat;
  boot_no_label : is_ok (parse_label_header (boot d) 0) = false;
  crc_field : length (label_crc d) = 4%nat;
  uuid_field : uuid_ok (raw_uuid d);
  device_range : 0 <= device_size d < 256 ^ 8;
  area_range : 512 + len (text d) <= area_size d < 256 ^ 8;
  padding_fills : length (padding d) = 3464%nat;
  text_bytes : wf (text d) }.

Definition disk_area (d : disk) : MetadataArea :=
  {| header_offset_bytes := 4096; ma_area_size_bytes := area_size d;
     metadata_text_offset_bytes := 4608; metadata_text_size_bytes := len (text d) |}.

Section on_disk.
Variable d : disk.
Hypothesis Hd : disk_ok d.

Lemma encode_pv_header_length das mas :
  length (encode_pv_header (raw_uuid d) (device_size d) das mas) =
    (72 + 16 * length das + 16 * length mas)%nat.
Proof.
  unfold encode_pv_header, enc_locs. pose proof (uuid_field d Hd) as [Hu _].
  rewrite !length_app, !repeat_length, le_enc_length, Hu.
  assert (forall ls, length (flat_map enc_loc ls) = (16 * length ls)%nat) as Hl.
  { induction ls as [|l ls IH]; [done|]. cbn [flat_map length]. rewrite length_app, enc_loc_length. lia. }
  rewrite !Hl. lia.
Qed.

Lemma encode_label_length : length (encode_label (label_crc d)) = 32%nat.
Proof. unfold encode_label. by rewrite !length_app, !le_enc_length, (crc_field d Hd). Qed.

Lemma front_length : length (front d) = 3584%nat.
Proof.
  unfold front. rewrite !length_app, encode_label_length, encode_pv_header_length, (padding_fills d Hd). done.
Qed.

Lemma area_length : length (area d) = 512%nat.
Proof. unfold area, encode_mda_header. rewrite length_app, le_enc_length, mda_body_length; cbn; lia. Qed.

Lemma image_label :
  parse_label (slice 0 2048 (image d)) = Ok {| label_sector := 1; pv_header_offset := 32 |}.
Proof.
  pose proof (boot_sector d Hd) as Hb. pose proof front_length as Hf. pose proof area_length as Ha.
  assert (3584 + 512 + 512 <= len (image d)) as Hlen.
  { unfold image, len. rewrite !length_app. lia. }
  assert (forall n, 0 <= n < 4 -> len (sector (slice 0 2048 (image d)) n) = SECTOR_SIZE) as Hs.
  { intros n Hn. unfold sector, SECTOR_SIZE. rewrite slice_length; [lia..|].
    rewrite slice_length; lia. }
  unfold parse_label. apply scan_labels_spec; [done|]. exists 1. split; [unfold LABEL_SCAN_SECTORS; lia|]. split.
  - split; [by apply Hs|]. unfold sector, SECTOR_SIZE. rewrite slice_slice by lia.
    assert (slice (0 + 1 * 512) (0 + (1 * 512 + 512)) (image d) =
      _LABEL_SIGNATURE ++ le_enc 8 1 ++ label_crc d ++ le_enc 4 32 ++ _LABEL_TYPE ++
      slice 0 480 (encode_pv_header (raw_uuid d) (device_size d) [] [area_location (area_size d)] ++ padding d)) as ->.
    { unfold image. rewrite slice_app_r by (unfold len; lia).
      unfold len at 1 2. rewrite Hb. rewrite slice_app_l by (unfold len; lia).
      unfold front, slice. cbn -[take drop encode_label encode_pv_header]. rewrite !drop_0.
      rewrite take_app_ge by (rewrite encode_label_length; lia). rewrite encode_label_length.
      unfold encode_label. by rewrite <- !app_assoc. }
    set (r := slice 0 480 _). unfold parse_label_header.
    assert (len (_LABEL_SIGNATURE ++ le_enc 8 1 ++ label_crc d ++ le_enc 4 32 ++ _LABEL_TYPE ++ r) <? _LABEL_STRUCT_size = false) as ->.
    { apply Z.ltb_ge. unfold len. rewrite !length_app, (crc_field d Hd), !le_enc_length. change (length _LABEL_SIGNATURE) with 8%nat. change (length _LABEL_TYPE) with 8%nat. unfold _LABEL_STRUCT_size. lia. }
    rewrite (field_enc8 _LABEL_SIGNATURE) by (done || lia).
    rewrite (app_assoc _LABEL_SIGNATURE), (app_assoc (_ ++ _)).
    assert (length ((_LABEL_SIGNATURE ++ le_enc 8 1) ++ label_crc d) = 20%nat) as H20
      by by rewrite !length_app, le_enc_length, (crc_field d Hd).
    rewrite field_enc4 by (unfold len; lia).
    rewrite (app_assoc _ (le_enc 4 32)).
    rewrite (slice_app (_ ++ le_enc 4 32) _LABEL_TYPE) by
      (unfold len; rewrite (length_app _ (le_enc 4 32)), le_enc_length, H20; done).
    rewrite <- !app_assoc.
    rewrite (slice_app [] _LABEL_SIGNATURE _ 0 8 eq_refl eq_refl : slice 0 8 (_LABEL_SIGNATURE ++ _) = _). done.
  - intros i Hi. assert (i = 0) as -> by lia. split; [by apply Hs|].
    intros h [_ Hp]. pose proof (boot_no_label d Hd) as Hno.
    assert (sector (slice 0 2048 (image d)) 0 = boot d) as Hs0.
    { unfold sector, SECTOR_SIZE. rewrite slice_slice by lia.
      apply (slice_app [] (boot d)); unfold len; cbn; lia. }
    by rewrite Hs0 in Hp; rewrite Hp in Hno.
Qed.

Lemma image_pv_header :
  parse_pv_header (slice 544 (544 + 1024) (image d)) =
    Ok {| pv_uuid := dashed (raw_uuid d); pvh_device_size_bytes := device_size d;
          data_areas := []; metadata_areas := [area_location (area_size d)] |}.
Proof.
  pose proof (boot_sector d Hd) as Hb. pose proof front_length as Hf.
  assert (slice 544 (544 + 1024) (image d) =
    encode_pv_header (raw_uuid d) (device_size d) [] [area_location (area_size d)] ++ take 936 (padding d)) as ->.
  { unfold image. rewrite slice_app_r by (unfold len; lia).
    rewrite slice_app_l by (unfold len; lia). unfold front.
    rewrite slice_app_r by (unfold len; rewrite encode_label_length; lia).
    unfold len. rewrite Hb, encode_label_length. unfold slice.
    change (Z.to_nat (544 - Z.of_nat 512 - Z.of_nat 32)) with 0%nat. rewrite drop_0.
    change (Z.to_nat _) with 1024%nat.
    rewrite take_app_ge by (rewrite encode_pv_header_length; cbn; lia).
    by rewrite encode_pv_header_length. }
  pose proof (area_range d Hd) as Har. pose proof (device_range d Hd).
  apply parse_pv_header_enc; [apply (uuid_field d Hd)|done|constructor| |done].
  constructor; [|constructor]. unfold loc_ok. cbn -[Z.pow]. unfold len in Har. lia.
Qed.

Lemma image_area :
  parse_mda_header (slice 4096 (4096 + 512) (image d)) =
    Ok {| area_start_bytes := 4096; area_size_bytes := area_size d; locations := [text_location (text d)] |}.
Proof.
  pose proof (boot_sector d Hd) as Hb. pose proof front_length as Hf. pose proof area_length as Ha.
  pose proof (area_range d Hd) as Har. pose proof (text_bytes d Hd) as Hw.
  assert (slice 4096 (4096 + 512) (image d) = area d) as ->.
  { unfold image. rewrite app_assoc. apply slice_app; unfold len; rewrite length_app; lia. }
  unfold len in Har.
  unfold area. rewrite parse_mda_header_enc; [done|lia|lia| |done|cbn; lia].
  constructor; [|constructor]. unfold raw_ok. cbn -[Z.pow]. unfold len.
  split; [lia|]. split; [lia|]. rewrite lvm_crc_raw. by apply raw_algorithm_range.
Qed.

Lemma image_text : slice 4608 (4608 + len (text d)) (image d) = text d.
Proof.
  pose proof (boot_sector d Hd) as Hb. pose proof front_length as Hf. pose proof area_length as Ha.
  unfold image. rewrite app_assoc, (app_assoc (_ ++ _)). apply slice_app; unfold len; rewrite !length_app; lia.
Qed.
End on_disk.

(** The successful run, step by step. *)
Lemma parse_metadata_run read first lbl pvb h dloc mda hdr loc tb txt doc vg pv o1 o2 :
  read 0 2048 = Ok first -> parse_label first = Ok lbl ->
  label_sector lbl * SECTOR_SIZE + pv_header_offset lbl = o1 ->
  read o1 1024 = Ok pvb -> parse_pv_header pvb = Ok h -> head (metadata_areas h) = Some dloc ->
  read (dl_offset_bytes dloc) 512 = Ok mda -> parse_mda_header mda = Ok hdr ->
  area_start_bytes hdr = dl_offset_bytes dloc -> area_size_bytes hdr = dl_size_bytes dloc ->
  select_active_location hdr = Ok loc -> area_start_bytes hdr + rl_offset_bytes loc = o2 ->
  read o2 (rl_size_bytes loc) = Ok tb -> verify_metadata_text_checksum tb (checksum loc) = Ok tt ->
  utf8_decode tb = Some txt -> parse_config_text (rstrip (Z.eqb 0) txt) = Ok doc ->
  build_volume_group doc {| header_offset_bytes := dl_offset_bytes dloc;
    ma_area_size_bytes := area_size_bytes hdr; metadata_text_offset_bytes := o2;
    metadata_text_size_bytes := rl_size_bytes loc |} = Ok vg ->
  find_pv (pv_uuid h) (physical_volumes vg) = Some pv ->
  parse_physical_volume_metadata read = Ok {| physical_volume := pv; volume_group := vg |}.
Proof.
  intros E1 E2 E3 E4 E5 E6 E7 E8 E9 E10 E11 E12 E13 E14 E15 E16 E17 E18.
  unfold parse_physical_volume_metadata, _PV_HEADER_READ_SIZE, MDA_HEADER_SIZE.
  change (SECTOR_SIZE * Z.of_nat LABEL_SCAN_SECTORS) with 2048.
  rewrite E1; cbn [mbind result_bind]. rewrite E2; cbn [mbind result_bind]. rewrite E3, E4; cbn [mbind result_bind].
  rewrite E5; cbn [mbind result_bind]. rewrite E6; cbn [of_option mbind result_bind].
  rewrite E7; cbn [mbind result_bind]. rewrite E8; cbn [mbind result_bind].
  rewrite (proj2 (Z.eqb_eq _ _) E9), (proj2 (Z.eqb_eq _ _) E10); cbn [negb raise_if mbind result_bind].
  rewrite E11; cbn [mbind result_bind]. rewrite E12, E13; cbn [mbind result_bind].
  rewrite E14; cbn [mbind result_bind]. rewrite E15; cbn [of_option mbind result_bind].
  rewrite E16; cbn [mbind result_bind]. rewrite E17; cbn [mbind result_bind]. by rewrite E18.
Qed.

Lemma rstrip_none p s : match last s with Some c => p c = false | None => True end -> rstrip p s = s.
Proof.
  unfold rstrip. destruct s as [|c s _] using rev_ind; [done|]. rewrite last_snoc, rev_unit. cbn.
  intros ->. by rewrite <- rev_unit, rev_involutive.
Qed.

(** * Properties *)

(** C15. Whatever bytes the reader supplies, a volume group that parsing
    returns is well formed (positive sizes in whole sectors; unique names;
    every logical volume a gapless run of positive segments from extent 0, each
    on a declared physical volume), its physical volume is one it declares,
    and that volume's id is the uuid of the header found through the label. *)
Theorem parse_metadata_sound read m :
  parse_physical_volume_metadata read = Ok m ->
  vg_ok (volume_group m) /\ physical_volume m ∈ physical_volumes (volume_group m) /\
  exists first lbl bytes h,
    read 0 2048 = Ok first /\ parse_label first = Ok lbl /\
    read (label_sector lbl * SECTOR_SIZE + pv_header_offset lbl) 1024 = Ok bytes /\
    parse_pv_header bytes = Ok h /\ pv_id (physical_volume m) = pv_uuid h.
Proof.
  unfold parse_physical_volume_metadata. intros (first & H1 & H)%bind_Ok.
  apply bind_Ok in H as (lbl & H2 & H). apply bind_Ok in H as (bytes & H3 & H).
  apply bind_Ok in H as (h & H4 & H).
  repeat match goal with H : mbind _ _ = Ok m |- _ => apply bind_Ok in H as (? & ? & H) end.
  destruct (find_pv _ _) as [pv|] eqn:Ef; [|done]. injection H as <-.
  match goal with H : build_volume_group _ _ = Ok _ |- _ => apply build_volume_group_ok in H as [? _] end.
  2:{ by eapply parse_config_text_wf. }
  apply find_some in Ef as [Hin Hid]. to_prop. cbn. split; [done|]. split.
  - by apply list_elem_of_In.
  - by exists first, lbl, bytes, h.
Qed.

(** C1. End to end: a disk laid out as LVM2 does, whose metadata text is any
    spelling of a document that describes a well-formed volume group one of
    whose physical volumes has the disk's own uuid, parses to that volume
    group. *)
Theorem parse_metadata_complete d doc vg pv :
  disk_ok d -> doc_ok doc -> spells (doc_kinds doc) (text d) ->
  forallb (fun b => b <? 128) (text d) = true -> last (text d) <> Some 0 ->
  describes doc vg -> vg_ok vg -> metadata_area vg = disk_area d ->
  find_pv (dashed (raw_uuid d)) (physical_volumes vg) = Some pv ->
  parse_physical_volume_metadata (image_reader d) = Ok {| physical_volume := pv; volume_group := vg |}.
Proof.
  intros Hd Hdoc Hsp Hascii Hlast Hdesc Hvg Hma Hpv.
  eapply (parse_metadata_run (image_reader d) _ _ _ _ (area_location (area_size d)) _ _ (text_location (text d)) (text d));
    unfold image_reader.
  - reflexivity.
  - by apply image_label.
  - reflexivity.
  - reflexivity.
  - by apply image_pv_header.
  - reflexivity.
  - reflexivity.
  - by apply image_area.
  - reflexivity.
  - reflexivity.
  - unfold select_active_location. cbn [locations area_size_bytes select_location ignored text_location].
    pose proof (area_range d Hd) as [Har _]. by rewrite (proj2 (Z.ltb_ge _ _)).
  - reflexivity.
  - f_equal. by apply image_text.
  - unfold verify_metadata_text_checksum. cbn [text_location checksum]. by rewrite Z.eqb_refl.
  - by apply utf8_decode_ascii.
  - rewrite rstrip_none; [by apply parse_config_text_spelled|].
    destruct (last (text d)); [|done]. apply Z.eqb_neq. congruence.
  - transitivity (build_volume_group doc (metadata_area vg)); [by rewrite Hma|by apply describes_built].
  - done.
Qed.

(** A sample: one physical volume, one logical volume whose two segments are
    recorded out of order. *)
Definition sample_uuid : str := lit "abcdef0123456789ABCDEFGHIJ_KLMNO".
Definition sample_pv : PhysicalVolume :=
  {| pv_name := lit "pv0"; pv_id := dashed sample_uuid; device_size_bytes := 2048 * SECTOR_SIZE;
     pv_extent_size_bytes := 8 * SECTOR_SIZE; pe_start_bytes := 16 * SECTOR_SIZE; pv_extent_count := 9 |}.
Definition sample_segment (start count pe : Z) : LinearSegment :=
  {| start_extent := start; extent_count := count; physical_volume_name := lit "pv0";
     start_physical_extent := pe |}.
Definition sample_lv : LogicalVolume :=
  {| lv_name := lit "root"; lv_id := lit "x1"; segments := [sample_segment 0 2 5; sample_segment 2 3 0] |}.

Definition segment_document (s : LinearSegment) : ConfigValue :=
  CSec [(lit "start_extent", CInt (start_extent s)); (lit "extent_count", CInt (extent_count s));
        (lit "type", CStr (lit "striped")); (lit "stripe_count", CInt 1);
        (lit "stripes", CArr [SStr (physical_volume_name s); SInt (start_physical_extent s)])].
Definition sample_lv_document : ConfigSection :=
  [(lit "id", CStr (lit "x1")); (lit "status", CArr [SStr (lit "READ"); SStr (lit "WRITE")]);
   (lit "segment_count", CInt 2);
   (lit "segment1", segment_document (sample_segment 2 3 0));
   (lit "segment2", segment_document (sample_segment 0 2 5))].
Definition sample_pv_document : ConfigSection :=
  [(lit "id", CStr (dashed sample_uuid)); (lit "dev_size", CInt 2048); (lit "pe_start", CInt 16);
   (lit "pe_count", CInt 9)].
Definition sample_vg_document : ConfigSection :=
  [(lit "id", CStr (lit "v1")); (lit "seqno", CInt 3); (lit "extent_size", CInt 8);
   (lit "physical_volumes", CSec [(lit "pv0", CSec sample_pv_document)]);
   (lit "logical_volumes", CSec [(lit "root", CSec sample_lv_document)])].
Definition sample_document : ConfigSection :=
  [(lit "contents", CStr (lit "Text Format Volume Group")); (lit "vg0", CSec sample_vg_document)].

Definition sample_disk : disk :=
  {| boot := repeat 0 512; label_crc := [1; 2; 3; 4]; raw_uuid := sample_uuid; device_size := 1048576;
     area_size := 1044480; padding := repeat 0 3464; text := print_kinds (doc_kinds sample_document);
     tail_bytes := [] |}.
Definition sample_vg : VolumeGroup :=
  {| vg_name := lit "vg0"; vg_id := lit "v1"; extent_size_bytes := 8 * SECTOR_SIZE;
     physical_volumes := [sample_pv]; logical_volumes := [sample_lv];
     metadata_area := disk_area sample_disk |}.

Lemma sample_disk_ok : disk_ok sample_disk.
Proof.
  constructor; try (apply (bool_decide_unpack _); by vm_compute).
Qed.

Lemma sample_vg_ok : vg_ok sample_vg.
Proof.
  constructor; try done.
  - by exists 8.
  - apply (bool_decide_unpack _); by vm_compute.
  - apply (bool_decide_unpack _); by vm_compute.
  - constructor; [|constructor]. repeat split; try done; [by exists 2048|by exists 16].
  - constructor; [|constructor]. repeat split; try done.
    repeat constructor; try done; by left.
Qed.

Lemma sample_describes : describes sample_document sample_vg.
Proof.
  exists sample_vg_document, 8, [(lit "pv0", CSec sample_pv_document)], [(lit "root", CSec sample_lv_document)].
  refine (conj _ (conj _ (conj _ (conj _ (conj _ (conj _ (conj _ _)))))));
    try (vm_compute; reflexivity).
  - constructor; [|constructor]. split; [done|]. exists sample_pv_document, 2048, 16.
    refine (conj _ (conj _ (conj _ (conj _ (conj _ (conj _ _)))))); vm_compute; reflexivity.
  - constructor; [|constructor]. split; [done|].
    exists sample_lv_document, [sample_segment 2 3 0; sample_segment 0 2 5].
    refine (conj eq_refl (conj _ (conj _ (conj _ (Permutation_swap _ _ _)))));
      [vm_compute; reflexivity..|].
    assert (seqZ 1 (len [sample_segment 2 3 0; sample_segment 0 2 5]) = [1; 2]) as -> by (vm_compute; reflexivity).
    repeat constructor; eexists; (split; [vm_compute; reflexivity|]);
      (refine (conj _ (conj _ (conj _ (conj _ _)))); vm_compute; reflexivity).
Qed.

Lemma parse_metadata_complete_witness :
  parse_physical_volume_metadata (image_reader sample_disk) =
    Ok {| physical_volume := sample_pv; volume_group := sample_vg |}.
Proof.
  apply (parse_metadata_complete sample_disk sample_document sample_vg sample_pv sample_disk_ok).
  - repeat split; apply (bool_decide_unpack _); vm_compute; exact I.
  - apply print_kinds_spells, kind_okb_ok. by vm_compute.
  - by vm_compute.
  - by vm_compute.
  - exact sample_describes.
  - exact sample_vg_ok.
  - done.
  - by vm_compute.
Defined.

Lemma parse_metadata_sound_witness :
  parse_physical_volume_metadata (image_reader sample_disk) =
    Ok {| physical_volume := sample_pv; volume_group := sample_vg |} /\ vg_ok sample_vg.
Proof.
  assert (parse_physical_volume_metadata (image_reader sample_disk) =
    Ok {| physical_volume := sample_pv; volume_group := sample_vg |}) as H by (vm_compute; reflexivity).
  split; [exact H|]. exact (proj1 (parse_metadata_sound _ _ H)).
Defined.

(** For every reader that returns or raises, parsing returns or raises; an
    exception is an [LVMMetadataError], one the reader raised, or one of two
    that the documented hierarchy does not cover, [ValueError] and
    [UnicodeDecodeError]. The last does occur: a label followed by a uuid with
    a byte above 127 raises it. *)
Lemma parse_metadata_exceptions :
  (forall read (raised : lvm_exn -> Prop),
     (forall o s, outcome (fun _ => True) raised (read o s)) ->
     outcome (fun _ => True) (escapes raised) (parse_physical_volume_metadata read)) /\
  (forall raw dev das mas r, length raw = 32%nat -> forallb (fun b => b <? 128) raw = false ->
     parse_pv_header (encode_pv_header raw dev das mas ++ r) = Raise (LvmPy UnicodeDecodeError)).
Proof.
  split.
  - intros read raised Hr. unfold parse_physical_volume_metadata.
    assert (forall o s, outcome (fun _ => True) (escapes raised) (read o s)) as Hr'.
    { intros o s. eapply outcome_mono; [done| |apply Hr]. unfold escapes. auto. }
    apply outcome_bind. eapply outcome_mono; [|done|apply Hr']. intros first _.
    apply outcome_bind. eapply outcome_mono; [|apply invalid_label_escapes|apply scan_labels_outcome].
    intros lbl _. apply outcome_bind. eapply outcome_mono; [|done|apply Hr']. intros bytes _.
    apply outcome_bind. eapply outcome_mono; [|done|apply parse_pv_header_outcome].
    intros h Hne. destruct (metadata_areas h) as [|loc locs] eqn:El; [by destruct (Hne El)|]. cbn [head of_option mbind result_bind].
    apply outcome_bind. eapply outcome_mono; [|done|apply Hr']. intros mda _.
    apply outcome_bind. eapply outcome_mono; [|done|apply parse_mda_header_outcome]. intros hdr _.
    do 2 (apply outcome_bind; eapply outcome_mono; [|done|apply raise_lvm_outcome]; intros _ _).
    apply outcome_bind. eapply outcome_mono; [|done|apply select_location_outcome]. intros act _.
    apply outcome_bind. eapply outcome_mono; [|done|apply Hr']. intros tb _.
    apply outcome_bind. eapply outcome_mono; [|done|apply raise_lvm_outcome]. intros _ _.
    destruct (utf8_decode tb) as [t|]; [|cbn; unfold escapes; auto]. cbn [of_option mbind result_bind].
    apply outcome_bind. eapply outcome_mono; [| |apply parse_config_text_outcome].
    2:{ intros e [->| ->]; unfold escapes; auto. }
    intros doc _. apply outcome_bind. eapply outcome_mono; [|done|apply build_volume_group_outcome].
    intros vg _. destruct (find_pv _ _); [done|by left].
  - intros raw dev das mas r Hl Ha. unfold parse_pv_header, encode_pv_header. rewrite <- !app_assoc.
    set (x := raw ++ _).
    assert (56 <= len x) as Hx.
    { subst x. unfold enc_locs. len_lia. }
    unfold _DISK_LOCN_SIZE. rewrite (proj2 (Z.ltb_ge _ _)) by lia. cbn [raise_if mbind result_bind].
    destruct (field_Some 8 x 32) as [v ->]; [lia..|]. cbn [mbind result_bind].
    assert (slice 0 32 x = raw) as ->.
    { apply (slice_app [] raw); [done|]. unfold len. by rewrite Hl. }
    unfold format_lvm_uuid, decode_ascii. by rewrite Ha.
Qed.

Lemma parse_metadata_exceptions_witness :
  outcome (fun _ => True) (escapes (fun _ => False)) (parse_physical_volume_metadata (image_reader sample_disk)) /\
  parse_pv_header (encode_pv_header (200 :: repeat 65 31) 0 [] [] ++ []) = Raise (LvmPy UnicodeDecodeError).
Proof.
  split.
  - exact (proj1 parse_metadata_exceptions (image_reader sample_disk) (fun _ => False) (fun _ _ => I)).
  - exact (proj2 parse_metadata_exceptions (200 :: repeat 65 31) 0 [] [] [] eq_refl eq_refl).
Defined.

End LvmParser.
