(* ===== verification/LvmReader.v ===== *)
(** disk_images/lvm/reader.py: [LogicalVolumeReader], a logical volume as one
    byte stream over the physical extents of its segments. *)
From S2P Require Import Prelude PyBase LvmModels LvmBinary LvmParser.
Import Str Bytes LvmModels LvmBinary LvmParser.

Module LvmReader.

(** The dict built from a list of named physical volumes: a later volume of
    the same name replaces an earlier one. *)
Definition by_name (pvs : list PhysicalVolume) : list (str * PhysicalVolume) :=
  fold_left (fun d pv => Dict.set (pv_name pv) pv d) pvs [].

Record LogicalVolumeReader := {
  _extent_size_bytes : Z;
  _physical_volumes_by_name : list (str * PhysicalVolume);
  _segments : list LinearSegment;
  _segment_start_bytes : list Z;
  _size_bytes : Z }.

(** One turn of the loop of [__init__]: [segment_start_bytes] and
    [expected_next_extent]. *)
Definition init_step (extent_size : Z) (pvs : list (str * PhysicalVolume)) (st : list Z * Z)
    (segment : LinearSegment) : result LogicalVolumeReadError (list Z * Z) :=
  let (starts, expected) := st in
  let! _ := raise_if (negb (start_extent segment =? expected)) ExtentMapGapError in
  let! _ := raise_if (bool_decide (Dict.get (physical_volume_name segment) pvs = None))
              UnresolvedPhysicalVolumeError in
  Ok (starts ++ [expected * extent_size], expected + extent_count segment).

Definition __init__ (lv : LogicalVolume) (vg : VolumeGroup)
    : result LogicalVolumeReadError LogicalVolumeReader :=
  let extent_size := extent_size_bytes vg in
  let pvs := by_name (physical_volumes vg) in
  let segs := Sort.sort_by start_extent (segments lv) in
  let! (starts, expected_next_extent) := foldM (init_step extent_size pvs) ([], 0) segs in
  Ok {| _extent_size_bytes := extent_size; _physical_volumes_by_name := pvs; _segments := segs;
        _segment_start_bytes := starts; _size_bytes := expected_next_extent * extent_size |}.

Section read.
(** The caller's reader of the physical device. *)
Variable _read_physical : Z -> Z -> result LogicalVolumeReadError (list Z).
Variable self : LogicalVolumeReader.

(** One turn of the loop of [read]: [position] and the chunks so far.  A list
    index of -1 is the last element, as in Python. *)
Definition read_step (end_ : Z) (st : Z * list Z)
    : result LogicalVolumeReadError (Z * list Z + list Z) :=
  let (position, chunks) := st in
  if position <? end_ then
    let n := Sort.bisect_right (_segment_start_bytes self) position in
    let segment_index := match n with O => (length (_segments self) - 1)%nat | S n => n end in
    let! segment := of_option (ReaderPy IndexError) (_segments self !! segment_index) in
    let! segment_start := of_option (ReaderPy IndexError) (_segment_start_bytes self !! segment_index) in
    let segment_size := extent_count segment * _extent_size_bytes self in
    let segment_end := segment_start + segment_size in
    let chunk_end := Z.min end_ segment_end in
    let chunk_size := chunk_end - position in
    let offset_within_segment := position - segment_start in
    let! pv := of_option (ReaderPy KeyError)
                 (Dict.get (physical_volume_name segment) (_physical_volumes_by_name self)) in
    let physical_offset := pe_start_bytes pv + start_physical_extent segment * _extent_size_bytes self
                           + offset_within_segment in
    let! chunk := _read_physical physical_offset chunk_size in
    let! _ := raise_if (negb (len chunk =? chunk_size)) UnderlyingReadError in
    Ok (inl (chunk_end, chunks ++ chunk))
  else Ok (inr chunks).

Definition read (offset size : Z) : result LogicalVolumeReadError (list Z) :=
  let! _ := raise_if (offset <? 0) InvalidReadRequestError in
  let! _ := raise_if (size <? 0) InvalidReadRequestError in
  let end_ := offset + size in
  let! _ := raise_if (_size_bytes self <? end_) InvalidReadRequestError in
  if size =? 0 then Ok []
  else while (S (Z.to_nat size)) (read_step end_) (offset, []).
End read.

(** * The specification: the byte-wise extent map *)

(** The physical address of each byte of a logical volume, segment by
    segment, from the first segment's start. *)
Definition segment_address (pvs : list (str * PhysicalVolume)) (es : Z) (s : LinearSegment) (p : Z) : option Z :=
  match Dict.get (physical_volume_name s) pvs with
  | Some pv => Some (pe_start_bytes pv + start_physical_extent s * es + (p - start_extent s * es))
  | None => None
  end.

(** [covers s p]: segment [s] holds byte [p]. *)
Definition covers (es : Z) (s : LinearSegment) (p : Z) : Prop :=
  start_extent s * es <= p < (start_extent s + extent_count s) * es.

Fixpoint address (pvs : list (str * PhysicalVolume)) (es : Z) (segs : list LinearSegment) (p : Z) : option Z :=
  match segs with
  | [] => None
  | s :: segs' =>
      if (start_extent s * es <=? p) && (p <? (start_extent s + extent_count s) * es)
      then segment_address pvs es s p
      else address pvs es segs' p
  end.

(** What a reader asks of a volume: the promise of the metadata parser, or of
    whoever built the volume by hand. *)
Class ExtentMap (vg : VolumeGroup) (lv : LogicalVolume) : Prop := {
  em_extent : 0 < extent_size_bytes vg;
  em_contiguous : contiguous 0 (Sort.sort_by start_extent (segments lv));
  em_resolved : Forall (fun s => physical_volume_name s ∈ map pv_name (physical_volumes vg)) (segments lv) }.

(** * Construction *)
Lemma by_name_get pvs n d :
  is_Some (Dict.get n (fold_left (fun d pv => Dict.set (pv_name pv) pv d) pvs d)) <->
  n ∈ map pv_name pvs \/ is_Some (Dict.get n d).
Proof.
  revert d. induction pvs as [|pv pvs IH]; intros d; cbn.
  - split; [by right|]. by intros [?%elem_of_nil|?].
  - rewrite IH, Dict.get_set, elem_of_cons. destruct (decide (n = pv_name pv)); naive_solver.
Qed.

Lemma by_name_resolved pvs n : is_Some (Dict.get n (by_name pvs)) <-> n ∈ map pv_name pvs.
Proof.
  unfold by_name. rewrite by_name_get. split; [intros [?|[? H]]; [done|by inversion H]|by left].
Qed.

Lemma init_fold es pvs segs starts e starts' e' :
  foldM (init_step es pvs) (starts, e) segs = Ok (starts', e') ->
  contiguous e segs /\ Forall (fun s => is_Some (Dict.get (physical_volume_name s) pvs)) segs /\
  starts' = starts ++ map (fun s => start_extent s * es) segs /\
  e' = e + fold_right Z.add 0 (map extent_count segs).
Proof.
  revert starts e. induction segs as [|s segs IH]; intros starts e.
  - cbn. intros [= <- <-]. rewrite app_nil_r. repeat split; [constructor|lia].
  - cbn [foldM]. intros ([st1 e1] & H1 & H2)%bind_Ok. unfold init_step in H1. res_inv. to_prop.
    apply IH in H2 as (Hc & Hr & -> & ->). cbn. rewrite <- app_assoc. cbn.
    repeat split; [done|done| |by subst|lia].
    constructor; [by apply not_eq_None_Some|done].
Qed.

Lemma init_fold_run es pvs segs starts e :
  contiguous e segs -> Forall (fun s => is_Some (Dict.get (physical_volume_name s) pvs)) segs ->
  exists r, foldM (init_step es pvs) (starts, e) segs = Ok r.
Proof.
  revert starts e. induction segs as [|s segs IH]; intros starts e Hc Hr; cbn [foldM]; [by eexists|].
  destruct Hc as [Hs Hc]. apply Forall_cons in Hr as [Hr1 Hr]. unfold init_step at 2.
  rewrite (proj2 (Z.eqb_eq _ _) Hs). cbn [negb raise_if mbind result_bind].
  rewrite bool_decide_eq_false_2 by by apply not_eq_None_Some. cbn [raise_if mbind result_bind]. by apply IH.
Qed.

Lemma init_iff lv vg :
  is_ok (__init__ lv vg) = true <->
  contiguous 0 (Sort.sort_by start_extent (segments lv)) /\
  Forall (fun s => physical_volume_name s ∈ map pv_name (physical_volumes vg)) (segments lv).
Proof.
  unfold __init__.
  assert (Forall (fun s => physical_volume_name s ∈ map pv_name (physical_volumes vg)) (segments lv) <->
    Forall (fun s => is_Some (Dict.get (physical_volume_name s) (by_name (physical_volumes vg))))
      (Sort.sort_by start_extent (segments lv))) as ->.
  { rewrite Sort.sort_by_perm. apply Forall_iff. intros s. by rewrite by_name_resolved. }
  split.
  - destruct (foldM _ _ _) as [[st e]|?|] eqn:E; try done. intros _. by apply init_fold in E as (? & ? & _).
  - intros [Hc Hr]. destruct (init_fold_run (extent_size_bytes vg) _ _ [] 0 Hc Hr) as [[st e] ->]. done.
Qed.

(** The invariant of a reader that [__init__] returns. *)
Record reader_ok (r : LogicalVolumeReader) : Prop := {
  ro_extent : 0 < _extent_size_bytes r;
  ro_contiguous : contiguous 0 (_segments r);
  ro_sorted : StronglySorted (Sort.le_key start_extent) (_segments r);
  ro_starts : _segment_start_bytes r = map (fun s => start_extent s * _extent_size_bytes r) (_segments r);
  ro_resolved : Forall (fun s => is_Some (Dict.get (physical_volume_name s) (_physical_volumes_by_name r)))
                  (_segments r);
  ro_size : _size_bytes r = fold_right Z.add 0 (map extent_count (_segments r)) * _extent_size_bytes r }.

Lemma init_reader lv vg r :
  __init__ lv vg = Ok r ->
  _extent_size_bytes r = extent_size_bytes vg /\
  _physical_volumes_by_name r = by_name (physical_volumes vg) /\
  _segments r = Sort.sort_by start_extent (segments lv) /\
  (0 < extent_size_bytes vg -> reader_ok r).
Proof.
  unfold __init__. intros ([st e] & H & [= <-])%bind_Ok. cbn. repeat split; cbn; try done.
  all: apply init_fold in H as (Hc & Hr & Hst & He); try done.
  - apply Sort.sort_by_sorted.
  - by rewrite He.
Qed.

(** * Locating a byte *)
Lemma contiguous_next start segs i s :
  contiguous start segs -> segs !! i = Some s ->
  match segs !! S i with
  | Some s' => start_extent s' = start_extent s + extent_count s
  | None => start + fold_right Z.add 0 (map extent_count segs) = start_extent s + extent_count s
  end.
Proof.
  revert start i. induction segs as [|s0 segs IH]; intros start i; [done|].
  intros [Hs Hc]. destruct i as [|i]; cbn.
  - intros [= <-]. destruct segs as [|s1 segs]; cbn; [lia|]. destruct Hc. lia.
  - intros Hi. specialize (IH _ _ Hc Hi). cbn in IH. destruct (segs !! S i); [done|]. lia.
Qed.

Lemma sorted_lookup segs i j s s' :
  StronglySorted (Sort.le_key start_extent) segs -> (i < j)%nat ->
  segs !! i = Some s -> segs !! j = Some s' -> start_extent s <= start_extent s'.
Proof.
  intros Hs. revert i j. induction Hs as [|x l Hl IH Hx]; intros i j Hij Hi Hj; [done|].
  destruct j as [|j]; [lia|]. destruct i as [|i]; cbn in *.
  - injection Hi as ->. rewrite Forall_lookup in Hx. by eapply Hx.
  - eapply (IH i j); [lia|done|done].
Qed.

Lemma starts_sorted es segs :
  0 < es -> StronglySorted (Sort.le_key start_extent) segs ->
  StronglySorted Z.le (map (fun s => start_extent s * es) segs).
Proof.
  intros He. induction 1 as [|x l Hl IH Hx]; [constructor|]. cbn. constructor; [done|].
  apply Forall_map. eapply Forall_impl; [done|]. unfold Sort.le_key. cbn. nia.
Qed.

(** At most one segment covers a byte: the first one [address] finds. *)
Lemma address_covers pvs es segs start i s p :
  0 < es -> contiguous start segs -> StronglySorted (Sort.le_key start_extent) segs ->
  segs !! i = Some s -> covers es s p -> address pvs es segs p = segment_address pvs es s p.
Proof.
  intros He Hc Hs Hi Hp. revert start i Hc Hi.
  induction Hs as [|x l Hl IH Hx]; intros start i Hc Hi; [done|]. cbn [address].
  unfold covers in Hp. destruct i as [|i]; cbn in Hi.
  - injection Hi as ->. by rewrite (proj2 (Z.leb_le _ _)), (proj2 (Z.ltb_lt _ _)) by lia.
  - destruct Hc as [Hx0 Hc].
    assert (start_extent x + extent_count x <= start_extent s) as Hle.
    { destruct l as [|y l]; [done|]. destruct Hc as [Hy _]. rewrite Hx0, <- Hy.
      destruct i as [|i]; cbn in Hi; [injection Hi as ->; lia|].
      apply (sorted_lookup (y :: l) 0 (S i) y s); [done|lia|done|done]. }
    rewrite (proj2 (Z.ltb_ge p _)), andb_false_r by nia. by eapply IH.
Qed.

(** The binary search lands on the segment that covers the position. *)
Lemma locate r p :
  reader_ok r -> 0 <= p < _size_bytes r ->
  exists i s, Sort.bisect_right (_segment_start_bytes r) p = S i /\ _segments r !! i = Some s /\
    _segment_start_bytes r !! i = Some (start_extent s * _extent_size_bytes r) /\
    covers (_extent_size_bytes r) s p.
Proof.
  intros [He Hc Hs Hst Hr Hsz] Hp. set (es := _extent_size_bytes r) in *.
  destruct (Sort.bisect_right_spec (_segment_start_bytes r) p) as (Hn & Hlo & Hhi).
  { rewrite Hst. by apply starts_sorted. }
  set (n := Sort.bisect_right _ p) in *.
  assert (forall i, _segment_start_bytes r !! i = (fun s => start_extent s * es) <$> (_segments r !! i)) as Hlk.
  { intros i. rewrite Hst. apply list_lookup_fmap. }
  destruct n as [|i].
  - exfalso. destruct (_segments r) as [|s segs] eqn:Eq; [rewrite Hsz in Hp; cbn in Hp; lia|].
    destruct Hc as [Hs0 _]. specialize (Hhi 0%nat (start_extent s * es)).
    rewrite Hlk in Hhi. cbn in Hhi. rewrite Hs0 in Hhi. specialize (Hhi ltac:(lia) eq_refl). lia.
  - destruct (lookup_lt_is_Some_2 (_segments r) i) as [s Hi].
    { rewrite Hst, length_map in Hn. lia. }
    exists i, s. split; [done|]. split; [done|]. split; [by rewrite Hlk, Hi|].
    assert (start_extent s * es <= p) by (apply (Hlo i); [lia|by rewrite Hlk, Hi]).
    split; [done|]. pose proof (contiguous_next _ _ _ _ Hc Hi) as Hnx.
    destruct (_segments r !! S i) as [s'|] eqn:E'.
    + rewrite <- Hnx. apply (Hhi (S i)); [lia|]. by rewrite Hlk, E'.
    + rewrite <- Hnx. lia.
Qed.

(** * Reading *)
Section run.
Context (r : LogicalVolumeReader) (Hr : reader_ok r).
Context (phys : Z -> Z -> result LogicalVolumeReadError (list Z)).
(** What each position's byte must satisfy, and the exceptions allowed. *)
Context (good : Z -> Z -> Prop) (raised : LogicalVolumeReadError -> Prop).

Let addr := address (_physical_volumes_by_name r) (_extent_size_bytes r) (_segments r).

(** A physical read at the address of a position, inside one segment. *)
Definition phys_reads : Prop := forall p n a,
  0 < n -> 0 <= p -> p + n <= _size_bytes r ->
  (forall k, 0 <= k < n -> addr (p + k) = Some (a + k)) ->
  outcome (fun c => if len c =? n then Forall2 good (seqZ p n) c else raised UnderlyingReadError)
    raised (phys a n).

Hypothesis Hphys : phys_reads.

Definition read_inv (offset end_ : Z) (st : Z * list Z) : Prop :=
  offset <= st.1 <= end_ /\ Forall2 good (seqZ offset (st.1 - offset)) st.2.

Lemma read_step_outcome offset end_ st :
  0 <= offset -> end_ <= _size_bytes r -> read_inv offset end_ st ->
  outcome (fun x => match x with
             | inl st' => read_inv offset end_ st' /\
                          (Z.to_nat (end_ - st'.1) < Z.to_nat (end_ - st.1))%nat
             | inr bs => Forall2 good (seqZ offset (end_ - offset)) bs
             end) raised (read_step phys r end_ st).
Proof.
  destruct st as [pos chunks]. intros Ho He [Hp Hg]. cbn in Hp, Hg. unfold read_step.
  destruct (pos <? end_) eqn:Hlt; to_prop.
  2:{ cbn. by replace pos with end_ in Hg by lia. }
  destruct (locate r pos Hr ltac:(lia)) as (i & s & -> & Hs & Hst & Hcov).
  rewrite Hs, Hst. cbn [of_option mbind result_bind].
  pose proof (ro_resolved r Hr) as Hres. rewrite Forall_lookup in Hres.
  destruct (Hres i s Hs) as [pv Hpv]. rewrite Hpv. cbn [of_option mbind result_bind].
  set (es := _extent_size_bytes r) in *.
  set (chunk_end := Z.min end_ _). set (a := pe_start_bytes pv + _ + _).
  assert (0 < chunk_end - pos /\ chunk_end <= end_ /\ chunk_end <= (start_extent s + extent_count s) * es) as (H1 & H2 & H3).
  { unfold covers in Hcov. subst chunk_end. lia. }
  apply outcome_bind. eapply outcome_mono; [|done|apply (Hphys pos (chunk_end - pos) a); [lia..|]].
  2:{ intros k Hk. unfold addr. fold es.
      rewrite (address_covers _ es _ 0 i s); [|apply (ro_extent r Hr)|apply (ro_contiguous r Hr)|apply (ro_sorted r Hr)|done|].
      - unfold segment_address. rewrite Hpv. subst a. f_equal. lia.
      - unfold covers in *. lia. }
  intros c Hc. cbv beta in Hc. destruct (len c =? chunk_end - pos); [|exact Hc]. cbn [negb raise_if mbind result_bind outcome].
  split; [|cbn; lia]. split; [cbn; lia|]. cbn.
  replace (chunk_end - offset) with ((pos - offset) + (chunk_end - pos)) by lia.
  rewrite seqZ_app by lia. apply Forall2_app; [done|].
  by replace (offset + (pos - offset)) with pos by lia.
Qed.

Lemma read_outcome offset size :
  0 <= offset -> 0 <= size -> offset + size <= _size_bytes r ->
  outcome (Forall2 good (seqZ offset size)) raised (read phys r offset size).
Proof.
  intros Ho Hs He. unfold read.
  rewrite !(proj2 (Z.ltb_ge _ _)) by lia. cbn [raise_if mbind result_bind].
  destruct (size =? 0) eqn:E; to_prop; [subst; constructor|].
  apply (while_total (read_inv offset (offset + size)) (fun st => Z.to_nat (offset + size - st.1))).
  - intros st Hst. eapply outcome_mono; [|done|by apply (read_step_outcome offset)].
    intros [st'|bs]; [done|]. by replace (offset + size - offset) with size by lia.
  - split; [cbn; lia|]. cbn. by replace (offset - offset) with 0 by lia; constructor.
  - cbn. lia.
Qed.
End run.

(** * Properties *)

(** Construction succeeds exactly on a volume whose segments, sorted,
    are gapless from extent 0 and name declared physical volumes; every
    logical volume of a well-formed volume group, so every one the metadata
    parser returns, is accepted, with the size its segments add up to. *)
Lemma reader_accepts :
  (forall lv vg, is_ok (__init__ lv vg) = true <->
     contiguous 0 (Sort.sort_by start_extent (segments lv)) /\
     Forall (fun s => physical_volume_name s ∈ map pv_name (physical_volumes vg)) (segments lv)) /\
  (forall lv vg, vg_ok vg -> lv ∈ logical_volumes vg ->
     exists r, __init__ lv vg = Ok r /\ _size_bytes r = lv_extent_count lv * extent_size_bytes vg).
Proof.
  split; [exact init_iff|]. intros lv vg Hvg Hlv.
  destruct (proj1 (Forall_forall _ _) (vg_lvs_ok vg Hvg) lv Hlv) as (Hne & Hc & Hok).
  assert (Sort.sort_by start_extent (segments lv) = segments lv) as Hid.
  { destruct (contiguous_sorted _ _ _ Hc Hok) as [Hs _]. by apply Sort.sort_by_unique. }
  destruct (__init__ lv vg) as [r|e|] eqn:E.
  2,3: exfalso; assert (is_ok (__init__ lv vg) = true) as H; [|by rewrite E in H];
    apply init_iff; rewrite Hid; (split; [done|]);
    eapply Forall_impl; [exact Hok|]; intros s Hs; apply Hs.
  exists r. split; [done|]. destruct (init_reader _ _ _ E) as (Hes' & _ & Hseg & Hrok).
  destruct (vg_extent_size vg Hvg) as (n & Hn & Hes). unfold SECTOR_SIZE in Hes.
  rewrite (ro_size r), Hseg, Hid, Hes' by (apply Hrok; lia). done.
Qed.

Lemma reader_accepts_witness :
  exists r, __init__ sample_lv sample_vg = Ok r /\ _size_bytes r = 5 * 4096.
Proof.
  destruct (proj2 reader_accepts sample_lv sample_vg sample_vg_ok (list_elem_of_here _ _)) as (r & Hi & Hsz).
  exists r. split; [exact Hi|]. rewrite Hsz. reflexivity.
Defined.

Lemma extent_map_reader vg lv :
  ExtentMap vg lv -> exists r, __init__ lv vg = Ok r /\ reader_ok r.
Proof.
  intros [He Hc Hres]. pose proof (proj2 (init_iff lv vg) (conj Hc Hres)) as Hi.
  destruct (__init__ lv vg) as [r|e|] eqn:E; try done. exists r. split; [done|].
  by apply (init_reader lv vg r E).
Qed.

(** C8. Refinement: over any disk, an in-range read returns, byte for byte,
    what the disk holds at the address the extent map gives each position,
    however many segments the range crosses. *)
Theorem read_refines_extent_map (lv : LogicalVolume) (vg : VolumeGroup) (disk : Z -> Z) (offset size : Z) :
  ExtentMap vg lv ->
  exists r, __init__ lv vg = Ok r /\
  (0 <= offset -> 0 <= size -> offset + size <= _size_bytes r ->
   exists bs, read (fun a n => Ok (map disk (seqZ a n))) r offset size = Ok bs /\
   Forall2 (fun p b => exists a,
     address (by_name (physical_volumes vg)) (extent_size_bytes vg)
       (Sort.sort_by start_extent (segments lv)) p = Some a /\ b = disk a)
     (seqZ offset size) bs).
Proof.
  intros H. destruct (extent_map_reader vg lv H) as (r & Hi & Hr). exists r. split; [done|].
  intros Ho Hs He. destruct (init_reader _ _ _ Hi) as (<- & <- & <- & _).
  set (good := fun p b => exists a, address _ _ _ p = Some a /\ b = disk a).
  assert (outcome (Forall2 good (seqZ offset size)) (fun _ => False)
    (read (fun a n => Ok (map disk (seqZ a n))) r offset size)) as Hread.
  { apply read_outcome; try done. intros p n a Hn Hp Hpn Ha. cbn. unfold len.
    rewrite length_map, length_seqZ, Z2Nat.id, Z.eqb_refl by lia. apply Forall2_fmap_r.
    apply Forall2_same_length_lookup. split; [by rewrite !length_seqZ|].
    intros i x y [-> Hlt]%lookup_seqZ [-> _]%lookup_seqZ. eexists. split; [by apply Ha; lia|done]. }
  destruct (read _ _ _ _) as [bs| |]; try done. by exists bs.
Qed.

Lemma read_refines_extent_map_witness :
  exists r, __init__ sample_lv sample_vg = Ok r /\
    exists bs, read (fun a n => Ok (map (fun x => x mod 251) (seqZ a n))) r 8190 5 = Ok bs.
Proof.
  assert (ExtentMap sample_vg sample_lv) as Hem.
  { constructor; [done|by vm_compute|]. repeat constructor; by left. }
  destruct (read_refines_extent_map sample_lv sample_vg (fun x => x mod 251) 8190 5 Hem) as (r & Hi & H).
  exists r. split; [exact Hi|].
  assert (_size_bytes r = 20480) as Hsz by (injection Hi as <-; reflexivity).
  rewrite Hsz in H. destruct (H ltac:(lia) ltac:(lia) ltac:(lia)) as (bs & Hb & _). by exists bs.
Defined.

(** Errors of [read], whatever the physical reader does: a request
    outside the volume raises [InvalidReadRequestError]; any other returns
    exactly [size] bytes, or raises what the physical reader raised, or
    [UnderlyingReadError]; the loop always ends. *)
Lemma read_all_or_error lv vg r phys (raised : LogicalVolumeReadError -> Prop) offset size :
  ExtentMap vg lv -> __init__ lv vg = Ok r ->
  (forall a n, outcome (fun _ => True) raised (phys a n)) ->
  if (offset <? 0) || (size <? 0) || (_size_bytes r <? offset + size)
  then read phys r offset size = Raise InvalidReadRequestError
  else outcome (fun bs => len bs = size) (fun e => e = UnderlyingReadError \/ raised e)
         (read phys r offset size).
Proof.
  intros Hem Hi Hph. destruct (extent_map_reader vg lv Hem) as (r' & Hi' & Hr).
  assert (r' = r) as -> by congruence.
  destruct (_ || _) eqn:E.
  - unfold read. destruct (offset <? 0); [done|]. destruct (size <? 0); [done|].
    cbn in *. by rewrite E.
  - to_prop. eapply (outcome_mono (Forall2 (fun _ _ => True) (seqZ offset size))); [|intros e He; exact He|].
    { intros bs Hb%Forall2_length. rewrite length_seqZ in Hb. unfold len. lia. }
    apply read_outcome; try done. intros p n a Hn Hp Hpn _.
    eapply outcome_mono; [| |apply Hph]; [|auto]. intros c _. cbv beta.
    destruct (len c =? n) eqn:El; [|by left]. to_prop.
    apply Forall2_same_length_lookup. split; [|done]. rewrite length_seqZ. unfold len in El. lia.
Qed.

Lemma read_all_or_error_witness :
  exists r, __init__ sample_lv sample_vg = Ok r /\
    read (fun _ _ => Ok [1]) r (-1) 5 = Raise InvalidReadRequestError.
Proof.
  destruct (__init__ sample_lv sample_vg) as [r|e|] eqn:E; [|vm_compute in E; discriminate E..].
  exists r. split; [reflexivity|].
  assert (ExtentMap sample_vg sample_lv) as Hem.
  { constructor; [done|by vm_compute|]. repeat constructor; by left. }
  exact (read_all_or_error sample_lv sample_vg r (fun _ _ => Ok [1]) (fun _ => False) (-1) 5 Hem E
           (fun _ _ => I)).
Defined.

End LvmReader.
