(* ===== verification/ExtJournal.v ===== *)
(** disk_images/ext_journal.py: the jbd2 journal index (descriptor tags, the
    copies of each block, commit times, directory blocks) and what is rebuilt
    from it (past names, inodes, block maps, file content).  Definitions only;
    the theorems are in ExtScan, ExtDirs and ExtRecover. *)
From S2P Require Import Prelude PyBase.
Import Str Bytes.

Module ExtJournal.

Definition _EXT_MAGIC : Z := 0xEF53.
Definition _JBD2_MAGIC : Z := 0xC03B3998.
Definition _DESCRIPTOR : Z := 1.
Definition _COMMIT : Z := 2.
Definition _SB_V1 : Z := 3.
Definition _SB_V2 : Z := 4.
Definition _FLAG_ESCAPE : Z := 1.
Definition _FLAG_SAME_UUID : Z := 2.
Definition _FLAG_LAST_TAG : Z := 8.
Definition _INCOMPAT_64BIT : Z := 0x2.
Definition _INCOMPAT_CSUM_V2 : Z := 0x8.
Definition _INCOMPAT_CSUM_V3 : Z := 0x10.
Definition _EXTENTS_FL : Z := 0x80000.
Definition _EXTENT_MAGIC : Z := 0xF30A.

Abbreviation res := (result py_exn).

(** [bool(flags & mask)] *)
Definition has (flags mask : Z) : bool := negb (Z.land flags mask =? 0).

(** [struct.unpack_from] of one field. *)
Definition le (n : nat) (d : list Z) (off : Z) : res Z := of_option StructError (u_le n d off).
Definition be (n : nat) (d : list Z) (off : Z) : res Z := of_option StructError (u_be n d off).

(** [divmod]: floored, as Python's. *)
Definition divmod (a b : Z) : res (Z * Z) :=
  if b =? 0 then Raise ZeroDivisionError else Ok (a / b, a mod b).

Record _Copy := { seq : Z; journal_block : Z; escaped : bool }.

(** One directory record kept in the index: [name, inode, file_type, live]. *)
Record dir_entry := { e_name : str; e_inode : Z; e_type : Z; e_live : bool }.

(** One indexed copy of a directory block: [(seq, owner, entries)]. *)
Record dir_copy := { dc_seq : Z; dc_owner : option Z; dc_entries : list dir_entry }.

Abbreviation copies_t := (list (Z * list _Copy)).
Abbreviation times_t := (list (Z * Z)).
Abbreviation dir_copies_t := (list (Z * list dir_copy)).

Record ExtJournal := {
  inode_count : Z;
  block_size : Z;
  first_data_block : Z;
  blocks_per_group : Z;
  inodes_per_group : Z;
  inode_size : Z;
  desc_size : Z;
  journal_inum : Z;
  _jbs : Z;               (** the journal's block size; 0 until it is read *)
  copies : copies_t;
  commit_times : times_t;
  dir_copies : dir_copies_t }.

(** * Directory blocks: functions of the block's bytes *)

Definition dirent_at (max_inode : Z) (data : list Z) (offset : Z) : res (option (Z * Z * str)) :=
  let size := len data in
  let! inode := le 4 data offset in
  let! rec_len := le 2 data (offset + 4) in
  let! name_len := le 1 data (offset + 6) in
  let! file_type := le 1 data (offset + 7) in
  if (inode =? 0) || (max_inode <? inode) || (name_len =? 0) || (7 <? file_type) then Ok None
  else if (rec_len <? 8 + name_len) || negb (rec_len mod 4 =? 0) || (size <? offset + rec_len) then Ok None
  else
    let raw := slice (offset + 8) (offset + 8 + name_len) data in
    if one_of raw 0 || one_of raw (code "/") then Ok None
    else match utf8_decode raw with
    | None => Ok None
    | Some name =>
        if negb (isprintable name) || bool_decide (name = lit ".") || bool_decide (name = lit "..")
        then Ok None
        else Ok (Some (inode, file_type, name))
    end.

(** [range(0, size - 8, 4)] *)
Definition dirent_offsets (size : Z) : list Z :=
  map (Z.mul 4) (seqZ 0 ((size - 8 + 3) / 4)).

Definition dirents (max_inode : Z) (data : list Z) : res (list (Z * Z * str)) :=
  let! found := mapM_py (dirent_at max_inode data) (dirent_offsets (len data)) in
  Ok (omap id found).

Definition looks_like_step (data : list Z) (offset : Z) : res (Z + bool) :=
  let size := len data in
  if offset <? size then
    if size <? offset + 8 then Ok (inr false)
    else
      let! rec_len := le 2 data (offset + 4) in
      let! name_len := le 1 data (offset + 6) in
      if (rec_len <? 8) || negb (rec_len mod 4 =? 0) || (size <? offset + rec_len) || (rec_len <? name_len + 8)
      then Ok (inr false)
      else Ok (inl (offset + rec_len))
  else Ok (inr (offset =? size)).

Definition looks_like_directory_block (data : list Z) : res bool :=
  while (S (length data)) (looks_like_step data) 0.

Definition directory_owner (data : list Z) : res (option Z) :=
  let! inode := le 4 data 0 in
  let! _ := le 2 data 4 in
  let! name_len := le 1 data 6 in
  let! _ := le 1 data 7 in
  if (name_len =? 1) && bool_decide (slice 8 9 data = lit ".") then Ok (Some inode) else Ok None.

(** The set of [(name, inode)] as a list without repetition. *)
Definition live_step (data : list Z) (st : Z * list (str * Z)) : res (Z * list (str * Z) + list (str * Z)) :=
  let (offset, names) := st in
  if offset + 8 <=? len data then
    let! inode := le 4 data offset in
    let! rec_len := le 2 data (offset + 4) in
    let! name_len := le 1 data (offset + 6) in
    let! _ := le 1 data (offset + 7) in
    if rec_len <? 8 then Ok (inr names)
    else
      let names :=
        if negb (inode =? 0) && negb (name_len =? 0) then
          match utf8_decode (slice (offset + 8) (offset + 8 + name_len) data) with
          | Some name => if decide ((name, inode) ∈ names) then names else names ++ [(name, inode)]
          | None => names
          end
        else names in
      Ok (inl (offset + rec_len, names))
  else Ok (inr names).

Definition live_dirents (data : list Z) : res (list (str * Z)) :=
  while (S (length data)) (live_step data) (0, []).

(** * The journal *)

Definition tags_step (descriptor : list Z) (tag_size tail : Z) (st : Z * list (Z * bool))
    : res (Z * list (Z * bool) + list (Z * bool)) :=
  let (offset, tags) := st in
  let limit := len descriptor - tail in
  if offset + tag_size <=? limit then
    let! (low, flags, high) :=
      (if tag_size =? 16 then
         let! low := be 4 descriptor offset in
         let! flags := be 4 descriptor (offset + 4) in
         let! high := be 4 descriptor (offset + 8) in
         Ok (low, flags, high)
       else
         let! low := be 4 descriptor offset in
         let! flags := be 2 descriptor (offset + 6) in
         let! high := if tag_size =? 12 then be 4 descriptor (offset + 8) else Ok 0 in
         Ok (low, flags, high)) in
    let tags := tags ++ [(Z.lor (Z.shiftl high 32) low, has flags _FLAG_ESCAPE)] in
    let offset := offset + tag_size in
    let offset := if has flags _FLAG_SAME_UUID then offset else offset + 16 in
    if has flags _FLAG_LAST_TAG then Ok (inr tags) else Ok (inl (offset, tags))
  else Ok (inr tags).

Definition _tags (descriptor : list Z) (tag_size tail : Z) : res (list (Z * bool)) :=
  while (S (length descriptor)) (tags_step descriptor tag_size tail) (12, []).

(** [copies.setdefault(fs_block, []).append(copy)] *)
Definition add_copy {A} (fs_block : Z) (copy : A) (d : list (Z * list A)) : list (Z * list A) :=
  Dict.set fs_block (default [] (Dict.get fs_block d) ++ [copy]) d.

Definition sort_values {A} (key : A -> Z) (d : list (Z * list A)) : list (Z * list A) :=
  map (fun '(k, v) => (k, Sort.sort_by key v)) d.

(** [struct.pack(">I", _JBD2_MAGIC) + data[4:]] *)
Definition unescape (data : list Z) : list Z := be_enc 4 _JBD2_MAGIC ++ drop 4 data.

Definition tag_size_of (incompat : Z) : Z :=
  if has incompat _INCOMPAT_CSUM_V3 then 16 else if has incompat _INCOMPAT_64BIT then 12 else 8.
Definition tail_of (incompat : Z) : Z :=
  if has incompat (Z.lor _INCOMPAT_CSUM_V2 _INCOMPAT_CSUM_V3) then 4 else 0.

Definition chunk : Z := 1024.

Section journal.
(** [self._journal.read_random(offset, size)] *)
Variable read_random : Z -> Z -> res (list Z).

Definition _journal_read (jbs block count : Z) : res (list Z) :=
  read_random (block * jbs) (count * jbs).

Section scan.
Variables (jbs maxlen tag_size tail : Z).

(** The tags of one descriptor at log block [at_], numbered from 1. *)
Fixpoint add_tags (at_ : Z) (sq : Z) (number : Z) (tags : list (Z * bool)) (cs : copies_t) : copies_t :=
  match tags with
  | [] => cs
  | (fs_block, esc) :: tags' =>
      let jb := at_ + number in
      add_tags at_ sq (number + 1) tags'
        (if jb <? maxlen then add_copy fs_block {| seq := sq; journal_block := jb; escaped := esc |} cs else cs)
  end.

(** One turn of the inner loop of [_scan] at [index] in the chunk read from
    log block [block]; [count] is the chunk's number of blocks. *)
Definition scan_at (data : list Z) (block index : Z) (cs : copies_t) (times : times_t)
    : res (Z * copies_t * times_t) :=
  let position := index * jbs in
  let! magic := be 4 data position in
  let! blocktype := be 4 data (position + 4) in
  let! sq := be 4 data (position + 8) in
  if negb (magic =? _JBD2_MAGIC) then Ok (index + 1, cs, times)
  else if blocktype =? _COMMIT then
    let! seconds := be 8 data (position + 0x30) in
    Ok (index + 1, cs, if negb (seconds =? 0) then Dict.set sq seconds times else times)
  else if negb (blocktype =? _DESCRIPTOR) then Ok (index + 1, cs, times)
  else
    let! tags := _tags (slice position (position + jbs) data) tag_size tail in
    Ok (index + 1 + len tags, add_tags (block + index) sq 1 tags cs, times).

Definition scan_inner (data : list Z) (block count : Z) (st : Z * copies_t * times_t)
    : res (Z * copies_t * times_t + Z * copies_t * times_t) :=
  let '(index, cs, times) := st in
  if index <? count then
    let! st' := scan_at data block index cs times in Ok (inl st')
  else Ok (inr st).

Definition scan_outer (st : Z * copies_t * times_t)
    : res (Z * copies_t * times_t + copies_t * times_t) :=
  let '(block, cs, times) := st in
  if block <? maxlen then
    let count := Z.min chunk (maxlen - block) in
    let! data := _journal_read jbs block count in
    let! (index, cs, times) := while (S (Z.to_nat count)) (scan_inner data block count) (0, cs, times) in
    Ok (inl (block + (if count <? index then index else count), cs, times))
  else Ok (inr (cs, times)).

Definition scan_log (first : Z) (cs : copies_t) (times : times_t) : res (copies_t * times_t) :=
  while (S (Z.to_nat (maxlen - first))) scan_outer (first, cs, times).
End scan.

Definition _scan (jbs maxlen first incompat : Z) : res (copies_t * times_t) :=
  let! (cs, times) := scan_log jbs maxlen (tag_size_of incompat) (tail_of incompat) first [] [] in
  Ok (sort_values seq cs, times).

(** [targets[journal_block] = (fs_block, copy)], in index order. *)
Definition targets (cs : copies_t) : list (Z * (Z * _Copy)) :=
  fold_left (fun t '(fs_block, l) =>
    fold_left (fun t c => Dict.set (journal_block c) (fs_block, c) t) l t) cs [].

Definition index_block (jbs max_inode start : Z) (data : list Z) (ts : list (Z * (Z * _Copy)))
    (dirs : dir_copies_t) (jb : Z) : res dir_copies_t :=
  let! (fs_block, copy) := of_option KeyError (Dict.get jb ts) in
  let raw := slice ((jb - start) * jbs) ((jb - start + 1) * jbs) data in
  let raw := if escaped copy then unescape raw else raw in
  let! skip := if negb (len raw =? jbs) then Ok true
               else let! b := looks_like_directory_block raw in Ok (negb b) in
  if (skip : bool) then Ok dirs
  else
    let! live := live_dirents raw in
    let! ds := dirents max_inode raw in
    let entries := map (fun '(inode, file_type, name) =>
      {| e_name := name; e_inode := inode; e_type := file_type;
         e_live := bool_decide ((name, inode) ∈ live) |}) ds in
    let! owner := directory_owner raw in
    Ok (add_copy fs_block {| dc_seq := seq copy; dc_owner := owner; dc_entries := entries |} dirs).

Definition index_chunk (jbs max_inode maxlen : Z) (ts : list (Z * (Z * _Copy))) (dirs : dir_copies_t) (start : Z)
    : res dir_copies_t :=
  let wanted := filter (fun b => is_Some (Dict.get b ts)) (seqZ start (Z.min (start + chunk) maxlen - start)) in
  match wanted with
  | [] => Ok dirs
  | _ =>
      let! data := _journal_read jbs start (Z.min chunk (maxlen - start)) in
      foldM (index_block jbs max_inode start data ts) dirs wanted
  end.

(** [range(0, maxlen, chunk)] *)
Definition chunk_starts (maxlen : Z) : list Z := map (Z.mul chunk) (seqZ 0 ((maxlen + chunk - 1) / chunk)).

Definition _index_directories (jbs max_inode maxlen : Z) (cs : copies_t) : res dir_copies_t :=
  let! dirs := foldM (index_chunk jbs max_inode maxlen (targets cs)) [] (chunk_starts maxlen) in
  Ok (sort_values dc_seq dirs).

(** [_load_index]; [cache] is what a readable cache file of the current
    version holds, [None] when there is none. *)
Definition _load_index (max_inode : Z) (cache : option (copies_t * times_t * dir_copies_t))
    : res (Z * copies_t * times_t * dir_copies_t) :=
  let! header := read_random 0 1024 in
  let! magic := be 4 header 0 in
  let! blocktype := be 4 header 4 in
  let! _ := be 4 header 8 in
  if negb (magic =? _JBD2_MAGIC) || negb ((blocktype =? _SB_V1) || (blocktype =? _SB_V2)) then Ok (0, [], [], [])
  else
    let! jbs := be 4 header 0xC in
    let! maxlen := be 4 header 0x10 in
    let! first := be 4 header 0x14 in
    let! incompat := if blocktype =? _SB_V2 then be 4 header 0x28 else Ok 0 in
    match cache with
    | Some (cs, times, dirs) => Ok (jbs, cs, times, dirs)
    | None =>
        let! (cs, times) := _scan jbs maxlen first incompat in
        let! dirs := _index_directories jbs max_inode maxlen cs in
        Ok (jbs, cs, times, dirs)
    end.
End journal.

(** What is known of a name a directory held. *)
Record past_name := {
  p_name : str; p_inode : Z; p_kind : string;
  first_seq : option Z; last_seq : option Z; gone_seq : option Z;
  last_seen : option Z; gone_by : option Z }.

Abbreviation found_t := (list ((str * Z) * past_name)).

Record inode_info := {
  mode : Z; uid : Z; gid : Z; i_size : Z; atime : Z; ctime : Z; mtime : Z; crtime : Z; dtime : Z;
  links : Z; flags : Z; i_block : list Z; generation : Z }.

(** Runs of a file: (logical block, physical block, length). *)
Abbreviation runs_t := (list (Z * Z * Z)).

Record recovered := {
  r_info : inode_info; r_runs : runs_t; r_seq : Z; r_committed : option Z;
  r_blocks : Z; r_blocks_reused : Z }.

Section volume.
(** [self._read(offset, size)] on the volume and [read_random] on the file of
    the journal inode. *)
Variable _read : Z -> Z -> res (list Z).
Variable journal_file : Z -> Z -> Z -> res (list Z).

Definition __init__ (cache : option (copies_t * times_t * dir_copies_t)) : res ExtJournal :=
  let! sb := _read 1024 1024 in
  let! _ := raise_if (len sb <? 1024) ValueError in
  let! magic := le 2 sb 0x38 in
  let! _ := raise_if (negb (magic =? _EXT_MAGIC)) ValueError in
  let! icount := le 4 sb 0x0 in
  let! log_block_size := le 4 sb 0x18 in
  let! fdb := le 4 sb 0x14 in
  let! bpg := le 4 sb 0x20 in
  let! ipg := le 4 sb 0x28 in
  let! revision := le 4 sb 0x4C in
  let! isize := if 1 <=? revision then le 2 sb 0x58 else Ok 128 in
  let! incompat := le 4 sb 0x60 in
  let! dsize := if has incompat 0x80 then le 2 sb 0xFE else Ok 32 in
  let dsize := if dsize =? 0 then 32 else dsize in
  let! jinum := le 4 sb 0xE0 in
  let! (jbs, cs, times, dirs) :=
    (if negb (jinum =? 0) then _load_index (journal_file jinum) icount cache else Ok (0, [], [], [])) in
  Ok {| inode_count := icount; block_size := Z.shiftl 1024 log_block_size; first_data_block := fdb;
        blocks_per_group := bpg; inodes_per_group := ipg; inode_size := isize; desc_size := dsize;
        journal_inum := jinum; _jbs := jbs; copies := cs; commit_times := times; dir_copies := dirs |}.

Variable self : ExtJournal.

Definition block (number : Z) : res (list Z) := _read (number * block_size self) (block_size self).

Definition _group_descriptor (group : Z) : res (list Z) :=
  let gdt_block := first_data_block self + 1 in
  let offset := gdt_block * block_size self + group * desc_size self in
  _read offset (desc_size self).

Definition _desc_block (desc : list Z) (lo hi : Z) : res Z :=
  let! value := le 4 desc lo in
  if 64 <=? desc_size self then
    let! high := le 4 desc hi in Ok (Z.lor value (Z.shiftl high 32))
  else Ok value.

Definition inode_location (inode : Z) : res (Z * Z) :=
  let! (group, index) := divmod (inode - 1) (inodes_per_group self) in
  let! desc := _group_descriptor group in
  let! table := _desc_block desc 0x8 0x28 in
  let! (blk, offset) := divmod (index * inode_size self) (block_size self) in
  Ok (table + blk, offset).

Definition block_allocated (number : Z) : res bool :=
  let! (group, index) := divmod (number - first_data_block self) (blocks_per_group self) in
  let! desc := _group_descriptor group in
  let! bm := _desc_block desc 0x0 0x20 in
  let! bitmap := block bm in
  let! byte := of_option IndexError (bitmap !! Z.to_nat (index / 8)) in
  Ok (has byte (Z.shiftl 1 (index mod 8))).

Definition copy_data (copy : _Copy) : res (list Z) :=
  let! data := _journal_read (journal_file (journal_inum self)) (_jbs self) (journal_block copy) 1 in
  Ok (if escaped copy then unescape data else data).

(** The newest copy not after [max_seq]; copies are kept oldest first. *)
Definition newest (max_seq : option Z) (l : list _Copy) : option _Copy :=
  List.find (fun c => match max_seq with None => true | Some m => seq c <=? m end) (rev l).

Definition copies_of (number : Z) : list _Copy := default [] (Dict.get number (copies self)).

Definition block_as_of (number : Z) (max_seq : option Z) : res (list Z) :=
  match newest max_seq (copies_of number) with
  | Some copy => copy_data copy
  | None => block number
  end.

(** * Names a directory held in the past *)
Definition file_type_name (t : Z) : string :=
  if t =? 1 then "file" else if t =? 2 then "dir" else if t =? 7 then "symlink" else "other".

Definition opt_min (o : option Z) (n : Z) : option Z := Some (match o with None => n | Some m => Z.min m n end).
Definition opt_max (o : option Z) (n : Z) : option Z := Some (match o with None => n | Some m => Z.max m n end).

Definition see_entry (sq : Z) (found : found_t) (e : dir_entry) : found_t :=
  let key := (e_name e, e_inode e) in
  let item := default {| p_name := e_name e; p_inode := e_inode e; p_kind := file_type_name (e_type e);
                         first_seq := None; last_seq := None; gone_seq := None;
                         last_seen := None; gone_by := None |} (Dict.get key found) in
  let item := if e_live e then
    {| p_name := p_name item; p_inode := p_inode item; p_kind := p_kind item;
       first_seq := opt_min (first_seq item) sq; last_seq := opt_max (last_seq item) sq;
       gone_seq := gone_seq item; last_seen := last_seen item; gone_by := gone_by item |} else item in
  Dict.set key item found.

Definition live_keys (c : dir_copy) : list (str * Z) :=
  map (fun e => (e_name e, e_inode e)) (List.filter e_live (dc_entries c)).

Definition see_copy (found : found_t) (c : dir_copy) : found_t :=
  fold_left (see_entry (dc_seq c)) (dc_entries c) found.

(** [min(later)] for the copies after [last_seq] that no longer list the key. *)
Definition later_seqs (history : list dir_copy) (key : str * Z) (last : Z) : list Z :=
  map dc_seq (List.filter (fun c => (last <? dc_seq c) && negb (bool_decide (key ∈ live_keys c))) history).

Definition list_min (l : list Z) : option Z :=
  match l with [] => None | x :: l' => Some (fold_left Z.min l' x) end.

Definition mark_gone (history : list dir_copy) (kv : (str * Z) * past_name) : (str * Z) * past_name :=
  let (key, item) := kv in
  match last_seq item with
  | None => (key, item)
  | Some last =>
      match list_min (later_seqs history key last) with
      | None => (key, item)
      | Some m =>
          (key, {| p_name := p_name item; p_inode := p_inode item; p_kind := p_kind item;
                   first_seq := first_seq item; last_seq := last_seq item; gone_seq := Some m;
                   last_seen := last_seen item; gone_by := gone_by item |})
      end
  end.

Definition past_block (found : found_t) (number : Z) : found_t :=
  let history := default [] (Dict.get number (dir_copies self)) in
  map (mark_gone history) (fold_left see_copy history found).

Definition stamp (item : past_name) : past_name :=
  {| p_name := p_name item; p_inode := p_inode item; p_kind := p_kind item;
     first_seq := first_seq item; last_seq := last_seq item; gone_seq := gone_seq item;
     last_seen := last_seq item ≫= fun s => Dict.get s (commit_times self);
     gone_by := match gone_seq item with
                | Some s => if s =? 0 then None else Dict.get s (commit_times self)
                | None => None
                end |}.

Definition past_names (blocks : list Z) : found_t :=
  map (fun '(k, item) => (k, stamp item)) (fold_left past_block blocks []).

Definition journaled_directory_blocks : list (Z * option Z * list dir_entry) :=
  map (fun '(number, cs) =>
         (number,
          match List.find (fun c => bool_decide (is_Some (dc_owner c))) cs with
          | Some c => dc_owner c | None => None end,
          flat_map dc_entries cs)) (dir_copies self).

(** * Inodes *)
Definition _parse_inode (raw : list Z) : res inode_info :=
  let! mode := le 2 raw 0 in
  let! uid := le 2 raw 2 in
  let! size_lo := le 4 raw 4 in
  let! atime := le 4 raw 8 in
  let! ctime := le 4 raw 12 in
  let! mtime := le 4 raw 16 in
  let! dtime := le 4 raw 20 in
  let! gid := le 2 raw 24 in
  let! links := le 2 raw 26 in
  let! flags := le 4 raw 0x20 in
  let! size_hi := le 4 raw 0x6C in
  let! crtime := if 0x94 <=? len raw then le 4 raw 0x90 else Ok 0 in
  let! generation := le 4 raw 0x64 in
  Ok {| mode := mode; uid := uid; gid := gid; i_size := Z.lor size_lo (Z.shiftl size_hi 32);
        atime := atime; ctime := ctime; mtime := mtime; crtime := crtime; dtime := dtime;
        links := links; flags := flags; i_block := slice 0x28 (0x28 + 60) raw; generation := generation |}.

Definition inode_on_disk (inode : Z) : res inode_info :=
  let! (blk, offset) := inode_location inode in
  let! data := block blk in
  _parse_inode (slice offset (offset + inode_size self) data).

(** [struct.unpack(f"<{n}I", d)]: the buffer must be exactly [4 n] bytes. *)
Definition unpack_words (n : Z) (d : list Z) : res (list Z) :=
  if len d =? 4 * n then mapM_py (fun i => le 4 d (4 * i)) (seqZ 0 n) else Raise StructError.

Fixpoint _indirect_runs (level : nat) (pointer logical sq : Z) (runs : runs_t) (per_block : Z)
    : res (Z * runs_t) :=
  match level with
  | O => Ok (logical, runs)   (* never called: levels are 1, 2 and 3 *)
  | S level' =>
      let span := per_block ^ Z.of_nat level in
      if pointer =? 0 then Ok (logical + span, runs)
      else
        let! data := block_as_of pointer (Some sq) in
        let! entries := unpack_words per_block data in
        foldM (fun '(logical, runs) entry =>
          match level' with
          | O => Ok (logical + 1, if entry =? 0 then runs else runs ++ [(logical, entry, 1)])
          | S _ => _indirect_runs level' entry logical sq runs per_block
          end) (logical, runs) entries
  end.

(** [depth_left] is [6 - depth_guard]. *)
Fixpoint _extent_runs (depth_left : nat) (node : list Z) (sq : Z) (runs : runs_t) : res runs_t :=
  let! magic := le 2 node 0 in
  let! entries := le 2 node 2 in
  let! _ := le 2 node 4 in
  let! depth := le 2 node 6 in
  match depth_left with
  | O => Ok runs
  | S depth_left' =>
      if negb (magic =? _EXTENT_MAGIC) then Ok runs
      else
        (fix go (indexes : list Z) (runs : runs_t) : res runs_t :=
           match indexes with
           | [] => Ok runs
           | index :: indexes' =>
               let offset := 12 + index * 12 in
               if len node <? offset + 12 then Ok runs   (* break *)
               else
                 let! runs :=
                   (if depth =? 0 then
                      let! logical := le 4 node offset in
                      let! length := le 2 node (offset + 4) in
                      let! start_hi := le 2 node (offset + 6) in
                      let! start_lo := le 4 node (offset + 8) in
                      let uninitialized := 32768 <? length in
                      let length := if uninitialized then length - 32768 else length in
                      Ok (if uninitialized then runs
                          else runs ++ [(logical, Z.lor (Z.shiftl start_hi 32) start_lo, length)])
                    else
                      let! _ := le 4 node offset in
                      let! leaf_lo := le 4 node (offset + 4) in
                      let! leaf_hi := le 2 node (offset + 8) in
                      let! child := block_as_of (Z.lor (Z.shiftl leaf_hi 32) leaf_lo) (Some sq) in
                      _extent_runs depth_left' child sq runs) in
                 go indexes' runs
           end) (seqZ 0 entries) runs
  end.

Definition direct_step (st : Z * runs_t) (pointer : Z) : Z * runs_t :=
  let (logical, runs) := st in
  (logical + 1, if pointer =? 0 then runs else runs ++ [(logical, pointer, 1)]).

Definition _block_map (info : inode_info) (sq : Z) : res runs_t :=
  if has (flags info) _EXTENTS_FL then _extent_runs 6 (i_block info) sq []
  else
    let! pointers := unpack_words 15 (i_block info) in
    let per_block := block_size self / 4 in
    let st := fold_left direct_step (take 12 pointers) (0, []) in
    let! (_, runs) := foldM (fun '(logical, runs) '(level, pointer) =>
        _indirect_runs level pointer logical sq runs per_block) st
      (combine [1; 2; 3]%nat (drop 12 pointers)) in
    Ok runs.

(** [sum(1 for ... if self.block_allocated(number))] *)
Definition count_reused (runs : runs_t) : res Z :=
  foldM (fun n number => let! a := block_allocated number in Ok (if (a : bool) then n + 1 else n)) 0
    (flat_map (fun '(_, start, length) => seqZ start length) runs).

Definition live_file (info : inode_info) : bool :=
  negb (negb (Z.land (mode info) 0xF000 =? 0x8000) || (links info =? 0) ||
        negb (dtime info =? 0) || (i_size info =? 0)).

(** The loop of [recover] over the copies of the inode's block, newest first. *)
Fixpoint recover_from (l : list _Copy) (offset : Z) (min_seq max_seq gen : option Z) : res (option recovered) :=
  match l with
  | [] => Ok None
  | copy :: l' =>
      if match max_seq with Some m => m <? seq copy | None => false end
      then recover_from l' offset min_seq max_seq gen
      else if match min_seq with Some m => seq copy <? m | None => false end then Ok None
      else
        let! data := copy_data copy in
        let! info := _parse_inode (slice offset (offset + inode_size self) data) in
        if negb (live_file info) then recover_from l' offset min_seq max_seq gen
        else if match gen with Some g => negb (generation info =? g) | None => false end
        then recover_from l' offset min_seq max_seq gen
        else
          let! runs := _block_map info (seq copy) in
          match runs with
          | [] => recover_from l' offset min_seq max_seq gen
          | _ =>
              let blocks := fold_left (fun n '(_, _, length) => n + length) runs 0 in
              let! reused := count_reused runs in
              Ok (Some {| r_info := info; r_runs := runs; r_seq := seq copy;
                          r_committed := Dict.get (seq copy) (commit_times self);
                          r_blocks := blocks; r_blocks_reused := reused |})
          end
  end.

Definition recover (inode : Z) (min_seq max_seq gen : option Z) : res (option recovered) :=
  let! (blk, offset) := inode_location inode in
  recover_from (rev (copies_of blk)) offset min_seq max_seq gen.

(** * Content *)
Definition content_map (runs : runs_t) : list (Z * Z) :=
  fold_left (fun m '(logical, start, length) =>
    fold_left (fun m step => Dict.set (logical + step) (start + step) m) (seqZ 0 length) m) runs [].

(** [while count < chunk_blocks and mapping.get(logical + count) == physical + count] *)
Fixpoint run_count (fuel : nat) (mapping : list (Z * Z)) (chunk_blocks logical physical count : Z) : Z :=
  match fuel with
  | O => count
  | S fuel =>
      if (count <? chunk_blocks) && bool_decide (Dict.get (logical + count) mapping = Some (physical + count))
      then run_count fuel mapping chunk_blocks logical physical (count + 1)
      else count
  end.

Definition content_step (mapping : list (Z * Z)) (chunk_blocks size : Z) (st : Z * Z * list (list Z))
    : res (Z * Z * list (list Z) + list (list Z)) :=
  let '(produced, logical, out) := st in
  if produced <? size then
    let! (count, data) :=
      match Dict.get logical mapping with
      | None => Ok (1, repeat 0 (Z.to_nat (block_size self)))
      | Some physical =>
          let count := run_count (Z.to_nat chunk_blocks) mapping chunk_blocks logical physical 1 in
          let! data := _read (physical * block_size self) (count * block_size self) in
          Ok (count, data)
      end in
    let logical := logical + count in
    let data := take (Z.to_nat (size - produced)) data in
    match data with
    | [] => Ok (inr out)
    | _ => Ok (inl (produced + len data, logical, out ++ [data]))
    end
  else Ok (inr out).

Definition iter_content (r : recovered) (chunk_blocks : Z) : res (list (list Z)) :=
  let size := i_size (r_info r) in
  while (S (Z.to_nat size)) (content_step (content_map (r_runs r)) chunk_blocks size) (0, 0, []).

End volume.
End ExtJournal.
