(* ===== verification/ExtScan.v ===== *)
(** The journal scan of ExtJournal: descriptor tags read back exactly, the
    chunked scan is the block-by-block walk, and the index it leaves. *)
From S2P Require Import Prelude PyBase ExtJournal.
Import Str Bytes ExtJournal.

Module ExtScan.

(** * Fields inside slices *)
Lemma u_be_slice n (d : list Z) a e off :
  0 <= a -> 0 <= off -> off + Z.of_nat n <= e - a -> u_be n (slice a e d) off = u_be n d (a + off).
Proof. intros. unfold u_be. rewrite slice_slice by lia. by replace (a + (off + Z.of_nat n)) with (a + off + Z.of_nat n) by lia. Qed.

Lemma be_total n d off : 0 <= off -> off + Z.of_nat n <= len d -> exists v, be n d off = Ok v.
Proof. intros H1 H2. unfold be. destruct (u_be_Some n d off H1 H2) as [v ->]. by exists v. Qed.

Lemma be_cases n d off : (exists v, be n d off = Ok v) \/ be n d off = Raise StructError.
Proof. unfold be. destruct (u_be n d off) as [v|]; [left; by exists v|by right]. Qed.

Lemma be_enc_field n p v s off :
  off = len p -> 0 <= v < 256 ^ Z.of_nat n -> be n (p ++ be_enc n v ++ s) off = Ok v.
Proof.
  intros Hoff Hv. unfold be. rewrite u_be_app by (done || apply be_enc_length).
  by rewrite be_val_enc.
Qed.

Lemma be_enc_field4 p v s off :
  off = len p -> 0 <= v < 256 ^ 4 -> be 4 (p ++ be_enc 4 v ++ s) off = Ok v.
Proof. apply (be_enc_field 4). Qed.
Lemma be_enc_field2 p v s off :
  off = len p -> 0 <= v < 256 ^ 2 -> be 2 (p ++ be_enc 2 v ++ s) off = Ok v.
Proof. apply (be_enc_field 2). Qed.

Ltac take_be :=
  match goal with
  | |- context [be ?n ?d ?off] =>
      let v := fresh "v" in let E := fresh "E" in
      destruct (be_total n d off) as [v E]; [lia|lia|rewrite E; cbn [mbind result_bind]]
  end.

(** * Descriptor tags *)

(** The three tag formats of jbd2, by size. *)
Definition tag_format (tag_size : Z) : Prop := tag_size = 8 \/ tag_size = 12 \/ tag_size = 16.

Lemma tags_step_outcome d tag_size tail offset tags :
  tag_format tag_size -> 0 <= tail -> 0 <= offset ->
  outcome (fun r => match r with
                    | inl (offset', _) => offset + 8 <= offset' /\ offset < len d
                    | inr _ => True
                    end) (fun _ => False) (tags_step d tag_size tail (offset, tags)).
Proof.
  intros Hf Ht Ho. unfold tags_step. destruct (_ <=? _) eqn:E; [|done]. to_prop.
  destruct Hf as [->|[->| ->]]; cbn [Z.eqb Pos.eqb].
  all: repeat take_be; destruct (has _ _FLAG_SAME_UUID), (has _ _FLAG_LAST_TAG); cbn; lia || done.
Qed.

Lemma tags_outcome d tag_size tail :
  tag_format tag_size -> 0 <= tail ->
  outcome (fun _ => True) (fun _ => False) (_tags d tag_size tail).
Proof.
  intros Hf Ht. unfold _tags.
  apply (while_total (fun '(off, _) => 12 <= off) (fun '(off, _) => Z.to_nat (len d - off))); [|lia|unfold len; lia].
  intros [off tags] Hoff.
  eapply outcome_mono; [| |by apply tags_step_outcome; [..|lia]]; [|done].
  intros [[off' tags']|tags']; [|done]. intros [? ?]. lia.
Qed.

(** A tag as the journal writes it: block number, flags, checksum, and a
    16-byte uuid unless the flags say it is the same. *)
Record tag := { t_block : Z; t_flags : Z; t_csum : Z; t_uuid : list Z }.

Definition encode_tag (tag_size : Z) (t : tag) : list Z :=
  (if tag_size =? 16 then
     be_enc 4 (t_block t mod 2 ^ 32) ++ be_enc 4 (t_flags t) ++ be_enc 4 (t_block t / 2 ^ 32) ++ be_enc 4 (t_csum t)
   else if tag_size =? 12 then
     be_enc 4 (t_block t mod 2 ^ 32) ++ be_enc 2 (t_csum t) ++ be_enc 2 (t_flags t) ++ be_enc 4 (t_block t / 2 ^ 32)
   else be_enc 4 (t_block t mod 2 ^ 32) ++ be_enc 2 (t_csum t) ++ be_enc 2 (t_flags t)) ++
  t_uuid t.

Definition tag_ok (tag_size : Z) (t : tag) : Prop :=
  0 <= t_block t < (if tag_size =? 8 then 2 ^ 32 else 2 ^ 64) /\ 0 <= t_flags t < 2 ^ 16 /\
  length (t_uuid t) = (if has (t_flags t) _FLAG_SAME_UUID then 0 else 16)%nat.

(** Only the last tag carries the last-tag flag. *)
Fixpoint tags_ok (tag_size : Z) (ts : list tag) : Prop :=
  match ts with
  | [] => False
  | [t] => tag_ok tag_size t /\ has (t_flags t) _FLAG_LAST_TAG = true
  | t :: ts' => tag_ok tag_size t /\ has (t_flags t) _FLAG_LAST_TAG = false /\ tags_ok tag_size ts'
  end.

Definition read_tag (t : tag) : Z * bool := (t_block t, has (t_flags t) _FLAG_ESCAPE).

Lemma encode_tag_length tag_size t :
  tag_format tag_size -> tag_ok tag_size t ->
  len (encode_tag tag_size t) = tag_size + (if has (t_flags t) _FLAG_SAME_UUID then 0 else 16).
Proof.
  intros Hf (_ & _ & Hu). unfold encode_tag, len.
  destruct Hf as [->|[->| ->]]; cbn [Z.eqb Pos.eqb]; rewrite !length_app, !be_enc_length, Hu;
    by destruct (has _ _).
Qed.

Lemma split_block b : 0 <= b -> Z.lor (Z.shiftl (b / 2 ^ 32) 32) (b mod 2 ^ 32) = b.
Proof.
  intros Hb. rewrite Z.shiftl_mul_pow2 by lia. rewrite Z.lor_comm.
  pose proof (Z.add_lor_land (b mod 2 ^ 32) (b / 2 ^ 32 * 2 ^ 32)) as Hsum.
  assert (Z.land (b mod 2 ^ 32) (b / 2 ^ 32 * 2 ^ 32) = 0) as Hland.
  { apply Z.bits_inj. intros i. rewrite Z.land_spec, Z.bits_0.
    destruct (decide (i < 0)); [by rewrite Z.testbit_neg_r by lia|].
    destruct (decide (i < 32)).
    - by rewrite Z.mul_pow2_bits_low, andb_false_r by lia.
    - by rewrite Z.mod_pow2_bits_high by lia. }
  pose proof (Z.div_mod b (2 ^ 32)). lia.
Qed.

Lemma tags_step_encoded p t s tag_size tail acc :
  tag_format tag_size -> tag_ok tag_size t -> tail <= len s ->
  tags_step (p ++ encode_tag tag_size t ++ s) tag_size tail (len p, acc) =
    Ok (if has (t_flags t) _FLAG_LAST_TAG then inr (acc ++ [read_tag t])
        else inl (len (p ++ encode_tag tag_size t), acc ++ [read_tag t])).
Proof.
  intros Hf Hok Htail. pose proof (encode_tag_length _ _ Hf Hok) as Hlen.
  destruct Hok as (Hb & Hfl & Hu). set (d := p ++ _).
  assert (len d = len p + len (encode_tag tag_size t) + len s) as Hd by (subst d; unfold len; rewrite !length_app; lia).
  unfold tags_step. rewrite (proj2 (Z.leb_le _ _)) by (destruct (has (t_flags t) _FLAG_SAME_UUID); lia).
  assert (len (p ++ encode_tag tag_size t) =
    (if has (t_flags t) _FLAG_SAME_UUID then len p + tag_size else len p + tag_size + 16)) as ->.
  { unfold len in *. rewrite length_app, Nat2Z.inj_add, Hlen. destruct (has _ _); lia. }
  unfold read_tag.
  assert (0 <= t_block t mod 2 ^ 32 < 256 ^ 4) as Hlo by (apply Z.mod_pos_bound; lia).
  assert (0 <= t_flags t < 256 ^ 4 /\ 0 <= t_flags t < 256 ^ 2) as [Hf4 Hf2] by lia.
  destruct Hf as [->|[->| ->]]; cbn [Z.eqb Pos.eqb] in *; subst d; unfold encode_tag; cbn [Z.eqb Pos.eqb];
    rewrite <- !app_assoc.
  - rewrite (be_enc_field4 p _ _ (len p)) by done. cbn [mbind result_bind].
    rewrite (app_assoc p), (app_assoc (_ ++ _)).
    rewrite be_enc_field2 by (first [done|unfold len; rewrite !length_app, !be_enc_length; lia]).
    cbn [mbind result_bind]. rewrite Z.shiftl_0_l, Z.lor_0_l, Z.mod_small by done.
    by destruct (has _ _FLAG_LAST_TAG).
  - assert (0 <= t_block t / 2 ^ 32 < 256 ^ 4) as Hhi.
    { split; [apply Z.div_pos; lia|apply Z.div_lt_upper_bound; lia]. }
    rewrite (be_enc_field4 p _ _ (len p)) by done. cbn [mbind result_bind].
    rewrite (app_assoc p), (app_assoc (_ ++ _)).
    rewrite be_enc_field2 by (first [done|unfold len; rewrite !length_app, !be_enc_length; lia]).
    cbn [mbind result_bind]. rewrite (app_assoc _ (be_enc 2 (t_flags t))).
    rewrite be_enc_field4 by (first [done|unfold len; rewrite !length_app, !be_enc_length; lia]).
    cbn [mbind result_bind]. rewrite split_block by lia. by destruct (has _ _FLAG_LAST_TAG).
  - assert (0 <= t_block t / 2 ^ 32 < 256 ^ 4) as Hhi.
    { split; [apply Z.div_pos; lia|apply Z.div_lt_upper_bound; lia]. }
    rewrite (be_enc_field4 p _ _ (len p)) by done. cbn [mbind result_bind].
    rewrite (app_assoc p).
    rewrite (be_enc_field4 _ _ _ (len p + 4)) by (first [done|unfold len; rewrite !length_app, !be_enc_length; lia]).
    cbn [mbind result_bind]. rewrite (app_assoc _ (be_enc 4 (t_flags t))).
    rewrite be_enc_field4 by (first [done|unfold len; rewrite !length_app, !be_enc_length; lia]).
    cbn [mbind result_bind]. rewrite split_block by lia. by destruct (has _ _FLAG_LAST_TAG).
Qed.

Lemma tags_encoded p ts s tag_size tail fuel acc :
  tag_format tag_size -> tags_ok tag_size ts -> tail <= len s -> (length ts <= fuel)%nat ->
  while fuel (tags_step (p ++ flat_map (encode_tag tag_size) ts ++ s) tag_size tail) (len p, acc) =
    Ok (acc ++ map read_tag ts).
Proof.
  intros Hf. revert p fuel acc. induction ts as [|t ts IH]; intros p fuel acc Hok Hs Hfuel; [done|].
  destruct fuel as [|fuel]; [cbn in Hfuel; lia|]. rewrite while_unfold. cbn [flat_map]. rewrite <- app_assoc.
  assert (tag_ok tag_size t) as Ht by (destruct ts; apply Hok).
  assert (tail <= len (flat_map (encode_tag tag_size) ts ++ s)) as Hs' by (unfold len in *; rewrite length_app; lia).
  rewrite tags_step_encoded by done. destruct ts as [|t' ts].
  - destruct Hok as [_ ->]. done.
  - destruct Hok as (_ & -> & Hok). rewrite (app_assoc p), IH; [|done|done|cbn in *; lia].
    by rewrite <- app_assoc.
Qed.

Lemma encode_tags_length tag_size ts :
  tag_format tag_size -> tags_ok tag_size ts -> 8 * len ts <= len (flat_map (encode_tag tag_size) ts).
Proof.
  intros Hf. induction ts as [|t ts IH]; [done|]. intros Hok.
  assert (tag_ok tag_size t) as Ht by (destruct ts; apply Hok).
  pose proof (encode_tag_length _ _ Hf Ht) as Hl.
  assert (8 <= len (encode_tag tag_size t)).
  { destruct Hf as [->|[->| ->]]; destruct (has _ _); lia. }
  destruct ts as [|t' ts]; [unfold len in *; cbn [flat_map length]; rewrite app_nil_r; lia|].
  destruct Hok as (_ & _ & Hok). specialize (IH Hok). cbn [flat_map] in *. unfold len in *.
  rewrite length_app. cbn [length] in *. lia.
Qed.

(** * The scan *)

(** The walk the scan stands for: one block at a time, past each descriptor
    and the blocks its tags describe. *)
Section walk.
Context (read_random : Z -> Z -> res (list Z)) (jbs maxlen tag_size tail : Z).

Definition walk_step (st : Z * copies_t * times_t) : res (Z * copies_t * times_t + copies_t * times_t) :=
  let '(block, cs, times) := st in
  if block <? maxlen then
    let! data := _journal_read read_random jbs block 1 in
    let! (n, cs, times) := scan_at jbs maxlen tag_size tail data block 0 cs times in
    Ok (inl (block + n, cs, times))
  else Ok (inr (cs, times)).

Definition walk (block : Z) (cs : copies_t) (times : times_t) : res (copies_t * times_t) :=
  while (S (Z.to_nat (maxlen - block))) walk_step (block, cs, times).
End walk.

Section scan_proofs.
Context (log : list Z) (jbs maxlen tag_size tail : Z).
Context (Hjbs : 64 <= jbs) (Hlog : maxlen * jbs <= len log).
Context (Hf : tag_format tag_size) (Ht : 0 <= tail).

Let rr (o n : Z) : res (list Z) := Ok (slice o (o + n) log).
Let W := walk rr jbs maxlen tag_size tail.
Let block_bytes (b : Z) : list Z := slice (b * jbs) (b * jbs + 1 * jbs) log.

Lemma scan_at_progress data block index cs times :
  outcome (fun '(n, _, _) => index + 1 <= n) (fun _ => True) (scan_at jbs maxlen tag_size tail data block index cs times).
Proof.
  unfold scan_at.
  do 3 (match goal with |- context [be 4 data ?o] => destruct (be_cases 4 data o) as [[? ->]| ->]; [|done] end;
        cbn [mbind result_bind]).
  destruct (negb _); [cbn; lia|]. destruct (_ =? _COMMIT).
  { destruct (be_cases 8 data (index * jbs + 0x30)) as [[? ->]| ->]; [cbn; lia|done]. }
  destruct (negb _); [cbn; lia|]. apply outcome_bind.
  eapply outcome_mono; [| |by apply tags_outcome]; [|done].
  intros tags _. cbn. unfold len. lia.
Qed.

(** Scanning a block inside a larger chunk is scanning it alone. *)
Lemma scan_at_chunk block count index cs times :
  0 <= block -> 0 <= index < count -> block + count <= maxlen ->
  scan_at jbs maxlen tag_size tail (slice (block * jbs) (block * jbs + count * jbs) log) block index cs times =
  let! (n, cs, times) := scan_at jbs maxlen tag_size tail (block_bytes (block + index)) (block + index) 0 cs times in
  Ok (index + n, cs, times).
Proof.
  intros Hb Hi Hc. unfold scan_at, block_bytes. set (D := slice (block * jbs) _ log). set (B := slice ((block + index) * jbs) _ log).
  assert (forall n off, 0 <= off -> off + Z.of_nat n <= jbs -> be n D (index * jbs + off) = be n B off) as Hbe.
  { intros n off H0 H1. unfold be, D, B. rewrite !u_be_slice by nia. do 2 f_equal. lia. }
  assert (slice (index * jbs) (index * jbs + jbs) D = slice 0 jbs B) as Hsl.
  { unfold D, B. rewrite !slice_slice by nia. f_equal; lia. }
  rewrite Z.mul_0_l, !Z.add_0_l, !Z.add_0_r, Hsl.
  rewrite !Hbe by lia. rewrite <- (Z.add_0_r (index * jbs)) at 1. rewrite Hbe by lia.
  do 3 (match goal with |- context [be 4 B ?o] => destruct (be 4 B o); cbn [mbind result_bind]; [|done..] end).
  repeat match goal with |- context [if ?b then _ else _] => destruct b; cbn [mbind result_bind]; try done end.
  - by destruct (be 8 B 0x30).
  - destruct (_tags _ _ _); cbn; [|done..]. do 3 f_equal. lia.
Qed.

Lemma walk_unfold block cs times :
  W block cs times =
  if block <? maxlen then
    let! (n, cs, times) := scan_at jbs maxlen tag_size tail (block_bytes block) block 0 cs times in W (block + n) cs times
  else Ok (cs, times).
Proof.
  unfold W, walk at 1. rewrite while_unfold. unfold walk_step at 1. destruct (Z.ltb_spec block maxlen) as [Hlt|]; [|done].
  unfold _journal_read, rr at 1. cbn [mbind result_bind]. fold (block_bytes block).
  pose proof (scan_at_progress (block_bytes block) block 0 cs times) as Hp.
  destruct (scan_at _ _ _ _ _ _ _ _ _) as [[[n cs'] times']|e|]; [|done..]. cbn [mbind result_bind outcome] in *.
  set (st := (block + n, cs', times')).
  apply (while_fuel_mono _ (S (Z.to_nat (maxlen - (block + n))))); [done| |lia].
  assert (outcome (fun _ => True) (fun _ => True)
    (while (S (Z.to_nat (maxlen - (block + n)))) (walk_step rr jbs maxlen tag_size tail) st)) as Ho.
  { apply (while_total (fun _ => True) (fun '(b, _, _) => Z.to_nat (maxlen - b))); [|done|cbn; lia].
    intros [[b c] t] _. unfold walk_step. destruct (Z.ltb_spec b maxlen); [|done].
    unfold _journal_read, rr. cbn [mbind result_bind]. apply outcome_bind.
    eapply outcome_mono; [| |apply scan_at_progress]; [|done]. intros [[m c'] t'] Hm. cbn. split; [done|]. lia. }
  unfold walk. subst st. intros Hbad. by rewrite Hbad in Ho.
Qed.

(** The inner loop, then the walk from where it stopped, is the walk. *)
Lemma scan_inner_walk block count fuel index cs times :
  0 <= block -> block + count <= maxlen -> 0 <= index -> (Z.to_nat (count - index) < fuel)%nat ->
  (let! (i, cs, times) := while fuel (scan_inner jbs maxlen tag_size tail
      (slice (block * jbs) (block * jbs + count * jbs) log) block count) (index, cs, times) in W (block + i) cs times)
  = W (block + index) cs times /\
  outcome (fun '(i, _, _) => count <= i) (fun _ => True) (while fuel (scan_inner jbs maxlen tag_size tail
      (slice (block * jbs) (block * jbs + count * jbs) log) block count) (index, cs, times)).
Proof.
  intros Hb Hc. revert index cs times. induction fuel as [|fuel IH]; intros index cs times Hi Hfuel; [lia|].
  rewrite while_unfold. unfold scan_inner at 1 3. destruct (Z.ltb_spec index count) as [Hlt|Hge].
  2:{ cbn. split; [done|lia]. }
  rewrite scan_at_chunk by lia. rewrite walk_unfold, (proj2 (Z.ltb_lt _ _)) by lia.
  pose proof (scan_at_progress (block_bytes (block + index)) (block + index) 0 cs times) as Hp.
  destruct (scan_at _ _ _ _ _ _ _ _ _) as [[[n cs'] times']|e|]; [|done..]. cbn [mbind result_bind outcome] in *.
  rewrite <- Z.add_assoc. apply IH; lia.
Qed.

Lemma scan_log_walk fuel block cs times :
  0 <= block -> (Z.to_nat (maxlen - block) < fuel)%nat ->
  while fuel (scan_outer rr jbs maxlen tag_size tail) (block, cs, times) = W block cs times.
Proof.
  revert block cs times. induction fuel as [|fuel IH]; intros block cs times Hb Hfuel; [lia|].
  rewrite while_unfold. unfold scan_outer at 1. destruct (Z.ltb_spec block maxlen) as [Hlt|Hge].
  2:{ by rewrite walk_unfold, (proj2 (Z.ltb_ge _ _)) by lia. }
  set (count := Z.min chunk (maxlen - block)).
  assert (1 <= count <= maxlen - block) as Hcount by (unfold count, chunk; lia).
  unfold _journal_read, rr at 1. cbn [mbind result_bind].
  destruct (scan_inner_walk block count (S (Z.to_nat count)) 0 cs times) as [Hw Ho]; [lia..|].
  rewrite Z.add_0_r in Hw. rewrite <- Hw.
  destruct (while _ _ _) as [[[i cs'] times']|e|]; [|done..]. cbn [mbind result_bind outcome] in *.
  assert ((if count <? i then i else count) = i) as ->.
  { destruct (Z.ltb_spec count i); lia. }
  apply IH; lia.
Qed.
End scan_proofs.

(** * The index *)
Section index.
Context (read_random : Z -> Z -> res (list Z)) (raised : py_exn -> Prop).
Hypothesis Hrr : forall o n, outcome (fun _ => True) raised (read_random o n).
Hypothesis Hstruct : raised StructError.
Context (jbs maxlen first : Z).

(** Every copy lies inside the log, and no block is listed twice. *)
Definition index_ok (cs : copies_t) : Prop :=
  NoDup (Dict.keys cs) /\
  Forall (fun kv => Forall (fun c => first < journal_block c < maxlen) kv.2) cs.

Lemma add_copy_ok b c cs :
  index_ok cs -> first < journal_block c < maxlen -> index_ok (add_copy b c cs).
Proof.
  intros [Hn Hf] Hc. unfold add_copy. split; [by apply Dict.set_nodup|].
  apply Forall_forall. intros [k l] [[-> ->]|Hin]%Dict.elem_set; cbn.
  - apply Forall_app. split; [|by constructor; [|constructor]].
    destruct (Dict.get b cs) as [l|] eqn:E; [|constructor]. apply Dict.get_elem in E.
    by apply (proj1 (Forall_forall _ _) Hf (b, l)).
  - by apply (proj1 (Forall_forall _ _) Hf (k, l)).
Qed.

Lemma add_tags_ok at_ sq number tags cs :
  index_ok cs -> first <= at_ -> 1 <= number -> index_ok (add_tags maxlen at_ sq number tags cs).
Proof.
  revert number cs. induction tags as [|[b esc] tags IH]; intros number cs Hcs Hat Hn; [done|].
  cbn [add_tags]. apply IH; [|done|lia]. destruct (Z.ltb_spec (at_ + number) maxlen); [|done].
  apply add_copy_ok; [done|]. cbn. lia.
Qed.

Lemma scan_at_ok tag_size tail data block index cs times :
  tag_format tag_size -> 0 <= tail -> index_ok cs -> first <= block + index ->
  outcome (fun '(n, cs', _) => index + 1 <= n /\ index_ok cs') raised
    (scan_at jbs maxlen tag_size tail data block index cs times).
Proof.
  intros Hf Ht Hcs Hb. unfold scan_at.
  do 3 (match goal with |- context [be 4 data ?o] => destruct (be_cases 4 data o) as [[? ->]| ->]; [|done] end;
        cbn [mbind result_bind]).
  destruct (negb _); [cbn; split; [lia|done]|]. destruct (_ =? _COMMIT).
  { destruct (be_cases 8 data (index * jbs + 0x30)) as [[? ->]| ->]; [cbn; split; [lia|done]|done]. }
  destruct (negb _); [cbn; split; [lia|done]|]. apply outcome_bind.
  eapply outcome_mono; [| |by apply tags_outcome]; [|done].
  intros tags _. cbn. split; [unfold len; lia|]. by apply add_tags_ok.
Qed.

Lemma scan_log_ok tag_size tail :
  tag_format tag_size -> 0 <= tail ->
  outcome (fun '(cs, _) => index_ok cs) raised (scan_log read_random jbs maxlen tag_size tail first [] []).
Proof.
  intros Hf Ht. unfold scan_log.
  apply (while_total (fun '(b, cs, _) => first <= b /\ index_ok cs) (fun '(b, _, _) => Z.to_nat (maxlen - b)));
    [|split; [done|split; constructor]|lia].
  intros [[b cs] times] [Hb Hcs]. unfold scan_outer. destruct (Z.ltb_spec b maxlen); [|done].
  set (count := Z.min chunk (maxlen - b)). assert (1 <= count) by (unfold count, chunk; lia).
  apply outcome_bind. eapply outcome_mono; [|done|apply Hrr]. intros data _.
  apply outcome_bind. eapply outcome_mono; [|done|].
  2:{ apply (while_total (fun '(i, cs, _) => 0 <= i /\ index_ok cs) (fun '(i, _, _) => Z.to_nat (count - i))
        (fun '(i, cs, _) => count <= i /\ index_ok cs)); [|done|lia].
      intros [[i cs1] times1] [Hi Hcs1]. unfold scan_inner. destruct (Z.ltb_spec i count); [|done].
      apply outcome_bind. eapply outcome_mono; [|done|by apply (scan_at_ok _ _ _ _ _ _ _ Hf Ht); [|lia]].
      intros [[n cs2] times2] [? ?]. cbn. split; [split; [lia|done]|lia]. }
  intros [[i cs1] times1] [Hi Hcs1]. cbn. destruct (Z.ltb_spec count i); (split; [split; [lia|done]|lia]).
Qed.
End index.

Lemma tag_format_of incompat : tag_format (tag_size_of incompat).
Proof. unfold tag_format, tag_size_of. repeat (destruct (has _ _); auto). Qed.

(** * Properties *)

(** Round trip of a descriptor block: in each of jbd2's three tag formats,
    with or without per-tag uuids and a checksum tail, the tags written are
    the tags read, block numbers up to 64 bits and escape flags included. *)
Lemma tags_roundtrip header ts padding tag_size tail :
  tag_format tag_size -> length header = 12%nat -> tags_ok tag_size ts -> tail <= len padding ->
  _tags (header ++ flat_map (encode_tag tag_size) ts ++ padding) tag_size tail = Ok (map read_tag ts).
Proof.
  intros Hf Hh Hok Htail. unfold _tags. replace 12 with (len header) by (unfold len; lia).
  apply tags_encoded; try done.
  pose proof (encode_tags_length _ _ Hf Hok). unfold len in *. rewrite !length_app. lia.
Qed.

Lemma tags_roundtrip_witness :
  _tags (repeat 7 12 ++ flat_map (encode_tag 12)
           [{| t_block := 2 ^ 40 + 5; t_flags := 1; t_csum := 3; t_uuid := repeat 9 16 |};
            {| t_block := 30; t_flags := 10; t_csum := 4; t_uuid := [] |}] ++ repeat 0 8) 12 4 =
    Ok [(2 ^ 40 + 5, true); (30, false)].
Proof.
  apply (tags_roundtrip (repeat 7 12)
    [{| t_block := 2 ^ 40 + 5; t_flags := 1; t_csum := 3; t_uuid := repeat 9 16 |};
     {| t_block := 30; t_flags := 10; t_csum := 4; t_uuid := [] |}] (repeat 0 8) 12 4);
    [right; by left|done| |by vm_compute].
  repeat split; by vm_compute.
Defined.

(** C10. The scan's 1024-block chunks are invisible: over a journal at least as
    long as it claims, reading by chunks gives exactly the index and commit
    times of the walk that reads one block at a time and skips past the blocks
    each descriptor describes, errors included. *)
Theorem scan_is_walk (log : list Z) jbs maxlen first incompat :
  64 <= jbs -> maxlen * jbs <= len log -> 0 <= first ->
  _scan (fun o n => Ok (slice o (o + n) log)) jbs maxlen first incompat =
  let! (cs, times) := walk (fun o n => Ok (slice o (o + n) log)) jbs maxlen (tag_size_of incompat)
                        (tail_of incompat) first [] [] in
  Ok (sort_values seq cs, times).
Proof.
  intros Hj Hlog Hfirst. unfold _scan, scan_log.
  rewrite (scan_log_walk log jbs maxlen); try done; [apply tag_format_of| |lia].
  unfold tail_of. by destruct (has _ _).
Qed.

(** A journal of 1100 blocks of 64 bytes: descriptor with two tags, two
    copies, a commit, zeros up to block 1023, a descriptor that ends the first
    chunk, its copy and commit in the second. *)
Definition sample_descriptor (sq : Z) (ts : list tag) : list Z :=
  be_enc 4 _JBD2_MAGIC ++ be_enc 4 _DESCRIPTOR ++ be_enc 4 sq ++ flat_map (encode_tag 8) ts.
Definition sample_commit (sq seconds : Z) : list Z :=
  be_enc 4 _JBD2_MAGIC ++ be_enc 4 _COMMIT ++ be_enc 4 sq ++ repeat 0 36 ++ be_enc 8 seconds.
Definition pad64 (d : list Z) : list Z := take 64 (d ++ repeat 0 64).
Definition plain_tag (b fl : Z) : tag := {| t_block := b; t_flags := fl; t_csum := 0; t_uuid := [] |}.
Definition sample_log : list Z :=
  pad64 [] ++ pad64 (sample_descriptor 10 [plain_tag 30 2; plain_tag 40 11]) ++ pad64 [1] ++ pad64 [2] ++
  pad64 (sample_commit 10 500) ++ repeat 0 (Z.to_nat (64 * 1019)) ++
  pad64 (sample_descriptor 12 [plain_tag 30 10]) ++ pad64 [3] ++ pad64 (sample_commit 12 700) ++
  repeat 0 (Z.to_nat (64 * 73)).

Lemma scan_is_walk_witness :
  (let! (cs, times) := walk (fun o n => Ok (slice o (o + n) sample_log)) 64 1100 (tag_size_of 0) (tail_of 0) 1 [] [] in
   Ok (sort_values seq cs, times)) =
  Ok ([(30, [{| seq := 10; journal_block := 2; escaped := false |};
             {| seq := 12; journal_block := 1025; escaped := false |}]);
       (40, [{| seq := 10; journal_block := 3; escaped := true |}])], [(10, 500); (12, 700)]).
Proof.
  rewrite <- (scan_is_walk sample_log 64 1100 1 0 ltac:(lia) ltac:(vm_compute; discriminate) ltac:(lia)).
  vm_compute. reflexivity.
Defined.

(** C40. Whatever the journal holds, the scan ends with an index or an error of
    the reader or of [struct]; in the index no block is listed twice, every
    copy lies strictly inside the log, and each block's copies are oldest
    first. *)
Theorem scan_index read_random (raised : py_exn -> Prop) jbs maxlen first incompat :
  (forall o n, outcome (fun _ => True) raised (read_random o n)) -> raised StructError ->
  outcome (fun '(cs, _) =>
    NoDup (Dict.keys cs) /\
    Forall (fun kv => StronglySorted (Sort.le_key seq) kv.2 /\
                      Forall (fun c => first < journal_block c < maxlen) kv.2) cs)
    raised (_scan read_random jbs maxlen first incompat).
Proof.
  intros Hrr Hst. unfold _scan. apply outcome_bind. eapply outcome_mono; [|done|].
  2:{ apply (scan_log_ok read_random raised Hrr Hst); [apply tag_format_of|].
      unfold tail_of. by destruct (has _ _). }
  intros [cs times] [Hn Hf]. cbn. unfold sort_values. split.
  - unfold Dict.keys in *. rewrite map_map.
    by rewrite (map_ext _ fst) by (by intros [? ?]).
  - apply Forall_map. eapply Forall_impl; [exact Hf|]. intros [k l] Hl. cbn in *. split.
    + apply Sort.sort_by_sorted.
    + by rewrite Sort.sort_by_perm.
Qed.

Lemma scan_index_witness :
  outcome (fun '(cs, _) =>
    NoDup (Dict.keys cs) /\
    Forall (fun kv => StronglySorted (Sort.le_key seq) kv.2 /\
                      Forall (fun c => 1 < journal_block c < 1100) kv.2) cs)
    (fun e => e = StructError) (_scan (fun o n => Ok (slice o (o + n) sample_log)) 64 1100 1 0).
Proof.
  exact (scan_index (fun o n => Ok (slice o (o + n) sample_log)) (fun e => e = StructError) 64 1100 1 0
           (fun _ _ => I) eq_refl).
Defined.

End ExtScan.
