(* ===== verification/ExtDirs.v ===== *)
(** The directory side of ExtJournal: records of a directory block, live and
    deleted, and the history of a name over the journal's copies. *)
From S2P Require Import Prelude PyBase ExtJournal.
Import Str Bytes ExtJournal.

Module ExtDirs.

(** * Little-endian fields *)
Lemma le_enc_val d : wf d -> le_enc (length d) (le_val d) = d.
Proof.
  induction 1 as [|b d Hb Hd IH]; [done|]. cbn [length le_enc le_val]. unfold is_byte in Hb.
  assert ((b + 256 * le_val d) mod 256 = b) as ->.
  { rewrite (Z.mul_comm 256), Z.mod_add by lia. by apply Z.mod_small. }
  assert ((b + 256 * le_val d) / 256 = le_val d) as ->; [|by rewrite IH].
  rewrite (Z.mul_comm 256), Z.div_add by lia. by rewrite Z.div_small by lia.
Qed.

Lemma le_enc_at n p v s off :
  off = len p -> 0 <= v < 256 ^ Z.of_nat n -> le n (p ++ le_enc n v ++ s) off = Ok v.
Proof.
  intros Hoff Hv. unfold le. rewrite u_le_app by (done || apply le_enc_length). by rewrite le_val_enc.
Qed.

Lemma le_total n d off : 0 <= off -> off + Z.of_nat n <= len d -> exists v, le n d off = Ok v.
Proof. intros H1 H2. unfold le. destruct (u_le_Some n d off H1 H2) as [v ->]. by exists v. Qed.

(** * Directory records *)

(** A record of [rec_len] bytes: its fields, its name and the bytes after the
    name, which may hold deleted records. *)
Record slot := { s_inode : Z; s_type : Z; s_name : list Z; s_slack : list Z }.

Definition s_rec_len (s : slot) : Z := 8 + len (s_name s) + len (s_slack s).

Definition encode_slot (s : slot) : list Z :=
  le_enc 4 (s_inode s) ++ le_enc 2 (s_rec_len s) ++ le_enc 1 (len (s_name s)) ++ le_enc 1 (s_type s) ++
  s_name s ++ s_slack s.

Definition slot_ok (s : slot) : Prop :=
  0 <= s_inode s < 256 ^ 4 /\ 0 <= s_type s < 256 /\ len (s_name s) < 256 /\
  s_rec_len s < 256 ^ 2 /\ s_rec_len s mod 4 = 0.

Lemma encode_slot_len s : len (encode_slot s) = s_rec_len s.
Proof. unfold encode_slot, s_rec_len, len. rewrite !length_app, !le_enc_length. lia. Qed.

Section at_slot.
Context (p : list Z) (s : slot) (q : list Z) (Hs : slot_ok s).
Let d := p ++ encode_slot s ++ q.

Lemma slot_inode : le 4 d (len p) = Ok (s_inode s).
Proof. unfold d, encode_slot. rewrite <- !app_assoc. apply le_enc_at; [done|apply Hs]. Qed.

Lemma slot_rec_len : le 2 d (len p + 4) = Ok (s_rec_len s).
Proof.
  unfold d, encode_slot. rewrite <- !app_assoc, app_assoc.
  apply le_enc_at; [unfold len; rewrite length_app, le_enc_length; lia|].
  destruct Hs as (_ & _ & _ & H & _). unfold s_rec_len in *. unfold len in *. change (256 ^ Z.of_nat 2) with (256 ^ 2). lia.
Qed.

Lemma slot_name_len : le 1 d (len p + 6) = Ok (len (s_name s)).
Proof.
  unfold d, encode_slot. rewrite <- !app_assoc, app_assoc, (app_assoc (_ ++ _)).
  apply le_enc_at; [unfold len; rewrite !length_app, !le_enc_length; lia|].
  destruct Hs as (_ & _ & H & _). unfold len in *. change (256 ^ Z.of_nat 1) with 256. lia.
Qed.

Lemma slot_type : le 1 d (len p + 7) = Ok (s_type s).
Proof.
  unfold d, encode_slot. rewrite <- !app_assoc, app_assoc, (app_assoc (_ ++ _)), (app_assoc ((_ ++ _) ++ _)).
  apply le_enc_at; [unfold len; rewrite !length_app, !le_enc_length; lia|]. apply Hs.
Qed.

Lemma slot_name : slice (len p + 8) (len p + 8 + len (s_name s)) d = s_name s.
Proof.
  unfold d, encode_slot.
  rewrite <- !app_assoc, app_assoc, (app_assoc (_ ++ _)), (app_assoc ((_ ++ _) ++ _)), (app_assoc (((_ ++ _) ++ _) ++ _)).
  apply slice_app; unfold len; rewrite !length_app, !le_enc_length; lia.
Qed.

Lemma slot_fits : len d = len p + s_rec_len s + len q.
Proof. unfold d. rewrite <- encode_slot_len. unfold len. rewrite !length_app. lia. Qed.
End at_slot.

Definition live_key (s : slot) : option (str * Z) :=
  if (s_inode s =? 0) || (len (s_name s) =? 0) then None
  else (fun n => (n, s_inode s)) <$> utf8_decode (s_name s).

Lemma looks_like_slots p slots fuel :
  Forall slot_ok slots -> (length slots < fuel)%nat ->
  while fuel (looks_like_step (p ++ flat_map encode_slot slots)) (len p) = Ok true.
Proof.
  intros Hs. revert p fuel. induction Hs as [|s slots Hs Hall IH]; intros p fuel Hf;
    (destruct fuel as [|fuel]; [lia|]); rewrite while_unfold; unfold looks_like_step at 1; cbn [flat_map].
  - rewrite app_nil_r, Z.ltb_irrefl. by rewrite Z.eqb_refl.
  - pose proof (slot_fits p s (flat_map encode_slot slots)) as Hl.
    assert (8 <= s_rec_len s) by (unfold s_rec_len, len; lia).
    assert (0 <= len (flat_map encode_slot slots)) by (unfold len; lia).
    rewrite Hl, (proj2 (Z.ltb_lt _ _)), (proj2 (Z.ltb_ge _ _)) by lia.
    rewrite slot_rec_len, slot_name_len by done. cbn [mbind result_bind].
    destruct Hs as (_ & _ & _ & _ & Hmod).
    rewrite Hmod, (proj2 (Z.ltb_ge (s_rec_len s) 8)), (proj2 (Z.ltb_ge _ (len p + s_rec_len s))) by lia.
    rewrite (proj2 (Z.ltb_ge (s_rec_len s) _)) by (unfold s_rec_len, len; lia). cbn [orb negb Z.eqb].
    rewrite app_assoc.
    replace (len p + s_rec_len s) with (len (p ++ encode_slot s))
      by (rewrite <- encode_slot_len; unfold len; rewrite length_app; lia).
    apply IH. cbn in Hf. lia.
Qed.

Definition add_live (names : list (str * Z)) (o : option (str * Z)) : list (str * Z) :=
  match o with Some k => if decide (k ∈ names) then names else names ++ [k] | None => names end.

Lemma live_step_slots p slots fuel names :
  Forall slot_ok slots -> (length slots < fuel)%nat ->
  while fuel (live_step (p ++ flat_map encode_slot slots)) (len p, names) =
    Ok (fold_left add_live (map live_key slots) names).
Proof.
  intros Hs. revert p fuel names. induction Hs as [|s slots Hs Hall IH]; intros p fuel names Hf;
    (destruct fuel as [|fuel]; [lia|]); rewrite while_unfold; unfold live_step at 1; cbn [flat_map].
  - rewrite app_nil_r. by rewrite (proj2 (Z.leb_gt _ _)) by lia.
  - pose proof (slot_fits p s (flat_map encode_slot slots)) as Hl.
    assert (8 <= s_rec_len s) by (unfold s_rec_len, len; lia).
    assert (0 <= len (flat_map encode_slot slots)) by (unfold len; lia).
    rewrite Hl, (proj2 (Z.leb_le _ _)) by lia.
    rewrite slot_inode, slot_rec_len, slot_name_len, slot_type by done. cbn [mbind result_bind].
    rewrite (proj2 (Z.ltb_ge (s_rec_len s) 8)), slot_name by lia.
    rewrite app_assoc.
    replace (len p + s_rec_len s) with (len (p ++ encode_slot s))
      by (rewrite <- encode_slot_len; unfold len; rewrite length_app; lia).
    cbn [map fold_left]. rewrite IH by (cbn in Hf; lia). do 2 f_equal.
    unfold live_key, add_live. destruct (s_inode s =? 0), (len (s_name s) =? 0); cbn; try done.
    by destruct (utf8_decode (s_name s)).
Qed.

Lemma fold_add_live os names :
  NoDup names -> NoDup (fold_left add_live os names) /\
  forall k, k ∈ fold_left add_live os names <-> k ∈ names \/ Some k ∈ os.
Proof.
  revert names. induction os as [|o os IH]; intros names Hn; cbn.
  { split; [done|]. intros k. split; [by left|]. by intros [?|?%elem_of_nil]. }
  assert (NoDup (add_live names o) /\ forall k, k ∈ add_live names o <-> k ∈ names \/ o = Some k) as [H1 H2].
  { destruct o as [k0|]; cbn; [|split; [done|naive_solver]]. case_decide as Hk.
    - split; [done|]. intros k. split; [by left|]. intros [?|[= ->]]; done.
    - split; [apply NoDup_app; split; [done|]; split; [by intros x Hx ->%list_elem_of_singleton|by apply NoDup_singleton]|].
      intros k. rewrite elem_of_app, list_elem_of_singleton. naive_solver. }
  destruct (IH _ H1) as [H3 H4]. split; [done|]. intros k. rewrite H4, H2, elem_of_cons. naive_solver.
Qed.

Lemma slots_length slots : Forall slot_ok slots -> (length slots <= length (flat_map encode_slot slots))%nat.
Proof.
  induction 1 as [|s slots Hs _ IH]; [done|]. cbn [flat_map length]. rewrite length_app.
  pose proof (encode_slot_len s) as Hl. unfold s_rec_len, len in Hl. lia.
Qed.

(** ** Records at aligned offsets *)

(** What makes a record plausible, and the entry it stands for. *)
Definition plausible (max_inode : Z) (s : slot) (name : str) : Prop :=
  slot_ok s /\ 0 < s_inode s <= max_inode /\ s_type s <= 7 /\ s_name s <> [] /\
  0 ∉ s_name s /\ code "/" ∉ s_name s /\ utf8_decode (s_name s) = Some name /\
  isprintable name = true /\ name <> lit "." /\ name <> lit "..".

Lemma one_of_iff cs c : one_of cs c = true <-> c ∈ cs.
Proof.
  unfold one_of. rewrite existsb_exists. split.
  - intros (x & Hx & ->%Z.eqb_eq). by apply list_elem_of_In.
  - intros H%list_elem_of_In. exists c. by rewrite Z.eqb_refl.
Qed.

Lemma one_of_not cs c : c ∉ cs -> one_of cs c = false.
Proof. intros H. apply not_true_is_false. by rewrite one_of_iff. Qed.

Lemma dirent_at_slot max_inode p s q name :
  plausible max_inode s name ->
  dirent_at max_inode (p ++ encode_slot s ++ q) (len p) = Ok (Some (s_inode s, s_type s, name)).
Proof.
  intros (Hs & Hi & Ht & Hn & H0 & Hsl & Hd & Hp & Hdot & Hdots). unfold dirent_at.
  rewrite slot_inode, slot_rec_len, slot_name_len, slot_type by done. cbn [mbind result_bind].
  rewrite slot_fits, slot_name.
  assert (0 < len (s_name s)) by (destruct (s_name s); [done|unfold len; cbn; lia]).
  rewrite (proj2 (Z.eqb_neq (s_inode s) 0)), (proj2 (Z.ltb_ge max_inode _)), (proj2 (Z.eqb_neq (len _) 0)),
    (proj2 (Z.ltb_ge 7 _)) by lia. cbn [orb].
  destruct Hs as (_ & _ & _ & _ & Hm). rewrite Hm. cbn [Z.eqb negb].
  rewrite (proj2 (Z.ltb_ge (s_rec_len s) _)) by (unfold s_rec_len, len; lia).
  rewrite (proj2 (Z.ltb_ge _ _)) by (unfold len; lia). cbn [orb].
  rewrite !one_of_not by done. cbn [orb]. rewrite Hd, Hp. cbn [negb orb].
  by rewrite !bool_decide_eq_false_2.
Qed.

(** Reading a record back from wherever the fields are plausible. *)
Lemma dirent_at_inv max_inode d off e :
  wf d -> 0 <= off -> off + 8 <= len d -> dirent_at max_inode d off = Ok (Some e) ->
  exists p s q name, d = p ++ encode_slot s ++ q /\ len p = off /\ plausible max_inode s name /\
    e = (s_inode s, s_type s, name).
Proof.
  intros Hwf Hoff Hfit. unfold dirent_at. intros (ino & E1 & H)%bind_Ok.
  apply bind_Ok in H as (rl & E2 & H). apply bind_Ok in H as (nl & E3 & H).
  apply bind_Ok in H as (ty & E4 & H). revert H.
  match goal with |- context [if ?b then _ else _] => destruct b eqn:G1; [done|] end.
  match goal with |- context [if ?b then _ else _] => destruct b eqn:G2; [done|] end.
  match goal with |- context [if ?b then _ else _] => destruct b eqn:G3; [done|] end.
  destruct (utf8_decode _) as [name|] eqn:G4; [|done].
  match goal with |- context [if ?b then _ else _] => destruct b eqn:G5; [done|] end. intros [= <-]. to_prop.
  unfold le in *. apply of_option_Ok in E1, E2, E3, E4.
  pose proof (u_le_bound _ _ _ _ Hwf E1) as B1. pose proof (u_le_bound _ _ _ _ Hwf E2) as B2.
  pose proof (u_le_bound _ _ _ _ Hwf E3) as B3. pose proof (u_le_bound _ _ _ _ Hwf E4) as B4.
  change (256 ^ Z.of_nat 4) with (256 ^ 4) in B1. change (256 ^ Z.of_nat 2) with (256 ^ 2) in B2.
  change (256 ^ Z.of_nat 1) with 256 in B3, B4.
  set (nm := slice (off + 8) (off + 8 + nl) d) in *. set (sl := slice (off + 8 + nl) (off + rl) d).
  assert (len nm = nl) as Hnm by (unfold nm; rewrite slice_length; lia).
  assert (len sl = rl - 8 - nl) as Hsl by (unfold sl; rewrite slice_length; lia).
  exists (take (Z.to_nat off) d), {| s_inode := ino; s_type := ty; s_name := nm; s_slack := sl |},
    (drop (Z.to_nat (off + rl)) d), name.
  assert (s_rec_len {| s_inode := ino; s_type := ty; s_name := nm; s_slack := sl |} = rl) as Hrl.
  { unfold s_rec_len. cbn [s_name s_slack]. lia. }
  split; [|split; [|split; [|done]]].
  - unfold encode_slot. rewrite Hrl. cbn [s_inode s_type s_name s_slack]. rewrite Hnm.
    assert (forall n o v, u_le n d o = Some v -> le_enc n v = slice o (o + Z.of_nat n) d) as Henc.
    { intros n o v. unfold u_le. destruct (Nat.eqb _ n) eqn:El; [|done]. intros [= <-]. apply Nat.eqb_eq in El.
      rewrite <- El at 1. apply le_enc_val. by apply slice_wf. }
    rewrite (Henc _ _ _ E1), (Henc _ _ _ E2), (Henc _ _ _ E3), (Henc _ _ _ E4).
    unfold nm, sl.
    assert (forall a b c, 0 <= a -> a <= b -> b <= c -> slice a b d ++ slice b c d = slice a c d) as Hjoin.
    { intros a b c Ha Hab Hbc. unfold slice.
      rewrite <- (take_drop (Z.to_nat (b - a)) (take (Z.to_nat (c - a)) (drop (Z.to_nat a) d))).
      rewrite take_take, skipn_firstn_comm, drop_drop. f_equal; f_equal; try f_equal; lia. }
    rewrite !app_assoc. replace (off + 7) with (off + 6 + Z.of_nat 1) by lia.
    replace (off + 6) with (off + 4 + Z.of_nat 2) by lia. replace (off + 4) with (off + Z.of_nat 4) by lia.
    rewrite <- !app_assoc.
    rewrite (app_assoc (slice off _ d)), Hjoin by lia. rewrite (app_assoc (slice off _ d)), Hjoin by lia.
    rewrite (app_assoc (slice off _ d)), Hjoin by lia.
    replace (off + Z.of_nat 4 + Z.of_nat 2 + Z.of_nat 1 + Z.of_nat 1) with (off + 8) by lia.
    rewrite (app_assoc (slice off _ d)), Hjoin by lia. rewrite (app_assoc (slice off _ d)), Hjoin by lia.
    unfold slice. replace (off + rl - off) with rl by lia.
    rewrite <- (take_drop (Z.to_nat off) d) at 1. f_equal.
    rewrite <- (take_drop (Z.to_nat rl) (drop (Z.to_nat off) d)) at 1. f_equal.
    rewrite drop_drop. f_equal. lia.
  - unfold len. rewrite length_take. unfold len in *. lia.
  - unfold plausible, slot_ok. cbn [s_inode s_type s_name]. rewrite Hrl, Hnm.
    repeat split; try lia; try done.
    + intros Hnil. rewrite Hnil in Hnm. change (len []) with 0 in Hnm. congruence.
    + rewrite <- one_of_iff. congruence.
    + rewrite <- one_of_iff. congruence.
Qed.

Lemma dirent_at_total max_inode d off :
  0 <= off -> off + 8 <= len d -> exists o, dirent_at max_inode d off = Ok o.
Proof.
  intros H0 H1. unfold dirent_at.
  destruct (le_total 4 d off) as [a ->]; [lia..|]. destruct (le_total 2 d (off + 4)) as [b ->]; [lia..|].
  destruct (le_total 1 d (off + 6)) as [c ->]; [lia..|]. destruct (le_total 1 d (off + 7)) as [t ->]; [lia..|].
  cbn [mbind result_bind].
  repeat match goal with |- context [if ?b then _ else _] => destruct b; [by eexists|] end.
  destruct (utf8_decode _); [|by eexists].
  match goal with |- context [if ?b then _ else _] => destruct b; by eexists end.
Qed.

Lemma dirent_offsets_elem size off :
  off ∈ dirent_offsets size <-> 0 <= off /\ off mod 4 = 0 /\ off < size - 8.
Proof.
  unfold dirent_offsets. rewrite list_elem_of_fmap. split.
  - intros (i & -> & [Hi Hb]%elem_of_seqZ). rewrite Z.mul_comm, Z.mod_mul by lia.
    assert (i < (size - 8 + 3) / 4) as Hlt by lia.
    pose proof (Z.mul_div_le (size - 8 + 3) 4 ltac:(lia)). lia.
  - intros (H0 & Hm & Hlt). exists (off / 4).
    pose proof (Z.div_mod off 4 ltac:(lia)) as Hd. split; [lia|]. apply elem_of_seqZ.
    split; [apply Z.div_pos; lia|]. cbn.
    assert (off / 4 + 1 <= (size - 8 + 3) / 4); [|lia]. apply Z.div_le_lower_bound; lia.
Qed.

(** * The history of a name *)
Section history.
Variable key : str * Z.

Definition has_key (e : dir_entry) : bool := bool_decide ((e_name e, e_inode e) = key).
Definition listed (c : dir_copy) : bool := existsb has_key (dc_entries c).
Definition live_in (c : dir_copy) : bool := bool_decide (key ∈ live_keys c).

Definition first_of (f : found_t) : option Z := Dict.get key f ≫= first_seq.
Definition last_of (f : found_t) : option Z := Dict.get key f ≫= last_seq.
Definition gone_of (f : found_t) : option Z := Dict.get key f ≫= gone_seq.

Lemma opt_min_idem o n : opt_min (opt_min o n) n = opt_min o n.
Proof. unfold opt_min. destruct o; f_equal; lia. Qed.
Lemma opt_max_idem o n : opt_max (opt_max o n) n = opt_max o n.
Proof. unfold opt_max. destruct o; f_equal; lia. Qed.

Definition upd (f : option Z -> Z -> option Z) (b : bool) (o : option Z) (n : Z) : option Z :=
  if b then f o n else o.

Lemma see_entry_key sq found e :
  first_of (see_entry sq found e) = upd opt_min (has_key e && e_live e) (first_of found) sq /\
  last_of (see_entry sq found e) = upd opt_max (has_key e && e_live e) (last_of found) sq /\
  gone_of (see_entry sq found e) = gone_of found /\
  (is_Some (Dict.get key (see_entry sq found e)) <-> is_Some (Dict.get key found) \/ has_key e = true).
Proof.
  unfold first_of, last_of, gone_of, see_entry, has_key. rewrite Dict.get_set.
  case_bool_decide as Hk.
  - rewrite <- Hk, decide_True by done. cbn [mbind option_bind andb].
    destruct (Dict.get _ found) as [item|]; destruct (e_live e); cbn; naive_solver.
  - rewrite decide_False by congruence. cbn. naive_solver.
Qed.

Lemma live_in_iff c : live_in c = existsb (fun e => has_key e && e_live e) (dc_entries c).
Proof.
  unfold live_in. apply eq_bool_prop_intro. rewrite bool_decide_spec. unfold live_keys.
  rewrite list_elem_of_fmap. split.
  - intros (e & -> & He). apply list_elem_of_In, filter_In in He as [He Hl].
    apply Is_true_eq_left, existsb_exists. exists e. split; [done|]. unfold has_key.
    by rewrite bool_decide_eq_true_2.
  - intros H%Is_true_eq_true. apply existsb_exists in H as (e & He & Hb%andb_prop). destruct Hb as [Hk Hl].
    unfold has_key in Hk. to_prop. exists e. split; [done|]. by apply list_elem_of_In, filter_In.
Qed.

Lemma see_entries_key sq es found :
  let b := existsb (fun e => has_key e && e_live e) es in
  let found' := fold_left (see_entry sq) es found in
  first_of found' = upd opt_min b (first_of found) sq /\
  last_of found' = upd opt_max b (last_of found) sq /\
  gone_of found' = gone_of found /\
  (is_Some (Dict.get key found') <-> is_Some (Dict.get key found) \/ existsb has_key es = true).
Proof.
  revert found. induction es as [|e es IH]; intros found; cbn [fold_left existsb]; [cbn; naive_solver|].
  cbv zeta. destruct (IH (see_entry sq found e)) as (H1 & H2 & H3 & H4).
  destruct (see_entry_key sq found e) as (E1 & E2 & E3 & E4).
  rewrite H1, H2, H3, H4, E1, E2, E3, E4, orb_true_iff. split; [|split; [|split; [done|tauto]]].
  - destruct (has_key e && e_live e), (existsb _ es); cbn; by rewrite ?opt_min_idem.
  - destruct (has_key e && e_live e), (existsb _ es); cbn; by rewrite ?opt_max_idem.
Qed.

Lemma see_history_key h found :
  let found' := fold_left see_copy h found in
  first_of found' = fold_left opt_min (map dc_seq (List.filter live_in h)) (first_of found) /\
  last_of found' = fold_left opt_max (map dc_seq (List.filter live_in h)) (last_of found) /\
  gone_of found' = gone_of found /\
  (is_Some (Dict.get key found') <-> is_Some (Dict.get key found) \/ existsb listed h = true).
Proof.
  revert found. induction h as [|c h IH]; intros found; cbn [fold_left existsb]; [cbn; naive_solver|].
  cbv zeta. destruct (IH (see_copy found c)) as (H1 & H2 & H3 & H4).
  destruct (see_entries_key (dc_seq c) (dc_entries c) found) as (E1 & E2 & E3 & E4).
  fold (see_copy found c) in E1, E2, E3, E4.
  rewrite H1, H2, H3, H4, E1, E2, E3, E4, orb_true_iff. fold (listed c).
  cbn [List.filter]. rewrite live_in_iff.
  destruct (existsb (fun e => has_key e && e_live e) (dc_entries c)); cbn; tauto.
Qed.

Lemma get_mark_gone h found :
  Dict.get key (map (mark_gone h) found) = (fun item => (mark_gone h (key, item)).2) <$> Dict.get key found.
Proof.
  induction found as [|[k item] found IH]; [done|]. cbn [map].
  assert (exists item', mark_gone h (k, item) = (k, item')) as [item' E].
  { unfold mark_gone. destruct (last_seq item); [|by eexists]. destruct (list_min _); by eexists. }
  rewrite E. cbn [Dict.get]. destruct (decide (key = k)) as [->|]; [|apply IH].
  cbn [fmap option_fmap option_map]. by rewrite E.
Qed.

Lemma get_stamp self found :
  Dict.get key (map (fun '(k, item) => (k, stamp self item)) found) = stamp self <$> Dict.get key found.
Proof.
  induction found as [|[k item] found IH]; [done|]. cbn. by destruct (decide (key = k)).
Qed.

(** The bounds of a name's life in one directory block. *)
Definition live_seqs (h : list dir_copy) : list Z := map dc_seq (List.filter live_in h).
Definition list_max (l : list Z) : option Z := fold_left opt_max l None.

Lemma opt_min_fold l o : fold_left opt_min l (Some o) = Some (fold_left Z.min l o).
Proof. revert o. induction l as [|x l IH]; intros o; [done|]. cbn. apply IH. Qed.

Lemma list_min_fold l : fold_left opt_min l None = list_min l.
Proof. destruct l as [|x l]; [done|]. cbn. apply opt_min_fold. Qed.
End history.

Lemma list_min_spec l m : list_min l = Some m <-> m ∈ l /\ forall x, x ∈ l -> m <= x.
Proof.
  destruct l as [|x l]; cbn.
  { split; [done|]. by intros [?%elem_of_nil _]. }
  assert (forall l x, (fold_left Z.min l x = x \/ fold_left Z.min l x ∈ l) /\
    fold_left Z.min l x <= x /\ forall y, y ∈ l -> fold_left Z.min l x <= y) as Hf.
  { clear. induction l as [|y l IH]; intros x; cbn.
    - split; [by left|]. split; [lia|]. by intros ? ?%elem_of_nil.
    - destruct (IH (Z.min x y)) as (Hin & H1 & H2). split; [|split; [lia|]].
      + destruct Hin as [->|?]; [|right; by right].
        destruct (Z.min_spec x y) as [[_ ->]|[_ ->]]; [by left|right; by left].
      + intros z [->|Hz]%elem_of_cons; [lia|auto]. }
  destruct (Hf l x) as (Hin & H1 & H2).
  assert (forall n, (n ∈ x :: l /\ forall y, y ∈ x :: l -> n <= y) -> n = fold_left Z.min l x) as Huniq.
  { intros n [Hn Hle]. assert (n <= fold_left Z.min l x).
    { apply Hle. destruct Hin as [->|?]; [by left|by right]. }
    apply elem_of_cons in Hn as [->|Hn]; [lia|]. specialize (H2 _ Hn). lia. }
  split.
  - intros [= <-]. split; [destruct Hin as [->|?]; [by left|by right]|].
    intros y [->|Hy]%elem_of_cons; auto.
  - intros H. f_equal. symmetry. by apply Huniq.
Qed.

(** * Properties *)

(** C37. A directory block written as a chain of records that fill it is
    recognised as one, and the names it is said to have listed are exactly
    those of its records with an inode, a name and a valid encoding. *)
Theorem directory_block_roundtrip slots :
  Forall slot_ok slots ->
  looks_like_directory_block (flat_map encode_slot slots) = Ok true /\
  exists live, live_dirents (flat_map encode_slot slots) = Ok live /\ NoDup live /\
    forall k, k ∈ live <-> exists s, s ∈ slots /\ live_key s = Some k.
Proof.
  intros Hs. pose proof (slots_length slots Hs) as Hl. split.
  - apply (looks_like_slots [] slots); [done|lia].
  - eexists. split; [apply (live_step_slots [] slots); [done|lia]|].
    destruct (fold_add_live (map live_key slots) [] ltac:(constructor)) as [H1 H2].
    split; [done|]. intros k. rewrite H2, list_elem_of_fmap. split.
    + intros [?%elem_of_nil|(s & Hk & Hin)]; [done|]. by exists s.
    + intros (s & Hin & Hk). right. by exists s.
Qed.

Definition sample_slots : list slot :=
  [{| s_inode := 12; s_type := 2; s_name := lit "."; s_slack := [0; 0; 0] |};
   {| s_inode := 13; s_type := 1; s_name := lit "kept";
      s_slack := encode_slot {| s_inode := 14; s_type := 1; s_name := lit "gone"; s_slack := [] |} |}].

Lemma directory_block_roundtrip_witness :
  looks_like_directory_block (flat_map encode_slot sample_slots) = Ok true.
Proof.
  apply (directory_block_roundtrip sample_slots). repeat constructor; by vm_compute.
Defined.

(** Live and deleted alike, the records reported for a block are exactly
    the plausible ones at 4-byte aligned offsets, whichever chain or slack
    they lie in; every access stays inside the block. *)
Lemma dirents_exact max_inode data :
  wf data ->
  exists ds, dirents max_inode data = Ok ds /\
    forall e, e ∈ ds <->
      exists p s q name, data = p ++ encode_slot s ++ q /\ len p mod 4 = 0 /\
        plausible max_inode s name /\ e = (s_inode s, s_type s, name).
Proof.
  intros Hwf. unfold dirents.
  assert (exists os, mapM_py (dirent_at max_inode data) (dirent_offsets (len data)) = Ok os) as [os Hos].
  { assert (forall offs, (forall o, o ∈ offs -> o ∈ dirent_offsets (len data)) ->
      exists os, mapM_py (dirent_at max_inode data) offs = Ok os) as Hall; [|by apply Hall].
    induction offs as [|o offs IH]; intros Hin; [by exists []|].
    destruct (proj1 (dirent_offsets_elem _ _) (Hin o ltac:(left))) as (H0 & _ & Hlt).
    destruct (dirent_at_total max_inode data o H0 ltac:(lia)) as [r Hr].
    destruct IH as [os Hos]; [intros; apply Hin; by right|]. exists (r :: os). cbn. by rewrite Hr; cbn; rewrite Hos. }
  rewrite Hos. cbn [mbind result_bind]. eexists. split; [done|]. intros e. apply mapM_py_Ok in Hos.
  rewrite list_elem_of_omap. split.
  - intros (o & Ho & Heq). cbn in Heq. subst o. apply list_elem_of_lookup in Ho as [i Hi].
    destruct (Forall2_lookup_r _ _ _ _ _ Hos Hi) as (off & Hoff & Hat).
    apply list_elem_of_lookup_2, dirent_offsets_elem in Hoff as (H0 & Hm & Hlt).
    destruct (dirent_at_inv _ _ _ _ Hwf H0 ltac:(lia) Hat) as (p & s & q & name & Hd & Hp & Hpl & He).
    exists p, s, q, name. by rewrite Hp.
  - intros (p & s & q & name & Hd & Hm & Hpl & ->). exists (Some (s_inode s, s_type s, name)). split; [|done].
    assert (len p ∈ dirent_offsets (len data)) as Hin.
    { apply dirent_offsets_elem. split; [unfold len; lia|]. split; [done|].
      rewrite Hd, slot_fits. destruct Hpl as ((_ & _ & _ & _ & Hmod) & _ & _ & Hne & _).
      assert (0 < len (s_name s)) by (destruct (s_name s); [done|unfold len; cbn; lia]).
      assert (8 < s_rec_len s) by (unfold s_rec_len, len in *; lia).
      pose proof (Z.div_mod (s_rec_len s) 4 ltac:(lia)). unfold len. lia. }
    apply list_elem_of_lookup in Hin as [i Hi].
    destruct (Forall2_lookup_l _ _ _ _ _ Hos Hi) as (o & Ho & Hat).
    rewrite Hd, (dirent_at_slot _ _ _ _ name) in Hat by done. injection Hat as <-.
    by apply list_elem_of_lookup_2 in Ho.
Qed.

Lemma dirents_exact_witness :
  exists ds, dirents 20 (flat_map encode_slot sample_slots) = Ok ds /\ (14, 1, lit "gone") ∈ ds.
Proof.
  assert (wf (flat_map encode_slot sample_slots)) as Hw by (apply (bool_decide_unpack _); by vm_compute).
  destruct (dirents_exact 20 (flat_map encode_slot sample_slots) Hw) as (ds & Hd & _).
  exists ds. split; [exact Hd|]. vm_compute in Hd. injection Hd as <-. apply (bool_decide_unpack _). by vm_compute.
Defined.

(** For a directory of one block the reported lifetime is the recorded
    one: a name is reported exactly when some copy holds it, it is first and
    last seen in the oldest and newest transactions that listed it, and gone
    by the oldest later transaction that did not. *)
Lemma past_names_one_block self number key :
  let h := default [] (Dict.get number (dir_copies self)) in
  (is_Some (Dict.get key (past_names self [number])) <-> existsb (listed key) h = true) /\
  forall item, Dict.get key (past_names self [number]) = Some item ->
    first_seq item = list_min (live_seqs key h) /\ last_seq item = list_max (live_seqs key h) /\
    gone_seq item = match list_max (live_seqs key h) with
                    | Some last => list_min (later_seqs h key last)
                    | None => None
                    end.
Proof.
  cbv zeta. set (h := default [] _). unfold past_names. cbn [fold_left]. unfold past_block. fold h.
  rewrite get_stamp, get_mark_gone.
  destruct (see_history_key key h []) as (H1 & H2 & H3 & H4). cbn zeta in *.
  set (f := fold_left see_copy h []) in *. unfold first_of, last_of, gone_of in *. cbn [Dict.get mbind option_bind] in *.
  rewrite !fmap_is_Some. split; [rewrite H4; split; [by intros [[? ?]|?]|by right]|].
  intros item. destruct (Dict.get key f) as [item0|] eqn:E; [|done]. cbn in *. intros [= <-].
  rewrite list_min_fold in H1. unfold list_max, live_seqs. rewrite <- H2, <- H1.
  unfold mark_gone. destruct (last_seq item0) as [last|] eqn:El; cbn; [|done].
  destruct (list_min (later_seqs h key last)); cbn; done.
Qed.

Definition sample_entry (name : string) (i : Z) (lv : bool) : dir_entry :=
  {| e_name := lit name; e_inode := i; e_type := 1; e_live := lv |}.
Definition sample_journal : ExtJournal :=
  {| inode_count := 100; block_size := 1024; first_data_block := 1; blocks_per_group := 8192;
     inodes_per_group := 100; inode_size := 128; desc_size := 32; journal_inum := 8; _jbs := 1024;
     copies := []; commit_times := [(5, 50); (7, 70)];
     dir_copies :=
       [(30, [{| dc_seq := 5; dc_owner := Some 2; dc_entries := [sample_entry "a" 11 true] |}]);
        (31, [{| dc_seq := 7; dc_owner := None; dc_entries := [sample_entry "b" 12 true] |}])] |}.

Lemma past_names_one_block_witness :
  exists item, Dict.get (lit "a", 11) (past_names sample_journal [30]) = Some item /\ gone_seq item = None.
Proof.
  destruct (Dict.get (lit "a", 11) (past_names sample_journal [30])) as [item|] eqn:E; [|discriminate E].
  exists item. split; [reflexivity|].
  destruct (proj2 (past_names_one_block sample_journal 30 (lit "a", 11)) item E) as (_ & _ & ->).
  vm_compute. reflexivity.
Defined.

(** A directory of several blocks is not handled as one: a name that every
    copy of its own block lists is reported gone as soon as a copy of another
    block of the directory is newer. *)
Lemma past_names_other_block self a b key item :
  a <> b ->
  let ha := default [] (Dict.get a (dir_copies self)) in
  let hb := default [] (Dict.get b (dir_copies self)) in
  Forall (fun c => live_in key c = true) ha ->
  Forall (fun c => listed key c = false) hb ->
  (exists last c, list_max (live_seqs key ha) = Some last /\ c ∈ hb /\ last < dc_seq c) ->
  Dict.get key (past_names self [a; b]) = Some item ->
  is_Some (gone_seq item).
Proof.
  intros Hab ha hb Hla Hlb (last & c & Hlast & Hc & Hlt).
  unfold past_names. cbn [fold_left]. unfold past_block at 1. fold hb. rewrite get_stamp, get_mark_gone.
  set (fa := past_block self [] a).
  destruct (see_history_key key hb fa) as (_ & H2 & _ & _). cbn zeta in H2.
  assert (List.filter (live_in key) hb = []) as Hnone.
  { clear -Hlb. induction Hlb as [|c hb Hc _ IH]; [done|]. cbn. rewrite IH.
    rewrite live_in_iff. unfold listed in Hc.
    destruct (existsb (fun e => has_key key e && e_live e) (dc_entries c)) eqn:E; [|done].
    apply existsb_exists in E as (e & He & Hb%andb_prop). destruct Hb as [Hk _].
    rewrite (proj2 (existsb_exists _ _)) in Hc; [done|]. by exists e. }
  rewrite Hnone in H2. cbn in H2.
  assert (last_of key fa = Some last) as Hfa.
  { unfold fa, past_block. fold ha. unfold last_of. rewrite get_mark_gone.
    destruct (see_history_key key ha []) as (_ & H & _ & _). unfold last_of in H. cbn [Dict.get mbind option_bind] in H.
    fold (live_seqs key ha) in H. unfold list_max in Hlast. rewrite Hlast in H.
    destruct (Dict.get key (fold_left see_copy ha [])) as [item0|]; [|done]. cbn in *. rewrite H.
    by destruct (list_min _). }
  rewrite Hfa in H2. unfold last_of in H2.
  destruct (Dict.get key (fold_left see_copy hb fa)) as [item1|]; [|done]. cbn [mbind option_bind] in H2.
  cbn [fmap option_fmap option_map mark_gone]. rewrite H2. intros [= <-].
  destruct (list_min (later_seqs hb key last)) as [m|] eqn:Em; [by exists m|]. exfalso.
  assert (dc_seq c ∈ later_seqs hb key last) as Hin.
  { unfold later_seqs. apply list_elem_of_fmap. exists c. split; [done|]. apply list_elem_of_In, filter_In.
    split; [by apply list_elem_of_In|]. rewrite (proj2 (Z.ltb_lt _ _)) by done. cbn. apply negb_true_iff.
    assert (live_in key c = false) as Hl; [|done].
    apply not_true_is_false. intros Ht. assert (c ∈ List.filter (live_in key) hb) as H.
    { apply list_elem_of_In, filter_In. split; [by apply list_elem_of_In|done]. }
    rewrite Hnone in H. by apply elem_of_nil in H. }
  unfold list_min in Em. destruct (later_seqs hb key last); [by apply elem_of_nil in Hin|done].
Qed.

Lemma past_names_other_block_witness :
  exists item, Dict.get (lit "a", 11) (past_names sample_journal [30; 31]) = Some item /\
    is_Some (gone_seq item) /\ gone_by item = Some 70.
Proof.
  destruct (Dict.get (lit "a", 11) (past_names sample_journal [30; 31])) as [item|] eqn:E; [|discriminate E].
  exists item. split; [reflexivity|]. split; [|vm_compute in E; injection E as <-; reflexivity].
  apply (past_names_other_block sample_journal 30 31 (lit "a", 11) item); [done| | | |exact E].
  - constructor; [by vm_compute|constructor].
  - constructor; [by vm_compute|constructor].
  - eexists 5, _. split; [by vm_compute|]. split; [by left|done].
Defined.

End ExtDirs.
