(* ===== verification/ExtRecover.v ===== *)
(** What ExtJournal rebuilds: the version of a block at a transaction, the
    inode copy a deleted file is recovered from, and its content. *)
From S2P Require Import Prelude PyBase ExtJournal ExtDirs.
Import Str Bytes ExtJournal.

Module ExtRecover.

(** * Sorted copies *)
Abbreviation oldest_first := (StronglySorted (Sort.le_key seq)).

Lemma oldest_first_app l1 c l2 : oldest_first (l1 ++ c :: l2) ->
  (forall c', c' ∈ l1 -> seq c' <= seq c) /\ (forall c', c' ∈ l2 -> seq c <= seq c').
Proof.
  induction l1 as [|x l1 IH]; cbn; intros Hs; apply StronglySorted_inv in Hs as [Hs Hx].
  - split; [by intros ? ?%elem_of_nil|]. by rewrite Forall_forall in Hx.
  - destruct (IH Hs) as [H1 H2]. split; [|done]. rewrite Forall_forall in Hx.
    intros c' [-> |Hc]%elem_of_cons; [|auto]. apply Hx. apply elem_of_app. right. by left.
Qed.

Lemma find_rev_split {A} (f : A -> bool) l c :
  List.find f (rev l) = Some c -> exists l1 l2, l = l1 ++ c :: l2 /\ f c = true /\ forall x, x ∈ l2 -> f x = false.
Proof.
  induction l as [|x l IH] using rev_ind; [done|]. rewrite rev_unit. cbn.
  destruct (f x) eqn:E.
  - intros [= <-]. exists l, []. split; [done|]. split; [done|]. by intros ? ?%elem_of_nil.
  - intros Hf. destruct (IH Hf) as (l1 & l2 & -> & Hc & Hrest). exists l1, (l2 ++ [x]).
    split; [by rewrite <- app_assoc|]. split; [done|].
    intros y [Hy| ->%list_elem_of_singleton]%elem_of_app; auto.
Qed.

Lemma find_rev_none {A} (f : A -> bool) l : List.find f (rev l) = None -> forall x, x ∈ l -> f x = false.
Proof.
  intros Hf x Hx. apply (find_none f (rev l) Hf). apply in_rev. rewrite rev_involutive. by apply list_elem_of_In.
Qed.

Definition before (max_seq : option Z) (c : _Copy) : bool :=
  match max_seq with None => true | Some m => seq c <=? m end.

(** * Recovery *)
Section recover.
Context (_read : Z -> Z -> res (list Z)) (journal_file : Z -> Z -> Z -> res (list Z)) (self : ExtJournal).
Context (offset : Z) (min_seq max_seq gen : option Z).

(** A copy inside the window that holds a live regular file with content, of
    the wanted generation, with at least one run. *)
Definition usable (c : _Copy) (info : inode_info) (runs : runs_t) : Prop :=
  before max_seq c = true /\ (forall m, min_seq = Some m -> m <= seq c) /\
  exists data, copy_data journal_file self c = Ok data /\
    _parse_inode (slice offset (offset + inode_size self) data) = Ok info /\
    live_file info = true /\ (forall g, gen = Some g -> generation info = g) /\
    _block_map _read journal_file self info (seq c) = Ok runs /\ runs <> [].

Definition recovers (c : _Copy) (r : recovered) : Prop :=
  usable c (r_info r) (r_runs r) /\ r_seq r = seq c /\
  r_committed r = Dict.get (seq c) (commit_times self) /\
  r_blocks r = fold_left (fun n '(_, _, length) => n + length) (r_runs r) 0 /\
  count_reused _read self (r_runs r) = Ok (r_blocks_reused r).

Lemma recover_from_spec l o :
  oldest_first l ->
  recover_from _read journal_file self (rev l) offset min_seq max_seq gen = Ok o ->
  match o with
  | Some r => exists l1 c l2, l = l1 ++ c :: l2 /\ recovers c r /\
                forall c', c' ∈ l2 -> forall info runs, ~ usable c' info runs
  | None => forall c, c ∈ l -> forall info runs, ~ usable c info runs
  end.
Proof.
  induction l as [|c l IH] using rev_ind; intros Hs.
  { intros [= <-]. by intros c ?%elem_of_nil. }
  destruct (oldest_first_app _ _ _ Hs) as [Hle _].
  assert (oldest_first l) as Hsl.
  { clear -Hs. induction l as [|x l IH]; [constructor|]. cbn in Hs. apply StronglySorted_inv in Hs as [Hs Hx].
    constructor; [by apply IH|]. by apply Forall_app in Hx as [? _]. }
  rewrite rev_unit. cbn [recover_from].
  assert (Hskip : (forall info runs, ~ usable c info runs) ->
    recover_from _read journal_file self (rev l) offset min_seq max_seq gen = Ok o ->
    match o with
    | Some r => exists l1 c0 l2, l ++ [c] = l1 ++ c0 :: l2 /\ recovers c0 r /\
                  forall c', c' ∈ l2 -> forall info runs, ~ usable c' info runs
    | None => forall c0, c0 ∈ l ++ [c] -> forall info runs, ~ usable c0 info runs
    end).
  { intros Hno Hrec. specialize (IH Hsl Hrec). destruct o as [r|].
    - destruct IH as (l1 & c0 & l2 & -> & Hr & Hrest). exists l1, c0, (l2 ++ [c]).
      split; [by rewrite <- app_assoc|]. split; [done|].
      intros c' [Hc| ->%list_elem_of_singleton]%elem_of_app; auto.
    - intros c' [Hc| ->%list_elem_of_singleton]%elem_of_app; auto. }
  destruct (match max_seq with Some m => m <? seq c | None => false end) eqn:E1.
  { apply Hskip. intros info runs (Hb & _). unfold before in Hb. destruct max_seq; [|done]. to_prop. lia. }
  destruct (match min_seq with Some m => seq c <? m | None => false end) eqn:E2.
  { intros [= <-] c' Hc' info runs (_ & Hm & _). destruct min_seq as [m|]; [|done]. to_prop.
    specialize (Hm m eq_refl). apply elem_of_app in Hc' as [Hc'| ->%list_elem_of_singleton]; [|lia].
    specialize (Hle _ Hc'). lia. }
  intros (data & Hdata & H)%bind_Ok. apply bind_Ok in H as (info & Hinfo & H). revert H.
  assert (Hdet : forall info' runs', usable c info' runs' -> info' = info).
  { intros info' runs' (_ & _ & data' & Hd' & Hi' & _). congruence. }
  destruct (live_file info) eqn:Elive; cbn [negb].
  2:{ apply Hskip. intros info' runs' Hu. pose proof (Hdet _ _ Hu) as ->.
      destruct Hu as (_ & _ & ? & _ & _ & Hl & _). congruence. }
  destruct (match gen with Some g => negb (generation info =? g) | None => false end) eqn:Egen.
  { apply Hskip. intros info' runs' Hu. pose proof (Hdet _ _ Hu) as ->.
    destruct Hu as (_ & _ & ? & _ & _ & _ & Hg & _). destruct gen as [g|]; [|done]. to_prop.
    by specialize (Hg g eq_refl). }
  intros (runs & Hruns & H)%bind_Ok. revert H.
  destruct runs as [|run rest] eqn:Er.
  { apply Hskip. intros info' runs' Hu. pose proof (Hdet _ _ Hu) as ->.
    destruct Hu as (_ & _ & ? & _ & _ & _ & _ & Hr & Hne). congruence. }
  rewrite <- Er in *. intros (reused & Hreused & [= <-])%bind_Ok.
  exists l, c, []. split; [done|]. split; [|by intros ? ?%elem_of_nil].
  repeat split; try done; cbn.
  - unfold before. destruct max_seq; [|done]. to_prop. by apply Z.leb_le.
  - intros m ->. to_prop. lia.
  - exists data. repeat split; try done; [|by rewrite Er].
    intros g ->. to_prop. done.
Qed.
End recover.

(** * Content *)
Section content.
Context (self : ExtJournal) (disk : Z -> Z) (Hbs : 0 < block_size self).
Context (mapping : list (Z * Z)) (chunk_blocks size : Z).

Let bs := block_size self.
Definition disk_read (o n : Z) : res (list Z) := Ok (map disk (seqZ o n)).

(** The byte of the file at [p]: the mapped block's, or zero in a hole. *)
Definition file_byte (p : Z) : Z :=
  match Dict.get (p / bs) mapping with
  | Some physical => disk (physical * bs + p mod bs)
  | None => 0
  end.

Lemma run_count_spec fuel logical physical count :
  1 <= count -> (forall k, 0 <= k < count -> Dict.get (logical + k) mapping = Some (physical + k)) ->
  let n := run_count fuel mapping chunk_blocks logical physical count in
  1 <= n /\ forall k, 0 <= k < n -> Dict.get (logical + k) mapping = Some (physical + k).
Proof.
  revert count. induction fuel as [|fuel IH]; intros count Hc Hk; cbn [run_count]; [done|].
  destruct (_ && _) eqn:E; [|done]. to_prop. apply IH; [lia|].
  intros k Hlt. destruct (decide (k = count)) as [->|]; [done|]. apply Hk. lia.
Qed.

(** Bytes of whole blocks. *)
Lemma file_bytes_run logical n physical :
  0 <= n -> (forall k, 0 <= k < n -> Dict.get (logical + k) mapping = Some (physical + k)) ->
  map disk (seqZ (physical * bs) (n * bs)) = map file_byte (seqZ (logical * bs) (n * bs)).
Proof.
  intros Hn Hk. apply list_eq. intros i. rewrite !list_lookup_fmap.
  destruct (decide (Z.of_nat i < n * bs)) as [Hi|Hi].
  - rewrite !lookup_seqZ_lt by done. cbn. f_equal. unfold file_byte.
    assert ((logical * bs + Z.of_nat i) / bs = logical + Z.of_nat i / bs) as ->.
    { rewrite Z.add_comm, Z.div_add by (unfold bs; lia). lia. }
    assert ((logical * bs + Z.of_nat i) mod bs = Z.of_nat i mod bs) as ->.
    { rewrite Z.add_comm. by rewrite Z.mod_add by (unfold bs; lia). }
    rewrite Hk.
    + f_equal. pose proof (Z.div_mod (Z.of_nat i) bs ltac:(unfold bs; lia)). nia.
    + split; [apply Z.div_pos; unfold bs; lia|]. apply Z.div_lt_upper_bound; unfold bs in *; lia.
  - by rewrite !lookup_seqZ_ge by lia.
Qed.

Lemma file_bytes_hole logical :
  Dict.get logical mapping = None ->
  repeat 0 (Z.to_nat bs) = map file_byte (seqZ (logical * bs) (1 * bs)).
Proof.
  intros Hn. apply list_eq. intros i. rewrite list_lookup_fmap.
  destruct (decide (Z.of_nat i < bs)) as [Hi|Hi].
  - rewrite lookup_seqZ_lt by lia. cbn. rewrite lookup_repeat by lia. f_equal.
    unfold file_byte.
    assert ((logical * bs + Z.of_nat i) / bs = logical) as ->; [|by rewrite Hn].
    rewrite Z.add_comm, Z.div_add by (unfold bs; lia). rewrite Z.div_small by lia. lia.
  - rewrite lookup_seqZ_ge by lia. apply lookup_ge_None_2. rewrite repeat_length. lia.
Qed.

Lemma seqZ_split (f : Z -> Z) a n m : 0 <= n -> 0 <= m ->
  map f (seqZ a (n + m)) = map f (seqZ a n) ++ map f (seqZ (a + n) m).
Proof. intros. by rewrite seqZ_app, map_app by lia. Qed.

Lemma take_seqZ (f : Z -> Z) a n m : 0 <= m -> m <= n -> take (Z.to_nat m) (map f (seqZ a n)) = map f (seqZ a m).
Proof.
  intros H0 H1. replace n with (m + (n - m)) by lia. rewrite seqZ_split by lia.
  rewrite take_app_le by (rewrite length_map, length_seqZ; lia).
  apply take_ge. rewrite length_map, length_seqZ. lia.
Qed.

Lemma iter_content_loop (r_size : 0 <= size) :
  outcome (fun out => concat out = map file_byte (seqZ 0 size)) (fun _ => False)
    (while (S (Z.to_nat size)) (content_step disk_read self mapping chunk_blocks size) (0, 0, [])).
Proof.
  apply (while_total (fun '(produced, logical, out) =>
      0 <= logical /\ produced = Z.min size (logical * bs) /\ concat out = map file_byte (seqZ 0 produced))
    (fun '(produced, _, _) => Z.to_nat (size - produced))); [|split; [lia|split; [lia|done]]|lia].
  intros [[produced logical] out] (Hl & Hp & Hout). unfold content_step.
  destruct (Z.ltb_spec produced size) as [Hlt|Hge].
  2:{ cbn. rewrite Hout. by replace produced with size by lia. }
  assert (produced = logical * bs) as Hp' by lia.
  match goal with |- outcome _ _ (mbind _ ?m) =>
    assert (exists count data, 1 <= count /\ m = Ok (count, data) /\
      data = map file_byte (seqZ (logical * bs) (count * bs)))
      as (count & data & Hc & -> & ->)
  end.
  { destruct (Dict.get logical mapping) as [physical|] eqn:E.
    - destruct (run_count_spec (Z.to_nat chunk_blocks) logical physical 1) as [H1 H2]; [lia| |].
      { intros k Hk. by replace k with 0 by lia; rewrite !Z.add_0_r. }
      eexists _, _. split; [exact H1|]. split; [reflexivity|]. apply file_bytes_run; [lia|done].
    - exists 1, (repeat 0 (Z.to_nat bs)). split; [lia|]. split; [done|]. by apply file_bytes_hole. }
  cbn [mbind result_bind].
  set (m := Z.min (size - produced) (count * bs)).
  assert (0 < m) by (unfold m, bs in *; nia).
  assert (take (Z.to_nat (size - produced)) (map file_byte (seqZ (logical * bs) (count * bs))) =
          map file_byte (seqZ produced m)) as ->.
  { rewrite Hp'. destruct (Z.le_gt_cases (size - produced) (count * bs)).
    - rewrite <- Hp'. rewrite take_seqZ by lia. unfold m. by rewrite Z.min_l by lia.
    - rewrite take_ge by (rewrite length_map, length_seqZ; lia). unfold m. by rewrite Z.min_r by lia. }
  destruct (map file_byte (seqZ produced m)) as [|b0 bl] eqn:Eb.
  { exfalso. apply (f_equal length) in Eb. rewrite length_map, length_seqZ in Eb. cbn in Eb. lia. }
  rewrite <- Eb. cbn [outcome].
  assert (len (map file_byte (seqZ produced m)) = m) as -> by (unfold len; rewrite length_map, length_seqZ; lia).
  split; [|lia]. split; [lia|]. split; [unfold m; nia|].
  rewrite concat_app, Hout. cbn [concat]. rewrite app_nil_r.
  rewrite seqZ_split by lia. by rewrite Z.add_0_l.
Qed.
End content.

(** * Properties *)

(** The version of a block at a transaction: with each block's copies
    oldest first, as the index keeps them, the copy used is the newest one not
    after the transaction, and the disk is read only when there is none. *)
Lemma block_as_of_newest _read journal_file self number max_seq :
  oldest_first (copies_of self number) ->
  (exists c, c ∈ copies_of self number /\ before max_seq c = true /\
     (forall c', c' ∈ copies_of self number -> before max_seq c' = true -> seq c' <= seq c) /\
     block_as_of _read journal_file self number max_seq = copy_data journal_file self c) \/
  ((forall c, c ∈ copies_of self number -> before max_seq c = false) /\
   block_as_of _read journal_file self number max_seq = block _read self number).
Proof.
  intros Hs. unfold block_as_of, newest. destruct (List.find _ _) as [c|] eqn:E.
  - left. exists c. apply find_rev_split in E as (l1 & l2 & Hl & Hc & Hrest). rewrite Hl in Hs |- *.
    destruct (oldest_first_app _ _ _ Hs) as [Hle _].
    split; [apply elem_of_app; right; by left|]. split; [exact Hc|]. split; [|done].
    intros c' [Hin|[-> |Hin]%elem_of_cons]%elem_of_app Hb; [auto|lia|].
    specialize (Hrest _ Hin). cbv beta in Hrest. unfold before in Hb. congruence.
  - right. split; [|done]. by apply find_rev_none.
Qed.

Definition sample_self (cs : copies_t) : ExtJournal :=
  {| inode_count := 100; block_size := 1024; first_data_block := 1; blocks_per_group := 8192;
     inodes_per_group := 100; inode_size := 128; desc_size := 32; journal_inum := 8; _jbs := 1024;
     copies := cs; commit_times := []; dir_copies := [] |}.
Definition sample_copies : copies_t :=
  [(30, [{| seq := 10; journal_block := 2; escaped := false |};
         {| seq := 12; journal_block := 9; escaped := true |}])].

Lemma block_as_of_newest_witness :
  block_as_of (fun _ _ => Ok []) (fun _ o n => Ok (map (fun x => x mod 256) (seqZ o n)))
    (sample_self sample_copies) 30 (Some 11) =
  copy_data (fun _ o n => Ok (map (fun x => x mod 256) (seqZ o n)))
    (sample_self sample_copies) {| seq := 10; journal_block := 2; escaped := false |}.
Proof.
  destruct (block_as_of_newest (fun _ _ => Ok []) (fun _ o n => Ok (map (fun x => x mod 256) (seqZ o n)))
    (sample_self sample_copies) 30 (Some 11)) as [(c & Hc & Hb & _ & ->)|[Hno _]].
  - repeat constructor; cbn; unfold Sort.le_key; cbn; lia.
  - apply elem_of_cons in Hc as [-> |Hc]; [reflexivity|]. apply list_elem_of_singleton in Hc as ->. discriminate Hb.
  - specialize (Hno {| seq := 10; journal_block := 2; escaped := false |} ltac:(left)). discriminate Hno.
Defined.

(** C31. Recovery uses the newest usable copy of the inode inside the window
    the caller ties to the name, and reports that copy's transaction, its
    runs and how many of their blocks are allocated again; it reports nothing
    only when no copy in the window is usable. *)
Theorem recover_newest _read journal_file self inode min_seq max_seq gen blk offset o :
  inode_location _read self inode = Ok (blk, offset) ->
  oldest_first (copies_of self blk) ->
  recover _read journal_file self inode min_seq max_seq gen = Ok o ->
  match o with
  | Some r => exists l1 c l2, copies_of self blk = l1 ++ c :: l2 /\
      recovers _read journal_file self offset min_seq max_seq gen c r /\
      forall c', c' ∈ l2 -> forall info runs, ~ usable _read journal_file self offset min_seq max_seq gen c' info runs
  | None => forall c, c ∈ copies_of self blk ->
      forall info runs, ~ usable _read journal_file self offset min_seq max_seq gen c info runs
  end.
Proof.
  intros Hloc Hs. unfold recover. rewrite Hloc. cbn [mbind result_bind]. by apply recover_from_spec.
Qed.

(** A volume whose group descriptor puts the inode table at block 30 and the
    block bitmap at block 3; the journal's second copy of block 30 holds a
    deleted inode, the first the live one, with one direct block. *)
Definition sample_inode (dt : Z) : list Z :=
  le_enc 2 0x81A4 ++ le_enc 2 0 ++ le_enc 4 5 ++ repeat 0 12 ++ le_enc 4 dt ++ le_enc 2 0 ++ le_enc 2 1 ++
  repeat 0 12 ++ le_enc 4 77 ++ repeat 0 84.
Definition sample_volume (o n : Z) : res (list Z) :=
  if o =? 2048 then Ok (le_enc 4 3 ++ le_enc 4 0 ++ le_enc 4 30 ++ repeat 0 20)
  else Ok (repeat 0 (Z.to_nat n)).
Definition sample_journal_file (_ o n : Z) : res (list Z) :=
  Ok (take (Z.to_nat n) ((if o =? 2048 then sample_inode 0 else sample_inode 99) ++ repeat 0 1024)).
Definition recover_copies : copies_t :=
  [(30, [{| seq := 10; journal_block := 2; escaped := false |};
         {| seq := 12; journal_block := 9; escaped := false |}])].

Lemma recover_newest_witness :
  exists r, recover sample_volume sample_journal_file (sample_self recover_copies) 1 None None None = Ok (Some r) /\
    r_seq r = 10 /\ r_runs r = [(0, 77, 1)] /\
    exists l1 c l2, copies_of (sample_self recover_copies) 30 = l1 ++ c :: l2 /\
      recovers sample_volume sample_journal_file (sample_self recover_copies) 0 None None None c r.
Proof.
  destruct (recover sample_volume sample_journal_file (sample_self recover_copies) 1 None None None)
    as [[r|]| |] eqn:E; [|vm_compute in E; discriminate E..].
  exists r. split; [reflexivity|].
  destruct (recover_newest sample_volume sample_journal_file (sample_self recover_copies) 1 None None None 30 0
    (Some r)) as (l1 & c & l2 & Hl & Hr & _).
  - vm_compute. reflexivity.
  - repeat constructor; cbn; unfold Sort.le_key; cbn; lia.
  - exact E.
  - vm_compute in E. injection E as <-. split; [reflexivity|]. split; [reflexivity|]. by exists l1, c, l2.
Defined.

(** C5. Refinement: over any volume that reads in full, the chunks produced
    for a recovered file concatenate to exactly its [size] bytes, each the byte
    of the block its runs map the position to, or zero in a hole, however
    many contiguous blocks are read at once. *)
Theorem iter_content_bytes self disk r chunk_blocks :
  0 < block_size self -> 0 <= i_size (r_info r) ->
  exists out, iter_content (disk_read disk) self r chunk_blocks = Ok out /\
    concat out = map (file_byte self disk (content_map (r_runs r))) (seqZ 0 (i_size (r_info r))).
Proof.
  intros Hbs Hsz. unfold iter_content.
  pose proof (iter_content_loop self disk Hbs (content_map (r_runs r)) chunk_blocks _ Hsz) as Ho.
  destruct (while _ _ _) as [out| |]; [|done..]. by exists out.
Qed.

Definition sample_recovered : recovered :=
  {| r_info := {| mode := 0x81A4; uid := 0; gid := 0; i_size := 2500; atime := 0; ctime := 0; mtime := 0;
                  crtime := 0; dtime := 0; links := 1; flags := 0; i_block := []; generation := 0 |};
     r_runs := [(0, 77, 1); (2, 80, 1)]; r_seq := 10; r_committed := None; r_blocks := 2; r_blocks_reused := 0 |}.

Lemma iter_content_bytes_witness :
  exists out, iter_content (disk_read (fun x => x mod 251)) (sample_self []) sample_recovered 256 = Ok out /\
    length (concat out) = 2500%nat.
Proof.
  destruct (iter_content_bytes (sample_self []) (fun x => x mod 251) sample_recovered 256) as (out & Ho & Hc);
    [cbn; lia|cbn; lia|].
  exists out. split; [exact Ho|]. rewrite Hc, length_map, length_seqZ. reflexivity.
Defined.

End ExtRecover.
