(* ===== verification/QuerySyntax.v ===== *)
(** search/query_syntax.py: the analyst's search language.  Tokens, the
    recursive-descent parser with its limits, the field tables, the query sent
    to the search engine, and the evaluator over one event.  Definitions; the
    theorems are in QueryParse and QueryEval. *)
From S2P Require Import Prelude PyBase PyRuntime.
Import Str PyRuntime.

Module QuerySyntax.

Definition MAX_TOKENS : nat := 128.
Definition MAX_OR_TERMS : nat := 20.
Definition MAX_WILDCARD_CLAUSES : nat := 10.
Definition MAX_QUERY_TERMS : nat := 64.

(** What escapes: [QuerySyntaxError], or an exception of the runtime. *)
Inductive query_exn : Type :=
  | QuerySyntaxError
  | QueryPy (e : py_exn).

Abbreviation res := (result query_exn).

(** [_WILDCARD_RE.search(value)] *)
Definition _WILDCARD_RE (value : str) : bool := existsb (fun c => one_of (lit "*?") c) value.

Inductive token_kind : Type :=
  | K_LPAREN | K_RPAREN | K_OP | K_STRING | K_WORD | K_AND | K_OR | K_NOT.
#[export] Instance token_kind_eq_dec : EqDecision token_kind.
Proof. solve_decision. Defined.

Record Token := { kind : token_kind; value : str; position : nat }.

Inductive field_kind : Type := Keyword | Numeric | Date | Text.
#[export] Instance field_kind_eq_dec : EqDecision field_kind.
Proof. solve_decision. Defined.

Record FieldSpec := {
  path : str;
  f_kind : field_kind;
  wildcard : bool;
  leading_wildcard : bool }.
Definition FieldSpecOf (p : string) (k : field_kind) (w lw : bool) : FieldSpec :=
  {| path := lit p; f_kind := k; wildcard := w; leading_wildcard := lw |}.

Record ParsedField := { name : str; specs : list FieldSpec }.

Inductive bool_op : Type := OpAnd | OpOr.

Inductive Node : Type :=
  | TextNode (v : str)
  | PredicateNode (field : ParsedField) (operator v : str)
  | ExistsNode (field : ParsedField)
  | NotNode (child : Node)
  | BoolNode (operator : bool_op) (children : list Node).

Definition FIELD_SPECS_base : list (str * FieldSpec) :=
  [
   (lit "@timestamp", FieldSpecOf "@timestamp" Date false false);
   (lit "case_id", FieldSpecOf "case_id" Keyword true false);
   (lit "evidence_id", FieldSpecOf "evidence_id" Keyword true false);
   (lit "event_id", FieldSpecOf "event_id" Keyword false false);
   (lit "stable_event_id", FieldSpecOf "stable_event_id" Keyword true false);
   (lit "event_fingerprint", FieldSpecOf "event_fingerprint" Keyword true false);
   (lit "host.name", FieldSpecOf "host.name" Keyword true false);
   (lit "user.name", FieldSpecOf "user.name" Keyword true false);
   (lit "user.sid", FieldSpecOf "user.sid" Keyword true false);
   (lit "artifact.type", FieldSpecOf "artifact.type" Keyword true false);
   (lit "artifact.parser", FieldSpecOf "artifact.parser" Keyword true false);
   (lit "event.type", FieldSpecOf "event.type" Keyword true false);
   (lit "event.action", FieldSpecOf "event.action" Keyword true false);
   (lit "risk_score", FieldSpecOf "risk_score" Numeric false false);
   (lit "windows.event_id", FieldSpecOf "windows.event_id" Numeric false false);
   (lit "windows.channel", FieldSpecOf "windows.channel" Keyword true true);
   (lit "windows.provider", FieldSpecOf "windows.provider" Keyword true true);
   (lit "windows.logon_type", FieldSpecOf "windows.logon_type" Keyword true false);
   (lit "windows.service_name", FieldSpecOf "windows.service_name" Keyword true true);
   (lit "windows.task_name", FieldSpecOf "windows.task_name" Keyword true true);
   (lit "severity", FieldSpecOf "severity" Keyword true false);
   (lit "status", FieldSpecOf "status" Keyword true false);
   (lit "process.name", FieldSpecOf "process.name" Keyword true false);
   (lit "process.path", FieldSpecOf "process.path" Text true true);
   (lit "process.command_line", FieldSpecOf "process.command_line" Text true true);
   (lit "process.parent.name", FieldSpecOf "process.parent.name" Keyword true false);
   (lit "process.parent.path", FieldSpecOf "process.parent.path" Text true true);
   (lit "file.name", FieldSpecOf "file.name" Keyword true true);
   (lit "file.path", FieldSpecOf "file.path" Text true true);
   (lit "file.extension", FieldSpecOf "file.extension" Keyword true true);
   (lit "file.size", FieldSpecOf "file.size" Numeric false false);
   (lit "folder.path", FieldSpecOf "folder.path" Text true true);
   (lit "registry.key_path", FieldSpecOf "registry.key_path" Text true true);
   (lit "registry.value_name", FieldSpecOf "registry.value_name" Keyword true false);
   (lit "registry.value_data", FieldSpecOf "registry.value_data" Text true true);
   (lit "dns.domain", FieldSpecOf "dns.domain" Keyword true true);
   (lit "url.full", FieldSpecOf "url.full" Text true true);
   (lit "url.domain", FieldSpecOf "url.domain" Keyword true true);
   (lit "source.ip", FieldSpecOf "source.ip" Keyword false false);
   (lit "destination.ip", FieldSpecOf "destination.ip" Keyword false false);
   (lit "network.direction", FieldSpecOf "network.direction" Keyword true false);
   (lit "email.message_id", FieldSpecOf "email.message_id" Text true true);
   (lit "email.subject", FieldSpecOf "email.subject" Text true true);
   (lit "email.from.address", FieldSpecOf "email.from.address" Keyword true true);
   (lit "email.from.domain", FieldSpecOf "email.from.domain" Keyword true true);
   (lit "email.to.addresses", FieldSpecOf "email.to.addresses" Keyword true true);
   (lit "email.attachments.file_name", FieldSpecOf "email.attachments.file_name" Keyword true true);
   (lit "ntfs.reason", FieldSpecOf "ntfs.reason" Text true true);
   (lit "ntfs.zone_id", FieldSpecOf "ntfs.zone_id" Numeric false false);
   (lit "ntfs.host_url", FieldSpecOf "ntfs.host_url" Text true true);
   (lit "ntfs.referrer_url", FieldSpecOf "ntfs.referrer_url" Text true true);
   (lit "windows_search.indexed_path", FieldSpecOf "windows_search.indexed_path" Text true true);
   (lit "notification.title", FieldSpecOf "notification.title" Text true true);
   (lit "notification.body_preview", FieldSpecOf "notification.body_preview" Text true true);
   (lit "office.alert_text", FieldSpecOf "office.alert_text" Text true true);
   (lit "office.document_path", FieldSpecOf "office.document_path" Text true true);
   (lit "rule.id", FieldSpecOf "rule.id" Keyword true false);
   (lit "rule.name", FieldSpecOf "rule.name" Text true true);
   (lit "rule.title", FieldSpecOf "rule.title" Text true true);
   (lit "detection.source", FieldSpecOf "detection.source" Keyword true false);
   (lit "finding.type", FieldSpecOf "finding.type" Keyword true false);
   (lit "finding.status", FieldSpecOf "finding.status" Keyword true false);
   (lit "finding.severity", FieldSpecOf "finding.severity" Keyword true false);
   (lit "network.source_ip", FieldSpecOf "network.source_ip" Keyword false false);
   (lit "network.destination_ip", FieldSpecOf "network.destination_ip" Keyword false false);
   (lit "network.source_port", FieldSpecOf "network.source_port" Numeric false false);
   (lit "network.destination_port", FieldSpecOf "network.destination_port" Numeric false false);
   (lit "network.protocol", FieldSpecOf "network.protocol" Keyword true false);
   (lit "linux.process", FieldSpecOf "linux.process" Keyword true false);
   (lit "linux.username", FieldSpecOf "linux.username" Keyword true false);
   (lit "linux.hostname", FieldSpecOf "linux.hostname" Keyword true false);
   (lit "linux.source_ip", FieldSpecOf "linux.source_ip" Keyword false false);
   (lit "linux.destination_ip", FieldSpecOf "linux.destination_ip" Keyword false false);
   (lit "linux.command", FieldSpecOf "linux.command" Text true true);
   (lit "linux.event_action", FieldSpecOf "linux.event_action" Keyword true false);
   (lit "linux.jail", FieldSpecOf "linux.jail" Keyword true false);
   (lit "linux.firewall_action", FieldSpecOf "linux.firewall_action" Keyword true false);
   (lit "linux.network_protocol", FieldSpecOf "linux.network_protocol" Keyword true false);
   (lit "linux.interface_in", FieldSpecOf "linux.interface_in" Keyword true false);
   (lit "linux.interface_out", FieldSpecOf "linux.interface_out" Keyword true false);
   (lit "linux.web_server", FieldSpecOf "linux.web_server" Keyword true false);
   (lit "linux.x_forwarded_for", FieldSpecOf "linux.x_forwarded_for" Keyword false false);
   (lit "linux.http_host", FieldSpecOf "linux.http_host" Keyword true true);
   (lit "linux.suspicious_indicators", FieldSpecOf "linux.suspicious_indicators" Keyword true false);
   (lit "linux.suspicious_url_indicators", FieldSpecOf "linux.suspicious_url_indicators" Keyword true false);
   (lit "linux.run_as", FieldSpecOf "linux.run_as" Keyword true false);
   (lit "linux.package", FieldSpecOf "linux.package" Keyword true true);
   (lit "linux.package_action", FieldSpecOf "linux.package_action" Keyword true false);
   (lit "linux.package_version", FieldSpecOf "linux.package_version" Keyword true true);
   (lit "linux.terminal", FieldSpecOf "linux.terminal" Keyword true false);
   (lit "linux.library_path", FieldSpecOf "linux.library_path" Keyword true true);
   (lit "linux.pam_module", FieldSpecOf "linux.pam_module" Keyword true true);
   (lit "linux.exe", FieldSpecOf "linux.exe" Keyword true true);
   (lit "linux.cwd", FieldSpecOf "linux.cwd" Keyword true true);
   (lit "linux.audit_type", FieldSpecOf "linux.audit_type" Keyword true false);
   (lit "linux.audit_key", FieldSpecOf "linux.audit_key" Keyword true false);
   (lit "linux.syscall", FieldSpecOf "linux.syscall" Keyword true false);
   (lit "linux.timestamp_status", FieldSpecOf "linux.timestamp_status" Keyword true false);
   (lit "linux.log_format", FieldSpecOf "linux.log_format" Keyword true false);
   (lit "linux.db_engine", FieldSpecOf "linux.db_engine" Keyword true false);
   (lit "linux.db_name", FieldSpecOf "linux.db_name" Keyword true true);
   (lit "linux.db_command", FieldSpecOf "linux.db_command" Keyword true false);
   (lit "linux.db_statement", FieldSpecOf "linux.db_statement" Text true true);
   (lit "linux.db_status", FieldSpecOf "linux.db_status" Keyword true false);
   (lit "linux.db_error_code", FieldSpecOf "linux.db_error_code" Keyword true false);
   (lit "linux.db_query_time", FieldSpecOf "linux.db_query_time" Numeric false false);
   (lit "linux.db_rows_examined", FieldSpecOf "linux.db_rows_examined" Numeric false false);
   (lit "linux.vpn_software", FieldSpecOf "linux.vpn_software" Keyword true false);
   (lit "linux.vpn_status", FieldSpecOf "linux.vpn_status" Keyword true false);
   (lit "linux.vpn_assigned_ip", FieldSpecOf "linux.vpn_assigned_ip" Keyword true false);
   (lit "linux.vpn_connection", FieldSpecOf "linux.vpn_connection" Keyword true true);
   (lit "linux.vpn_component", FieldSpecOf "linux.vpn_component" Keyword true false);
   (lit "linux.sender", FieldSpecOf "linux.sender" Keyword true true);
   (lit "linux.recipient", FieldSpecOf "linux.recipient" Keyword true true);
   (lit "linux.queue_id", FieldSpecOf "linux.queue_id" Keyword true false);
   (lit "linux.smtp_status", FieldSpecOf "linux.smtp_status" Numeric false false);
   (lit "linux.helo", FieldSpecOf "linux.helo" Keyword true true);
   (lit "linux.message_id", FieldSpecOf "linux.message_id" Keyword true true);
   (lit "linux.authentication", FieldSpecOf "linux.authentication" Keyword true false);
   (lit "linux.mail_service", FieldSpecOf "linux.mail_service" Keyword true false);
   (lit "linux.mail_component", FieldSpecOf "linux.mail_component" Keyword true false);
   (lit "linux.mail_status", FieldSpecOf "linux.mail_status" Keyword true false);
   (lit "linux.mail_client_host", FieldSpecOf "linux.mail_client_host" Keyword true true);
   (lit "linux.mail_relay", FieldSpecOf "linux.mail_relay" Keyword true true);
   (lit "linux.k8s_verb", FieldSpecOf "linux.k8s_verb" Keyword true false);
   (lit "linux.k8s_resource", FieldSpecOf "linux.k8s_resource" Keyword true false);
   (lit "linux.k8s_subresource", FieldSpecOf "linux.k8s_subresource" Keyword true false);
   (lit "linux.k8s_namespace", FieldSpecOf "linux.k8s_namespace" Keyword true false);
   (lit "linux.k8s_object", FieldSpecOf "linux.k8s_object" Keyword true true);
   (lit "linux.k8s_decision", FieldSpecOf "linux.k8s_decision" Keyword true false);
   (lit "linux.k8s_groups", FieldSpecOf "linux.k8s_groups" Keyword true false);
   (lit "linux.k8s_impersonated", FieldSpecOf "linux.k8s_impersonated" Keyword true false);
   (lit "linux.sysmon_event_id", FieldSpecOf "linux.sysmon_event_id" Numeric false false);
   (lit "linux.sysmon_event", FieldSpecOf "linux.sysmon_event" Keyword true false);
   (lit "linux.container_id", FieldSpecOf "linux.container_id" Keyword true true);
   (lit "linux.container_name", FieldSpecOf "linux.container_name" Keyword true true);
   (lit "linux.container_image", FieldSpecOf "linux.container_image" Keyword true true);
   (lit "linux.container_state", FieldSpecOf "linux.container_state" Keyword true false);
   (lit "linux.container_stream", FieldSpecOf "linux.container_stream" Keyword true false);
   (lit "linux.container_privileged", FieldSpecOf "linux.container_privileged" Keyword true false);
   (lit "linux.container_env_names", FieldSpecOf "linux.container_env_names" Keyword true false);
   (lit "linux.container_mounts", FieldSpecOf "linux.container_mounts" Keyword true true);
   (lit "linux.network_mode", FieldSpecOf "linux.network_mode" Keyword true false);
   (lit "linux.pid_mode", FieldSpecOf "linux.pid_mode" Keyword true false);
   (lit "linux.k8s_pod", FieldSpecOf "linux.k8s_pod" Keyword true true)].

Definition FIELD_ALIASES : list (str * list str) :=
  [
   (lit "host", [lit "host.name"; lit "linux.hostname"]);
   (lit "user", [lit "user.name"; lit "linux.username"]);
   (lit "artifact", [lit "artifact.type"]);
   (lit "type", [lit "event.type"]);
   (lit "event", [lit "event.type"]);
   (lit "process", [lit "process.name"; lit "linux.process"]);
   (lit "command", [lit "process.command_line"]);
   (lit "file", [lit "file.path"; lit "file.name"]);
   (lit "path", [lit "file.path"; lit "folder.path"; lit "process.path"]);
   (lit "domain", [lit "dns.domain"; lit "url.domain"; lit "email.from.domain"]);
   (lit "ip", [lit "source.ip"; lit "destination.ip"; lit "network.source_ip"; lit "network.destination_ip"; lit "linux.source_ip"; lit "linux.destination_ip"]);
   (lit "port", [lit "network.source_port"; lit "network.destination_port"]);
   (lit "proto", [lit "network.protocol"; lit "linux.network_protocol"]);
   (lit "action", [lit "event.action"; lit "linux.event_action"]);
   (lit "verdict", [lit "linux.firewall_action"]);
   (lit "jail", [lit "linux.jail"]);
   (lit "xff", [lit "linux.x_forwarded_for"]);
   (lit "webserver", [lit "linux.web_server"]);
   (lit "indicator", [lit "linux.suspicious_indicators"; lit "linux.suspicious_url_indicators"]);
   (lit "runas", [lit "linux.run_as"]);
   (lit "eventid", [lit "windows.event_id"]);
   (lit "channel", [lit "windows.channel"]);
   (lit "provider", [lit "windows.provider"]);
   (lit "logontype", [lit "windows.logon_type"]);
   (lit "service", [lit "windows.service_name"]);
   (lit "task", [lit "windows.task_name"]);
   (lit "package", [lit "linux.package"]);
   (lit "pkgaction", [lit "linux.package_action"]);
   (lit "library", [lit "linux.library_path"]);
   (lit "pam", [lit "linux.pam_module"]);
   (lit "exe", [lit "linux.exe"; lit "process.path"]);
   (lit "audit", [lit "linux.audit_type"]);
   (lit "auditkey", [lit "linux.audit_key"]);
   (lit "timequality", [lit "linux.timestamp_status"]);
   (lit "logformat", [lit "linux.log_format"]);
   (lit "verb", [lit "linux.k8s_verb"]);
   (lit "resource", [lit "linux.k8s_resource"]);
   (lit "subresource", [lit "linux.k8s_subresource"]);
   (lit "namespace", [lit "linux.k8s_namespace"]);
   (lit "k8sobject", [lit "linux.k8s_object"]);
   (lit "decision", [lit "linux.k8s_decision"]);
   (lit "sysmon", [lit "linux.sysmon_event_id"]);
   (lit "dbengine", [lit "linux.db_engine"]);
   (lit "database", [lit "linux.db_name"]);
   (lit "dbcommand", [lit "linux.db_command"]);
   (lit "sql", [lit "linux.db_statement"]);
   (lit "dbstatus", [lit "linux.db_status"]);
   (lit "dberror", [lit "linux.db_error_code"]);
   (lit "vpn", [lit "linux.vpn_software"]);
   (lit "vpnstatus", [lit "linux.vpn_status"]);
   (lit "vpnip", [lit "linux.vpn_assigned_ip"]);
   (lit "vpnconn", [lit "linux.vpn_connection"]);
   (lit "sender", [lit "linux.sender"; lit "email.from.address"]);
   (lit "recipient", [lit "linux.recipient"; lit "email.to.addresses"]);
   (lit "queue", [lit "linux.queue_id"]);
   (lit "mailstatus", [lit "linux.mail_status"]);
   (lit "mailservice", [lit "linux.mail_service"]);
   (lit "relay", [lit "linux.mail_relay"]);
   (lit "container", [lit "linux.container_name"; lit "linux.container_id"]);
   (lit "image", [lit "linux.container_image"]);
   (lit "pod", [lit "linux.k8s_pod"]);
   (lit "stream", [lit "linux.container_stream"]);
   (lit "url", [lit "url.full"]);
   (lit "hash", [lit "file.sha256"; lit "file.sha1"; lit "file.md5"]);
   (lit "rule", [lit "rule.name"; lit "rule.title"; lit "rule.id"]);
   (lit "source", [lit "detection.source"; lit "artifact.parser"]);
   (lit "parser", [lit "artifact.parser"]);
   (lit "risk", [lit "risk_score"]);
   (lit "severity", [lit "severity"; lit "finding.severity"]);
   (lit "status", [lit "status"; lit "finding.status"]);
   (lit "stable", [lit "stable_event_id"])].

(** After the [FIELD_SPECS.update] call. *)
Definition FIELD_SPECS : list (str * FieldSpec) :=
  fold_left (fun d '(k, v) => Dict.set k v d)
    [
   (lit "file.sha256", FieldSpecOf "file.sha256" Keyword false false);
   (lit "file.sha1", FieldSpecOf "file.sha1" Keyword false false);
   (lit "file.md5", FieldSpecOf "file.md5" Keyword false false)]
    FIELD_SPECS_base.

(** * Is this query more than words? *)
Section advanced.
(** [\w] of the [re] module. *)
Variable is_word : Z -> bool.

(** [[@A-Za-z_]] *)
Definition field_start (c : Z) : bool :=
  ((65 <=? c) && (c <=? 90)) || ((97 <=? c) && (c <=? 122)) || one_of (lit "@_") c.
(** [[\w.@-]] *)
Definition field_char (c : Z) : bool := is_word c || one_of (lit ".@-") c.

(** [(>=|<=|:|>|<)] after [\s*]: the length matched, spaces included. *)
Definition op_after_spaces (s : str) : option nat :=
  let n := span_len isspace s in
  match drop n s with
  | c :: rest =>
      if (c =? code ">") || (c =? code "<") then
        let k := match rest with d :: _ => if d =? code "=" then 2%nat else 1%nat | [] => 1%nat end in
        Some (n + k)%nat
      else if c =? code ":" then Some (n + 1)%nat else None
  | [] => None
  end.

(** The next match of the field pattern from position [pos] on, as
    [re.finditer] steps: the name and where the match ends. *)
Fixpoint next_field (fuel : nat) (text : str) (pos : nat) : option (str * nat) :=
  match fuel with
  | O => None
  | S fuel =>
      match drop pos text with
      | [] => None
      | c :: rest =>
          if field_start c then
            let n := S (span_len field_char rest) in
            match op_after_spaces (drop n (c :: rest)) with
            | Some m => Some (take n (c :: rest), (pos + n + m)%nat)
            | None => next_field fuel text (pos + 1)
            end
          else next_field fuel text (pos + 1)
      end
  end.

Definition known_field (field_name : str) : bool :=
  bool_decide (is_Some (Dict.get field_name FIELD_SPECS)) ||
  bool_decide (is_Some (Dict.get field_name FIELD_ALIASES)) ||
  one_of field_name (code ".") || startswith (lit "@") field_name.

Fixpoint some_field (fuel : nat) (text : str) (pos : nat) : bool :=
  match fuel with
  | O => false
  | S fuel =>
      match next_field (S (length text)) text pos with
      | None => false
      | Some (field_name, pos') => known_field field_name || some_field fuel text pos'
      end
  end.

(** Case-insensitive matching of ASCII letters by [re]; the long s folds to s. *)
Definition ic_eq (lower_letter c : Z) : bool :=
  (c =? lower_letter) || (c =? lower_letter - 32) || ((lower_letter =? code "s") && (c =? 383)).
Fixpoint ic_prefix (p s : str) : bool :=
  match p, s with
  | [], _ => true
  | c :: p', d :: s' => ic_eq c d && ic_prefix p' s'
  | _, [] => false
  end.

(** [re.search(r"(^|\s)(AND|OR|NOT)(\s|$)", text, IGNORECASE)] on stripped text. *)
Definition word_at (w : str) (s : str) : bool :=
  ic_prefix w s && match drop (length w) s with [] => true | c :: _ => isspace c end.
Fixpoint has_connective (at_start : bool) (s : str) : bool :=
  (at_start && (word_at (lit "and") s || word_at (lit "or") s || word_at (lit "not") s)) ||
  match s with [] => false | c :: s' => has_connective (isspace c) s' end.

(** [re.search(r"\bhas\s*:\s*[@A-Za-z_]", text, IGNORECASE)] *)
Definition has_at (s : str) : bool :=
  ic_prefix (lit "has") s &&
  let s := drop 3 s in
  match drop (span_len isspace s) s with
  | c :: s => (c =? code ":") &&
      match drop (span_len isspace s) s with
      | d :: _ => field_start d || one_of [304; 305; 383; 8490] d
      | [] => false
      end
  | [] => false
  end.
Fixpoint has_has (after_word : bool) (s : str) : bool :=
  (negb after_word && has_at s) || match s with [] => false | c :: s' => has_has (is_word c) s' end.

Definition query_has_advanced_syntax (query : str) : bool :=
  let text := strip query in
  match text with
  | [] => false
  | _ =>
      some_field (S (length text)) text 0 || has_connective true text || has_has false text ||
      one_of text (code "(") || one_of text (code ")")
  end.
End advanced.

(** * Tokens *)
Section tokenizer.
Variable query : str.

(** The loop over a quoted string: position and buffer. *)
Definition quote_step (st : nat * str) : res (nat * str + nat * str) :=
  let (i, buffer) := st in
  match query !! i with
  | None => Raise QuerySyntaxError
  | Some c =>
      match (if c =? 92 then query !! (i + 1)%nat else None) with
      | Some esc => Ok (inl ((i + 2)%nat, buffer ++ [esc]))
      | None =>
          if c =? 34 then Ok (inr ((i + 1)%nat, buffer))
          else Ok (inl ((i + 1)%nat, buffer ++ [c]))
      end
  end.

Definition word_char (c : Z) : bool := negb (isspace c) && negb (one_of (lit "()<>:" ++ [34]) c).

(** [str.upper] as far as comparing with AND, OR and NOT goes: no other
    character has an upper case made of their letters. *)
Definition ascii_upper (s : str) : str :=
  map (fun c => if (97 <=? c) && (c <=? 122) then c - 32 else c) s.

Definition tokenize_step (st : nat * list Token) : res (nat * list Token + list Token) :=
  let (i, tokens) := st in
  match query !! i with
  | None => Ok (inr tokens)
  | Some char =>
      if isspace char then Ok (inl ((i + 1)%nat, tokens))
      else if one_of (lit "()") char then
        Ok (inl ((i + 1)%nat, tokens ++ [{| kind := if char =? code "(" then K_LPAREN else K_RPAREN;
                                            value := [char]; position := i |}]))
      else if startswith (lit ">=") (drop i query) || startswith (lit "<=") (drop i query) then
        Ok (inl ((i + 2)%nat, tokens ++ [{| kind := K_OP; value := take 2 (drop i query); position := i |}]))
      else if one_of (lit ":<>") char then
        Ok (inl ((i + 1)%nat, tokens ++ [{| kind := K_OP; value := [char]; position := i |}]))
      else if char =? 34 then
        let! (i', buffer) := while (S (length query)) quote_step ((i + 1)%nat, []) in
        Ok (inl (i', tokens ++ [{| kind := K_STRING; value := buffer; position := i |}]))
      else
        let n := span_len word_char (drop i query) in
        let value := take n (drop i query) in
        let upper := ascii_upper value in
        let token :=
          if bool_decide (upper = lit "AND") then {| kind := K_AND; value := upper; position := i |}
          else if bool_decide (upper = lit "OR") then {| kind := K_OR; value := upper; position := i |}
          else if bool_decide (upper = lit "NOT") then {| kind := K_NOT; value := upper; position := i |}
          else {| kind := K_WORD; value := value; position := i |} in
        Ok (inl ((i + n)%nat, tokens ++ [token]))
  end.

Definition _tokenize : res (list Token) :=
  let! tokens := while (S (length query)) tokenize_step (0%nat, []) in
  let! _ := raise_if (MAX_TOKENS <? length tokens)%nat QuerySyntaxError in
  Ok tokens.
End tokenizer.

(** * The parser *)

Definition _resolve_field (nm : str) : res ParsedField :=
  let normalized := strip nm in
  let actuals := default [normalized] (Dict.get normalized FIELD_ALIASES) in
  let! ss := mapM_py (fun item => of_option QuerySyntaxError (Dict.get item FIELD_SPECS)) actuals in
  Ok {| name := normalized; specs := ss |}.

(** The tokens left and the two counters. *)
Record PState := { tokens : list Token; wildcard_clauses : nat; or_terms : nat }.

Definition _consume (st : PState) : res (Token * PState) :=
  match tokens st with
  | [] => Raise QuerySyntaxError
  | t :: ts => Ok (t, {| tokens := ts; wildcard_clauses := wildcard_clauses st; or_terms := or_terms st |})
  end.

Definition _accept (k : token_kind) (v : option str) (st : PState) : option PState :=
  match tokens st with
  | [] => None
  | t :: ts =>
      if decide (kind t = k) then
        match v with
        | Some v => if decide (value t = v)
                    then Some {| tokens := ts; wildcard_clauses := wildcard_clauses st; or_terms := or_terms st |}
                    else None
        | None => Some {| tokens := ts; wildcard_clauses := wildcard_clauses st; or_terms := or_terms st |}
        end
      else None
  end.

Definition starts_clause (st : PState) : bool :=
  match tokens st with
  | t :: _ => match kind t with K_WORD | K_STRING | K_NOT | K_LPAREN => true | _ => false end
  | [] => false
  end.

Definition _parse_atom (st : PState) : res (Node * PState) :=
  match tokens st with
  | [] => Raise QuerySyntaxError
  | token :: rest =>
      match kind token with
      | K_WORD =>
          if bool_decide (lower (value token) = lit "has") then
            let! (_, st) := _consume st in
            match _accept K_OP (Some (lit ":")) st with
            | None => Raise QuerySyntaxError
            | Some st =>
                let! (field_token, st) := _consume st in
                match kind field_token with
                | K_WORD => let! field := _resolve_field (value field_token) in Ok (ExistsNode field, st)
                | _ => Raise QuerySyntaxError
                end
            end
          else if match rest with t :: _ => bool_decide (kind t = K_OP) | [] => false end then
            let! (t, st) := _consume st in
            let! field := _resolve_field (value t) in
            let! (op, st) := _consume st in
            let! (value_token, st) := _consume st in
            match kind value_token with
            | K_WORD | K_STRING =>
                let v := value value_token in
                let st := if _WILDCARD_RE v
                          then {| tokens := tokens st; wildcard_clauses := wildcard_clauses st + 1;
                                  or_terms := or_terms st |}
                          else st in
                Ok (PredicateNode field (value op) v, st)
            | _ => Raise QuerySyntaxError
            end
          else let! (t, st) := _consume st in Ok (TextNode (value t), st)
      | K_STRING => let! (t, st) := _consume st in Ok (TextNode (value t), st)
      | _ => Raise QuerySyntaxError
      end
  end.

Fixpoint _parse_or (fuel : nat) (st : PState) : res (Node * PState) :=
  match fuel with
  | O => OutOfFuel
  | S fuel =>
      let! (n, st) := _parse_and fuel st in
      let! (nodes, st) := or_loop fuel [n] st in
      match nodes with
      | [n] => Ok (n, st)
      | _ => Ok (BoolNode OpOr nodes, st)
      end
  end
with or_loop (fuel : nat) (nodes : list Node) (st : PState) : res (list Node * PState) :=
  match fuel with
  | O => OutOfFuel
  | S fuel =>
      match _accept K_OR None st with
      | Some st =>
          let st := {| tokens := tokens st; wildcard_clauses := wildcard_clauses st; or_terms := or_terms st + 1 |} in
          let! (n, st) := _parse_and fuel st in
          or_loop fuel (nodes ++ [n]) st
      | None => Ok (nodes, st)
      end
  end
with _parse_and (fuel : nat) (st : PState) : res (Node * PState) :=
  match fuel with
  | O => OutOfFuel
  | S fuel =>
      let! (n, st) := _parse_unary fuel st in
      let! (nodes, st) := and_loop fuel [n] st in
      match nodes with
      | [n] => Ok (n, st)
      | _ =>
          let! _ := raise_if (MAX_QUERY_TERMS <? length nodes)%nat QuerySyntaxError in
          Ok (BoolNode OpAnd nodes, st)
      end
  end
with and_loop (fuel : nat) (nodes : list Node) (st : PState) : res (list Node * PState) :=
  match fuel with
  | O => OutOfFuel
  | S fuel =>
      match _accept K_AND None st with
      | Some st =>
          let! (n, st) := _parse_unary fuel st in
          and_loop fuel (nodes ++ [n]) st
      | None =>
          if starts_clause st then
            let! (n, st) := _parse_unary fuel st in
            and_loop fuel (nodes ++ [n]) st
          else Ok (nodes, st)
      end
  end
with _parse_unary (fuel : nat) (st : PState) : res (Node * PState) :=
  match fuel with
  | O => OutOfFuel
  | S fuel =>
      match _accept K_NOT None st with
      | Some st => let! (n, st) := _parse_unary fuel st in Ok (NotNode n, st)
      | None => _parse_primary fuel st
      end
  end
with _parse_primary (fuel : nat) (st : PState) : res (Node * PState) :=
  match fuel with
  | O => OutOfFuel
  | S fuel =>
      match _accept K_LPAREN None st with
      | Some st =>
          let! (n, st) := _parse_or fuel st in
          match _accept K_RPAREN None st with
          | Some st => Ok (n, st)
          | None => Raise QuerySyntaxError
          end
      | None => _parse_atom st
      end
  end.

Definition parse (ts : list Token) : res Node :=
  let! (node, st) := _parse_or (5 * length ts + 5) {| tokens := ts; wildcard_clauses := 0; or_terms := 0 |} in
  let! _ := raise_if (negb (bool_decide (length (tokens st) = 0%nat))) QuerySyntaxError in
  let! _ := raise_if (MAX_OR_TERMS <? or_terms st)%nat QuerySyntaxError in
  let! _ := raise_if (MAX_WILDCARD_CLAUSES <? wildcard_clauses st)%nat QuerySyntaxError in
  Ok node.

(** * Values, the query sent out, and the evaluator *)

Section runtime.
Context `{Runtime}.

(** [str] of a container, which the code applies to any candidate. *)
Variable repr : json -> str.

Definition _normalize_string (v : json) : str :=
  match v with
  | JNull => []
  | _ => py_str repr v
  end.

Inductive coerced : Type :=
  | CInt (n : Z)
  | CFloat (f : float)
  | CStr (s : str).

Definition utc_text (d : datetime) : res coerced :=
  match utc_isoformat d with inr s => Ok (CStr s) | inl e => Raise (QueryPy (utc_exn e)) end.

Definition _coerce_value (spec : FieldSpec) (v : str) : res coerced :=
  match f_kind spec with
  | Numeric =>
      if one_of v (code ".") then CFloat <$> of_option QuerySyntaxError (float_of_str v)
      else CInt <$> of_option QuerySyntaxError (py_int v)
  | Date => let! d := of_option QuerySyntaxError (date_parse v) in utc_text d
  | _ => Ok (CStr v)
  end.

(** gt, gte, lt and lte. *)
Inductive range_op : Type := RGt | RGte | RLt | RLte.

Definition range_op_of (operator : str) : option range_op :=
  if bool_decide (operator = lit ">") then Some RGt
  else if bool_decide (operator = lit ">=") then Some RGte
  else if bool_decide (operator = lit "<") then Some RLt
  else if bool_decide (operator = lit "<=") then Some RLte
  else None.

(** The search engine's query language, as far as it is used; [T] is what the
    caller's builder makes of free text. *)
Inductive es_query (T : Type) : Type :=
  | Range (p : str) (op : range_op) (v : coerced)
  | Term (p : str) (v : coerced)
  | Wildcard (p v : str)
  | MatchPhrase (p v : str)
  | Exists (p : str)
  | FreeText (t : T)
  | Should (qs : list (es_query T))
  | Must (qs : list (es_query T))
  | MustNot (qs : list (es_query T)).
#[global] Arguments Range {T}.
#[global] Arguments Term {T}.
#[global] Arguments Wildcard {T}.
#[global] Arguments MatchPhrase {T}.
#[global] Arguments Exists {T}.
#[global] Arguments FreeText {T}.
#[global] Arguments Should {T}.
#[global] Arguments Must {T}.
#[global] Arguments MustNot {T}.

Definition ordered (k : field_kind) : bool :=
  match k with Numeric | Date => true | _ => false end.

Definition _query_for_spec {T} (spec : FieldSpec) (operator v : str) : res (es_query T) :=
  let! c := _coerce_value spec v in
  match range_op_of operator with
  | Some op => if ordered (f_kind spec) then Ok (Range (path spec) op c) else Raise QuerySyntaxError
  | None =>
      let! _ := raise_if (negb (bool_decide (operator = lit ":"))) QuerySyntaxError in
      if ordered (f_kind spec) then Ok (Term (path spec) c)
      else if _WILDCARD_RE v then
        let! _ := raise_if (negb (wildcard spec)) QuerySyntaxError in
        let! _ := raise_if (startswith (lit "*") v && negb (leading_wildcard spec)) QuerySyntaxError in
        Ok (Wildcard (path spec) v)
      else match f_kind spec with
           | Text => Ok (MatchPhrase (path spec) v)
           | _ => Ok (Term (path spec) (CStr v))
           end
  end.

(** [{"field": ..., "operator": ..., "value": ...}] *)
Fixpoint _collect_filters (n : Node) : list (str * str * str) :=
  match n with
  | TextNode _ => []
  | PredicateNode f op v => [(name f, op, v)]
  | ExistsNode f => [(name f, lit "has", [])]
  | NotNode c => _collect_filters c
  | BoolNode _ cs => flat_map _collect_filters cs
  end.

Fixpoint _has_text_terms (n : Node) : bool :=
  match n with
  | TextNode _ => true
  | NotNode c => _has_text_terms c
  | BoolNode _ cs => existsb _has_text_terms cs
  | _ => false
  end.

Section build.
Context {T : Type} (text_query_builder : str -> T).

Fixpoint _build_query (n : Node) : res (es_query T) :=
  match n with
  | TextNode v => Ok (FreeText (text_query_builder v))
  | ExistsNode f =>
      match specs f with
      | [spec] => Ok (Exists (path spec))
      | ss => Ok (Should (map (fun spec => Exists (path spec)) ss))
      end
  | PredicateNode f op v =>
      let! clauses := mapM_py (fun spec => _query_for_spec spec op v) (specs f) in
      match clauses with
      | [c] => Ok c
      | _ => Ok (Should clauses)
      end
  | NotNode c => let! q := _build_query c in Ok (MustNot [q])
  | BoolNode op cs =>
      let! qs := (fix go (l : list Node) : res (list (es_query T)) :=
                    match l with
                    | [] => Ok []
                    | c :: l' => let! q := _build_query c in let! qs := go l' in Ok (q :: qs)
                    end) cs in
      match op with OpOr => Ok (Should qs) | OpAnd => Ok (Must qs) end
  end.
End build.

(** One path component of [_iter_values]. *)
Definition descend (part : str) (item : json) : list json :=
  match item with
  | JDict d =>
      match Dict.get part d with
      | Some (JList l) => l
      | Some JNull | None => []
      | Some v => [v]
      end
  | JList l => l
  | _ => []
  end.
Definition flatten (item : json) : list json := match item with JList l => l | _ => [item] end.

Definition _iter_values (payload : json) (p : str) : list json :=
  flat_map flatten (fold_left (fun current part => flat_map (descend part) current)
                      (split_on (code ".") p) [payload]).

(** The pattern of [_match_string]: [*] and [?] stand for characters other
    than a newline, and [$] also matches before a final newline. *)
Fixpoint glob (pattern : str) : str -> bool :=
  match pattern with
  | [] => fun s => match s with [] => true | [c] => c =? 10 | _ => false end
  | c :: pattern' =>
      if c =? code "*" then
        fix star (s : str) : bool :=
          glob pattern' s || match s with d :: s' => negb (d =? 10) && star s' | [] => false end
      else fun s =>
        match s with
        | d :: s' => (if c =? code "?" then negb (d =? 10) else re_same c d) && glob pattern' s'
        | [] => false
        end
  end.
Definition _match_string (v expected : str) : bool := glob expected v.

(** [int(x)] and [float(x)] with every exception caught. *)
Definition int_of (v : json) : option Z :=
  match v with
  | JInt n => Some n
  | JBool b => Some (if b then 1 else 0)
  | JStr s => py_int s
  | JFloat f => float_trunc f
  | _ => None
  end.
Definition float_of (v : json) : option float :=
  match v with
  | JFloat f => Some f
  | JInt n => Some (float_of_Z n)
  | JBool b => Some (float_of_Z (if b then 1 else 0))
  | JStr s => float_of_str s
  | _ => None
  end.

(** [a < b] and [a <= b] on the values compared: mixing text with numbers is
    a [TypeError]. *)
Definition compare_with (fz : Z -> Z -> bool) (ff : Z + float -> Z + float -> bool) (fs : str -> str -> bool)
    (a b : coerced) : res bool :=
  match a, b with
  | CInt x, CInt y => Ok (fz x y)
  | CInt x, CFloat y => Ok (ff (inl x) (inr y))
  | CFloat x, CInt y => Ok (ff (inr x) (inl y))
  | CFloat x, CFloat y => Ok (ff (inr x) (inr y))
  | CStr x, CStr y => Ok (fs x y)
  | _, _ => Raise (QueryPy TypeError)
  end.
Definition py_lt := compare_with Z.ltb num_lt str_lt.
Definition py_le := compare_with Z.leb num_le (fun a b => negb (str_lt b a)).

(** The comparison table is built whole before one entry is taken. *)
Definition compare_all (op : range_op) (candidate expected : coerced) : res bool :=
  let! g := py_lt expected candidate in
  let! ge := py_le expected candidate in
  let! l := py_lt candidate expected in
  let! le := py_le candidate expected in
  Ok (match op with RGt => g | RGte => ge | RLt => l | RLte => le end).

(** The candidate as compared; [None] when it cannot be read. *)
Definition candidate_value (spec : FieldSpec) (candidate : json) : res (option coerced) :=
  match f_kind spec with
  | Date =>
      match date_parse (_normalize_string candidate) with
      | None => Ok None
      | Some d => let! c := utc_text d in Ok (Some c)
      end
  | _ =>
      Ok (if one_of (_normalize_string candidate) (code ".") then CFloat <$> float_of candidate
          else CInt <$> int_of candidate)
  end.

Definition _evaluate_spec (spec : FieldSpec) (operator expected : str) (candidate : json) : res bool :=
  match candidate with
  | JNull => Ok false
  | _ =>
      match range_op_of operator with
      | Some op =>
          let! expected_value := _coerce_value spec expected in
          let! candidate_value := candidate_value spec candidate in
          match candidate_value with
          | None => Ok false
          | Some c => compare_all op c expected_value
          end
      | None =>
          let candidate_text := _normalize_string candidate in
          if _WILDCARD_RE expected then Ok (_match_string candidate_text expected)
          else match f_kind spec with
               | Numeric => Ok (bool_decide (candidate_text = expected))
               | _ => Ok (bool_decide (py_lower candidate_text = py_lower expected))
               end
      end
  end.

Section evaluate.
Variables (payload : json) (text_haystack : str).

Fixpoint _evaluate (n : Node) : res bool :=
  match n with
  | TextNode v => Ok (contains (py_lower v) text_haystack)
  | ExistsNode f => Ok (existsb (fun spec => match _iter_values payload (path spec) with [] => false | _ => true end) (specs f))
  | PredicateNode f op v =>
      anyM (fun spec => anyM (_evaluate_spec spec op v) (_iter_values payload (path spec))) (specs f)
  | NotNode c => let! b := _evaluate c in Ok (negb b)
  | BoolNode op cs =>
      (fix go (l : list Node) : res bool :=
         match l with
         | [] => Ok (match op with OpOr => false | OpAnd => true end)
         | c :: l' =>
             let! b := _evaluate c in
             match op with
             | OpOr => if (b : bool) then Ok true else go l'
             | OpAnd => if (b : bool) then go l' else Ok false
             end
         end) cs
  end.
End evaluate.

(** * Entry points *)
Inductive query_mode : Type := Plain | Advanced | Mixed.

Record query_info (T : Type) := {
  mode : query_mode;
  normalized_query : str;
  applied_filters : list (str * str * str);
  ast : option Node;
  q_query : es_query T }.
#[global] Arguments mode {T}.
#[global] Arguments normalized_query {T}.
#[global] Arguments applied_filters {T}.
#[global] Arguments ast {T}.
#[global] Arguments q_query {T}.

Definition plain_info {T} (text_query_builder : str -> T) (text : str) : query_info T :=
  {| mode := Plain; normalized_query := text; applied_filters := []; ast := None;
     q_query := FreeText (text_query_builder text) |}.

Definition analyze_query_syntax {T} (is_word : Z -> bool) (query : str) (text_query_builder : str -> T)
    : res (query_info T) :=
  let text := strip query in
  match text with
  | [] => Ok (plain_info text_query_builder [])
  | _ =>
      if negb (query_has_advanced_syntax is_word text) then Ok (plain_info text_query_builder text)
      else
        let! ts := _tokenize text in
        let! node := parse ts in
        let filters := _collect_filters node in
        let! q := _build_query text_query_builder node in
        Ok {| mode := if _has_text_terms node && negb (match filters with [] => true | _ => false end)
                      then Mixed else Advanced;
              normalized_query := text; applied_filters := filters; ast := Some node; q_query := q |}
  end.

Definition evaluate_query_syntax {T} (info : query_info T) (payload : json) (text_haystack : str) : res bool :=
  match ast info with
  | None =>
      let query_text := py_lower (strip (normalized_query info)) in
      Ok (match query_text with [] => true | _ => contains query_text text_haystack end)
  | Some node => _evaluate payload text_haystack node
  end.
End runtime.
End QuerySyntax.
