(* ===== verification/QueryParse.v ===== *)
(** Theorems about the tokenizer and parser of QuerySyntax: termination, the
    limits, and the round trip from any expression back to itself. *)
From S2P Require Import Prelude PyBase PyRuntime QuerySyntax.
Import Str PyRuntime QuerySyntax.

Module QueryParse.

Definition syntax_error (e : query_exn) : Prop := e = QuerySyntaxError.

(** * Tokens *)
Lemma quote_outcome query i :
  (i <= length query)%nat ->
  outcome (fun '(j, _) => (i < j <= length query)%nat) syntax_error
    (while (S (length query)) (quote_step query) (i, [])).
Proof.
  intros Hi. apply (while_total (fun '(p, _) => (i <= p <= length query)%nat)
    (fun '(p, _) => (length query - p)%nat)); [|lia..].
  intros [p buf] Hp. unfold quote_step. destruct (query !! p) as [c|] eqn:E; [|done].
  pose proof (lookup_lt_Some _ _ _ E).
  destruct (if c =? 92 then query !! (p + 1)%nat else None) as [esc|] eqn:Ee.
  - destruct (c =? 92); [|done]. pose proof (lookup_lt_Some _ _ _ Ee). cbn. lia.
  - destruct (c =? 34); cbn; lia.
Qed.

Definition tokens_ok (n : nat) (ts : list Token) : Prop :=
  StronglySorted lt (map position ts) /\ Forall (fun t => (position t < n)%nat) ts.

Lemma tokens_ok_snoc n m ts t :
  tokens_ok n ts -> (n <= position t < m)%nat -> tokens_ok m (ts ++ [t]).
Proof.
  intros [Hs Hf] Ht. unfold tokens_ok. rewrite map_app. split.
  - clear -Hs Hf Ht. induction Hf as [|x ts Hx Hf IH]; cbn; [repeat constructor|].
    cbn in Hs. apply StronglySorted_inv in Hs as [Hs Hall]. constructor; [by apply IH|].
    apply Forall_app. split; [done|]. constructor; [lia|constructor].
  - apply Forall_app. split; [|constructor; [lia|constructor]].
    eapply Forall_impl; [exact Hf|]. cbn. lia.
Qed.

Lemma tokens_ok_mono n m ts : tokens_ok n ts -> (n <= m)%nat -> tokens_ok m ts.
Proof. intros [Hs Hf] ?. split; [done|]. eapply Forall_impl; [exact Hf|]. cbn. lia. Qed.

Lemma word_progress query i c :
  query !! i = Some c -> isspace c = false -> one_of (lit "()") c = false ->
  one_of (lit ":<>") c = false -> (c =? 34) = false ->
  (0 < span_len word_char (drop i query))%nat.
Proof.
  intros Hc Hsp H1 H2 H3. rewrite (drop_S _ _ _ Hc). cbn [span_len].
  assert (word_char c = true) as ->; [|lia]. unfold word_char. rewrite Hsp. cbn [negb andb].
  apply negb_true_iff. change (lit "()<>:" ++ [34]) with [40; 41; 60; 62; 58; 34].
  change (lit "()") with [40; 41] in H1. change (lit ":<>") with [58; 60; 62] in H2.
  unfold one_of in *. cbn [existsb] in *. to_prop. by repeat (apply orb_false_iff; split); try apply Z.eqb_neq.
Qed.

Lemma tokenize_outcome query :
  outcome (fun ts => tokens_ok (length query) ts /\ (length ts <= MAX_TOKENS)%nat) syntax_error (_tokenize query).
Proof.
  unfold _tokenize. apply outcome_bind.
  eapply (outcome_mono (tokens_ok (length query)) _ syntax_error); [|done|].
  { intros ts Hts. destruct (_ <? _)%nat eqn:E; [done|]. to_prop. done. }
  apply (while_total (fun '(p, ts) => (p <= length query)%nat /\ tokens_ok p ts)
    (fun '(p, _) => (length query - p)%nat)); [|split; [lia|repeat constructor]|lia].
  intros [p ts] [Hp Hts]. unfold tokenize_step. destruct (query !! p) as [c|] eqn:E.
  2:{ cbn. by apply (tokens_ok_mono p). }
  pose proof (lookup_lt_Some _ _ _ E) as Hlt.
  destruct (isspace c) eqn:Esp; [cbn; split; [split; [lia|]|lia]; apply (tokens_ok_mono p); [done|lia]|].
  destruct (one_of (lit "()") c) eqn:Epar; [cbn; split; [split; [lia|]|lia]; apply (tokens_ok_snoc p); [done|cbn [position]; lia]|].
  destruct (startswith (lit ">=") _ || _) eqn:Eop2.
  { cbn. assert (p + 2 <= length query)%nat.
    { apply orb_true_iff in Eop2 as [H|H]; apply startswith_spec in H as [r Hr];
        apply (f_equal length) in Hr; rewrite length_drop, length_app in Hr; vm_compute (length (lit _)) in Hr; lia. }
    split; [split; [lia|]|lia]. apply (tokens_ok_snoc p); [done|cbn [position]; lia]. }
  destruct (one_of (lit ":<>") c) eqn:Eop; [cbn; split; [split; [lia|]|lia]; apply (tokens_ok_snoc p); [done|cbn [position]; lia]|].
  destruct (c =? 34) eqn:Eq.
  { apply outcome_bind. eapply (outcome_mono _ _ syntax_error); [|done|apply quote_outcome; lia].
    intros [j buf] Hj. cbn. split; [split; [lia|]|lia]. apply (tokens_ok_snoc p); [done|cbn [position]; lia]. }
  pose proof (word_progress query p c E Esp Epar Eop Eq) as Hn.
  pose proof (span_len_le word_char (drop p query)) as Hle. rewrite length_drop in Hle.
  cbn. split; [split; [lia|]|lia]. apply (tokens_ok_snoc p); [done|].
  repeat case_bool_decide; cbn [position]; lia.
Qed.

(** * The parser ends, and what it builds *)

(** What every built expression satisfies: fields come from the tables, and a
    Boolean node has at least two children, an AND at most 64. *)
Definition field_ok (f : ParsedField) : Prop := exists nm, _resolve_field nm = Ok f.

Fixpoint node_ok (n : Node) : Prop :=
  match n with
  | TextNode _ => True
  | PredicateNode f _ _ | ExistsNode f => field_ok f
  | NotNode c => node_ok c
  | BoolNode op cs =>
      (2 <= length cs)%nat /\ match op with OpAnd => (length cs <= MAX_QUERY_TERMS)%nat | OpOr => True end /\
      (fix go (l : list Node) : Prop := match l with [] => True | c :: l' => node_ok c /\ go l' end) cs
  end.

Lemma node_ok_bool op cs :
  node_ok (BoolNode op cs) <->
  (2 <= length cs)%nat /\ match op with OpAnd => (length cs <= MAX_QUERY_TERMS)%nat | OpOr => True end /\
  Forall node_ok cs.
Proof.
  cbn [node_ok]. assert (forall l, (fix go (l : list Node) : Prop :=
    match l with [] => True | c :: l' => node_ok c /\ go l' end) l <-> Forall node_ok l) as ->; [|done].
  induction l as [|c l IH]; [split; [constructor|done]|]. rewrite IH, Forall_cons. done.
Qed.

Definition toks (st : PState) : nat := length (tokens st).

(** A run that returns has used at least one token, or none for the loops. *)
Definition uses (k : nat) (st : PState) (m : res (Node * PState)) : Prop :=
  outcome (fun '(n, st') => (toks st' + k <= toks st)%nat /\ node_ok n) syntax_error m.
Definition uses_list (nodes : list Node) (st : PState) (m : res (list Node * PState)) : Prop :=
  outcome (fun '(ns, st') => (toks st' <= toks st)%nat /\ (length nodes <= length ns)%nat /\ Forall node_ok ns)
    syntax_error m.

Lemma accept_toks k v st st' : _accept k v st = Some st' -> toks st = S (toks st').
Proof.
  unfold _accept, toks. destruct (tokens st) as [|t ts]; [done|].
  destruct (decide _); [|done]. destruct v as [v|]; [destruct (decide _); [|done]|]; by intros [= <-].
Qed.

Lemma consume_outcome st :
  outcome (fun '(t, st') => toks st = S (toks st') /\ tokens st = t :: tokens st') syntax_error (_consume st).
Proof. unfold _consume, toks. by destruct (tokens st) as [|t ts]. Qed.

Lemma mapM_syntax {A} (d : list (str * A)) l :
  outcome (fun _ => True) syntax_error (mapM_py (fun item => of_option QuerySyntaxError (Dict.get item d)) l).
Proof.
  induction l as [|x l IH]; [done|]. cbn [mapM_py]. destruct (Dict.get x d); [|done].
  cbn [of_option mbind result_bind]. apply outcome_bind. eapply (outcome_mono _ _ syntax_error); [|done|exact IH]. done.
Qed.

Lemma resolve_outcome nm : outcome field_ok syntax_error (_resolve_field nm).
Proof.
  assert (outcome (fun _ => True) syntax_error (_resolve_field nm)) as Ho.
  { unfold _resolve_field. apply outcome_bind. eapply (outcome_mono _ _ syntax_error); [|done|apply mapM_syntax]. done. }
  destruct (_resolve_field nm) as [f|e|] eqn:E; [by exists nm|exact Ho|exact Ho].
Qed.

Ltac use_consume t st' H :=
  apply outcome_bind; eapply (outcome_mono _ _ syntax_error); [|done|apply consume_outcome]; intros [t st'] [H _].
Ltac use_resolve f H :=
  apply outcome_bind; eapply (outcome_mono _ _ syntax_error); [|done|apply resolve_outcome]; intros f H.

Lemma atom_outcome st : uses 1 st (_parse_atom st).
Proof.
  unfold uses, _parse_atom. destruct (tokens st) as [|t ts] eqn:Et; [done|].
  destruct (kind t); try done.
  - use_consume t1 st1 H1. cbn. split; [lia|done].
  - destruct (bool_decide _).
    + use_consume t1 st1 H1. destruct (_accept K_OP _ st1) as [st2|] eqn:Ea; [|done].
      apply accept_toks in Ea. use_consume t2 st3 H3. destruct (kind t2); try done.
      use_resolve f Hf. cbn. split; [lia|done].
    + destruct (match ts with t :: _ => _ | [] => _ end).
      * use_consume t1 st1 H1. use_resolve f Hf. use_consume t2 st2 H2. use_consume t3 st3 H3.
        destruct (kind t3); try done; cbn; destruct (_WILDCARD_RE _); unfold toks in *; cbn; (split; [lia|done]).
      * use_consume t1 st1 H1. cbn. split; [lia|done].
Qed.

Lemma parser_outcome fuel :
  (forall st, (5 * toks st + 1 <= fuel)%nat -> uses 1 st (_parse_primary fuel st)) /\
  (forall st, (5 * toks st + 2 <= fuel)%nat -> uses 1 st (_parse_unary fuel st)) /\
  (forall nodes st, (5 * toks st + 3 <= fuel)%nat -> Forall node_ok nodes ->
     uses_list nodes st (and_loop fuel nodes st)) /\
  (forall st, (5 * toks st + 3 <= fuel)%nat -> uses 1 st (_parse_and fuel st)) /\
  (forall nodes st, (5 * toks st + 4 <= fuel)%nat -> Forall node_ok nodes ->
     uses_list nodes st (or_loop fuel nodes st)) /\
  (forall st, (5 * toks st + 4 <= fuel)%nat -> uses 1 st (_parse_or fuel st)).
Proof.
  induction fuel as [|fuel (IHp & IHu & IHal & IHa & IHol & IHo)]; [repeat split; intros; lia|].
  split; [|split; [|split; [|split; [|split]]]].
  - intros st Hf. unfold uses. cbn [_parse_primary]. destruct (_accept _ _ st) as [st1|] eqn:Ea; [|apply atom_outcome].
    apply accept_toks in Ea. apply outcome_bind. eapply (outcome_mono _ _ syntax_error); [|done|apply IHo; lia].
    intros [n st2] [H2 Hn]. destruct (_accept _ _ st2) as [st3|] eqn:Eb; [|done].
    apply accept_toks in Eb. cbn. split; [lia|done].
  - intros st Hf. unfold uses. cbn [_parse_unary]. destruct (_accept _ _ st) as [st1|] eqn:Ea.
    + apply accept_toks in Ea. apply outcome_bind. eapply (outcome_mono _ _ syntax_error); [|done|apply IHu; lia].
      intros [n st2] [H2 Hn]. cbn. split; [lia|done].
    + apply IHp. lia.
  - intros nodes st Hf Hn. unfold uses_list. cbn [and_loop].
    assert (Hstep : forall st1, (toks st1 <= toks st)%nat ->
      outcome (fun '(ns, st') => (toks st' <= toks st)%nat /\ (length nodes <= length ns)%nat /\ Forall node_ok ns)
        syntax_error (let! (n, st2) := _parse_unary fuel st1 in and_loop fuel (nodes ++ [n]) st2)).
    { intros st1 H1. apply outcome_bind. eapply (outcome_mono _ _ syntax_error); [|done|apply IHu; lia].
      intros [n st2] [H2 Hn2]. eapply (outcome_mono _ _ syntax_error); [|done|apply IHal; [lia|]].
      - intros [ns st3] (H3 & Hl & Hns). rewrite length_app in Hl. cbn in Hl. split; [lia|]. split; [lia|done].
      - apply Forall_app. split; [done|by constructor]. }
    destruct (_accept _ _ st) as [st1|] eqn:Ea.
    + apply accept_toks in Ea. apply Hstep. lia.
    + destruct (starts_clause st); [by apply Hstep|]. cbn. done.
  - intros st Hf. unfold uses. cbn [_parse_and]. apply outcome_bind.
    eapply (outcome_mono _ _ syntax_error); [|done|apply IHu; lia]. intros [n st1] [H1 Hn].
    apply outcome_bind. eapply (outcome_mono _ _ syntax_error); [|done|apply IHal; [lia|by constructor]].
    intros [ns st2] (H2 & Hl & Hns). destruct ns as [|n1 [|n2 ns]]; cbn in Hl; [lia| |].
    + cbn. split; [lia|]. by inversion Hns.
    + destruct (_ <? _)%nat eqn:E; [done|]. to_prop. cbn [raise_if mbind result_bind outcome].
      split; [lia|]. apply node_ok_bool. split; [cbn; lia|]. split; [done|done].
  - intros nodes st Hf Hn. unfold uses_list. cbn [or_loop]. destruct (_accept _ _ st) as [st1|] eqn:Ea; [|done].
    apply accept_toks in Ea. apply outcome_bind. eapply (outcome_mono _ _ syntax_error); [|done|apply IHa; unfold toks in *; cbn; lia].
    intros [n st2] [H2 Hn2]. eapply (outcome_mono _ _ syntax_error); [|done|apply IHol; [unfold toks in *; cbn in *; lia|]].
    + intros [ns st3] (H3 & Hl & Hns). rewrite length_app in Hl. cbn in Hl.
      unfold toks in *. cbn in *. split; [lia|]. split; [lia|done].
    + apply Forall_app. split; [done|by constructor].
  - intros st Hf. unfold uses. cbn [_parse_or]. apply outcome_bind.
    eapply (outcome_mono _ _ syntax_error); [|done|apply IHa; lia]. intros [n st1] [H1 Hn].
    apply outcome_bind. eapply (outcome_mono _ _ syntax_error); [|done|apply IHol; [lia|by constructor]].
    intros [ns st2] (H2 & Hl & Hns). destruct ns as [|n1 [|n2 ns]]; cbn in Hl; [lia| |].
    + cbn. split; [lia|]. by inversion Hns.
    + cbn [outcome]. split; [lia|]. apply node_ok_bool. split; [cbn; lia|]. done.
Qed.

Lemma parse_outcome ts : outcome node_ok syntax_error (parse ts).
Proof.
  unfold parse. set (fuel := (5 * length ts + 5)%nat). set (st0 := {| tokens := ts |}).
  destruct (parser_outcome fuel) as (_ & _ & _ & _ & _ & Ho).
  specialize (Ho st0 ltac:(unfold toks, st0, fuel; cbn [tokens]; lia)).
  apply outcome_bind. eapply (outcome_mono _ _ syntax_error); [|done|exact Ho].
  intros [n st] [_ Hn]. do 3 (match goal with |- context [raise_if ?b ?e] =>
    destruct (raise_if_cases b e) as [->| ->]; [cbn [mbind result_bind]|done] end).
  done.
Qed.

(** * Names, operators and keywords *)
Definition operators : list str := [lit ":"; lit ">"; lit "<"; lit ">="; lit "<="].
Definition keywords : list str := [lit "AND"; lit "OR"; lit "NOT"].

Definition word_ok (v : str) : Prop := v <> [] /\ forallb word_char v = true /\ ascii_upper v ∉ keywords.

(** Fields found under their own name. *)
Definition printable_field (f : ParsedField) : Prop := _resolve_field (name f) = Ok f.

(** Every name of the tables is a word that is not a keyword, nor [has]. *)
Definition good_name (v : str) : bool :=
  match v with [] => false | _ => true end && forallb word_char v &&
  negb (bool_decide (ascii_upper v ∈ keywords)) && negb (bool_decide (lower v = lit "has")).

Lemma table_names : forallb good_name (map fst FIELD_ALIASES ++ map fst FIELD_SPECS) = true.
Proof. vm_compute. reflexivity. Qed.

Lemma get_key {A} k (d : list (str * A)) v : Dict.get k d = Some v -> k ∈ map fst d.
Proof.
  induction d as [|[k' v'] d IH]; cbn; [done|]. destruct (decide _) as [->|].
  - intros _. by left.
  - intros H. right. by apply IH.
Qed.

Lemma printable_name f : printable_field f -> word_ok (name f) /\ lower (name f) <> lit "has".
Proof.
  intros Hf. assert (name f ∈ map fst FIELD_ALIASES ++ map fst FIELD_SPECS) as Hin.
  { unfold printable_field, _resolve_field in Hf.
    assert (strip (name f) = name f) as Hs.
    { apply bind_Ok in Hf as (ss & _ & [= Hf]). apply (f_equal name) in Hf. exact Hf. }
    rewrite Hs in Hf. apply elem_of_app. destruct (Dict.get (name f) FIELD_ALIASES) eqn:E; [left; by eapply get_key|].
    right. cbn [default mapM_py] in Hf. destruct (Dict.get (name f) FIELD_SPECS) eqn:E2; [by eapply get_key|done]. }
  pose proof table_names as Ht. rewrite forallb_forall in Ht. apply list_elem_of_In, Ht in Hin.
  unfold good_name in Hin. apply andb_true_iff in Hin as [Hin Hhas]. apply andb_true_iff in Hin as [Hin Hkw].
  apply andb_true_iff in Hin as [Hne Hw]. to_prop. split; [|done]. split; [by destruct (name f)|done].
Qed.

(** * Printing an expression as tokens

    [explicit] says whether the terms of an AND are joined by the keyword or
    just juxtaposed. *)
Definition mk (k : token_kind) (v : str) : Token := {| kind := k; value := v; position := 0 |}.

Section printing.
Variable explicit : bool.
Definition and_sep : list Token := if explicit then [mk K_AND (lit "AND")] else [].
Definition or_sep : list Token := [mk K_OR (lit "OR")].
Definition paren (b : bool) (ts : list Token) : list Token :=
  if b then mk K_LPAREN (lit "(") :: ts ++ [mk K_RPAREN (lit ")")] else ts.

(** [level] 0 is an OR context, 1 an AND context, 2 a single term. *)
Fixpoint print_node (n : Node) (level : nat) : list Token :=
  match n with
  | TextNode v => [mk K_STRING v]
  | PredicateNode f op v => [mk K_WORD (name f); mk K_OP op; mk K_STRING v]
  | ExistsNode f => [mk K_WORD (lit "has"); mk K_OP (lit ":"); mk K_WORD (name f)]
  | NotNode c => mk K_NOT (lit "NOT") :: print_node c 2
  | BoolNode OpAnd cs =>
      paren (1 <? level)%nat
        match cs with
        | [] => []
        | c :: cs' => print_node c 2 ++
            (fix go (l : list Node) : list Token :=
               match l with [] => [] | c :: l' => and_sep ++ print_node c 2 ++ go l' end) cs'
        end
  | BoolNode OpOr cs =>
      paren (0 <? level)%nat
        match cs with
        | [] => []
        | c :: cs' => print_node c 1 ++
            (fix go (l : list Node) : list Token :=
               match l with [] => [] | c :: l' => or_sep ++ print_node c 1 ++ go l' end) cs'
        end
  end.

Definition print_rest (sep : list Token) (level : nat) (cs : list Node) : list Token :=
  flat_map (fun c => sep ++ print_node c level) cs.

Lemma print_and c cs level :
  print_node (BoolNode OpAnd (c :: cs)) level = paren (1 <? level)%nat (print_node c 2 ++ print_rest and_sep 2 cs).
Proof.
  cbn [print_node]. enough (Hgo : (fix go (l : list Node) : list Token :=
      match l with [] => [] | c :: l' => and_sep ++ print_node c 2 ++ go l' end) cs = print_rest and_sep 2 cs) by (by rewrite Hgo).
  unfold print_rest. induction cs as [|c' cs IH]; [done|]. cbn [flat_map]. by rewrite IH, <- app_assoc.
Qed.
Lemma print_or c cs level :
  print_node (BoolNode OpOr (c :: cs)) level = paren (0 <? level)%nat (print_node c 1 ++ print_rest or_sep 1 cs).
Proof.
  cbn [print_node]. enough (Hgo : (fix go (l : list Node) : list Token :=
      match l with [] => [] | c :: l' => or_sep ++ print_node c 1 ++ go l' end) cs = print_rest or_sep 1 cs) by (by rewrite Hgo).
  unfold print_rest. induction cs as [|c' cs IH]; [done|]. cbn [flat_map]. by rewrite IH, <- app_assoc.
Qed.

(** What the parser counts. *)
Fixpoint wilds (n : Node) : nat :=
  match n with
  | PredicateNode _ _ v => if _WILDCARD_RE v then 1 else 0
  | NotNode c => wilds c
  | BoolNode _ cs => (fix go (l : list Node) := match l with [] => 0 | c :: l' => wilds c + go l' end) cs
  | _ => 0
  end%nat.
Fixpoint ors (n : Node) : nat :=
  match n with
  | NotNode c => ors c
  | BoolNode op cs =>
      match op with OpOr => length cs - 1 | OpAnd => 0 end +
      (fix go (l : list Node) := match l with [] => 0 | c :: l' => ors c + go l' end) cs
  | _ => 0
  end%nat.
Definition sum_over (f : Node -> nat) (cs : list Node) : nat := fold_right (fun c n => f c + n)%nat 0%nat cs.

Inductive printable : Node -> Prop :=
  | pr_text v : printable (TextNode v)
  | pr_predicate f op v : printable_field f -> op ∈ operators -> printable (PredicateNode f op v)
  | pr_exists f : printable_field f -> printable (ExistsNode f)
  | pr_not c : printable c -> printable (NotNode c)
  | pr_and c1 c2 cs : (length cs + 2 <= MAX_QUERY_TERMS)%nat -> printable c1 -> printable c2 ->
      (forall c, c ∈ cs -> printable c) -> printable (BoolNode OpAnd (c1 :: c2 :: cs))
  | pr_or c1 c2 cs : printable c1 -> printable c2 -> (forall c, c ∈ cs -> printable c) ->
      printable (BoolNode OpOr (c1 :: c2 :: cs)).

Definition after (st : PState) (w o : nat) (rest : list Token) : PState :=
  {| tokens := rest; wildcard_clauses := wildcard_clauses st + w; or_terms := or_terms st + o |}.

Lemma after_0 ts w o rest : after {| tokens := ts; wildcard_clauses := w; or_terms := o |} 0 0 rest =
  {| tokens := rest; wildcard_clauses := w; or_terms := o |}.
Proof. unfold after. cbn. by rewrite !Nat.add_0_r. Qed.

Lemma after_after st w o ts w' o' rest : after (after st w o ts) w' o' rest = after st (w + w') (o + o') rest.
Proof. unfold after. cbn. by rewrite !Nat.add_assoc. Qed.

(** What may follow a term of an AND, or an OR. *)
Definition ends_and (rest : list Token) : Prop :=
  match rest with t :: _ => kind t = K_OR \/ kind t = K_RPAREN | [] => True end.
Definition ends_or (rest : list Token) : Prop :=
  match rest with t :: _ => kind t = K_RPAREN | [] => True end.

Definition parses (p : nat -> PState -> res (Node * PState)) (k : nat) (n : Node) (ts rest : list Token) : Prop :=
  forall fuel st, tokens st = ts ++ rest -> (5 * length (tokens st) + k <= fuel)%nat ->
    p fuel st = Ok (n, after st (wilds n) (ors n) rest).

Definition unary_ok (n : Node) : Prop := forall rest, parses _parse_unary 2 n (print_node n 2) rest.
Definition and_ok (n : Node) : Prop := forall rest, ends_and rest -> parses _parse_and 3 n (print_node n 1) rest.
Definition or_ok (n : Node) : Prop := forall rest, ends_or rest -> parses _parse_or 4 n (print_node n 0) rest.

Lemma accept_not st k v t ts : tokens st = t :: ts -> kind t <> k -> _accept k v st = None.
Proof. intros Ht Hk. unfold _accept. rewrite Ht. by rewrite decide_False. Qed.

Lemma accept_kind st t ts :
  tokens st = t :: ts ->
  _accept (kind t) None st = Some (after st 0 0 ts).
Proof. intros Ht. unfold _accept, after. rewrite Ht, decide_True by done. by rewrite !Nat.add_0_r. Qed.

Lemma accept_value st t ts k v :
  kind t = k -> value t = v -> tokens st = t :: ts -> _accept k (Some v) st = Some (after st 0 0 ts).
Proof. intros <- <- Ht. unfold _accept, after. rewrite Ht, !decide_True by done. by rewrite !Nat.add_0_r. Qed.

Lemma consume_cons st t ts : tokens st = t :: ts -> _consume st = Ok (t, after st 0 0 ts).
Proof. intros Ht. unfold _consume, after. rewrite Ht. by rewrite !Nat.add_0_r. Qed.

Lemma and_ends fuel nodes st :
  ends_and (tokens st) -> (0 < fuel)%nat -> and_loop fuel nodes st = Ok (nodes, st).
Proof.
  intros He Hf. destruct fuel as [|fuel]; [lia|]. cbn [and_loop]. unfold _accept, starts_clause, ends_and in *.
  destruct (tokens st) as [|t ts]; [done|]. rewrite decide_False by (intros E; rewrite E in He; by destruct He).
  by destruct He as [->| ->].
Qed.

Lemma or_ends fuel nodes st :
  ends_or (tokens st) -> (0 < fuel)%nat -> or_loop fuel nodes st = Ok (nodes, st).
Proof.
  intros He Hf. destruct fuel as [|fuel]; [lia|]. cbn [or_loop]. unfold _accept, ends_or in *.
  destruct (tokens st) as [|t ts]; [done|]. by rewrite decide_False by (rewrite He; done).
Qed.

(** The first token of a printed term starts a clause. *)
Lemma print_head n level : printable n ->
  exists t ts, print_node n level = t :: ts /\
    match kind t with K_WORD | K_STRING | K_NOT | K_LPAREN => True | _ => False end.
Proof.
  intros Hp. revert level. induction Hp as [v|f op v Hf Hop|f Hf|c Hc IH|c1 c2 cs Hl H1 IH1 H2 IH2 Hcs IHcs|c1 c2 cs H1 IH1 H2 IH2 Hcs IHcs];
    intros level; try (cbn; by eexists _, _).
  - rewrite print_and. destruct (IH1 2%nat) as (t & ts & Ht & Hk). unfold paren.
    destruct (_ <? _)%nat; [by eexists _, _|]. rewrite Ht. by eexists t, _.
  - rewrite print_or. destruct (IH1 1%nat) as (t & ts & Ht & Hk). unfold paren.
    destruct (_ <? _)%nat; [by eexists _, _|]. rewrite Ht. by eexists t, _.
Qed.

Lemma single_and n : print_node n 1 = print_node n 2 -> unary_ok n -> and_ok n.
Proof.
  intros Hpr Hu rest He fuel st Ht Hf. destruct fuel as [|fuel]; [lia|]. cbn [_parse_and].
  rewrite Hpr in Ht. rewrite (Hu rest fuel st Ht) by lia. cbn [mbind result_bind].
  by rewrite and_ends by (done || lia).
Qed.

Lemma single_or n : print_node n 0 = print_node n 1 -> and_ok n -> or_ok n.
Proof.
  intros Hpr Ha rest He fuel st Ht Hf. destruct fuel as [|fuel]; [lia|]. cbn [_parse_or].
  rewrite Hpr in Ht. assert (ends_and rest) by (destruct rest; [done|by right]).
  rewrite (Ha rest ltac:(done) fuel st Ht) by lia. cbn [mbind result_bind].
  by rewrite or_ends by (done || lia).
Qed.

Lemma paren_unary n :
  print_node n 2 = paren true (print_node n 0) -> or_ok n -> unary_ok n.
Proof.
  intros Hpr Ho rest fuel st Ht Hf. rewrite Hpr in Ht. cbn [paren app] in Ht. rewrite <- app_assoc in Ht.
  destruct fuel as [|fuel]; [lia|]. cbn [_parse_unary].
  rewrite (accept_not st K_NOT None _ _ Ht) by done. destruct fuel as [|fuel]; [lia|]. cbn [_parse_primary].
  rewrite (accept_kind st _ _ Ht : _accept K_LPAREN None st = _).
  rewrite (Ho (mk K_RPAREN (lit ")") :: rest) ltac:(done) fuel); [|done|rewrite Ht in Hf; cbn [after tokens length] in *; lia].
  cbn [mbind result_bind]. rewrite after_after.
  rewrite (accept_kind (after st _ _ _) (mk K_RPAREN (lit ")")) rest eq_refl : _accept K_RPAREN None _ = _).
  by rewrite after_after, !Nat.add_0_r.
Qed.

Lemma and_loop_rest cs fuel nodes st rest :
  Forall (fun c => printable c /\ unary_ok c) cs -> ends_and rest ->
  tokens st = print_rest and_sep 2 cs ++ rest -> (5 * length (tokens st) + 3 <= fuel)%nat ->
  and_loop fuel nodes st = Ok (nodes ++ cs, after st (sum_over wilds cs) (sum_over ors cs) rest).
Proof.
  intros Hcs He. revert fuel nodes st. induction Hcs as [|c cs [Hp Hu] Hcs IH]; intros fuel nodes st Ht Hf.
  - cbn in Ht. rewrite app_nil_r. rewrite and_ends by (rewrite ?Ht; done || lia).
    unfold after. cbn. rewrite !Nat.add_0_r. destruct st; cbn in *; by subst.
  - destruct fuel as [|fuel]; [lia|]. cbn [and_loop print_rest flat_map] in *. fold (print_rest and_sep 2 cs) in Ht.
    destruct (print_head c 2 Hp) as (t & ts & Hh & Hk).
    assert (Hstep : forall st1, tokens st1 = print_node c 2 ++ print_rest and_sep 2 cs ++ rest ->
      wildcard_clauses st1 = wildcard_clauses st -> or_terms st1 = or_terms st ->
      (length (tokens st1) <= length (tokens st))%nat ->
      (let! (n, st2) := _parse_unary fuel st1 in and_loop fuel (nodes ++ [n]) st2) =
      Ok (nodes ++ c :: cs, after st (sum_over wilds (c :: cs)) (sum_over ors (c :: cs)) rest)).
    { intros st1 Ht1 Hw Hor Hl. rewrite (Hu _ fuel st1 Ht1) by lia. cbn [mbind result_bind].
      rewrite IH; [|done|].
      - rewrite after_after, <- app_assoc. unfold after, sum_over. cbn [fold_right app]. by rewrite Hw, Hor.
      - rewrite Ht1, Hh in Hl. cbn [after tokens app length] in *. rewrite !length_app in *. lia. }
    unfold and_sep in Ht at 1. destruct explicit; cbn [app] in Ht.
    + rewrite (accept_kind st _ _ Ht : _accept K_AND None st = _). apply Hstep; cbn; try lia.
      * by rewrite <- app_assoc.
      * rewrite Ht. cbn. rewrite !length_app. lia.
    + rewrite <- app_assoc in Ht. pose proof Ht as Ht'. rewrite Hh in Ht'. cbn [app] in Ht'.
      rewrite (accept_not st K_AND None t _ Ht') by (by destruct (kind t)).
      assert (starts_clause st = true) as ->.
      { unfold starts_clause. rewrite Ht'. by destruct (kind t). }
      by apply Hstep.
Qed.

Lemma or_loop_rest cs fuel nodes st rest :
  Forall (fun c => and_ok c) cs -> ends_or rest ->
  tokens st = print_rest or_sep 1 cs ++ rest -> (5 * length (tokens st) + 4 <= fuel)%nat ->
  or_loop fuel nodes st = Ok (nodes ++ cs, after st (sum_over wilds cs) (length cs + sum_over ors cs) rest).
Proof.
  intros Hcs He. revert fuel nodes st. induction Hcs as [|c cs Ha Hcs IH]; intros fuel nodes st Ht Hf.
  - cbn in Ht. rewrite app_nil_r. rewrite or_ends by (rewrite ?Ht; done || lia).
    unfold after. cbn. rewrite !Nat.add_0_r. destruct st; cbn in *; by subst.
  - destruct fuel as [|fuel]; [lia|]. cbn [or_loop print_rest flat_map or_sep app] in *.
    change (flat_map _ cs) with (print_rest or_sep 1 cs) in Ht. rewrite <- app_assoc in Ht.
    rewrite (accept_kind st _ _ Ht : _accept K_OR None st = _).
    assert (ends_and (print_rest or_sep 1 cs ++ rest)) as He'.
    { destruct cs as [|c' cs]; [|by left]. cbn. destruct rest; [done|by right]. }
    set (st1 := {| tokens := _ |}).
    rewrite (Ha _ He' fuel st1); [|done|rewrite Ht in Hf; unfold st1; cbn [after tokens length] in *; lia].
    cbn [mbind result_bind]. rewrite IH; [|done|].
    + rewrite <- app_assoc. unfold after, st1, sum_over. cbn [fold_right app after tokens wildcard_clauses or_terms length].
      do 3 f_equal; lia.
    + rewrite Ht in Hf. cbn [after tokens length] in *. rewrite !length_app in *. lia.
Qed.

Lemma wilds_bool op cs : wilds (BoolNode op cs) = sum_over wilds cs.
Proof. reflexivity. Qed.
Lemma ors_bool op cs :
  ors (BoolNode op cs) = (match op with OpOr => length cs - 1 | OpAnd => 0 end + sum_over ors cs)%nat.
Proof. reflexivity. Qed.

Lemma printed_parses n : printable n -> unary_ok n /\ and_ok n /\ or_ok n.
Proof.
  induction 1 as [v|f op v Hf Hop|f Hf|c Hc (IHu & _)|c1 c2 cs Hl H1 (IH1 & _) H2 (IH2 & _) Hcs IHcs
                 |c1 c2 cs H1 (_ & IH1 & _) H2 (_ & IH2 & _) Hcs IHcs].
  1-4: match goal with |- unary_ok ?n /\ _ => assert (unary_ok n) as Hu;
         [|assert (and_ok n) by (by apply single_and); split; [done|split; [done|by apply single_or]]] end;
       intros rest fuel st Ht Hfu; destruct fuel as [|fuel]; [lia|]; cbn [_parse_unary print_node app] in *.
  - rewrite (accept_not st K_NOT None _ _ Ht) by done. destruct fuel as [|fuel]; [lia|]. cbn [_parse_primary].
    rewrite (accept_not st K_LPAREN None _ _ Ht) by done. unfold _parse_atom.
    rewrite (consume_cons st _ _ Ht), Ht. reflexivity.
  - rewrite (accept_not st K_NOT None _ _ Ht) by done. destruct fuel as [|fuel]; [lia|]. cbn [_parse_primary].
    rewrite (accept_not st K_LPAREN None _ _ Ht) by done. unfold _parse_atom.
    rewrite (consume_cons st _ _ Ht), Ht. cbn [kind mk value].
    rewrite bool_decide_eq_false_2 by (by apply printable_name). rewrite bool_decide_eq_true_2 by done.
    cbn [mbind result_bind mk value]. rewrite Hf. cbn [mbind result_bind].
    rewrite (consume_cons (after st 0 0 _) _ _ eq_refl). cbn [mbind result_bind].
    rewrite (consume_cons (after (after st 0 0 _) 0 0 _) _ _ eq_refl). cbn [mbind result_bind mk kind value].
    rewrite !after_after. cbn [wilds ors]. destruct (_WILDCARD_RE v); [|done]. unfold after. cbn. by rewrite !Nat.add_0_r.
  - rewrite (accept_not st K_NOT None _ _ Ht) by done. destruct fuel as [|fuel]; [lia|]. cbn [_parse_primary].
    rewrite (accept_not st K_LPAREN None _ _ Ht) by done. unfold _parse_atom.
    rewrite (consume_cons st _ _ Ht), Ht. cbn [kind mk value].
    rewrite bool_decide_eq_true_2 by done. cbn [mbind result_bind].
    rewrite (accept_value (after st 0 0 (_ :: _)) (mk K_OP (lit ":")) _ _ _ eq_refl eq_refl eq_refl).
    rewrite (consume_cons (after (after st 0 0 _) 0 0 _) _ _ eq_refl). cbn [mbind result_bind mk kind value].
    rewrite Hf. cbn [mbind result_bind]. by rewrite !after_after.
  - rewrite (accept_kind st _ _ Ht : _accept K_NOT None st = _).
    rewrite (IHu rest fuel); [|done|rewrite Ht in Hfu; cbn [after tokens length] in *; lia].
    cbn [mbind result_bind]. by rewrite after_after.
  - assert (and_ok (BoolNode OpAnd (c1 :: c2 :: cs))) as Ha.
    { intros rest He fuel st Ht Hfu. destruct fuel as [|fuel]; [lia|]. cbn [_parse_and].
      rewrite print_and in Ht. cbn [paren Nat.ltb Nat.leb] in Ht. rewrite <- app_assoc in Ht.
      rewrite (IH1 _ fuel st Ht) by lia. cbn [mbind result_bind].
      destruct (print_head c1 2 H1) as (t & ts & Hh & _).
      rewrite (and_loop_rest (c2 :: cs) fuel [c1] _ rest); [| |done|done|].
      - cbn [mbind result_bind app]. rewrite (proj2 (Nat.ltb_ge _ _)) by (cbn; lia). cbn [raise_if mbind result_bind].
        by rewrite after_after, wilds_bool, ors_bool.
      - constructor; [done|]. apply Forall_forall. intros c Hin. split; [by apply Hcs|by apply (IHcs c)].
      - rewrite Ht, Hh in Hfu. cbn [after tokens app length] in *. rewrite !length_app in *. lia. }
    assert (or_ok (BoolNode OpAnd (c1 :: c2 :: cs))) as Ho by (by apply single_or).
    split; [by apply paren_unary|done].
  - assert (or_ok (BoolNode OpOr (c1 :: c2 :: cs))) as Ho.
    { intros rest He fuel st Ht Hfu. destruct fuel as [|fuel]; [lia|]. cbn [_parse_or].
      rewrite print_or in Ht. cbn [paren Nat.ltb Nat.leb] in Ht. rewrite <- app_assoc in Ht.
      rewrite (IH1 (print_rest or_sep 1 (c2 :: cs) ++ rest) (or_introl eq_refl) fuel st Ht) by lia. cbn [mbind result_bind].
      destruct (print_head c1 1 H1) as (t & ts & Hh & _).
      rewrite (or_loop_rest (c2 :: cs) fuel [c1] _ rest); [| |done|done|].
      - cbn [mbind result_bind app]. rewrite after_after, wilds_bool, ors_bool. do 3 f_equal. cbn. lia.
      - constructor; [done|]. apply Forall_forall. intros c Hin. by apply (IHcs c).
      - rewrite Ht, Hh in Hfu. cbn [after tokens app length] in *. rewrite !length_app in *. lia. }
    assert (unary_ok (BoolNode OpOr (c1 :: c2 :: cs))) as Hu by (by apply paren_unary).
    split; [done|]. split; [|done].
    intros rest He fuel st Ht Hfu. destruct fuel as [|fuel]; [lia|]. cbn [_parse_and].
    rewrite (Hu rest fuel st Ht) by lia. cbn [mbind result_bind]. by rewrite and_ends by (done || lia).
Qed.
End printing.

(** ** Parsing does not look at positions *)
Definition erase_token (t : Token) : Token := {| kind := kind t; value := value t; position := 0 |}.
Definition erase (st : PState) : PState :=
  {| tokens := map erase_token (tokens st); wildcard_clauses := wildcard_clauses st; or_terms := or_terms st |}.
Definition erased {A} (m : res (A * PState)) : res (A * PState) := prod_map id erase <$> m.

Lemma erased_bind {A B} (m : res (A * PState)) (f g : A * PState -> res (B * PState)) :
  (forall a st, g (a, erase st) = erased (f (a, st))) ->
  (let! x := erased m in g x) = erased (let! x := m in f x).
Proof. intros Hfg. destruct m as [[a st]|e|]; [apply Hfg|done|done]. Qed.

Lemma accept_erase k v st : _accept k v (erase st) = erase <$> _accept k v st.
Proof.
  unfold _accept, erase. cbn [tokens]. destruct (tokens st) as [|t ts]; [done|]. cbn.
  destruct (decide _); [|done]. destruct v as [v|]; [by destruct (decide _)|done].
Qed.

Lemma consume_erase st : _consume (erase st) = prod_map erase_token erase <$> _consume st.
Proof. unfold _consume, erase. cbn [tokens]. by destruct (tokens st). Qed.

Lemma consume_bind {B} (f g : Token * PState -> res (B * PState)) st :
  (forall t st, g (erase_token t, erase st) = erased (f (t, st))) ->
  (let! x := _consume (erase st) in g x) = erased (let! x := _consume st in f x).
Proof. intros Hfg. rewrite consume_erase. destruct (_consume st) as [[t st1]| |]; [apply Hfg|done|done]. Qed.

Lemma pure_bind {A B} (m : res A) (f g : A -> res (B * PState)) :
  (forall a, g a = erased (f a)) -> (let! x := m in g x) = erased (let! x := m in f x).
Proof. intros Hfg. by destruct m; [apply Hfg| |]. Qed.

Lemma atom_erase st : _parse_atom (erase st) = erased (_parse_atom st).
Proof.
  assert (Htext : (let! (t, st) := _consume (erase st) in Ok (TextNode (value t), st)) =
    erased (let! (t, st) := _consume st in Ok (TextNode (value t), st))) by by apply consume_bind.
  unfold _parse_atom. destruct (tokens st) as [|t ts] eqn:Et; unfold erase at 1; cbn [tokens]; rewrite Et; [done|].
  cbn [map erase_token kind value]. destruct (kind t); try done.
  destruct (bool_decide _).
  - apply consume_bind. intros t1 st1. rewrite accept_erase.
    destruct (_accept _ _ st1) as [st2|]; cbn [fmap option_fmap option_map]; [|done].
    apply consume_bind. intros t2 st3. cbn [erase_token kind value]. destruct (kind t2); try done. by apply pure_bind.
  - assert (match map erase_token ts with t :: _ => bool_decide (kind t = K_OP) | [] => false end =
      match ts with t :: _ => bool_decide (kind t = K_OP) | [] => false end) as -> by (by destruct ts).
    destruct (match ts with t :: _ => _ | [] => _ end); [|done].
    apply consume_bind. intros t1 st1. apply pure_bind. intros f. apply consume_bind. intros t2 st2.
    apply consume_bind. intros t3 st3. cbn [erase_token kind value].
    destruct (kind t3); try done; by destruct (_WILDCARD_RE _).
Qed.

Lemma starts_erase st : starts_clause (erase st) = starts_clause st.
Proof. unfold starts_clause, erase. cbn [tokens]. by destruct (tokens st). Qed.

Lemma parser_erase fuel :
  (forall st, _parse_primary fuel (erase st) = erased (_parse_primary fuel st)) /\
  (forall st, _parse_unary fuel (erase st) = erased (_parse_unary fuel st)) /\
  (forall nodes st, and_loop fuel nodes (erase st) = erased (and_loop fuel nodes st)) /\
  (forall st, _parse_and fuel (erase st) = erased (_parse_and fuel st)) /\
  (forall nodes st, or_loop fuel nodes (erase st) = erased (or_loop fuel nodes st)) /\
  (forall st, _parse_or fuel (erase st) = erased (_parse_or fuel st)).
Proof.
  induction fuel as [|fuel (IHp & IHu & IHal & IHa & IHol & IHo)]; [done|].
  repeat split; intros; cbn [_parse_primary _parse_unary and_loop _parse_and or_loop _parse_or].
  - rewrite accept_erase. destruct (_accept _ _ st) as [st1|]; cbn [fmap option_fmap option_map]; [|apply atom_erase].
    rewrite IHo. apply erased_bind. intros n st2. rewrite accept_erase. by destruct (_accept _ _ st2).
  - rewrite accept_erase. destruct (_accept _ _ st) as [st1|]; cbn [fmap option_fmap option_map]; [|apply IHp].
    rewrite IHu. by apply erased_bind.
  - rewrite accept_erase, starts_erase. destruct (_accept _ _ st) as [st1|]; cbn [fmap option_fmap option_map].
    + rewrite IHu. apply erased_bind. intros. apply IHal.
    + destruct (starts_clause st); [|done]. rewrite IHu. apply erased_bind. intros. apply IHal.
  - rewrite IHu. apply erased_bind. intros n st1. rewrite IHal. apply erased_bind. intros ns st2.
    destruct ns as [|n1 [|n2 ns]]; try done; by destruct (raise_if _ _).
  - rewrite accept_erase. destruct (_accept _ _ st) as [st1|]; cbn [fmap option_fmap option_map]; [|done].
    change {| tokens := tokens (erase st1); wildcard_clauses := _; or_terms := _ |} with
      (erase {| tokens := tokens st1; wildcard_clauses := wildcard_clauses st1; or_terms := or_terms st1 + 1 |}).
    rewrite IHa. apply erased_bind. intros. apply IHol.
  - rewrite IHa. apply erased_bind. intros n st1. rewrite IHol. apply erased_bind. intros ns st2.
    by destruct ns as [|n1 [|n2 ns]].
Qed.

Lemma parse_erase ts : parse (map erase_token ts) = parse ts.
Proof.
  unfold parse. rewrite length_map.
  change {| tokens := map erase_token ts; wildcard_clauses := _; or_terms := _ |} with
    (erase {| tokens := ts; wildcard_clauses := 0; or_terms := 0 |}).
  rewrite (proj2 (proj2 (proj2 (proj2 (proj2 (parser_erase _)))))).
  destruct (_parse_or _ _) as [[n st]|e|]; [|done..]. cbn. by rewrite length_map.
Qed.

(** ** Writing tokens out as text *)
Definition quoted_char (c : Z) : str := if (c =? 34) || (c =? 92) then [92; c] else [c].
Definition render_token (t : Token) : str :=
  match kind t with
  | K_STRING => 34 :: flat_map quoted_char (value t) ++ [34]
  | _ => value t
  end.
Definition render (ts : list Token) : str := flat_map (fun t => render_token t ++ [32]) ts.


Definition token_ok (t : Token) : Prop :=
  match kind t with
  | K_LPAREN => value t = lit "("
  | K_RPAREN => value t = lit ")"
  | K_OP => value t ∈ operators
  | K_STRING => True
  | K_WORD => word_ok (value t)
  | K_AND => value t = lit "AND"
  | K_OR => value t = lit "OR"
  | K_NOT => value t = lit "NOT"
  end.

Lemma lookup_of_drop {A} (l : list A) i x r : drop i l = x :: r -> l !! i = Some x.
Proof. intros H. rewrite <- (Nat.add_0_r i), <- lookup_drop, H. done. Qed.
Lemma drop_further {A} (l r a : list A) i : drop i l = a ++ r -> drop (i + length a) l = r.
Proof. intros H. rewrite <- drop_drop, H. by rewrite drop_app_length. Qed.

Lemma quote_round query v : forall p buf r fuel,
  drop p query = flat_map quoted_char v ++ 34 :: r -> (length v < fuel)%nat ->
  while fuel (quote_step query) (p, buf) =
    Ok ((p + (length (flat_map quoted_char v) + 1))%nat, buf ++ v).
Proof.
  induction v as [|c v IH]; intros p buf r fuel Hd Hf; (destruct fuel as [|fuel]; [lia|]); rewrite while_unfold;
    cbn [flat_map app length] in *; unfold quote_step at 1.
  - rewrite (lookup_of_drop _ _ _ _ Hd). cbn. by rewrite app_nil_r.
  - rewrite <- app_assoc in Hd. unfold quoted_char in Hd at 1.
    assert (Hnext : forall k, drop (p + k) query = flat_map quoted_char v ++ 34 :: r ->
      while fuel (quote_step query) ((p + k)%nat, buf ++ [c]) =
      Ok ((p + (k + length (flat_map quoted_char v) + 1))%nat, buf ++ c :: v)).
    { intros k Hk. rewrite (IH _ _ _ _ Hk) by lia. rewrite <- app_assoc. cbn [app]. do 2 f_equal. lia. }
    rewrite length_app. unfold quoted_char at 1. destruct ((c =? 34) || (c =? 92)) eqn:E.
    + rewrite (lookup_of_drop _ _ _ _ Hd). cbn [Z.eqb].
      change (92 =? 92) with true. cbv iota. pose proof (drop_further _ _ [92] _ Hd) as Hd'. cbn [app length] in Hd'.
      rewrite (lookup_of_drop _ _ _ _ Hd'). apply (Hnext 2%nat). by apply (drop_further _ _ [92; c]).
    + cbn [app] in Hd. rewrite (lookup_of_drop _ _ _ _ Hd). apply orb_false_iff in E as [E1 E2]. rewrite E1, E2.
      apply (Hnext 1%nat). by apply (drop_further _ _ [c]).
Qed.

Lemma span_all (f : Z -> bool) v r c : forallb f v = true -> f c = false -> span_len f (v ++ c :: r) = length v.
Proof.
  intros Hv Hc. induction v as [|x v IH]; cbn in *; [by rewrite Hc|].
  apply andb_true_iff in Hv as [-> Hv]. by rewrite IH.
Qed.

Definition at_pos (p : nat) (t : Token) : Token := {| kind := kind t; value := value t; position := p |}.

Lemma word_step query p acc v r :
  v <> [] -> forallb word_char v = true -> drop p query = v ++ 32 :: r ->
  tokenize_step query (p, acc) = Ok (inl ((p + length v)%nat, acc ++
    [if bool_decide (ascii_upper v = lit "AND") then {| kind := K_AND; value := ascii_upper v; position := p |}
     else if bool_decide (ascii_upper v = lit "OR") then {| kind := K_OR; value := ascii_upper v; position := p |}
     else if bool_decide (ascii_upper v = lit "NOT") then {| kind := K_NOT; value := ascii_upper v; position := p |}
     else {| kind := K_WORD; value := v; position := p |}])).
Proof.
  intros Hne Hw Hd. destruct v as [|c v]; [done|]. pose proof Hw as Hw'. cbn [forallb] in Hw.
  apply andb_true_iff in Hw as [Hc _]. unfold word_char in Hc. apply andb_true_iff in Hc as [Hsp Hsym].
  apply negb_true_iff in Hsp, Hsym. change (lit "()<>:" ++ [34]) with [40; 41; 60; 62; 58; 34] in Hsym.
  unfold one_of in Hsym. cbn [existsb] in Hsym. repeat (apply orb_false_iff in Hsym as [? Hsym]).
  unfold tokenize_step. rewrite (lookup_of_drop _ _ _ _ Hd), Hsp, Hd.
  change (lit "()") with [40; 41]. change (lit ":<>") with [58; 60; 62].
  change (lit ">=") with [62; 61]. change (lit "<=") with [60; 61].
  unfold one_of. cbn [existsb app startswith].
  repeat match goal with |- context [?a =? ?b] =>
    match goal with H : (c =? _) = false |- _ =>
      replace (a =? b) with false by (symmetry; rewrite ?(Z.eqb_sym a b) in *; assumption) end end.
  cbn [orb andb]. change (c :: v ++ 32 :: r) with ((c :: v) ++ 32 :: r).
  rewrite span_all by done. by rewrite take_app_length.
Qed.

Lemma token_step query p acc t r :
  token_ok t -> drop p query = render_token t ++ 32 :: r ->
  tokenize_step query (p, acc) = Ok (inl ((p + length (render_token t))%nat, acc ++ [at_pos p t])).
Proof.
  destruct t as [k v q]. unfold token_ok, render_token, at_pos. cbn [kind value]. intros Hok Hd. destruct k.
  1,2: subst v; unfold tokenize_step; rewrite (lookup_of_drop _ _ _ _ Hd); reflexivity.
  - unfold operators in Hok. rewrite !elem_of_cons in Hok. unfold tokenize_step.
    destruct Hok as [->|[->|[->|[->|[->|[]%elem_of_nil]]]]];
      rewrite (lookup_of_drop _ _ _ _ Hd), Hd; reflexivity.
  - cbn [app] in Hd. rewrite <- app_assoc in Hd. unfold tokenize_step. rewrite (lookup_of_drop _ _ _ _ Hd), Hd.
    pose proof (drop_further _ _ [34] _ Hd) as Hd'. cbn [length app] in Hd'.
    assert (length v < S (length query))%nat.
    { apply (f_equal length) in Hd'. rewrite length_drop, length_app in Hd'.
      assert (length v <= length (flat_map quoted_char v))%nat; [|lia].
      clear. induction v as [|c v IH]; [done|]. cbn. rewrite length_app. unfold quoted_char at 1. destruct (_ || _); cbn; lia. }
    rewrite (quote_round _ _ _ [] _ _ Hd') by done.
    replace (p + length (34%Z :: flat_map quoted_char v ++ [34%Z]))%nat
      with (p + 1 + (length (flat_map quoted_char v) + 1))%nat by (cbn [length]; rewrite length_app; cbn [length]; lia).
    reflexivity.
  - destruct Hok as (Hne & Hw & Hk). unfold keywords in Hk. rewrite !not_elem_of_cons in Hk. destruct Hk as (? & ? & ? & _).
    rewrite (word_step _ _ _ _ _ Hne Hw Hd). by rewrite !bool_decide_eq_false_2.
  - subst v. rewrite (word_step query p acc (lit "AND") r ltac:(discriminate) eq_refl Hd). reflexivity.
  - subst v. rewrite (word_step query p acc (lit "OR") r ltac:(discriminate) eq_refl Hd). reflexivity.
  - subst v. rewrite (word_step query p acc (lit "NOT") r ltac:(discriminate) eq_refl Hd). reflexivity.
Qed.

Lemma tokenize_loop query ts : forall p acc fuel,
  Forall token_ok ts -> drop p query = render ts -> (2 * length ts < fuel)%nat ->
  exists ts', while fuel (tokenize_step query) (p, acc) = Ok (acc ++ ts') /\
    map erase_token ts' = map erase_token ts.
Proof.
  induction ts as [|t ts IH]; intros p acc fuel Hok Hd Hf; (destruct fuel as [|fuel]; [lia|]); rewrite while_unfold.
  - exists []. rewrite app_nil_r. split; [|done]. unfold tokenize_step. destruct (query !! p) eqn:E; [|done].
    by rewrite (drop_S _ _ _ E) in Hd.
  - inversion Hok as [|? ? Ht Hts]; subst. cbn [length render flat_map] in *. rewrite <- !app_assoc in Hd. cbn [app] in Hd.
    rewrite (token_step _ _ _ _ _ Ht Hd). destruct fuel as [|fuel]; [lia|]. rewrite while_unfold.
    set (p1 := (p + length (render_token t))%nat).
    assert (drop p1 query = 32 :: render ts) as Hd1 by (by apply drop_further).
    assert (tokenize_step query (p1, acc ++ [at_pos p t]) = Ok (inl ((p1 + 1)%nat, acc ++ [at_pos p t]))) as ->.
    { unfold tokenize_step. by rewrite (lookup_of_drop _ _ _ _ Hd1). }
    destruct (IH (p1 + 1)%nat (acc ++ [at_pos p t]) fuel Hts (drop_further _ _ [32] _ Hd1) ltac:(lia)) as (ts' & -> & He).
    exists (at_pos p t :: ts'). rewrite <- app_assoc. split; [done|]. cbn [map]. by rewrite He.
Qed.

Lemma render_length ts : Forall token_ok ts -> (2 * length ts <= length (render ts))%nat.
Proof.
  induction 1 as [|t ts Ht Hts IH]; [done|]. cbn [render flat_map length]. rewrite !length_app. fold (render ts).
  assert (1 <= length (render_token t))%nat; [|cbn; lia].
  destruct t as [k v q]. unfold token_ok, render_token in *. cbn [kind value] in *. destruct k; subst; try (apply Nat.leb_le; reflexivity).
  - unfold operators in Ht. rewrite !elem_of_cons in Ht.
    destruct Ht as [->|[->|[->|[->|[->|[]%elem_of_nil]]]]]; apply Nat.leb_le; reflexivity.
  - destruct Ht as [Hne _]. destruct v; [done|cbn [length]; lia].
Qed.

Lemma tokenize_render ts :
  Forall token_ok ts -> (length ts <= MAX_TOKENS)%nat ->
  exists ts', _tokenize (render ts) = Ok ts' /\ map erase_token ts' = map erase_token ts.
Proof.
  intros Hok Hl. pose proof (render_length ts Hok) as Hr.
  destruct (tokenize_loop (render ts) ts 0 [] (S (length (render ts))) Hok eq_refl ltac:(lia)) as (ts' & Hw & He).
  exists ts'. split; [|done]. unfold _tokenize. rewrite Hw. cbn [app mbind result_bind].
  apply (f_equal length) in He. rewrite !length_map in He.
  rewrite (proj2 (Nat.ltb_ge _ _)) by lia. done.
Qed.

(** * Properties *)

Lemma print_tokens_ok explicit n : forall level, printable n -> Forall token_ok (print_node explicit n level).
Proof.
  assert (Hpar : forall b ts, Forall token_ok ts -> Forall token_ok (paren b ts)).
  { intros b ts Hts. destruct b; [|done]. constructor; [done|]. apply Forall_app. by repeat constructor. }
  assert (Hrest : forall sep level cs, Forall token_ok sep ->
    (forall c, c ∈ cs -> Forall token_ok (print_node explicit c level)) ->
    Forall token_ok (print_rest explicit sep level cs)).
  { intros sep level cs Hsep. induction cs as [|c cs IH]; intros Hcs; [constructor|].
    cbn [print_rest flat_map]. rewrite !Forall_app. split; [split; [done|apply Hcs; left]|].
    apply IH. intros c' Hc'. apply Hcs. by right. }
  assert (Hw : forall f, printable_field f -> token_ok (mk K_WORD (name f))) by (intros f; apply printable_name).
  assert (Forall token_ok (and_sep explicit)) as Ha by (unfold and_sep; destruct explicit; by repeat constructor).
  assert (Forall token_ok or_sep) as Ho by (by repeat constructor).
  intros level Hp. revert level. induction Hp as [v|f op v Hf Hop|f Hf|c Hc IH|c1 c2 cs Hl H1 IH1 H2 IH2 Hcs IHcs
                 |c1 c2 cs H1 IH1 H2 IH2 Hcs IHcs]; intros level.
  - by repeat constructor.
  - constructor; [by apply Hw|]. constructor; [exact Hop|]. by repeat constructor.
  - constructor; [|constructor; [|constructor; [by apply Hw|constructor]]].
    + split; [discriminate|]. split; [reflexivity|]. by apply (bool_decide_eq_false_1 _).
    + apply (bool_decide_eq_true_1 _). reflexivity.
  - by constructor.
  - rewrite print_and. apply Hpar, Forall_app. split; [done|]. apply Hrest; [done|].
    intros c [->|Hin]%elem_of_cons; [done|]. by apply IHcs.
  - rewrite print_or. apply Hpar, Forall_app. split; [done|]. apply Hrest; [done|].
    intros c [->|Hin]%elem_of_cons; [done|]. by apply IHcs.
Qed.

Lemma parse_print_tokens explicit n :
  printable n -> (ors n <= MAX_OR_TERMS)%nat -> (wilds n <= MAX_WILDCARD_CLAUSES)%nat ->
  parse (print_node explicit n 0) = Ok n.
Proof.
  intros Hp Ho Hw. unfold parse. destruct (printed_parses explicit n Hp) as (_ & _ & Hor).
  rewrite (Hor [] I _ {| tokens := print_node explicit n 0; wildcard_clauses := 0; or_terms := 0 |}
    (eq_sym (app_nil_r _))) by (cbn [tokens]; lia).
  cbn [mbind result_bind after tokens or_terms wildcard_clauses length].
  rewrite bool_decide_eq_true_2 by done. cbn [negb raise_if mbind result_bind].
  by rewrite !(proj2 (Nat.ltb_ge _ _)) by done.
Qed.

(** C7. Round trip of the query language: any expression within the limits
    (128 tokens, 20 ORs, 10 wildcards, 64 terms of an AND), written as text
    with values quoted and escaped, with only the parentheses that precedence
    requires (NOT binds tighter than AND, AND than OR) and with AND spelled
    out or implied by juxtaposition, tokenizes and parses back to exactly
    itself. *)
Theorem parse_print explicit n :
  printable n -> (length (print_node explicit n 0) <= MAX_TOKENS)%nat ->
  (ors n <= MAX_OR_TERMS)%nat -> (wilds n <= MAX_WILDCARD_CLAUSES)%nat ->
  (let! ts := _tokenize (render (print_node explicit n 0)) in parse ts) = Ok n.
Proof.
  intros Hp Hl Ho Hw.
  destruct (tokenize_render _ (print_tokens_ok explicit n 0 Hp) Hl) as (ts & -> & He).
  cbn [mbind result_bind]. rewrite <- parse_erase, He, parse_erase. by apply parse_print_tokens.
Qed.

Definition sample_field (n : string) (ps : list string) : ParsedField :=
  {| name := lit n;
     specs := omap (fun p => Dict.get (lit p) FIELD_SPECS) ps |}.
Definition sample_node : Node :=
  BoolNode OpOr
    [BoolNode OpAnd [PredicateNode (sample_field "host" ["host.name"; "linux.hostname"]%string) (lit ":") (lit "web*");
                     NotNode (BoolNode OpOr [TextNode (lit "ssh"); TextNode (lit "has")])];
     ExistsNode (sample_field "risk_score" ["risk_score"]%string)].

Lemma parse_print_witness :
  (let! ts := _tokenize (render (print_node false sample_node 0)) in parse ts) = Ok sample_node /\
  (let! ts := _tokenize (render (print_node true sample_node 0)) in parse ts) = Ok sample_node.
Proof.
  assert (printable sample_node) as Hp.
  { apply pr_or; [apply pr_and| |]; try (by intros c ?%elem_of_nil).
    - unfold MAX_QUERY_TERMS. cbn. lia.
    - apply pr_predicate; [vm_compute; reflexivity|]. apply (bool_decide_eq_true_1 _). reflexivity.
    - apply pr_not, pr_or; [constructor..|]. by intros c ?%elem_of_nil.
    - apply pr_exists. vm_compute. reflexivity. }
  split; apply parse_print; try exact Hp; apply Nat.leb_le; reflexivity.
Defined.

(** Tokenizing and parsing terminate on every text; the only exception is
    [QuerySyntaxError]; tokens are at most 128, in increasing positions, and
    every expression built has resolved fields, at least two children under
    each connective and at most 64 under an AND. *)
Lemma query_parser_total query :
  outcome (fun ts => tokens_ok (length query) ts /\ (length ts <= MAX_TOKENS)%nat /\
                     outcome node_ok syntax_error (parse ts)) syntax_error (_tokenize query).
Proof.
  eapply (outcome_mono _ _ syntax_error); [|done|apply tokenize_outcome].
  intros ts [H1 H2]. split; [done|]. split; [done|]. apply parse_outcome.
Qed.

End QueryParse.
