(* ===== verification/QueryEval.v ===== *)
(** Theorems about what QuerySyntax makes of an expression: the query sent to
    the search engine and the evaluation of the same expression over one
    event. *)
From S2P Require Import Prelude PyBase PyRuntime QuerySyntax QueryParse.
Import Str PyRuntime QuerySyntax QueryParse.

Module QueryEval.

(** * Wildcards *)

(** What a pattern stands for, character by character. *)
Inductive glob_match `{Runtime} : str -> str -> Prop :=
  | gm_nil : glob_match [] []
  | gm_star p a s : (forall c, c ∈ a -> c <> 10) -> glob_match p s -> glob_match (code "*" :: p) (a ++ s)
  | gm_any p c s : c <> 10 -> glob_match p s -> glob_match (code "?" :: p) (c :: s)
  | gm_char p c d s : c <> code "*" -> c <> code "?" -> re_same c d = true -> glob_match p s ->
      glob_match (c :: p) (d :: s).

Section glob.
Context `{Runtime}.

(** [$]: the end of the text, or just before a final newline. *)
Definition matches_to_end (p s : str) : Prop :=
  glob_match p s \/ exists s0, s = s0 ++ [10] /\ glob_match p s0.

Lemma star_unfold p s :
  glob (code "*" :: p) s =
  glob p s || match s with d :: s' => negb (d =? 10) && glob (code "*" :: p) s' | [] => false end.
Proof. cbn [glob]. change (code "*" =? code "*") with true. by destruct s. Qed.

Lemma to_end_cons p p' c s :
  (forall s, glob_match p s -> glob_match p' (c :: s)) -> matches_to_end p s -> matches_to_end p' (c :: s).
Proof. intros Hc [Hm|(s0 & -> & Hm)]; [left; by apply Hc|right; exists (c :: s0); split; [done|by apply Hc]]. Qed.

Lemma glob_sound p : forall s, glob p s = true -> matches_to_end p s.
Proof.
  induction p as [|c p IH]; intros s Hg.
  - destruct s as [|c [|d s]]; cbn [glob] in Hg; [left; constructor| |done].
    apply Z.eqb_eq in Hg as ->. right. exists []. split; [done|constructor].
  - destruct (c =? code "*") eqn:Es.
    + apply Z.eqb_eq in Es as ->. induction s as [|d s IHs]; rewrite star_unfold in Hg; apply orb_prop in Hg as [Hg|Hg]; try done.
      1,2: apply IH in Hg as [Hm|(s0 & Heq & Hm)];
        [left; apply (gm_star p [] _); [by intros ? ?%elem_of_nil|done]
        |right; exists s0; split; [done|]; apply (gm_star p [] _); [by intros ? ?%elem_of_nil|done]].
      apply andb_prop in Hg as [Hd Hg]. apply negb_true_iff, Z.eqb_neq in Hd.
      apply (to_end_cons (code "*" :: p)); [|by apply IHs].
      intros s' Hm. inversion Hm as [|? a ? Ha Hp| |]; subst; try done.
      apply (gm_star p (d :: a)); [|done]. by intros x [->|]%elem_of_cons; [|apply Ha].
    + cbn [glob] in Hg. rewrite Es in Hg. destruct s as [|d s]; [done|]. apply andb_prop in Hg as [Hd Hg].
      apply (to_end_cons p); [|by apply IH]. intros s' Hm. apply Z.eqb_neq in Es.
      destruct (c =? code "?") eqn:Eq.
      * apply Z.eqb_eq in Eq as ->. apply negb_true_iff, Z.eqb_neq in Hd. by constructor.
      * apply Z.eqb_neq in Eq. by constructor.
Qed.

Lemma glob_complete p s r : glob_match p s -> (r = [] \/ r = [10]) -> glob p (s ++ r) = true.
Proof.
  intros Hm Hr. induction Hm as [|p a s Ha Hm IH|p c s Hc Hm IH|p c d s Hc1 Hc2 Hd Hm IH].
  - by destruct Hr as [->| ->].
  - induction a as [|x a IHa]; rewrite star_unfold; [cbn [app]; by rewrite IH|].
    cbn [app]. rewrite IHa by (intros c Hc; apply Ha; by right).
    assert (x <> 10) as Hx by (apply Ha; left). apply Z.eqb_neq in Hx. rewrite Hx. by rewrite orb_true_r.
  - cbn [glob app]. change (code "?" =? code "*") with false. change (code "?" =? code "?") with true.
    cbv beta iota. rewrite (proj2 (Z.eqb_neq c 10) Hc). exact IH.
  - cbn [glob app]. apply Z.eqb_neq in Hc1, Hc2. by rewrite Hc1, Hc2, Hd, IH.
Qed.

Lemma glob_iff p s : glob p s = true <-> matches_to_end p s.
Proof.
  split; [apply glob_sound|]. intros [Hm|(s0 & -> & Hm)].
  - rewrite <- (app_nil_r s). apply glob_complete; [done|by left].
  - apply glob_complete; [done|by right].
Qed.
End glob.

(** * Exceptions of the evaluation *)
Definition no_utc (e : query_exn) : Prop := e = QueryPy OverflowError \/ e = QueryPy ValueError.
Definition query_error (e : query_exn) : Prop := e = QuerySyntaxError \/ no_utc e.

Section outcomes.
Context `{Runtime} (repr : json -> str).

Lemma utc_text_outcome d : outcome (fun _ => True) no_utc (utc_text d).
Proof. unfold utc_text. destruct (utc_isoformat d) as [[]|s]; [by right|by left|done]. Qed.

Lemma coerce_outcome spec v : outcome (fun _ => True) query_error (_coerce_value spec v).
Proof.
  unfold _coerce_value. destruct (f_kind spec); try done.
  - destruct (one_of v _); [destruct (float_of_str v)|destruct (py_int v)]; try done; by left.
  - destruct (date_parse v) as [d|]; [|by left]. eapply outcome_mono; [|intros e He; right; exact He|apply utc_text_outcome]. done.
Qed.

Lemma query_for_spec_outcome {T} spec op v :
  outcome (fun _ => True) query_error (_query_for_spec (T := T) spec op v).
Proof.
  unfold _query_for_spec. apply outcome_bind. eapply (outcome_mono _ _ query_error); [|done|apply coerce_outcome].
  intros c _. destruct (range_op_of op); [destruct (ordered _); [done|by left]|].
  destruct (bool_decide (op = lit ":")); [cbn [negb raise_if mbind result_bind]|by left].
  destruct (ordered _); [done|]. destruct (_WILDCARD_RE v); [|by destruct (f_kind spec)].
  destruct (wildcard spec); [cbn [negb raise_if mbind result_bind]|by left].
  destruct (_ && _); [by left|done].
Qed.

Lemma mapM_any_outcome {A B} (f : A -> res B) (R : query_exn -> Prop) l :
  (forall x, outcome (fun _ => True) R (f x)) -> outcome (fun _ => True) R (mapM_py f l).
Proof.
  intros Hf. induction l as [|x l IH]; [done|]. cbn [mapM_py]. apply outcome_bind.
  eapply (outcome_mono _ _ R); [|done|apply Hf]. intros y _. apply outcome_bind.
  eapply (outcome_mono _ _ R); [|done|exact IH]. done.
Qed.

(** A comparison that the query builder accepted cannot mix kinds. *)
Definition same_kind (a b : coerced) : bool :=
  match a, b with CStr _, CStr _ => true | CStr _, _ | _, CStr _ => false | _, _ => true end.

Lemma compare_all_same op a b : same_kind a b = true -> exists r, compare_all op a b = Ok r.
Proof. intros Hs. unfold compare_all, py_lt, py_le. destruct a, b; try done; cbn; by eexists. Qed.

Lemma coerce_kind spec v c :
  _coerce_value spec v = Ok c -> ordered (f_kind spec) = true ->
  match c with CStr _ => f_kind spec = Date | _ => f_kind spec = Numeric end.
Proof.
  unfold _coerce_value, utc_text. destruct (f_kind spec); try done; intros Hc _.
  - destruct (one_of v _); [destruct (float_of_str v)|destruct (py_int v)]; by inversion Hc.
  - destruct (date_parse v); [|done]. cbn in Hc. destruct (utc_isoformat _); by inversion Hc.
Qed.

Lemma evaluate_spec_outcome {T} spec op v c candidate :
  _query_for_spec (T := T) spec op v = Ok c ->
  outcome (fun _ => True) no_utc (_evaluate_spec repr spec op v candidate).
Proof.
  intros Hq. unfold _query_for_spec in Hq. apply bind_Ok in Hq as (e & He & Hq). unfold _evaluate_spec.
  assert (outcome (fun _ => True) no_utc
    match range_op_of op with
    | Some rop =>
        let! expected_value := _coerce_value spec v in
        let! candidate_value := candidate_value repr spec candidate in
        match candidate_value with
        | None => Ok false
        | Some c => compare_all rop c expected_value
        end
    | None =>
        let candidate_text := _normalize_string repr candidate in
        if _WILDCARD_RE v then Ok (_match_string candidate_text v)
        else match f_kind spec with
             | Numeric => Ok (bool_decide (candidate_text = v))
             | _ => Ok (bool_decide (py_lower candidate_text = py_lower v))
             end
    end); [|by destruct candidate].
  destruct (range_op_of op) as [rop|].
  - destruct (ordered (f_kind spec)) eqn:Ho; [|done]. rewrite He. cbn [mbind result_bind].
    pose proof (coerce_kind _ _ _ He Ho) as Hk. unfold candidate_value.
    destruct (f_kind spec) eqn:Ek; try done.
    + assert (forall o, outcome (fun _ => True) no_utc
        (let! candidate_value := Ok o in
         match candidate_value with None => Ok false | Some c => compare_all rop c e end) \/
        exists s, o = Some (CStr s)) as Hnum.
      { intros [a|]; [|by left]. destruct a as [x|x|x]; [left..|right; by eexists];
          (cbn [mbind result_bind]; destruct e; [| |done]; by edestruct compare_all_same as [r ->]). }
      destruct (one_of _ _).
      * destruct (Hnum (CFloat <$> float_of candidate)) as [|[s Hs]]; [done|]. by destruct (float_of candidate).
      * destruct (Hnum (CInt <$> int_of candidate)) as [|[s Hs]]; [done|]. by destruct (int_of candidate).
    + destruct (date_parse _) as [d|]; [|done]. pose proof (utc_text_outcome d) as Hu. destruct (utc_text d) as [x|e'|] eqn:Eu; [|exact Hu|done].
      unfold utc_text in Eu. destruct (utc_isoformat d); inversion Eu; subst.
      by destruct e.
  - cbn zeta. destruct (_WILDCARD_RE v); [done|]. by destruct (f_kind spec).
Qed.

Lemma anyM_outcome {A} (f : A -> res bool) (R : query_exn -> Prop) l :
  (forall x, x ∈ l -> outcome (fun _ => True) R (f x)) -> outcome (fun _ => True) R (anyM f l).
Proof.
  induction l as [|x l IH]; intros Hf; [done|]. cbn [anyM]. apply outcome_bind.
  eapply (outcome_mono _ _ R); [|done|apply Hf; left]. intros [] _; [done|]. apply IH. intros y Hy. apply Hf. by right.
Qed.
End outcomes.

(** * The query built and the evaluation *)
Section agreement.
Context `{Runtime} (repr : json -> str).
Context {T : Type} (text_query_builder : str -> T).
Variables (payload : json) (text_haystack : str).

Lemma build_bool op cs :
  _build_query text_query_builder (BoolNode op cs) =
  let! qs := mapM_py (_build_query text_query_builder) cs in
  match op with OpOr => Ok (Should qs) | OpAnd => Ok (Must qs) end.
Proof.
  cbn [_build_query]. f_equal. induction cs as [|c cs IH]; [done|]. cbn [mapM_py]. by rewrite <- IH.
Qed.

(** [any] and [all] over the children. *)
Fixpoint evaluate_list (op : bool_op) (cs : list Node) : res bool :=
  match cs with
  | [] => Ok (match op with OpOr => false | OpAnd => true end)
  | c :: cs' =>
      let! b := _evaluate repr payload text_haystack c in
      match op with
      | OpOr => if (b : bool) then Ok true else evaluate_list op cs'
      | OpAnd => if (b : bool) then evaluate_list op cs' else Ok false
      end
  end.

Lemma evaluate_bool op cs :
  _evaluate repr payload text_haystack (BoolNode op cs) = evaluate_list op cs.
Proof. cbn [_evaluate]. induction cs as [|c cs IH]; [done|]. cbn [evaluate_list]. by rewrite <- IH. Qed.

Lemma Node_rect' (P : Node -> Prop) :
  (forall v, P (TextNode v)) -> (forall f op v, P (PredicateNode f op v)) -> (forall f, P (ExistsNode f)) ->
  (forall c, P c -> P (NotNode c)) -> (forall op cs, Forall P cs -> P (BoolNode op cs)) ->
  forall n, P n.
Proof.
  intros Ht Hp He Hn Hb. fix IH 1. intros [v|f op v|f|c|op cs]; [apply Ht|apply Hp|apply He|apply Hn, IH|].
  apply Hb. induction cs as [|c cs IHcs]; constructor; [apply IH|exact IHcs].
Qed.

Lemma build_outcome n : outcome (fun _ => True) query_error (_build_query text_query_builder n).
Proof.
  induction n as [v|f op v|f|c IH|op cs IH] using Node_rect'; [done| | | |].
  - cbn [_build_query]. apply outcome_bind. eapply (outcome_mono _ _ query_error); [|done|].
    2:{ apply mapM_any_outcome. intros spec. apply query_for_spec_outcome. }
    by intros [|? [|]] _.
  - cbn [_build_query]. by destruct (specs f) as [|? [|]].
  - cbn [_build_query]. apply outcome_bind. by eapply (outcome_mono _ _ query_error).
  - rewrite build_bool.
    assert (outcome (fun _ => True) query_error (mapM_py (_build_query text_query_builder) cs)) as Hm.
    { induction IH as [|c cs Hc Hcs IHcs]; [done|]. cbn [mapM_py].
      destruct (_build_query _ c); [|done..]. by destruct (mapM_py _ cs). }
    destruct (mapM_py _ cs); [by destruct op|done..].
Qed.

Lemma evaluate_outcome n q :
  _build_query text_query_builder n = Ok q ->
  outcome (fun _ => True) no_utc (_evaluate repr payload text_haystack n).
Proof.
  revert q. induction n as [v|f op v|f|c IH|op cs IH] using Node_rect'; intros q Hq; [done| |done| |].
  - cbn [_build_query] in Hq. apply bind_Ok in Hq as (clauses & Hcl & _). apply mapM_py_Ok in Hcl.
    cbn [_evaluate]. apply anyM_outcome. intros spec Hin. apply anyM_outcome. intros candidate _.
    apply list_elem_of_lookup in Hin as [i Hi]. destruct (Forall2_lookup_l _ _ _ _ _ Hcl Hi) as (c & _ & Hc).
    by eapply evaluate_spec_outcome.
  - cbn [_build_query] in Hq. apply bind_Ok in Hq as (qc & Hqc & _). cbn [_evaluate]. apply outcome_bind.
    by eapply (outcome_mono _ _ no_utc); [|done|by eapply IH].
  - rewrite build_bool in Hq. apply bind_Ok in Hq as (qs & Hqs & _). apply mapM_py_Ok in Hqs. clear q.
    rewrite evaluate_bool. revert qs Hqs. induction IH as [|c cs Hc Hcs IHcs]; intros qs Hqs; [done|].
    inversion Hqs as [|? q0 ? qs' Hq0 Hqs']; subst. cbn [evaluate_list]. apply outcome_bind.
    eapply (outcome_mono _ _ no_utc); [|done|by eapply Hc]. intros b _.
    destruct op, b; try done; by eapply IHcs.
Qed.

(** ** What the search engine does with the Boolean queries

    [leaf] says which of the other queries the event satisfies. *)
Variable leaf : es_query T -> bool.

Fixpoint es_match (q : es_query T) : bool :=
  match q with
  | Should qs => existsb es_match qs   (** [minimum_should_match] is 1 *)
  | Must qs => forallb es_match qs
  | MustNot qs => negb (existsb es_match qs)
  | _ => leaf q
  end.

(** The fields tested by an expression. *)
Fixpoint predicates (n : Node) : list (FieldSpec * str * str) :=
  match n with
  | PredicateNode f op v => map (fun spec => (spec, op, v)) (specs f)
  | NotNode c => predicates c
  | BoolNode _ cs => flat_map predicates cs
  | _ => []
  end.

(** The engine and the evaluator agree on one field. *)
Definition agrees (p : FieldSpec * str * str) : Prop :=
  let '(spec, op, v) := p in
  forall c, _query_for_spec spec op v = Ok c ->
    anyM (_evaluate_spec repr spec op v) (_iter_values payload (path spec)) = Ok (leaf c).

Definition agreesb (p : FieldSpec * str * str) : bool :=
  let '(spec, op, v) := p in
  match _query_for_spec spec op v with
  | Ok c => match anyM (_evaluate_spec repr spec op v) (_iter_values payload (path spec)) with
            | Ok b => Bool.eqb b (leaf c) | _ => false end
  | _ => true
  end.

Lemma agreesb_sound ps : forallb agreesb ps = true -> Forall agrees ps.
Proof.
  rewrite forallb_forall, Forall_forall. intros Hb [[spec op] v] Hin c Hc.
  apply list_elem_of_In, Hb in Hin. cbn in Hin. rewrite Hc in Hin.
  destruct (anyM _ _); [|done|done]. by apply eqb_prop in Hin as ->.
Qed.

Definition text_agrees : Prop := forall v, leaf (FreeText (text_query_builder v)) = contains (py_lower v) text_haystack.
Definition exists_agrees : Prop :=
  forall p, leaf (Exists p) = match _iter_values payload p with [] => false | _ => true end.

Lemma query_for_spec_leaf spec op v c : _query_for_spec spec op v = Ok c -> es_match c = leaf c.
Proof.
  unfold _query_for_spec. intros (e & _ & Hq)%bind_Ok.
  destruct (range_op_of op); [destruct (ordered _); by inversion Hq|].
  apply bind_Ok in Hq as (_ & _ & Hq). destruct (ordered _); [by inversion Hq|].
  destruct (_WILDCARD_RE v); [|by destruct (f_kind spec); inversion Hq].
  apply bind_Ok in Hq as (_ & _ & Hq). apply bind_Ok in Hq as (_ & _ & Hq). by inversion Hq.
Qed.

Lemma single_or_should (qs : list (es_query T)) :
  es_match (match qs with [c] => c | _ => Should qs end) = existsb es_match qs.
Proof. destruct qs as [|q [|q' qs]]; [done| |done]. cbn. by rewrite orb_false_r. Qed.

Lemma anyM_existsb {A B} (f : A -> res bool) (g : B -> bool) xs ys :
  Forall2 (fun x y => f x = Ok (g y)) xs ys -> anyM f xs = Ok (existsb g ys).
Proof. induction 1 as [|x y xs ys Hxy _ IH]; [done|]. cbn [anyM existsb]. rewrite Hxy. cbn. by destruct (g y). Qed.

Lemma agreement n q :
  _build_query text_query_builder n = Ok q ->
  text_agrees -> exists_agrees -> Forall agrees (predicates n) ->
  _evaluate repr payload text_haystack n = Ok (es_match q).
Proof.
  intros Hq Ht He Hp. revert q Hq Hp. induction n as [v|f op v|f|c IH|op cs IH] using Node_rect'; intros q Hq Hp.
  - injection Hq as <-. cbn. by rewrite Ht.
  - cbn [_build_query] in Hq. apply bind_Ok in Hq as (clauses & Hcl & Hq). apply mapM_py_Ok in Hcl.
    assert (q = match clauses with [c] => c | _ => Should clauses end) as ->
      by (destruct clauses as [|? [|]]; by inversion Hq).
    rewrite single_or_should. cbn [_evaluate]. apply anyM_existsb.
    cbn [predicates] in Hp. rewrite Forall_map in Hp.
    clear Hq. induction Hcl as [|spec c ss cl Hc Hcl IHcl]; constructor.
    + inversion Hp as [|? ? Ha _]; subst. rewrite (query_for_spec_leaf _ _ _ _ Hc). by apply Ha.
    + apply IHcl. by inversion Hp.
  - assert (q = match map (fun spec => Exists (path spec)) (specs f) with
                | [c] => c | _ => Should (map (fun spec => Exists (path spec)) (specs f)) end) as ->
      by (cbn in Hq; destruct (specs f) as [|? [|]]; by inversion Hq).
    rewrite single_or_should. cbn [_evaluate]. f_equal. clear Hq.
    induction (specs f) as [|spec ss IHs]; [done|]. cbn [map existsb es_match]. by rewrite (He (path spec)), IHs.
  - cbn [_build_query] in Hq. apply bind_Ok in Hq as (qc & Hqc & [= <-]). cbn [_evaluate es_match existsb].
    rewrite (IH _ Hqc Hp). cbn. by rewrite orb_false_r.
  - rewrite build_bool in Hq. apply bind_Ok in Hq as (qs & Hqs & Hq). apply mapM_py_Ok in Hqs.
    rewrite evaluate_bool.
    assert (q = match op with OpOr => Should qs | OpAnd => Must qs end) as -> by (destruct op; by inversion Hq).
    clear Hq. cbn [predicates] in Hp. revert qs Hqs.
    induction IH as [|c cs Hc Hcs IHcs]; intros qs Hqs; inversion Hqs as [|? q0 ? qs' Hq0 Hqs']; subst; [by destruct op|].
    cbn [flat_map] in Hp. apply Forall_app in Hp as [Hp1 Hp2]. cbn [evaluate_list]. rewrite (Hc _ Hq0 Hp1). cbn [mbind result_bind].
    rewrite (IHcs Hp2 _ Hqs'). destruct op; cbn [es_match existsb forallb]; by destruct (es_match q0).
Qed.
End agreement.

(** * Properties *)

(** C9. One language, two implementations: on every expression that the query
    builder accepts, if the search engine and the evaluator agree on the
    single field tests, on free text and on existence, then evaluating the
    expression over the event gives exactly what the engine answers to the
    query built, and raises nothing. *)
Theorem build_evaluate_agree `{Runtime} repr {T} (text_query_builder : str -> T) payload text_haystack leaf n q :
  _build_query text_query_builder n = Ok q ->
  text_agrees text_query_builder text_haystack leaf -> exists_agrees payload leaf ->
  Forall (agrees repr payload leaf) (predicates n) ->
  _evaluate repr payload text_haystack n = Ok (es_match leaf q).
Proof. apply agreement. Qed.

(** C36. A query that was analyzed never fails on an event, whatever its
    fields hold, but for dates that have no UTC time: analysis raises
    [QuerySyntaxError], or [ValueError] or [OverflowError] from a date whose
    offset is a day or more or that leaves the calendar in UTC; after it
    evaluation can raise only the last two, never a [TypeError] from comparing
    text with numbers. *)
Theorem analyzed_query_evaluates `{Runtime} repr {T} is_word query (text_query_builder : str -> T) :
  outcome (fun info => forall payload text_haystack,
             outcome (fun _ => True) no_utc (evaluate_query_syntax repr info payload text_haystack))
    query_error (analyze_query_syntax is_word query text_query_builder).
Proof.
  assert (Hplain : forall t payload hay, outcome (fun _ => True) no_utc
    (evaluate_query_syntax repr (plain_info text_query_builder t) payload hay)) by done.
  unfold analyze_query_syntax. destruct (strip query) as [|c text] eqn:Et; [done|].
  destruct (query_has_advanced_syntax _ _); cbn [negb]; [|exact (Hplain _)].
  pose proof (tokenize_outcome (c :: text)) as Ht. destruct (_tokenize _) as [ts|e|]; [|by left|done]. cbn [mbind result_bind].
  pose proof (parse_outcome ts) as Hp. destruct (parse ts) as [n|e|]; [|by left|done]. cbn [mbind result_bind].
  pose proof (build_outcome text_query_builder n) as Hb.
  destruct (_build_query text_query_builder n) as [q|e|] eqn:Eq; [|done|done]. cbn [mbind result_bind outcome].
  intros payload hay. by eapply evaluate_outcome.
Qed.

(** Wildcards mean what they say: a pattern matches a value exactly when
    the value splits along it, [*] standing for any run of characters other
    than newlines and [?] for one, the other characters for themselves up to
    case; a final newline is ignored. *)
Lemma match_string_spec `{Runtime} v expected :
  _match_string v expected = true <-> matches_to_end expected v.
Proof. apply glob_iff. Qed.

(** Equality on a numeric field is tested on text: where the query sent to
    the engine asks for the integer that the value denotes, the evaluator
    compares the value's own spelling, and rejects an event holding that very
    integer when the query spells it any other way ([070], [+70], [1_000]). *)
Lemma numeric_equality_is_textual `{Runtime} repr {T} spec v z :
  f_kind spec = Numeric -> one_of v (code ".") = false -> _WILDCARD_RE v = false -> py_int v = Some z ->
  _query_for_spec (T := T) spec (lit ":") v = Ok (Term (path spec) (CInt z)) /\
  _evaluate_spec repr spec (lit ":") v (JInt z) = Ok (bool_decide (v = str_of_Z z)).
Proof.
  intros Hk Hd Hw Hz. unfold _query_for_spec, _coerce_value, _evaluate_spec. rewrite Hk, Hd, Hz, Hw.
  split; [reflexivity|]. cbn [_normalize_string].
  change (range_op_of (lit ":")) with (@None range_op). cbv beta iota zeta.
  by rewrite (bool_decide_ext (str_of_Z z = v) (v = str_of_Z z)).
Qed.

#[local] Existing Instance toy_runtime.
Definition no_repr (j : json) : str := [].

Definition sample_payload : json :=
  JDict [(lit "host", JDict [(lit "name", JStr (lit "WEB-01"))]); (lit "risk_score", JInt 70)].

(** An engine over that event: case-insensitive terms and wildcards. *)
Definition sample_engine (q : es_query str) : bool :=
  match q with
  | FreeText t => contains (lower t) (lit "accepted ssh login")
  | Exists p => match _iter_values sample_payload p with [] => false | _ => true end
  | Wildcard p v => existsb (fun c => _match_string (_normalize_string no_repr c) v) (_iter_values sample_payload p)
  | Range p RGte (CInt z) =>
      existsb (fun c => match c with JInt n => z <=? n | _ => false end) (_iter_values sample_payload p)
  | _ => false
  end.

Definition sample_query : str := lit "host:web* AND (risk_score>=50 OR has:user) ssh".

Definition sample_parsed : Node :=
  Eval vm_compute in match (let! ts := _tokenize sample_query in parse ts) with Ok n => n | _ => TextNode [] end.
Definition sample_built : es_query str :=
  Eval vm_compute in match _build_query (fun v => v) sample_parsed with Ok q => q | _ => Should [] end.

Lemma build_evaluate_agree_witness :
  (let! ts := _tokenize sample_query in parse ts) = Ok sample_parsed /\
  _evaluate no_repr sample_payload (lit "accepted ssh login") sample_parsed = Ok (es_match sample_engine sample_built) /\
  es_match sample_engine sample_built = true.
Proof.
  split; [vm_compute; reflexivity|]. split; [|vm_compute; reflexivity].
  apply (build_evaluate_agree no_repr (fun v => v)); [reflexivity|intros v; reflexivity|intros p; reflexivity|].
  apply agreesb_sound. vm_compute. reflexivity.
Defined.

Lemma numeric_equality_is_textual_witness :
  _query_for_spec (T := str) (FieldSpecOf "risk_score" Numeric false false) (lit ":") (lit "070") =
    Ok (Term (lit "risk_score") (CInt 70)) /\
  _evaluate_spec no_repr (FieldSpecOf "risk_score" Numeric false false) (lit ":") (lit "070") (JInt 70) = Ok false.
Proof.
  exact (numeric_equality_is_textual no_repr (FieldSpecOf "risk_score" Numeric false false) (lit "070") 70
    eq_refl eq_refl eq_refl eq_refl).
Defined.
End QueryEval.
