(* ===== verification/SigmaCondition.v ===== *)
(** rules_engine/sigma.py, the conditions of detection rules: their tokens, the
    translation to reverse Polish notation and its evaluation on a stack. *)
From S2P Require Import Prelude PyBase PyRuntime.
Import Str.

Module SigmaCondition.

(** What escapes: the [ValueError]s the code raises itself, those of the
    runtime, and [re.error] from a rule's own regular expression. *)
Inductive sigma_exn : Type :=
  | SigmaValueError
  | SigmaPy (e : py_exn)
  | ReError.

Abbreviation res := (result sigma_exn).

(** * Tokens *)
Section tokens.
(** [\w] of the [re] module. *)
Variable is_word : Z -> bool.

(** [[A-Za-z0-9_*]] ignoring case: four other letters fold to ASCII ones. *)
Definition name_char (c : Z) : bool :=
  ((65 <=? c) && (c <=? 90)) || ((97 <=? c) && (c <=? 122)) || ((48 <=? c) && (c <=? 57)) ||
  one_of (lit "_*") c || one_of [304; 305; 383; 8490] c.

(** [\band\b] and the like at the head of [s]; [prev] says whether a word
    character stands before. *)
Definition word_here (w : str) (prev : bool) (s : str) : bool :=
  negb prev && bool_decide (lower (take (length w) s) = w) &&
  match drop (length w) s with [] => true | c :: _ => negb (is_word c) end.

Definition connective_here (prev : bool) (s : str) : option nat :=
  if word_here (lit "and") prev s then Some 3%nat
  else if word_here (lit "or") prev s then Some 2%nat
  else if word_here (lit "not") prev s then Some 3%nat
  else None.

(** [CONDITION_TOKENS_RE.findall]; [skip] characters belong to the token just
    found. *)
Fixpoint CONDITION_TOKENS_RE (skip : nat) (prev : bool) (s : str) : list str :=
  match s with
  | [] => []
  | c :: s' =>
      match skip with
      | S skip => CONDITION_TOKENS_RE skip (is_word c) s'
      | O =>
          if one_of (lit "()") c then [c] :: CONDITION_TOKENS_RE 0 (is_word c) s'
          else
            match connective_here prev s with
            | Some n => take n s :: CONDITION_TOKENS_RE (n - 1) (is_word c) s'
            | None =>
                let n := span_len name_char s in
                if bool_decide (n = 0%nat) then CONDITION_TOKENS_RE 0 (is_word c) s'
                else take n s :: CONDITION_TOKENS_RE (n - 1) (is_word c) s'
            end
      end
  end.

Definition keyword_tokens : list str := [lit "and"; lit "or"; lit "not"; lit "("; lit ")"].

Definition _tokenize_condition (condition : str) : res (list str) :=
  let tokens := CONDITION_TOKENS_RE 0 false condition in
  match tokens with
  | [] => Raise SigmaValueError
  | _ => Ok (map (fun t => if bool_decide (lower t ∈ keyword_tokens) then lower t else t) tokens)
  end.
End tokens.

(** * Reverse Polish notation *)
Definition precedence (token : str) : option Z :=
  if bool_decide (token = lit "or") then Some 1
  else if bool_decide (token = lit "and") then Some 2
  else if bool_decide (token = lit "not") then Some 3
  else None.

(** The two loops that move operators from the stack (top first). *)
Fixpoint pop_to_paren (output stack : list str) : list str * list str :=
  match stack with
  | t :: stack' => if bool_decide (t = lit "(") then (output, stack) else pop_to_paren (output ++ [t]) stack'
  | [] => (output, [])
  end.
Fixpoint pop_higher (p : Z) (output stack : list str) : list str * list str :=
  match stack with
  | t :: stack' =>
      match precedence t with
      | Some q => if p <=? q then pop_higher p (output ++ [t]) stack' else (output, stack)
      | None => (output, stack)
      end
  | [] => (output, [])
  end.

Definition rpn_token (st : list str * list str) (token : str) : res (list str * list str) :=
  let (output, stack) := st in
  if bool_decide (token = lit "(") then Ok (output, token :: stack)
  else if bool_decide (token = lit ")") then
    match pop_to_paren output stack with
    | (_, []) => Raise SigmaValueError
    | (output, _ :: stack) => Ok (output, stack)
    end
  else
    match precedence token with
    | Some p => let (output, stack) := pop_higher p output stack in Ok (output, token :: stack)
    | None => Ok (output ++ [token], stack)
    end.

Fixpoint flush (output stack : list str) : res (list str) :=
  match stack with
  | [] => Ok output
  | t :: stack' =>
      if bool_decide (t = lit "(") || bool_decide (t = lit ")") then Raise SigmaValueError
      else flush (output ++ [t]) stack'
  end.

Definition _to_rpn (tokens : list str) : res (list str) :=
  let! st := foldM rpn_token ([], []) tokens in
  let (output, stack) := st : list str * list str in
  flush output stack.

(** * Evaluation *)

(** [matched], the fields that matched and the notes on quality. *)
Abbreviation value F := (bool * list (str * F) * list str)%type.

Section evaluation.
Context {F : Type}.
(** [{**a, **b}] *)
Definition merge (a b : list (str * F)) : list (str * F) := fold_left (fun d kv => Dict.set (fst kv) (snd kv) d) b a.

(** What a selection evaluates to, and the selections a token stands for. *)
Variable selection_result : str -> res (value F).
Variable _expand_selection_tokens : str -> list str.

Definition aggregate_step (acc : value F) (selection_name : str) : res (value F) :=
  let '(aggregate_match, aggregate_fields, aggregate_quality) := acc in
  let! (matched, fields, quality) := selection_result selection_name in
  Ok (if (matched : bool) then (true, merge aggregate_fields fields, aggregate_quality ++ quality)
      else (aggregate_match, aggregate_fields, aggregate_quality ++ quality)).

Definition eval_token (stack : list (value F)) (token : str) : res (list (value F)) :=
  if bool_decide (token = lit "not") then
    match stack with
    | [] => Raise (SigmaPy IndexError)
    | (v, matched_fields, qualities) :: stack =>
        Ok ((negb v, if v then [] else matched_fields, qualities) :: stack)
    end
  else if bool_decide (token = lit "and") || bool_decide (token = lit "or") then
    match stack with
    | (rv, rf, rq) :: (lv, lf, lq) :: stack =>
        Ok (if bool_decide (token = lit "and") then (lv && rv, merge lf rf, lq ++ rq) :: stack
            else (lv || rv, if rv then rf else lf, lq ++ rq) :: stack)
    | _ => Raise (SigmaPy IndexError)
    end
  else
    match _expand_selection_tokens token with
    | [] => Raise SigmaValueError
    | expanded =>
        let! v := foldM aggregate_step (false, [], []) expanded in
        Ok (v :: stack)
    end.

Definition eval_rpn (rpn : list str) : res (value F) :=
  let! stack := foldM eval_token [] rpn in
  match stack with [v] => Ok v | _ => Raise SigmaValueError end.
End evaluation.
End SigmaCondition.
