(* ===== verification/SigmaRpn.v ===== *)
(** Theorems about the conditions of detection rules: what the notation computes
    is what the condition says. *)
From S2P Require Import Prelude PyBase PyRuntime SigmaCondition.
Import Str SigmaCondition.

Module SigmaRpn.

(** * Conditions as expressions *)
Inductive cond : Type :=
  | Name (token : str)
  | Not (a : cond)
  | And (a b : cond)
  | Or (a b : cond).

Definition paren (b : bool) (ts : list str) : list str := if b then lit "(" :: ts ++ [lit ")"] else ts.

(** Written with the parentheses that the grammar needs: [or] binds loosest,
    then [and], both to the left, then [not], whose operand is a name or in
    parentheses. *)
Fixpoint print (c : cond) (level : nat) : list str :=
  match c with
  | Name t => [t]
  | Not a => paren (2 <? level)%nat (lit "not" :: print a 3)
  | And a b => paren (1 <? level)%nat (print a 1 ++ lit "and" :: print b 2)
  | Or a b => paren (0 <? level)%nat (print a 0 ++ lit "or" :: print b 1)
  end.

Fixpoint postfix (c : cond) : list str :=
  match c with
  | Name t => [t]
  | Not a => postfix a ++ [lit "not"]
  | And a b => postfix a ++ postfix b ++ [lit "and"]
  | Or a b => postfix a ++ postfix b ++ [lit "or"]
  end.

Fixpoint names (c : cond) : list str :=
  match c with
  | Name t => [t]
  | Not a => names a
  | And a b | Or a b => names a ++ names b
  end.

Definition plain_name (t : str) : Prop := t ∉ keyword_tokens.

Lemma plain_precedence t : plain_name t -> precedence t = None /\ t <> lit "(" /\ t <> lit ")".
Proof.
  unfold plain_name, keyword_tokens, precedence. rewrite !not_elem_of_cons. intros (? & ? & ? & ? & ? & _).
  rewrite !bool_decide_eq_false_2 by done. done.
Qed.

(** ** The operators left on the stack *)
Definition pending (p : Z) (ops : list str) : Prop := Forall (fun t => exists q, precedence t = Some q /\ p <= q) ops.

(** The stack holds nothing that an operator of precedence [p] pops. *)
Definition blocked (p : Z) (stack : list str) : Prop :=
  match stack with t :: _ => match precedence t with Some q => q < p | None => True end | [] => True end.

Lemma pop_higher_pending p ops : forall output stack,
  pending p ops -> blocked p stack -> pop_higher p output (ops ++ stack) = (output ++ ops, stack).
Proof.
  induction ops as [|t ops IH]; intros output stack Hp Hb.
  - rewrite app_nil_r. destruct stack as [|t stack]; [done|]. cbn [app pop_higher]. unfold blocked in Hb.
    destruct (precedence t) as [q|]; [|done]. destruct (p <=? q) eqn:E; [to_prop; lia|done].
  - inversion Hp as [|? ? (q & Hq & Hle) Hp']; subst. cbn [app pop_higher]. rewrite Hq.
    rewrite (proj2 (Z.leb_le p q) Hle), IH by done. by rewrite <- app_assoc.
Qed.

Lemma pending_not_paren p ops : pending p ops -> Forall (fun t => t <> lit "(" /\ t <> lit ")") ops.
Proof. intros Hp. eapply Forall_impl; [exact Hp|]. intros t (q & Hq & _). split; intros ->; by vm_compute in Hq. Qed.

Lemma pop_to_paren_pending p ops : forall output stack,
  pending p ops -> pop_to_paren output (ops ++ lit "(" :: stack) = (output ++ ops, lit "(" :: stack).
Proof.
  intros output stack Hp. apply pending_not_paren in Hp. revert output.
  induction Hp as [|t ops [Hn _] Hp IH]; intros output; cbn [app pop_to_paren].
  - by rewrite app_nil_r, bool_decide_eq_true_2.
  - rewrite bool_decide_eq_false_2 by done. rewrite IH. by rewrite <- app_assoc.
Qed.

Lemma flush_pending p ops : forall output, pending p ops -> flush output ops = Ok (output ++ ops).
Proof.
  intros output Hp. apply pending_not_paren in Hp. revert output.
  induction Hp as [|t ops [H1 H2] Hp IH]; intros output; cbn [flush]; [by rewrite app_nil_r|].
  rewrite !bool_decide_eq_false_2 by done. cbn [orb]. rewrite IH. by rewrite <- app_assoc.
Qed.

(** Reading [ts] turns one operand into output and pending operators. *)
Definition reads (p : Z) (ts rpn : list str) : Prop :=
  forall output stack rest, blocked p stack ->
    exists o ops, foldM rpn_token (output, stack) (ts ++ rest) = foldM rpn_token (output ++ o, ops ++ stack) rest /\
      o ++ ops = rpn /\ pending p ops.

Lemma reads_weaken p q ts rpn : p <= q -> reads q ts rpn -> (forall stack, blocked p stack -> blocked q stack) -> reads p ts rpn.
Proof.
  intros Hle Hr Hb output stack rest Hst. destruct (Hr output stack rest (Hb _ Hst)) as (o & ops & H1 & H2 & H3).
  exists o, ops. split; [done|]. split; [done|]. eapply Forall_impl; [exact H3|]. intros t (r & ? & ?). exists r. split; [done|lia].
Qed.

Lemma blocked_mono p q stack : p <= q -> blocked p stack -> blocked q stack.
Proof. unfold blocked. destruct stack; [done|]. destruct (precedence _); [lia|done]. Qed.

Lemma token_operator t p output stack :
  precedence t = Some p ->
  rpn_token (output, stack) t = let (output, stack) := pop_higher p output stack in Ok (output, t :: stack).
Proof.
  intros Ht. unfold rpn_token. rewrite Ht. rewrite !bool_decide_eq_false_2; [done| |];
    intros ->; by vm_compute in Ht.
Qed.

Lemma token_open output stack : rpn_token (output, stack) (lit "(") = Ok (output, lit "(" :: stack).
Proof. done. Qed.
Lemma token_close p output ops stack :
  pending p ops -> rpn_token (output, ops ++ lit "(" :: stack) (lit ")") = Ok (output ++ ops, stack).
Proof.
  intros Hp. unfold rpn_token. rewrite bool_decide_eq_false_2 by done. rewrite bool_decide_eq_true_2 by done.
  by rewrite (pop_to_paren_pending p).
Qed.
Lemma token_plain t output stack : plain_name t -> rpn_token (output, stack) t = Ok (output ++ [t], stack).
Proof.
  intros Ht. destruct (plain_precedence _ Ht) as (Hp & H1 & H2). unfold rpn_token.
  by rewrite Hp, !bool_decide_eq_false_2.
Qed.

Lemma reads_paren p ts rpn : reads 1 ts rpn -> reads p (lit "(" :: ts ++ [lit ")"]) rpn.
Proof.
  intros Hr output stack rest Hb. cbn [app foldM]. rewrite token_open. cbn [mbind result_bind]. rewrite <- app_assoc.
  destruct (Hr output (lit "(" :: stack) ([lit ")"] ++ rest) I) as (o & ops & H1 & H2 & H3). rewrite H1.
  cbn [app foldM]. rewrite (token_close 1) by done. cbn [mbind result_bind]. exists rpn, [].
  rewrite app_nil_r, <- H2, app_assoc. split; [done|]. split; [done|constructor].
Qed.

Lemma reads_binary t p ta tb ra rb :
  precedence t = Some p -> 1 <= p ->
  reads p ta ra -> reads (p + 1) tb rb -> reads p (ta ++ t :: tb) (ra ++ rb ++ [t]).
Proof.
  intros Ht Hp Ha Hb output stack rest Hst. rewrite <- app_assoc. cbn [app].
  destruct (Ha output stack (t :: tb ++ rest) Hst) as (oa & opsa & H1 & H2 & H3). rewrite H1.
  cbn [foldM]. rewrite (token_operator _ _ _ _ Ht), (pop_higher_pending p) by done. cbn [mbind result_bind].
  destruct (Hb ((output ++ oa) ++ opsa) (t :: stack) rest) as (ob & opsb & H4 & H5 & H6).
  { unfold blocked. rewrite Ht. lia. }
  rewrite H4. exists (oa ++ opsa ++ ob), (opsb ++ [t]). rewrite <- H2, <- H5, <- !app_assoc. cbn [app].
  split; [done|]. split; [done|]. apply Forall_app. split.
  - eapply Forall_impl; [exact H6|]. intros x (q & ? & ?). exists q. split; [done|lia].
  - constructor; [|constructor]. exists p. split; [done|lia].
Qed.

Definition level_prec (level : nat) : Z := Z.of_nat level + 1.

Lemma print_reads c : Forall plain_name (names c) -> forall level, (level <= 3)%nat ->
  reads (level_prec level) (print c level) (postfix c).
Proof.
  induction c as [t|a IHa|a IHa b IHb|a IHa b IHb]; cbn [names print postfix]; intros Hn level Hl.
  - inversion Hn as [|? ? Ht _]; subst. intros output stack rest Hb. cbn [app foldM]. rewrite token_plain by done. cbn [mbind result_bind]. exists [t], []. split; [done|]. split; [done|constructor].
  - assert (reads 3 (lit "not" :: print a 3) (postfix a ++ [lit "not"])) as Hr.
    { intros output stack rest Hb. cbn [app foldM]. rewrite (token_operator _ 3) by reflexivity.
      rewrite (pop_higher_pending 3 [] output stack ltac:(constructor) Hb : pop_higher 3 output stack = _). cbn [mbind result_bind].
      destruct (IHa Hn 3%nat ltac:(lia) (output ++ []) (lit "not" :: stack) rest) as (o & ops & H1 & H2 & H3).
      { unfold blocked. reflexivity. }
      rewrite H1. exists o, (ops ++ [lit "not"]). rewrite app_nil_r, <- app_assoc. cbn [app]. rewrite <- H2, <- app_assoc.
      split; [done|]. split; [done|]. apply Forall_app. split.
      - eapply Forall_impl; [exact H3|]. intros x (q & ? & ?). exists q. unfold level_prec in *. split; [done|lia].
      - constructor; [|constructor]. by exists 3. }
    unfold paren. destruct (2 <? level)%nat eqn:E; to_prop.
    + apply reads_paren. apply (reads_weaken 1 3); [lia|done|]. intros st. by apply blocked_mono.
    + apply (reads_weaken _ 3); [unfold level_prec; lia|done|]. intros st. apply blocked_mono. unfold level_prec. lia.
  - apply Forall_app in Hn as [Ha Hb].
    assert (reads 2 (print a 1 ++ lit "and" :: print b 2) (postfix a ++ postfix b ++ [lit "and"])) as Hr.
    { apply reads_binary; [reflexivity|lia|by apply (IHa Ha 1%nat); lia|by apply (IHb Hb 2%nat); lia]. }
    unfold paren. destruct (1 <? level)%nat eqn:E; to_prop.
    + apply reads_paren. apply (reads_weaken 1 2); [lia|done|]. intros st. by apply blocked_mono.
    + apply (reads_weaken _ 2); [unfold level_prec; lia|done|]. intros st. apply blocked_mono. unfold level_prec. lia.
  - apply Forall_app in Hn as [Ha Hb].
    assert (reads 1 (print a 0 ++ lit "or" :: print b 1) (postfix a ++ postfix b ++ [lit "or"])) as Hr.
    { apply reads_binary; [reflexivity|lia|by apply (IHa Ha 0%nat); lia|by apply (IHb Hb 1%nat); lia]. }
    unfold paren. destruct (0 <? level)%nat eqn:E; to_prop.
    + by apply reads_paren.
    + apply (reads_weaken _ 1); [unfold level_prec; lia|done|]. intros st. apply blocked_mono. unfold level_prec. lia.
Qed.

Lemma to_rpn_print c : Forall plain_name (names c) -> _to_rpn (print c 0) = Ok (postfix c).
Proof.
  intros Hn. unfold _to_rpn. destruct (print_reads c Hn 0 ltac:(lia) [] [] [] I) as (o & ops & H1 & H2 & H3).
  rewrite app_nil_r in H1. rewrite H1. cbn [app foldM mbind result_bind]. rewrite app_nil_r.
  rewrite (flush_pending _ _ _ H3). by rewrite H2.
Qed.

(** * From text to tokens *)
Definition render (ts : list str) : str := flat_map (fun t => t ++ [32]) ts.
Definition connectives : list str := [lit "and"; lit "or"; lit "not"].

Section text.
Variable is_word : Z -> bool.
Hypothesis space_no_word : is_word 32 = false.

(** A selection name or pattern that does not begin with a connective as a
    word of its own. *)
Definition name_ok (t : str) : Prop :=
  t <> [] /\ forallb name_char t = true /\
  forall w, w ∈ connectives -> lower (take (length w) t) = w -> exists c, t !! length w = Some c /\ is_word c = true.

Lemma skip_token a r : forall prev, exists prev',
  CONDITION_TOKENS_RE is_word (length a) prev (a ++ r) = CONDITION_TOKENS_RE is_word 0 prev' r.
Proof. induction a as [|c a IH]; intros prev; [by exists prev|]. apply (IH (is_word c)). Qed.

Lemma word_here_space w prev r :
  w ∈ connectives -> word_here is_word w prev (32 :: r) = false.
Proof.
  intros Hw. unfold word_here. rewrite bool_decide_eq_false_2; [by rewrite andb_false_r|].
  unfold connectives in Hw. rewrite !elem_of_cons in Hw. by destruct Hw as [->|[->|[->|[]%elem_of_nil]]].
Qed.

Lemma skip_space prev r :
  CONDITION_TOKENS_RE is_word 0 prev (32 :: r) = CONDITION_TOKENS_RE is_word 0 false r.
Proof.
  cbn [CONDITION_TOKENS_RE]. change (one_of (lit "()") 32) with false. cbv iota.
  assert (connective_here is_word prev (32 :: r) = None) as ->.
  { unfold connective_here. rewrite !word_here_space; [done|..]; unfold connectives; rewrite !elem_of_cons; auto. }
  change (span_len name_char (32 :: r)) with 0%nat. cbv zeta. rewrite bool_decide_eq_true_2 by done. by rewrite space_no_word.
Qed.

Lemma word_here_name w t r : name_ok t -> w ∈ connectives -> word_here is_word w false (t ++ 32 :: r) = false.
Proof.
  intros (_ & _ & Hc) Hw. unfold word_here. destruct (bool_decide _) eqn:Eb; [|done]. to_prop. cbn [negb andb].
  destruct (decide (length w <= length t)%nat) as [Hl|Hl].
  - rewrite take_app_le in Eb by done. destruct (Hc w Hw Eb) as (c & Hi & Hword).
    rewrite drop_app_le by done. by rewrite (drop_S _ _ _ Hi); cbn; rewrite Hword.
  - exfalso. assert (w !! length t = Some 32) as Hi.
    { rewrite <- Eb. unfold lower. rewrite list_lookup_fmap, lookup_take_lt by lia. by rewrite lookup_mid. }
    apply list_elem_of_lookup_2 in Hi. clear -Hw Hi. unfold connectives in Hw.
    rewrite !elem_of_cons in Hw. destruct Hw as [->|[->|[->|[]%elem_of_nil]]]; apply (bool_decide_eq_true_2 _) in Hi; by vm_compute in Hi.
Qed.

Lemma find_name t r : name_ok t ->
  CONDITION_TOKENS_RE is_word 0 false (t ++ 32 :: r) = t :: CONDITION_TOKENS_RE is_word 0 false r.
Proof.
  intros Hn. assert (connective_here is_word false (t ++ 32 :: r) = None) as Hc.
  { unfold connective_here. rewrite !word_here_name; [done|..]; try done; unfold connectives; rewrite !elem_of_cons; auto. }
  destruct Hn as (Hne & Hall & _).
  assert (span_len name_char (t ++ 32 :: r) = length t) as Hs.
  { clear -Hall. induction t as [|c t IH]; [done|]. cbn in *. apply andb_prop in Hall as [-> Hall]. by rewrite IH. }
  destruct t as [|c t]; [done|]. cbn [app CONDITION_TOKENS_RE] in *.
  assert (one_of (lit "()") c = false) as ->.
  { cbn [forallb] in Hall. apply andb_prop in Hall as [Hcc _]. destruct (one_of (lit "()") c) eqn:E; [|done]. unfold one_of in E.
    change (lit "()") with [40; 41] in E. cbn [existsb] in E. rewrite orb_false_r in E.
    apply orb_prop in E as [E|E]; apply Z.eqb_eq in E as ->; by vm_compute in Hcc. }
  rewrite Hc, Hs. cbv zeta. rewrite bool_decide_eq_false_2 by done. cbn [length take Nat.sub].
  rewrite Nat.sub_0_r, take_app_length. destruct (skip_token t (32 :: r) (is_word c)) as [prev' ->]. by rewrite skip_space.
Qed.

Lemma find_connective c k r :
  one_of (lit "()") c = false -> connective_here is_word false (c :: k ++ 32 :: r) = Some (S (length k)) ->
  CONDITION_TOKENS_RE is_word 0 false (c :: k ++ 32 :: r) = (c :: k) :: CONDITION_TOKENS_RE is_word 0 false r.
Proof.
  intros Hc Hk. cbn [CONDITION_TOKENS_RE]. rewrite Hc, Hk. cbn [Nat.sub take]. rewrite Nat.sub_0_r, take_app_length.
  destruct (skip_token k (32 :: r) (is_word c)) as [prev' ->]. by rewrite skip_space.
Qed.

Lemma find_keyword k r : k ∈ keyword_tokens ->
  CONDITION_TOKENS_RE is_word 0 false (k ++ 32 :: r) = k :: CONDITION_TOKENS_RE is_word 0 false r.
Proof.
  intros Hk. unfold keyword_tokens in Hk. rewrite !elem_of_cons in Hk.
  destruct Hk as [->|[->|[->|[->|[->|[]%elem_of_nil]]]]].
  - apply (find_connective 97 [110; 100]); [done|]. by transitivity (if negb (is_word 32) then Some 3%nat else None); [|rewrite space_no_word].
  - apply (find_connective 111 [114]); [done|]. by transitivity (if negb (is_word 32) then Some 2%nat else None); [|rewrite space_no_word].
  - apply (find_connective 110 [111; 116]); [done|]. by transitivity (if negb (is_word 32) then Some 3%nat else None); [|rewrite space_no_word].
  - transitivity (lit "(" :: CONDITION_TOKENS_RE is_word 0 (is_word 40) (32 :: r)); [reflexivity|by rewrite skip_space].
  - transitivity (lit ")" :: CONDITION_TOKENS_RE is_word 0 (is_word 41) (32 :: r)); [reflexivity|by rewrite skip_space].
Qed.
End text.

Lemma lower_keyword k : k ∈ keyword_tokens -> lower k = k.
Proof.
  unfold keyword_tokens. rewrite !elem_of_cons. by intros [->|[->|[->|[->|[->|[]%elem_of_nil]]]]].
Qed.

Lemma name_not_keyword is_word t : name_ok is_word t -> lower t ∉ keyword_tokens /\ plain_name t.
Proof.
  intros (Hne & Hall & Hc). assert (lower t ∉ keyword_tokens) as Hl.
  { intros Hin. assert (forall w, w ∈ connectives -> lower t = w -> False) as Hw.
    { intros w Hw Heq. assert (length t = length w) as Hlen by (rewrite <- Heq; unfold lower; by rewrite length_map).
      destruct (Hc w Hw) as (c & Hi & _); [by rewrite take_ge by lia|].
      apply lookup_lt_Some in Hi. lia. }
    assert (forall p, p = 40 \/ p = 41 -> lower t <> [p]) as Hp.
    { intros p Hp Heq. destruct t as [|c [|]]; try done. injection Heq as Heq. cbn [forallb] in Hall.
      assert (c = p) as ->.
      { unfold lower1 in Heq. destruct (_ || _) eqn:E in Heq; [|done].
        apply orb_prop in E as [E|E]; to_prop; lia. }
      by destruct Hp as [->| ->]. }
    unfold keyword_tokens in Hin. rewrite !elem_of_cons in Hin. unfold connectives in Hw.
    destruct Hin as [Hi|[Hi|[Hi|[Hi|[Hi|[]%elem_of_nil]]]]];
      [eapply (Hw (lit "and"))|eapply (Hw (lit "or"))|eapply (Hw (lit "not"))|apply (Hp 40)|apply (Hp 41)]; auto;
      rewrite !elem_of_cons; auto. }
  split; [done|]. intros Hin. apply Hl. by rewrite lower_keyword.
Qed.

Lemma find_tokens is_word ts :
  is_word 32 = false -> Forall (fun t => name_ok is_word t \/ t ∈ keyword_tokens) ts ->
  CONDITION_TOKENS_RE is_word 0 false (render ts) = ts.
Proof.
  intros Hsp. induction 1 as [|t ts Ht Hts IH]; [done|]. cbn [render flat_map]. rewrite <- app_assoc. cbn [app].
  destruct Ht as [Ht|Ht]; [rewrite find_name by done|rewrite find_keyword by done]; by rewrite <- IH at 2.
Qed.

Lemma tokenize_condition_render is_word ts :
  is_word 32 = false -> ts <> [] -> Forall (fun t => name_ok is_word t \/ t ∈ keyword_tokens) ts ->
  _tokenize_condition is_word (render ts) = Ok ts.
Proof.
  intros Hsp Hne Hts. unfold _tokenize_condition. rewrite find_tokens by done. destruct ts as [|t ts]; [done|].
  f_equal. rewrite <- (map_id (t :: ts)) at 2. apply map_ext_in. intros x Hx%list_elem_of_In.
  rewrite Forall_forall in Hts. destruct (Hts x Hx) as [Hn|Hk].
  - rewrite bool_decide_eq_false_2; [done|]. exact (proj1 (name_not_keyword _ _ Hn)).
  - rewrite lower_keyword by done. by destruct (bool_decide _).
Qed.

Lemma print_tokens is_word c : Forall (name_ok is_word) (names c) -> forall level,
  print c level <> [] /\ Forall (fun t => name_ok is_word t \/ t ∈ keyword_tokens) (print c level).
Proof.
  intros Hn. assert (Hp : forall b ts, ts <> [] /\ Forall (fun t => name_ok is_word t \/ t ∈ keyword_tokens) ts ->
    paren b ts <> [] /\ Forall (fun t => name_ok is_word t \/ t ∈ keyword_tokens) (paren b ts)).
  { intros [] ts [H1 H2]; [|done]. split; [done|]. unfold paren, keyword_tokens. constructor; [right; rewrite !elem_of_cons; auto|].
    apply Forall_app. split; [done|]. constructor; [right; rewrite !elem_of_cons; auto 6|constructor]. }
  assert (Hk : forall k, k ∈ connectives -> name_ok is_word k \/ k ∈ keyword_tokens).
  { intros k Hk. right. unfold connectives, keyword_tokens in *. rewrite !elem_of_cons in *. naive_solver. }
  induction c as [t|a IHa|a IHa b IHb|a IHa b IHb]; intros level; cbn [names print] in *.
  - split; [done|]. inversion Hn; subst. constructor; [by left|constructor].
  - apply Hp. split; [done|]. constructor; [apply Hk; unfold connectives; rewrite !elem_of_cons; auto|by apply IHa].
  - apply Forall_app in Hn as [Ha Hb]. apply Hp. split; [by intros []%app_eq_nil|].
    apply Forall_app. split; [by apply IHa|]. constructor; [apply Hk; unfold connectives; rewrite !elem_of_cons; auto|by apply IHb].
  - apply Forall_app in Hn as [Ha Hb]. apply Hp. split; [by intros []%app_eq_nil|].
    apply Forall_app. split; [by apply IHa|]. constructor; [apply Hk; unfold connectives; rewrite !elem_of_cons; auto|by apply IHb].
Qed.

(** * What a condition means *)
Section meaning.
Context {F : Type}.
Variable selection_result : str -> res (value F).
Variable _expand_selection_tokens : str -> list str.
Variable holds : str -> bool.

Definition answers (n : str) : Prop := exists f q, selection_result n = Ok (holds n, f, q).
Definition selects (t : str) : Prop := _expand_selection_tokens t <> [] /\ Forall answers (_expand_selection_tokens t).

(** A name that stands for several selections holds when one of them does. *)
Fixpoint denote (c : cond) : bool :=
  match c with
  | Name t => existsb holds (_expand_selection_tokens t)
  | Not a => negb (denote a)
  | And a b => denote a && denote b
  | Or a b => denote a || denote b
  end.

Lemma aggregate_one n b f q : answers n ->
  exists f' q', aggregate_step selection_result (b, f, q) n = Ok (b || holds n, f', q').
Proof.
  intros (fn & qn & Hn). unfold aggregate_step. rewrite Hn. cbn [mbind result_bind].
  destruct (holds n); eexists _, _; [by rewrite orb_true_r|by rewrite orb_false_r].
Qed.

Lemma aggregate_matched ns : Forall answers ns -> forall b f q,
  exists f' q', foldM (aggregate_step selection_result) (b, f, q) ns = Ok (b || existsb holds ns, f', q').
Proof.
  induction 1 as [|n ns Hn Hns IH]; intros b f q; cbn [foldM existsb].
  - exists f, q. by rewrite orb_false_r.
  - destruct (aggregate_one n b f q Hn) as (f1 & q1 & ->). cbn [mbind result_bind].
    destruct (IH (b || holds n) f1 q1) as (f' & q' & ->). exists f', q'. by rewrite orb_assoc.
Qed.

Lemma eval_name t stack : plain_name t -> selects t ->
  exists f q, eval_token selection_result _expand_selection_tokens stack t =
    Ok ((existsb holds (_expand_selection_tokens t), f, q) :: stack).
Proof.
  intros Ht [Hne Hans]. destruct (aggregate_matched _ Hans false [] []) as (f & q & Hagg). unfold eval_token.
  unfold plain_name, keyword_tokens in Ht. rewrite !not_elem_of_cons in Ht. destruct Ht as (? & ? & ? & _).
  rewrite !bool_decide_eq_false_2 by done. cbn [orb].
  destruct (_expand_selection_tokens t) as [|n ns]; [done|]. rewrite Hagg. by exists f, q.
Qed.

Lemma eval_postfix c : Forall plain_name (names c) -> Forall selects (names c) -> forall stack rest,
  exists f q, foldM (eval_token selection_result _expand_selection_tokens) stack (postfix c ++ rest) =
    foldM (eval_token selection_result _expand_selection_tokens) ((denote c, f, q) :: stack) rest.
Proof.
  induction c as [t|a IHa|a IHa b IHb|a IHa b IHb]; cbn [names postfix denote]; intros Hp Hs stack rest.
  - inversion Hp as [|? ? Ht _]; inversion Hs as [|? ? Hsel _]; subst.
    destruct (eval_name t stack Ht Hsel) as (f & q & He). exists f, q. cbn [app foldM]. by rewrite He.
  - rewrite <- app_assoc. destruct (IHa Hp Hs stack ([lit "not"] ++ rest)) as (f & q & ->).
    exists (if denote a then [] else f), q. reflexivity.
  - apply Forall_app in Hp as [Hp1 Hp2]. apply Forall_app in Hs as [Hs1 Hs2]. rewrite <- !app_assoc.
    destruct (IHa Hp1 Hs1 stack (postfix b ++ [lit "and"] ++ rest)) as (f1 & q1 & ->).
    destruct (IHb Hp2 Hs2 ((denote a, f1, q1) :: stack) ([lit "and"] ++ rest)) as (f2 & q2 & ->).
    exists (merge f1 f2), (q1 ++ q2). reflexivity.
  - apply Forall_app in Hp as [Hp1 Hp2]. apply Forall_app in Hs as [Hs1 Hs2]. rewrite <- !app_assoc.
    destruct (IHa Hp1 Hs1 stack (postfix b ++ [lit "or"] ++ rest)) as (f1 & q1 & ->).
    destruct (IHb Hp2 Hs2 ((denote a, f1, q1) :: stack) ([lit "or"] ++ rest)) as (f2 & q2 & ->).
    exists (if denote b then f2 else f1), (q1 ++ q2). reflexivity.
Qed.

Definition eval_condition is_word (condition : str) : res (value F) :=
  let! tokens := _tokenize_condition is_word condition in
  let! rpn := _to_rpn tokens in
  eval_rpn selection_result _expand_selection_tokens rpn.

Lemma condition_denotes is_word c :
  is_word 32 = false -> Forall (name_ok is_word) (names c) -> Forall selects (names c) ->
  exists f q, eval_condition is_word (render (print c 0)) = Ok (denote c, f, q).
Proof.
  intros Hsp Hn Hs. destruct (print_tokens is_word c Hn 0) as [Hne Ht].
  assert (Forall plain_name (names c)) as Hp.
  { eapply Forall_impl; [exact Hn|]. intros t Hok. exact (proj2 (name_not_keyword _ _ Hok)). }
  unfold eval_condition. rewrite tokenize_condition_render by done. cbn [mbind result_bind]. rewrite to_rpn_print by done.
  cbn [mbind result_bind]. unfold eval_rpn. destruct (eval_postfix c Hp Hs [] []) as (f & q & He).
  rewrite app_nil_r in He. rewrite He. by exists f, q.
Qed.
End meaning.

(** * Properties *)

(** C16. What a condition means: any Boolean combination of selection names,
    written with the parentheses that the precedence of [not], [and] and [or]
    requires, is read, translated and evaluated to exactly its truth value,
    whatever each selection evaluates to; a name that stands for several
    selections holds when one of them does. *)
Theorem condition_meaning {F} (selection_result : str -> res (value F)) expand holds is_word c :
  is_word 32 = false -> Forall (name_ok is_word) (names c) ->
  Forall (selects selection_result expand holds) (names c) ->
  exists f q, eval_condition selection_result expand is_word (render (print c 0)) = Ok (denote expand holds c, f, q).
Proof. apply condition_denotes. Qed.

Definition toy_word (c : Z) : bool := name_char c && negb (c =? code "*").
Definition sample_cond : cond :=
  And (Or (Name (lit "sel1")) (Name (lit "nothing"))) (Not (Or (Name (lit "filter_a")) (Name (lit "filter_b")))).
Definition sample_holds (n : str) : bool := bool_decide (n = lit "nothing").
Definition sample_result (n : str) : res (value unit) := Ok (sample_holds n, [], []).

Lemma condition_meaning_witness :
  render (print sample_cond 0) = lit "( sel1 or nothing ) and not ( filter_a or filter_b ) " /\
  exists f q, eval_condition sample_result (fun t => [t]) toy_word (render (print sample_cond 0)) = Ok (true, f, q).
Proof.
  split; [reflexivity|].
  change true with (denote (fun t => [t]) sample_holds sample_cond).
  apply (condition_meaning sample_result (fun t => [t]) sample_holds toy_word sample_cond).
  - reflexivity.
  - cbn [names sample_cond app]. repeat (constructor; [split; [done|]; split; [reflexivity|];
      intros w Hw; unfold connectives in Hw; rewrite !elem_of_cons in Hw; destruct Hw as [->|[->|[->|[]%elem_of_nil]]];
      intros Heq; try (by vm_compute in Heq); eexists; split; reflexivity|]). constructor.
  - cbn [names sample_cond app]. repeat (constructor; [split; [done|]; constructor; [by eexists _, _|constructor]|]). constructor.
Defined.

Lemma push_and output : rpn_token (output, []) (lit "and") = Ok (output, [lit "and"]).
Proof. done. Qed.
Lemma push_not output : rpn_token (output, [lit "and"]) (lit "not") = Ok (output, [lit "not"; lit "and"]).
Proof. done. Qed.
Lemma push_not_again output stack : blocked 3 stack ->
  rpn_token (output, lit "not" :: stack) (lit "not") = Ok (output ++ [lit "not"], lit "not" :: stack).
Proof.
  intros Hb. rewrite (token_operator _ 3) by reflexivity.
  by rewrite (pop_higher_pending 3 [lit "not"] output stack ltac:(repeat constructor; by exists 3) Hb : pop_higher 3 output (lit "not" :: stack) = _).
Qed.

(** A second [not] right after the first is read wrongly: the first is
    popped before it has an operand.  [a and not not b] evaluates to
    [(not a) and (not b)], and [not not a] raises [IndexError], although the
    condition is accepted ([_to_rpn] succeeds). *)
Lemma double_negation {F} (selection_result : str -> res (value F)) holds a b :
  plain_name a -> plain_name b -> (forall n, answers selection_result holds n) ->
  (exists rpn f q, _to_rpn [a; lit "and"; lit "not"; lit "not"; b] = Ok rpn /\
     eval_rpn selection_result (fun t => [t]) rpn = Ok (negb (holds a) && negb (holds b), f, q)) /\
  (exists rpn, _to_rpn [lit "not"; lit "not"; a] = Ok rpn /\
     eval_rpn selection_result (fun t => [t]) rpn = Raise (SigmaPy IndexError)).
Proof.
  intros Ha Hb Hans. assert (Forall plain_name [a] /\ Forall plain_name [b]) as [Hpa Hpb] by (by repeat constructor).
  assert (forall t, Forall (selects selection_result (fun t => [t]) holds) [t]) as Hsel by (by repeat constructor).
  split.
  - exists [a; lit "not"; b; lit "not"; lit "and"].
    assert (_to_rpn [a; lit "and"; lit "not"; lit "not"; b] = Ok [a; lit "not"; b; lit "not"; lit "and"]) as ->.
    { unfold _to_rpn. cbn [foldM].
      assert (rpn_token ([], []) a = Ok ([a], [])) as -> by (by rewrite token_plain).
      cbn [mbind result_bind]. rewrite push_and. cbn [mbind result_bind]. rewrite push_not.
      cbn [mbind result_bind]. rewrite push_not_again by done. cbn [mbind result_bind app].
      assert (rpn_token ([a; lit "not"], [lit "not"; lit "and"]) b = Ok ([a; lit "not"; b], [lit "not"; lit "and"])) as ->
        by (by rewrite token_plain).
      reflexivity. }
    unfold eval_rpn.
    destruct (eval_postfix selection_result (fun t => [t]) holds (Not (Name a)) Hpa (Hsel a) []
      [b; lit "not"; lit "and"]) as (f1 & q1 & He1). cbn [postfix app denote existsb] in He1.
    rewrite orb_false_r in He1. rewrite He1.
    destruct (eval_postfix selection_result (fun t => [t]) holds (Not (Name b)) Hpb (Hsel b) [(negb (holds a), f1, q1)]
      [lit "and"]) as (f2 & q2 & He2). cbn [postfix app denote existsb] in He2.
    rewrite orb_false_r in He2. rewrite He2.
    exists (merge f1 f2), (q1 ++ q2). split; [done|]. reflexivity.
  - exists [lit "not"; a; lit "not"]. split; [|reflexivity].
    unfold _to_rpn. cbn [foldM].
    assert (rpn_token ([], []) (lit "not") = Ok ([], [lit "not"])) as -> by reflexivity. cbn [mbind result_bind].
    rewrite push_not_again by done. cbn [mbind result_bind app].
    assert (rpn_token ([lit "not"], [lit "not"]) a = Ok ([lit "not"; a], [lit "not"])) as -> by (by rewrite token_plain).
    reflexivity.
Qed.

Lemma double_negation_witness :
  (exists rpn f q, _to_rpn [lit "a"; lit "and"; lit "not"; lit "not"; lit "b"] = Ok rpn /\
     eval_rpn sample_result (fun t => [t]) rpn = Ok (true, f, q)) /\
  (exists rpn, _to_rpn [lit "not"; lit "not"; lit "a"] = Ok rpn /\
     eval_rpn sample_result (fun t => [t]) rpn = Raise (SigmaPy IndexError)).
Proof.
  change true with (negb (sample_holds (lit "a")) && negb (sample_holds (lit "b"))).
  apply (double_negation sample_result sample_holds (lit "a") (lit "b"));
    [by apply (bool_decide_eq_false_1 _)|by apply (bool_decide_eq_false_1 _)|by eexists _, _].
Defined.
End SigmaRpn.
