(* ===== verification/SigmaTables.v ===== *)
(** rules_engine/sigma.py, its tables: the event fields a rule's fields stand
    for, and the log sources of categories and services. *)
From S2P Require Import Prelude PyBase.
Import Str.

Module SigmaTables.

Definition SIGMA_FIELD_MAP : list (str * list str) :=
  [(lit "EventID", [lit "windows.event_id"]);
   (lit "EventId", [lit "windows.event_id"]);
   (lit "Channel", [lit "windows.channel"]);
   (lit "Provider_Name", [lit "windows.provider"]);
   (lit "Computer", [lit "host.name"]);
   (lit "User", [lit "user.name"; lit "linux.username"]);
   (lit "TargetUserName", [lit "user.name"]);
   (lit "SubjectUserName", [lit "user.name"]);
   (lit "Image", [lit "process.executable"; lit "process.path"; lit "process.name"; lit "linux.process"]);
   (lit "NewProcessName", [lit "process.executable"; lit "process.path"; lit "process.name"]);
   (lit "ProcessName", [lit "process.name"; lit "process.executable"; lit "process.path"; lit "linux.process"]);
   (lit "CommandLine", [lit "process.command_line"; lit "linux.command"]);
   (lit "ParentImage", [lit "process.parent.executable"; lit "process.parent.path"; lit "process.parent_path"; lit "process.parent_name"; lit "parent.process.executable"; lit "parent.process.path"; lit "parent.process.name"]);
   (lit "ParentProcessName", [lit "process.parent.name"; lit "process.parent.path"; lit "process.parent_name"; lit "process.parent_path"; lit "parent.process.name"; lit "parent.process.path"]);
   (lit "ParentCommandLine", [lit "process.parent.command_line"; lit "process.parent_command_line"; lit "parent.process.command_line"]);
   (lit "TargetFilename", [lit "file.path"; lit "target.filename"]);
   (lit "ImageLoaded", [lit "image.loaded.path"; lit "module.path"; lit "file.path"]);
   (lit "DestinationIp", [lit "destination.ip"; lit "network.destination_ip"]);
   (lit "DestinationPort", [lit "destination.port"; lit "network.destination_port"]);
   (lit "SourceIp", [lit "source.ip"; lit "network.source_ip"]);
   (lit "SourcePort", [lit "source.port"; lit "network.source_port"]);
   (lit "DestinationHostname", [lit "destination.hostname"; lit "url.domain"; lit "dns.domain"]);
   (lit "QueryName", [lit "dns.question.name"; lit "dns.query"; lit "dns.domain"; lit "dns.name"]);
   (lit "Hashes", [lit "process.hash.sha256"; lit "process.hash.sha1"; lit "process.hash.md5"; lit "process.hashes.sha256"; lit "process.hashes.sha1"; lit "process.hashes.md5"; lit "file.hash.sha256"; lit "file.hash.sha1"; lit "file.hash.md5"; lit "file.sha256"; lit "file.sha1"; lit "file.md5"]);
   (lit "TargetObject", [lit "registry.path"; lit "registry.key_path"]);
   (lit "Details", [lit "registry.data"; lit "registry.value_data"]);
   (lit "EventType", [lit "registry.event_type"; lit "event.action"; lit "event.type"]);
   (lit "GrantedAccess", [lit "process.granted_access"; lit "windows.event_data.GrantedAccess"; lit "winlog.event_data.GrantedAccess"]);
   (lit "ScriptBlockText", [lit "powershell.script_block_text"; lit "search_text"]);
   (lit "Url", [lit "url.full"; lit "download.url"]);
   (lit "_keywords", [lit "message"; lit "search_text"]);
   (lit "cs-method", [lit "http.request.method"; lit "linux.http_method"]);
   (lit "sc-status", [lit "http.response.status_code"; lit "linux.http_status"]);
   (lit "cs-uri-stem", [lit "linux.url_stem"]);
   (lit "cs-uri-query", [lit "linux.url_query"]);
   (lit "cs-uri", [lit "linux.url_path"; lit "url.path"]);
   (lit "c-uri", [lit "linux.url_path"; lit "url.path"]);
   (lit "cs-user-agent", [lit "user_agent.original"; lit "linux.http_user_agent"]);
   (lit "c-useragent", [lit "user_agent.original"; lit "linux.http_user_agent"]);
   (lit "cs-referer", [lit "linux.http_referrer"]);
   (lit "cs-referrer", [lit "linux.http_referrer"]);
   (lit "cs-host", [lit "linux.http_host"]);
   (lit "cs-username", [lit "user.name"; lit "linux.username"]);
   (lit "c-ip", [lit "network.source_ip"; lit "source.ip"; lit "linux.source_ip"]);
   (lit "cs-version", [lit "linux.http_protocol"]);
   (lit "sc-bytes", [lit "linux.bytes_sent"]);
   (lit "type", [lit "linux.audit_type"]);
   (lit "exe", [lit "process.executable"; lit "linux.exe"]);
   (lit "key", [lit "linux.audit_key"]);
   (lit "euid", [lit "linux.euid"]);
   (lit "SYSCALL", [lit "linux.syscall"]);
   (lit "name", [lit "linux.audit_name"]);
   (lit "cwd", [lit "process.working_directory"; lit "linux.cwd"]);
   (lit "CurrentDirectory", [lit "process.working_directory"; lit "linux.cwd"]);
   (lit "a0", [lit "linux.audit_a0"]);
   (lit "a1", [lit "linux.audit_a1"]);
   (lit "a2", [lit "linux.audit_a2"]);
   (lit "a3", [lit "linux.audit_a3"]);
   (lit "a4", [lit "linux.audit_a4"]);
   (lit "a5", [lit "linux.audit_a5"]);
   (lit "a6", [lit "linux.audit_a6"]);
   (lit "a7", [lit "linux.audit_a7"]);
   (lit "ServiceName", [lit "service.name"; lit "service.display_name"]);
   (lit "ServiceFileName", [lit "service.image_path"]);
   (lit "ImagePath", [lit "service.image_path"; lit "process.executable"]);
   (lit "ObjectName", [lit "object.name"; lit "registry.path"]);
   (lit "ObjectType", [lit "object.type"]);
   (lit "EventLog", [lit "windows.channel"; lit "event.channel"]);
   (lit "OriginalFileName", [lit "process.original_file_name"]);
   (lit "IntegrityLevel", [lit "process.integrity_level_name"]);
   (lit "Description", [lit "process.description"]);
   (lit "Product", [lit "process.product"]);
   (lit "Company", [lit "process.company"])].

Definition WINDOWS_EVENT_LOG_ARTIFACT_TYPES : list str :=
  [lit "windows_event"; lit "evtx_raw"; lit "memprocfs_eventlog"].

Definition SEARCH_TEXT_FALLBACK_FIELDS : list str :=
  [lit "ScriptBlockText"; lit "Details"; lit "CommandLine"; lit "ParentCommandLine"].

Definition SIGMA_EVENT_ID_HINTS : list (str * list Z) :=
  [(lit "process_creation", [1; 4688]);
   (lit "registry_set", [12; 13; 14]);
   (lit "file_event", [11; 15; 23; 26]);
   (lit "network_connection", [3]);
   (lit "image_load", [7]);
   (lit "pipe_created", [17; 18]);
   (lit "powershell", [400; 403; 4103; 4104; 600; 800])].

Definition SIGMA_CATEGORY_EVENT_TYPE_HINTS : list (str * list str) :=
  [(lit "process_creation", [lit "process_creation"; lit "process_created"; lit "sysmon_process_created"; lit "security_process_created"; lit "linux_shell_history"; lit "execve"; lit "user_cmd"]);
   (lit "webserver", [lit "apache_access"; lit "web_access"]);
   (lit "registry_set", [lit "registry_set"; lit "registry_value_set"; lit "sysmon_registry_set"]);
   (lit "file_event", [lit "file_event"; lit "file_create"; lit "file_created"; lit "sysmon_file_created"]);
   (lit "network_connection", [lit "network_connection"; lit "network_connected"; lit "sysmon_network_connection"]);
   (lit "image_load", [lit "image_load"; lit "image_loaded"; lit "sysmon_image_loaded"]);
   (lit "pipe_created", [lit "pipe_created"; lit "named_pipe_created"; lit "sysmon_pipe_created"]);
   (lit "powershell", [lit "powershell"; lit "script_block"; lit "powershell_script_block"])].

Definition LINUX_SERVICE_ARTIFACT_TYPES : list (str * list str) :=
  [(lit "auth", [lit "linux_auth"; lit "linux_syslog"; lit "linux_journal"; lit "linux_generic_log"]);
   (lit "sshd", [lit "linux_auth"; lit "linux_syslog"; lit "linux_journal"; lit "linux_generic_log"]);
   (lit "sudo", [lit "linux_auth"; lit "linux_syslog"; lit "linux_journal"; lit "linux_generic_log"]);
   (lit "syslog", [lit "linux_syslog"; lit "linux_journal"; lit "linux_generic_log"]);
   (lit "cron", [lit "linux_cron"; lit "linux_syslog"; lit "linux_journal"; lit "linux_generic_log"]);
   (lit "auditd", [lit "linux_audit"])].

Definition SIGMA_SERVICE_CHANNEL_HINTS : list (str * list str) :=
  [(lit "sysmon", [lit "microsoft-windows-sysmon/operational"]);
   (lit "security", [lit "security"]);
   (lit "system", [lit "system"]);
   (lit "application", [lit "application"]);
   (lit "powershell", [lit "microsoft-windows-powershell/operational"; lit "powershellcore/operational"; lit "windows powershell"]);
   (lit "powershell-classic", [lit "windows powershell"]);
   (lit "powershell-operational", [lit "microsoft-windows-powershell/operational"; lit "powershellcore/operational"]);
   (lit "defender", [lit "microsoft-windows-windows defender/operational"]);
   (lit "windefend", [lit "microsoft-windows-windows defender/operational"]);
   (lit "taskscheduler", [lit "microsoft-windows-taskscheduler/operational"]);
   (lit "wmi", [lit "microsoft-windows-wmi-activity/operational"]);
   (lit "applocker", [lit "microsoft-windows-applocker/*"]);
   (lit "dns-server", [lit "dns server"]);
   (lit "dns-server-analytic", [lit "microsoft-windows-dns-server/analytical"]);
   (lit "dns-client", [lit "microsoft-windows-dns-client/operational"; lit "microsoft-windows-dns client events/operational"]);
   (lit "driver-framework", [lit "microsoft-windows-driverframeworks-usermode/operational"]);
   (lit "ntlm", [lit "microsoft-windows-ntlm/operational"]);
   (lit "codeintegrity-operational", [lit "microsoft-windows-codeintegrity/operational"]);
   (lit "firewall-as", [lit "microsoft-windows-windows firewall with advanced security/firewall"]);
   (lit "bits-client", [lit "microsoft-windows-bits-client/operational"]);
   (lit "terminalservices-localsessionmanager", [lit "microsoft-windows-terminalservices-localsessionmanager/operational"]);
   (lit "smbclient-security", [lit "microsoft-windows-smbclient/security"]);
   (lit "smbclient-connectivity", [lit "microsoft-windows-smbclient/connectivity"]);
   (lit "printservice-admin", [lit "microsoft-windows-printservice/admin"]);
   (lit "printservice-operational", [lit "microsoft-windows-printservice/operational"]);
   (lit "shell-core", [lit "microsoft-windows-shell-core/operational"]);
   (lit "openssh", [lit "openssh/operational"]);
   (lit "lsa-server", [lit "microsoft-windows-lsa/operational"]);
   (lit "capi2", [lit "microsoft-windows-capi2/operational"]);
   (lit "appxpackaging-om", [lit "microsoft-windows-appxpackaging/operational"]);
   (lit "appxdeployment-server", [lit "microsoft-windows-appxdeploymentserver/operational"]);
   (lit "appmodel-runtime", [lit "microsoft-windows-appmodel-runtime/admin"]);
   (lit "security-mitigations", [lit "microsoft-windows-security-mitigations/*"]);
   (lit "diagnosis-scripted", [lit "microsoft-windows-diagnosis-scripted/operational"]);
   (lit "dhcp", [lit "microsoft-windows-dhcp-server/operational"]);
   (lit "msexchange-management", [lit "msexchange management"]);
   (lit "certificateservicesclient-lifecycle-system", [lit "microsoft-windows-certificateservicesclient-lifecycle-system/operational"]);
   (lit "kernel-shimengine", [lit "microsoft-windows-kernel-shimengine/*"]);
   (lit "ldap", [lit "microsoft-windows-ldap-client/debug"])].

Definition _SYSMON_ONLY_CATEGORIES : list str :=
  [lit "registry_set"; lit "registry_add"; lit "registry_delete"; lit "registry_event"; lit "registry_rename";
   lit "file_event"; lit "file_delete"; lit "file_change"; lit "file_access"; lit "file_rename";
   lit "file_block_executable"; lit "file_block_shredding"; lit "file_executable_detected";
   lit "network_connection"; lit "image_load"; lit "pipe_created"; lit "process_access";
   lit "create_remote_thread"; lit "driver_load"; lit "dns_query"; lit "wmi_event"; lit "raw_access_thread";
   lit "create_stream_hash"; lit "process_tampering"; lit "clipboard_capture"; lit "process_termination";
   lit "sysmon_status"; lit "sysmon_error"].

Definition _BASENAME_ALTERNATE_FIELDS : list (str * str) :=
  [(lit "Image", lit "process.name");
   (lit "ProcessName", lit "process.name");
   (lit "ParentImage", lit "process.parent_name")].

Definition _NON_QUERYABLE_FIELD_PREFIXES : list str :=
  [lit "windows.event_data."; lit "winlog.event_data."].

Definition SUPPORTED_MODIFIERS : list str :=
  [lit "contains"; lit "endswith"; lit "startswith"; lit "re"; lit "all"; lit "windash"].

Definition SIGMA_CATEGORY_SERVICE_HINTS : list (str * list str) :=
  map (fun category => (category, [lit "sysmon"])) _SYSMON_ONLY_CATEGORIES ++
  [(lit "process_creation", [lit "sysmon"; lit "security"]);
   (lit "powershell", [lit "powershell"]);
   (lit "ps_script", [lit "powershell-operational"]);
   (lit "ps_module", [lit "powershell-operational"]);
   (lit "ps_classic_start", [lit "powershell-classic"]);
   (lit "ps_classic_provider_start", [lit "powershell-classic"]);
   (lit "ps_classic_script", [lit "powershell-classic"])].
End SigmaTables.
