(* ===== verification/SigmaMatch.v ===== *)
(** rules_engine/sigma.py, matching one event: the modifiers of a rule's fields,
    the comparison of values, keyword patterns, selections, and the log source
    gate. *)
From S2P Require Import Prelude PyBase PyText PyRuntime SigmaCondition SigmaTables.
Import Str PyText PyRuntime SigmaCondition SigmaTables.

Module SigmaMatch.

Section runtime.
Context `{Runtime}.

(** [str] of a container; [re.search] ignoring case, [None] for [re.error];
    [\w]. *)
Variables (repr : json -> str) (re_search : str -> str -> option bool) (is_word : Z -> bool).

Abbreviation str_of := (py_str repr).

(** [str(d.get(k) or "")] *)
Definition get_text (k : string) (d : list (str * json)) : str :=
  match Dict.get (lit k) d with
  | Some v => if truthy v then str_of v else []
  | None => []
  end.
(** [.strip().lower()] of it *)
Definition get_norm (k : string) (d : list (str * json)) : str := py_lower (strip (get_text k d)).

(** * Values of an event *)
Definition get_item (part : str) (current : json) : json :=
  match current with
  | JDict d => default JNull (Dict.get part d)
  | _ => JNull
  end.
Definition _get_nested_value (document : json) (dotted : str) : json :=
  fold_left (fun current part => get_item part current) (split_on (code ".") dotted) document.

Fixpoint _stringify_values (v : json) : list str :=
  match v with
  | JNull => []
  | JList l => flat_map _stringify_values l
  | _ => [str_of v]
  end.

Definition _flatten_values (v : json) : list json := match v with JList l => l | _ => [v] end.

(** * Keyword patterns *)
Inductive keyword_token : Type := KLit (c : Z) | KStar | KQuestion.

Definition plain_token (c : Z) : keyword_token :=
  if c =? code "*" then KStar else if c =? code "?" then KQuestion else KLit c.

Fixpoint _keyword_tokens (v : str) : list keyword_token :=
  match v with
  | [] => []
  | c :: v' =>
      match v' with
      | d :: v'' =>
          if (c =? 92) && one_of (lit "*?\") d then KLit d :: _keyword_tokens v''
          else plain_token c :: _keyword_tokens v'
      | [] => [plain_token c]
      end
  end.

(** The pattern at the head of the text; [.] matches newlines too. *)
Fixpoint keyword_at (ts : list keyword_token) : str -> bool :=
  match ts with
  | [] => fun _ => true
  | KLit c :: ts' => fun s => match s with d :: s' => re_same c d && keyword_at ts' s' | [] => false end
  | KQuestion :: ts' => fun s => match s with _ :: s' => keyword_at ts' s' | [] => false end
  | KStar :: ts' =>
      fix star (s : str) : bool := keyword_at ts' s || match s with _ :: s' => star s' | [] => false end
  end.
(** [_keyword_regex(value).search(actual)] *)
Fixpoint search_tokens (ts : list keyword_token) (s : str) : bool :=
  keyword_at ts s || match s with _ :: s' => search_tokens ts s' | [] => false end.
Definition _keyword_regex (v actual : str) : bool := search_tokens (_keyword_tokens v) actual.

(** * Modifiers *)
Inductive match_op : Type := Contains | Startswith | Endswith | Re | KeywordOp.
#[export] Instance match_op_eq_dec : EqDecision match_op.
Proof. solve_decision. Defined.

(** [None], ["contains"], ["all"], ["contains|all"] and so on. *)
Record modifier := { op : option match_op; all_values : bool }.
Definition no_modifier : modifier := {| op := None; all_values := false |}.

Definition match_op_of (m : str) : option match_op :=
  if bool_decide (m = lit "contains") then Some Contains
  else if bool_decide (m = lit "startswith") then Some Startswith
  else if bool_decide (m = lit "endswith") then Some Endswith
  else if bool_decide (m = lit "re") then Some Re
  else None.

Definition modifier_step (acc : modifier * list str) (m : str) : modifier * list str :=
  let (md, transforms) := acc in
  match m with
  | [] => acc
  | _ =>
      if bool_decide (m = lit "all") then ({| op := op md; all_values := true |}, transforms)
      else match match_op_of m with
           | Some o => (match op md with None => {| op := Some o; all_values := all_values md |} | Some _ => md end,
                        transforms)
           | None => (md, transforms ++ [m])
           end
  end.

Definition parse_field_modifiers (field : str) : str * modifier * list str :=
  let parts := map strip (split_on (code "|") field) in
  let (md, transforms) := fold_left modifier_step (tail parts) (no_modifier, []) in
  (hd [] parts, md, transforms).

(** hyphen, slash, en dash, em dash, horizontal bar *)
Definition _WINDASH_VARIANTS : str := [45; 47; 8211; 8212; 8213].

(** The value with one of its dashes replaced, for each dash and variant. *)
Definition windash_candidates (text : str) : list str :=
  text :: flat_map (fun '(index, character) =>
            if one_of _WINDASH_VARIANTS character
            then map (fun variant => take index text ++ variant :: drop (index + 1) text) _WINDASH_VARIANTS
            else [])
          (zip (seq 0 (length text)) text).

Definition expand_windash_values (values : list str) : list str :=
  fold_left (fun expanded v => fold_left add_new (windash_candidates v) expanded) values [].

Definition apply_value_transforms (values transforms : list str) : list str :=
  if bool_decide (lit "windash" ∈ transforms) then expand_windash_values values else values.

(** * Comparing *)
Definition test_value (o : option match_op) (exp actual : str) : res bool :=
  match o with
  | Some KeywordOp => Ok (_keyword_regex exp actual)
  | Some Contains => Ok (contains (py_lower exp) (py_lower actual))
  | Some Startswith => Ok (startswith (py_lower exp) (py_lower actual))
  | Some Endswith => Ok (endswith (py_lower exp) (py_lower actual))
  | Some Re => of_option ReError (re_search exp actual)
  | None => Ok (bool_decide (py_lower actual = py_lower exp))
  end.
Definition match_any (actual_values : list str) (expected_values : list str) (o : option match_op) : res bool :=
  anyM (fun exp => anyM (test_value o exp) actual_values) expected_values.

Definition _match_scalar (actual_values : list str) (expected : json) (m : modifier) : res bool :=
  let expected_values := map str_of (_flatten_values expected) in
  if all_values m then allM (fun item => match_any actual_values [item] (op m)) expected_values
  else match_any actual_values expected_values (op m).

(** * Fields of a rule *)
Definition base_of (field : str) : str := strip (hd [] (split_on (code "|") field)).

Definition _mapped_sigma_fields (field : str) : list str * bool :=
  match Dict.get (base_of field) SIGMA_FIELD_MAP with
  | Some mapped => (mapped, false)
  | None =>
      if bool_decide (base_of field ∈ SEARCH_TEXT_FALLBACK_FIELDS) then ([lit "search_text"], true)
      else ([base_of field], false)
  end.

Definition bare_name (text : str) : option str :=
  match text with
  | c :: rest => if (c =? code "/") && (0 <? length rest)%nat && negb (one_of rest (code "/")) then Some rest else None
  | [] => None
  end.

Definition basename_alternates (base_field : str) (m : modifier) (expected : json) : option (str * list str) :=
  match Dict.get base_field _BASENAME_ALTERNATE_FIELDS with
  | Some name_field =>
      if bool_decide (op m = Some Endswith) && negb (all_values m) then
        match omap (fun v => bare_name (str_of v)) (_flatten_values expected) with
        | [] => None
        | names => Some (name_field, names)
        end
      else None
  | None => None
  end.

Definition _match_basename_alternate (document : json) (base_field : str) (m : modifier) (expected : json)
    : res (option (str * list str)) :=
  match basename_alternates base_field m expected with
  | None => Ok None
  | Some (name_field, names) =>
      let actual_values := _stringify_values (_get_nested_value document name_field) in
      let! b := _match_scalar actual_values (JList (map JStr names)) no_modifier in
      Ok (if (b : bool) then Some (name_field, actual_values) else None)
  end.

(** What is reported of a field that matched. *)
Record hit := { mapped_field : str; h_expected : json; actual : list str }.
Abbreviation verdict := (value hit).

(** The first mapped field whose values match. *)
Fixpoint find_mapped (document : json) (mapped_fields : list str) (expected : json) (m : modifier)
    : res (option (str * list str)) :=
  match mapped_fields with
  | [] => Ok None
  | f :: rest =>
      let actual_values := _stringify_values (_get_nested_value document f) in
      let! b := _match_scalar actual_values expected m in
      if (b : bool) then Ok (Some (f, actual_values)) else find_mapped document rest expected m
  end.

Definition quality_fallback : str := lit "sigma_field_fallback_search_text".
Definition quality_basename : str := lit "sigma_image_matched_by_process_name".

(** One field of a map, or one clause: the hit and the notes, if it matches. *)
Definition match_field (document : json) (base_field : str) (mapped_fields : list str) (used_fallback : bool)
    (expected : json) (m : modifier) : res (option (hit * list str)) :=
  let! found := find_mapped document mapped_fields expected m in
  match found with
  | Some (f, actual_values) =>
      Ok (Some ({| mapped_field := f; h_expected := expected; actual := take 5 actual_values |},
                if used_fallback then [quality_fallback] else []))
  | None =>
      let! alternate := _match_basename_alternate document base_field m expected in
      Ok match alternate with
         | Some (f, actual_values) =>
             Some ({| mapped_field := f; h_expected := expected; actual := take 5 actual_values |}, [quality_basename])
         | None => None
         end
  end.

(** * Selections as written *)
Definition _is_map_list_selection (selection : json) : bool :=
  match selection with
  | JList ((_ :: _) as l) => forallb (fun item => match item with JDict (_ :: _) => true | _ => false end) l
  | _ => false
  end.
Definition _is_keyword_selection (selection : json) : bool :=
  match selection with
  | JList ((_ :: _) as l) =>
      forallb (fun item => match item with JStr _ | JInt _ | JFloat _ => true | _ => false end) l
  | _ => false
  end.
Definition _keyword_values (selection : json) : list str :=
  if _is_keyword_selection selection then map str_of (_flatten_values selection) else [].

Definition expected_of (expected : json) (transforms : list str) : json :=
  match transforms with
  | [] => expected
  | _ => JList (map JStr (apply_value_transforms (map str_of (_flatten_values expected)) transforms))
  end.

Fixpoint match_block (document : json) (items : list (str * json)) (matched_fields : list (str * hit))
    (data_quality : list str) : res verdict :=
  match items with
  | [] => Ok (true, matched_fields, data_quality)
  | (sigma_field, expected) :: rest =>
      let (mapped_fields, used_fallback) := _mapped_sigma_fields sigma_field in
      let '(base_field, m, transforms) := parse_field_modifiers sigma_field in
      let! r := match_field document base_field mapped_fields used_fallback (expected_of expected transforms) m in
      match r with
      | Some (h, notes) => match_block document rest (Dict.set sigma_field h matched_fields) (data_quality ++ notes)
      | None => Ok (false, [], data_quality)
      end
  end.

Fixpoint match_blocks (document : json) (blocks : list json) (qualities : list str) : res verdict :=
  match blocks with
  | [] => Ok (false, [], qualities)
  | block :: rest =>
      let! (matched, fields, quality) :=
        match block with JDict items => match_block document items [] [] | _ => Ok (false, [], []) end in
      if (matched : bool) then Ok (true, fields, qualities ++ quality)
      else match_blocks document rest (qualities ++ quality)
  end.

Definition KEYWORD_PSEUDO_FIELD : str := lit "_keywords".
Definition keyword_modifier : modifier := {| op := Some KeywordOp; all_values := false |}.

Fixpoint match_keywords (selection_name : str) (document : json) (keywords : list str) (mapped_fields : list str)
    : res verdict :=
  match mapped_fields with
  | [] => Ok (false, [], [])
  | f :: rest =>
      let actual_values := _stringify_values (_get_nested_value document f) in
      let! b := _match_scalar actual_values (JList (map JStr keywords)) keyword_modifier in
      if (b : bool)
      then Ok (true, [(selection_name, {| mapped_field := f; h_expected := JList (map JStr (take 5 keywords));
                                          actual := take 1 actual_values |})], [])
      else match_keywords selection_name document keywords rest
  end.

Definition _match_selection (selection_name : str) (selection : json) (document : json) (keywords_enabled : bool)
    : res verdict :=
  if keywords_enabled && _is_keyword_selection selection then
    match_keywords selection_name document (_keyword_values selection) (fst (_mapped_sigma_fields KEYWORD_PSEUDO_FIELD))
  else if _is_map_list_selection selection then match_blocks document (_flatten_values selection) []
  else match selection with
       | JDict items => match_block document items [] []
       | _ => Ok (false, [], [selection_name ++ lit " is not a valid mapping"])
       end.

(** * Selections as compiled *)
Record clause := {
  sigma_field : str;
  base_field : str;
  mapped_fields : list str;
  c_modifier : modifier;
  expected : json;
  used_fallback : bool;
  alternative : option nat }.

Fixpoint _match_compiled_clauses (clauses : list clause) (document : json) (matched_fields : list (str * hit))
    (qualities : list str) : res verdict :=
  match clauses with
  | [] => Ok (true, matched_fields, qualities)
  | c :: rest =>
      let! r := match_field document (base_field c) (mapped_fields c) (used_fallback c) (expected c) (c_modifier c) in
      match r with
      | Some (h, notes) =>
          let key := match sigma_field c with [] => base_field c | _ => sigma_field c end in
          _match_compiled_clauses rest document (Dict.set key h matched_fields) (qualities ++ notes)
      | None => Ok (false, [], qualities)
      end
  end.

(** [groups.setdefault(clause.get("alternative"), []).append(clause)] *)
Definition group_step (groups : list (option nat * list clause)) (c : clause) : list (option nat * list clause) :=
  Dict.set (alternative c) (default [] (Dict.get (alternative c) groups) ++ [c]) groups.

Fixpoint match_groups (document : json) (groups : list (list clause)) (qualities : list str) : res verdict :=
  match groups with
  | [] => Ok (false, [], qualities)
  | clauses :: rest =>
      let! (group_match, group_fields, group_qualities) := _match_compiled_clauses clauses document [] [] in
      if (group_match : bool) then Ok (true, group_fields, qualities ++ group_qualities)
      else match_groups document rest (qualities ++ group_qualities)
  end.

(** What the loop body of the compiled evaluator makes of one selection. *)
Definition match_compiled_selection (clauses : list clause) (document : json) : res verdict :=
  let groups := map snd (fold_left group_step clauses []) in
  match_groups document (match groups with [] => [[]] | _ => groups end) [].
End runtime.
End SigmaMatch.
