(* ===== verification/SigmaCompile.v ===== *)
(** rules_engine/sigma.py, whole rules: quantified terms of a condition, the
    checks a rule passes before it runs, compilation, the log source gate and
    the two evaluators. *)
From S2P Require Import Prelude PyBase PyRuntime SigmaCondition SigmaTables SigmaMatch.
Import Str PyRuntime SigmaCondition SigmaTables SigmaMatch.

Module SigmaCompile.

(** [sorted(set(...))] of strings. *)
Fixpoint insert_str (s : str) (l : list str) : list str :=
  match l with
  | [] => [s]
  | t :: l' => if bool_decide (s = t) then l else if str_lt s t then s :: l else t :: insert_str s l'
  end.
Definition sorted_set (l : list str) : list str := fold_right insert_str [] l.

(** [^...$] where only [*] is special: any run without newlines. *)
Fixpoint star_match (pattern : str) : str -> bool :=
  match pattern with
  | [] => fun s => match s with [] => true | [c] => c =? 10 | _ => false end
  | c :: pattern' =>
      if c =? code "*" then
        fix star (s : str) : bool :=
          star_match pattern' s || match s with d :: s' => negb (d =? 10) && star s' | [] => false end
      else fun s => match s with d :: s' => (c =? d) && star_match pattern' s' | [] => false end
  end.

Section runtime.
Context `{Runtime}.

(** The two sections of a rule that the engine reads. *)
Record sigma_rule := { logsource : list (str * json); detection : list (str * json) }.

Variables (repr : json -> str) (re_search : str -> str -> option bool) (is_word : Z -> bool).

Definition condition_of (rule : sigma_rule) : str := strip (get_text repr "condition" (detection rule)).
Definition _keywords_supported (rule : sigma_rule) : bool :=
  bool_decide (get_norm repr "product" (logsource rule) = lit "linux").

Definition _iter_selection_blocks (selection : json) : list (list (str * json)) :=
  match selection with
  | JDict d => [d]
  | JList l => omap (fun item => match item with JDict d => Some d | _ => None end) l
  | _ => []
  end.

Definition selections_of (rule : sigma_rule) : list (str * json) :=
  filter (fun '(name, _) => name <> lit "condition") (detection rule).

(** * Quantified terms *)
Definition _sigma_detection_block_names (rule : sigma_rule) : list str :=
  map fst (filter (fun '(_, selection) => Is_true (
    match selection with JDict (_ :: _) => true | _ => false end || _is_map_list_selection selection ||
    (_keywords_supported rule && _is_keyword_selection selection))) (selections_of rule)).

Definition _selector_matches (selector : str) (candidates : list str) : list str :=
  if bool_decide (selector = lit "them") then candidates
  else if negb (one_of selector (code "*")) then
    (if bool_decide (selector ∈ candidates) then [selector] else [])
  else filter (fun name => Is_true (star_match selector name)) candidates.

(** Case folding of [re] for the letters of the patterns here. *)
Definition re_fold (c : Z) : Z :=
  if one_of [304; 305] c then code "i" else if c =? 383 then code "s" else if c =? 8490 then code "k" else lower1 c.
Definition ic_here (w s : str) : bool := bool_decide (map re_fold (take (length w) s) = w).

Definition term_end (s : str) : bool :=
  match s with [] => true | c :: _ => isspace c || (c =? code ")") end.

(** The rest of the term after its quantifier: the selector and the length up
    to its end. *)
Definition of_selector (s : str) : option (str * nat) :=
  let n := span_len isspace s in
  let s1 := drop n s in
  let m := span_len isspace (drop 2 s1) in
  let s2 := drop (2 + m) s1 in
  if (0 <? n)%nat && ic_here (lit "of") s1 && (0 <? m)%nat then
    if ic_here (lit "them") s2 && term_end (drop 4 s2) then Some (take 4 s2, (n + 2 + m + 4)%nat)
    else
      match s2 with
      | c :: _ =>
          let k := span_len name_char s2 in
          if (0 <? k)%nat && negb (c =? code "*") && term_end (drop k s2) then Some (take k s2, (n + 2 + m + k)%nat)
          else None
      | [] => None
      end
  else None.

(** [SIGMA_EXPANSION_PATTERN] at the head of [s]: whether the quantifier is 1,
    the selector, the length of the match. *)
Definition SIGMA_EXPANSION_PATTERN (s : str) : option (bool * str * nat) :=
  if startswith (lit "1") s then
    '(selector, n) ← of_selector (drop 1 s); Some (true, selector, S n)
  else if ic_here (lit "all") s then
    '(selector, n) ← of_selector (drop 3 s); Some (false, selector, (3 + n)%nat)
  else None.

Definition MAX_EXPANDED_SELECTORS_PER_RULE : nat := 100.
Definition MAX_TOTAL_LEAF_CONDITIONS : nat := 200.

Record expand_state := {
  leaf_conditions : nat;
  matched_selectors : list (str * list str);
  warnings : list str;
  supported_features : list str }.

Fixpoint join (sep : str) (l : list str) : str :=
  match l with [] => [] | [x] => x | x :: l' => x ++ sep ++ join sep l' end.

(** [replace_match]: the new state, and the text or the reason of the error. *)
Definition replace_match (block_names : list str) (st : expand_state) (one : bool) (selector : str)
    : expand_state * (str + str) :=
  let is_filter := fun name => startswith (lit "filter") (py_lower name) in
  let non_filter_block_names := filter (fun name => Is_true (negb (is_filter name))) block_names in
  let them := bool_decide (py_lower selector = lit "them") in
  let names := _selector_matches selector (if them then non_filter_block_names else block_names) in
  let st := {| leaf_conditions := leaf_conditions st; matched_selectors := matched_selectors st;
               warnings := if them && existsb is_filter block_names
                           then warnings st ++ [lit "condition_them_excluded_filter_blocks"] else warnings st;
               supported_features := supported_features st |} in
  match names with
  | [] => (st, inr (lit "unsupported_condition_empty_selector"))
  | _ =>
      if (MAX_EXPANDED_SELECTORS_PER_RULE <? length names)%nat then (st, inr (lit "expanded_condition_too_large"))
      else
        let leaves := (leaf_conditions st + length names)%nat in
        if (MAX_TOTAL_LEAF_CONDITIONS <? leaves)%nat
        then ({| leaf_conditions := leaves; matched_selectors := matched_selectors st; warnings := warnings st;
                 supported_features := supported_features st |}, inr (lit "expanded_condition_too_large"))
        else
          let quantifier := if one then lit "1" else lit "all" in
          let feature := lit "condition_" ++ quantifier ++ lit "_of" ++ (if them then lit "_them" else []) in
          let expanded := join (if one then lit " or " else lit " and ") names in
          ({| leaf_conditions := leaves; matched_selectors := Dict.set selector names (matched_selectors st);
              warnings := warnings st; supported_features := supported_features st ++ [feature] |},
           inl (if (1 <? length names)%nat then lit "(" ++ expanded ++ lit ")" else expanded))
  end.

(** [SIGMA_EXPANSION_PATTERN.sub(replace_match, text)]; [free]: no other
    character than white space stands before. *)
Fixpoint expansion_sub (block_names : list str) (skip : nat) (free : bool) (s : str) (st : expand_state)
    : expand_state * (str + str) :=
  match s with
  | [] => (st, inl [])
  | c :: s' =>
      match skip with
      | S skip => expansion_sub block_names skip (isspace c) s' st
      | O =>
          match (if free then SIGMA_EXPANSION_PATTERN s else None) with
          | Some (one, selector, n) =>
              match replace_match block_names st one selector with
              | (st, inr reason) => (st, inr reason)
              | (st, inl text) =>
                  match expansion_sub block_names (n - 1) (isspace c) s' st with
                  | (st, inl rest) => (st, inl (text ++ rest))
                  | (st, inr reason) => (st, inr reason)
                  end
              end
          | None =>
              match expansion_sub block_names 0 (isspace c) s' st with
              | (st, inl rest) => (st, inl (c :: rest))
              | (st, inr reason) => (st, inr reason)
              end
          end
      end
  end.

Fixpoint expansion_search (free : bool) (s : str) : bool :=
  (free && bool_decide (is_Some (SIGMA_EXPANSION_PATTERN s))) ||
  match s with [] => false | c :: s' => expansion_search (isspace c) s' end.

(** At most eight rounds, until nothing changes. *)
Fixpoint expansion_rounds (rounds : nat) (block_names : list str) (text : str) (st : expand_state)
    : expand_state * str * option str :=
  match rounds with
  | O => (st, text, None)
  | S rounds =>
      match expansion_sub block_names 0 true text st with
      | (st, inr reason) => (st, text, Some reason)
      | (st, inl updated) =>
          if bool_decide (updated = text) then (st, text, None) else expansion_rounds rounds block_names updated st
      end
  end.

Record expansion := {
  e_supported : bool;
  e_expanded_condition : str;
  e_unsupported_features : list str;
  e_matched_selectors : list (str * list str);
  e_warnings : list str;
  e_reason : str;
  e_supported_features : list str }.

Definition expand_sigma_condition_terms (rule : sigma_rule) : expansion :=
  let original_condition := condition_of rule in
  match original_condition with
  | [] => {| e_supported := false; e_expanded_condition := []; e_unsupported_features := [lit "empty_condition"];
             e_matched_selectors := []; e_warnings := []; e_reason := lit "empty_condition"; e_supported_features := [] |}
  | _ =>
      let '(st, expanded_condition, failure) :=
        expansion_rounds 8 (_sigma_detection_block_names rule) original_condition
          {| leaf_conditions := 0; matched_selectors := []; warnings := []; supported_features := [] |} in
      let answer := fun supported unsupported reason =>
        {| e_supported := supported; e_expanded_condition := expanded_condition; e_unsupported_features := unsupported;
           e_matched_selectors := matched_selectors st; e_warnings := sorted_set (warnings st); e_reason := reason;
           e_supported_features := sorted_set (supported_features st) |} in
      match failure with
      | Some reason => answer false [reason] reason
      | None =>
          if expansion_search true expanded_condition
          then answer false [lit "unsupported_condition"] (lit "unsupported_condition")
          else answer true [] (match matched_selectors st with [] => lit "simple_condition" | _ => lit "expanded" end)
      end
  end.

(** * Can the condition be run? *)
Definition word_end (s : str) : bool := match s with [] => true | c :: _ => negb (is_word c) end.
Definition ic_word (w s : str) : bool := ic_here w s && word_end (drop (length w) s).

(** [\s+of\b] *)
Definition of_here (s : str) : bool :=
  let n := span_len isspace s in (0 <? n)%nat && ic_word (lit "of") (drop n s).

Definition correlation_here (s : str) : bool :=
  ic_word (lit "near") s || ic_word (lit "within") s || ic_word (lit "by") s.
Definition unsupported_here (s : str) : bool :=
  correlation_here s ||
  (let n := span_len isdecimal s in (0 <? n)%nat && of_here (drop n s)) ||
  (ic_here (lit "all") s && of_here (drop 3 s)) ||
  ic_word (lit "them") s.

(** [re.search] of a pattern that begins at a word boundary with a word. *)
Fixpoint search_words (here : str -> bool) (prev : bool) (s : str) : bool :=
  (negb prev && here s) || match s with [] => false | c :: s' => search_words here (is_word c) s' end.
Definition UNSUPPORTED_CONDITION_RE (condition : str) : bool := search_words unsupported_here false condition.
Definition UNSUPPORTED_FEATURE_PATTERNS (condition : str) : bool := search_words correlation_here false condition.

(** The reason why not, or [None]. *)
Definition sigma_condition_supported (condition : str) : option str :=
  match strip condition with
  | [] => Some (lit "empty_condition")
  | normalized =>
      if UNSUPPORTED_CONDITION_RE normalized then Some (lit "unsupported_condition")
      else if is_ok (let! tokens := _tokenize_condition is_word normalized in _to_rpn tokens) then None
      else Some (lit "unsupported_condition")
  end.

(** * Can the rule be run? *)
Definition MODIFIER_SUFFIXES : list str :=
  [lit "|contains"; lit "|endswith"; lit "|startswith"; lit "|re"; lit "|all"].

(** [_split_field_and_modifier(field)[0]] *)
Fixpoint split_suffix (suffixes : list str) (field : str) : str :=
  match suffixes with
  | [] => field
  | suffix :: rest =>
      if endswith suffix field then take (length field - length suffix) field else split_suffix rest field
  end.
Definition _split_field_and_modifier (field : str) : str := split_suffix MODIFIER_SUFFIXES field.

Definition extract_sigma_detection_fields (rule : sigma_rule) : list str :=
  sorted_set (flat_map (fun '(_, selection) =>
    if _keywords_supported rule && _is_keyword_selection selection then [KEYWORD_PSEUDO_FIELD]
    else flat_map (fun block => map (fun '(sigma_field, _) => _split_field_and_modifier sigma_field) block)
           (_iter_selection_blocks selection)) (selections_of rule)).

Definition _detect_unsupported_modifiers (rule : sigma_rule) : list str :=
  sorted_set (flat_map (fun '(_, selection) =>
    flat_map (fun block => flat_map (fun '(sigma_field, _) =>
      filter (fun m => m <> [] /\ m ∉ SUPPORTED_MODIFIERS) (map strip (tail (split_on (code "|") sigma_field)))) block)
      (_iter_selection_blocks selection)) (selections_of rule)).

Definition unmapped (extracted : str) : bool :=
  let base_field := base_of extracted in
  match base_field with
  | [] => false
  | _ =>
      if bool_decide (base_field ∈ SEARCH_TEXT_FALLBACK_FIELDS) then false
      else match Dict.get base_field SIGMA_FIELD_MAP with
           | None => true
           | Some mapped =>
               forallb (fun target => existsb (fun prefix => startswith prefix target) _NON_QUERYABLE_FIELD_PREFIXES) mapped
           end
  end.
Definition _detect_unmapped_fields (rule : sigma_rule) : list str :=
  sorted_set (map base_of (filter (fun f => Is_true (unmapped f)) (extract_sigma_detection_fields rule))).

(** ** Keywords *)
Definition MAX_KEYWORDS_PER_SELECTION : nat := 200.
Definition MIN_KEYWORD_LITERAL_CHARS : nat := 3.
Definition _MIN_KEYWORD_RUN_CHARS : nat := 2.
Definition _KEYWORD_CANDIDATE_RUNS : nat := 3.

Fixpoint literal_segments (current : str) (ts : list keyword_token) : list str :=
  match ts with
  | [] => match current with [] => [] | _ => [current] end
  | KLit c :: ts' => literal_segments (current ++ [c]) ts'
  | _ :: ts' => match current with [] => [] | _ => [current] end ++ literal_segments [] ts'
  end.
Definition _keyword_literal_segments (v : str) : list str := literal_segments [] (_keyword_tokens v).

(** [re.findall] of runs of word characters other than the underscore. *)
Definition run_char (c : Z) : bool := is_word c && negb (c =? code "_").
Fixpoint find_runs (current : str) (s : str) : list str :=
  match s with
  | [] => match current with [] => [] | _ => [current] end
  | c :: s' =>
      if run_char c then find_runs (current ++ [c]) s'
      else match current with [] => [] | _ => [current] end ++ find_runs [] s'
  end.
Definition _keyword_alnum_runs (v : str) : list str :=
  flat_map (fun segment => filter (fun run => Is_true (_MIN_KEYWORD_RUN_CHARS <=? length run)%nat) (find_runs [] segment))
    (_keyword_literal_segments v).

Definition keyword_too_broad (v : str) : bool :=
  (list_sum (map length (_keyword_literal_segments v)) <? MIN_KEYWORD_LITERAL_CHARS)%nat ||
  match _keyword_alnum_runs v with [] => true | _ => false end.
Definition keyword_selection_issue (values : list str) : option str :=
  match values with
  | [] => Some (lit "empty_keyword")
  | _ =>
      if (MAX_KEYWORDS_PER_SELECTION <? length values)%nat then Some (lit "too_many_keywords")
      else if existsb keyword_too_broad values then Some (lit "keyword_too_broad")
      else None
  end.

(** ** The verdict: the status and the features that are missing *)
Definition executable : str := lit "executable_by_current_engine".
Definition first_status (status issue : str) : str := if bool_decide (status = executable) then issue else status.

Definition keyword_status (rule : sigma_rule) (st : str * list str) (item : str * json) : str * list str :=
  let (status, features) := st in
  if negb (_keywords_supported rule) || negb (_is_keyword_selection (snd item)) then st
  else match keyword_selection_issue (_keyword_values repr (snd item)) with
       | Some issue => (first_status status issue, features ++ [issue])
       | None => st
       end.

Definition prefixed (prefix : string) (l : list str) : list str := map (fun x => lit prefix ++ x) l.

(** [engine_status] and [unsupported_features]. *)
Definition analyze_sigma_engine_compatibility (rule : sigma_rule) : str * list str :=
  let condition := condition_of rule in
  let status := executable in
  let features := [] in
  let (status, features) :=
    match extract_sigma_detection_fields rule, detection rule with
    | [], _ :: _ => (lit "keyword_only_detection", features ++ [lit "keyword_only_detection"])
    | _, _ => (status, features)
    end in
  let (status, features) :=
    match _detect_unmapped_fields rule with
    | [] => (status, features)
    | fields => (lit "unmapped_field", features ++ prefixed "unmapped_field:" fields)
    end in
  let (status, features) := fold_left (keyword_status rule) (selections_of rule) (status, features) in
  let (status, features) :=
    if negb (_keywords_supported rule) && existsb (fun '(_, selection) => _is_keyword_selection selection) (selections_of rule)
    then (first_status status (lit "keyword_selection_unsupported"), features ++ [lit "keyword_selection_unsupported"])
    else (status, features) in
  let (status, features) :=
    match _detect_unsupported_modifiers rule with
    | [] => (status, features)
    | mods => (lit "unsupported_modifier", features ++ prefixed "unsupported_modifier:" mods)
    end in
  let (status, features) :=
    if UNSUPPORTED_FEATURE_PATTERNS condition
    then (first_status status (lit "unsupported_correlation"), features ++ [lit "unsupported_correlation"])
    else (status, features) in
  let e := expand_sigma_condition_terms rule in
  let (status, features) :=
    if e_supported e then (status, features) else (e_reason e, features ++ e_unsupported_features e) in
  let (status, features) :=
    match sigma_condition_supported (e_expanded_condition e) with
    | Some reason =>
        if bool_decide (status = executable)
        then (if bool_decide (reason = lit "unsupported_condition") then lit "unsupported_condition" else lit "compile_error",
              features ++ [reason])
        else (status, features)
    | None => (status, features)
    end in
  (status, sorted_set features).

(** * Compilation *)
Record compiled_rule := {
  compile_status : str;
  sigma_logsource : list (str * json);
  sigma_required_fields : list str;
  condition : str;
  expanded_condition : str;
  condition_rpn : list str;
  selections : list (str * list clause) }.

Definition compile_clause (alternative : option nat) (item : str * json) : clause :=
  let (sigma_field, expected) := item in
  let (mapped_fields, used_fallback) := _mapped_sigma_fields sigma_field in
  let '(base_field, m, transforms) := parse_field_modifiers sigma_field in
  let expected_values := _flatten_values expected in
  {| sigma_field := sigma_field; base_field := base_field; mapped_fields := mapped_fields; c_modifier := m;
     expected := JList (match transforms with
                        | [] => expected_values
                        | _ => map JStr (apply_value_transforms (map (py_str repr) expected_values) transforms)
                        end);
     used_fallback := used_fallback; alternative := alternative |}.

Fixpoint compile_blocks (several : bool) (index : nat) (blocks : list (list (str * json))) : list clause :=
  match blocks with
  | [] => []
  | block :: rest =>
      map (compile_clause (if several then Some index else None)) block ++ compile_blocks several (S index) rest
  end.

(** The clauses of one selection; [None] when it is left out. *)
Definition compile_selection (rule : sigma_rule) (selection : json) : option (list clause) :=
  if _keywords_supported rule && _is_keyword_selection selection then
    Some [{| sigma_field := KEYWORD_PSEUDO_FIELD; base_field := KEYWORD_PSEUDO_FIELD;
             mapped_fields := fst (_mapped_sigma_fields KEYWORD_PSEUDO_FIELD); c_modifier := keyword_modifier;
             expected := JList (map JStr (_keyword_values repr selection)); used_fallback := false; alternative := None |}]
  else match selection with
       | JDict d => Some (compile_blocks false 0 [d])
       | _ =>
           if _is_map_list_selection selection then
             let blocks := _iter_selection_blocks selection in
             Some (compile_blocks (1 <? length blocks)%nat 0 blocks)
           else None
       end.

(** One entry of [selections]. *)
Definition compile_item (rule : sigma_rule) (item : str * json) : option (str * list clause) :=
  option_map (pair (fst item)) (compile_selection rule (snd item)).

Definition compile_sigma_rule (rule : sigma_rule) : res compiled_rule :=
  let (status, _) := analyze_sigma_engine_compatibility rule in
  let expanded_condition := e_expanded_condition (expand_sigma_condition_terms rule) in
  let reason := if bool_decide (status = executable) then sigma_condition_supported expanded_condition else Some status in
  let! condition_rpn :=
    match reason with
    | None => let! tokens := _tokenize_condition is_word expanded_condition in _to_rpn tokens
    | Some _ => Ok []
    end in
  Ok {| compile_status := match reason with None => lit "compiled" | Some r => lit "skipped_" ++ r end;
        sigma_logsource := logsource rule;
        sigma_required_fields := extract_sigma_detection_fields rule;
        condition := condition_of rule;
        expanded_condition := expanded_condition;
        condition_rpn := condition_rpn;
        selections :=
          match reason with
          | None => omap (compile_item rule) (selections_of rule)
          | Some _ => []
          end |}.
End runtime.
End SigmaCompile.
