(* ===== verification/SigmaEngine.v ===== *)
(** rules_engine/sigma.py, running a rule: the log source gate, the evaluation of
    a rule as written and as compiled, and the query for its candidates. *)
From S2P Require Import Prelude PyBase PyText PyRuntime SigmaCondition SigmaTables SigmaMatch SigmaCompile.
Import Str PyText PyRuntime SigmaCondition SigmaTables SigmaMatch SigmaCompile.

Module SigmaEngine.

Section runtime.
Context `{Runtime}.
Variables (repr : json -> str) (re_search : str -> str -> option bool) (is_word : Z -> bool).

(** * The log source gate *)
Definition channel_matches_service (channel service : str) : bool :=
  match Dict.get service SIGMA_SERVICE_CHANNEL_HINTS with
  | None => true
  | Some patterns =>
      let lowered := py_lower (strip channel) in
      existsb (fun pattern =>
        if endswith (lit "*") pattern then startswith (take (length pattern - 1) pattern) lowered
        else bool_decide (lowered = pattern)) patterns
  end.

(** [str.isdigit] *)
Definition isdigit_str (s : str) : bool := match s with [] => false | _ => forallb isdigit s end.

(** The first of the fields that holds a number; [int] refuses some digits. *)
Fixpoint event_id_in (document : json) (fields : list str) : res (option Z) :=
  match fields with
  | [] => Ok None
  | field :: rest =>
      let v := match _get_nested_value document field with
               | JList (x :: _) => x
               | JList [] => JNull
               | v => v
               end in
      match v with
      | JNull => event_id_in document rest
      | _ =>
          let text := strip (py_str repr v) in
          if isdigit_str text then Some <$> of_option (SigmaPy ValueError) (py_int text)
          else event_id_in document rest
      end
  end.
Definition _document_event_id (document : json) : res (option Z) :=
  event_id_in document [lit "windows.event_id"; lit "event.code"; lit "event.id"].

Definition label_of (item : str) : str :=
  map (fun c => if (c =? code "-") || (c =? code " ") then code "_" else c) (py_lower (strip item)).
Definition _document_event_labels (document : json) : list str :=
  filter (fun label => label <> [])
    (flat_map (fun field => map label_of (_stringify_values repr (_get_nested_value document field)))
       [lit "event.type"; lit "event.action"; lit "artifact.type"; lit "artifact.parser"; lit "linux.audit_type"]).

(** [str(v or "")] *)
Definition or_empty (v : json) : str := if truthy v then py_str repr v else [].
Definition or_else (a b : json) : json := if truthy a then a else b.

Definition artifact_type_of (document : json) : str :=
  py_lower (strip (or_empty (_get_nested_value document (lit "artifact.type")))).

Definition _is_windows_record (document : json) : bool :=
  let os_type := py_lower (strip (or_empty (_get_nested_value document (lit "os.type")))) in
  bool_decide (artifact_type_of document ∈ WINDOWS_EVENT_LOG_ARTIFACT_TYPES) || bool_decide (os_type = lit "windows") ||
  match _get_nested_value document (lit "windows.event_id") with JNull | JStr [] => false | _ => true end.

Definition _document_channel (document : json) : str :=
  py_lower (or_empty (or_else (_get_nested_value document (lit "windows.channel"))
                              (_get_nested_value document (lit "event.channel")))).

Definition meets (a b : list str) : bool := existsb (fun x => bool_decide (x ∈ b)) a.
Definition nonempty {A} (l : list A) : bool := match l with [] => false | _ => true end.

Definition mismatch : option str := Some (lit "logsource_mismatch").

(** [None] when the rule applies, else the reason why not. *)
Definition document_matches_sigma_logsource (logsource : list (str * json)) (document : json) : res (option str) :=
  let product := get_norm repr "product" logsource in
  let service := get_norm repr "service" logsource in
  let category := get_norm repr "category" logsource in
  let windows := bool_decide (product = lit "windows") in
  let linux := bool_decide (product = lit "linux") in
  let artifact_type := artifact_type_of document in
  let channel := _document_channel document in
  if windows && nonempty artifact_type && negb (bool_decide (artifact_type ∈ WINDOWS_EVENT_LOG_ARTIFACT_TYPES))
  then Ok mismatch
  else if linux && _is_windows_record document then Ok mismatch
  else if linux && match Dict.get service LINUX_SERVICE_ARTIFACT_TYPES with
                   | Some types => startswith (lit "linux_") artifact_type && negb (bool_decide (artifact_type ∈ types))
                   | None => false
                   end
  then Ok mismatch
  else if nonempty service && nonempty channel && negb (channel_matches_service channel service) then Ok mismatch
  else if windows && nonempty channel &&
          match Dict.get category SIGMA_CATEGORY_SERVICE_HINTS with
          | Some services => negb (existsb (channel_matches_service channel) services)
          | None => false
          end
  then Ok mismatch
  else if nonempty category then
    let! event_id := _document_event_id document in
    let hinted_event_ids := default [] (Dict.get category SIGMA_EVENT_ID_HINTS) in
    let labels := _document_event_labels document in
    let hinted_labels := default [] (Dict.get category SIGMA_CATEGORY_EVENT_TYPE_HINTS) in
    Ok match event_id with
       | Some n => if nonempty hinted_event_ids && negb (bool_decide (n ∈ hinted_event_ids)) then mismatch else None
       | None =>
           if nonempty hinted_labels && nonempty labels && negb (meets labels hinted_labels) then mismatch
           else if negb (meets labels hinted_labels) then Some (lit "missing_logsource_fields")
           else None
       end
  else Ok None.

(** * The two evaluators *)
Record eval_result := {
  matched : bool;
  matched_fields : list (str * hit);
  data_quality : list str;
  skip_reason : option str }.

Definition skipped (reason : str) : eval_result :=
  {| matched := false; matched_fields := []; data_quality := []; skip_reason := Some reason |}.
Definition answer (v : value hit) : eval_result :=
  let '(matched, fields, quality) := v in
  {| matched := matched; matched_fields := fields; data_quality := sorted_set quality; skip_reason := None |}.

Definition _expand_selection_tokens (names : list str) (token : str) : list str :=
  if negb (one_of token (code "*")) then [token]
  else filter (fun name => name <> lit "condition" /\ Is_true (star_match token name)) names.

Definition evaluate_sigma_rule (rule : sigma_rule) (document : json) : res eval_result :=
  let! logsource_reason := document_matches_sigma_logsource (logsource rule) document in
  match logsource_reason with
  | Some reason => Ok (skipped reason)
  | None =>
      let expansion := expand_sigma_condition_terms repr rule in
      let! _ := raise_if (negb (e_supported expansion)) SigmaValueError in
      let! tokens := _tokenize_condition is_word (e_expanded_condition expansion) in
      let! rpn := _to_rpn tokens in
      let! v := eval_rpn
        (fun name => _match_selection repr re_search name (default JNull (Dict.get name (detection rule))) document
                       (_keywords_supported repr rule))
        (_expand_selection_tokens (map fst (detection rule))) rpn in
      Ok (answer v)
  end.

Definition evaluate_compiled_sigma_rule (compiled : compiled_rule) (document : json) : res eval_result :=
  let! logsource_reason := document_matches_sigma_logsource (sigma_logsource compiled) document in
  match logsource_reason with
  | Some reason => Ok (skipped reason)
  | None =>
      let! v := eval_rpn
        (fun name => match_compiled_selection repr re_search (default [] (Dict.get name (selections compiled))) document)
        (_expand_selection_tokens (lit "condition" :: map fst (selections compiled))) (condition_rpn compiled) in
      Ok (answer v)
  end.

(** * The candidate query *)
Inductive es_clause : Type :=
  | CTerm (field value : str) (case_insensitive : bool)
  | CTerms (field : str) (values : list str)
  | CPrefix (field value : str) (case_insensitive : bool)
  | CWildcard (field value : str) (case_insensitive : bool)
  | CRegexp (field value : str) (case_insensitive : bool)
  | CExists (field : str)
  | CMust (clauses : list es_clause).

Definition _keyword_candidate_clause (v : str) : es_clause :=
  let runs := take _KEYWORD_CANDIDATE_RUNS
    (Sort.sort_by (fun run : str => - Z.of_nat (length run)) (dedup (map py_lower (_keyword_alnum_runs is_word v)))) in
  CMust (map (fun run => CWildcard (lit "search_text") (lit "*" ++ run ++ lit "*") true) runs).

Definition _escape_wildcard_backslash (v : str) : str := flat_map (fun c => if c =? 92 then [92; 92] else [c]) v.

(** The clause for one value on a [linux.] field. *)
Definition linux_clause (o : option match_op) (field v : str) : list es_clause :=
  match o with
  | None => [CTerm field v true]
  | Some Startswith => [CPrefix field v true]
  | Some Endswith => [CWildcard field (_escape_wildcard_backslash (lit "*" ++ v)) true]
  | Some Contains => [CWildcard field (_escape_wildcard_backslash (lit "*" ++ v ++ lit "*")) true]
  | Some Re => [CRegexp field v true]
  | Some KeywordOp => []
  end.

(** The clause for the values on another field. *)
Definition plain_clause (o : option match_op) (field : str) (values : list str) : list es_clause :=
  match o, values with
  | None, [v] => [CTerm field v false]
  | None, _ :: _ :: _ => [CTerms field values]
  | Some Startswith, v :: _ => [CPrefix field v false]
  | Some Endswith, v :: _ => [CWildcard field (lit "*" ++ v) false]
  | Some Contains, v :: _ => [CWildcard field (lit "*" ++ v ++ lit "*") false]
  | Some Re, v :: _ => [CRegexp field v false]
  | _, _ => []
  end.

Record query_parts := {
  should : list es_clause;
  keyword_should : list es_clause;
  linux_should : list es_clause;
  linux_fields : list str }.

(** ["all"] alone is not stripped of anything, and then no clause is built. *)
Definition clause_parts (parts : query_parts) (c : clause) : query_parts :=
  let m := c_modifier c in
  let values := map (py_str repr) (_flatten_values (expected c)) in
  if bool_decide (op m = Some KeywordOp) then
    {| should := should parts; keyword_should := keyword_should parts ++ map _keyword_candidate_clause values;
       linux_should := linux_should parts; linux_fields := linux_fields parts |}
  else
    let only_all := bool_decide (op m = None) && all_values m in
    let stripped := {| op := op m; all_values := only_all |} in
    let alternates :=
      match basename_alternates repr (base_field c) stripped (JList (map JStr values)) with
      | Some (alt_field, alt_names) => map (fun alt_name => CTerm alt_field alt_name true) alt_names
      | None => []
      end in
    fold_left (fun parts mapped_field =>
      if startswith (lit "linux.") mapped_field then
        {| should := should parts; keyword_should := keyword_should parts;
           linux_should := linux_should parts ++
             (if only_all then [] else flat_map (linux_clause (op m) mapped_field) values);
           linux_fields := add_new (linux_fields parts) mapped_field |}
      else
        {| should := should parts ++ (if only_all then [] else plain_clause (op m) mapped_field values);
           keyword_should := keyword_should parts; linux_should := linux_should parts; linux_fields := linux_fields parts |})
      (mapped_fields c)
      {| should := should parts ++ alternates; keyword_should := keyword_should parts;
         linux_should := linux_should parts; linux_fields := linux_fields parts |}.

Definition MAX_LINUX_CANDIDATE_CLAUSES : nat := 400.

(** The [should] clauses, of which one must match; [None]: every event. *)
Definition build_sigma_query_from_compiled (compiled : compiled_rule) : option (list es_clause) :=
  let parts := fold_left clause_parts (flat_map snd (selections compiled))
    {| should := []; keyword_should := []; linux_should := []; linux_fields := [] |} in
  let linux := if (MAX_LINUX_CANDIDATE_CLAUSES <? length (linux_should parts))%nat
               then map CExists (sorted_set (linux_fields parts)) else linux_should parts in
  if nonempty (should parts) || nonempty (keyword_should parts) || nonempty linux
  then Some (take 50 (should parts) ++ keyword_should parts ++ linux)
  else None.
End runtime.
End SigmaEngine.
