(* ===== verification/SigmaEquiv.v ===== *)
(** Theorems about running a detection rule: the compiled rule against the rule
    as written, and the candidate query against the rule. *)
From S2P Require Import Prelude PyBase PyText PyRuntime SigmaCondition SigmaTables SigmaMatch SigmaCompile SigmaEngine.
Import Str PyText PyRuntime SigmaCondition SigmaTables SigmaMatch SigmaCompile SigmaEngine.

Module SigmaEquiv.

(** Results that agree on the verdict and on the notes; what they report of the
    fields may differ. *)
Definition same_value {F} (v w : value F) : Prop := fst (fst v) = fst (fst w) /\ snd v = snd w.
Definition same {A} (R : A -> A -> Prop) (m n : res A) : Prop :=
  match m, n with
  | Ok a, Ok b => R a b
  | Raise e, Raise e' => e = e'
  | OutOfFuel, OutOfFuel => True
  | _, _ => False
  end.

Lemma same_bind {A B} (R : A -> A -> Prop) (S : B -> B -> Prop) m n f g :
  same R m n -> (forall a b, R a b -> same S (f a) (g b)) -> same S (let! x := m in f x) (let! x := n in g x).
Proof. intros Hm Hf. destruct m, n; try done. by apply Hf. Qed.

Lemma same_refl {A} (R : A -> A -> Prop) m : (forall a, R a a) -> same R m m.
Proof. intros HR. destruct m; cbn; auto. Qed.

(** * Evaluating the condition with two meanings of the selections *)
Section eval.
Context {F : Type}.
Variables (sel sel' : str -> res (value F)) (expand expand' : str -> list str).

Lemma same_foldM {S X} (R : S -> S -> Prop) (f g : S -> X -> res S) l :
  (forall x, x ∈ l -> forall a b, R a b -> same R (f a x) (g b x)) ->
  forall a b, R a b -> same R (foldM f a l) (foldM g b l).
Proof.
  induction l as [|x l IH]; intros Hf a b HR; [done|]. cbn [foldM].
  apply (same_bind R); [apply Hf; [left|done]|]. intros a' b' HR'. apply IH; [|done]. intros y Hy. apply Hf. by right.
Qed.

Lemma same_aggregate n a b :
  same same_value (sel n) (sel' n) -> same_value a b -> same same_value (aggregate_step sel a n) (aggregate_step sel' b n).
Proof.
  intros Hn [H1 H2]. destruct a as [[am af] aq], b as [[bm bf] bq]. cbn in H1, H2. subst. unfold aggregate_step.
  apply (same_bind same_value); [done|]. intros [[m f] q] [[m' f'] q'] [H3 H4]. cbn in H3, H4. subst. by destruct m'.
Qed.

Definition operators : list str := [lit "not"; lit "and"; lit "or"].

Lemma same_token t (stack stack' : list (value F)) :
  expand t = expand' t ->
  (t ∉ operators -> forall n, n ∈ expand t -> same same_value (sel n) (sel' n)) ->
  Forall2 same_value stack stack' ->
  same (Forall2 same_value) (eval_token sel expand stack t) (eval_token sel' expand' stack' t).
Proof.
  intros He Hs Hst. unfold eval_token. destruct (bool_decide (t = lit "not")) eqn:E1.
  { destruct Hst as [|v w stack stack' [H1 H2] Hst]; [done|]. destruct v as [[m f] q], w as [[m' f'] q']. cbn in *. subst.
    by constructor. }
  destruct (bool_decide (t = lit "and") || bool_decide (t = lit "or")) eqn:E2.
  { destruct Hst as [|v w stack stack' [H1 H2] Hst]; [done|]. destruct v as [[m f] q], w as [[m' f'] q'].
    destruct Hst as [|v w stack stack' [H3 H4] Hst]; [done|]. destruct v as [[m2 f2] q2], w as [[m3 f3] q3]. cbn in *. subst.
    destruct (bool_decide (t = lit "and")); by constructor. }
  rewrite <- He. destruct (expand t) as [|n ns] eqn:E; [done|]. rewrite <- E.
  apply (same_bind same_value); [|intros a b Hab; by constructor].
  apply same_foldM; [|done]. intros x Hx a b Hab. apply same_aggregate; [|done].
  apply Hs; [|by rewrite <- E]. to_prop. unfold operators. rewrite !not_elem_of_cons. auto using not_elem_of_nil.
Qed.

Lemma same_eval rpn :
  (forall t, t ∈ rpn -> expand t = expand' t) ->
  (forall t n, t ∈ rpn -> t ∉ operators -> n ∈ expand t -> same same_value (sel n) (sel' n)) ->
  same same_value (eval_rpn sel expand rpn) (eval_rpn sel' expand' rpn).
Proof.
  intros He Hs. unfold eval_rpn. apply (same_bind (Forall2 same_value)).
  - apply same_foldM; [|constructor]. intros t Ht a b Hab. apply same_token; [by apply He|intros Ho n Hn; by apply (Hs t)|done].
  - intros a b Hab. destruct Hab as [|v w ? ? Hvw [|]]; done.
Qed.
End eval.

(** * Selections as written and as compiled *)
Section match_same.
Context `{Runtime} (repr : json -> str) (re_search : str -> str -> option bool) (is_word : Z -> bool).
Variable document : json.

Abbreviation scalar := (_match_scalar repr re_search).

(** Only the texts of the expected values matter. *)
Definition same_texts (e e' : json) : Prop := map (py_str repr) (_flatten_values e) = map (py_str repr) (_flatten_values e').

Lemma scalar_texts actual e e' m : same_texts e e' -> scalar actual e m = scalar actual e' m.
Proof. intros He. unfold _match_scalar. by rewrite He. Qed.

Lemma find_mapped_texts fields e e' m : same_texts e e' ->
  find_mapped repr re_search document fields e m = find_mapped repr re_search document fields e' m.
Proof. intros He. induction fields as [|f fields IH]; [done|]. cbn [find_mapped]. by rewrite (scalar_texts _ _ _ _ He), IH. Qed.

Lemma alternates_texts base e e' m : same_texts e e' -> basename_alternates repr base m e = basename_alternates repr base m e'.
Proof.
  intros He. unfold basename_alternates. destruct (Dict.get base _); [|done]. destruct (_ && _); [|done].
  assert (forall l, omap (fun v => bare_name (py_str repr v)) l = omap bare_name (map (py_str repr) l)) as Ho.
  { intros vs. induction vs as [|v vs IH]; [reflexivity|]. cbn. by rewrite IH. }
  by rewrite !Ho, He.
Qed.

Definition same_hit (a b : option (hit * list str)) : Prop :=
  match a, b with Some (_, n), Some (_, n') => n = n' | None, None => True | _, _ => False end.

Lemma match_field_texts base fields fb e e' m : same_texts e e' ->
  same same_hit (match_field repr re_search document base fields fb e m)
                (match_field repr re_search document base fields fb e' m).
Proof.
  intros He. unfold match_field. rewrite (find_mapped_texts _ _ _ _ He).
  destruct (find_mapped _ _ _ _ _ _) as [[[f a]|]| |]; cbn [mbind result_bind]; [reflexivity| |reflexivity|exact I].
  unfold _match_basename_alternate. rewrite (alternates_texts _ _ _ _ He).
  destruct (basename_alternates _ _ _ _) as [[nf names]|]; [|exact I].
  destruct (_match_scalar _ _ _ _ _) as [[]| |]; cbn; try exact I; reflexivity.
Qed.

Lemma compiled_texts expected transforms :
  same_texts (expected_of repr expected transforms)
    (JList (match transforms with
            | [] => _flatten_values expected
            | _ => map JStr (apply_value_transforms (map (py_str repr) (_flatten_values expected)) transforms)
            end)).
Proof. unfold same_texts, expected_of. by destruct transforms. Qed.

Lemma block_same alt items : forall f f' q,
  same same_value (match_block repr re_search document items f q)
    (_match_compiled_clauses repr re_search (map (compile_clause repr alt) items) document f' q).
Proof.
  induction items as [|[sf e] items IH]; intros f f' q; [done|].
  cbn [match_block map _match_compiled_clauses compile_clause].
  destruct (_mapped_sigma_fields sf) as [mf fb]. destruct (parse_field_modifiers sf) as [[base m] transforms].
  cbn [base_field mapped_fields used_fallback expected c_modifier sigma_field].
  apply (same_bind same_hit); [apply match_field_texts, compiled_texts|].
  intros [[h n]|] [[h' n']|] Hh; cbn in Hh; try done. subst. apply IH.
Qed.

(** ** Groups of clauses *)
Lemma group_new c acc : alternative c ∉ map fst acc -> group_step acc c = acc ++ [(alternative c, [c])].
Proof.
  intros Hi. unfold group_step. rewrite (proj2 (Dict.get_None _ _)) by done. by rewrite Dict.set_fresh.
Qed.

Lemma group_known c l acc :
  alternative c ∉ map fst acc -> group_step (acc ++ [(alternative c, l)]) c = acc ++ [(alternative c, l ++ [c])].
Proof.
  intros Hi. unfold group_step.
  assert (Dict.get (alternative c) (acc ++ [(alternative c, l)]) = Some l) as ->.
  { induction acc as [|[k v] acc IH]; cbn; [by rewrite decide_True|].
    cbn in Hi. rewrite not_elem_of_cons in Hi. rewrite decide_False by naive_solver. apply IH. tauto. }
  cbn [default]. clear -Hi. induction acc as [|[k v] acc IH]; cbn; [by rewrite decide_True|].
  cbn in Hi. rewrite not_elem_of_cons in Hi. rewrite decide_False by naive_solver. f_equal. apply IH. tauto.
Qed.

Lemma group_more i clauses acc l :
  i ∉ map fst acc -> Forall (fun c => alternative c = i) clauses ->
  fold_left group_step clauses (acc ++ [(i, l)]) = acc ++ [(i, l ++ clauses)].
Proof.
  intros Hi Hc. revert l. induction Hc as [|c clauses <- _ IH]; intros l; cbn [fold_left]; [by rewrite app_nil_r|].
  rewrite group_known, IH by done. by rewrite <- app_assoc.
Qed.

Lemma group_fresh i clauses acc :
  i ∉ map fst acc -> clauses <> [] -> Forall (fun c => alternative c = i) clauses ->
  fold_left group_step clauses acc = acc ++ [(i, clauses)].
Proof.
  intros Hi Hne Hc. destruct Hc as [|c clauses <- Hc]; [done|]. cbn [fold_left].
  by rewrite group_new, group_more.
Qed.

Lemma clause_alternative alt item : alternative (compile_clause repr alt item) = alt.
Proof.
  destruct item as [sf e]. unfold compile_clause. destruct (_mapped_sigma_fields sf).
  by destruct (parse_field_modifiers sf) as [[? ?] ?].
Qed.

Lemma clauses_alternative alt block : Forall (fun c => alternative c = alt) (map (compile_clause repr alt) block).
Proof. apply Forall_map, Forall_forall. intros item _. apply clause_alternative. Qed.

(** The groups of a list of non-empty maps are the maps. *)
Lemma groups_of_blocks blocks : forall index acc,
  Forall (fun block => block <> []) blocks -> (forall i, Some i ∈ map fst acc -> (i < index)%nat) ->
  map snd (fold_left group_step (compile_blocks repr true index blocks) acc) =
  map snd acc ++ map (fun '(i, block) => map (compile_clause repr (Some i)) block) (zip (seq index (length blocks)) blocks).
Proof.
  induction blocks as [|block blocks IH]; intros index acc Hne Hacc; [cbn; by rewrite app_nil_r|].
  inversion Hne as [|? ? Hb Hbs]; subst. cbn [compile_blocks]. rewrite fold_left_app.
  rewrite (group_fresh (Some index) (map _ block)); [|intros Hin; apply Hacc in Hin; lia|by destruct block|apply clauses_alternative].
  rewrite IH; [|done|].
  - rewrite map_app. cbn. by rewrite <- app_assoc.
  - intros i. rewrite map_app, elem_of_app. intros [Hi|Hi]; [apply Hacc in Hi; lia|].
    cbn in Hi. apply list_elem_of_singleton in Hi as [= ->]. lia.
Qed.

Lemma groups_same blocks : forall index q,
  same same_value (match_blocks repr re_search document (map JDict blocks) q)
    (match_groups repr re_search document
       (map (fun '(i, block) => map (compile_clause repr (Some i)) block) (zip (seq index (length blocks)) blocks)) q).
Proof.
  induction blocks as [|block blocks IH]; intros index q; [done|]. cbn [map match_blocks length seq zip zip_with match_groups].
  apply (same_bind same_value); [apply block_same|]. intros [[m f] n] [[m' f'] n'] [Hm Hn]. cbn in Hm, Hn. subst.
  destruct m'; [done|]. apply IH.
Qed.

(** One group gives what its clauses give. *)
Lemma single_group (m : res (value hit)) clauses :
  same same_value m (_match_compiled_clauses repr re_search clauses document [] []) ->
  same same_value m (match_groups repr re_search document [clauses] []).
Proof.
  intros Hm. cbn [match_groups]. destruct m as [[[b f] q]|e|], (_match_compiled_clauses _ _ _ _ _ _) as [[[b' f'] q']|e'|];
    try done. destruct Hm as [H1 H2]. cbn in H1, H2. subst. by destruct b'.
Qed.

Lemma map_same items :
  same same_value (match_block repr re_search document items [] [])
    (match_compiled_selection repr re_search (compile_blocks repr false 0 [items]) document).
Proof.
  unfold match_compiled_selection. cbn [compile_blocks]. rewrite app_nil_r. destruct items as [|item items].
  - apply single_group. done.
  - rewrite (group_fresh None (map _ (item :: items)) []); [|by intros ?%elem_of_nil|done|apply clauses_alternative].
    apply single_group, block_same.
Qed.

Lemma map_list_same blocks :
  Forall (fun block => block <> []) blocks -> blocks <> [] ->
  same same_value (match_blocks repr re_search document (map JDict blocks) [])
    (match_compiled_selection repr re_search (compile_blocks repr (1 <? length blocks)%nat 0 blocks) document).
Proof.
  intros Hne Hb. destruct blocks as [|block [|block2 blocks]]; [done| |].
  - cbn [length Nat.ltb Nat.leb map match_blocks]. pose proof (map_same block) as Hm.
    destruct (match_block _ _ _ _ _ _) as [[[b f] q]|e|], (match_compiled_selection _ _ _ _) as [[[b' f'] q']|e'|]; try done.
    destruct Hm as [H1 H2]. cbn in H1, H2. subst. by destruct b'.
  - unfold match_compiled_selection. cbn [length Nat.ltb Nat.leb].
    rewrite groups_of_blocks; [|done|by intros i ?%elem_of_nil]. cbn [map app]. apply (groups_same (block :: block2 :: blocks)).
Qed.

Lemma map_list_blocks l : _is_map_list_selection (JList l) = true ->
  exists blocks, l = map JDict blocks /\ Forall (fun block => block <> []) blocks /\ blocks <> [] /\
    _iter_selection_blocks (JList l) = blocks.
Proof.
  cbn. intros Hl. assert (exists blocks, l = map JDict blocks /\ Forall (fun block => block <> []) blocks /\
    omap (fun item => match item with JDict d => Some d | _ => None end) l = blocks) as (blocks & -> & Hne & Ho).
  { destruct l as [|x l]; [done|]. revert Hl. generalize (x :: l). clear x l. intros l.
    induction l as [|x l IH]; intros Hl; [by exists []|]. cbn [forallb] in Hl. apply andb_prop in Hl as [Hx Hl].
    destruct x as [| | | | | |[|p d]]; try done. destruct (IH Hl) as (blocks & -> & Hne & Ho).
    exists ((p :: d) :: blocks). split; [done|]. split; [by constructor|]. cbn. by rewrite Ho. }
  exists blocks. split; [done|]. split; [done|]. split; [by destruct blocks|done].
Qed.

Lemma keywords_same name keywords fields fb :
  same same_value (match_keywords repr re_search name document keywords fields)
    (let! found := find_mapped repr re_search document fields (JList (map JStr keywords)) keyword_modifier in
     match found with
     | Some (f, actual_values) =>
         Ok (true, [(KEYWORD_PSEUDO_FIELD, {| mapped_field := f; h_expected := JList (map JStr keywords); actual := take 5 actual_values |})],
             if (fb : bool) then [] else [])
     | None => Ok (false, [], [])
     end).
Proof.
  induction fields as [|f fields IH]; [done|]. cbn [match_keywords find_mapped].
  destruct (_match_scalar _ _ _ _ _) as [[]| |]; cbn [mbind result_bind]; [by destruct fb|exact IH|done|done].
Qed.

Lemma selection_same rule name selection clauses :
  compile_selection repr rule selection = Some clauses ->
  same same_value (_match_selection repr re_search name selection document (_keywords_supported repr rule))
    (match_compiled_selection repr re_search clauses document).
Proof.
  unfold compile_selection, _match_selection. destruct (_keywords_supported repr rule && _is_keyword_selection selection).
  { intros [= <-]. unfold match_compiled_selection. cbn [fold_left map].
    rewrite (group_new _ []) by (by intros ?%elem_of_nil). cbn [app map snd].
    apply single_group. cbn [_match_compiled_clauses sigma_field base_field mapped_fields c_modifier expected used_fallback].
    pose proof (keywords_same name (_keyword_values repr selection) (fst (_mapped_sigma_fields KEYWORD_PSEUDO_FIELD)) true) as Hk.
    unfold match_field. destruct (find_mapped _ _ _ _ _ _) as [[[f a]|]| |]; cbn [mbind result_bind] in *; exact Hk. }
  destruct selection as [| | | | |l|d]; try done.
  - destruct (_is_map_list_selection (JList l)) eqn:Hl; [|done].
    destruct (map_list_blocks l Hl) as (blocks & -> & Hne & Hb & ->). intros [= <-]. by apply map_list_same.
  - intros [= <-]. apply map_same.
Qed.
End match_same.

(** * Whole rules *)
Section rules.
Context `{Runtime} (repr : json -> str) (re_search : str -> str -> option bool) (is_word : Z -> bool).

(** ** What "compiled" says *)
Lemma replace_reason block_names st one selector st' reason :
  replace_match block_names st one selector = (st', inr reason) -> reason <> executable.
Proof.
  unfold replace_match. destruct (_selector_matches _ _); [by intros [= _ <-]|].
  destruct (_ <? _)%nat; [by intros [= _ <-]|]. destruct (_ <? _)%nat; [by intros [= _ <-]|done].
Qed.

Lemma sub_reason block_names s : forall skip free st st' reason,
  expansion_sub block_names skip free s st = (st', inr reason) -> reason <> executable.
Proof.
  induction s as [|c s IH]; intros skip free st st' reason; cbn [expansion_sub]; [done|].
  destruct skip as [|skip]; [|apply IH].
  destruct (if free then SIGMA_EXPANSION_PATTERN (c :: s) else None) as [[[one selector] n]|].
  - destruct (replace_match _ _ _ _) as [st1 [text|r]] eqn:Er; [|intros [= _ <-]; by eapply replace_reason].
    destruct (expansion_sub _ _ _ _ _) as [st2 [rest|r]] eqn:Es; [done|]. intros [= _ <-]. by eapply IH.
  - destruct (expansion_sub _ _ _ _ _) as [st2 [rest|r]] eqn:Es; [done|]. intros [= _ <-]. by eapply IH.
Qed.

Lemma rounds_reason block_names rounds : forall text st st' text' reason,
  expansion_rounds rounds block_names text st = (st', text', Some reason) -> reason <> executable.
Proof.
  induction rounds as [|rounds IH]; intros text st st' text' reason; cbn [expansion_rounds]; [done|].
  destruct (expansion_sub _ _ _ _ _) as [st1 [updated|r]] eqn:Es.
  - destruct (bool_decide _); [done|apply IH].
  - intros [= _ _ <-]. by eapply sub_reason.
Qed.

Lemma unsupported_reason rule :
  e_supported (expand_sigma_condition_terms repr rule) = false -> e_reason (expand_sigma_condition_terms repr rule) <> executable.
Proof.
  unfold expand_sigma_condition_terms. destruct (condition_of repr rule) as [|c s]; [done|].
  destruct (expansion_rounds _ _ _ _) as [[st text] [reason|]] eqn:Er; [intros _; by eapply rounds_reason|].
  by destruct (expansion_search _ _).
Qed.

Lemma executable_supported rule :
  (analyze_sigma_engine_compatibility repr is_word rule).1 = executable ->
  e_supported (expand_sigma_condition_terms repr rule) = true.
Proof.
  intros Ha. destruct (e_supported _) eqn:Es; [done|]. exfalso. apply unsupported_reason in Es as Hr.
  revert Ha. unfold analyze_sigma_engine_compatibility.
  repeat match goal with |- context [let (_, _) := ?p in _] =>
    lazymatch p with context [e_supported] => fail | _ => destruct p as [? ?] end end.
  rewrite Es. destruct (sigma_condition_supported _ _); [rewrite bool_decide_eq_false_2 by done|]; done.
Qed.

Lemma compiled_supported rule compiled :
  compile_sigma_rule repr is_word rule = Ok compiled -> compile_status compiled = lit "compiled" ->
  e_supported (expand_sigma_condition_terms repr rule) = true /\
  (let! tokens := _tokenize_condition is_word (e_expanded_condition (expand_sigma_condition_terms repr rule)) in
   _to_rpn tokens) = Ok (condition_rpn compiled) /\
  sigma_logsource compiled = logsource rule /\
  selections compiled = omap (compile_item repr rule) (selections_of rule).
Proof.
  unfold compile_sigma_rule. destruct (analyze_sigma_engine_compatibility repr is_word rule) as [status features] eqn:Ea.
  destruct (if bool_decide (status = executable) then _ else Some status) as [reason|] eqn:Er.
  { cbn [mbind result_bind]. intros [= <-]. cbn [compile_status]. done. }
  intros (rpn & Hrpn & [= <-])%bind_Ok _. destruct (bool_decide (status = executable)) eqn:Eb; [|done]. to_prop. subst.
  split; [apply executable_supported; by rewrite Ea|]. done.
Qed.

(** ** Rules whose selections all compile *)
Definition star_token (t : str) : bool := one_of t (code "*").

Definition well_formed (rule : sigma_rule) : Prop :=
  NoDup (map fst (detection rule)) /\
  Forall (fun '(_, selection) => is_Some (compile_selection repr rule selection)) (selections_of rule).

Definition names_known (rule : sigma_rule) (rpn : list str) : Prop :=
  Forall (fun t => t ∈ operators \/ star_token t = true \/ t ∈ map fst (selections_of rule)) rpn.

Abbreviation compiled_selections rule :=
  (omap (compile_item repr rule) (selections_of rule)).

Lemma compiled_names rule l :
  Forall (fun '(_, selection) => is_Some (compile_selection repr rule selection)) l ->
  map fst (omap (compile_item repr rule) l) = map fst l.
Proof.
  induction 1 as [|[name selection] l [cl Hcl] Hl IH]; [done|]. cbn. unfold compile_item at 1. cbn. rewrite Hcl. cbn. by rewrite IH.
Qed.

Lemma compiled_get rule l name selection clauses :
  NoDup (map fst l) -> (name, selection) ∈ l -> compile_selection repr rule selection = Some clauses ->
  Dict.get name (omap (compile_item repr rule) l) = Some clauses.
Proof.
  intros Hnd Hin Hc. induction l as [|[n s] l IH]; [by apply elem_of_nil in Hin|].
  cbn in Hnd. apply NoDup_cons in Hnd as [Hn Hnd]. apply elem_of_cons in Hin as [[= <- <-]|Hin].
  - cbn. unfold compile_item at 1. cbn. rewrite Hc. cbn. by rewrite decide_True.
  - assert (name <> n) by (intros ->; apply Hn, list_elem_of_fmap; by exists (n, selection)).
    cbn. unfold compile_item at 1. cbn. destruct (compile_selection repr rule s); cbn; [|by apply IH]. rewrite decide_False by done. by apply IH.
Qed.

Lemma selections_names rule : map fst (selections_of rule) = filter (fun n => n <> lit "condition") (map fst (detection rule)).
Proof.
  unfold selections_of. induction (detection rule) as [|[n s] l IH]; [done|]. rewrite filter_cons. cbn [map fst].
  rewrite filter_cons. destruct (decide (n <> lit "condition")); cbn [map fst]; by rewrite IH.
Qed.

Lemma expand_same rule t : well_formed rule ->
  _expand_selection_tokens (map fst (detection rule)) t =
  _expand_selection_tokens (lit "condition" :: map fst (compiled_selections rule)) t.
Proof.
  intros [_ Hw]. unfold _expand_selection_tokens. destruct (negb _); [done|].
  rewrite filter_cons_False by (by intros [? _]). rewrite compiled_names by done. rewrite selections_names.
  rewrite list_filter_filter. apply list_filter_iff. tauto.
Qed.

Lemma expand_known rule rpn t n :
  names_known rule rpn -> t ∈ rpn -> t ∉ operators ->
  n ∈ _expand_selection_tokens (map fst (detection rule)) t -> n ∈ map fst (selections_of rule).
Proof.
  intros Hk Ht Ho Hn. unfold names_known in Hk. rewrite Forall_forall in Hk. specialize (Hk t Ht).
  unfold _expand_selection_tokens in Hn. unfold star_token in Hk. destruct (one_of t (code "*")); cbn [negb] in Hn.
  - rewrite selections_names. apply list_elem_of_filter in Hn as [[Hc _] Hn]. by apply list_elem_of_filter.
  - apply list_elem_of_singleton in Hn as ->. naive_solver.
Qed.

Lemma named_selection rule n : well_formed rule -> n ∈ map fst (selections_of rule) ->
  exists selection clauses, Dict.get n (detection rule) = Some selection /\
    compile_selection repr rule selection = Some clauses /\
    Dict.get n (compiled_selections rule) = Some clauses.
Proof.
  intros [Hnd Hw] Hn. apply list_elem_of_fmap in Hn as ([n' selection] & -> & Hin). cbn.
  rewrite Forall_forall in Hw. destruct (Hw _ Hin) as [clauses Hc]. exists selection, clauses.
  assert (NoDup (map fst (selections_of rule))) by (rewrite selections_names; by apply NoDup_filter).
  split; [|split; [done|by eapply compiled_get]].
  apply Dict.elem_get; [done|]. by apply list_elem_of_filter in Hin as [_ ?].
Qed.

(** Results that agree up to what is reported of the fields. *)
Definition same_answer (a b : eval_result) : Prop :=
  matched a = matched b /\ data_quality a = data_quality b /\ skip_reason a = skip_reason b.

Lemma evaluate_same rule compiled document :
  compile_sigma_rule repr is_word rule = Ok compiled -> compile_status compiled = lit "compiled" ->
  well_formed rule -> names_known rule (condition_rpn compiled) ->
  same same_answer (evaluate_sigma_rule repr re_search is_word rule document)
    (evaluate_compiled_sigma_rule repr re_search compiled document).
Proof.
  intros Hc Hs Hw Hk. destruct (compiled_supported _ _ Hc Hs) as (He & Hrpn & Hl & Hsel).
  unfold evaluate_sigma_rule, evaluate_compiled_sigma_rule. rewrite Hl, Hsel.
  destruct (document_matches_sigma_logsource _ _ _) as [[reason|]| |]; [done| |done|done]. cbn [mbind result_bind].
  rewrite He. cbn [negb raise_if mbind result_bind]. apply bind_Ok in Hrpn as (tokens & Htok & Hrpn). rewrite Htok.
  cbn [mbind result_bind]. rewrite Hrpn. cbn [mbind result_bind].
  apply (same_bind same_value).
  - apply same_eval; [intros t Ht; by apply expand_same|].
    intros t n Ht Ho Hn. destruct (named_selection rule n Hw (expand_known _ _ _ _ Hk Ht Ho Hn)) as (selection & clauses & Hg & Hcs & Hg').
    rewrite Hg, Hg'. cbn [default]. by apply (selection_same repr re_search document rule n).
  - intros [[m f] q] [[m' f'] q'] [H1 H2]. cbn in *. by subst.
Qed.
End rules.

(** * Keywords and their candidates *)
Section candidates.
Context `{Runtime} (repr : json -> str) (re_search : str -> str -> option bool) (is_word : Z -> bool).

(** [p] occurs in [s], up to case. *)
Definition occurs (p s : str) : Prop := exists a m b, s = a ++ m ++ b /\ Forall2 (fun c d => re_same c d = true) p m.

Lemma occurs_part a p b s : occurs (a ++ p ++ b) s -> occurs p s.
Proof.
  intros (u & m & w & -> & Hm). apply Forall2_app_inv_l in Hm as (ma & m' & Ha & Hm & ->).
  apply Forall2_app_inv_l in Hm as (mp & mb & Hp & Hb & ->). exists (u ++ ma), mp, (mb ++ w). by rewrite <- !app_assoc.
Qed.

Lemma star_split ts s : keyword_at (KStar :: ts) s = true -> exists u s', s = u ++ s' /\ keyword_at ts s' = true.
Proof.
  induction s as [|d s IH]; cbn [keyword_at]; intros Hs; apply orb_prop in Hs as [Hs|Hs]; try done.
  - by exists [], [].
  - by exists [], (d :: s).
  - destruct (IH Hs) as (u & s' & -> & Hk). by exists (d :: u), s'.
Qed.

Lemma segments_occur ts : forall s pre cur mcur,
  keyword_at ts s = true -> Forall2 (fun c d => re_same c d = true) cur mcur ->
  forall seg, seg ∈ literal_segments cur ts -> occurs seg (pre ++ mcur ++ s).
Proof.
  assert (Hcur : forall s pre cur mcur seg, Forall2 (fun c d => re_same c d = true) cur mcur ->
    seg ∈ match cur with [] => [] | _ => [cur] end -> occurs seg (pre ++ mcur ++ s)).
  { intros s pre cur mcur seg Hc Hin. destruct cur as [|c cur]; [by apply elem_of_nil in Hin|].
    apply list_elem_of_singleton in Hin as ->. by exists pre, mcur, s. }
  induction ts as [|t ts IH]; intros s pre cur mcur Hk Hc seg Hseg; [by eapply Hcur|].
  destruct t as [c| |]; cbn [literal_segments] in Hseg.
  - cbn [keyword_at] in Hk. destruct s as [|d s]; [done|]. apply andb_prop in Hk as [Hcd Hk].
    pose proof (IH s pre (cur ++ [c]) (mcur ++ [d]) Hk ltac:(by apply Forall2_app; [|constructor]) seg Hseg) as Ho.
    by rewrite <- app_assoc in Ho.
  - apply star_split in Hk as (u & s' & -> & Hk). apply elem_of_app in Hseg as [Hseg|Hseg]; [by eapply Hcur|].
    pose proof (IH s' (pre ++ mcur ++ u) [] [] Hk (proj2 (Forall2_nil _) I) seg Hseg) as Ho. by rewrite <- !app_assoc in Ho.
  - cbn [keyword_at] in Hk. destruct s as [|d s]; [done|]. apply elem_of_app in Hseg as [Hseg|Hseg]; [by eapply Hcur|].
    pose proof (IH s (pre ++ mcur ++ [d]) [] [] Hk (proj2 (Forall2_nil _) I) seg Hseg) as Ho. by rewrite <- !app_assoc in Ho.
Qed.

Lemma search_split ts s : search_tokens ts s = true -> exists u s', s = u ++ s' /\ keyword_at ts s' = true.
Proof.
  induction s as [|d s IH]; cbn [search_tokens]; intros Hs; apply orb_prop in Hs as [Hs|Hs]; try done.
  - by exists [], [].
  - by exists [], (d :: s).
  - destruct (IH Hs) as (u & s' & -> & Hk). by exists (d :: u), s'.
Qed.

Lemma runs_infix s : forall cur run, run ∈ find_runs is_word cur s -> exists a b, cur ++ s = a ++ run ++ b.
Proof.
  assert (Hcur : forall cur (s run : str), run ∈ match cur with [] => [] | _ => [cur] end -> exists a b, cur ++ s = a ++ run ++ b).
  { intros cur s' run Hin. destruct cur as [|c cur]; [by apply elem_of_nil in Hin|].
    apply list_elem_of_singleton in Hin as ->. by exists [], s'. }
  induction s as [|c s IH]; intros cur run Hr; cbn [find_runs] in Hr; [by eapply Hcur|].
  destruct (run_char is_word c).
  - destruct (IH _ _ Hr) as (a & b & He). exists a, b. by rewrite <- app_assoc in He.
  - apply elem_of_app in Hr as [Hr|Hr]; [by apply Hcur|]. destruct (IH _ _ Hr) as (a & b & He). cbn [app] in He.
    exists (cur ++ c :: a), b. by rewrite He, <- app_assoc.
Qed.

Lemma keyword_runs_occur v actual run :
  _keyword_regex v actual = true -> run ∈ _keyword_alnum_runs is_word v -> occurs run actual.
Proof.
  intros (u & s & -> & Hk)%search_split Hr. unfold _keyword_alnum_runs in Hr.
  apply list_elem_of_In, in_flat_map in Hr as (seg & Hseg%list_elem_of_In & Hr%list_elem_of_In).
  apply list_elem_of_filter in Hr as [_ Hr]. apply runs_infix in Hr as (a & b & He). cbn [app] in He. subst seg.
  apply (occurs_part a run b). apply (segments_occur (_keyword_tokens v) s u [] [] Hk (proj2 (Forall2_nil _) I) _ Hseg).
Qed.
End candidates.
(** * Properties *)

(** ** Examples *)
#[local] Existing Instance toy_runtime.
Definition no_repr (j : json) : str := [].
Definition no_search (p s : str) : option bool := None.
Definition ascii_word (c : Z) : bool := name_char c && negb (c =? code "*").

Definition sample_rule : sigma_rule :=
  {| logsource := [(lit "product", JStr (lit "linux"))];
     detection :=
       [(lit "selection", JList [JDict [(lit "CommandLine|contains", JList [JStr (lit "wget"); JStr (lit "curl")])];
                                 JDict [(lit "Image|endswith", JStr (lit "/nc"))]]);
        (lit "keywords", JList [JStr (lit "reverse*shell")]);
        (lit "filter_root", JDict [(lit "User", JStr (lit "root"))]);
        (lit "condition", JStr (lit "(selection or keywords) and not filter_root"))] |}.
Definition sample_event : json :=
  JDict [(lit "process", JDict [(lit "name", JStr (lit "nc"))]); (lit "message", JStr (lit "started"))].

(** C4. Compilation preserves meaning: on every event, a rule that compiles,
    whose selections are all of a kind the compiler translates and whose
    condition names only them, gives the same verdict, the same notes and the
    same exceptions whether it is evaluated as compiled or as written. *)
Theorem compiled_rule_agrees `{Runtime} repr re_search is_word rule compiled document :
  compile_sigma_rule repr is_word rule = Ok compiled -> compile_status compiled = lit "compiled" ->
  well_formed repr rule -> names_known rule (condition_rpn compiled) ->
  same same_answer (evaluate_sigma_rule repr re_search is_word rule document)
    (evaluate_compiled_sigma_rule repr re_search compiled document).
Proof. apply evaluate_same. Qed.

Lemma well_formed_by `{Runtime} repr rule :
  bool_decide (NoDup (map fst (detection rule))) &&
  forallb (fun item => match compile_selection repr rule (snd item) with Some _ => true | None => false end) (selections_of rule) = true ->
  well_formed repr rule.
Proof.
  intros [Hnd Hf]%andb_prop. split; [by apply bool_decide_eq_true in Hnd|]. rewrite forallb_forall in Hf.
  apply Forall_forall. intros [n sel] Hin%list_elem_of_In. specialize (Hf _ Hin). cbn in Hf.
  by destruct (compile_selection repr rule sel).
Qed.

Lemma compiled_rule_agrees_witness :
  exists compiled, compile_sigma_rule no_repr ascii_word sample_rule = Ok compiled /\
    same same_answer (evaluate_sigma_rule no_repr no_search ascii_word sample_rule sample_event)
      (evaluate_compiled_sigma_rule no_repr no_search compiled sample_event) /\
    (matched <$> evaluate_sigma_rule no_repr no_search ascii_word sample_rule sample_event) = Ok true.
Proof.
  destruct (compile_sigma_rule no_repr ascii_word sample_rule) as [compiled|e|] eqn:E.
  - exists compiled. split; [reflexivity|]. split; [|vm_compute; reflexivity].
    assert (Hb : match compile_sigma_rule no_repr ascii_word sample_rule with
      | Ok c => bool_decide (compile_status c = lit "compiled") &&
          forallb (fun t => bool_decide (t ∈ operators) || star_token t || bool_decide (t ∈ map fst (selections_of sample_rule)))
            (condition_rpn c)
      | _ => false end = true) by (vm_compute; reflexivity).
    rewrite E in Hb. apply andb_prop in Hb as [Hs Hk]. apply bool_decide_eq_true in Hs.
    apply (compiled_rule_agrees no_repr no_search ascii_word); [exact E|exact Hs| |].
    + apply well_formed_by. vm_compute. reflexivity.
    + apply Forall_forall. intros t Ht%list_elem_of_In. rewrite forallb_forall in Hk. specialize (Hk t Ht).
      apply orb_prop in Hk as [Hk|Hk]; [apply orb_prop in Hk as [Hk|Hk]|].
      * left. by apply bool_decide_eq_true in Hk.
      * right. by left.
      * right. right. by apply bool_decide_eq_true in Hk.
  - exfalso. assert (is_ok (compile_sigma_rule no_repr ascii_word sample_rule) = true) as Hok by (vm_compute; reflexivity).
    by rewrite E in Hok.
  - exfalso. assert (is_ok (compile_sigma_rule no_repr ascii_word sample_rule) = true) as Hok by (vm_compute; reflexivity).
    by rewrite E in Hok.
Defined.

(** A condition that names a selection the rule does not have is accepted
    by the compiler, and then matches every event the log source admits, while
    the rule as written matches none. *)
Lemma unknown_selection_matches `{Runtime} repr re_search is_word rule compiled t document :
  compile_sigma_rule repr is_word rule = Ok compiled -> compile_status compiled = lit "compiled" ->
  condition_rpn compiled = [t] -> t ∉ operators -> star_token t = false -> t ∉ map fst (detection rule) ->
  document_matches_sigma_logsource repr (logsource rule) document = Ok None ->
  (matched <$> evaluate_compiled_sigma_rule repr re_search compiled document) = Ok true /\
  (matched <$> evaluate_sigma_rule repr re_search is_word rule document) = Ok false.
Proof.
  intros Hc Hs Ht Ho Hst Hn Hl. destruct (compiled_supported repr is_word _ _ Hc Hs) as (He & Hrpn & Hlog & Hsel).
  assert (Dict.get t (selections compiled) = None) as Hget.
  { rewrite Hsel. apply Dict.get_None. intros Hin. apply Hn.
    assert (forall l, t ∈ Dict.keys (omap (compile_item repr rule) l) -> t ∈ map fst l) as Hsub.
    { induction l as [|[n s] l IH]; [done|]. cbn. unfold compile_item at 1. cbn.
      destruct (compile_selection repr rule s); cbn; rewrite ?elem_of_cons; naive_solver. }
    apply Hsub in Hin. rewrite selections_names in Hin. by apply list_elem_of_filter in Hin as [_ Hin]. }
  unfold operators in Ho. rewrite !not_elem_of_cons in Ho. destruct Ho as (H1 & H2 & H3 & _).
  assert (Hexp : forall names, _expand_selection_tokens names t = [t]) by (intros names; unfold _expand_selection_tokens; unfold star_token in Hst; by rewrite Hst).
  split.
  - unfold evaluate_compiled_sigma_rule. rewrite Hlog, Hl, Ht. cbn [mbind result_bind]. unfold eval_rpn. cbn [foldM].
    unfold eval_token. rewrite !bool_decide_eq_false_2 by done. cbn [orb]. rewrite Hexp. cbn [foldM aggregate_step]. by rewrite Hget.
  - unfold evaluate_sigma_rule. rewrite Hl. cbn [mbind result_bind]. rewrite He. cbn [negb raise_if mbind result_bind].
    apply bind_Ok in Hrpn as (tokens & Htok & Hrpn). rewrite Htok. cbn [mbind result_bind]. rewrite Hrpn, Ht. cbn [mbind result_bind].
    unfold eval_rpn. cbn [foldM]. unfold eval_token. rewrite !bool_decide_eq_false_2 by done. cbn [orb]. rewrite Hexp.
    cbn [foldM aggregate_step]. rewrite (proj2 (Dict.get_None _ _)) by done. unfold _match_selection. cbn [default].
    by rewrite andb_false_r.
Qed.

Definition mistyped_rule : sigma_rule :=
  {| logsource := [];
     detection := [(lit "selection", JDict [(lit "CommandLine|contains", JStr (lit "wget"))]);
                   (lit "condition", JStr (lit "selecton"))] |}.

Lemma unknown_selection_matches_witness :
  exists compiled, compile_sigma_rule no_repr ascii_word mistyped_rule = Ok compiled /\
    (matched <$> evaluate_compiled_sigma_rule no_repr no_search compiled sample_event) = Ok true /\
    (matched <$> evaluate_sigma_rule no_repr no_search ascii_word mistyped_rule sample_event) = Ok false.
Proof.
  assert (Hb : match compile_sigma_rule no_repr ascii_word mistyped_rule with
    | Ok c => bool_decide (compile_status c = lit "compiled") && bool_decide (condition_rpn c = [lit "selecton"])
    | _ => false end = true) by (vm_compute; reflexivity).
  destruct (compile_sigma_rule no_repr ascii_word mistyped_rule) as [compiled|e|] eqn:E; [|discriminate Hb|discriminate Hb].
  apply andb_prop in Hb as [Hs Hr]. apply bool_decide_eq_true in Hs, Hr. exists compiled. split; [reflexivity|].
  apply (unknown_selection_matches no_repr no_search ascii_word mistyped_rule compiled (lit "selecton") sample_event E Hs Hr);
    [by apply (bool_decide_eq_false_1 _)|reflexivity|by apply (bool_decide_eq_false_1 _)|vm_compute; reflexivity].
Defined.

(** Keyword candidates lose nothing: when the pattern of a keyword is found
    in a text, every run asked for by its candidate clause is, up to case, a
    part of that text. *)
Lemma keyword_candidates_cover `{Runtime} is_word v actual :
  _keyword_regex v actual = true ->
  exists runs, _keyword_candidate_clause is_word v =
      CMust (map (fun run => CWildcard (lit "search_text") (lit "*" ++ run ++ lit "*") true) runs) /\
    Forall (fun run => exists r, run = py_lower r /\ occurs r actual) runs.
Proof.
  intros Hk. eexists. split; [reflexivity|]. apply Forall_forall. intros run Hin.
  apply elem_of_take in Hin as (i & Hin & _). apply list_elem_of_lookup_2 in Hin. rewrite Sort.sort_by_perm in Hin.
  apply dedup_elem, list_elem_of_fmap in Hin as (r & -> & Hin).
  exists r. split; [done|]. by eapply keyword_runs_occur.
Qed.

Lemma keyword_candidates_cover_witness :
  exists runs, _keyword_candidate_clause ascii_word (lit "Reverse*shell") =
      CMust (map (fun run => CWildcard (lit "search_text") (lit "*" ++ run ++ lit "*") true) runs) /\
    Forall (fun run => exists r, run = py_lower r /\ occurs r (lit "a reverse TCP shell was opened")) runs.
Proof. apply keyword_candidates_cover. vm_compute. reflexivity. Defined.

(** A clause with other expected values. *)
Definition with_expected `{Runtime} (c : clause) (e : json) : clause :=
  {| sigma_field := sigma_field c; base_field := base_field c; mapped_fields := mapped_fields c;
     c_modifier := c_modifier c; expected := e; used_fallback := used_fallback c; alternative := alternative c |}.

(** The candidate query of a list of values asks for the first only: for a
    [contains] on fields outside [linux.], the query is the one of the first
    value alone, although the clause matches every event that holds any of the
    others, and nothing in the query asks for those. *)
Lemma candidate_query_first_value `{Runtime} repr re_search is_word c document v vs w f fs a :
  c_modifier c = {| op := Some Contains; all_values := false |} ->
  expected c = JList (map JStr (v :: vs)) -> mapped_fields c = f :: fs ->
  forallb (fun f => negb (startswith (lit "linux.") f)) (mapped_fields c) = true ->
  w ∈ vs -> a ∈ _stringify_values repr (_get_nested_value document f) -> contains (py_lower w) (py_lower a) = true ->
  (forall parts, clause_parts repr is_word parts c = clause_parts repr is_word parts (with_expected c (JList [JStr v]))) /\
  exists fields notes, _match_compiled_clauses repr re_search [c] document [] [] = Ok (true, fields, notes).
Proof.
  intros Hm He Hf Hl Hw Ha Hc. split.
  - intros parts. unfold clause_parts. cbn [with_expected c_modifier expected mapped_fields base_field].
    rewrite Hm, He. cbn [op all_values]. change (bool_decide (Some Contains = Some KeywordOp)) with false. cbv iota.
    change (bool_decide (Some Contains = None)) with false. cbn [andb].
    assert (forall e, basename_alternates repr (base_field c) {| op := Some Contains; all_values := false |} e = None) as Hb.
    { intros e. unfold basename_alternates. by destruct (Dict.get _ _). }
    rewrite !Hb. generalize {| should := should parts ++ []; keyword_should := keyword_should parts;
      linux_should := linux_should parts; linux_fields := linux_fields parts |}.
    clear -Hl. induction (mapped_fields c) as [|f fs IH]; intros parts; [done|]. cbn [forallb] in Hl.
    apply andb_prop in Hl as [Hf Hl]. apply negb_true_iff in Hf. cbn [fold_left]. rewrite Hf. by apply IH.
  - assert (Hany : match_any re_search (_stringify_values repr (_get_nested_value document f))
      (map (py_str repr) (_flatten_values (expected c))) (Some Contains) = Ok true).
    { rewrite He. cbn [_flatten_values]. rewrite map_map. unfold match_any.
      assert (Hg : forall (g : str -> str -> bool) exps, w ∈ exps -> g w a = true ->
        anyM (fun exp => anyM (fun x => Ok (g exp x)) (_stringify_values repr (_get_nested_value document f))) exps = @Ok sigma_exn bool true).
      { intros g exps Hin Hg. assert (Hp : forall (p : str -> bool) l, anyM (fun x => Ok (p x)) l = @Ok sigma_exn bool (existsb p l)).
        { intros p l. induction l as [|x l IH]; [done|]. cbn. rewrite IH. by destruct (p x). }
        assert (Hr : forall exps, anyM (fun exp => anyM (fun x => Ok (g exp x)) (_stringify_values repr (_get_nested_value document f))) exps =
          @Ok sigma_exn bool (existsb (fun exp => existsb (g exp) (_stringify_values repr (_get_nested_value document f))) exps)).
        { intros l. induction l as [|x l IH]; [done|]. cbn [anyM existsb]. rewrite Hp, IH. by destruct (existsb (g x) _). }
        rewrite Hr. f_equal. apply existsb_exists. exists w. split; [by apply list_elem_of_In|].
        apply existsb_exists. exists a. split; [by apply list_elem_of_In|done]. }
      apply (Hg (fun e x => contains (py_lower e) (py_lower x))); [|done]. cbn [map py_str]. right.
      apply list_elem_of_fmap. by exists w. }
    cbn [_match_compiled_clauses]. unfold match_field. rewrite Hf, Hm. cbn [find_mapped]. unfold _match_scalar.
    cbn [all_values op]. rewrite Hany. cbn [mbind result_bind]. by eexists _, _.
Qed.

Definition sample_clause : clause :=
  compile_clause no_repr None (lit "CommandLine|contains", JList [JStr (lit "mimikatz"); JStr (lit "procdump")]).
Definition windows_clause : clause :=
  {| sigma_field := sigma_field sample_clause; base_field := base_field sample_clause;
     mapped_fields := [lit "process.command_line"]; c_modifier := c_modifier sample_clause;
     expected := expected sample_clause; used_fallback := false; alternative := None |}.
Definition procdump_event : json :=
  JDict [(lit "process", JDict [(lit "command_line", JStr (lit "procdump.exe -ma lsass"))])].

Lemma candidate_query_first_value_witness :
  (forall parts, clause_parts no_repr ascii_word parts windows_clause =
    clause_parts no_repr ascii_word parts (with_expected windows_clause (JList [JStr (lit "mimikatz")]))) /\
  exists fields notes, _match_compiled_clauses no_repr no_search [windows_clause] procdump_event [] [] = Ok (true, fields, notes).
Proof.
  apply (candidate_query_first_value no_repr no_search ascii_word windows_clause procdump_event (lit "mimikatz")
    [lit "procdump"] (lit "procdump") (lit "process.command_line") [] (lit "procdump.exe -ma lsass"));
    [reflexivity..|left|left|vm_compute; reflexivity].
Defined.
End SigmaEquiv.

