(* ===== verification/JournalBinary.v ===== *)
(** ingest/linux/journal_binary.py: the reader of binary systemd journals.
    Definitions only; the theorems are in JournalRead and JournalLayout. *)
From S2P Require Import Prelude PyBase.
Import Str Bytes.

Module JournalBinary.

Abbreviation bytes := (list Z).
Abbreviation res := (result py_exn).

Definition SIGNATURE : bytes := lit "LPKSHHRH".
Definition _OFF_INCOMPATIBLE_FLAGS : Z := 12.
Definition _OFF_HEADER_SIZE : Z := 88.
Definition _OFF_TAIL_OBJECT_OFFSET : Z := 136.
Definition _MIN_HEADER : Z := 144.
Definition _INCOMPAT_COMPACT : Z := 0x10.
Definition _OBJECT_HEADER_SIZE : Z := 16.
Definition _TYPE_DATA : Z := 1.
Definition _TYPE_ENTRY : Z := 3.
Definition _FLAG_XZ : Z := 0x01.
Definition _FLAG_LZ4 : Z := 0x02.
Definition _FLAG_ZSTD : Z := 0x04.
Definition _DATA_PAYLOAD_OFFSET : Z := 64.
Definition _DATA_PAYLOAD_OFFSET_COMPACT : Z := 72.
Definition _ENTRY_FIXED : Z := 64.
Definition MAX_ENTRIES : Z := 1000000.
Definition MAX_FIELDS_PER_ENTRY : Z := 512.
Definition MAX_FIELD_BYTES : Z := 1 * 1024 * 1024.
Definition _DATA_CACHE_LIMIT : Z := 200000.

Definition is_journal_file (content : option bytes) : bool :=
  match content with Some b => bool_decide (slice 0 (len SIGNATURE) b = SIGNATURE) | None => false end.

Definition unpack (n : nat) (b : bytes) (off : Z) : res Z := of_option StructError (u_le n b off).
(** [bool(flags & mask)], and [(n + 7) & ~7]. *)
Definition has (flags mask : Z) : bool := negb (Z.land flags mask =? 0).
Definition round8 (n : Z) : Z := Z.land (n + 7) (Z.lnot 7).

(** [payload.partition(b"=")] where it has a separator. *)
Definition partition (payload : bytes) : option (bytes * bytes) :=
  option_map (fun n => (take n payload, drop (S n) payload)) (find_char (code "=") payload 0).
(** [name.decode("ascii", "replace")] *)
Definition decode_replace (name : bytes) : str := map (fun b => if b <? 128 then b else 0xFFFD) name.

Abbreviation field := (str * bytes)%type.
Record entry := { e_seqnum : Z; e_realtime : Z; e_boot_id : bytes; e_fields : list field }.

Record _Journal := {
  buf : bytes;
  size : Z;
  compact : bool;
  header_size : Z;
  tail_offset : Z;
  _cache : gmap Z (option field);
  undecodable_fields : Z }.
#[export] Instance _Journal_rebuild : Rebuild _Journal := fun j =>
  Build__Journal (buf j) (size j) (compact j) (header_size j) (tail_offset j) (_cache j) (undecodable_fields j).

(** A method: it may change the object and may raise; what it changed before it
    raised stays. *)
Definition method (A : Type) : Type := _Journal -> _Journal * res A.
#[export] Instance method_ret : MRet method := fun _ a j => (j, Ok a).
#[export] Instance method_bind : MBind method := fun _ _ f m j =>
  match m j with
  | (j', Ok a) => f a j'
  | (j', Raise e) => (j', Raise e)
  | (j', OutOfFuel) => (j', OutOfFuel)
  end.
Definition lift {A} (r : res A) : method A := fun j => (j, r).
Definition gets {A} (f : _Journal -> A) : method A := fun j => (j, Ok (f j)).
Definition modify (f : _Journal -> _Journal) : method unit := fun j => (f j, Ok tt).
Notation "'let@' x := m 'in' k" := (mbind (M := method) (fun x => k) m)
  (at level 200, x pattern, m at level 100, k at level 200, right associativity,
   format "'[v' 'let@'  x  :=  m  'in' '/' k ']'") : py_scope.

Section journal.
(** The libraries: what they make of a payload, and [None] if they raise. *)
Variables (zstd_read xz_decompress lz4_decompress : bytes -> Z -> option bytes).

Definition within (data : bytes) : option bytes := if len data <=? MAX_FIELD_BYTES then Some data else None.
Definition _decompress (payload : bytes) (flags : Z) : option bytes :=
  if has flags _FLAG_ZSTD then zstd_read payload (MAX_FIELD_BYTES + 1) ≫= within
  else if has flags _FLAG_XZ then xz_decompress payload (MAX_FIELD_BYTES + 1) ≫= within
  else if has flags _FLAG_LZ4 then
    if len payload <? 8 then None
    else
      declared ← u_le 8 payload 0;
      if MAX_FIELD_BYTES <? declared then None else lz4_decompress (drop 8 payload) declared
  else None.

Definition __init__ (buffer : bytes) : res _Journal :=
  let size := len buffer in
  if (size <? _MIN_HEADER) || negb (bool_decide (slice 0 8 buffer = SIGNATURE)) then Raise ValueError
  else
    let! flags := unpack 4 buffer _OFF_INCOMPATIBLE_FLAGS in
    let! header_size := unpack 8 buffer _OFF_HEADER_SIZE in
    let! tail_offset := unpack 8 buffer _OFF_TAIL_OBJECT_OFFSET in
    Ok {| buf := buffer; size := size; compact := has flags _INCOMPAT_COMPACT; header_size := header_size;
          tail_offset := tail_offset; _cache := ∅; undecodable_fields := 0 |}.

(** Type, flags and size of the object at [offset]. *)
Definition _object_header (j : _Journal) (offset : Z) : res (option (Z * Z * Z)) :=
  if (offset <? 0) || (size j <? offset + _OBJECT_HEADER_SIZE) then Ok None
  else
    let! otype := unpack 1 (buf j) offset in
    let! flags := unpack 1 (buf j) (offset + 1) in
    let! osize := unpack 8 (buf j) (offset + 8) in
    if (osize <? _OBJECT_HEADER_SIZE) || (size j <? offset + osize) then Ok None
    else Ok (Some (otype, flags, osize)).

Definition name_value (payload : bytes) : option field :=
  match partition payload with
  | Some ((_ :: _) as name, value) => Some (decode_replace name, value)
  | _ => None
  end.

(** The payload of a data object, decompressed if it says so. *)
Definition decoded_field (flags : Z) (payload : bytes) : method (option field) :=
  if has flags (Z.lor _FLAG_XZ (Z.lor _FLAG_LZ4 _FLAG_ZSTD)) then
    match _decompress payload flags with
    | Some decoded => mret (name_value decoded)
    | None => let@ _ := modify (fun j => j <| undecodable_fields := undecodable_fields j + 1 |>) in mret (name_value [])
    end
  else mret (name_value payload).

Definition data_field (offset : Z) : method (option field) :=
  let@ cached := gets (fun j => _cache j !! offset) in
  match cached with
  | Some result => mret result
  | None =>
      let@ j := gets id in
      let@ header := lift (if offset mod 8 =? 0 then _object_header j offset else Ok None) in
      let@ result :=
        match header with
        | Some (otype, flags, osize) =>
            let start := offset + (if compact j then _DATA_PAYLOAD_OFFSET_COMPACT else _DATA_PAYLOAD_OFFSET) in
            if (otype =? _TYPE_DATA) && (start <=? offset + osize) then decoded_field flags (slice start (offset + osize) (buf j))
            else mret None
        | None => mret None
        end in
      let@ _ := modify (fun j => if Z.of_nat (map_size (_cache j)) <? _DATA_CACHE_LIMIT
                                 then j <| _cache := <[offset := result]> (_cache j) |> else j) in
      mret result
  end.

(** The items of an entry, from the one at [at_]. *)
Fixpoint entry_fields (count : nat) (at_ : Z) (fields : list field) : method (list field) :=
  match count with
  | O => mret fields
  | S count =>
      let@ j := gets id in
      let@ target := lift (unpack (if compact j then 4 else 8) (buf j) at_) in
      let@ resolved := data_field target in
      let fields := match resolved with
                    | Some (name, value) => if decide (name ∈ Dict.keys fields) then fields else Dict.set name value fields
                    | None => fields
                    end in
      entry_fields count (at_ + if compact j then 4 else 16) fields
  end.

Definition read_entry (position osize : Z) : method entry :=
  let@ j := gets id in
  let item_size := if compact j then 4 else 16 in
  let@ seqnum := lift (unpack 8 (buf j) (position + 16)) in
  let@ realtime := lift (unpack 8 (buf j) (position + 24)) in
  let@ _ := lift (unpack 8 (buf j) (position + 32)) in
  let@ _ := lift (unpack 8 (buf j) (position + 56)) in
  let boot_id := slice (position + 40) (position + 56) (buf j) in
  let count := (osize - _ENTRY_FIXED) / item_size in
  let@ fields := entry_fields (Z.to_nat (Z.min count MAX_FIELDS_PER_ENTRY)) (position + _ENTRY_FIXED) [] in
  mret {| e_seqnum := seqnum; e_realtime := realtime; e_boot_id := boot_id; e_fields := fields |}.

(** [entries]: from [position], the next position and what is yielded before it;
    [None] when the iteration is over. *)
Definition last_object (j : _Journal) : Z := if tail_offset j =? 0 then size j else Z.min (tail_offset j) (size j).
Definition entries_step (position : Z) : method (option (Z * option entry)) :=
  let@ j := gets id in
  if (position <=? last_object j) && (position + _OBJECT_HEADER_SIZE <=? size j) then
    let@ header := lift (_object_header j position) in
    match header with
    | None => mret None
    | Some (otype, _, osize) =>
        if otype =? 0 then mret None
        else
          let@ found := if (otype =? _TYPE_ENTRY) && (_ENTRY_FIXED <=? osize) then let@ e := read_entry position osize in mret (Some e) else mret None in
          mret (Some (position + round8 osize, found))
    end
  else mret None.
Definition first_position (j : _Journal) : Z := round8 (Z.max (header_size j) _MIN_HEADER).

Record info := { truncated : bool; i_undecodable_fields : Z }.

(** The loop of [read_journal_entries] over the generator; [StructError],
    [ValueError] and [IndexError] end it. *)
Definition read_step (st : _Journal * Z * list entry) : res (_Journal * Z * list entry + list entry * info) :=
  let '(j, position, entries) := st in
  let finish := fun j entries cut => Ok (inr (entries, {| truncated := cut; i_undecodable_fields := undecodable_fields j |})) in
  match entries_step position j with
  | (j, Ok (Some (position, Some e))) =>
      if MAX_ENTRIES <=? len entries then finish j entries true else Ok (inl (j, position, entries ++ [e]))
  | (j, Ok (Some (position, None))) => Ok (inl (j, position, entries))
  | (j, Ok None) => finish j entries false
  | (j, Raise e) =>
      match e with
      | StructError | ValueError | IndexError => finish j entries true
      | _ => Raise e
      end
  | (_, OutOfFuel) => OutOfFuel
  end.
Definition read_journal_entries (buffer : bytes) : res (list entry * info) :=
  match buffer with
  | [] => Ok ([], {| truncated := false; i_undecodable_fields := 0 |})
  | _ =>
      let! j := __init__ buffer in
      while (S (length buffer)) read_step (j, first_position j, [])
  end.
End journal.
End JournalBinary.
