(* ===== verification/JournalRead.v ===== *)
(** The journal reader always ends, without an exception of its own and
    independently of its cache; and reading the objects of a file one by one. *)
From S2P Require Import Prelude PyBase JournalBinary.
Import Str Bytes JournalBinary.

Module JournalRead.

(** * Rounding *)
Lemma round8_eq n : round8 n = (n + 7) / 8 * 8.
Proof.
  unfold round8. rewrite <-Z.ldiff_land. change 7 with (Z.ones 3) at 2. rewrite Z.ldiff_ones_r by lia.
  rewrite Z.shiftl_mul_pow2, Z.shiftr_div_pow2 by lia. done.
Qed.

Lemma round8_bounds n : n <= round8 n < n + 8 /\ round8 n mod 8 = 0.
Proof.
  rewrite round8_eq. pose proof (Z.div_mod (n + 7) 8 ltac:(lia)). pose proof (Z.mod_pos_bound (n + 7) 8 ltac:(lia)).
  split; [lia|]. apply Z.mod_mul. lia.
Qed.

Lemma round8_multiple n : n mod 8 = 0 -> round8 n = n.
Proof. intros Hn. pose proof (round8_bounds n) as [Hb Hm]. pose proof (Z.div_mod n 8 ltac:(lia)). pose proof (Z.div_mod (round8 n) 8 ltac:(lia)). lia. Qed.

Lemma unpack_ok n b off : 0 <= off -> off + Z.of_nat n <= len b -> exists v, unpack n b off = Ok v /\ u_le n b off = Some v.
Proof. intros Ho Hl. destruct (u_le_Some n b off Ho Hl) as [v Hv]. exists v. unfold unpack. by rewrite Hv. Qed.

Section read.
Variables (zstd_read xz_decompress lz4_decompress : bytes -> Z -> option bytes).
Abbreviation data_field := (data_field zstd_read xz_decompress lz4_decompress).
Abbreviation decoded_field := (decoded_field zstd_read xz_decompress lz4_decompress).
Abbreviation entry_fields := (entry_fields zstd_read xz_decompress lz4_decompress).
Abbreviation read_entry := (read_entry zstd_read xz_decompress lz4_decompress).
Abbreviation entries_step := (entries_step zstd_read xz_decompress lz4_decompress).
Abbreviation read_step := (read_step zstd_read xz_decompress lz4_decompress).

(** * What a method depends on *)

(** The object without its cache and its counter. *)
Definition fixed (j : _Journal) : bytes * Z * bool * Z * Z := (buf j, size j, compact j, header_size j, tail_offset j).

Lemma fixed_inv j j' : fixed j' = fixed j ->
  buf j' = buf j /\ size j' = size j /\ compact j' = compact j /\ tail_offset j' = tail_offset j.
Proof. by intros [= -> -> -> _ ->]. Qed.

Lemma object_header_fixed j j' off : fixed j = fixed j' -> _object_header j off = _object_header j' off.
Proof. intros [= Hb Hs _ _ _]. unfold _object_header. by rewrite Hb, Hs. Qed.

Definition sound (j : _Journal) : Prop := wf (buf j) /\ size j = len (buf j).

Lemma object_header_ok j off : sound j ->
  outcome (fun h => match h with Some (_, _, osize) => 0 <= off /\ 16 <= osize /\ off + osize <= size j | None => True end)
    (fun _ => False) (_object_header j off).
Proof.
  intros [Hw Hs]. unfold _object_header. rewrite Hs. destruct (_ || _) eqn:Hg; [done|]. unfold _OBJECT_HEADER_SIZE in *. to_prop.
  destruct (unpack_ok 1 (buf j) off) as (t & -> & _); [lia..|]. destruct (unpack_ok 1 (buf j) (off + 1)) as (f & -> & _); [lia..|].
  destruct (unpack_ok 8 (buf j) (off + 8)) as (n & -> & _); [lia..|]. cbn [mbind result_bind].
  destruct (_ || _) eqn:Hg2; [done|]. to_prop. cbn. lia.
Qed.

Lemma decoded_field_eq flags payload j j' :
  snd (decoded_field flags payload j) = snd (decoded_field flags payload j') /\
  exists r, snd (decoded_field flags payload j) = Ok r /\ fixed (fst (decoded_field flags payload j)) = fixed j /\
    _cache (fst (decoded_field flags payload j)) = _cache j.
Proof.
  unfold JournalBinary.decoded_field. destruct (has _ _); [|naive_solver]. destruct (_decompress _ _ _ _ _); naive_solver.
Qed.

(** What the field at an offset is, without the cache. *)
Definition resolve (j : _Journal) (off : Z) : option field :=
  match snd (data_field off (j <| _cache := ∅ |>)) with Ok r => r | _ => None end.
Definition cache_ok (j : _Journal) : Prop := forall off r, _cache j !! off = Some r -> r = resolve j off.

(** The value that [data_field] finds when the cache has none. *)
Definition uncached (j : _Journal) (off : Z) : method (option field) :=
  let@ header := lift (if off mod 8 =? 0 then _object_header j off else Ok None) in
  match header with
  | Some (otype, flags, osize) =>
      let start := off + (if compact j then _DATA_PAYLOAD_OFFSET_COMPACT else _DATA_PAYLOAD_OFFSET) in
      if (otype =? _TYPE_DATA) && (start <=? off + osize) then decoded_field flags (slice start (off + osize) (buf j)) else mret None
  | None => mret None
  end.

Lemma uncached_ok j j1 off : sound j -> exists r j2, uncached j off j1 = (j2, Ok r) /\ fixed j2 = fixed j1 /\ _cache j2 = _cache j1 /\
  forall j1', snd (uncached j off j1') = Ok r.
Proof.
  intros Hj. unfold uncached, mbind, method_bind, lift.
  destruct (off mod 8 =? 0); [|by eexists _, _].
  pose proof (object_header_ok j off Hj) as Hh. destruct (_object_header j off) as [[[[t f] n]|]| |]; cbn in Hh; [|by eexists _, _|done..].
  cbv zeta. destruct (_ && _); [|by eexists _, _].
  set (payload := slice _ _ _).
  destruct (decoded_field_eq f payload j1 j1) as (_ & r & Hr & Hfix & Hc).
  exists r, (fst (decoded_field f payload j1)). split_and!; [by rewrite <-Hr; destruct (decoded_field f payload j1)|done|done|].
  intros j1'. rewrite <-Hr. symmetry. apply decoded_field_eq.
Qed.

Lemma data_field_unfold j off : data_field off j =
  match _cache j !! off with
  | Some r => (j, Ok r)
  | None =>
      match uncached j off j with
      | (j2, Ok r) => (if Z.of_nat (map_size (_cache j2)) <? _DATA_CACHE_LIMIT then j2 <| _cache := <[off := r]> (_cache j2) |> else j2, Ok r)
      | (j2, Raise e) => (j2, Raise e)
      | (j2, OutOfFuel) => (j2, OutOfFuel)
      end
  end.
Proof.
  unfold JournalBinary.data_field, mbind, method_bind, gets at 1. destruct (_cache j !! off); [done|].
  unfold uncached, gets, modify, lift, mbind, method_bind. cbn [Datatypes.id].
  destruct (if off mod 8 =? 0 then _object_header j off else Ok None) as [[[[t f] n]|]| |]; try done.
Qed.

Lemma uncached_fixed j j' off j1 : fixed j = fixed j' -> uncached j off j1 = uncached j' off j1.
Proof. intros Hf. unfold uncached. rewrite (object_header_fixed j j' off Hf). injection Hf as Hb Hs Hc _ _. by rewrite Hb, Hc. Qed.

Lemma resolve_uncached j off j1 : sound j -> snd (uncached j off j1) = Ok (resolve j off).
Proof.
  intros Hj. unfold resolve. rewrite data_field_unfold. cbn [_cache set_field]. rewrite lookup_empty.
  rewrite (uncached_fixed (j <| _cache := ∅ |>) j) by done. destruct (uncached_ok j (j <| _cache := ∅ |>) off Hj) as (r & j2 & -> & _ & _ & Hall). by rewrite Hall.
Qed.

Lemma resolve_fixed j j' off : sound j -> fixed j = fixed j' -> resolve j off = resolve j' off.
Proof.
  intros Hj Hf. assert (sound j') as Hj' by (unfold sound in *; injection Hf as Hb Hs _ _ _; by rewrite <-Hb, <-Hs).
  pose proof (resolve_uncached j off j Hj) as H1. rewrite (uncached_fixed j j') in H1 by done. rewrite (resolve_uncached j' off j Hj') in H1. congruence.
Qed.

(** [j'] is [j] with more in its cache. *)
Definition went (j j' : _Journal) : Prop := fixed j' = fixed j /\ cache_ok j'.

Lemma data_field_ok j off : sound j -> cache_ok j -> exists j', data_field off j = (j', Ok (resolve j off)) /\ went j j'.
Proof.
  intros Hj Hc. rewrite data_field_unfold. destruct (_cache j !! off) as [r|] eqn:Hr.
  { apply Hc in Hr as ->. by exists j. }
  pose proof (resolve_uncached j off j Hj) as Hres.
  destruct (uncached_ok j j off Hj) as (r & j2 & Hu & Hf & Hc2 & _). rewrite Hu in *. cbn in Hres. injection Hres as ->.
  eexists. split; [done|].
  assert (Hok : cache_ok j2) by (intros o r; rewrite Hc2, <-(resolve_fixed j j2) by done; apply Hc).
  destruct (_ <? _); [|done]. split; [done|]. intros o r'. cbn [_cache set_field].
  rewrite <-(resolve_fixed j (j2 <| _cache := <[off := resolve j off]> (_cache j2) |>)) by done. destruct (decide (o = off)) as [->|Hne].
  - rewrite lookup_insert_eq. by intros [= <-].
  - rewrite lookup_insert_ne by done. rewrite Hc2. apply Hc.
Qed.

(** * The entries as a function of the file *)
Definition item_size (j : _Journal) : Z := if compact j then 4 else 16.
Definition target_width (j : _Journal) : nat := if compact j then 4 else 8.
Definition add_field (fields : list field) (r : option field) : list field :=
  match r with
  | Some (name, value) => if decide (name ∈ Dict.keys fields) then fields else Dict.set name value fields
  | None => fields
  end.
Definition number (n : nat) (j : _Journal) (off : Z) : Z := default 0 (u_le n (buf j) off).

Fixpoint plain_fields (j : _Journal) (count : nat) (at_ : Z) (fields : list field) : list field :=
  match count with
  | O => fields
  | S count => plain_fields j count (at_ + item_size j) (add_field fields (resolve j (number (target_width j) j at_)))
  end.
Definition plain_entry (j : _Journal) (position osize : Z) : entry :=
  {| e_seqnum := number 8 j (position + 16); e_realtime := number 8 j (position + 24);
     e_boot_id := slice (position + 40) (position + 56) (buf j);
     e_fields := plain_fields j (Z.to_nat (Z.min ((osize - _ENTRY_FIXED) / item_size j) MAX_FIELDS_PER_ENTRY))
       (position + _ENTRY_FIXED) [] |}.
Definition plain_step (j : _Journal) (position : Z) : option (Z * option entry) :=
  if (position <=? last_object j) && (position + _OBJECT_HEADER_SIZE <=? size j) then
    match _object_header j position with
    | Ok (Some (otype, _, osize)) =>
        if otype =? 0 then None
        else Some (position + round8 osize, if (otype =? _TYPE_ENTRY) && (_ENTRY_FIXED <=? osize) then Some (plain_entry j position osize) else None)
    | _ => None
    end
  else None.

Lemma went_refl j : cache_ok j -> went j j.
Proof. by split. Qed.
Lemma went_trans j1 j2 j3 : went j1 j2 -> went j2 j3 -> went j1 j3.
Proof. intros [H1 _] [H2 Hc]. split; [congruence|done]. Qed.
Lemma went_sound j j' : went j j' -> sound j -> sound j'.
Proof. intros [[= Hb Hs _ _ _] _]. unfold sound. by rewrite Hb, Hs. Qed.

Lemma number_fixed n j j' off : fixed j' = fixed j -> number n j' off = number n j off.
Proof. intros [= Hb _ _ _ _]. unfold number. by rewrite Hb. Qed.

Lemma plain_fields_fixed j j' count at_ fields : sound j -> fixed j' = fixed j ->
  plain_fields j' count at_ fields = plain_fields j count at_ fields.
Proof.
  intros Hj Hf. revert at_ fields. induction count as [|count IH]; intros at_ fields; [done|]. cbn [plain_fields].
  destruct (fixed_inv j j' Hf) as (_ & _ & Hc & _). unfold item_size, target_width in *.
  rewrite Hc, (number_fixed _ j j'), <-(resolve_fixed j j') by done. apply IH.
Qed.

Lemma plain_entry_fixed j j' position osize : sound j -> fixed j' = fixed j -> plain_entry j' position osize = plain_entry j position osize.
Proof.
  intros Hj Hf. unfold plain_entry. rewrite !(number_fixed _ j j'), (plain_fields_fixed j j') by done.
  destruct (fixed_inv j j' Hf) as (-> & _ & Hc & _). unfold item_size. by rewrite Hc.
Qed.

Lemma plain_step_fixed j j' position : sound j -> fixed j' = fixed j -> plain_step j' position = plain_step j position.
Proof.
  intros Hj Hf. unfold plain_step. rewrite (object_header_fixed j' j) by done.
  destruct (fixed_inv j j' Hf) as (_ & Hs & _ & Ht).
  assert (last_object j' = last_object j) as -> by (unfold last_object; by rewrite Hs, Ht). rewrite Hs. destruct (_ && _); [|done].
  destruct (_object_header j position) as [[[[t f] n]|]| |]; try done. destruct (t =? 0); [done|].
  by rewrite (plain_entry_fixed j j').
Qed.

Lemma run_lift {A B} (r : res A) (f : A -> method B) j a : r = Ok a -> (lift r ≫= f) j = f a j.
Proof. by intros ->. Qed.
Lemma run_gets {A B} (g : _Journal -> A) (f : A -> method B) j : (gets g ≫= f) j = f (g j) j.
Proof. done. Qed.
Lemma run_method {A B} (m : method A) (f : A -> method B) j j' a : m j = (j', Ok a) -> (m ≫= f) j = f a j'.
Proof. intros Hm. unfold mbind, method_bind. by rewrite Hm. Qed.

Lemma number_unpack n j off : sound j -> 0 <= off -> off + Z.of_nat n <= size j -> unpack n (buf j) off = Ok (number n j off).
Proof. intros [_ Hs] Ho Hl. destruct (unpack_ok n (buf j) off) as (v & -> & Hv); [lia|lia|]. unfold number. by rewrite Hv. Qed.

Lemma entry_fields_ok j count at_ fields : sound j -> cache_ok j -> 0 <= at_ -> at_ + Z.of_nat count * item_size j <= size j ->
  exists j', entry_fields count at_ fields j = (j', Ok (plain_fields j count at_ fields)) /\ went j j'.
Proof.
  revert j at_ fields. induction count as [|count IH]; intros j at_ fields Hj Hc Ha Hl; [by exists j|].
  cbn [JournalBinary.entry_fields plain_fields]. rewrite run_gets. cbn [Datatypes.id]. fold (target_width j) (item_size j).
  assert (Z.of_nat (target_width j) <= item_size j /\ 0 < item_size j) as [Hw Hpos]
    by (unfold target_width, item_size; destruct (compact j); lia).
  rewrite (run_lift _ _ _ _ (number_unpack (target_width j) j at_ Hj Ha ltac:(nia))).
  destruct (data_field_ok j (number (target_width j) j at_) Hj Hc) as (j1 & H1 & Hw1). rewrite (run_method _ _ _ _ _ H1).
  fold (add_field fields (resolve j (number (target_width j) j at_))).
  assert (item_size j1 = item_size j) as Hi by (unfold item_size; destruct Hw1 as [[= _ _ -> _ _] _]; done).
  destruct (IH j1 (at_ + item_size j) (add_field fields (resolve j (number (target_width j) j at_)))) as (j2 & H2 & Hw2);
    [by eapply went_sound|apply Hw1|lia|rewrite Hi; destruct Hw1 as [[= _ -> _ _ _] _]; nia|].
  exists j2. split; [|by eapply went_trans]. rewrite (plain_fields_fixed j j1) in H2 by (done || apply Hw1). exact H2.
Qed.

Lemma read_entry_ok j position osize : sound j -> cache_ok j -> 0 <= position -> 64 <= osize -> position + osize <= size j ->
  exists j', read_entry position osize j = (j', Ok (plain_entry j position osize)) /\ went j j'.
Proof.
  intros Hj Hc Hp Ho Hl. unfold JournalBinary.read_entry. rewrite run_gets. cbn [Datatypes.id]. fold (item_size j).
  rewrite (run_lift _ _ _ _ (number_unpack 8 j (position + 16) Hj ltac:(lia) ltac:(lia))).
  rewrite (run_lift _ _ _ _ (number_unpack 8 j (position + 24) Hj ltac:(lia) ltac:(lia))).
  rewrite (run_lift _ _ _ _ (number_unpack 8 j (position + 32) Hj ltac:(lia) ltac:(lia))).
  rewrite (run_lift _ _ _ _ (number_unpack 8 j (position + 56) Hj ltac:(lia) ltac:(lia))).
  assert (0 < item_size j) as Hpos by (unfold item_size; destruct (compact j); lia). unfold _ENTRY_FIXED, MAX_FIELDS_PER_ENTRY.
  pose proof (Z.mul_div_le (osize - 64) (item_size j) Hpos). pose proof (Z.div_pos (osize - 64) (item_size j) ltac:(lia) Hpos).
  destruct (entry_fields_ok j (Z.to_nat (Z.min ((osize - 64) / item_size j) 512)) (position + 64) []) as (j' & H1 & Hw); [done|done|lia|nia|].
  exists j'. split; [|done]. by rewrite (run_method _ _ _ _ _ H1).
Qed.

Lemma entries_step_ok j position : sound j -> cache_ok j -> 0 <= position ->
  exists j', entries_step position j = (j', Ok (plain_step j position)) /\ went j j' /\
    match plain_step j position with Some (next, _) => position + 16 <= next /\ position + 16 <= size j | None => True end.
Proof.
  intros Hj Hc Hp. unfold JournalBinary.entries_step, plain_step. rewrite run_gets. cbn [Datatypes.id].
  destruct (_ && _); [|by exists j]. pose proof (object_header_ok j position Hj) as Hh.
  destruct (_object_header j position) as [[[[t f] n]|]| |] eqn:He; cbn in Hh; [|by exists j|done..].
  rewrite (run_lift _ _ _ _ eq_refl). destruct (t =? 0); [by exists j|]. pose proof (round8_bounds n) as [Hr _].
  destruct (_ && _) eqn:Hg; [|exists j; split; [done|]; split; [done|lia]].
  unfold _ENTRY_FIXED in Hg. to_prop. destruct (read_entry_ok j position n Hj Hc Hp) as (j' & H1 & Hw); [done|lia|].
  exists j'. rewrite (run_method _ _ _ (j') (Some (plain_entry j position n))).
  - split; [done|]. split; [done|lia].
  - by rewrite (run_method _ _ _ _ _ H1).
Qed.

(** All entries from [position]. *)
Fixpoint walk (fuel : nat) (j : _Journal) (position : Z) : list entry :=
  match fuel with
  | O => []
  | S fuel =>
      match plain_step j position with
      | Some (next, Some e) => e :: walk fuel j next
      | Some (next, None) => walk fuel j next
      | None => []
      end
  end.

Lemma walk_fixed fuel j j' position : sound j -> fixed j' = fixed j -> walk fuel j' position = walk fuel j position.
Proof.
  intros Hj Hf. revert position. induction fuel as [|fuel IH]; intros position; [done|]. cbn [walk].
  rewrite (plain_step_fixed j j') by done. destruct (plain_step j position) as [[next [e|]]|]; [by rewrite IH|apply IH|done].
Qed.

(** The entries that are kept, and whether some were not. *)
Definition kept (all : list entry) : list entry := take (Z.to_nat MAX_ENTRIES) all.
Definition cut (all : list entry) : bool := MAX_ENTRIES <? len all.

Lemma kept_more all e rest : len all = MAX_ENTRIES -> kept (all ++ e :: rest) = all /\ cut (all ++ e :: rest) = true.
Proof.
  unfold kept, cut, len. intros Hl. split.
  - rewrite take_app_le by lia. apply take_ge. lia.
  - apply Z.ltb_lt. rewrite length_app. cbn [length]. lia.
Qed.

Lemma kept_all all : len all <= MAX_ENTRIES -> kept all = all /\ cut all = false.
Proof. unfold kept, cut, len. intros Hl. split; [apply take_ge; lia|]. apply Z.ltb_ge. lia. Qed.

Lemma read_loop fuel j position entries : sound j -> cache_ok j -> 0 <= position -> len entries <= MAX_ENTRIES ->
  (Z.to_nat (size j - position) < fuel)%nat ->
  exists n, while fuel read_step (j, position, entries) =
    Ok (kept (entries ++ walk fuel j position), {| truncated := cut (entries ++ walk fuel j position); i_undecodable_fields := n |}).
Proof.
  revert j position entries. induction fuel as [|fuel IH]; intros j position entries Hj Hc Hp He Hf; [lia|].
  rewrite while_unfold. cbn [JournalBinary.read_step walk]. cbv zeta.
  destruct (entries_step_ok j position Hj Hc Hp) as (j' & -> & Hw & Hnext). pose proof Hw as [Hfix Hc'].
  pose proof (went_sound j j' Hw Hj) as Hj'. destruct (fixed_inv j j' Hfix) as (_ & Hs & _ & _).
  destruct (plain_step j position) as [[next [e|]]|].
  - destruct (Z.leb_spec MAX_ENTRIES (len entries)) as [Hm|Hm].
    + eexists. destruct (kept_more entries e (walk fuel j next)) as [-> ->]; [lia|]. done.
    + destruct (IH j' next (entries ++ [e])) as [n Hn]; [done|done|lia|unfold len in *; rewrite length_app; cbn; lia|lia|].
      exists n. rewrite Hn, (walk_fixed fuel j j') by done. by rewrite <-app_assoc.
  - destruct (IH j' next entries) as [n Hn]; [done|done|lia|done|lia|]. exists n. by rewrite Hn, (walk_fixed fuel j j').
  - eexists. rewrite app_nil_r. destruct (kept_all entries He) as [-> ->]. done.
Qed.

Abbreviation read_journal_entries := (read_journal_entries zstd_read xz_decompress lz4_decompress).

(** The object that a file is opened as. *)
Definition opened (buffer : bytes) : _Journal :=
  let number := fun n off => default 0 (u_le n buffer off) in
  {| buf := buffer; size := len buffer; compact := has (number 4%nat _OFF_INCOMPATIBLE_FLAGS) _INCOMPAT_COMPACT;
     header_size := number 8%nat _OFF_HEADER_SIZE; tail_offset := number 8%nat _OFF_TAIL_OBJECT_OFFSET; _cache := ∅; undecodable_fields := 0 |}.
Definition is_journal (buffer : bytes) : Prop := _MIN_HEADER <= len buffer /\ slice 0 8 buffer = SIGNATURE.

Lemma init_ok buffer : is_journal buffer -> __init__ buffer = Ok (opened buffer).
Proof.
  intros [Hl Hs]. unfold __init__, opened, _MIN_HEADER in *. destruct (Z.ltb_spec (len buffer) 144); [lia|].
  rewrite bool_decide_true by done. cbn [negb orb]. unfold _OFF_INCOMPATIBLE_FLAGS, _OFF_HEADER_SIZE, _OFF_TAIL_OBJECT_OFFSET.
  destruct (unpack_ok 4 buffer 12) as (v1 & -> & ->); [lia..|]. destruct (unpack_ok 8 buffer 88) as (v2 & -> & ->); [lia..|].
  by destruct (unpack_ok 8 buffer 136) as (v3 & -> & ->); [lia..|].
Qed.

Lemma init_bad buffer : ~ is_journal buffer -> __init__ buffer = Raise ValueError.
Proof.
  unfold is_journal, __init__. intros Hn. destruct (Z.ltb_spec (len buffer) _MIN_HEADER); [done|].
  cbn [orb]. destruct (bool_decide_reflect (slice 0 8 buffer = SIGNATURE)); [|done]. by destruct Hn.
Qed.

Lemma opened_sound buffer : wf buffer -> sound (opened buffer).
Proof. by split. Qed.

(** The entries of a file. *)
Definition entries_of (buffer : bytes) : list entry :=
  walk (S (length buffer)) (opened buffer) (first_position (opened buffer)).

Lemma first_position_ge j : 144 <= first_position j.
Proof. unfold first_position, _MIN_HEADER. pose proof (round8_bounds (Z.max (header_size j) 144)). lia. Qed.

Lemma read_entries_of buffer : wf buffer -> is_journal buffer ->
  exists n, read_journal_entries buffer = Ok (kept (entries_of buffer), {| truncated := cut (entries_of buffer); i_undecodable_fields := n |}).
Proof.
  intros Hw Hi. unfold JournalBinary.read_journal_entries. destruct buffer as [|c buffer]; [by destruct Hi as [? _]|].
  rewrite init_ok by done. cbn [mbind result_bind]. pose proof (first_position_ge (opened (c :: buffer))).
  apply read_loop; [by apply opened_sound|by intros o r Hr; destruct (lookup_empty_Some (M := gmap Z) o r Hr)|lia|done|].
  unfold opened at 1. cbn [size]. unfold len. lia.
Qed.

End read.
End JournalRead.
