(* ===== verification/JournalLayout.v ===== *)
(** A journal file as it is written: a header and objects on eight-byte
    boundaries.  What is laid out is read back. *)
From S2P Require Import Prelude PyBase JournalBinary JournalRead.
Import Str Bytes JournalBinary JournalRead.

Module JournalLayout.

(** * Objects *)
Inductive object : Type :=
  | DataObject (flags : Z) (hashes payload : bytes)
  | EntryObject (seqnum realtime monotonic : Z) (boot_id : bytes) (xor_hash : Z) (items : list (Z * Z))
  | OtherObject (otype flags : Z) (body : bytes).

Definition encode_item (c : bool) (item : Z * Z) : bytes :=
  if c then le_enc 4 (fst item) else le_enc 8 (fst item) ++ le_enc 8 (snd item).
Definition otype_of (o : object) : Z :=
  match o with DataObject _ _ _ => _TYPE_DATA | EntryObject _ _ _ _ _ _ => _TYPE_ENTRY | OtherObject t _ _ => t end.
Definition flags_of (o : object) : Z :=
  match o with DataObject f _ _ => f | EntryObject _ _ _ _ _ _ => 0 | OtherObject _ f _ => f end.
Definition body_of (c : bool) (o : object) : bytes :=
  match o with
  | DataObject _ hashes payload => hashes ++ payload
  | EntryObject seqnum realtime monotonic boot_id xor_hash items =>
      le_enc 8 seqnum ++ le_enc 8 realtime ++ le_enc 8 monotonic ++ boot_id ++ le_enc 8 xor_hash ++ flat_map (encode_item c) items
  | OtherObject _ _ body => body
  end.
Definition osize_of (c : bool) (o : object) : Z := 16 + len (body_of c o).
Definition encode (c : bool) (o : object) : bytes :=
  ([otype_of o; flags_of o] ++ repeat 0 6) ++ le_enc 8 (osize_of c o) ++ body_of c o.
Definition padded (c : bool) (o : object) : bytes :=
  encode c o ++ repeat 0 (Z.to_nat (round8 (osize_of c o) - osize_of c o)).

Definition is_u64 (n : Z) : Prop := 0 <= n < 2 ^ 64.
Definition ok_object (c : bool) (o : object) : Prop :=
  wf (body_of c o) /\ is_u64 (osize_of c o) /\ is_byte (otype_of o) /\ is_byte (flags_of o) /\
  match o with
  | DataObject _ hashes _ => len hashes = if c then 56 else 48
  | EntryObject seqnum realtime monotonic boot_id xor_hash items =>
      is_u64 seqnum /\ is_u64 realtime /\ len boot_id = 16 /\ len items <= MAX_FIELDS_PER_ENTRY /\
      Forall (fun item => 0 <= fst item < if c then 2 ^ 32 else 2 ^ 64) items
  | OtherObject t _ _ => t <> 0 /\ t <> _TYPE_DATA /\ t <> _TYPE_ENTRY
  end.

(** The objects with the offsets at which they lie. *)
Fixpoint placed (c : bool) (base : Z) (objects : list object) : list (Z * object) :=
  match objects with
  | [] => []
  | o :: objects => (base, o) :: placed c (base + round8 (osize_of c o)) objects
  end.
Definition area (c : bool) (objects : list object) : bytes := concat (map (padded c) objects).

Lemma encode_length c o : len (encode c o) = osize_of c o.
Proof. unfold encode, osize_of, len. rewrite !length_app, le_enc_length. cbn [length repeat]. lia. Qed.

Lemma padded_length c o : len (padded c o) = round8 (osize_of c o).
Proof.
  unfold padded. pose proof (round8_bounds (osize_of c o)). unfold len. rewrite length_app, repeat_length.
  pose proof (encode_length c o). unfold len in *. lia.
Qed.

(** * Reading at an offset *)
Lemma u_le_shift n p d off : 0 <= off -> u_le n (p ++ d) (len p + off) = u_le n d off.
Proof.
  intros Ho. unfold u_le. rewrite slice_app_r by lia. replace (len p + off - len p) with off by lia.
  by replace (len p + off + Z.of_nat n - len p) with (off + Z.of_nat n) by lia.
Qed.

Lemma u_le_prefix n d s off : 0 <= off -> off + Z.of_nat n <= len d -> u_le n (d ++ s) off = u_le n d off.
Proof. intros Ho Hl. unfold u_le. by rewrite slice_app_l by lia. Qed.

Lemma slice_shift {A} (p d : list A) a b : 0 <= a -> slice (len p + a) (len p + b) (p ++ d) = slice a b d.
Proof. intros Ha. rewrite slice_app_r by lia. f_equal; lia. Qed.

(** What is at the front of a list, or after [n] elements. *)
Lemma u_le_front n v s : 0 <= v < 256 ^ Z.of_nat n -> u_le n (le_enc n v ++ s) 0 = Some v.
Proof. intros Hv. rewrite <-(app_nil_l (le_enc n v ++ s)), (u_le_app n [] (le_enc n v) s 0); [by rewrite le_val_enc|apply le_enc_length|done]. Qed.

Lemma u_le_skip n p d off : len p <= off -> u_le n (p ++ d) off = u_le n d (off - len p).
Proof. intros Ho. rewrite <-(u_le_shift n p d) by lia. f_equal. lia. Qed.

Section layout.
Variables (zstd_read xz_decompress lz4_decompress : bytes -> Z -> option bytes).
Variable c : bool.
Abbreviation resolve := (resolve zstd_read xz_decompress lz4_decompress).

(** The field that a data object holds. *)
Definition field_of (o : object) : option field :=
  match o with
  | DataObject flags _ payload =>
      if has flags (Z.lor _FLAG_XZ (Z.lor _FLAG_LZ4 _FLAG_ZSTD)) then
        match _decompress zstd_read xz_decompress lz4_decompress payload flags with
        | Some decoded => name_value decoded
        | None => None
        end
      else name_value payload
  | _ => None
  end.

(** The object lies in the file at [off]. *)
Definition lies (j : _Journal) (off : Z) (o : object) : Prop :=
  exists pre post, buf j = pre ++ padded c o ++ post /\ len pre = off.

Lemma lies_u_le n j off o k : lies j off o -> 0 <= k -> k + Z.of_nat n <= osize_of c o -> u_le n (buf j) (off + k) = u_le n (encode c o) k.
Proof.
  intros (pre & post & -> & <-) Hk Hn. rewrite u_le_shift by done. unfold padded. rewrite <-app_assoc.
  apply u_le_prefix; [done|]. by rewrite encode_length.
Qed.

Lemma lies_slice j off o a b : lies j off o -> 0 <= a <= b -> b <= osize_of c o -> slice (off + a) (off + b) (buf j) = slice a b (encode c o).
Proof.
  intros (pre & post & -> & <-) Ha Hb. rewrite slice_shift by lia. unfold padded. rewrite <-app_assoc.
  apply slice_app_l; [done|]. by rewrite encode_length.
Qed.

Lemma lies_bound j off o : sound j -> lies j off o -> 0 <= off /\ off + osize_of c o <= size j.
Proof.
  intros [_ ->] (pre & post & Hb & <-). apply (f_equal len) in Hb. pose proof (padded_length c o) as Hp.
  pose proof (round8_bounds (osize_of c o)). unfold len in *. rewrite !length_app in Hb. lia.
Qed.

Lemma header_at j off o : sound j -> lies j off o -> ok_object c o ->
  _object_header j off = Ok (Some (otype_of o, flags_of o, osize_of c o)).
Proof.
  intros Hj Hl (_ & Hs & Ht & Hf & _). pose proof (lies_bound j off o Hj Hl) as [H0 H1].
  assert (16 <= osize_of c o) by (unfold osize_of, len; lia).
  unfold _object_header, _OBJECT_HEADER_SIZE. destruct (Z.ltb_spec off 0); [lia|]. destruct (Z.ltb_spec (size j) (off + 16)); [lia|].
  cbn [orb]. unfold unpack. rewrite <-(Z.add_0_r off) at 1.
  rewrite !(lies_u_le _ j off o) by (done || lia).
  assert (u_le 1 (encode c o) 0 = Some (otype_of o)) as ->.
  { transitivity (Some (le_val [otype_of o])); [done|]. cbn [le_val]. f_equal. lia. }
  assert (u_le 1 (encode c o) 1 = Some (flags_of o)) as ->.
  { transitivity (Some (le_val [flags_of o])); [done|]. cbn [le_val]. f_equal. lia. }
  assert (u_le 8 (encode c o) 8 = Some (osize_of c o)) as ->.
  { unfold encode. rewrite u_le_skip by done. change (8 - _) with 0. apply u_le_front. exact Hs. }
  cbn [of_option mbind result_bind]. destruct (Z.ltb_spec (osize_of c o) 16); [lia|]. by destruct (Z.ltb_spec (size j) (off + osize_of c o)); [lia|].
Qed.

Lemma data_payload flags hashes payload : len hashes = (if c then 56 else 48) ->
  slice (if c then _DATA_PAYLOAD_OFFSET_COMPACT else _DATA_PAYLOAD_OFFSET) (osize_of c (DataObject flags hashes payload))
    (encode c (DataObject flags hashes payload)) = payload.
Proof.
  intros Hh. unfold encode, body_of, osize_of. cbn [body_of otype_of flags_of].
  set (front := _ ++ repeat 0 6). set (sz := le_enc 8 _).
  assert (front ++ sz ++ hashes ++ payload = (front ++ sz ++ hashes) ++ payload ++ []) as -> by (by rewrite app_nil_r, <-!app_assoc).
  assert (len (front ++ sz ++ hashes) = if c then 72 else 64) as Hl.
  { unfold sz, len in *. rewrite !length_app, le_enc_length. change (length front) with 8%nat. destruct c; lia. }
  apply slice_app.
  - rewrite Hl. by destruct c.
  - rewrite Hl. unfold len in *. rewrite length_app. destruct c; lia.
Qed.

Lemma resolve_at j off o : sound j -> compact j = c -> lies j off o -> ok_object c o -> off mod 8 = 0 -> resolve j off = field_of o.
Proof.
  intros Hj Hcj Hl Ho Hoff. pose proof (resolve_uncached zstd_read xz_decompress lz4_decompress j off j Hj) as Hr.
  unfold uncached in Hr. rewrite Hoff in Hr. cbn [Z.eqb] in Hr. rewrite (run_lift _ _ _ _ (header_at j off o Hj Hl Ho)) in Hr.
  cbv zeta in Hr. rewrite Hcj in Hr. destruct Ho as (_ & _ & _ & _ & Ho).
  destruct o as [flags hashes payload|seqnum realtime monotonic boot_id xor_hash items|t f body].
  - cbn [otype_of flags_of] in Hr. rewrite Z.eqb_refl in Hr. cbn [andb] in Hr.
    set (o := DataObject flags hashes payload) in *.
    assert ((if c then _DATA_PAYLOAD_OFFSET_COMPACT else _DATA_PAYLOAD_OFFSET) <= osize_of c o) as Hle.
    { unfold osize_of, o, body_of, _DATA_PAYLOAD_OFFSET_COMPACT, _DATA_PAYLOAD_OFFSET, len in *. rewrite length_app. destruct c; lia. }
    destruct (Z.leb_spec (off + if c then _DATA_PAYLOAD_OFFSET_COMPACT else _DATA_PAYLOAD_OFFSET) (off + osize_of c o)); [|lia].
    rewrite (lies_slice j off o) in Hr by (done || (by destruct c)). unfold o in Hr. rewrite data_payload in Hr by done.
    unfold decoded_field in Hr. unfold field_of, o. destruct (has _ _); [|by injection Hr].
    destruct (_decompress _ _ _ _ _); by injection Hr.
  - by injection Hr.
  - cbn [otype_of] in Hr. destruct Ho as (_ & Ho & _). apply Z.eqb_neq in Ho. rewrite Ho in Hr. by injection Hr.
Qed.

(** ** Entries *)
Definition lookup_field (objects : list (Z * object)) (target : Z) : option field :=
  match find (fun x => fst x =? target) objects with Some (_, o) => field_of o | None => None end.
Definition fields_of (objects : list (Z * object)) (items : list (Z * Z)) : list field :=
  fold_left (fun fields item => add_field fields (lookup_field objects (fst item))) items [].
Definition entry_of (objects : list (Z * object)) (o : object) : option entry :=
  match o with
  | EntryObject seqnum realtime _ boot_id _ items =>
      Some {| e_seqnum := seqnum; e_realtime := realtime; e_boot_id := boot_id; e_fields := fields_of objects items |}
  | _ => None
  end.

Lemma encode_item_target j (Hcj : compact j = c) item s : 0 <= fst item < (if c then 2 ^ 32 else 2 ^ 64) ->
  u_le (target_width j) (encode_item c item ++ s) 0 = Some (fst item) /\ len (encode_item c item) = item_size j.
Proof.
  unfold target_width, item_size, encode_item. rewrite Hcj. intros Hi. destruct c.
  - split; [by apply u_le_front|]. unfold len. by rewrite le_enc_length.
  - rewrite <-app_assoc. split; [by apply u_le_front|]. unfold len. by rewrite length_app, !le_enc_length.
Qed.

Lemma plain_fields_items j objects items fields pre post : compact j = c ->
  buf j = pre ++ flat_map (encode_item c) items ++ post ->
  Forall (fun item => 0 <= fst item < if c then 2 ^ 32 else 2 ^ 64) items ->
  Forall (fun item => resolve j (fst item) = lookup_field objects (fst item)) items ->
  plain_fields zstd_read xz_decompress lz4_decompress j (length items) (len pre) fields =
  fold_left (fun fields item => add_field fields (lookup_field objects (fst item))) items fields.
Proof.
  intros Hcj. revert pre fields. induction items as [|item items IH]; intros pre fields Hb Hi Hr; [done|].
  apply Forall_cons in Hi as [Hit Hi]. apply Forall_cons in Hr as [Hrt Hr].
  cbn [length plain_fields fold_left]. destruct (encode_item_target j Hcj item (flat_map (encode_item c) items ++ post) Hit) as [Hu Hl].
  cbn [flat_map] in Hb. rewrite <-app_assoc in Hb.
  assert (number (target_width j) j (len pre) = fst item) as ->.
  { unfold number. rewrite Hb. rewrite u_le_skip by done. by rewrite Z.sub_diag, Hu. }
  rewrite Hrt. replace (len pre + item_size j) with (len (pre ++ encode_item c item)).
  - apply IH; [by rewrite Hb, <-app_assoc|done|done].
  - unfold len in *. rewrite length_app. lia.
Qed.

Lemma items_length items : len (flat_map (encode_item c) items) = len items * (if c then 4 else 16).
Proof.
  induction items as [|item items IH]; [done|]. cbn [flat_map]. unfold len in *. rewrite length_app. cbn [length].
  assert (length (encode_item c item) = if c then 4 else 16)%nat as ->
    by (unfold encode_item; destruct c; by rewrite ?length_app, !le_enc_length).
  destruct c; lia.
Qed.

Lemma entry_body_length seqnum realtime monotonic boot_id xor_hash items : len boot_id = 16 ->
  osize_of c (EntryObject seqnum realtime monotonic boot_id xor_hash items) = 64 + len items * (if c then 4 else 16).
Proof.
  intros Hb. unfold osize_of, body_of. pose proof (items_length items). unfold len in *.
  rewrite !length_app, !le_enc_length. lia.
Qed.

(** A number in an entry, after a front of known length. *)
Lemma number_at j off o k front v back : lies j off o -> encode c o = front ++ le_enc 8 v ++ back -> len front = k -> is_u64 v ->
  number 8 j (off + k) = v.
Proof.
  intros Hl He Hk Hv. unfold number.
  assert (0 <= k) by (unfold len in Hk; lia).
  assert (k + 8 <= osize_of c o) by (rewrite <-encode_length, He; unfold len in *; rewrite !length_app, le_enc_length; lia).
  rewrite (lies_u_le 8 j off o k) by (done || lia). rewrite He, u_le_skip by lia. by rewrite Hk, Z.sub_diag, u_le_front.
Qed.

Lemma entry_at objects j off seqnum realtime monotonic boot_id xor_hash items (o := EntryObject seqnum realtime monotonic boot_id xor_hash items) :
  sound j -> compact j = c -> lies j off o -> ok_object c o ->
  Forall (fun item => resolve j (fst item) = lookup_field objects (fst item)) items ->
  Some (plain_entry zstd_read xz_decompress lz4_decompress j off (osize_of c o)) = entry_of objects o.
Proof.
  intros Hj Hcj Hl Ho Hr. pose proof Ho as (_ & _ & _ & _ & Hs & Ht & Hb & Hn & Hi). cbn [entry_of o]. unfold plain_entry. f_equal.
  set (front := [otype_of o; flags_of o] ++ repeat 0 6). set (sz := le_enc 8 (osize_of c o)).
  assert (Henc : encode c o = front ++ sz ++ le_enc 8 seqnum ++ le_enc 8 realtime ++ le_enc 8 monotonic ++ boot_id ++ le_enc 8 xor_hash
    ++ flat_map (encode_item c) items) by done.
  assert (Hlen : forall l1 l2 : bytes, len (l1 ++ l2) = len l1 + len l2) by (intros; unfold len; rewrite length_app; lia).
  assert (H8 : forall v, len (le_enc 8 v) = 8) by (intros; unfold len; by rewrite le_enc_length).
  assert (len front = 8) as Hfront by done. assert (len sz = 8) as Hsz by apply H8.
  f_equal.
  - eapply (number_at j off o 16 (front ++ sz) seqnum); [done|rewrite Henc; by rewrite <-!app_assoc|rewrite Hlen; lia|done].
  - eapply (number_at j off o 24 (front ++ sz ++ le_enc 8 seqnum) realtime);
      [done|rewrite Henc; by rewrite <-!app_assoc|rewrite !Hlen, H8; lia|done].
  - rewrite (lies_slice j off o) by (done || (unfold o; rewrite entry_body_length by done; unfold len in *; destruct c; lia)).
    rewrite Henc. transitivity (slice 40 56 ((front ++ sz ++ le_enc 8 seqnum ++ le_enc 8 realtime ++ le_enc 8 monotonic) ++ boot_id ++
      (le_enc 8 xor_hash ++ flat_map (encode_item c) items))); [by rewrite <-!app_assoc|].
    apply slice_app; rewrite !Hlen, !H8; lia.
  - destruct Hl as (pre & post & Hbuf & <-). unfold padded in Hbuf. rewrite Henc in Hbuf.
    set (fixed_part := pre ++ front ++ sz ++ le_enc 8 seqnum ++ le_enc 8 realtime ++ le_enc 8 monotonic ++ boot_id ++ le_enc 8 xor_hash).
    assert (len pre + _ENTRY_FIXED = len fixed_part) as -> by (unfold fixed_part, _ENTRY_FIXED; rewrite !Hlen, !H8; lia).
    assert (Z.to_nat (Z.min ((osize_of c o - _ENTRY_FIXED) / item_size j) MAX_FIELDS_PER_ENTRY) = length items) as ->.
    { unfold o, item_size. rewrite entry_body_length, Hcj by done. unfold _ENTRY_FIXED.
      replace (64 + len items * (if c then 4 else 16) - 64) with (len items * (if c then 4 else 16)) by lia.
      rewrite Z.div_mul by (by destruct c). rewrite Z.min_l by done. unfold len. lia. }
    unfold fields_of. eapply plain_fields_items; [done| |done|done].
    rewrite Hbuf. unfold fixed_part. by rewrite <-!app_assoc.
Qed.

(** ** The walk *)
Abbreviation plain_step := (plain_step zstd_read xz_decompress lz4_decompress).
Abbreviation walk := (walk zstd_read xz_decompress lz4_decompress).

Definition resolved (objects : list (Z * object)) (j : _Journal) (o : object) : Prop :=
  match o with
  | EntryObject _ _ _ _ _ items => Forall (fun item => resolve j (fst item) = lookup_field objects (fst item)) items
  | _ => True
  end.

Lemma step_at objects j off o : sound j -> compact j = c -> lies j off o -> ok_object c o -> resolved objects j o -> off <= last_object j ->
  plain_step j off = Some (off + round8 (osize_of c o), entry_of objects o).
Proof.
  intros Hj Hcj Hl Ho Hr Hlast. pose proof (lies_bound j off o Hj Hl) as [H0 H1].
  assert (16 <= osize_of c o) by (unfold osize_of, len; lia).
  unfold JournalRead.plain_step, _OBJECT_HEADER_SIZE. destruct (Z.leb_spec off (last_object j)); [|lia].
  destruct (Z.leb_spec (off + 16) (size j)); [|lia]. cbn [andb]. rewrite (header_at j off o Hj Hl Ho).
  destruct o as [flags hashes payload|seqnum realtime monotonic boot_id xor_hash items|t f body].
  - done.
  - cbn [otype_of]. change (_TYPE_ENTRY =? 0) with false. rewrite Z.eqb_refl. cbn [andb].
    destruct (Z.leb_spec _ENTRY_FIXED (osize_of c (EntryObject seqnum realtime monotonic boot_id xor_hash items))) as [|Hlt].
    + by rewrite (entry_at objects).
    + exfalso. unfold _ENTRY_FIXED in Hlt. destruct Ho as (_ & _ & _ & _ & _ & _ & Hb & _). rewrite entry_body_length in Hlt by done.
      unfold len in Hlt. destruct c; lia.
  - cbn [otype_of]. destruct Ho as (_ & _ & _ & _ & Ht0 & _ & Ht3). apply Z.eqb_neq in Ht0, Ht3. by rewrite Ht0, Ht3.
Qed.

Lemma walk_area all j objects pre rest fuel : sound j -> compact j = c -> buf j = pre ++ area c objects ++ rest ->
  Forall (ok_object c) objects -> Forall (resolved all j) objects ->
  Forall (fun x => fst x <= last_object j) (placed c (len pre) objects) ->
  plain_step j (len pre + len (area c objects)) = None -> (length objects < fuel)%nat ->
  walk fuel j (len pre) = omap (entry_of all) objects.
Proof.
  intros Hj Hcj. revert pre fuel. induction objects as [|o objects IH]; intros pre fuel Hb Ho Hr Hp Hend Hf.
  { destruct fuel; [lia|]. cbn in *. rewrite Z.add_0_r in Hend. by rewrite Hend. }
  destruct fuel as [|fuel]; [cbn in Hf; lia|]. apply Forall_cons in Ho as [Ho Hos]. apply Forall_cons in Hr as [Hr Hrs].
  cbn [placed] in Hp. apply Forall_cons in Hp as [Hp Hps]. cbn [fst] in Hp.
  assert (buf j = pre ++ padded c o ++ area c objects ++ rest) as Hb' by (rewrite Hb; unfold area; cbn [map concat]; by rewrite <-app_assoc).
  cbn [walk]. rewrite (step_at all j (len pre) o) by (done || by exists pre, (area c objects ++ rest)).
  assert (len pre + round8 (osize_of c o) = len (pre ++ padded c o)) as Heq by (rewrite <-padded_length; unfold len; rewrite length_app; lia).
  rewrite Heq in *. cbn [omap list_omap]. rewrite (IH (pre ++ padded c o) fuel); [by destruct (entry_of all o)| |done|done|done| |cbn in Hf; lia].
  - by rewrite Hb', <-app_assoc.
  - rewrite <-Hend. f_equal. unfold area, len. cbn [map concat]. rewrite !length_app. lia.
Qed.

(** ** A file *)
Record journal_header (header : bytes) (tail : Z) : Prop := {
  jh_signature : slice 0 8 header = SIGNATURE;
  jh_length : 144 <= len header /\ len header mod 8 = 0;
  jh_flags : exists flags, u_le 4 header 12 = Some flags /\ has flags _INCOMPAT_COMPACT = c;
  jh_size : u_le 8 header 88 = Some (len header);
  jh_tail : u_le 8 header 136 = Some tail }.

(** No object can start with [rest]: the file ends, or is zero or damaged from
    here on. *)
Definition damaged (rest : bytes) : Prop :=
  len rest < 16 \/ u_le 1 rest 0 = Some 0 \/ exists n, u_le 8 rest 8 = Some n /\ (n < 16 \/ len rest < n).

Record laid_out (header : bytes) (objects : list object) (rest : bytes) (tail : Z) : Prop := {
  lo_header : journal_header header tail;
  lo_objects : Forall (ok_object c) objects;
  lo_items : Forall (fun o => match o with
    | EntryObject _ _ _ _ _ items => Forall (fun item => fst item ∈ map fst (placed c (len header) objects)) items
    | _ => True end) objects;
  lo_tail : tail = 0 \/ Forall (fun x => fst x <= tail) (placed c (len header) objects);
  lo_rest : (tail <> 0 /\ tail < len header + len (area c objects)) \/ damaged rest }.

Lemma placed_lies j objects pre rest x : buf j = pre ++ area c objects ++ rest -> x ∈ placed c (len pre) objects -> lies j (fst x) (snd x).
Proof.
  revert pre. induction objects as [|o objects IH]; intros pre Hb Hx; [by apply elem_of_nil in Hx|].
  assert (buf j = pre ++ padded c o ++ area c objects ++ rest) as Hb' by (rewrite Hb; unfold area; cbn [map concat]; by rewrite <-app_assoc).
  cbn [placed] in Hx. apply elem_of_cons in Hx as [->|Hx]; [by exists pre, (area c objects ++ rest)|].
  apply (IH (pre ++ padded c o)); [by rewrite Hb', <-app_assoc|].
  replace (len (pre ++ padded c o)) with (len pre + round8 (osize_of c o)); [done|].
  rewrite <-padded_length. unfold len. rewrite length_app. lia.
Qed.

Lemma placed_spec base objects x : x ∈ placed c base objects -> snd x ∈ objects /\ base <= fst x /\ (base mod 8 = 0 -> fst x mod 8 = 0).
Proof.
  revert base. induction objects as [|o objects IH]; intros base Hx; [by apply elem_of_nil in Hx|].
  cbn [placed] in Hx. apply elem_of_cons in Hx as [->|Hx]; [split_and!; [by left|cbn; lia|done]|].
  destruct (IH _ Hx) as (H1 & H2 & H3). pose proof (round8_bounds (osize_of c o)) as [Hb Hm].
  assert (0 <= osize_of c o) by (unfold osize_of, len; lia).
  split_and!; [by right|lia|]. intros Hb0. apply H3. rewrite Z.add_mod, Hb0, Hm by lia. done.
Qed.

(** The object that is found at an offset is the one that lies there. *)
Lemma lookup_field_at j objects pre rest target : sound j -> compact j = c -> buf j = pre ++ area c objects ++ rest -> len pre mod 8 = 0 ->
  Forall (ok_object c) objects -> target ∈ map fst (placed c (len pre) objects) ->
  resolve j target = lookup_field (placed c (len pre) objects) target.
Proof.
  intros Hj Hcj Hb Hm Ho Ht. unfold lookup_field.
  destruct (find (fun x => fst x =? target) (placed c (len pre) objects)) as [[off o]|] eqn:Hfind.
  - apply find_some in Hfind as [Hin Heq]. apply list_elem_of_In in Hin. cbn in Heq. to_prop. subst off.
    destruct (placed_spec _ _ _ Hin) as (Hino & _ & Hmod). cbn [fst snd] in *.
    apply resolve_at; [done|done|by apply (placed_lies j objects pre rest (target, o))| |by apply Hmod].
    by apply (Forall_forall (ok_object c) objects).
  - apply list_elem_of_fmap in Ht as (x & -> & Hx). apply find_none with (x := x) in Hfind; [|by apply list_elem_of_In].
    by rewrite Z.eqb_refl in Hfind.
Qed.

Lemma damaged_stops j pre rest : sound j -> buf j = pre ++ rest -> damaged rest -> plain_step j (len pre) = None.
Proof.
  intros Hj Hb Hd. pose proof Hj as [Hw Hs]. unfold JournalRead.plain_step, _OBJECT_HEADER_SIZE.
  assert (size j = len pre + len rest) as Hsz by (rewrite Hs, Hb; unfold len; rewrite length_app; lia).
  destruct (_ && _) eqn:Hg; [|done]. to_prop. unfold _object_header, _OBJECT_HEADER_SIZE.
  destruct (Z.ltb_spec (len pre) 0); [unfold len in *; lia|]. destruct (Z.ltb_spec (size j) (len pre + 16)); [lia|]. cbn [orb].
  assert (forall n off, 0 <= off -> off + Z.of_nat n <= 16 -> unpack n (buf j) (len pre + off) = of_option StructError (u_le n rest off)) as Hun
    by (intros n off Hoff _; unfold unpack; by rewrite Hb, u_le_shift).
  rewrite <-(Z.add_0_r (len pre)) at 1. rewrite !Hun by lia.
  destruct (u_le_Some 1 rest 0) as [t Ht]; [lia|lia|]. destruct (u_le_Some 1 rest 1) as [f Hf]; [lia|lia|].
  destruct (u_le_Some 8 rest 8) as [n Hn]; [lia|lia|]. rewrite Ht, Hf, Hn. cbn [of_option mbind result_bind].
  destruct Hd as [Hd|[Hd|(n' & Hn' & Hd)]]; [lia| |].
  - destruct (_ || _); [done|]. assert (t = 0) as -> by congruence. done.
  - assert (n' = n) as -> by congruence. destruct (Z.ltb_spec n 16); [done|]. cbn [orb].
    destruct (Z.ltb_spec (size j) (len pre + n)); [done|]. lia.
Qed.

Lemma header_opened header objects rest tail (buffer := header ++ area c objects ++ rest) : journal_header header tail ->
  is_journal buffer /\ compact (opened buffer) = c /\ first_position (opened buffer) = len header /\ tail_offset (opened buffer) = tail.
Proof.
  intros [Hsig [Hl Hm] (flags & Hf & Hc) Hs Ht]. unfold opened, first_position, is_journal, _MIN_HEADER. cbn [compact header_size tail_offset].
  unfold _OFF_INCOMPATIBLE_FLAGS, _OFF_HEADER_SIZE, _OFF_TAIL_OBJECT_OFFSET, buffer. rewrite !u_le_prefix by lia. rewrite Hf, Hs, Ht. cbn [default from_option Datatypes.id].
  split_and!; [|by rewrite slice_app_l by lia|done|rewrite Z.max_l by lia; by apply round8_multiple|done].
  unfold len in *. rewrite length_app. lia.
Qed.

Lemma entries_laid_out header objects rest tail : laid_out header objects rest tail -> wf (header ++ area c objects ++ rest) ->
  entries_of zstd_read xz_decompress lz4_decompress (header ++ area c objects ++ rest) =
  omap (entry_of (placed c (len header) objects)) objects.
Proof.
  intros [Hh Ho Hi Ht Hr] Hw. set (buffer := header ++ area c objects ++ rest) in *.
  destruct (header_opened header objects rest tail Hh) as (Hj & Hc & Hp & Htail). fold buffer in Hj, Hc, Hp, Htail.
  set (j := opened buffer) in *. assert (sound j) as Hsj by (by apply opened_sound).
  assert (size j = len header + len (area c objects) + len rest) as Hsize
    by (change (size j) with (len buffer); unfold buffer, len; rewrite !length_app; lia).
  assert (Hmod : len header mod 8 = 0) by apply (jh_length _ _ Hh).
  unfold entries_of. fold j. rewrite Hp. apply (walk_area _ _ _ header rest); try done.
  - apply Forall_forall. intros o Hin. rewrite Forall_forall in Hi. specialize (Hi o Hin). destruct o as [|seqnum realtime monotonic boot_id xor_hash items|]; [done| |done].
    eapply Forall_impl; [exact Hi|]. intros item Hitem. by apply (lookup_field_at j objects header rest).
  - apply Forall_forall. intros x Hx. pose proof (placed_lies j objects header rest x eq_refl Hx) as Hl.
    pose proof (lies_bound j _ _ Hsj Hl) as [H0 H1]. assert (0 <= osize_of c (snd x)) by (unfold osize_of, len; lia).
    unfold last_object. rewrite Htail. destruct (Z.eqb_spec tail 0); [lia|]. destruct Ht as [Ht|Ht]; [done|].
    rewrite Forall_forall in Ht. specialize (Ht x Hx). cbn beta in Ht. lia.
  - destruct Hr as [[Hr1 Hr2]|Hr].
    + unfold JournalRead.plain_step, last_object. rewrite Htail. destruct (Z.eqb_spec tail 0); [done|].
      destruct (Z.leb_spec (len header + len (area c objects)) (Z.min tail (size j))); [lia|done].
    + replace (len header + len (area c objects)) with (len (header ++ area c objects)) by (unfold len; rewrite length_app; lia).
      apply (damaged_stops j _ rest); [done| |done]. change (buf j) with buffer. unfold buffer. by rewrite app_assoc.
  - unfold buffer. rewrite !length_app. unfold area.
    assert (length objects <= length (concat (map (padded c) objects)))%nat; [|lia].
    clear. induction objects as [|o objects IH]; [done|]. cbn [map concat length]. rewrite length_app.
    pose proof (padded_length c o) as Hp. pose proof (round8_bounds (osize_of c o)) as [Hb _]. unfold osize_of, len in *. lia.
Qed.

(** C29. What a journal file holds is read back: a file laid out as a header and
    objects on eight-byte boundaries, compact or not, followed by anything that
    starts no object or lies behind the recorded tail, gives exactly its entries
    in order, each with the first value of every field name among the data
    objects it refers to; damage behind the last object costs none of them, and
    is not reported. *)
Theorem journal_read_back header objects rest tail : laid_out header objects rest tail -> wf (header ++ area c objects ++ rest) ->
  len (omap (entry_of (placed c (len header) objects)) objects) <= MAX_ENTRIES ->
  exists n, read_journal_entries zstd_read xz_decompress lz4_decompress (header ++ area c objects ++ rest) =
    Ok (omap (entry_of (placed c (len header) objects)) objects, {| truncated := false; i_undecodable_fields := n |}).
Proof.
  intros Hl Hw Hm. destruct (header_opened header objects rest tail (lo_header _ _ _ _ Hl)) as (Hj & _).
  destruct (read_entries_of zstd_read xz_decompress lz4_decompress _ Hw Hj) as [n Hn]. exists n. rewrite Hn.
  rewrite (entries_laid_out header objects rest tail Hl Hw). by destruct (kept_all _ Hm) as [-> ->].
Qed.
End layout.

(** * A small journal *)
Definition sample_header (tail : Z) : bytes :=
  SIGNATURE ++ repeat 0 80 ++ le_enc 8 144 ++ repeat 0 40 ++ le_enc 8 tail.
Definition sample_objects : list object :=
  [DataObject 0 (repeat 0 48) (lit "MESSAGE=disk attached");
   DataObject 0 (repeat 0 48) (lit "PRIORITY=6");
   EntryObject 7 1700000000000000 5 (repeat 1 16) 0 [(144, 0); (232, 0); (144, 0)]].
(** An object that the end of the file cuts off. *)
Definition sample_rest : bytes := [3; 0; 0; 0; 0; 0; 0; 0] ++ le_enc 8 96 ++ repeat 0 5.

Lemma wf_bytes d : forallb (fun b => (0 <=? b) && (b <? 256)) d = true -> wf d.
Proof. intros Hd. apply Forall_forall. intros b Hb. rewrite forallb_forall in Hd. specialize (Hd b). rewrite <-list_elem_of_In in Hd. specialize (Hd Hb). unfold is_byte. to_prop. lia. Qed.

Lemma sample_laid_out : laid_out false (sample_header 0) sample_objects sample_rest 0.
Proof.
  split.
  - split; [reflexivity|split; [discriminate|reflexivity]|by exists 0|reflexivity|reflexivity].
  - apply Forall_cons_2; [|apply Forall_cons_2; [|apply Forall_cons_2; [|apply Forall_nil_2]]].
    all: unfold ok_object, is_u64, is_byte; split_and!; try (apply wf_bytes; reflexivity); try reflexivity; try (cbn; lia); try done.
    repeat constructor; cbn; lia.
  - repeat constructor; set_solver.
  - by left.
  - right. right. right. exists 96. split; [reflexivity|]. right. reflexivity.
Qed.

Lemma journal_read_back_witness :
  exists n, read_journal_entries (fun _ _ => None) (fun _ _ => None) (fun _ _ => None)
      (sample_header 0 ++ area false sample_objects ++ sample_rest) =
    Ok (omap (entry_of (fun _ _ => None) (fun _ _ => None) (fun _ _ => None)
          (placed false (len (sample_header 0)) sample_objects)) sample_objects,
        {| truncated := false; i_undecodable_fields := n |}) /\
    omap (entry_of (fun _ _ => None) (fun _ _ => None) (fun _ _ => None)
      (placed false (len (sample_header 0)) sample_objects)) sample_objects =
    [{| e_seqnum := 7; e_realtime := 1700000000000000; e_boot_id := repeat 1 16;
        e_fields := [(lit "MESSAGE", lit "disk attached"); (lit "PRIORITY", lit "6")] |}].
Proof.
  destruct (journal_read_back (fun _ _ => None) (fun _ _ => None) (fun _ _ => None) false (sample_header 0) sample_objects sample_rest 0
    sample_laid_out ltac:(apply wf_bytes; reflexivity) ltac:(discriminate)) as [n Hn].
  exists n. split; [exact Hn|reflexivity].
Defined.

(** The same file, cut off inside its entry: nothing is left and nothing said. *)
Definition cut_file : bytes := take 300 (sample_header 0 ++ area false sample_objects).
End JournalLayout.
