(* ===== verification/Handlers.v ===== *)
(** Request handlers that run at the same time: a program of atomic steps on a
    shared world, its run alone, its interleaving with others, and the rules for
    invariants of both: ownership, traces, rely and guarantee. *)
From stdpp Require Import relations.
From S2P Require Import Prelude.

Module Handlers.

(** A program performs atomic steps: each changes the world and goes on with
    what it saw of the world before the change.  It ends in a result. *)
Inductive prog (W E A : Type) : Type :=
  | Done (r : result E A)
  | Step (change : W -> W) (next : W -> prog W E A).
Arguments Done {W E A} r.
Arguments Step {W E A} change next.

(** At a commit an object of a session writes the columns that differ from what
    it was loaded with. *)
Definition merge_column {A} `{EqDecision A} (loaded item current : A) : A := if decide (item = loaded) then current else item.
Lemma merge_column_alone {A} `{EqDecision A} (loaded item : A) : merge_column loaded item loaded = item.
Proof. unfold merge_column. by case_decide. Qed.
Lemma merge_column_kept {A} `{EqDecision A} (loaded current : A) : merge_column loaded loaded current = current.
Proof. unfold merge_column. by rewrite decide_True. Qed.

Section prog.
Context {W E : Type}.

Fixpoint bind {A B} (f : A -> prog W E B) (p : prog W E A) : prog W E B :=
  match p with
  | Done (Ok a) => f a
  | Done (Raise e) => Done (Raise e)
  | Done OutOfFuel => Done OutOfFuel
  | Step change next => Step change (fun w => bind f (next w))
  end.
#[global] Instance prog_ret : MRet (prog W E) := fun _ a => Done (Ok a).
#[global] Instance prog_bind : MBind (prog W E) := @bind.

(** [try: p except ...: h]; [h] decides by the exception and may raise it again. *)
Fixpoint catch {A} (p : prog W E A) (h : E -> prog W E A) : prog W E A :=
  match p with
  | Done (Raise e) => h e
  | Done r => Done r
  | Step change next => Step change (fun w => catch (next w) h)
  end.

(** [try: p finally: q] *)
Fixpoint finally {A} (p : prog W E A) (q : prog W E unit) : prog W E A :=
  match p with
  | Done r => bind (fun _ => Done r) q
  | Step change next => Step change (fun w => finally (next w) q)
  end.

(** [for x in l: s = f(s, x)] *)
Fixpoint forP {S X} (f : S -> X -> prog W E S) (s : S) (l : list X) : prog W E S :=
  match l with
  | [] => Done (Ok s)
  | x :: l' => bind (fun s' => forP f s' l') (f s x)
  end.

(** One atomic step: read the world and change it. *)
Definition look {A} (f : W -> A) : prog W E A := Step id (fun w => Done (Ok (f w))).
Definition update (f : W -> W) : prog W E unit := Step f (fun _ => Done (Ok tt)).
(** A step that may fail, leaving the world as it is. *)
Definition attempt {A} (f : W -> result E (W * A)) : prog W E A :=
  Step (fun w => match f w with Ok (w', _) => w' | _ => w end)
       (fun w => Done (match f w with Ok (_, a) => Ok a | Raise e => Raise e | OutOfFuel => OutOfFuel end)).
Definition raise {A} (e : E) : prog W E A := Done (Raise e).
Definition guard (b : bool) (e : E) : prog W E unit := if b then raise e else Done (Ok tt).

(** * Alone *)
Fixpoint run {A} (p : prog W E A) (w : W) : W * result E A :=
  match p with
  | Done r => (w, r)
  | Step change next => run (next w) (change w)
  end.

Lemma run_bind {A B} (f : A -> prog W E B) (p : prog W E A) w :
  run (p ≫= f) w =
  match run p w with
  | (w', Ok a) => run (f a) w'
  | (w', Raise e) => (w', Raise e)
  | (w', OutOfFuel) => (w', OutOfFuel)
  end.
Proof. revert w. induction p as [[]|change next IH]; intros w; cbn; [done..|]. apply IH. Qed.

Lemma run_catch {A} (p : prog W E A) h w :
  run (catch p h) w = match run p w with (w', Raise e) => run (h e) w' | r => r end.
Proof. revert w. induction p as [[]|change next IH]; intros w; cbn; [done..|]. apply IH. Qed.

Lemma run_finally {A} (p : prog W E A) q w :
  run (finally p q) w =
  match run p w with
  | (w', r) =>
      match run q w' with
      | (w'', Ok _) => (w'', r)
      | (w'', Raise e) => (w'', Raise e)
      | (w'', OutOfFuel) => (w'', OutOfFuel)
      end
  end.
Proof.
  revert w. induction p as [r|change next IH]; intros w; cbn; [|apply IH].
  change (bind (fun _ => Done r) q) with (q ≫= (fun _ => Done r)). rewrite run_bind.
  by destruct (run q w) as [w' [[]| |]].
Qed.

Lemma run_forP_cons {S X} (f : S -> X -> prog W E S) s x l w :
  run (forP f s (x :: l)) w = run (f s x ≫= (fun s' => forP f s' l)) w.
Proof. done. Qed.

(** * Together *)

(** One handler of the pool makes its next step, or the environment acts. *)
Inductive step {A} (env : W -> W -> Prop) : W * list (prog W E A) -> W * list (prog W E A) -> Prop :=
  | step_handler w ps i change next :
      ps !! i = Some (Step change next) -> step env (w, ps) (change w, <[i := next w]> ps)
  | step_env w w' ps : env w w' -> step env (w, ps) (w', ps).

(** The step of handler [i], and a schedule of such steps. *)
Definition step_of {A} (c : W * list (prog W E A)) (i : nat) : W * list (prog W E A) :=
  match snd c !! i with
  | Some (Step change next) => (change (fst c), <[i := next (fst c)]> (snd c))
  | _ => c
  end.
Definition exec {A} (schedule : list nat) (c : W * list (prog W E A)) : W * list (prog W E A) :=
  fold_left step_of schedule c.

Lemma exec_steps {A} (env : W -> W -> Prop) schedule (c : W * list (prog W E A)) :
  rtc (step env) c (exec schedule c).
Proof.
  revert c. induction schedule as [|i schedule IH]; intros c; [constructor|]. cbn [exec fold_left].
  etransitivity; [|apply IH]. destruct c as [w ps]. unfold step_of. cbn [fst snd].
  destruct (ps !! i) as [[r|change next]|] eqn:Hi; [constructor| |constructor].
  apply rtc_once. by constructor.
Qed.

(** * Ownership

    A handler may own a part of the world, such as a file whose name it has
    drawn.  [acts Q o p]: in any world that satisfies [I] and is as [o] says,
    every step of [p] keeps [I] and leads to a world as the step's new [o'] says,
    while what others own stays as it is; the value it returns satisfies [Q]. *)
Section ownership.
Context {O : Type} (I : W -> Prop) (owns : O -> W -> Prop) (apart : O -> O -> Prop).
Context `{!Symmetric apart}.

Definition spares (o o' : O) (w w' : W) : Prop := forall o2, apart o o2 -> owns o2 w -> apart o' o2 /\ owns o2 w'.

Fixpoint acts {A} (Q : O -> A -> Prop) (o : O) (p : prog W E A) : Prop :=
  match p with
  | Done (Ok a) => Q o a
  | Done _ => True
  | Step change next => forall w, I w -> owns o w ->
      I (change w) /\ exists o', owns o' (change w) /\ spares o o' w (change w) /\ acts Q o' (next w)
  end.

Lemma acts_mono {A} (Q Q' : O -> A -> Prop) o p : (forall o a, Q o a -> Q' o a) -> acts Q o p -> acts Q' o p.
Proof. intros HQ. revert o. induction p as [[]|change next IH]; intros o; cbn; [auto|done|done|]. naive_solver. Qed.

Lemma acts_bind {A B} (Q : O -> B -> Prop) (R : O -> A -> Prop) (f : A -> prog W E B) o p :
  acts R o p -> (forall o a, R o a -> acts Q o (f a)) -> acts Q o (p ≫= f).
Proof.
  intros Hp Hf. revert o Hp. induction p as [[]|change next IH]; intros o Hp; cbn in *; [by apply Hf|done|done|].
  intros w Hw Ho. destruct (Hp w Hw Ho) as (Hc & o' & Ho' & Hs & Hn). naive_solver.
Qed.

Lemma acts_catch {A} (Q : O -> A -> Prop) (p : prog W E A) h o :
  acts Q o p -> (forall o e, acts Q o (h e)) -> acts Q o (catch p h).
Proof.
  intros Hp Hh. revert o Hp. induction p as [[]|change next IH]; intros o Hp; cbn in *; [done|apply Hh|done|].
  intros w Hw Ho. destruct (Hp w Hw Ho) as (Hc & o' & Ho' & Hs & Hn). naive_solver.
Qed.

Lemma acts_attempt {A} (Q : O -> A -> Prop) f o :
  (forall w w' a, I w -> owns o w -> f w = Ok (w', a) ->
     I w' /\ exists o', owns o' w' /\ spares o o' w w' /\ Q o' a) -> acts Q o (attempt f).
Proof.
  intros Hf w Hw Ho. specialize (Hf w). cbn.
  destruct (f w) as [[w' a]|e|]; [by apply Hf|split; [done|]; by exists o..].
Qed.

(** ** Handlers that mind what others own, and may own anything themselves *)
Context (quiet : W -> W -> Prop) `{!Reflexive quiet}.
Hypothesis owns_quiet : forall o w w', quiet w w' -> owns o w -> owns o w'.

Definition minds {A} (Q : A -> Prop) (p : prog W E A) : Prop := forall o, acts (fun _ => Q) o p.

Lemma minds_mono {A} (Q Q' : A -> Prop) p : (forall a, Q a -> Q' a) -> minds Q p -> minds Q' p.
Proof. intros HQ Hp o. eapply acts_mono; [|apply Hp]. auto. Qed.

Lemma minds_bind {A B} (Q : B -> Prop) (R : A -> Prop) (f : A -> prog W E B) p :
  minds R p -> (forall a, R a -> minds Q (f a)) -> minds Q (p ≫= f).
Proof. intros Hp Hf o. eapply acts_bind; [apply Hp|]. intros o' a Ha. by apply Hf. Qed.

Lemma minds_catch {A} (Q : A -> Prop) (p : prog W E A) h : minds Q p -> (forall e, minds Q (h e)) -> minds Q (catch p h).
Proof. intros Hp Hh o. apply acts_catch; [apply Hp|]. intros o' e. apply Hh. Qed.

Lemma minds_finally {A} (Q : A -> Prop) (p : prog W E A) q : minds Q p -> minds (fun _ => True) q -> minds Q (finally p q).
Proof.
  intros Hp Hq o. specialize (Hp o). revert o Hp. induction p as [r|change next IH]; intros o Hp; cbn in *.
  - change (bind (fun _ => Done r) q) with (q ≫= (fun _ => Done r)).
    eapply acts_bind; [apply Hq|]. intros o' [] _. by destruct r.
  - intros w Hw Ho. destruct (Hp w Hw Ho) as (Hc & o' & Ho' & Hs & Hn). naive_solver.
Qed.

Lemma minds_forP {S X} (Q : S -> Prop) (P : X -> Prop) (f : S -> X -> prog W E S) s l :
  Q s -> Forall P l -> (forall s x, Q s -> P x -> minds Q (f s x)) -> minds Q (forP f s l).
Proof.
  intros Hs Hl Hf. revert s Hs. induction Hl as [|x l Hx _ IH]; intros s Hs; [by intros o|]. cbn [forP].
  change (bind ?g ?p) with (p ≫= g). eapply minds_bind; [by apply Hf|]. intros s' Hs'. by apply IH.
Qed.

Lemma minds_done {A} (Q : A -> Prop) (r : result E A) : (forall a, r = Ok a -> Q a) -> minds Q (Done r).
Proof. intros HQ o. destruct r; cbn; naive_solver. Qed.

Lemma minds_raise {A} (Q : A -> Prop) e : minds Q (raise e).
Proof. by intros o. Qed.

Lemma minds_guard b e : minds (fun _ => b = false) (guard b e).
Proof. intros o. by destruct b. Qed.

Lemma spares_quiet o w w' : quiet w w' -> spares o o w w'.
Proof. intros Hq o2 Ha Ho. split; [done|]. by eapply owns_quiet. Qed.

Lemma minds_attempt {A} (Q : A -> Prop) f :
  (forall w w' a, I w -> f w = Ok (w', a) -> I w' /\ quiet w w' /\ Q a) -> minds Q (attempt f).
Proof.
  intros Hf o. apply acts_attempt. intros w w' a Hw Ho Hr. destruct (Hf w w' a Hw Hr) as (Hw' & Hq & Ha). split; [done|].
  exists o. split; [by eapply owns_quiet|]. split; [by apply spares_quiet|done].
Qed.

Lemma minds_update f : (forall w, I w -> I (f w) /\ quiet w (f w)) -> minds (fun _ => True) (update f).
Proof.
  intros Hf o w Hw Ho. destruct (Hf w Hw) as [Hw' Hq]. split; [done|]. exists o. split; [by eapply owns_quiet|].
  split; [by apply spares_quiet|done].
Qed.

Lemma minds_look {A} (Q : A -> Prop) f : (forall w, I w -> Q (f w)) -> minds Q (look f).
Proof.
  intros Hf o w Hw Ho. split; [done|]. exists o. split; [done|]. split; [by apply spares_quiet|]. by apply Hf.
Qed.

(** ** The pool: every handler acts from what it owns, each from its own. *)
Definition owned {A} (c : W * list (prog W E A)) : Prop :=
  I (fst c) /\ exists os, Forall2 (fun o p => owns o (fst c) /\ acts (fun _ _ => True) o p) os (snd c) /\
    forall i j a b, i <> j -> os !! i = Some a -> os !! j = Some b -> apart a b.

Lemma owned_step {A} (env : W -> W -> Prop) (c c' : W * list (prog W E A)) :
  (forall w w', I w -> env w w' -> I w' /\ quiet w w') -> step env c c' -> owned c -> owned c'.
Proof.
  intros Henv Hstep (Hw & os & Hos & Hap). destruct Hstep as [w ps i change next Hi|w w' ps Hew]; cbn [fst snd] in *.
  - destruct (Forall2_lookup_r _ _ _ _ _ Hos Hi) as (o & Hoi & Ho & Ha). destruct (Ha w Hw Ho) as (Hw' & o' & Ho' & Hs & Hn).
    split; [done|]. exists (<[i := o']> os). cbn [fst snd].
    assert (Hothers : forall j b, j <> i -> os !! j = Some b -> apart o' b /\ owns b (change w)).
    { intros j b Hj Hb. destruct (Forall2_lookup_l _ _ _ _ _ Hos Hb) as (q & _ & Hbw & _).
      apply Hs; [|done]. by apply (Hap i j). }
    assert (Hlt : (i < length os)%nat) by (by apply lookup_lt_Some in Hoi). split.
    + apply Forall2_same_length_lookup. rewrite !length_insert. split; [by eapply Forall2_length|].
      intros j b q. destruct (decide (j = i)) as [->|Hj].
      * rewrite list_lookup_insert_eq by done. apply lookup_lt_Some in Hi.
        rewrite list_lookup_insert_eq by done. by intros [= <-] [= <-].
      * rewrite !list_lookup_insert_ne by done. intros Hb Hq. destruct (Hothers j b Hj Hb) as [_ Hbw]. split; [done|].
        destruct (Forall2_lookup_l _ _ _ _ _ Hos Hb) as (q' & Hq' & _ & Hact). congruence.
    + intros j k a b Hjk. destruct (decide (j = i)) as [->|Hj], (decide (k = i)) as [->|Hk]; [done| | |].
      * rewrite list_lookup_insert_eq, list_lookup_insert_ne by done. intros [= <-] Hb. by eapply Hothers.
      * rewrite list_lookup_insert_eq, list_lookup_insert_ne by done. intros Ha' [= <-]. symmetry. by eapply Hothers.
      * rewrite !list_lookup_insert_ne by done. by apply Hap.
  - destruct (Henv w w' Hw Hew) as [Hw' Hq]. split; [done|]. exists os. split; [|done].
    eapply Forall2_impl; [exact Hos|]. intros o p [Ho Ha]. split; [by eapply owns_quiet|done].
Qed.

(** Handlers that mind each other can be interleaved, when they start with
    nothing. *)
Lemma pool_owned {A} (env : W -> W -> Prop) (nothing : O) (c c' : W * list (prog W E A)) :
  (forall w w', I w -> env w w' -> I w' /\ quiet w w') -> (forall w, owns nothing w) -> apart nothing nothing ->
  rtc (step env) c c' -> I (fst c) -> Forall (minds (fun _ => True)) (snd c) -> I (fst c').
Proof.
  intros Henv Hno Hap Hsteps Hw Hps. assert (owned c) as Hc.
  { split; [done|]. exists (replicate (length (snd c)) nothing). split.
    - apply Forall2_replicate_l; [reflexivity|]. eapply Forall_impl; [exact Hps|]. intros p Hp. split; [apply Hno|apply Hp].
    - intros i j a b _ [-> _]%lookup_replicate [-> _]%lookup_replicate. done. }
  clear Hw Hps. enough (owned c') as [? _] by done.
  induction Hsteps as [c|c1 c2 c3 Hstep _ IH]; [done|]. apply IH. by eapply owned_step.
Qed.
End ownership.

(** Every world that [p] passes through when it runs alone satisfies [P]. *)
Fixpoint always {A} (P : W -> Prop) (p : prog W E A) (w : W) : Prop :=
  P w /\ match p with Done _ => True | Step change next => always P (next w) (change w) end.

Lemma always_now {A} P (p : prog W E A) w : always P p w -> P w.
Proof. destruct p; cbn; tauto. Qed.

Lemma always_bind {A B} (P : W -> Prop) (f : A -> prog W E B) p w :
  always P p w -> (forall a, snd (run p w) = Ok a -> always P (f a) (fst (run p w))) -> always P (p ≫= f) w.
Proof.
  revert w. induction p as [[]|change next IH]; intros w Hp Hf; cbn in *; [by apply Hf|tauto|tauto|].
  destruct Hp as [Hw Hp]. split; [done|]. by apply IH.
Qed.

Lemma always_catch {A} (P : W -> Prop) (p : prog W E A) h w :
  always P p w -> (forall e, snd (run p w) = Raise e -> always P (h e) (fst (run p w))) -> always P (catch p h) w.
Proof.
  revert w. induction p as [[]|change next IH]; intros w Hp Hf; cbn in *; [tauto|by apply Hf|tauto|].
  destruct Hp as [Hw Hp]. split; [done|]. by apply IH.
Qed.

(** [p], alone from [w], passes only through worlds that satisfy [P] and ends
    with [Q] of the last one and the result. *)
Definition traced {A} (P : W -> Prop) (p : prog W E A) (w : W) (Q : W -> result E A -> Prop) : Prop :=
  always P p w /\ Q (fst (run p w)) (snd (run p w)).

Lemma traced_bind {A B} P (f : A -> prog W E B) p w Q :
  traced P p w (fun w' r => match r with
                            | Ok a => traced P (f a) w' Q
                            | Raise e => Q w' (Raise e)
                            | OutOfFuel => Q w' OutOfFuel
                            end) -> traced P (p ≫= f) w Q.
Proof.
  intros [Hp Hr]. split.
  - apply always_bind; [done|]. intros a Ha. rewrite Ha in Hr. apply Hr.
  - rewrite run_bind. destruct (run p w) as [w' [a|e|]]; cbn in *; [apply Hr|done|done].
Qed.

Lemma traced_catch {A} P (p : prog W E A) h w Q :
  traced P p w (fun w' r => match r with Raise e => traced P (h e) w' Q | r => Q w' r end) -> traced P (catch p h) w Q.
Proof.
  intros [Hp Hr]. split.
  - apply always_catch; [done|]. intros e He. rewrite He in Hr. apply Hr.
  - rewrite run_catch. destruct (run p w) as [w' [a|e|]]; cbn in *; [done|apply Hr|done].
Qed.

Lemma traced_mono {A} P (p : prog W E A) w (Q Q' : W -> result E A -> Prop) :
  traced P p w Q -> (forall w' r, P w' -> Q w' r -> Q' w' r) -> traced P p w Q'.
Proof.
  intros [Hp Hr] HQ. split; [done|]. apply HQ; [|done].
  clear Hr HQ. revert w Hp. induction p as [r|change next IH]; intros w Hp; cbn in *; [tauto|]. apply IH. tauto.
Qed.

Lemma traced_done {A} P (r : result E A) w (Q : W -> result E A -> Prop) : P w -> Q w r -> traced P (Done r) w Q.
Proof. by repeat split. Qed.

Lemma traced_step {A} P change (next : W -> prog W E A) w Q :
  P w -> traced P (next w) (change w) Q -> traced P (Step change next) w Q.
Proof. intros Hw [? ?]. by repeat split. Qed.

(** * Rely and guarantee

    What a handler knows of a row it has loaded stays true as long as all others
    change the world by [R] only.  [guarantees I seen R G Q p w]: started in [w],
    with steps by [R] between its own, every step of [p] preserves [I] and is in
    [G], and the value it returns satisfies [Q] from then on.  Only worlds that
    are [seen] in the execution matter: what holds of all of them is known. *)
Fixpoint guarantees {A} (I seen : W -> Prop) (R G : W -> W -> Prop) (Q : A -> W -> Prop) (p : prog W E A) (w0 : W) : Prop :=
  match p with
  | Done (Ok a) => forall w, R w0 w -> I w -> Q a w
  | Done _ => True
  | Step change next => forall w, R w0 w -> I w -> seen w -> seen (change w) ->
      I (change w) /\ G w (change w) /\ guarantees I seen R G Q (next w) (change w)
  end.

Section rely.
Context (I seen : W -> Prop) (R G : W -> W -> Prop) `{!PreOrder R, !Reflexive G}.
Hypothesis GR : forall w w', G w w' -> R w w'.

Lemma guarantees_later {A} (Q : A -> W -> Prop) p w0 w1 : R w0 w1 -> guarantees I seen R G Q p w0 -> guarantees I seen R G Q p w1.
Proof.
  intros HR. destruct p as [[a| |]|change next]; cbn; [|done|done|]; intros Hp w Hw; apply Hp; by transitivity w1.
Qed.

(** Only worlds that satisfy [I] matter. *)
Lemma guarantees_here {A} (Q : A -> W -> Prop) p w0 :
  (forall w, R w0 w -> I w -> guarantees I seen R G Q p w) -> guarantees I seen R G Q p w0.
Proof. destruct p as [[a| |]|change next]; cbn; [|done|done|]; intros Hp w Hw Iw; by apply (Hp w Hw Iw w). Qed.

Lemma guarantees_bind {A B} (Q : B -> W -> Prop) (Q' : A -> W -> Prop) (f : A -> prog W E B) p w0 :
  guarantees I seen R G Q' p w0 ->
  (forall a w, R w0 w -> I w -> Q' a w -> guarantees I seen R G Q (f a) w) -> guarantees I seen R G Q (p ≫= f) w0.
Proof.
  revert w0. induction p as [[a|e|]|change next IH]; intros w0 Hp Hf; cbn in *; [|done|done|].
  { apply guarantees_here. auto. }
  intros w Hw Iw Sw Sc. destruct (Hp w Hw Iw Sw Sc) as (Ic & Gc & Hn). pose proof (GR _ _ Gc). split; [done|]. split; [done|].
  apply IH; [done|]. intros a w' Hw'. apply Hf. transitivity w; [done|]. by transitivity (change w).
Qed.

Lemma guarantees_catch {A} (Q : A -> W -> Prop) (p : prog W E A) h w0 :
  guarantees I seen R G Q p w0 -> (forall e w, R w0 w -> guarantees I seen R G Q (h e) w) -> guarantees I seen R G Q (catch p h) w0.
Proof.
  revert w0. induction p as [[a|e|]|change next IH]; intros w0 Hp Hh; cbn in *; [done|by apply Hh|done|].
  intros w Hw Iw Sw Sc. destruct (Hp w Hw Iw Sw Sc) as (Ic & Gc & Hn). pose proof (GR _ _ Gc). split; [done|]. split; [done|].
  apply IH; [done|]. intros e w' Hw'. apply Hh. transitivity w; [done|]. by transitivity (change w).
Qed.

Lemma guarantees_forP {S X} (Q : S -> W -> Prop) (f : S -> X -> prog W E S) s l w0 :
  (forall s w w', R w w' -> Q s w -> Q s w') -> Q s w0 ->
  (forall s x w, R w0 w -> I w -> Q s w -> guarantees I seen R G Q (f s x) w) -> guarantees I seen R G Q (forP f s l) w0.
Proof.
  intros Hstable. revert s w0. induction l as [|x l IH]; intros s w0 Hs Hf; [by intros w Hw _; apply (Hstable s w0)|].
  cbn [forP]. change (bind ?g ?p) with (p ≫= g).
  eapply guarantees_bind; [apply guarantees_here; intros w Hw Iw; by apply Hf; [..|apply (Hstable s w0)]|].
  intros s' w Hw Iw Qs'. apply IH; [done|]. intros s'' x' w' Hw'. apply Hf. by transitivity w.
Qed.

Lemma guarantees_mono {A} (Q Q' : A -> W -> Prop) p w0 :
  (forall a w, I w -> Q a w -> Q' a w) -> guarantees I seen R G Q p w0 -> guarantees I seen R G Q' p w0.
Proof. intros HQ. revert w0. induction p as [[a| |]|change next IH]; intros w0; cbn; [auto|done|done|]. naive_solver. Qed.

Lemma guarantees_look_seen {A} (Q : A -> W -> Prop) f w0 :
  (forall w w', R w0 w -> I w -> seen w -> R w w' -> I w' -> Q (f w) w') -> guarantees I seen R G Q (look f) w0.
Proof. intros Hf w Hw Iw Sw _. split; [done|]. split; [reflexivity|]. cbn. intros w' Hw' Iw'. by apply (Hf w). Qed.
Lemma guarantees_look {A} (Q : A -> W -> Prop) f w0 :
  (forall w w', R w0 w -> I w -> R w w' -> I w' -> Q (f w) w') -> guarantees I seen R G Q (look f) w0.
Proof. intros Hf. apply guarantees_look_seen. auto. Qed.

Lemma guarantees_attempt_seen {A} (Q : A -> W -> Prop) f w0 :
  (forall w w' a, R w0 w -> I w -> f w = Ok (w', a) -> seen w -> seen w' -> I w' /\ G w w' /\ forall w'', R w' w'' -> I w'' -> Q a w'') ->
  guarantees I seen R G Q (attempt f) w0.
Proof.
  intros Hf w Hw Iw Sw Sc. specialize (Hf w). cbn in *. destruct (f w) as [[w' a]|e|].
  - by destruct (Hf w' a Hw Iw eq_refl Sw Sc) as (Iw' & Gw & HQ).
  - by split; [|split; [reflexivity|]].
  - by split; [|split; [reflexivity|]].
Qed.
Lemma guarantees_attempt {A} (Q : A -> W -> Prop) f w0 :
  (forall w w' a, R w0 w -> I w -> f w = Ok (w', a) -> I w' /\ G w w' /\ forall w'', R w' w'' -> I w'' -> Q a w'') ->
  guarantees I seen R G Q (attempt f) w0.
Proof. intros Hf. apply guarantees_attempt_seen. auto. Qed.

Lemma guarantees_guard (Q : unit -> W -> Prop) b e w0 :
  (b = false -> forall w, R w0 w -> I w -> Q tt w) -> guarantees I seen R G Q (guard b e) w0.
Proof. intros HQ. destruct b; [done|]. exact (HQ eq_refl). Qed.

Lemma guarantees_done {A} (Q : A -> W -> Prop) (m : result E A) w0 :
  (forall a w, m = Ok a -> R w0 w -> I w -> Q a w) -> guarantees I seen R G Q (Done m) w0.
Proof. intros HQ. destruct m; [|done|done]. exact (fun w => HQ a w eq_refl). Qed.

(** Handlers that rely on [R] and guarantee [G] can be interleaved. *)
Definition all_guarantee {A} (Q : A -> W -> Prop) (c : W * list (prog W E A)) : Prop :=
  I (fst c) /\ Forall (fun p => guarantees I seen R G Q p (fst c)) (snd c).
Lemma pool_step {A} (Q : A -> W -> Prop) (env : W -> W -> Prop) (c c' : W * list (prog W E A)) :
  (forall w w', env w w' -> seen w -> seen w' -> I w -> I w' /\ R w w') -> step env c c' -> seen (fst c) -> seen (fst c') ->
  all_guarantee Q c -> R (fst c) (fst c') /\ all_guarantee Q c'.
Proof.
  intros Henv Hstep Sw Sw' [Iw Hps].
  assert (Hlater : R (fst c) (fst c') -> Forall (fun p => guarantees I seen R G Q p (fst c')) (snd c)).
  { intros HR. eapply Forall_impl; [exact Hps|]. intros p. by apply guarantees_later. }
  destruct Hstep as [w ps i change next Hi|w w' ps Hew]; cbn [fst snd] in *.
  - pose proof (Forall_lookup_1 _ _ _ _ Hps Hi) as Hk. destruct (Hk w ltac:(reflexivity) Iw Sw Sw') as (Ic & Gc%GR & Hn).
    split; [done|]. split; [done|]. apply Forall_insert; [by apply Hlater|done].
  - destruct (Henv w w' Hew Sw Sw' Iw) as [Iw' HR]. split; [done|]. split; [done|]. by apply Hlater.
Qed.
Lemma pool_guarantees {A} (Q : A -> W -> Prop) (env : W -> W -> Prop) (c c' : W * list (prog W E A)) :
  (forall w w', env w w' -> seen w -> seen w' -> I w -> I w' /\ R w w') -> rtc (step env) c c' ->
  (forall c1, rtc (step env) c c1 -> rtc (step env) c1 c' -> seen (fst c1)) ->
  all_guarantee Q c -> R (fst c) (fst c') /\ all_guarantee Q c'.
Proof.
  intros Henv Hsteps. induction Hsteps as [c|c1 c2 c3 Hstep Hsteps IH]; [done|]. intros Hseen Hc.
  assert (Hs1 : seen (fst c1)) by (apply Hseen; [constructor|by econstructor]).
  assert (Hs2 : seen (fst c2)) by (apply Hseen; [by apply rtc_once|done]).
  destruct (pool_step Q env c1 c2 Henv Hstep Hs1 Hs2 Hc) as [HR Hc2].
  destruct IH as [HR' Hc3]; [intros c; intros Hc1; apply Hseen; by econstructor|done|]. split; [|done]. by transitivity (fst c2).
Qed.
(** Every step of a handler is in [G]. *)
Lemma handler_step {A} (Q : A -> W -> Prop) (c c' : W * list (prog W E A)) :
  step (fun _ _ => False) c c' -> seen (fst c) -> seen (fst c') -> all_guarantee Q c -> G (fst c) (fst c').
Proof.
  intros Hstep Sw Sw' [Iw Hps]. destruct Hstep as [w ps i change next Hi|w w' ps []]. cbn [fst snd] in *.
  pose proof (Forall_lookup_1 _ _ _ _ Hps Hi) as Hk. by destruct (Hk w ltac:(reflexivity) Iw Sw Sw') as (_ & HG & _).
Qed.
End rely.
End prog.

Notation "'let*' x := m 'in' k" := (mbind (M := prog _ _) (fun x => k) m)
  (at level 200, x pattern, m at level 100, k at level 200, right associativity,
   format "'[v' 'let*'  x  :=  m  'in' '/' k ']'") : py_scope.
Notation "m ;* k" := (mbind (M := prog _ _) (fun _ => k) m)
  (at level 200, right associativity, format "'[v' m ;* '/' k ']'") : py_scope.
End Handlers.
