(* ===== verification/FileSystem.v ===== *)
(** The part of [os], [shutil] and [pathlib] that the upload services use: a
    tree of directories and regular files, each operation with the errors it
    raises.  A path is the list of its names from the root. *)
From S2P Require Import Prelude PyBase.
Import Bytes Str.

Module FileSystem.

Abbreviation path := (list str).
Abbreviation bytes := (list Z).

Inductive node : Type := Dir | File (content : bytes).
#[export] Instance node_eq_dec : EqDecision node.
Proof. solve_decision. Defined.
Abbreviation fs := (gmap path node).

(** [errno] of [OSError] *)
Inductive os_error : Type := ENOENT | EEXIST | ENOTDIR | EISDIR | EXDEV.
#[export] Instance os_error_eq_dec : EqDecision os_error.
Proof. solve_decision. Defined.

Definition parent (p : path) : path := take (length p - 1) p.
Definition name_of (p : path) : str := default [] (last p).

Definition exists_ (p : path) (f : fs) : bool :=
  match p with [] => true | _ => bool_decide (is_Some (f !! p)) end.
Definition is_dir (p : path) (f : fs) : bool :=
  match p with [] => true | _ => bool_decide (f !! p = Some Dir) end.
Definition is_file (p : path) (f : fs) : bool := match f !! p with Some (File _) => true | _ => false end.

(** [st_size] *)
Definition st_size (p : path) (f : fs) : result os_error Z :=
  match f !! p with Some (File c) => Ok (len c) | Some Dir => Ok 0 | None => Raise ENOENT end.

Definition read_bytes (p : path) (f : fs) : result os_error bytes :=
  match f !! p with Some (File c) => Ok c | Some Dir => Raise EISDIR | None => Raise ENOENT end.

(** [mkdir(parents=True, exist_ok=True)]: the directories above, then the path. *)
Fixpoint mkdirs (above : path) (names : path) (f : fs) : result os_error fs :=
  match names with
  | [] => Ok f
  | n :: names' =>
      let p := above ++ [n] in
      match f !! p with
      | Some Dir => mkdirs p names' f
      | Some (File _) => Raise (match names' with [] => EEXIST | _ => ENOTDIR end)
      | None => mkdirs p names' (<[p := Dir]> f)
      end
  end.
Definition mkdir (p : path) (f : fs) : result os_error fs := mkdirs [] p f.

(** The errors of a path whose parent is missing or not a directory. *)
Definition check_parent (p : path) (f : fs) : result os_error unit :=
  if is_dir (parent p) f then Ok tt
  else Raise (if is_file (parent p) f then ENOTDIR else ENOENT).

(** [open("xb")] of a new file with the given content. *)
Definition create_file (p : path) (content : bytes) (f : fs) : result os_error fs :=
  let! _ := check_parent p f in
  if exists_ p f then Raise EEXIST else Ok (<[p := File content]> f).

(** Writing to a file that was opened before; one that is no longer in the tree
    receives the bytes unseen. *)
Definition append_bytes (p : path) (content : bytes) (f : fs) : fs :=
  match f !! p with Some (File c) => <[p := File (c ++ content)]> f | _ => f end.

(** [os.replace] of a regular file; [device] tells the file systems apart. *)
Definition replace_file (device : path -> Z) (src dest : path) (f : fs) : result os_error fs :=
  match f !! src with
  | None => Raise ENOENT
  | Some Dir => Raise EISDIR
  | Some (File c) =>
      let! _ := check_parent dest f in
      if negb (device (parent src) =? device (parent dest)) then Raise EXDEV
      else if is_dir dest f then Raise EISDIR
      else Ok (<[dest := File c]> (delete src f))
  end.

(** [unlink(missing_ok=True)] of what is not a directory. *)
Definition unlink (p : path) (f : fs) : result os_error fs :=
  match f !! p with Some Dir => Raise EISDIR | _ => Ok (delete p f) end.

Definition below (p q : path) : bool := bool_decide (take (length p) q = p).
(** [shutil.rmtree(ignore_errors=True)] *)
Definition rmtree (p : path) (f : fs) : fs := filter (fun kv => below p (fst kv) = false) f.

(** [iterdir], in no particular order, and [rglob("*")]. *)
Definition iterdir (p : path) (f : fs) : list path :=
  filter (fun q => parent q = p /\ q <> []) (map fst (map_to_list f)).
Definition rglob (p : path) (f : fs) : list path :=
  filter (fun q => Is_true (below p q) /\ q <> p) (map fst (map_to_list f)).

(** * Laws *)
Lemma below_spec p q : below p q = true <-> exists r, q = p ++ r.
Proof.
  unfold below. rewrite bool_decide_eq_true. split.
  - intros Hp. exists (drop (length p) q). by rewrite <-Hp at 1; rewrite take_drop.
  - intros [r ->]. apply take_app_length.
Qed.

Lemma below_false p q : below p q = false <-> ~ exists r, q = p ++ r.
Proof. rewrite <-below_spec. destruct (below p q); naive_solver. Qed.

Lemma below_refl q : below q q = true.
Proof. apply below_spec. exists []. by rewrite app_nil_r. Qed.
Lemma below_trans a b c : below a b = true -> below b c = true -> below a c = true.
Proof. intros [x ->]%below_spec [y ->]%below_spec. apply below_spec. exists (x ++ y). by rewrite app_assoc. Qed.

Lemma rmtree_lookup p f q : rmtree p f !! q = if below p q then None else f !! q.
Proof.
  unfold rmtree. destruct (below p q) eqn:Hb.
  - apply map_lookup_filter_None. right. intros x _. cbn. congruence.
  - destruct (f !! q) as [x|] eqn:Hq.
    + apply map_lookup_filter_Some. by rewrite Hq.
    + apply map_lookup_filter_None. by left.
Qed.

Lemma parent_snoc p n : parent (p ++ [n]) = p.
Proof. unfold parent. rewrite length_app. cbn. rewrite Nat.add_sub. apply take_app_length. Qed.

Lemma name_snoc p n : name_of (p ++ [n]) = n.
Proof. unfold name_of. by rewrite last_snoc. Qed.

Lemma snoc_inj (p q : path) (a b : str) : p ++ [a] = q ++ [b] -> p = q /\ a = b.
Proof. apply app_inj_tail. Qed.

Lemma path_split p : p <> [] -> p = parent p ++ [name_of p].
Proof.
  intros Hp. destruct p as [|n p _] using rev_ind; [done|]. by rewrite parent_snoc, name_snoc.
Qed.

Lemma iterdir_spec p f q : q ∈ iterdir p f <-> q <> [] /\ parent q = p /\ is_Some (f !! q).
Proof.
  unfold iterdir. rewrite list_elem_of_filter, list_elem_of_fmap. split.
  - intros [[Hp Hq] ([k v] & -> & Hin%elem_of_map_to_list)]. cbn in *. eauto.
  - intros (Hq & Hp & v & Hv). split; [done|]. exists (q, v). by rewrite elem_of_map_to_list.
Qed.

Lemma iterdir_nodup p f : NoDup (iterdir p f).
Proof. apply NoDup_filter. apply NoDup_fst_map_to_list. Qed.

(** What [mkdir] leaves: the directories up to the path, the rest unchanged. *)
Lemma mkdirs_lookup above names f f' q : mkdirs above names f = Ok f' ->
  f' !! q = if below q (above ++ names) && (length above <? length q)%nat then Some Dir else f !! q.
Proof.
  revert above f. induction names as [|n names IH]; intros above f; cbn [mkdirs].
  - intros [= <-]. rewrite app_nil_r. destruct (below q above) eqn:Hb; [|done].
    apply below_spec in Hb as [r ->]. rewrite length_app.
    destruct (Nat.ltb_spec (length q + length r) (length q)); [lia|done].
  - assert (Hgo : forall f1, mkdirs (above ++ [n]) names f1 = Ok f' -> f1 !! (above ++ [n]) = Some Dir ->
      (forall q', q' <> above ++ [n] -> f1 !! q' = f !! q') ->
      f' !! q = if below q (above ++ n :: names) && (length above <? length q)%nat then Some Dir else f !! q).
    { intros f1 Hf1 Hdir Hoth. rewrite (IH _ _ Hf1). rewrite <-app_assoc. cbn [app]. rewrite length_app. cbn [length].
      destruct (decide (q = above ++ [n])) as [->|Hne].
      - rewrite length_app. cbn [length]. rewrite Nat.ltb_irrefl, andb_false_r, Hdir.
        assert (below (above ++ [n]) (above ++ n :: names) = true) as ->.
        { apply below_spec. exists names. by rewrite <-app_assoc. }
        by destruct (Nat.ltb_spec (length above) (length above + 1)); [|lia].
      - rewrite (Hoth _ Hne). destruct (below q (above ++ n :: names)) eqn:Hb; [|done]. cbn [andb].
        destruct (Nat.ltb_spec (length above + 1) (length q)), (Nat.ltb_spec (length above) (length q)); try done; [lia|].
        exfalso. apply Hne. apply below_spec in Hb as [r Hr].
        assert (length q = length (above ++ [n])) as Hl by (rewrite length_app; cbn; lia).
        replace (above ++ n :: names) with ((above ++ [n]) ++ names) in Hr by (by rewrite <-app_assoc).
        by apply app_inj_1 in Hr as [? _]. }
    destruct (f !! (above ++ [n])) as [[|c]|] eqn:Hn.
    + intros Hf. by apply (Hgo f).
    + done.
    + intros Hf. apply (Hgo _ Hf); [by rewrite lookup_insert_eq|]. intros q' Hq'. by rewrite lookup_insert_ne.
Qed.

Lemma mkdir_lookup p f f' q : mkdir p f = Ok f' ->
  f' !! q = if below q p && (0 <? length q)%nat then Some Dir else f !! q.
Proof. apply mkdirs_lookup. Qed.

(** [mkdir] succeeds when no file is in the way. *)
Lemma mkdirs_ok above names f :
  (forall q c, f !! q = Some (File c) -> below q (above ++ names) && (length above <? length q)%nat = false) ->
  exists f', mkdirs above names f = Ok f'.
Proof.
  revert above f. induction names as [|n names IH]; intros above f Hf; cbn [mkdirs]; [by eexists|].
  assert (Hin : above ++ n :: names = (above ++ [n]) ++ names) by (by rewrite <-app_assoc).
  assert (Hrec : forall f1, (forall q c, f1 !! q = Some (File c) -> f !! q = Some (File c)) ->
    exists f', mkdirs (above ++ [n]) names f1 = Ok f').
  { intros f1 Hf1. apply IH. intros q c Hq. apply Hf1 in Hq. specialize (Hf q c Hq). rewrite Hin in Hf.
    apply andb_false_iff in Hf as [->|Hl]; [done|]. rewrite length_app in *. cbn [length] in *.
    destruct (Nat.ltb_spec (length above) (length q)); [done|].
    destruct (Nat.ltb_spec (length above + 1) (length q)); [lia|]. apply andb_false_r. }
  destruct (f !! (above ++ [n])) as [[|c]|] eqn:Hn; [by apply Hrec| |].
  - specialize (Hf _ _ Hn). rewrite Hin in Hf. exfalso.
    assert (below (above ++ [n]) ((above ++ [n]) ++ names) = true) as Hb by (apply below_spec; eauto).
    rewrite Hb, length_app in Hf. cbn [andb length] in Hf. apply Nat.ltb_ge in Hf. lia.
  - apply Hrec. intros q c. destruct (decide (q = above ++ [n])) as [->|Hne]; [by rewrite lookup_insert_eq|].
    by rewrite lookup_insert_ne.
Qed.

Lemma create_file_Ok p c f f' : create_file p c f = Ok f' ->
  is_dir (parent p) f = true /\ exists_ p f = false /\ f' = <[p := File c]> f.
Proof.
  unfold create_file, check_parent. destruct (is_dir (parent p) f); [|done]. cbn [mbind result_bind].
  destruct (exists_ p f); [done|]. by intros [= <-].
Qed.

Lemma replace_file_Ok device src dest f f' : replace_file device src dest f = Ok f' ->
  exists c, f !! src = Some (File c) /\ is_dir (parent dest) f = true /\ f' = <[dest := File c]> (delete src f).
Proof.
  unfold replace_file, check_parent. destruct (f !! src) as [[|c]|] eqn:Hs; [done| |done].
  destruct (is_dir (parent dest) f); [|done]. cbn [mbind result_bind].
  destruct (negb _); [done|]. destruct (is_dir dest f); [done|]. intros [= <-]. eauto.
Qed.

Lemma create_file_total p c f : create_file p c f <> OutOfFuel.
Proof. unfold create_file, check_parent. by destruct (is_dir _ _), (exists_ _ _). Qed.

Lemma replace_file_total device src dest f : replace_file device src dest f <> OutOfFuel.
Proof.
  unfold replace_file, check_parent. destruct (f !! src) as [[|c]|]; [done| |done].
  destruct (is_dir (parent dest) f); [|done]. cbn [mbind result_bind]. destruct (negb _); [done|]. by destruct (is_dir dest f).
Qed.
End FileSystem.
