(* ===== verification/PurePaths.v ===== *)
(** [pathlib] on the tree of FileSystem: paths with their dots, what [resolve]
    makes of them, and the way the kernel follows them through the tree. *)
From S2P Require Import Prelude PyBase FileSystem.
Import Bytes Str FileSystem.

Module PurePaths.

(** * Paths

    A [PurePosixPath]: whether it begins at the root, and its names.  Empty names
    and dots are dropped, pairs of dots are kept. *)
Record pure_path := { absolute : bool; names : list str }.
#[export] Instance pure_path_eq_dec : EqDecision pure_path.
Proof. solve_decision. Defined.

Definition dotdot : str := lit "..".
Definition Path (text : str) : pure_path :=
  {| absolute := startswith (lit "/") text;
     names := filter (fun n => n <> [] /\ n <> lit ".") (split_on (code "/") text) |}.
(** [base / p] *)
Definition join (base p : pure_path) : pure_path :=
  if absolute p then p else {| absolute := absolute base; names := names base ++ names p |}.
Definition parts (p : pure_path) : list str := if absolute p then lit "/" :: names p else names p.
Definition name (p : pure_path) : str := default [] (last (names p)).
Definition path_parent (p : pure_path) : pure_path := {| absolute := absolute p; names := parent (names p) |}.
Fixpoint intercalate (sep : str) (l : list str) : str :=
  match l with [] => [] | [x] => x | x :: l' => x ++ sep ++ intercalate sep l' end.
Definition str_path (p : pure_path) : str :=
  if absolute p then lit "/" ++ intercalate (lit "/") (names p)
  else match names p with [] => lit "." | ns => intercalate (lit "/") ns end.

(** [suffix] and [suffixes] of a name. *)
Definition name_suffix (n : str) : str :=
  match last (split_on (code ".") n), split_on (code ".") n with
  | Some ((_ :: _) as e), _ :: _ :: _ => if (length n =? length e + 1)%nat then [] else lit "." ++ e
  | _, _ => []
  end.
Definition name_suffixes (n : str) : list str :=
  if endswith (lit ".") n then [] else map (app (lit ".")) (tail (split_on (code ".") (lstrip (Z.eqb (code ".")) n))).
Definition suffix (p : pure_path) : str := name_suffix (name p).
Definition suffixes (p : pure_path) : list str := name_suffixes (name p).

(** * Resolution

    [resolve()] follows links and removes dots; there are no links here.  It does
    not look whether the path exists.  [cwd] is the working directory. *)
Definition enter (at_ : path) (n : str) : path := if bool_decide (n = dotdot) then parent at_ else at_ ++ [n].
Definition resolve (cwd : path) (p : pure_path) : path := fold_left enter (names p) (if absolute p then [] else cwd).

(** [os.path.commonpath] of two absolute paths. *)
Fixpoint commonpath (a b : path) : path :=
  match a, b with x :: a', y :: b' => if bool_decide (x = y) then x :: commonpath a' b' else [] | _, _ => [] end.

Definition ensure_within_directory (cwd : path) (base_dir candidate : pure_path) : result str unit :=
  let base := resolve cwd base_dir in
  let target := resolve cwd candidate in
  raise_if (bool_decide (commonpath base target <> base)) (lit "Unsafe extraction path detected: " ++ str_path candidate).

(** * System calls on a path

    The kernel goes through the names one by one, each in a directory that must
    exist; the last name need not. *)
Fixpoint walk (f : fs) (at_ : path) (ns : list str) : result os_error path :=
  match ns with
  | [] => Ok at_
  | n :: ns' => if is_dir at_ f then walk f (enter at_ n) ns' else Raise (if is_file at_ f then ENOTDIR else ENOENT)
  end.
Definition lookup_path (cwd : path) (p : pure_path) (f : fs) : result os_error path := walk f (if absolute p then [] else cwd) (names p).

(** [is_dir()], [is_file()], [exists()] *)
Definition path_is (test : path -> fs -> bool) (cwd : path) (p : pure_path) (f : fs) : bool :=
  match lookup_path cwd p f with Ok q => test q f | _ => false end.

(** [os.mkdir] *)
Definition os_mkdir (cwd : path) (p : pure_path) (f : fs) : result os_error fs :=
  let! q := lookup_path cwd p f in
  if exists_ q f then Raise EEXIST else Ok (<[q := Dir]> f).

(** [mkdir(parents=True, exist_ok=True)]: when the directory above is missing it
    is made first, in the same way.  [rev_names] are the names from the last. *)
Definition mkdir_last (cwd : path) (p : pure_path) (f : fs) : result os_error fs :=
  match os_mkdir cwd p f with
  | Raise ENOENT => Raise ENOENT
  | Raise e => if path_is is_dir cwd p f then Ok f else Raise e
  | r => r
  end.
Fixpoint mkdir_names (cwd : path) (abs : bool) (rev_names : list str) (f : fs) : result os_error fs :=
  let p := {| absolute := abs; names := rev rev_names |} in
  match os_mkdir cwd p f, rev_names with
  | Raise ENOENT, _ :: above =>
      let! f := mkdir_names cwd abs above f in
      mkdir_last cwd p f
  | _, _ => mkdir_last cwd p f
  end.
Definition mkdir_parents (cwd : path) (p : pure_path) (f : fs) : result os_error fs :=
  mkdir_names cwd (absolute p) (rev (names p)) f.

(** [open("wb")] of a path: where the file is, and the tree with it empty. *)
Definition open_wb (cwd : path) (p : pure_path) (f : fs) : result os_error (path * fs) :=
  let! q := lookup_path cwd p f in
  if is_dir q f then Raise EISDIR else Ok (q, <[q := File []]> f).

(** [open("rb").read()] *)
Definition read_path (cwd : path) (p : pure_path) (f : fs) : result os_error bytes :=
  let! q := lookup_path cwd p f in read_bytes q f.

(** * A tree: whatever exists is in a directory, and has a real name. *)
Definition real_name (n : str) : Prop := n <> dotdot.
Definition tree_ok (f : fs) : Prop :=
  forall q, is_Some (f !! q) -> q <> [] /\ Forall real_name q /\ is_dir (parent q) f = true.

Lemma tree_ok_parent f q : tree_ok f -> is_Some (f !! q) -> is_dir (parent q) f = true.
Proof. intros Hf Hq. apply (Hf q Hq). Qed.
Lemma is_dir_some f q : q <> [] -> is_dir q f = true <-> f !! q = Some Dir.
Proof. intros Hq. unfold is_dir. destruct q; [done|]. apply bool_decide_eq_true. Qed.

Lemma is_dir_parent f q : tree_ok f -> is_dir q f = true -> is_dir (parent q) f = true.
Proof.
  intros Hf Hq. destruct q as [|n q]; [done|]. apply (tree_ok_parent f); [done|].
  apply is_dir_some in Hq; [|done]. by eexists.
Qed.
Lemma is_dir_insert f q p : f !! q <> Some Dir -> is_dir p f = true -> is_dir p (<[q := Dir]> f) = true.
Proof.
  intros Hq Hp. destruct p as [|n p]; [done|]. apply is_dir_some in Hp; [|done]. apply is_dir_some; [done|].
  rewrite lookup_insert_ne; congruence.
Qed.

(** A tree stays one when a directory is made, or a file is written, in a
    directory. *)
Lemma tree_ok_insert f q x : tree_ok f -> q <> [] -> Forall real_name q -> is_dir (parent q) f = true -> f !! q <> Some Dir ->
  tree_ok (<[q := x]> f).
Proof.
  intros Hf Hne Hreal Hdir Hq p Hp.
  assert (Hkeep : forall r, is_dir r f = true -> is_dir r (<[q := x]> f) = true).
  { intros [|n r]; [done|]. intros Hr%is_dir_some; [|done]. apply is_dir_some; [done|].
    rewrite lookup_insert_ne; [done|]. intros ->. by apply Hq. }
  destruct (decide (p = q)) as [->|Hpq]; [by auto|]. rewrite lookup_insert_ne in Hp by congruence.
  destruct (Hf p Hp) as (? & ? & ?). auto.
Qed.
Lemma tree_ok_delete f q : tree_ok f -> f !! q <> Some Dir -> tree_ok (delete q f).
Proof.
  intros Hf Hq p [x Hp]. apply lookup_delete_Some in Hp as [Hpq Hp].
  destruct (Hf p ltac:(by eexists)) as (? & ? & Hd). split; [done|]. split; [done|].
  destruct (parent p) as [|n r] eqn:Hpar; [done|]. apply is_dir_some in Hd; [|done]. apply is_dir_some; [done|].
  rewrite lookup_delete_ne; [done|]. intros ->. by apply Hq.
Qed.

(** * Resolution and the kernel agree *)
Lemma walk_enter f at_ ns q : walk f at_ ns = Ok q -> q = fold_left enter ns at_.
Proof.
  revert at_. induction ns as [|n ns IH]; intros at_; cbn; [by intros [= <-]|].
  destruct (is_dir at_ f); [apply IH|done].
Qed.
Lemma lookup_resolve cwd p f q : lookup_path cwd p f = Ok q -> q = resolve cwd p.
Proof. apply walk_enter. Qed.
Lemma walk_total f at_ ns : walk f at_ ns <> OutOfFuel.
Proof. revert at_. induction ns as [|n ns IH]; intros at_; cbn; [done|]. by destruct (is_dir at_ f). Qed.

Lemma enter_real at_ n : Forall real_name at_ -> Forall real_name (enter at_ n).
Proof.
  intros Hat. unfold enter. case_bool_decide; [by apply Forall_take|]. apply Forall_app. split; [done|]. by repeat constructor.
Qed.
Lemma resolve_real at_ ns : Forall real_name at_ -> Forall real_name (fold_left enter ns at_).
Proof. revert at_. induction ns as [|n ns IH]; intros at_ Hat; cbn; [done|]. by apply IH, enter_real. Qed.
Lemma enter_plain at_ ns : Forall real_name ns -> fold_left enter ns at_ = at_ ++ ns.
Proof.
  revert at_. induction ns as [|n ns IH]; intros at_ Hns; cbn; [by rewrite app_nil_r|].
  apply Forall_cons in Hns as [Hn Hns]. rewrite IH by done. unfold enter. rewrite bool_decide_eq_false_2 by done.
  by rewrite <-app_assoc.
Qed.
Lemma resolve_join cwd base p : absolute p = false -> absolute base = true ->
  resolve cwd (join base p) = fold_left enter (names p) (resolve cwd base).
Proof. intros Hp Hb. unfold resolve, join. rewrite Hp. cbn. by rewrite Hb, fold_left_app. Qed.

(** Where a walk ends, there is a directory or it is in one. *)
Lemma walk_end f at_ ns q : tree_ok f -> Forall real_name at_ -> (is_dir at_ f = true \/ at_ <> [] /\ is_dir (parent at_) f = true) ->
  walk f at_ ns = Ok q -> is_dir q f = true \/ q <> [] /\ is_dir (parent q) f = true.
Proof.
  intros Hf. revert at_. induction ns as [|n ns IH]; intros at_ Hreal Hat; cbn; [by intros [= <-]|].
  destruct (is_dir at_ f) eqn:Hd; [|done]. apply IH; [by apply enter_real|]. unfold enter. case_bool_decide.
  - left. by apply is_dir_parent.
  - right. split; [by destruct at_|]. by rewrite parent_snoc.
Qed.
Lemma lookup_end p f q cwd : tree_ok f -> absolute p = true -> lookup_path cwd p f = Ok q ->
  Forall real_name q /\ (is_dir q f = true \/ q <> [] /\ is_dir (parent q) f = true).
Proof.
  intros Hf Hp Hq. split.
  - rewrite (lookup_resolve _ _ _ _ Hq). unfold resolve. rewrite Hp. by apply resolve_real.
  - unfold lookup_path in Hq. rewrite Hp in Hq. eapply walk_end; [done..|by left|exact Hq].
Qed.

Lemma commonpath_below a b : commonpath a b = a <-> below a b = true.
Proof.
  unfold below. rewrite bool_decide_eq_true. revert b. induction a as [|x a IH]; intros b; [done|].
  destruct b as [|y b]; [done|]. cbn. case_bool_decide; [subst|].
  - split; intros [= Hab]; f_equal; by apply IH.
  - split; [done|]. congruence.
Qed.
Lemma ensure_within_Ok cwd base candidate u :
  ensure_within_directory cwd base candidate = Ok u <-> below (resolve cwd base) (resolve cwd candidate) = true.
Proof.
  unfold ensure_within_directory. rewrite raise_if_Ok, bool_decide_eq_false, <-commonpath_below.
  destruct (decide (commonpath (resolve cwd base) (resolve cwd candidate) = resolve cwd base)); naive_solver.
Qed.

(** * Directories made *)
Lemma os_mkdir_Ok cwd p f f' : os_mkdir cwd p f = Ok f' ->
  f !! resolve cwd p = None /\ resolve cwd p <> [] /\ f' = <[resolve cwd p := Dir]> f.
Proof.
  unfold os_mkdir. intros (q & Hq & Hf)%bind_Ok. rewrite <-(lookup_resolve _ _ _ _ Hq).
  destruct (exists_ q f) eqn:He; [done|]. injection Hf as <-. unfold exists_ in He. destruct q; [done|].
  apply bool_decide_eq_false in He. split; [|done]. by apply eq_None_not_Some.
Qed.
Lemma os_mkdir_tree cwd p f f' : tree_ok f -> absolute p = true -> os_mkdir cwd p f = Ok f' -> tree_ok f'.
Proof.
  intros Hf Hp Hmk. pose proof (os_mkdir_Ok _ _ _ _ Hmk) as (Hnone & Hne & ->).
  unfold os_mkdir in Hmk. apply bind_Ok in Hmk as (q & Hq & _).
  pose proof (lookup_end _ _ _ _ Hf Hp Hq) as [Hreal Hend]. rewrite (lookup_resolve _ _ _ _ Hq) in Hreal, Hend.
  apply tree_ok_insert; [done..| |congruence].
  destruct Hend as [Hd|[_ Hd]]; [|done]. apply is_dir_some in Hd; congruence.
Qed.

(** What [mkdir] may change: missing directories on the way appear. *)
Definition on_the_way (cwd : path) (p : pure_path) (q : path) : Prop :=
  exists k, q = resolve cwd {| absolute := absolute p; names := take k (names p) |}.
Definition adds_dirs (Ps : path -> Prop) (f f' : fs) : Prop :=
  (tree_ok f -> tree_ok f') /\ forall q, f' !! q = f !! q \/ f !! q = None /\ f' !! q = Some Dir /\ Ps q.

Lemma adds_refl Ps f : adds_dirs Ps f f.
Proof. split; [done|]. by left. Qed.
Lemma adds_trans (Ps : path -> Prop) f1 f2 f3 : adds_dirs Ps f1 f2 -> adds_dirs Ps f2 f3 -> adds_dirs Ps f1 f3.
Proof.
  intros [T1 H1] [T2 H2]. split; [by auto|]. intros q. destruct (H1 q) as [E1|(N1 & D1 & P1)], (H2 q) as [E2|(N2 & D2 & P2)]; [left|right..].
  - congruence.
  - split_and!; [congruence..|done].
  - split_and!; [congruence..|done].
  - congruence.
Qed.
Lemma adds_mono (Ps Ps' : path -> Prop) f f' : (forall q, Ps q -> Ps' q) -> adds_dirs Ps f f' -> adds_dirs Ps' f f'.
Proof. intros HP [T Hq]. split; [done|]. intros q. destruct (Hq q) as [?|(? & ? & ?)]; [by left|right; auto]. Qed.
Lemma adds_mkdir Ps cwd p f f' : absolute p = true -> Ps (resolve cwd p) -> os_mkdir cwd p f = Ok f' -> adds_dirs Ps f f'.
Proof.
  intros Hp HP Hmk. split; [intros Hf; by eapply os_mkdir_tree|]. apply os_mkdir_Ok in Hmk as (Hn & _ & ->). intros q.
  destruct (decide (q = resolve cwd p)) as [->|Hne]; [right|left; by rewrite lookup_insert_ne].
  by rewrite lookup_insert_eq.
Qed.
Lemma mkdir_last_adds Ps cwd p f f' : absolute p = true -> Ps (resolve cwd p) -> mkdir_last cwd p f = Ok f' -> adds_dirs Ps f f'.
Proof.
  intros Hp HP. unfold mkdir_last. destruct (os_mkdir cwd p f) as [f1|[]|] eqn:Hmk; try done; try (destruct (path_is _ _ _ _); [|done]).
  all: intros [= <-]; try apply adds_refl. by eapply adds_mkdir.
Qed.
Lemma mkdir_names_adds (Ps : path -> Prop) cwd rev_names f f' :
  (forall above, above `suffix_of` rev_names -> Ps (resolve cwd {| absolute := true; names := rev above |})) ->
  mkdir_names cwd true rev_names f = Ok f' -> adds_dirs Ps f f'.
Proof.
  revert f f'. induction rev_names as [|n above IH]; intros f f' HPs; cbn [mkdir_names].
  - intros Hf. assert (mkdir_last cwd {| absolute := true; names := rev [] |} f = Ok f') as Hl.
    { by destruct (os_mkdir _ _ _) as [|[]|]. }
    eapply mkdir_last_adds; [| |exact Hl]; [done|]. apply (HPs []). reflexivity.
  - set (p := {| absolute := true; names := rev (n :: above) |}). intros Hf.
    assert ((exists f1, mkdir_names cwd true above f = Ok f1 /\ mkdir_last cwd p f1 = Ok f') \/ mkdir_last cwd p f = Ok f') as [(f1 & H1 & H2)|H2].
    { destruct (os_mkdir cwd p f) as [|[]|]; try (by right). left. by apply bind_Ok. }
    + eapply adds_trans; [eapply IH; [|exact H1]|].
      * intros ab Hab. apply HPs. by apply suffix_cons_r.
      * apply (mkdir_last_adds _ cwd p); [done| |done]. apply HPs. reflexivity.
    + apply (mkdir_last_adds _ cwd p); [done| |done]. apply HPs. reflexivity.
Qed.
Lemma mkdir_parents_adds cwd p f f' : absolute p = true -> mkdir_parents cwd p f = Ok f' -> adds_dirs (on_the_way cwd p) f f'.
Proof.
  intros Hp. unfold mkdir_parents. rewrite Hp. apply mkdir_names_adds. intros above [pre Hpre].
  exists (length above). rewrite Hp. f_equal. f_equal.
  assert (names p = rev above ++ rev pre) as -> by (rewrite <-rev_app_distr, <-Hpre, rev_involutive; done).
  by rewrite <-(length_rev above), take_app_length.
Qed.

Lemma mkdir_last_is_dir cwd p f f' : mkdir_last cwd p f = Ok f' -> is_dir (resolve cwd p) f' = true.
Proof.
  unfold mkdir_last. destruct (os_mkdir cwd p f) as [f1|e|] eqn:Hmk; [| |done].
  - intros [= <-]. apply os_mkdir_Ok in Hmk as (_ & Hne & ->). apply is_dir_some; [done|]. by rewrite lookup_insert_eq.
  - assert (Hp : path_is is_dir cwd p f = true -> is_dir (resolve cwd p) f = true).
    { unfold path_is. destruct (lookup_path cwd p f) eqn:Hq; try done. by apply lookup_resolve in Hq as <-. }
    destruct e; try done; destruct (path_is _ _ _ _); try done; intros [= <-]; by apply Hp.
Qed.
Lemma mkdir_parents_is_dir cwd p f f' : mkdir_parents cwd p f = Ok f' -> is_dir (resolve cwd p) f' = true.
Proof.
  unfold mkdir_parents. assert (Hp : {| absolute := absolute p; names := rev (rev (names p)) |} = p) by (rewrite rev_involutive; by destruct p).
  rewrite <-Hp at 3. destruct (rev (names p)) as [|n above]; cbn [mkdir_names].
  - destruct (os_mkdir _ _ _) as [|[]|]; apply mkdir_last_is_dir.
  - destruct (os_mkdir _ _ _) as [|[]|]; try apply mkdir_last_is_dir. intros (f1 & _ & H2)%bind_Ok. by eapply mkdir_last_is_dir.
Qed.

Lemma dir_above f p q : tree_ok f -> is_dir p f = true -> below q p = true -> is_dir q f = true.
Proof.
  intros Hf Hp [r ->]%below_spec. induction r as [|n r IH] using rev_ind; [by rewrite app_nil_r in Hp|].
  apply IH. rewrite app_assoc in Hp. apply is_dir_parent in Hp; [|done]. by rewrite parent_snoc in Hp.
Qed.
Lemma below_take p k : below (take k p) p = true.
Proof. apply below_spec. exists (drop k p). by rewrite take_drop. Qed.
Lemma below_prefixes p q r : below p r = true -> below q r = true -> below p q = true \/ below q p = true.
Proof.
  intros [a Ha]%below_spec [b Hb]%below_spec. rewrite !below_spec. subst r.
  apply app_eq_app in Hb as (l & [[-> ->]|[-> ->]]); eauto.
Qed.

(** * Paths without pairs of dots *)
Lemma walk_snoc f at_ ns n :
  walk f at_ (ns ++ [n]) = let! q := walk f at_ ns in if is_dir q f then Ok (enter q n) else Raise (if is_file q f then ENOTDIR else ENOENT).
Proof.
  revert at_. induction ns as [|m ns IH]; intros at_; cbn; [by destruct (is_dir at_ f)|]. destruct (is_dir at_ f); [apply IH|done].
Qed.
Lemma enter_real_name q n : real_name n -> enter q n = q ++ [n].
Proof. intros Hn. unfold enter. by rewrite bool_decide_eq_false_2. Qed.

(** In a tree, a plain path whose directory exists is found where it says. *)
Lemma walk_plain f ns : tree_ok f -> Forall real_name ns -> is_dir (parent ns) f = true -> walk f [] ns = Ok ns.
Proof.
  intros Hf. induction ns as [|n ns IH] using rev_ind; [done|]. intros [Hns Hn]%Forall_app Hd. rewrite parent_snoc in Hd.
  apply Forall_cons in Hn as [Hn _]. rewrite walk_snoc, IH; [|done|by apply is_dir_parent]. cbn [mbind result_bind]. by rewrite Hd, enter_real_name.
Qed.
Lemma take_snoc_min k (ns : path) n : take (Nat.min k (length ns)) (ns ++ [n]) = take k ns.
Proof.
  rewrite take_app_le by lia. destruct (Nat.le_gt_cases k (length ns)); [by rewrite Nat.min_l|].
  rewrite Nat.min_r, !take_ge by lia. done.
Qed.
Lemma walk_missing f ns : tree_ok f -> Forall real_name ns -> (forall k, is_file (take k ns) f = false) ->
  walk f [] ns = Ok ns \/ walk f [] ns = Raise ENOENT.
Proof.
  intros Hf. induction ns as [|n ns IH] using rev_ind; [by left|]. intros [Hns Hn]%Forall_app Hfile. apply Forall_cons in Hn as [Hn _].
  assert (Hpre : forall k, is_file (take k ns) f = false).
  { intros k. rewrite <-(take_snoc_min k ns n). apply Hfile. }
  rewrite walk_snoc. destruct (IH Hns Hpre) as [-> | ->]; [|by right]. cbn [mbind result_bind]. specialize (Hfile (length ns)). rewrite take_app_length in Hfile.
  rewrite Hfile. destruct (is_dir ns f); [left; by rewrite enter_real_name|by right].
Qed.

(** [mkdir] of a plain path in whose way there is no file makes what is missing. *)
Definition with_dirs (ns : path) (f f' : fs) : Prop := forall q, f' !! q = if below q ns && (0 <? length q)%nat then Some Dir else f !! q.
Lemma with_dirs_there f ns : tree_ok f -> is_dir ns f = true -> with_dirs ns f f.
Proof.
  intros Hf Hd q. destruct (below q ns) eqn:Hb; [|done]. destruct q as [|n q]; [done|]. cbn [andb length].
  pose proof (dir_above _ _ _ Hf Hd Hb) as Hq. by apply is_dir_some in Hq.
Qed.
Lemma mkdir_last_plain f cwd ns n : tree_ok f -> Forall real_name (ns ++ [n]) -> is_dir ns f = true -> is_file (ns ++ [n]) f = false ->
  exists f', mkdir_last cwd {| absolute := true; names := ns ++ [n] |} f = Ok f' /\ with_dirs (ns ++ [n]) f f'.
Proof.
  intros Hf Hreal Hd Hfile.
  assert (Hw : walk f [] (ns ++ [n]) = Ok (ns ++ [n])) by (apply walk_plain; [done..|by rewrite parent_snoc]).
  unfold mkdir_last, os_mkdir, path_is, lookup_path. cbn [absolute names]. rewrite Hw. cbn [mbind result_bind].
  assert (He : exists_ (ns ++ [n]) f = bool_decide (is_Some (f !! (ns ++ [n])))) by (by destruct ns). rewrite He.
  destruct (f !! (ns ++ [n])) as [[|c]|] eqn:Hq.
  - rewrite bool_decide_eq_true_2 by done. assert (Hdir : is_dir (ns ++ [n]) f = true) by (apply is_dir_some; [by destruct ns|done]).
    rewrite Hdir. eexists. split; [done|]. by apply with_dirs_there.
  - unfold is_file in Hfile. by rewrite Hq in Hfile.
  - rewrite bool_decide_eq_false_2 by (by intros []). eexists. split; [done|]. intros q.
    destruct (decide (q = ns ++ [n])) as [->|Hne].
    { rewrite lookup_insert_eq. assert (below (ns ++ [n]) (ns ++ [n]) = true) as -> by (apply below_spec; exists []; by rewrite app_nil_r).
      rewrite length_app. cbn. by destruct (length ns). }
    rewrite lookup_insert_ne by done. rewrite (with_dirs_there f ns Hf Hd q) at 1.
    assert (below q (ns ++ [n]) = below q ns) as ->; [|by destruct (below q ns && _)].
    destruct (below q ns) eqn:Hb; [apply below_spec in Hb as [r ->]; apply below_spec; exists (r ++ [n]); by rewrite app_assoc|].
    apply below_false. intros [r Hr]. destruct r as [|m r _] using rev_ind; [rewrite app_nil_r in Hr; congruence|].
    rewrite app_assoc in Hr. apply snoc_inj in Hr as [-> ->]. apply below_false in Hb. apply Hb. by exists r.
Qed.
Lemma mkdir_plain cwd f ns : tree_ok f -> Forall real_name ns -> (forall k, is_file (take k ns) f = false) ->
  exists f', mkdir_parents cwd {| absolute := true; names := ns |} f = Ok f' /\ with_dirs ns f f'.
Proof.
  unfold mkdir_parents. cbn [absolute names]. revert f. induction ns as [|n ns IH] using rev_ind; intros f Hf Hreal Hfile.
  - exists f. split; [done|]. by apply with_dirs_there.
  - pose proof Hreal as [Hns Hn]%Forall_app.
    assert (Hpre : forall k, is_file (take k ns) f = false).
    { intros k. rewrite <-(take_snoc_min k ns n). apply Hfile. }
    pose proof (Hfile (length (ns ++ [n]))) as Hlast. rewrite firstn_all in Hlast.
    rewrite rev_app_distr. cbn [rev app mkdir_names]. rewrite rev_involutive.
    destruct (is_dir ns f) eqn:Hd.
    + destruct (mkdir_last_plain f cwd ns n Hf Hreal Hd Hlast) as (f' & Hmk & Hdirs). exists f'. split; [|done].
      assert (os_mkdir cwd {| absolute := true; names := ns ++ [n] |} f <> Raise ENOENT).
      { unfold os_mkdir, lookup_path. cbn [absolute names]. rewrite walk_plain; [|done..|by rewrite parent_snoc]. cbn [mbind result_bind]. by destruct (exists_ _ _). }
      by destruct (os_mkdir _ _ _) as [|[]|].
    + assert (os_mkdir cwd {| absolute := true; names := ns ++ [n] |} f = Raise ENOENT) as ->.
      { unfold os_mkdir, lookup_path. cbn [absolute names]. rewrite walk_snoc.
        destruct (walk_missing f ns Hf Hns Hpre) as [-> | ->]; [|done]. cbn [mbind result_bind]. rewrite Hd.
        specialize (Hpre (length ns)). rewrite firstn_all in Hpre. by rewrite Hpre. }
      destruct (IH f Hf Hns Hpre) as (f1 & H1 & Hdirs1). rewrite H1. cbn [mbind result_bind].
      assert (Hmk1 : mkdir_parents cwd {| absolute := true; names := ns |} f = Ok f1) by done.
      pose proof (mkdir_parents_is_dir _ _ _ _ Hmk1) as Hd1. unfold resolve in Hd1. cbn [absolute names] in Hd1. rewrite enter_plain in Hd1 by done.
      apply mkdir_parents_adds in Hmk1 as [Ht1 _]; [|done].
      assert (Hfile1 : is_file (ns ++ [n]) f1 = false).
      { unfold is_file in *. rewrite Hdirs1. by destruct (below _ _ && _). }
      destruct (mkdir_last_plain f1 cwd ns n (Ht1 Hf) Hreal Hd1 Hfile1) as (f' & Hmk & Hdirs). exists f'. split; [done|].
      intros q. rewrite Hdirs, Hdirs1. destruct (below q (ns ++ [n])) eqn:Hb; cbn [andb]; [destruct (0 <? length q)%nat; [done|by rewrite andb_false_r]|].
      destruct (below q ns) eqn:Hb'; [|done]. exfalso. apply below_spec in Hb' as [r ->]. apply below_false in Hb. apply Hb.
      exists (r ++ [n]). by rewrite app_assoc.
Qed.
End PurePaths.
