(* ===== verification/Effects.v ===== *)
(** Programs that change a world and may raise: the world they leave is kept
    when they raise.  Rules for what every run does to the world, for what a run
    returns and for what it raises. *)
From S2P Require Import Prelude.

Module Effects.

Definition io (W E A : Type) : Type := W -> W * result E A.
#[export] Instance io_ret W E : MRet (io W E) := fun _ a w => (w, Ok a).
#[export] Instance io_bind W E : MBind (io W E) := fun _ _ f m w =>
  match m w with
  | (w', Ok a) => f a w'
  | (w', Raise e) => (w', Raise e)
  | (w', OutOfFuel) => (w', OutOfFuel)
  end.
Notation "'do!' x := m 'in' k" := (mbind (M := io _ _) (fun x => k) m)
  (at level 200, x pattern, m at level 100, k at level 200, right associativity,
   format "'[v' 'do!'  x  :=  m  'in' '/' k ']'") : py_scope.

Section io.
Context {W E : Type}.

(** A computation that touches nothing, a read and a change of the world. *)
Definition pure {A} (r : result E A) : io W E A := fun w => (w, r).
Definition raise {A} (e : E) : io W E A := pure (Raise e).
Definition asks {A} (f : W -> result E A) : io W E A := fun w => (w, f w).
Definition update {A} (f : W -> result E (A * W)) : io W E A := fun w =>
  match f w with Ok (a, w') => (w', Ok a) | Raise e => (w, Raise e) | OutOfFuel => (w, OutOfFuel) end.

(** [try: m except e: h e]; [h] may raise again. *)
Definition catch {A} (m : io W E A) (h : E -> io W E A) : io W E A := fun w =>
  match m w with (w', Raise e) => h e w' | r => r end.

(** [for x in l: s = f(s, x)] *)
Fixpoint for_each {S X} (f : S -> X -> io W E S) (s : S) (l : list X) : io W E S :=
  match l with
  | [] => mret s
  | x :: l' => do! s' := f s x in for_each f s' l'
  end.

Lemma bind_run {A B} (m : io W E A) (f : A -> io W E B) w w' a : m w = (w', Ok a) -> mbind f m w = f a w'.
Proof. unfold mbind, io_bind. by intros ->. Qed.
Lemma bind_raise {A B} (m : io W E A) (f : A -> io W E B) w w' e : m w = (w', Raise e) -> mbind f m w = (w', Raise e).
Proof. unfold mbind, io_bind. by intros ->. Qed.

(** * What every run does to the world *)
Section throughout.
Context (G : W -> W -> Prop) `{!PreOrder G}.
Definition throughout {A} (m : io W E A) : Prop := forall w, G w (fst (m w)).

Lemma throughout_pure {A} (r : result E A) : throughout (pure r).
Proof using All. intros w. reflexivity. Qed.
Lemma throughout_ret {A} (a : A) : throughout (mret a).
Proof using All. intros w. reflexivity. Qed.
Lemma throughout_asks {A} (f : W -> result E A) : throughout (asks f).
Proof using All. intros w. reflexivity. Qed.
Lemma throughout_update {A} (f : W -> result E (A * W)) : (forall w a w', f w = Ok (a, w') -> G w w') -> throughout (update f).
Proof using All. intros Hf w. unfold update. destruct (f w) as [[a w']|e|] eqn:Hw; [by eapply Hf|reflexivity..]. Qed.
Lemma throughout_bind_post {A B} (Good : A -> Prop) (m : io W E A) (f : A -> io W E B) :
  throughout m -> (forall w w' a, m w = (w', Ok a) -> Good a) -> (forall a, Good a -> throughout (f a)) -> throughout (mbind f m).
Proof using All.
  intros Hm Hgood Hf w. unfold mbind, io_bind. specialize (Hm w). destruct (m w) as [w' [a|e|]] eqn:Hw; cbn in *; [|done..].
  etrans; [exact Hm|apply Hf]. by eapply Hgood.
Qed.
Lemma throughout_bind {A B} (m : io W E A) (f : A -> io W E B) : throughout m -> (forall a, throughout (f a)) -> throughout (mbind f m).
Proof using All. intros Hm Hf. apply (throughout_bind_post (fun _ => True)); auto. Qed.
Lemma throughout_catch {A} (m : io W E A) (h : E -> io W E A) : throughout m -> (forall e, throughout (h e)) -> throughout (catch m h).
Proof using All.
  intros Hm Hh w. unfold catch. specialize (Hm w). destruct (m w) as [w' [a|e|]]; cbn in *; [done| |done].
  etrans; [exact Hm|apply Hh].
Qed.
Lemma throughout_for {S X} (f : S -> X -> io W E S) s l : (forall s x, x ∈ l -> throughout (f s x)) -> throughout (for_each f s l).
Proof using All.
  revert s. induction l as [|x l IH]; intros s Hf; cbn [for_each]; [apply throughout_ret|].
  apply throughout_bind; [apply Hf; by left|]. intros s'. apply IH. intros s1 y Hy. apply Hf. by right.
Qed.
End throughout.

(** * What a run returns and raises *)
Definition ends {A} (P : W -> Prop) (m : io W E A) (Q : A -> W -> Prop) (R : E -> W -> Prop) : Prop :=
  forall w, P w -> match m w with (w', Ok a) => Q a w' | (w', Raise e) => R e w' | (_, OutOfFuel) => False end.

Lemma ends_ret {A} (P : W -> Prop) (a : A) Q R : (forall w, P w -> Q a w) -> ends P (mret a) Q R.
Proof. intros HQ w Hw. by apply HQ. Qed.
Lemma ends_bind {A B} P (m : io W E A) (f : A -> io W E B) Q Q' R :
  ends P m Q R -> (forall a, ends (Q a) (f a) Q' R) -> ends P (mbind f m) Q' R.
Proof.
  intros Hm Hf w Hw. specialize (Hm w Hw). unfold mbind, io_bind. destruct (m w) as [w' [a|e|]]; [|done..].
  by apply Hf.
Qed.
Lemma ends_catch {A} P (m : io W E A) (h : E -> io W E A) Q R R' :
  ends P m Q R -> (forall e, ends (R e) (h e) Q R') -> ends P (catch m h) Q R'.
Proof.
  intros Hm Hh w Hw. specialize (Hm w Hw). unfold catch. destruct (m w) as [w' [a|e|]]; [done| |done].
  by apply Hh.
Qed.
Lemma ends_mono {A} (P P' : W -> Prop) (m : io W E A) (Q Q' : A -> W -> Prop) (R R' : E -> W -> Prop) :
  ends P m Q R -> (forall w, P' w -> P w) -> (forall a w, Q a w -> Q' a w) -> (forall e w, R e w -> R' e w) -> ends P' m Q' R'.
Proof.
  intros Hm HP HQ HR w Hw. specialize (Hm w (HP w Hw)). destruct (m w) as [w' [a|e|]]; [by apply HQ|by apply HR|done].
Qed.
Lemma ends_asks {A} P (f : W -> result E A) Q R :
  (forall w, P w -> outcome (fun a => Q a w) (fun e => R e w) (f w)) -> ends P (asks f) Q R.
Proof. intros Hf w Hw. specialize (Hf w Hw). unfold asks. by destruct (f w). Qed.
Lemma ends_update {A} P (f : W -> result E (A * W)) Q R :
  (forall w, P w -> outcome (fun aw => Q (fst aw) (snd aw)) (fun e => R e w) (f w)) -> ends P (update f) Q R.
Proof. intros Hf w Hw. specialize (Hf w Hw). unfold update. by destruct (f w) as [[a w']| |]. Qed.
(** A loop whose invariant speaks of the elements that are done. *)
Lemma ends_for {S X} (I : list X -> S -> W -> Prop) R (f : S -> X -> io W E S) s l :
  (forall done_ x rest s, l = done_ ++ x :: rest -> ends (I done_ s) (f s x) (I (done_ ++ [x])) R) ->
  ends (I [] s) (for_each f s l) (I l) R.
Proof.
  intros Hf. assert (Hgo : forall rest done_ s, l = done_ ++ rest -> ends (I done_ s) (for_each f s rest) (I l) R).
  { induction rest as [|x rest IH]; intros done_ s' Hl; cbn [for_each].
    - rewrite app_nil_r in Hl. subst. by apply ends_ret.
    - eapply ends_bind; [by eapply Hf|]. intros s1. apply IH. by rewrite <-app_assoc. }
  by apply (Hgo l []).
Qed.
End io.

(** Goes through a program by the rules of [throughout]; what it does with steps of
    its own is left. *)
Ltac throughout_step :=
  lazymatch goal with
  | |- throughout _ (mret _) => apply throughout_ret; apply _
  | |- throughout _ (pure _) => apply throughout_pure; apply _
  | |- throughout _ (raise _) => apply throughout_pure; apply _
  | |- throughout _ (asks _) => apply throughout_asks; apply _
  | |- throughout _ (mbind _ _) => apply throughout_bind; [apply _| |intros ?]
  | |- throughout _ (catch _ _) => apply throughout_catch; [apply _| |intros ?]
  | |- throughout _ (let '(_, _) := ?x in _) => destruct x
  | |- throughout _ (match ?x with _ => _ end) => destruct x
  end.
Ltac throughout_steps := repeat throughout_step.
End Effects.
