(* ===== verification/Ad1Image.v ===== *)
(** AD1 logical images (ingest/ad1_image.py): the files listed from the tree of an
    image, and the paths they are given.  The tree is what the AD1 reader finds in
    an image; [P] is what it offers to read an entry with. *)
From S2P Require Import Prelude PyBase PyRuntime FileSystem PurePaths.
Import Bytes Str PyRuntime.

Module Ad1Image.
Section ad1.
Context `{Runtime} {P : Type}.

Record entry_info := {
  entry_name : str;
  deleted : bool;        (** [type is not None and type.name == "Deleted"] *)
  is_dir : bool;
  is_file : bool;
  is_symlink : bool;
  size : Z;              (** an entry for which the reader gives [None] is left out *)
  reader : P }.
Inductive entry : Type := Entry (info : entry_info) (children : list entry).
Definition info_of (e : entry) : entry_info := let '(Entry info _) := e in info.
Definition iterdir (e : entry) : list entry := let '(Entry _ children) := e in children.

(** [_DRIVE_PART.match]: the letter of a drive; [$] also holds before a last
    line feed. *)
Definition is_letter (c : Z) : bool := ((65 <=? c) && (c <=? 90)) || ((97 <=? c) && (c <=? 122)).
Definition drive_part (part : str) : option str :=
  match part with
  | c :: d :: rest =>
      if is_letter c && (d =? code ":") && bool_decide (rest ∈ [[]; [code "\"]; [10]; [code "\"; 10]]) then Some [c] else None
  | _ => None
  end.
Definition upper1 (c : Z) : Z := if (97 <=? c) && (c <=? 122) then c - 32 else c.
Definition drive_of (part : str) : option str := map upper1 <$> drive_part part.

Definition _ROOT_PART : str := lit "[root]".

Fixpoint index_of (x : str) (l : list str) : option nat :=
  match l with
  | [] => None
  | y :: l' => if bool_decide (x = y) then Some O else S <$> index_of x l'
  end.

Definition rebase_parts (parts : list str) : list str :=
  match index_of _ROOT_PART (map py_lower parts) with
  | Some index =>
      let rest := drop (index + 1) parts in
      match omap drive_of (take index parts) with drive :: _ => drive :: rest | [] => rest end
  | None => filter (fun part => part ∉ [[]; lit "\"; lit "/"]) (map (fun part => default part (drive_of part)) parts)
  end.

(** In the code a child of size [None] cannot be ranked against an empty one of
    its name: comparing [None] with 0 raises [TypeError]. *)
Definition _content_rank (e : entry_info) : Z * Z := (if size e =? 0 then 0 else 1, size e).
Definition rank_gt (a b : Z * Z) : bool := (snd b <? snd a) && (fst b =? fst a) || (fst b <? fst a).

(** The children that are kept, by lower-case name in the order these were first
    seen.  Each child comes with what walking it yields. *)
Definition choose {X} (chosen : list (str * (entry_info * X))) (child : entry_info * X) : list (str * (entry_info * X)) :=
  if deleted (fst child) then chosen
  else
    let key := py_lower (entry_name (fst child)) in
    match Dict.get key chosen with
    | None => Dict.set key child chosen
    | Some current =>
        if negb (is_dir (fst child)) && negb (is_dir (fst current)) && rank_gt (_content_rank (fst child)) (_content_rank (fst current))
        then Dict.set key child chosen
        else chosen
    end.

Definition yields (child_parts : list str) (child : entry_info * (list str -> list (str * entry_info))) : list (str * entry_info) :=
  if is_dir (fst child) then snd child child_parts
  else if is_file (fst child) && negb (is_symlink (fst child)) then
    match rebase_parts child_parts with
    | [] => []
    | rebased => [(PurePaths.intercalate (lit "/") rebased, fst child)]
    end
  else [].

Fixpoint walk (e : entry) (parts : list str) {struct e} : list (str * entry_info) :=
  let '(Entry _ children) := e in
  let chosen := fold_left choose (map (fun child => (info_of child, walk child)) children) [] in
  concat (map (fun kv => yields (parts ++ [entry_name (fst (snd kv))]) (snd kv)) chosen).

Definition iter_ad1_files (root : entry) : list (str * entry_info) := walk root [].

End ad1.
Arguments entry_info : clear implicits.
Arguments entry : clear implicits.
End Ad1Image.
