(* ===== verification/Archive.v ===== *)
(** Archives and folders of evidence (ingest/archive.py): what is ignored, the
    check of a member's path, the extraction of ZIP, 7-Zip and AD1 files, the copy
    and the inventory of folders, the classification of failures.

    The members of an archive are what Python's [zipfile], the 7-Zip tool and the
    AD1 reader find in its bytes ([ZipFile], [seven_zip], [open_ad1]); reading one
    gives bytes and possibly an exception.  The log lines and the texts of
    classified failures are left out, their codes are kept. *)
From S2P Require Import Prelude PyBase PyRuntime PyDates FileSystem PurePaths Effects Ad1Image.
Import Bytes Str PyRuntime PyDates FileSystem PurePaths Effects.

Module Archive.

(** [FileNotFoundError] is the [OSError] with [ENOENT]; [NotImplementedError] is a
    [RuntimeError]. *)
Inductive errno : Type := Errno (e : os_error) | ENOSPC | OtherErrno.
Inductive exn : Type :=
  | OSError (errno_ : errno)
  | ValueError (text : str)
  | RuntimeError (text : str)
  | BadZipFile
  | TimeoutExpired
  | CalledProcessError (stderr stdout : bytes)
  | ArchiveExtractionError (code_ : str)
  | AD1ImageError (code_ text : str)
  | OtherException.
#[export] Instance exn_eq_dec : EqDecision exn.
Proof. assert (EqDecision errno) by solve_decision. solve_decision. Defined.

Record progress := { processed_files : Z; total_files : Z; processed_bytes : Z; total_bytes : Z; current_path : str }.

(** The tree, the modification times that were set explicitly (nanoseconds since
    1970; a file that was written since has the time of writing), and the progress
    that was reported. *)
Record store := { tree : fs; mtimes : gmap path Z; reported : list progress }.
#[export] Instance store_rebuild : Rebuild store := fun w =>
  {| tree := tree w; mtimes := mtimes w; reported := reported w |}.
Abbreviation io := (Effects.io store exn).

(** What reading a member or a file gives: the bytes before the end or the
    exception that ends it. *)
Record stream := { chunks : bytes; read_error : option exn }.

(** [zipfile.ZipInfo], with what [archive.open] does for it. *)
Record ZipInfo := {
  filename : str;
  file_size : Z;
  compress_type : Z;
  extra : bytes;
  date_time : Z * Z * Z * Z * Z * Z;
  zip_open : result exn stream }.

(** A file that 7-Zip left in the temporary directory, in the order of [rglob].
    [inside]: it resolves to a path within that directory. *)
Record temp_file := {
  relative : list str;
  inside : bool;
  st_size : Z;
  st_mtime : Z;
  content : stream }.

(** What an AD1 entry is read with: its content and the year and time that its
    [mtime] has, if reading that does not raise. *)
Record ad1_reader := { ad1_open : result exn stream; ad1_mtime : option (Z * Z) }.

Record manifest_entry := {
  entry_path : str;
  ignored : bool;
  reason : option str;
  entry_size : Z;
  status : option str;
  local_path : option str }.

Record Settings := { backend_max_extracted_files : Z; backend_max_extracted_bytes : Z }.

Definition IGNORED_NAMES : list str := [lit ".DS_Store"].
Definition WINDOWS_IGNORED_NAMES : list str := [lit "desktop.ini"; lit "thumbs.db"].
(** Stored, Deflate, BZip2 and LZMA. *)
Definition _ZIPFILE_SUPPORTED_COMPRESSION : list Z := [0; 8; 12; 14].
Definition SEVEN_ZIP_ARCHIVE_SUFFIXES : list (list str) :=
  [[lit ".7z"]; [lit ".rar"]; [lit ".tar"]; [lit ".gz"]; [lit ".bz2"]; [lit ".xz"]; [lit ".tgz"]; [lit ".tbz2"]; [lit ".txz"];
   [lit ".tar"; lit ".gz"]; [lit ".tar"; lit ".bz2"]; [lit ".tar"; lit ".xz"]].

(** * Times *)
Definition _ZIP_UNIX_TIME_EXTRA : Z := 0x5455.
Definition _DOS_EPOCH : Z * Z * Z * Z * Z * Z := (1980, 1, 1, 0, 0, 0).
Definition signed32 (v : Z) : Z := if v <? 2147483648 then v else v - 4294967296.
Definition extra_step (extra : bytes) (offset : Z) : result Empty_set (Z + option Z) :=
  if offset + 4 <=? len extra then
    let tag := le_val (slice offset (offset + 2) extra) in
    let size := le_val (slice (offset + 2) (offset + 4) extra) in
    let body := slice (offset + 4) (offset + 4 + size) extra in
    if (tag =? _ZIP_UNIX_TIME_EXTRA) && (5 <=? len body) && Z.odd (default 0 (head body))
    then Ok (inr (Some (signed32 (le_val (slice 1 5 body)))))
    else Ok (inl (offset + (4 + size)))
  else Ok (inr None).
(** In seconds. *)
Definition zip_member_mtime (member : ZipInfo) : result Empty_set (option Z) :=
  let! found := while (S (length (extra member))) (extra_step (extra member)) 0 in
  match found with
  | Some t => Ok (Some t)
  | None => Ok (if bool_decide (date_time member = _DOS_EPOCH) then None else utc_timestamp (date_time member))
  end.
Definition seconds (t : Z) : Z := t * 1000000000.

Section archive.
Context `{Runtime} (settings : Settings) (cwd : path) (backend_temp_dir : pure_path).
Context (ZipFile : bytes -> result exn (list ZipInfo)) (seven_zip : result os_error bytes -> result exn (list temp_file)).
Context (open_ad1 : bytes -> result exn (Ad1Image.entry ad1_reader)).
Context (exc_text : exn -> str) (progress_cb : option (progress -> result exn unit)).

(** * Classification of failures *)
Definition _is_disk_space_error (e : exn) : bool := bool_decide (e = OSError ENOSPC).

(** [decode("utf-8", "ignore")]: a byte that begins no character is dropped. *)
Fixpoint utf8_ignore (fuel : nat) (d : bytes) : str :=
  match fuel, d with
  | S fuel, b :: rest =>
      match list_find (fun n => is_Some (utf8_decode (take n d)) /\ (n <= length d)%nat) [1%nat; 2%nat; 3%nat; 4%nat] with
      | Some (_, n) => default [] (utf8_decode (take n d)) ++ utf8_ignore fuel (drop n d)
      | None => utf8_ignore fuel rest
      end
  | _, _ => []
  end.
Definition _decode_process_output (stderr stdout : bytes) : str :=
  let output := stderr ++ [10] ++ stdout in utf8_ignore (length output) output.

Definition failure (code : string) : exn := ArchiveExtractionError (lit code).
Definition _classify_seven_zip_failure (e : exn) : exn :=
  match e with
  | OSError (Errno ENOENT) => failure "archive_tool_missing"
  | TimeoutExpired => failure "archive_extraction_timeout"
  | CalledProcessError stderr stdout =>
      let output := py_lower (_decode_process_output stderr stdout) in
      let has := fun text => contains (lit text) output in
      if has "wrong password" || has "enter password" then failure "archive_password_protected"
      else if has "no space left" || has "not enough space" || has "disk full" then failure "archive_insufficient_disk_space"
      else if (has "cannot open" && has "as archive") || has "is not supported archive" || has "unsupported method"
      then failure "archive_unsupported_format"
      else if has "data error" || has "crc failed" || has "headers error" || has "unexpected end of archive"
      then failure "archive_corrupted"
      else failure "archive_extraction_failed"
  | _ => if _is_disk_space_error e then failure "archive_insufficient_disk_space" else failure "archive_extraction_failed"
  end.
(** An [AD1ImageError] is a [RuntimeError]; an [ArchiveExtractionError] would be
    one, but is never classified. *)
Definition _classify_zip_failure (e : exn) : exn :=
  match e with
  | BadZipFile => failure "archive_corrupted"
  | RuntimeError text | AD1ImageError _ text =>
      if contains (lit "password") (py_lower text) then failure "archive_password_protected" else failure "archive_extraction_failed"
  | _ => if _is_disk_space_error e then failure "archive_insufficient_disk_space" else failure "archive_extraction_failed"
  end.
Definition _classify_limit_exceeded (text : str) : option exn :=
  if contains (lit "limit exceeded") (py_lower text) then Some (failure "archive_extraction_limit_exceeded") else None.

(** * Paths *)
Definition should_ignore_path (p : pure_path) (size : option Z) (is_dir : bool) : bool * option str :=
  let lowered_parts := map py_lower (parts p) in
  if is_dir then (true, Some (lit "ignored_directory"))
  else if bool_decide (lit "__macosx" ∈ lowered_parts) then (true, Some (lit "ignored_macos_directory"))
  else if bool_decide (name p ∈ IGNORED_NAMES) then (true, Some (lit "ignored_macos_metadata"))
  else if startswith (lit "._") (name p) || existsb (startswith (lit "._")) (parts p)
  then (true, Some (lit "ignored_appledouble_resource_fork"))
  else if bool_decide (py_lower (name p) ∈ WINDOWS_IGNORED_NAMES) then (true, Some (lit "ignored_windows_metadata"))
  else if bool_decide (size = Some 0) then (true, Some (lit "ignored_zero_size"))
  else (false, None).

Definition _validate_path (dest_dir : pure_path) (member_name : str) : result exn pure_path :=
  let target := join dest_dir (Path member_name) in
  let! _ := raise_if (absolute (Path member_name)) (ValueError (lit "Absolute archive path is not allowed: " ++ member_name)) in
  let! _ := map_err ValueError (ensure_within_directory cwd dest_dir target) in
  Ok target.

Definition _matches_suffix_parts (p : pure_path) (suffix_parts : list str) : bool :=
  let found := map py_lower (suffixes p) in
  bool_decide (drop (length found - length suffix_parts) found = suffix_parts).
Definition _is_seven_zip_supported_archive (p : pure_path) : bool := existsb (_matches_suffix_parts p) SEVEN_ZIP_ARCHIVE_SUFFIXES.

(** * Limits *)
Definition counted (entries : list manifest_entry) : list manifest_entry := filter (fun e => ignored e = false) entries.
Definition sum (l : list Z) : Z := fold_right Z.add 0 l.
Definition _enforce_limits (entries : list manifest_entry) : result exn unit :=
  let file_count := len (counted entries) in
  let total_bytes := sum (map entry_size (counted entries)) in
  let over := fun what (n limit : Z) => ValueError (lit what ++ str_of_Z n ++ lit " > " ++ str_of_Z limit) in
  let! _ := raise_if (backend_max_extracted_files settings <? file_count)
                     (over "Extracted file count limit exceeded: " file_count (backend_max_extracted_files settings)) in
  raise_if (backend_max_extracted_bytes settings <? total_bytes)
           (over "Extracted byte limit exceeded: " total_bytes (backend_max_extracted_bytes settings)).

(** * Files *)
Definition os {A} (call : fs -> result os_error A) : io A := asks (fun w => map_err (fun e => OSError (Errno e)) (call (tree w))).
Definition change (call : fs -> result os_error fs) : io unit :=
  update (fun w => let! f := map_err (fun e => OSError (Errno e)) (call (tree w)) in Ok (tt, w <| tree := f |>)).
Definition mkdir (p : pure_path) : io unit := change (mkdir_parents cwd p).

(** [with ... as src, target.open("wb") as dst: shutil.copyfileobj(src, dst)],
    once [src] is open. *)
Definition write_stream (target : pure_path) (src : stream) : io unit :=
  do! q := update (fun w => let! qf := map_err (fun e => OSError (Errno e)) (open_wb cwd target (tree w)) in
                            Ok (fst qf, w <| tree := snd qf |> <| mtimes := delete (fst qf) (mtimes w) |>)) in
  do! _ := update (fun w => Ok (tt, w <| tree := append_bytes q (chunks src) (tree w) |>)) in
  match read_error src with None => mret tt | Some e => raise e end.

Definition utime (target : pure_path) (t : Z) : io unit :=
  update (fun w => match lookup_path cwd target (tree w) with
                   | Ok q => Ok (tt, if exists_ q (tree w) then w <| mtimes := <[q := t]> (mtimes w) |> else w)
                   | _ => Ok (tt, w)
                   end).
Definition restore_mtime (target : pure_path) (mtime : option Z) : io unit :=
  match mtime with Some t => utime target t | None => mret tt end.
Definition unlink_missing_ok (target : pure_path) : io unit :=
  change (fun f => match lookup_path cwd target f with
                   | Ok q => unlink q f
                   | Raise ENOENT => Ok f
                   | Raise e => Raise e
                   | OutOfFuel => OutOfFuel
                   end).
(** [shutil.copy2] of a file called [file_name]. *)
Definition copy2 (file_name : str) (src : stream) (mtime : option Z) (target : pure_path) : io unit :=
  do! into := os (fun f => Ok (path_is is_dir cwd target f)) in
  let dst := if (into : bool) then join target {| absolute := false; names := [file_name] |} else target in
  do! _ := write_stream dst src in
  restore_mtime dst mtime.

Definition report (p : progress) : io unit :=
  match progress_cb with
  | None => mret tt
  | Some cb => do! _ := update (fun w => Ok (tt, w <| reported := reported w ++ [p] |>)) in pure (cb p)
  end.

(** * ZIP *)
Definition extraction_entry (path_ : str) (ignored_ : bool) (reason_ : option str) (size : Z) (target : option str) : manifest_entry :=
  {| entry_path := path_; ignored := ignored_; reason := reason_; entry_size := size;
     status := Some (if ignored_ then lit "ignored" else lit "extracted");
     local_path := if ignored_ then None else target |}.
Definition zip_is_dir (member : ZipInfo) : bool := endswith (lit "/") (filename member).

Definition zip_step (dest_dir : pure_path) (files bytes_ : Z) (s : list manifest_entry * Z * Z) (member : ZipInfo) :
    io (list manifest_entry * Z * Z) :=
  let '(entries, processed_files, processed_bytes) := s in
  do! target := pure (_validate_path dest_dir (filename member)) in
  let '(ignored, reason) := should_ignore_path (Path (filename member)) (Some (file_size member)) false in
  let processed_files := processed_files + 1 in
  let processed_bytes := processed_bytes + file_size member in
  let entries := entries ++ [extraction_entry (filename member) ignored reason (file_size member) (Some (str_path target))] in
  do! _ := (if ignored then mret tt else
              do! _ := mkdir (path_parent target) in
              do! src := pure (zip_open member) in
              do! _ := write_stream target src in
              do! mtime := pure (map_err (fun e : Empty_set => match e with end) (zip_member_mtime member)) in
              restore_mtime target (seconds <$> mtime)) in
  do! _ := report {| processed_files := processed_files; total_files := files; processed_bytes := processed_bytes;
                     total_bytes := bytes_; current_path := filename member |} in
  mret (entries, processed_files, processed_bytes).

Definition _safe_members_zip (infolist : list ZipInfo) (dest_dir : pure_path) : io (list manifest_entry) :=
  let members := filter (fun member => zip_is_dir member = false) infolist in
  do! (entries, _, _) := for_each (zip_step dest_dir (len members) (sum (map file_size members))) ([], 0, 0) members in
  do! _ := pure (_enforce_limits entries) in
  mret entries.

(** [extracted = [entry["path"] for entry in ... if not entry["ignored"]]] *)
Definition extracted_paths (entries : list manifest_entry) : list str := map entry_path (counted entries).

(** The [except] clauses of the extraction functions. *)
Definition classified {A} (classify : exn -> exn) (m : io A) : io A :=
  catch m (fun e =>
    match e with
    | ArchiveExtractionError _ => raise e
    | ValueError text => raise (default (classify e) (_classify_limit_exceeded text))
    | _ => raise (classify e)
    end).

Definition read_source (source : pure_path) : io bytes := os (read_path cwd source).

Definition _extract_zip (source dest_dir : pure_path) : io (list str * list manifest_entry) :=
  classified _classify_zip_failure
    (do! data := read_source source in
     do! infolist := pure (ZipFile data) in
     do! entries := _safe_members_zip infolist dest_dir in
     mret (extracted_paths entries, entries)).

(** * 7-Zip *)
Definition temp_step (dest_dir : pure_path) (files bytes_ : Z) (s : list manifest_entry * Z * Z) (file : temp_file) :
    io (list manifest_entry * Z * Z) :=
  let '(entries, processed_files, processed_bytes) := s in
  let relative_ := {| absolute := false; names := relative file |} in
  do! _ := pure (raise_if (negb (inside file))
                   (ValueError (lit "Unsafe extraction path detected: " ++ str_path (join backend_temp_dir relative_)))) in
  let '(ignored, reason) := should_ignore_path relative_ (Some (st_size file)) false in
  let entries := entries ++ [extraction_entry (str_path relative_) ignored reason (st_size file) (Some (str_path (join dest_dir relative_)))] in
  let processed_files := processed_files + 1 in
  let processed_bytes := processed_bytes + st_size file in
  do! _ := (if ignored then mret tt else
              do! target := pure (_validate_path dest_dir (str_path relative_)) in
              do! _ := mkdir (path_parent target) in
              copy2 (default [] (last (relative file))) (content file) (Some (st_mtime file)) target) in
  do! _ := report {| processed_files := processed_files; total_files := files; processed_bytes := processed_bytes;
                     total_bytes := bytes_; current_path := str_path relative_ |} in
  mret (entries, processed_files, processed_bytes).

Definition _extract_seven_zip (source dest_dir : pure_path) : io (list str * list manifest_entry) :=
  classified _classify_seven_zip_failure
    (do! files := asks (fun w => seven_zip (read_path cwd source (tree w))) in
     do! (entries, _, _) := for_each (temp_step dest_dir (len files) (sum (map st_size files))) ([], 0, 0) files in
     do! _ := pure (_enforce_limits entries) in
     mret (extracted_paths entries, entries)).

Definition _zip_needs_seven_zip (source : pure_path) : io bool :=
  catch (do! data := read_source source in
         do! infolist := pure (ZipFile data) in
         mret (existsb (fun entry => bool_decide (compress_type entry ∉ _ZIPFILE_SUPPORTED_COMPRESSION)) infolist))
        (fun _ => mret false).

(** * AD1 *)
Definition entry_mtime (entry : ad1_reader) : option Z :=
  match ad1_mtime entry with Some (year, t) => if 1970 <? year then Some t else None | None => None end.

(** A file that cannot be read is removed and listed as failed, unless the disk is
    full; [total_files] is the number of files. *)
Definition ad1_copy (entry : ad1_reader) (target : pure_path) (record : manifest_entry) : io manifest_entry :=
  let failed := fun e => do! _ := unlink_missing_ok target in
                         mret {| entry_path := entry_path record; ignored := ignored record; reason := Some (take 300 (exc_text e));
                                 entry_size := entry_size record; status := Some (lit "failed"); local_path := local_path record |} in
  catch (do! src := pure (ad1_open entry) in
         do! _ := write_stream target src in
         do! _ := restore_mtime target (entry_mtime entry) in
         mret {| entry_path := entry_path record; ignored := ignored record; reason := reason record;
                 entry_size := entry_size record; status := status record; local_path := Some (str_path target) |})
        (fun e => if _is_disk_space_error e then raise (_classify_zip_failure e) else failed e).

Definition ad1_step (dest_dir : pure_path) (files bytes_ : Z) (s : list manifest_entry * Z * Z)
    (file : str * Ad1Image.entry_info ad1_reader) : io (list manifest_entry * Z * Z) :=
  let '(entries, index, processed_bytes) := s in
  let '(relative_, entry) := file in
  let size := Ad1Image.size entry in
  let index := index + 1 in
  let processed_bytes := processed_bytes + size in
  let '(ignored, reason) := should_ignore_path (Path relative_) (Some size) false in
  let record := extraction_entry relative_ ignored reason size None in
  do! record := (if ignored then mret record else
                   do! target := pure (_validate_path dest_dir relative_) in
                   do! _ := mkdir (path_parent target) in
                   ad1_copy (Ad1Image.reader entry) target record) in
  do! _ := report {| processed_files := index; total_files := files; processed_bytes := processed_bytes;
                     total_bytes := bytes_; current_path := relative_ |} in
  mret (entries ++ [record], index, processed_bytes).

Definition _extract_ad1 (source dest_dir : pure_path) : io (list str * list manifest_entry) :=
  do! files := catch (do! data := read_source source in
                      do! root := pure (open_ad1 data) in
                      mret (Ad1Image.iter_ad1_files root))
                     (fun e => match e with AD1ImageError code_ _ => raise (ArchiveExtractionError code_) | _ => raise e end) in
  do! (entries, _, _) := for_each (ad1_step dest_dir (len files) (sum (map (fun f => Ad1Image.size (snd f)) files))) ([], 0, 0) files in
  do! _ := catch (pure (_enforce_limits entries))
                 (fun e => match e with
                           | ValueError text => raise (default OtherException (_classify_limit_exceeded text))
                           | _ => raise e
                           end) in
  mret (map entry_path (filter (fun e => status e = Some (lit "extracted")) entries), entries).

(** * Archives *)
Definition extract_archive (source dest_dir : pure_path) : io (list str * list manifest_entry) :=
  do! _ := mkdir dest_dir in
  let suffix_ := py_lower (suffix source) in
  if bool_decide (suffix_ = lit ".ad1") then _extract_ad1 source dest_dir
  else
    do! rerouted := (if bool_decide (suffix_ = lit ".zip") then _zip_needs_seven_zip source else mret false) in
    if (rerouted : bool) then _extract_seven_zip source dest_dir
    else if bool_decide (suffix_ = lit ".zip") then _extract_zip source dest_dir
    else if _is_seven_zip_supported_archive source then _extract_seven_zip source dest_dir
    else raise (failure "archive_unsupported_format").

(** * Folders

    [rglob("*")] with [is_file()]; in an order that the file system chooses. *)
Definition folder_files (source : path) (f : fs) : list path := filter (fun q => Is_true (FileSystem.is_file q f)) (rglob source f).

Definition relative_to (source q : path) : pure_path := {| absolute := false; names := drop (length source) q |}.

(** One file of a folder: [listed] gives the status and the local path of its
    entry, [copy] copies it unless it is ignored. *)
Definition folder_step (at_ : path) (listed : pure_path -> bool -> option str * option str) (copy : path -> pure_path -> io unit)
    (files bytes_ : Z) (s : list str * list manifest_entry * Z * Z) (q : path) : io (list str * list manifest_entry * Z * Z) :=
  let '(extracted, entries, processed_files, processed_bytes) := s in
  let relative_ := relative_to at_ q in
  do! size := os (FileSystem.st_size q) in
  let '(ignored, reason) := should_ignore_path relative_ (Some size) false in
  let entries := entries ++ [{| entry_path := str_path relative_; ignored := ignored; reason := reason; entry_size := size;
                                status := fst (listed relative_ ignored); local_path := snd (listed relative_ ignored) |}] in
  let processed_files := processed_files + 1 in
  let processed_bytes := processed_bytes + size in
  do! _ := (if ignored then mret tt else copy q relative_) in
  let extracted := if ignored then extracted else extracted ++ [str_path relative_] in
  do! _ := report {| processed_files := processed_files; total_files := files; processed_bytes := processed_bytes;
                     total_bytes := bytes_; current_path := str_path relative_ |} in
  mret (extracted, entries, processed_files, processed_bytes).

Definition total_size (files : list path) (f : fs) : result os_error Z := sum <$> mapM_py (fun q => FileSystem.st_size q f) files.
Definition folder_files_of (source : pure_path) : io (path * list path) :=
  asks (fun w => match lookup_path cwd source (tree w) with
                 | Ok at_ => Ok (at_, folder_files at_ (tree w))
                 | _ => Ok ([], [])
                 end).
Definition each_file (source : pure_path) (listed : pure_path -> bool -> option str * option str) (copy : path -> pure_path -> io unit) :
    io (list str * list manifest_entry) :=
  do! (at_, files) := folder_files_of source in
  do! bytes_ := os (total_size files) in
  do! (extracted, entries, _, _) := for_each (folder_step at_ listed copy (len files) bytes_) ([], [], 0, 0) files in
  do! _ := pure (_enforce_limits entries) in
  mret (extracted, entries).

(** [shutil.copy2] from the tree. *)
Definition copy_file (dest_dir : pure_path) (q : path) (relative_ : pure_path) : io unit :=
  let target := join dest_dir relative_ in
  do! _ := pure (map_err ValueError (ensure_within_directory cwd dest_dir target)) in
  do! _ := mkdir (path_parent target) in
  do! data := os (read_bytes q) in
  do! mtime := asks (fun w => Ok (mtimes w !! q)) in
  copy2 (name_of q) {| chunks := data; read_error := None |} mtime target.

(** [shutil.rmtree] *)
Definition remove_tree (p : pure_path) : io unit :=
  update (fun w =>
    let! q := map_err (fun e => OSError (Errno e)) (lookup_path cwd p (tree w)) in
    let! _ := raise_if (FileSystem.is_file q (tree w)) (OSError (Errno ENOTDIR)) in
    Ok (tt, w <| tree := rmtree q (tree w) |> <| mtimes := filter (fun kv => below q (fst kv) = false) (mtimes w) |>)).
Definition copy_folder (source dest_dir : pure_path) : io (list str * list manifest_entry) :=
  do! there := os (fun f => Ok (path_is exists_ cwd dest_dir f)) in
  do! _ := (if (there : bool) then remove_tree dest_dir else mret tt) in
  do! _ := mkdir dest_dir in
  each_file source (fun _ _ => (None, None)) (copy_file dest_dir).

Definition inventory_folder (source : pure_path) : io (list str * list manifest_entry) :=
  each_file source (fun relative_ ignored => (Some (if ignored then lit "ignored" else lit "extracted"), Some (str_path (join source relative_))))
    (fun _ _ => mret tt).
End archive.
End Archive.
