(* ===== verification/ArchiveSafe.v ===== *)
(** Extraction stays within its directory: whatever an archive holds, no file
    outside changes, and the tree of files stays a tree. *)
From S2P Require Import Prelude PyBase PyRuntime FileSystem PurePaths Effects Ad1Image Archive.
Import Bytes Str PyRuntime FileSystem PurePaths Effects Archive.

Module ArchiveSafe.

Section safe.
Context `{Runtime} (settings : Settings) (cwd : path) (backend_temp_dir : pure_path).
Context (ZipFile : bytes -> result exn (list ZipInfo)) (seven_zip : result os_error bytes -> result exn (list temp_file)).
Context (open_ad1 : bytes -> result exn (Ad1Image.entry ad1_reader)).
Context (exc_text : exn -> str) (progress_cb : option (progress -> result exn unit)).
(** The directory of the extraction; [strict]: nothing at all changes outside,
    not even a directory is made. *)
Context (dest_dir : pure_path) (Habs : absolute dest_dir = true) (strict : bool).

Abbreviation base := (resolve cwd dest_dir).

Definition confined (w w' : store) : Prop :=
  tree_ok (tree w) -> is_dir base (tree w) = true ->
  tree_ok (tree w') /\ is_dir base (tree w') = true /\
  forall q, below base q = false ->
    (tree w' !! q = tree w !! q \/ strict = false /\ tree w !! q = None /\ tree w' !! q = Some Dir) /\
    mtimes w' !! q = mtimes w !! q.

#[local] Instance confined_preorder : PreOrder confined.
Proof.
  split.
  - intros w Ht Hb. split; [done|]. split; [done|]. intros q _. auto.
  - intros w1 w2 w3 H12 H23 Ht Hb. destruct (H12 Ht Hb) as (Ht2 & Hb2 & Hq2). destruct (H23 Ht2 Hb2) as (Ht3 & Hb3 & Hq3).
    split; [done|]. split; [done|]. intros q Hq. destruct (Hq2 q Hq) as [T2 M2], (Hq3 q Hq) as [T3 M3]. split; [|congruence].
    destruct T2 as [E2|(S2 & N2 & D2)], T3 as [E3|(S3 & N3 & D3)]; [left; congruence|right; split_and!; congruence..].
Qed.
Abbreviation keeps := (throughout confined).

(** * Steps *)
Lemma keeps_tree (call : fs -> result os_error fs) :
  (forall f f', call f = Ok f' -> tree_ok f -> is_dir base f = true ->
     tree_ok f' /\ is_dir base f' = true /\
     forall q, below base q = false -> f' !! q = f !! q \/ strict = false /\ f !! q = None /\ f' !! q = Some Dir) ->
  keeps (change call).
Proof.
  intros Hcall. apply throughout_update; [apply _|]. intros w [] w'. unfold map_err. destruct (call (tree w)) as [f|e|] eqn:Hf; [|done..].
  intros [= <-] Ht Hb. destruct (Hcall _ _ Hf Ht Hb) as (Ht' & Hb' & Hq). split; [done|]. split; [done|]. intros q Hout. split; [by apply Hq|done].
Qed.

Lemma keeps_mkdir p : absolute p = true ->
  (strict = true -> forall q, on_the_way cwd p q -> below base q = true \/ below q base = true) -> keeps (mkdir cwd p).
Proof.
  intros Hp Hway. apply keeps_tree. intros f f' Hmk Ht Hb. apply mkdir_parents_adds in Hmk as [Ht' Hq]; [|done].
  assert (Hdirs : forall q, is_dir q f = true -> is_dir q f' = true).
  { intros [|n q] Hd; [done|]. apply is_dir_some in Hd; [|done]. apply is_dir_some; [done|]. destruct (Hq (n :: q)) as [E|(E & _)]; congruence. }
  split; [auto|]. split; [auto|]. intros q Hout. destruct (Hq q) as [E|(N & D & W)]; [by left|]. destruct strict; [|by right].
  destruct (Hway eq_refl q W) as [Hin|Habove]; [congruence|]. left.
  pose proof (dir_above f base q Ht Hb Habove) as Hd. destruct q as [|n q]; [|apply is_dir_some in Hd; [congruence|done]].
  destruct (Ht' Ht [] ltac:(by eexists)). done.
Qed.

Lemma keeps_file (q : path) (x : node) (f : fs) : tree_ok f -> is_dir base f = true -> below base q = true -> q <> [] -> Forall real_name q ->
  is_dir (parent q) f = true -> f !! q <> Some Dir ->
  tree_ok (<[q := x]> f) /\ is_dir base (<[q := x]> f) = true /\ forall p, below base p = false -> <[q := x]> f !! p = f !! p.
Proof.
  intros Ht Hb Hin Hne Hreal Hpar Hnd. split; [by apply tree_ok_insert|]. split.
  - destruct base as [|n b]; [done|]. apply is_dir_some in Hb; [|done]. apply is_dir_some; [done|]. rewrite lookup_insert_ne; congruence.
  - intros p Hout. rewrite lookup_insert_ne; congruence.
Qed.

Lemma keeps_write target src : absolute target = true -> below base (resolve cwd target) = true -> keeps (write_stream cwd target src).
Proof.
  intros Hp Hin. unfold write_stream. apply (throughout_bind_post _ (fun q => below base q = true)).
  - apply throughout_update; [apply _|]. intros w q w'. unfold map_err, open_wb.
    destruct (lookup_path cwd target (tree w)) as [q'|e|] eqn:Hl; cbn; [|done..]. destruct (is_dir q' (tree w)) eqn:Hd; [done|].
    intros [= <- <-] Ht Hb. pose proof (lookup_end _ _ _ _ Ht Hp Hl) as [Hreal Hend]. apply lookup_resolve in Hl as Hq'.
    assert (Hnd : tree w !! q' <> Some Dir). { intros E. unfold is_dir in Hd. destruct q'; [done|]. by rewrite E in Hd. }
    destruct Hend as [?|[Hne Hpar]]; [congruence|]. rewrite <-Hq' in Hin.
    destruct (keeps_file q' (File []) (tree w) Ht Hb Hin Hne Hreal Hpar Hnd) as (? & ? & Hout). split; [done|]. split; [done|].
    intros p Hp'. split; [left; by apply Hout|]. cbn. rewrite lookup_delete_ne; congruence.
  - intros w w' q. unfold update, map_err, open_wb. destruct (lookup_path cwd target (tree w)) as [q'|e|] eqn:Hl; cbn; [|done..].
    destruct (is_dir q' (tree w)); [done|]. intros [= _ <-]. by apply lookup_resolve in Hl as ->.
  - intros q Hq. apply throughout_bind; [apply _| |intros []; destruct (read_error src); [apply throughout_pure|apply throughout_ret]; apply _].
    apply throughout_update; [apply _|]. intros w [] w' [= <-] Ht Hb. cbn. unfold append_bytes.
    destruct (tree w !! q) as [[|c]|] eqn:Hc; [by auto| |by auto]. destruct (Ht q ltac:(by eexists)) as (Hne & Hreal & Hpar).
    destruct (keeps_file q (File (c ++ chunks src)) (tree w) Ht Hb Hq Hne Hreal Hpar ltac:(congruence)) as (? & ? & Hout).
    split; [done|]. split; [done|]. intros p Hp'. split; [left; by apply Hout|done].
Qed.

Lemma keeps_utime target t : below base (resolve cwd target) = true -> keeps (utime cwd target t).
Proof.
  intros Hin. apply throughout_update; [apply _|]. intros w [] w'. destruct (lookup_path cwd target (tree w)) as [q|e|] eqn:Hl.
  - apply lookup_resolve in Hl as ->. intros [= <-]. destruct (exists_ _ _); intros Ht Hb; [|by auto]. split; [done|]. split; [done|].
    intros q Hq. split; [by left|]. cbn. rewrite lookup_insert_ne; congruence.
  - intros [= <-] Ht Hb. auto.
  - intros [= <-] Ht Hb. auto.
Qed.
Lemma keeps_restore target mtime : below base (resolve cwd target) = true -> keeps (restore_mtime cwd target mtime).
Proof. intros Hin. destruct mtime; [by apply keeps_utime|apply throughout_ret; apply _]. Qed.

Lemma keeps_unlink target : below base (resolve cwd target) = true -> keeps (unlink_missing_ok cwd target).
Proof.
  intros Hin. apply keeps_tree. intros f f'. destruct (lookup_path cwd target f) as [q|[]|] eqn:Hl; try done; [|by intros [= <-]; auto].
  apply lookup_resolve in Hl as ->. unfold unlink. destruct (f !! resolve cwd target) as [[|c]|] eqn:Hq; [done|..].
  all: intros [= <-] Ht Hb.
  all: split; [apply tree_ok_delete; [done|congruence]|]; split.
  1,3: destruct base as [|n b]; [done|]; apply is_dir_some in Hb; [|done]; apply is_dir_some; [done|]; rewrite lookup_delete_ne; congruence.
  all: intros q Hout; left; rewrite lookup_delete_ne; congruence.
Qed.

Lemma keeps_report p : keeps (report progress_cb p).
Proof.
  unfold report. destruct progress_cb; [|apply throughout_ret; apply _]. apply throughout_bind; [apply _| |intros; apply throughout_pure; apply _].
  apply throughout_update; [apply _|]. intros w [] w' [= <-] Ht Hb. auto.
Qed.

(** * Targets *)
Definition plain (p : pure_path) : Prop := Forall real_name (names p).

Lemma validated n target : _validate_path cwd dest_dir n = Ok target ->
  absolute (Path n) = false /\ target = join dest_dir (Path n) /\ absolute target = true /\ below base (resolve cwd target) = true.
Proof.
  unfold _validate_path. intros (u & Hu%raise_if_Ok & (v & Hv & [= <-])%bind_Ok)%bind_Ok.
  destruct (ensure_within_directory _ _ _) as [[]|e|] eqn:He; try done. apply ensure_within_Ok in He.
  split_and!; try done. unfold join. by rewrite Hu.
Qed.

Lemma way_plain p q : plain dest_dir -> plain p -> absolute p = false ->
  on_the_way cwd (path_parent (join dest_dir p)) q -> below base q = true \/ below q base = true.
Proof.
  intros Hd Hp Hrel [k ->]. unfold path_parent, join. rewrite Hrel. cbn [absolute names]. unfold parent, resolve at 2 3. cbn [absolute names].
  rewrite Habs. assert (Hall : plain {| absolute := true; names := names dest_dir ++ names p |}) by (by apply Forall_app).
  rewrite enter_plain by (by apply Forall_take, Forall_take). cbn [app].
  assert (Hb : base = names dest_dir). { unfold resolve. rewrite Habs. by apply enter_plain. }
  rewrite Hb. apply (below_prefixes _ _ (names dest_dir ++ names p)).
  - apply below_spec. by exists (names p).
  - rewrite take_take. apply below_take.
Qed.

Lemma keeps_target n target : _validate_path cwd dest_dir n = Ok target -> (strict = true -> plain dest_dir /\ plain (Path n)) ->
  keeps (mkdir cwd (path_parent target)).
Proof.
  intros (Hrel & -> & Ht & Hin)%validated Hs. apply keeps_mkdir; [done|]. intros Hstrict q. destruct (Hs Hstrict). by apply way_plain.
Qed.

Lemma keeps_copy2 file_name src mtime target : real_name file_name -> absolute target = true -> below base (resolve cwd target) = true ->
  keeps (copy2 cwd file_name src mtime target).
Proof.
  intros Hreal Ht Hin. unfold copy2. apply throughout_bind; [apply _|apply throughout_asks; apply _|]. intros into.
  assert (Hdst : forall dst, absolute dst = true -> below base (resolve cwd dst) = true ->
    keeps (do! _ := write_stream cwd dst src in restore_mtime cwd dst mtime)).
  { intros dst Hd Hb. apply throughout_bind; [apply _|by apply keeps_write|intros _; by apply keeps_restore]. }
  destruct into; [|by apply Hdst]. apply Hdst; [done|]. rewrite resolve_join by done. cbn [names fold_left].
  apply below_spec in Hin as [r Hr]. apply below_spec. exists (r ++ [file_name]). unfold enter.
  rewrite bool_decide_eq_false_2 by done. by rewrite Hr, app_assoc.
Qed.

(** * Members *)
Lemma keeps_zip_step files bytes_ s member : (strict = true -> plain dest_dir /\ plain (Path (filename member))) ->
  keeps (zip_step cwd progress_cb dest_dir files bytes_ s member).
Proof.
  intros Hs. destruct s as [[entries pf] pb]. unfold zip_step.
  apply (throughout_bind_post _ (fun target => _validate_path cwd dest_dir (filename member) = Ok target)).
  { apply throughout_pure; apply _. }
  { by intros w w' target [= _ <-]. }
  intros target Hv. pose proof (validated _ _ Hv) as (_ & _ & Ht & Hin).
  throughout_steps; auto using keeps_report, keeps_write, keeps_restore. by eapply keeps_target.
Qed.

Lemma keeps_temp_step files bytes_ s file : real_name (default [] (last (relative file))) ->
  (strict = true -> plain dest_dir /\ plain (Path (str_path {| absolute := false; names := relative file |}))) ->
  keeps (temp_step cwd backend_temp_dir progress_cb dest_dir files bytes_ s file).
Proof.
  intros Hname Hs. destruct s as [[entries pf] pb]. unfold temp_step.
  apply throughout_bind; [apply _|throughout_steps|intros _]. destruct (should_ignore_path _ _ _) as [[] reason].
  { throughout_steps. apply keeps_report. }
  apply throughout_bind; [apply _| |intros _; throughout_steps; apply keeps_report].
  eapply (throughout_bind_post _ (fun target => _validate_path cwd dest_dir _ = Ok target)); [throughout_steps|by intros w w' target [= _ <-]|].
  intros target Hv. pose proof (validated _ _ Hv) as (_ & _ & Ht & Hin).
  throughout_steps; [by eapply keeps_target|by apply keeps_copy2].
Qed.

Lemma keeps_ad1_step files bytes_ s file : (strict = true -> plain dest_dir /\ plain (Path (fst file))) ->
  keeps (ad1_step cwd exc_text progress_cb dest_dir files bytes_ s file).
Proof.
  intros Hs. destruct s as [[entries pf] pb], file as [relative_ entry]. unfold ad1_step.
  destruct (should_ignore_path _ _ _) as [[] reason].
  { throughout_steps. apply keeps_report. }
  apply throughout_bind; [apply _| |intros record; throughout_steps; apply keeps_report].
  eapply (throughout_bind_post _ (fun target => _validate_path cwd dest_dir _ = Ok target)); [throughout_steps|by intros w w' target [= _ <-]|].
  intros target Hv. pose proof (validated _ _ Hv) as (_ & _ & Ht & Hin). unfold ad1_copy.
  throughout_steps; auto using keeps_write, keeps_restore, keeps_unlink. by eapply keeps_target.
Qed.

(** * Archives *)
Definition plain_members : Prop :=
  plain dest_dir /\
  (forall data members member, ZipFile data = Ok members -> member ∈ members -> plain (Path (filename member))) /\
  (forall data files file, seven_zip data = Ok files -> file ∈ files -> plain (Path (str_path {| absolute := false; names := relative file |}))) /\
  (forall data root file, open_ad1 data = Ok root -> file ∈ Ad1Image.iter_ad1_files root -> plain (Path (fst file))).
Context (Hlisted : forall data files file, seven_zip data = Ok files -> file ∈ files -> real_name (default [] (last (relative file)))).
Context (Hplain : strict = true -> plain_members).

Lemma keeps_extract_zip source : keeps (_extract_zip settings cwd ZipFile progress_cb source dest_dir).
Proof.
  unfold _extract_zip, classified. apply throughout_catch; [apply _| |intros []; throughout_steps].
  apply throughout_bind; [apply _|unfold read_source, os; throughout_steps|]. intros data.
  apply (throughout_bind_post _ (fun members => ZipFile data = Ok members)); [throughout_steps|by intros w w' l [= _ <-]|]. intros members Hms.
  unfold _safe_members_zip. throughout_steps. apply throughout_for; [apply _|]. intros s member [_ Hin]%list_elem_of_filter.
  apply keeps_zip_step. intros Hs. destruct (Hplain Hs) as (Hd & Hz & _). split; [done|]. by eapply Hz.
Qed.

Lemma keeps_extract_seven_zip source :
  keeps (_extract_seven_zip settings cwd backend_temp_dir seven_zip progress_cb source dest_dir).
Proof.
  unfold _extract_seven_zip, classified. apply throughout_catch; [apply _| |intros []; throughout_steps].
  apply (throughout_bind_post _ (fun files => exists data, seven_zip data = Ok files)).
  { throughout_steps. }
  { intros w w' files [= _ Hf]. eauto. }
  intros files [data Hf]. throughout_steps. apply throughout_for; [apply _|]. intros s file Hin.
  apply keeps_temp_step; [by eapply Hlisted|]. intros Hs. destruct (Hplain Hs) as (Hd & _ & Hz & _). split; [done|]. by eapply Hz.
Qed.

Lemma keeps_extract_ad1 source : keeps (_extract_ad1 settings cwd open_ad1 exc_text progress_cb source dest_dir).
Proof.
  unfold _extract_ad1. apply (throughout_bind_post _ (fun files => exists data root, open_ad1 data = Ok root /\ files = Ad1Image.iter_ad1_files root)).
  { unfold read_source, os. throughout_steps. }
  { intros w w' files. unfold catch, read_source, os, asks, pure, raise, mbind, io_bind, mret, io_ret. destruct (map_err _ _) as [data|e|]; [|by destruct e|done].
    destruct (open_ad1 data) as [root|e|] eqn:Hr; [|by destruct e|done]. intros [= _ <-]. eauto. }
  intros files (data & root & Hr & ->). throughout_steps. apply throughout_for; [apply _|]. intros s file Hin.
  apply keeps_ad1_step. intros Hs. destruct (Hplain Hs) as (Hd & _ & _ & Hz). split; [done|]. by eapply Hz.
Qed.

(** A program that makes its directory first. *)
Lemma mkdir_then {A} (rest : unit -> io A) : (forall u, keeps (rest u)) -> forall w, tree_ok (tree w) ->
  let w' := fst ((do! u := mkdir cwd dest_dir in rest u) w) in
  tree_ok (tree w') /\ forall q, below base q = false ->
    (tree w' !! q = tree w !! q \/ tree w !! q = None /\ tree w' !! q = Some Dir) /\ mtimes w' !! q = mtimes w !! q.
Proof.
  intros Hrest w Ht. unfold mbind, io_bind, mkdir, change, update, map_err.
  destruct (mkdir_parents cwd dest_dir (tree w)) as [f|e|] eqn:Hmk; cbn; [|by auto..].
  pose proof (mkdir_parents_is_dir _ _ _ _ Hmk) as Hb. apply mkdir_parents_adds in Hmk as [Ht' Hq]; [|done].
  set (w1 := w <| tree := f |>). destruct (Hrest tt w1 (Ht' Ht) Hb) as (Ht2 & _ & Hq2). split; [done|]. intros q Hout.
  destruct (Hq2 q Hout) as [T M]. split; [|done]. change (tree w1) with f in T.
  destruct (Hq q) as [E|(N & D & _)], T as [E'|(_ & N' & D')]; [left|right; split..|left]; congruence.
Qed.

Lemma keeps_rest source :
  keeps (let suffix_ := py_lower (suffix source) in
    if bool_decide (suffix_ = lit ".ad1") then _extract_ad1 settings cwd open_ad1 exc_text progress_cb source dest_dir
    else
      do! rerouted := (if bool_decide (suffix_ = lit ".zip") then _zip_needs_seven_zip cwd ZipFile source else mret false) in
      if (rerouted : bool) then _extract_seven_zip settings cwd backend_temp_dir seven_zip progress_cb source dest_dir
      else if bool_decide (suffix_ = lit ".zip") then _extract_zip settings cwd ZipFile progress_cb source dest_dir
      else if _is_seven_zip_supported_archive source then _extract_seven_zip settings cwd backend_temp_dir seven_zip progress_cb source dest_dir
      else raise (failure "archive_unsupported_format")).
Proof.
  cbv zeta. unfold _zip_needs_seven_zip, read_source, os. throughout_steps; auto using keeps_extract_ad1, keeps_extract_zip, keeps_extract_seven_zip.
Qed.

Lemma keeps_extract_archive source :
  keeps (extract_archive settings cwd backend_temp_dir ZipFile seven_zip open_ad1 exc_text progress_cb source dest_dir).
Proof.
  unfold extract_archive. apply throughout_bind; [apply _| |intros _; apply keeps_rest].
  apply keeps_mkdir; [done|]. intros Hs q [k ->]. right. destruct (Hplain Hs) as [Hd _]. rewrite Habs. unfold resolve. cbn. rewrite Habs.
  rewrite !enter_plain by (try apply Forall_take; done). apply below_take.
Qed.
End safe.

Section theorems.
Context `{Runtime} (settings : Settings) (cwd : path) (backend_temp_dir : pure_path).
Context (ZipFile : bytes -> result exn (list ZipInfo)) (seven_zip : result os_error bytes -> result exn (list temp_file)).
Context (open_ad1 : bytes -> result exn (Ad1Image.entry ad1_reader)).
Context (exc_text : exn -> str) (progress_cb : option (progress -> result exn unit)).

(** C12. Whatever an archive holds and however its extraction ends, the tree of
    files stays a tree, and outside the directory of the extraction no file is
    written, changed or removed, no directory is removed and no modification time
    changes; a directory may be made.  If the directory is there and no member's
    name has a pair of dots, nothing at all changes outside.  (The names that
    7-Zip leaves in a directory are not pairs of dots.) *)
Theorem extraction_confined dest_dir source w :
  absolute dest_dir = true -> tree_ok (tree w) ->
  (forall data files file, seven_zip data = Ok files -> file ∈ files -> real_name (default [] (last (relative file)))) ->
  let base := resolve cwd dest_dir in
  let w' := fst (extract_archive settings cwd backend_temp_dir ZipFile seven_zip open_ad1 exc_text progress_cb source dest_dir w) in
  tree_ok (tree w') /\
  (forall q, below base q = false ->
     (tree w' !! q = tree w !! q \/ tree w !! q = None /\ tree w' !! q = Some Dir) /\ mtimes w' !! q = mtimes w !! q) /\
  (plain_members ZipFile seven_zip open_ad1 dest_dir -> is_dir base (tree w) = true ->
   forall q, below base q = false -> tree w' !! q = tree w !! q).
Proof.
  intros Habs Ht Hlisted. cbv zeta.
  assert (Hmk := mkdir_then cwd dest_dir Habs false _
    (fun _ => keeps_rest settings cwd backend_temp_dir ZipFile seven_zip open_ad1 exc_text progress_cb dest_dir Habs false Hlisted
                ltac:(done) source) w Ht).
  destruct Hmk as [Ht' Hq].
  split; [done|]. split; [done|]. intros Hplain Hb q Hout.
  destruct (keeps_extract_archive settings cwd backend_temp_dir ZipFile seven_zip open_ad1 exc_text progress_cb dest_dir Habs true Hlisted
    (fun _ => Hplain) source w Ht Hb) as (_ & _ & Hstrict).
  by destruct (Hstrict q Hout) as [[E|(? & _)] _].
Qed.
End theorems.
End ArchiveSafe.
