(* ===== verification/ArchiveExact.v ===== *)
(** What an extraction leaves: every member of a ZIP in its place with its content
    and its time, before the limits are looked at; and which exceptions there are. *)
From S2P Require Import Prelude PyBase PyRuntime PyDates FileSystem PurePaths Effects Ad1Image Archive ArchiveSafe.
Import Bytes Str PyRuntime PyDates FileSystem PurePaths Effects Archive ArchiveSafe.

Module ArchiveExact.

(** * Times of ZIP members *)
Lemma le_val_nonneg d : wf d -> 0 <= le_val d.
Proof. intros Hd. pose proof (le_val_bound d Hd). lia. Qed.
Lemma zip_mtime_total member : wf (extra member) -> exists t, zip_member_mtime member = Ok t.
Proof.
  intros Hwf. unfold zip_member_mtime.
  assert (Hw : outcome (fun _ => True) (fun _ => False) (while (S (length (extra member))) (extra_step (extra member)) 0)).
  { apply (while_total (fun off => 0 <= off) (fun off => Z.to_nat (len (extra member) - off))); [|lia|unfold len; lia].
    intros off Hoff. unfold extra_step. destruct (Z.leb_spec (off + 4) (len (extra member))); [|done].
    destruct (_ && _ && _); [done|]. cbn [outcome].
    pose proof (le_val_nonneg (slice (off + 2) (off + 4) (extra member)) (slice_wf _ _ _ Hwf)). lia. }
  destruct (while _ _ _) as [[t|]|[]|]; cbn; [eauto..|done].
Qed.

(** A field of the extra data: tag, length, body. *)
Definition extra_field (f : Z * bytes) : bytes := le_enc 2 (fst f) ++ le_enc 2 (len (snd f)) ++ snd f.
Definition is_field (f : Z * bytes) : Prop := 0 <= fst f < 65536 /\ len (snd f) < 65536 /\ wf (snd f).
Definition is_time (f : Z * bytes) : bool := (fst f =? _ZIP_UNIX_TIME_EXTRA) && (5 <=? len (snd f)) && Z.odd (default 0 (head (snd f))).

Lemma extra_step_field p f r : is_field f ->
  extra_step (p ++ extra_field f ++ r) (len p) =
  Ok (if is_time f then inr (Some (signed32 (le_val (slice 1 5 (snd f))))) else inl (len (p ++ extra_field f))).
Proof.
  intros (Htag & Hlen & Hwf). destruct f as [tag body]. unfold extra_step, extra_field, is_time. cbn [fst snd] in *.
  assert (H2 : forall v, len (le_enc 2 v) = 2) by (intros v; unfold len; by rewrite le_enc_length).
  assert (Happ : forall (a b : bytes), len (a ++ b) = len a + len b) by (intros a b; unfold len; rewrite length_app; lia).
  assert (0 <= len body) by (unfold len; lia). assert (0 <= len r) by (unfold len; lia).
  rewrite !Happ, !H2. rewrite (proj2 (Z.leb_le (len p + 4) _)) by lia.
  assert (slice (len p) (len p + 2) (p ++ (le_enc 2 tag ++ le_enc 2 (len body) ++ body) ++ r) = le_enc 2 tag) as ->.
  { rewrite <-!app_assoc. apply slice_app; rewrite ?H2; lia. }
  assert (slice (len p + 2) (len p + 4) (p ++ (le_enc 2 tag ++ le_enc 2 (len body) ++ body) ++ r) = le_enc 2 (len body)) as ->.
  { rewrite <-!app_assoc, app_assoc. apply slice_app; rewrite ?Happ, !H2; lia. }
  rewrite !le_val_enc by (change (256 ^ Z.of_nat 2) with 65536; lia).
  assert (slice (len p + 4) (len p + 4 + len body) (p ++ (le_enc 2 tag ++ le_enc 2 (len body) ++ body) ++ r) = body) as ->.
  { rewrite <-!app_assoc, app_assoc, app_assoc. apply slice_app; rewrite ?Happ, !H2; lia. }
  destruct (_ && _ && _); [done|]. do 2 f_equal. lia.
Qed.
Definition dos_time (member : ZipInfo) : option Z :=
  if bool_decide (date_time member = _DOS_EPOCH) then None else utc_timestamp (date_time member).
Definition field_time (f : Z * bytes) : Z := signed32 (le_val (slice 1 5 (snd f))).
Lemma extra_loop p fields junk fuel : Forall is_field fields -> len junk < 4 -> (length (concat (map extra_field fields)) < fuel)%nat ->
  while fuel (extra_step (p ++ concat (map extra_field fields) ++ junk)) (len p) = Ok (field_time <$> head (filter (fun f => Is_true (is_time f)) fields)).
Proof.
  intros Hf Hjunk. revert p fuel. induction Hf as [|f fields Hf _ IH]; intros p fuel Hfuel; cbn [map concat app] in *.
  - destruct fuel as [|fuel]; [lia|]. rewrite while_unfold. unfold extra_step. rewrite (proj2 (Z.leb_gt _ _)); [done|].
    unfold len in *. rewrite length_app. lia.
  - destruct fuel as [|fuel]; [lia|]. rewrite while_unfold. rewrite <-app_assoc. rewrite extra_step_field by done. rewrite filter_cons.
    rewrite length_app in Hfuel. unfold extra_field in Hfuel at 1. rewrite length_app, le_enc_length in Hfuel.
    destruct (is_time f); [by rewrite decide_True|]. rewrite decide_False by (by intros []). rewrite app_assoc. apply IH. lia.
Qed.

(** The time of a member: that of its first extended timestamp which has one, else
    the DOS time taken as UTC. *)
Lemma zip_mtime_fields member fields junk : extra member = concat (map extra_field fields) ++ junk -> Forall is_field fields -> len junk < 4 ->
  zip_member_mtime member =
  Ok (match filter (fun f => Is_true (is_time f)) fields with f :: _ => Some (field_time f) | [] => dos_time member end).
Proof.
  intros He Hf Hj. unfold zip_member_mtime. pose proof (extra_loop [] fields junk (S (length (extra member))) Hf Hj) as Hl. cbn [app] in Hl.
  change (len (@nil Z)) with 0 in Hl. rewrite <-He in Hl. rewrite Hl by (rewrite He, length_app; lia). by destruct (filter _ fields).
Qed.

(** * The tree an extraction leaves *)
Section layout.
Context (base : path).

(** The files [ms] are under [base], with the directories on the way to them, and
    nothing else has changed. *)
Definition placed (ms : list (path * bytes)) (f0 f : fs) : Prop :=
  (forall m, m ∈ ms -> f !! (base ++ fst m) = Some (File (snd m))) /\
  (forall q, (forall m, m ∈ ms -> q <> base ++ fst m) ->
     f !! q = if existsb (fun m => below q (base ++ fst m)) ms && (length base <? length q)%nat then Some Dir else f0 !! q).

(** No name is another or leads to another. *)
Definition apart (ms : list path) : Prop := forall i j p q, ms !! i = Some p -> ms !! j = Some q -> below p q = true -> i = j.
Lemma apart_snoc ms p : apart (ms ++ [p]) -> apart ms /\ forall q, q ∈ ms -> below p q = false /\ below q p = false.
Proof.
  intros Ha. split.
  - intros i j a b Hi Hj. apply (Ha i j a b); by apply lookup_app_l_Some.
  - intros q [i Hi]%list_elem_of_lookup_1.
    assert (Hp : (ms ++ [p]) !! length ms = Some p) by apply list_lookup_middle, eq_refl.
    pose proof (lookup_lt_Some _ _ _ Hi) as Hlt. pose proof (lookup_app_l_Some ms [p] _ _ Hi) as Hi'. split.
    + destruct (below p q) eqn:Hb; [|done]. pose proof (Ha _ _ _ _ Hp Hi' Hb). lia.
    + destruct (below q p) eqn:Hb; [|done]. pose proof (Ha _ _ _ _ Hi' Hp Hb). lia.
Qed.

Lemma placed_nil f0 : placed [] f0 f0.
Proof. split; [by intros m Hm%elem_of_nil|]. by intros q _. Qed.

Lemma below_base q p : below (base ++ q) (base ++ p) = below q p.
Proof.
  destruct (below q p) eqn:Hb.
  - apply below_spec in Hb as [r ->]. apply below_spec. exists r. by rewrite app_assoc.
  - apply below_false in Hb. apply below_false. intros [r Hr]. apply Hb. exists r. rewrite <-app_assoc in Hr. by apply app_inv_head in Hr.
Qed.

Context (f0 : fs) (Ht0 : tree_ok f0) (Hdir0 : is_dir base f0 = true) (Hfresh : forall q, q <> base -> below base q = true -> f0 !! q = None).

Lemma placed_file ms f q : placed ms f0 f -> below base q = true -> is_file q f = true -> exists m, m ∈ ms /\ q = base ++ fst m.
Proof.
  intros [_ Hother] Hin Hq. destruct (decide (Exists (fun m => q = base ++ fst m) ms)) as [He|He].
  - apply Exists_exists in He as (m & Hm & Hmq). eauto.
  - exfalso. unfold is_file in Hq. rewrite Hother in Hq. 2: { intros m Hm ->. apply He, Exists_exists. eauto. }
    destruct (_ && _); [done|]. destruct (decide (q = base)) as [->|Hne]; [|by rewrite Hfresh in Hq].
    destruct (f0 !! base) as [[|c]|] eqn:Hb; [done| |done]. destruct (Ht0 base ltac:(by eexists)) as (Hne & _).
    apply is_dir_some in Hdir0; [congruence|done].
Qed.

(** A new name: nothing placed so far leads to it or lies beyond it. *)
Definition new_name (ms : list (path * bytes)) (ns : path) : Prop :=
  ns <> [] /\ forall m, m ∈ ms -> below ns (fst m) = false /\ below (fst m) ns = false.

Lemma base_root q : q <> [] -> below q base = true -> f0 !! q = Some Dir.
Proof. intros Hne Hq. pose proof (dir_above _ _ _ Ht0 Hdir0 Hq) as Hd. by apply is_dir_some in Hd. Qed.
Lemma nothing_at_root : f0 !! [] = None.
Proof. destruct (f0 !! []) eqn:Hr; [|done]. by destruct (Ht0 [] ltac:(by eexists)). Qed.
Lemma above_base q : below q base = true -> (forall m : path * bytes, q = base ++ fst m -> q = base).
Proof.
  intros [r Hr]%below_spec m ->. rewrite <-app_assoc in Hr. apply (f_equal length) in Hr. rewrite !length_app in Hr.
  destruct (fst m); [by rewrite app_nil_r|cbn in Hr; lia].
Qed.

Lemma placed_free ms f ns q : placed ms f0 f -> new_name ms ns -> below q (base ++ ns) = true -> is_file q f = false.
Proof.
  intros Hpl [_ Hnew] Hq. destruct (is_file q f) eqn:Hf; [exfalso|done].
  assert (Hbq : below base q = true).
  { destruct (below_prefixes base q (base ++ ns)) as [?|Hq']; [apply below_spec; eauto|done..|].
    destruct (decide (q = base)) as [->|Hqb]; [apply below_refl|]. exfalso. destruct Hpl as [_ Hother]. unfold is_file in Hf.
    rewrite Hother in Hf by (intros m _ Hm; by eapply Hqb, above_base). destruct (_ && _); [done|].
    destruct (decide (q = [])) as [->|Hne]; [by rewrite nothing_at_root in Hf|by rewrite base_root in Hf]. }
  destruct (placed_file _ _ _ Hpl Hbq Hf) as (m & Hm & ->). destruct (Hnew m Hm) as [_ Hno]. rewrite below_base in Hq. congruence.
Qed.

Lemma placed_vacant ms f ns : placed ms f0 f -> new_name ms ns -> f !! (base ++ ns) = None.
Proof.
  intros [_ Hother] [Hne Hnew]. rewrite Hother.
  - replace (existsb _ ms) with false; cbn [andb].
    + apply Hfresh; [|apply below_spec; eauto]. intros Hb. rewrite <-(app_nil_r base) in Hb at 2. by apply app_inv_head in Hb.
    + symmetry. apply not_true_iff_false. intros (m & Hm & Hb)%existsb_exists. apply list_elem_of_In in Hm.
      destruct (Hnew m Hm) as [Hno _]. rewrite below_base in Hb. congruence.
  - intros m Hm Heq. apply app_inv_head in Heq. subst. destruct (Hnew m Hm) as [Hno _]. by rewrite below_refl in Hno.
Qed.

Lemma below_parent q ns n : q <> ns ++ [n] -> below q (ns ++ [n]) = below q ns.
Proof.
  intros Hne. destruct (below q ns) eqn:Hb.
  - apply below_spec in Hb as [r ->]. apply below_spec. exists (r ++ [n]). by rewrite app_assoc.
  - apply below_false in Hb. apply below_false. intros [r Hr]. destruct r as [|m r _] using rev_ind; [by rewrite app_nil_r in Hr|].
    rewrite app_assoc in Hr. apply snoc_inj in Hr as [-> ->]. apply Hb. by exists r.
Qed.

Lemma placed_add ms f f1 ns n c : placed ms f0 f -> new_name ms (ns ++ [n]) -> with_dirs (base ++ ns) f f1 ->
  placed (ms ++ [(ns ++ [n], c)]) f0 (<[base ++ ns ++ [n] := File c]> f1).
Proof.
  intros [Hms Hother] [_ Hnew] Hdirs. split.
  - intros m [Hm|Hm%list_elem_of_singleton]%elem_of_app; [|subst; apply lookup_insert_eq].
    destruct (Hnew m Hm) as [_ Hno]. rewrite lookup_insert_ne.
    + rewrite Hdirs. rewrite below_base. replace (below (fst m) ns) with false; [by apply Hms|]. symmetry.
      destruct (below (fst m) ns) eqn:Hb; [|done]. apply below_spec in Hb as [r ->]. apply below_false in Hno. exfalso. apply Hno.
      exists (r ++ [n]). by rewrite app_assoc.
    + intros Heq. apply app_inv_head in Heq. rewrite <-Heq in Hno. by rewrite below_refl in Hno.
  - intros q Hq. assert (Hqn : q <> base ++ ns ++ [n]) by (apply (Hq (ns ++ [n], c)), elem_of_app; right; by left).
    rewrite lookup_insert_ne by congruence. rewrite Hdirs, Hother by (intros m Hm; apply Hq, elem_of_app; by left).
    rewrite existsb_app. cbn [existsb fst]. rewrite orb_false_r. rewrite app_assoc in *. rewrite (below_parent q (base ++ ns) n) by done.
    destruct (below q (base ++ ns)) eqn:Hb; cbn [andb]; [rewrite orb_true_r|by rewrite orb_false_r].
    destruct (Nat.ltb_spec (length base) (length q)) as [Hl|Hl]; cbn [andb].
    { destruct (Nat.ltb_spec 0 (length q)); [done|lia]. }
    rewrite andb_false_r. destruct (decide (q = [])) as [->|Hne]; [done|]. rewrite (base_root q Hne).
    { by destruct (0 <? length q)%nat. }
    destruct (below_prefixes q base (base ++ ns) Hb) as [?|Hb']; [apply below_spec; eauto|done|].
    apply below_spec in Hb' as [r ->]. rewrite length_app in Hl. destruct r; [rewrite app_nil_r; apply below_refl|cbn in Hl; lia].
Qed.

(** Making the directory of a new name and opening it for writing. *)
Lemma placed_open cwd ms f ns c : placed ms f0 f -> tree_ok f -> Forall real_name base -> Forall real_name ns -> new_name ms ns ->
  exists f1, mkdir_parents cwd {| absolute := true; names := parent (base ++ ns) |} f = Ok f1 /\
    open_wb cwd {| absolute := true; names := base ++ ns |} f1 = Ok (base ++ ns, <[base ++ ns := File []]> f1) /\
    placed (ms ++ [(ns, c)]) f0 (<[base ++ ns := File c]> f1) /\ tree_ok (<[base ++ ns := File c]> f1).
Proof.
  intros Hpl Ht Hbase Hns Hnew. pose proof (placed_vacant _ _ _ Hpl Hnew) as Hvacant.
  destruct ns as [|n d _] using rev_ind; [by destruct Hnew|]. rewrite app_assoc in *. rewrite parent_snoc.
  apply Forall_app in Hns as [Hns Hn]. assert (Hd : Forall real_name (base ++ d)) by (by apply Forall_app).
  destruct (mkdir_plain cwd f (base ++ d) Ht Hd) as (f1 & Hmk & Hdirs).
  { intros k. apply (placed_free _ _ _ _ Hpl Hnew). apply (below_trans _ (base ++ d)); [apply below_take|].
    apply below_spec. exists [n]. by rewrite app_assoc. }
  pose proof (mkdir_parents_is_dir _ _ _ _ Hmk) as Hd1. unfold resolve in Hd1. cbn [absolute names] in Hd1.
  rewrite enter_plain in Hd1 by done. cbn [app] in Hd1.
  pose proof (mkdir_parents_adds cwd {| absolute := true; names := base ++ d |} f f1 eq_refl Hmk) as [Ht1 _]. specialize (Ht1 Ht).
  assert (Hvacant1 : f1 !! ((base ++ d) ++ [n]) = None).
  { rewrite Hdirs. replace (below ((base ++ d) ++ [n]) (base ++ d)) with false; [done|]. symmetry. apply below_false. intros [r Hr].
    apply (f_equal length) in Hr. rewrite !length_app in Hr. cbn in Hr. lia. }
  assert (Hall : Forall real_name ((base ++ d) ++ [n])) by (by apply Forall_app).
  exists f1. split; [done|]. split; [|split].
  - unfold open_wb, lookup_path. cbn [absolute names]. rewrite walk_plain; [|done|done|by rewrite parent_snoc].
    cbn [mbind result_bind]. destruct (is_dir ((base ++ d) ++ [n]) f1) eqn:Hx; [|done]. apply is_dir_some in Hx; [congruence|by destruct (base ++ d)].
  - rewrite <-app_assoc. by eapply placed_add.
  - apply tree_ok_insert; [done|by destruct (base ++ d)|done|by rewrite parent_snoc|congruence].
Qed.
End layout.
(** [str.lower] changes only the capitals among ASCII characters. *)
Definition ascii (s : str) : bool := forallb (fun c => c <? 128) s.
Class AsciiLower `{Runtime} : Prop := ascii_lower : forall s, ascii s = true -> py_lower s = lower s.
#[export] Instance toy_ascii_lower : @AsciiLower toy_runtime.
Proof. done. Qed.

Lemma ascii_app a b : ascii (a ++ b) = ascii a && ascii b.
Proof. apply forallb_app. Qed.
Lemma nat_digits_ascii fuel n acc : ascii acc = true -> ascii (nat_digits fuel n acc) = true.
Proof.
  revert n acc. induction fuel as [|fuel IH]; intros n acc Hacc; cbn [nat_digits]; [done|].
  assert (ascii (48 + n mod 10 :: acc) = true).
  { apply andb_true_iff. split; [|done]. apply Z.ltb_lt. pose proof (Z.mod_pos_bound n 10). lia. }
  destruct (n <? 10); [done|by apply IH].
Qed.
Lemma str_of_Z_ascii n : ascii (str_of_Z n) = true.
Proof.
  unfold str_of_Z. set (d := nat_digits _ _ _). assert (ascii d = true) by (by apply nat_digits_ascii).
  by destruct (n <? 0).
Qed.

Section exact.
Context `{AsciiLower} (settings : Settings) (cwd : path).
Context (progress_cb : option (progress -> result exn unit)).
Context (dest_dir : pure_path) (Habs : absolute dest_dir = true) (Hplain : plain dest_dir).
Abbreviation base := (names dest_dir).

(** * The limits *)
Definition within_limits (entries : list manifest_entry) : bool :=
  (len (counted entries) <=? backend_max_extracted_files settings) &&
  (sum (map entry_size (counted entries)) <=? backend_max_extracted_bytes settings).
Lemma classify_over what n limit : ascii (lit what) = true -> contains (lit "limit exceeded") (lower (lit what)) = true ->
  _classify_limit_exceeded (lit what ++ str_of_Z n ++ lit " > " ++ str_of_Z limit) = Some (failure "archive_extraction_limit_exceeded").
Proof.
  intros Hw Hc. unfold _classify_limit_exceeded. rewrite ascii_lower.
  2: { by rewrite !ascii_app, Hw, !str_of_Z_ascii. }
  unfold lower. rewrite map_app. apply contains_spec in Hc as (a & b & Hab). unfold lower in Hab. rewrite Hab.
  rewrite (proj2 (contains_spec _ _)); [done|]. eexists a, (b ++ _). by rewrite <-!app_assoc.
Qed.
Lemma limits_outcome entries :
  if within_limits entries then _enforce_limits settings entries = Ok tt
  else exists text, _enforce_limits settings entries = Raise (ValueError text) /\
         _classify_limit_exceeded text = Some (failure "archive_extraction_limit_exceeded").
Proof.
  unfold within_limits, _enforce_limits. rewrite !Z.ltb_antisym.
  destruct (len (counted entries) <=? _); cbn [andb negb raise_if mbind result_bind].
  - destruct (sum _ <=? _); cbn [negb raise_if]; [done|]. eexists. split; [done|]. by apply classify_over.
  - eexists. split; [done|]. by apply classify_over.
Qed.

(** * One member *)
Definition verdict (m : ZipInfo) : bool * option str := should_ignore_path (Path (filename m)) (Some (file_size m)) false.
Definition kept (m : ZipInfo) : bool := negb (fst (verdict m)).
Definition entry_of (m : ZipInfo) : manifest_entry :=
  extraction_entry (filename m) (fst (verdict m)) (snd (verdict m)) (file_size m) (Some (str_path (join dest_dir (Path (filename m))))).
Definition member_data (m : ZipInfo) : bytes := match zip_open m with Ok s => chunks s | _ => [] end.
Definition member_time (m : ZipInfo) : option Z := match zip_member_mtime m with Ok t => seconds <$> t | _ => None end.
Definition member_names (m : ZipInfo) : path := names (Path (filename m)).
Definition placed_as (m : ZipInfo) : path * bytes := (member_names m, member_data m).

Record readable (m : ZipInfo) : Prop := {
  rd_relative : absolute (Path (filename m)) = false;
  rd_plain : plain (Path (filename m));
  rd_extra : wf (extra m);
  rd_named : kept m = true -> member_names m <> [];
  rd_open : kept m = true -> zip_open m = Ok {| chunks := member_data m; read_error := None |} }.

Definition heard (p : progress) : list progress := match progress_cb with Some _ => [p] | None => [] end.
Definition quiet : Prop := match progress_cb with Some cb => forall p, cb p = Ok tt | None => True end.
Context (Hquiet : quiet).

Lemma report_run p w : report progress_cb p w = (w <| reported := reported w ++ heard p |>, Ok tt).
Proof using Hquiet.
  unfold report, heard, quiet in *. destruct progress_cb as [cb|]; cbn; [by rewrite Hquiet|]. rewrite app_nil_r. by destruct w.
Qed.

Lemma resolve_dest : resolve cwd dest_dir = base.
Proof using Habs Hplain. unfold resolve. rewrite Habs. by apply enter_plain. Qed.
Lemma target_of m : readable m -> join dest_dir (Path (filename m)) = {| absolute := true; names := base ++ member_names m |}.
Proof using Habs. intros Hm. unfold join. by rewrite (rd_relative m Hm), Habs. Qed.
Lemma validate_readable m : readable m -> _validate_path cwd dest_dir (filename m) = Ok (join dest_dir (Path (filename m))).
Proof using Habs Hplain.
  intros Hm. unfold _validate_path. rewrite (rd_relative m Hm). cbn [raise_if mbind result_bind].
  destruct (ensure_within_directory _ _ _) as [[]|e|] eqn:He; [done|exfalso..].
  all: assert (Hok : ensure_within_directory cwd dest_dir (join dest_dir (Path (filename m))) = Ok tt); [|congruence].
  all: apply ensure_within_Ok; rewrite resolve_join, resolve_dest by (apply Hm || done); rewrite enter_plain by apply Hm.
  all: apply below_spec; eauto.
Qed.

Definition set_time (q : path) (t : option Z) (times : gmap path Z) : gmap path Z :=
  match t with Some t => <[q := t]> (delete q times) | None => delete q times end.

Lemma change_run (call : fs -> result os_error fs) w f : call (tree w) = Ok f -> change call w = (w <| tree := f |>, Ok tt).
Proof. intros Hc. unfold change, update. by rewrite Hc. Qed.
Lemma write_run p q f c w : open_wb cwd p (tree w) = Ok (q, <[q := File []]> f) ->
  write_stream cwd p {| chunks := c; read_error := None |} w =
  ({| tree := <[q := File c]> f; mtimes := delete q (mtimes w); reported := reported w |}, Ok tt).
Proof.
  intros Ho. unfold write_stream, update, mbind, io_bind. rewrite Ho. cbn -[append_bytes]. unfold append_bytes.
  cbn. rewrite lookup_insert_eq. cbn. by rewrite insert_insert_eq.
Qed.
Lemma restore_run p q t w : lookup_path cwd p (tree w) = Ok q -> exists_ q (tree w) = true ->
  restore_mtime cwd p t w = (match t with Some t => w <| mtimes := <[q := t]> (mtimes w) |> | None => w end, Ok tt).
Proof. intros Hl He. destruct t; [|done]. cbn. unfold utime, update. by rewrite Hl, He. Qed.

(** Writing one member in a tree where its name is new. *)
Lemma member_written f0 ms m w : tree_ok f0 -> is_dir base f0 = true -> (forall q, q <> base -> below base q = true -> f0 !! q = None) ->
  placed base ms f0 (tree w) -> tree_ok (tree w) -> readable m -> kept m = true -> new_name ms (member_names m) ->
  let target := join dest_dir (Path (filename m)) in
  exists f', placed base (ms ++ [placed_as m]) f0 f' /\ tree_ok f' /\
    (do! _ := mkdir cwd (path_parent target) in
     do! src := pure (zip_open m) in
     do! _ := write_stream cwd target src in
     do! mtime := pure (map_err (fun e : Empty_set => match e with end) (zip_member_mtime m)) in
     restore_mtime cwd target (seconds <$> mtime)) w =
    ({| tree := f'; mtimes := set_time (base ++ member_names m) (member_time m) (mtimes w); reported := reported w |}, Ok tt).
Proof using Habs Hplain.
  intros Ht0 Hd0 Hfresh Hpl Ht Hm Hk Hnew. cbv zeta. rewrite (target_of m Hm).
  destruct (placed_open base f0 Ht0 Hd0 Hfresh cwd ms (tree w) (member_names m) (member_data m) Hpl Ht Hplain (rd_plain m Hm) Hnew)
    as (f1 & Hmk & Hopen & Hpl' & Ht').
  destruct (zip_mtime_total m (rd_extra m Hm)) as [t Htime].
  exists (<[base ++ member_names m := File (member_data m)]> f1). split; [done|]. split; [done|].
  unfold mkdir, path_parent. cbn [absolute names]. erewrite bind_run by (by apply change_run).
  erewrite bind_run by (unfold pure; by rewrite (rd_open m Hm Hk)). erewrite bind_run by (by apply write_run).
  erewrite bind_run by (unfold pure; by rewrite Htime). unfold member_time. rewrite Htime.
  destruct (Ht' (base ++ member_names m)) as (Hne & Hreal & Hpar); [rewrite lookup_insert_eq; by eexists|].
  erewrite restore_run.
  - by destruct t.
  - unfold lookup_path. cbn [absolute names tree]. by rewrite walk_plain.
  - cbn [tree]. unfold exists_. destruct (base ++ member_names m) eqn:Hb; [done|]. rewrite bool_decide_eq_true_2; [done|].
    rewrite lookup_insert_eq. by eexists.
Qed.

(** * All members *)
Definition keeping (ms : list ZipInfo) : list ZipInfo := filter (fun m => kept m = true) ms.
Lemma keeping_snoc ms m : keeping (ms ++ [m]) = keeping ms ++ (if kept m then [m] else []).
Proof. unfold keeping. rewrite filter_app, filter_cons. destruct (kept m); [by rewrite decide_True|by rewrite decide_False]. Qed.
Definition reports (files bytes_ : Z) (done : list ZipInfo) : list progress :=
  imap (fun i m => {| processed_files := Z.of_nat i + 1; total_files := files; processed_bytes := sum (map file_size (take (S i) done));
                      total_bytes := bytes_; current_path := filename m |}) done.
Lemma sum_app a b : sum (a ++ b) = sum a + sum b.
Proof. unfold sum. induction a as [|x a IH]; cbn; lia. Qed.
Lemma reports_snoc files bytes_ done m :
  reports files bytes_ (done ++ [m]) = reports files bytes_ done ++
    [{| processed_files := len done + 1; total_files := files; processed_bytes := sum (map file_size done) + file_size m;
        total_bytes := bytes_; current_path := filename m |}].
Proof.
  unfold reports. rewrite imap_app. f_equal.
  - apply imap_ext. intros i x Hx. apply lookup_lt_Some in Hx. by rewrite take_app_le.
  - cbn. rewrite Nat.add_0_r. do 2 f_equal. rewrite take_ge by (rewrite length_app; cbn; lia). rewrite map_app, sum_app. cbn. lia.
Qed.

(** What the members [done] have left of a world [w0]. *)
Record left_by (files bytes_ : Z) (w0 : store) (done : list ZipInfo) (w : store) : Prop := {
  lb_placed : placed base (map placed_as (keeping done)) (tree w0) (tree w);
  lb_tree : tree_ok (tree w);
  lb_times : forall m, m ∈ keeping done -> mtimes w !! (base ++ member_names m) = member_time m;
  lb_others : forall q, (forall m, m ∈ keeping done -> q <> base ++ member_names m) -> mtimes w !! q = mtimes w0 !! q;
  lb_reported : reported w = reported w0 ++ concat (map heard (reports files bytes_ done)) }.

Context (w0 : store) (Ht0 : tree_ok (tree w0)) (Hd0 : is_dir base (tree w0) = true).
Context (Hfresh : forall q, q <> base -> below base q = true -> tree w0 !! q = None).

Lemma set_time_eq q t times : set_time q t times !! q = t.
Proof. destruct t; cbn; [by rewrite lookup_insert_eq|by rewrite lookup_delete_eq]. Qed.
Lemma set_time_ne q t times p : p <> q -> set_time q t times !! p = times !! p.
Proof. intros Hp. destruct t; cbn; [rewrite lookup_insert_ne by done|]; by rewrite lookup_delete_ne. Qed.

Lemma left_ignored files bytes_ done m w : left_by files bytes_ w0 done w -> kept m = false ->
  left_by files bytes_ w0 (done ++ [m]) (w <| reported := reported w ++
    heard {| processed_files := len done + 1; total_files := files; processed_bytes := sum (map file_size done) + file_size m;
             total_bytes := bytes_; current_path := filename m |} |>).
Proof.
  intros [Hp Ht Hm Ho Hr] Hk. assert (Hkeep : keeping (done ++ [m]) = keeping done) by (by rewrite keeping_snoc, Hk, app_nil_r).
  split; rewrite ?Hkeep; [done..|]. cbn [reported set_field]. rewrite reports_snoc, map_app, concat_app. cbn [map concat].
  rewrite app_nil_r, app_assoc. by rewrite <-Hr.
Qed.
Lemma left_kept files bytes_ done m w f' : left_by files bytes_ w0 done w -> kept m = true ->
  new_name (map placed_as (keeping done)) (member_names m) ->
  placed base (map placed_as (keeping done) ++ [placed_as m]) (tree w0) f' -> tree_ok f' ->
  left_by files bytes_ w0 (done ++ [m])
    {| tree := f'; mtimes := set_time (base ++ member_names m) (member_time m) (mtimes w);
       reported := reported w ++ heard {| processed_files := len done + 1; total_files := files;
         processed_bytes := sum (map file_size done) + file_size m; total_bytes := bytes_; current_path := filename m |} |}.
Proof.
  intros [Hp Ht Hm Ho Hr] Hk Hnew Hp' Ht'.
  assert (Hkeep : keeping (done ++ [m]) = keeping done ++ [m]) by (by rewrite keeping_snoc, Hk).
  split; cbn [tree mtimes reported]; rewrite ?Hkeep.
  - by rewrite map_app.
  - done.
  - intros m' [Hin|Hin%list_elem_of_singleton]%elem_of_app; [|subst; apply set_time_eq]. rewrite set_time_ne; [by apply Hm|].
    intros Heq. apply app_inv_head in Heq. destruct Hnew as [_ Hnew]. destruct (Hnew (placed_as m')) as [Hb _]; [by apply list_elem_of_fmap_2|].
    cbn [placed_as fst] in Hb. rewrite Heq in Hb. by rewrite below_refl in Hb.
  - intros q Hq. rewrite set_time_ne; [apply Ho; intros m' Hin|]; apply Hq, elem_of_app; [by left|right; by left].
  - rewrite reports_snoc, map_app, concat_app. cbn [map concat]. rewrite app_nil_r, app_assoc. by rewrite <-Hr.
Qed.

Lemma zip_step_run files bytes_ done m w : readable m -> apart (map member_names (keeping (done ++ [m]))) -> left_by files bytes_ w0 done w ->
  exists w', left_by files bytes_ w0 (done ++ [m]) w' /\
    zip_step cwd progress_cb dest_dir files bytes_ (map entry_of done, len done, sum (map file_size done)) m w =
    (w', Ok (map entry_of (done ++ [m]), len (done ++ [m]), sum (map file_size (done ++ [m])))).
Proof.
  intros Hm Hapart Hl. unfold zip_step. erewrite bind_run by (unfold pure; by rewrite validate_readable).
  change (should_ignore_path (Path (filename m)) (Some (file_size m)) false) with (verdict m).
  assert (Hfin : (map entry_of (done ++ [m]), len (done ++ [m]), sum (map file_size (done ++ [m]))) =
    (map entry_of done ++ [entry_of m], len done + 1, sum (map file_size done) + file_size m)).
  { rewrite !map_app, sum_app. cbn [map]. unfold len. rewrite length_app. cbn [length sum fold_right]. repeat f_equal; lia. }
  rewrite Hfin. assert (He : entry_of m = extraction_entry (filename m) (fst (verdict m)) (snd (verdict m)) (file_size m)
    (Some (str_path (join dest_dir (Path (filename m)))))) by done. rewrite He. clear He.
  destruct (verdict m) as [ign why] eqn:Hv. cbn [fst snd].
  assert (Hk : kept m = negb ign) by (unfold kept; by rewrite Hv). destruct ign; cbn [negb] in Hk.
  - eexists. split; [by apply left_ignored|]. erewrite bind_run by done. by erewrite bind_run by apply report_run.
  - rewrite keeping_snoc, Hk, map_app in Hapart. apply apart_snoc in Hapart as [_ Hapart].
    assert (Hnew : new_name (map placed_as (keeping done)) (member_names m)).
    { split; [by apply Hm|]. intros x (m' & -> & Hin)%list_elem_of_fmap. apply (Hapart (member_names m')). by apply list_elem_of_fmap_2. }
    destruct (member_written (tree w0) (map placed_as (keeping done)) m w) as (f' & Hp' & Ht' & Hrun); [done|done|done|apply Hl|apply Hl|done|done|done|].
    eexists. split; [by eapply left_kept|]. erewrite bind_run by exact Hrun. erewrite bind_run by apply report_run. done.
Qed.

Lemma extracted_kept ms : extracted_paths (map (entry_of) ms) = map filename (keeping ms).
Proof.
  unfold extracted_paths, counted, keeping. induction ms as [|m ms IH]; [done|]. cbn [map]. rewrite !filter_cons.
  assert (Hk : ignored (entry_of m) = negb (kept m)) by (unfold kept; by rewrite negb_involutive).
  destruct (kept m); cbn [negb] in Hk.
  - rewrite decide_True by done. rewrite (decide_True (P := true = true)) by done. cbn [map]. by rewrite IH.
  - rewrite decide_False by congruence. by rewrite (decide_False (P := false = true)).
Qed.

Lemma left_nil files bytes_ : left_by files bytes_ w0 [] w0.
Proof. split; [apply placed_nil|done|by intros m Hm%elem_of_nil|done|by rewrite app_nil_r]. Qed.

Lemma zip_steps_run files bytes_ done rest w : Forall readable rest -> apart (map member_names (keeping (done ++ rest))) ->
  left_by files bytes_ w0 done w ->
  exists w', left_by files bytes_ w0 (done ++ rest) w' /\
    for_each (zip_step cwd progress_cb dest_dir files bytes_) (map entry_of done, len done, sum (map file_size done)) rest w =
    (w', Ok (map entry_of (done ++ rest), len (done ++ rest), sum (map file_size (done ++ rest)))).
Proof.
  intros Hrest. revert done w. induction Hrest as [|m rest Hm _ IH]; intros done w Hapart Hl.
  { exists w. by rewrite app_nil_r. }
  replace (done ++ m :: rest) with ((done ++ [m]) ++ rest) in * by (by rewrite <-app_assoc).
  destruct (zip_step_run files bytes_ done m w Hm) as (w1 & Hl1 & Hrun); [|done|].
  - unfold keeping in *. rewrite filter_app, map_app in Hapart. intros i j p q Hi Hj.
    apply (Hapart i j p q); by apply lookup_app_l_Some.
  - destruct (IH (done ++ [m]) w1 Hapart Hl1) as (w' & Hl' & Hgo). exists w'. split; [done|]. cbn [for_each].
    erewrite bind_run by exact Hrun. exact Hgo.
Qed.
End exact.

(** C13. Extracting a readable ZIP into an empty directory leaves every member that
    is not ignored at its name with its content and its time, the directories on
    the way, and nothing else; every member is reported, in order.  The limits are
    looked at only then: when they are exceeded the error is raised with all of it
    written. *)
Theorem zip_extracted `{AsciiLower} settings cwd ZipFile progress_cb source dest_dir data infolist w0 :
  absolute dest_dir = true -> plain dest_dir -> quiet progress_cb ->
  tree_ok (tree w0) -> is_dir (names dest_dir) (tree w0) = true ->
  (forall q, q <> names dest_dir -> below (names dest_dir) q = true -> tree w0 !! q = None) ->
  read_path cwd source (tree w0) = Ok data -> ZipFile data = Ok infolist ->
  let members := filter (fun member => zip_is_dir member = false) infolist in
  Forall readable members -> apart (map member_names (keeping members)) ->
  exists w', left_by progress_cb dest_dir (len members) (sum (map file_size members)) w0 members w' /\
    _extract_zip settings cwd ZipFile progress_cb source dest_dir w0 =
    (w', if within_limits settings (map (entry_of dest_dir) members)
         then Ok (map filename (keeping members), map (entry_of dest_dir) members)
         else Raise (failure "archive_extraction_limit_exceeded")).
Proof.
  intros Habs Hplain Hquiet Ht0 Hd0 Hfresh Hread Hzip members Hms Hapart.
  destruct (zip_steps_run cwd progress_cb dest_dir Habs Hplain Hquiet w0 Ht0 Hd0 Hfresh (len members) (sum (map file_size members)) [] members w0
    Hms Hapart (left_nil _ _ _ Ht0 _ _)) as (w' & Hl & Hrun).
  exists w'. split; [done|]. unfold _extract_zip, classified, catch. erewrite bind_run by (unfold read_source, os, asks; by rewrite Hread).
  erewrite bind_run by (unfold pure; by rewrite Hzip).
  assert (Hsafe : _safe_members_zip settings cwd progress_cb infolist dest_dir w0 =
    (w', let! _ := _enforce_limits settings (map (entry_of dest_dir) members) in Ok (map (entry_of dest_dir) members))).
  { unfold _safe_members_zip. fold members. erewrite bind_run by exact Hrun. cbn [app].
    unfold mbind, io_bind, pure, mret, io_ret. by destruct (_enforce_limits _ _). }
  pose proof (limits_outcome settings (map (entry_of dest_dir) members)) as Hlim.
  destruct (within_limits settings (map (entry_of dest_dir) members)).
  - rewrite Hlim in Hsafe. erewrite bind_run by exact Hsafe. by rewrite extracted_kept.
  - destruct Hlim as (text & Hraise & Hclass). rewrite Hraise in Hsafe. erewrite bind_raise by exact Hsafe. unfold raise, pure. by rewrite Hclass.
Qed.
End ArchiveExact.
