(* ===== verification/ArchiveFlaws.v ===== *)
(** Concrete archives: the witnesses of the theorems on extraction, and archives
    whose extraction surprises. *)
From S2P Require Import Prelude PyBase PyRuntime FileSystem PurePaths Effects Ad1Image Archive ArchiveSafe ArchiveExact.
Import Bytes Str PyRuntime FileSystem PurePaths Effects Archive ArchiveSafe ArchiveExact.

Module ArchiveFlaws.
#[local] Existing Instance toy_runtime.

(** The directory /x/ex is there and empty, beside an archive of each kind. *)
Definition ex : pure_path := {| absolute := true; names := [lit "x"; lit "ex"] |}.
Definition zip_path : pure_path := {| absolute := true; names := [lit "x"; lit "e.zip"] |}.
Definition ad1_path : pure_path := {| absolute := true; names := [lit "x"; lit "e.ad1"] |}.
Definition before : store :=
  {| tree := list_to_map [([lit "x"], Dir); ([lit "x"; lit "ex"], Dir); ([lit "x"; lit "e.zip"], File [80]); ([lit "x"; lit "e.ad1"], File [65])];
     mtimes := ∅; reported := [] |}.
Definition limits : Settings := {| backend_max_extracted_files := 2; backend_max_extracted_bytes := 100 |}.

Definition member (name_ : string) (data : bytes) : ZipInfo :=
  {| filename := lit name_; file_size := len data; compress_type := 0; extra := []; date_time := (2024, 5, 1, 12, 0, 0);
     zip_open := Ok {| chunks := data; read_error := None |} |}.
Definition no_seven_zip (_ : result os_error bytes) : result exn (list temp_file) := Raise OtherException.
Definition no_ad1 (_ : bytes) : result exn (Ad1Image.entry ad1_reader) := Raise (AD1ImageError (lit "ad1_invalid") []).
Definition no_text (_ : exn) : str := [].
Definition no_cb : option (progress -> result exn unit) := None.

Definition run_zip (members : list ZipInfo) : store * result exn (list str * list manifest_entry) :=
  extract_archive limits [] ex (fun _ => Ok members) no_seven_zip no_ad1 no_text no_cb zip_path ex before.

Definition child (name_ : string) (dir : bool) (data : bytes) (children : list (Ad1Image.entry ad1_reader)) : Ad1Image.entry ad1_reader :=
  Ad1Image.Entry {| Ad1Image.entry_name := lit name_; Ad1Image.deleted := false; Ad1Image.is_dir := dir; Ad1Image.is_file := negb dir;
                    Ad1Image.is_symlink := false; Ad1Image.size := len data;
                    Ad1Image.reader := {| ad1_open := Ok {| chunks := data; read_error := None |}; ad1_mtime := None |} |} children.
Definition run_ad1 (children : list (Ad1Image.entry ad1_reader)) : store * result exn (list str * list manifest_entry) :=
  extract_archive limits [] ex (fun _ => Raise BadZipFile) no_seven_zip (fun _ => Ok (child "" true [] children)) no_text no_cb ad1_path ex before.

Definition at_ex (n : string) : path := [lit "x"; lit "ex"; lit n].
Definition paths_of (r : result exn (list str * list manifest_entry)) : list (str * option str) :=
  match r with Ok (_, es) => map (fun e => (entry_path e, local_path e)) es | _ => [] end.

(** A ZIP member whose path leaves the directory and comes back makes a
    directory outside.  Of two members with one name both are listed as extracted
    and one is there; so it is with the files of two AD1 partitions.  A directory
    that follows a file of its name in an AD1 image is lost with all it holds.  An
    unsafe path in an AD1 image raises a bare [ValueError], and in a ZIP it counts
    as an exceeded limit if it contains those words. *)
Lemma extraction_surprises :
  (let (w, r) := run_zip [member "../new/../ex/b" [1]] in
   is_ok r = true /\ tree before !! [lit "x"; lit "new"] = None /\ tree w !! [lit "x"; lit "new"] = Some Dir /\
   tree w !! at_ex "b" = Some (File [1])) /\
  (let (w, r) := run_zip [member "a" [1]; member "a" [2]] in
   paths_of r = [(lit "a", Some (lit "/x/ex/a")); (lit "a", Some (lit "/x/ex/a"))] /\ tree w !! at_ex "a" = Some (File [2])) /\
  (let (w, r) := run_ad1 [child "Partition 1" true [] [child "[root]" true [] [child "a" false [1] []]];
                          child "Partition 2" true [] [child "[root]" true [] [child "a" false [2] []]]] in
   paths_of r = [(lit "a", Some (lit "/x/ex/a")); (lit "a", Some (lit "/x/ex/a"))] /\ tree w !! at_ex "a" = Some (File [2])) /\
  (let (w, r) := run_ad1 [child "Users" false [9] []; child "USERS" true [] [child "b" false [1] []]] in
   paths_of r = [(lit "Users", Some (lit "/x/ex/Users"))]) /\
  snd (run_ad1 [child ".." true [] [child "a" false [1] []]]) = Raise (ValueError (lit "Unsafe extraction path detected: /x/ex/../a")) /\
  snd (run_zip [member "../a" [1]]) = Raise (failure "archive_extraction_failed") /\
  snd (run_zip [member "../limit exceeded" [1]]) = Raise (failure "archive_extraction_limit_exceeded").
Proof. vm_compute. split_and!; reflexivity. Qed.

(** * Witnesses *)
Lemma before_ok : tree_ok (tree before).
Proof.
  intros q [x Hq]. apply elem_of_list_to_map_2 in Hq.
  repeat (apply elem_of_cons in Hq as [Hq|Hq]; [injection Hq as -> ->; split; [done|]; split; [by repeat constructor|reflexivity]|]).
  by apply elem_of_nil in Hq.
Qed.
Lemma before_fresh q : q <> names ex -> below (names ex) q = true -> tree before !! q = None.
Proof.
  intros Hne Hb. apply not_elem_of_list_to_map_1. intros Hin. cbn in Hin. unfold ex in *. cbn [names] in *.
  repeat (apply elem_of_cons in Hin as [->|Hin]; [done|]). by apply elem_of_nil in Hin.
Qed.

Lemma extraction_confined_witness :
  let w' := fst (run_zip [member "a" [1]; member "../new/../ex/b" [2]]) in
  tree_ok (tree w') /\ tree w' !! [lit "x"; lit "e.zip"] = Some (File [80]) /\ mtimes w' !! [lit "x"; lit "e.zip"] = None.
Proof.
  destruct (extraction_confined limits [] ex (fun _ => Ok [member "a" [1]; member "../new/../ex/b" [2]]) no_seven_zip no_ad1 no_text no_cb ex zip_path before)
    as (Ht & Hq & _).
  - reflexivity.
  - apply before_ok.
  - discriminate.
  - destruct (Hq [lit "x"; lit "e.zip"] ltac:(reflexivity)) as [[E|[E _]] M]; [|discriminate E]. split; [exact Ht|]. split; [exact E|exact M].
Defined.

Definition two : list ZipInfo := [member "a" [1; 2]; member "d/" []; member ".DS_Store" [7]; member "d/b" [3]].
Lemma two_readable : Forall readable (filter (fun member => zip_is_dir member = false) two).
Proof.
  replace (filter _ two) with [member "a" [1; 2]; member ".DS_Store" [7]; member "d/b" [3]] by (vm_compute; reflexivity).
  repeat constructor; try (by vm_compute); try (intros; by vm_compute).
Qed.

Lemma zip_extracted_witness :
  exists w', tree w' !! at_ex "a" = Some (File [1; 2]) /\ tree w' !! at_ex "d" = Some Dir /\
    snd (_extract_zip limits [] (fun _ => Ok two) no_cb zip_path ex before) =
    Ok ([lit "a"; lit "d/b"], map (entry_of ex) (filter (fun member => zip_is_dir member = false) two)).
Proof.
  destruct (zip_extracted limits [] (fun _ => Ok two) no_cb zip_path ex [80] two before) as (w' & Hl & Hrun).
  - reflexivity.
  - by repeat constructor.
  - exact I.
  - apply before_ok.
  - reflexivity.
  - apply before_fresh.
  - reflexivity.
  - reflexivity.
  - apply two_readable.
  - intros i j p q Hi Hj Hb. vm_compute in Hi, Hj. destruct i as [|[|i]], j as [|[|j]]; try discriminate; try reflexivity.
    all: injection Hi as <-; injection Hj as <-; vm_compute in Hb; discriminate Hb.
  - exists w'. rewrite Hrun. destruct Hl as [[Hfiles Hothers] _ _ _ _]. split; [|split].
    + apply (Hfiles (placed_as (member "a" [1; 2]))). vm_compute. by left.
    + assert (E := Hothers (at_ex "d")). etransitivity; [apply E|reflexivity]. intros m Hm Heq. vm_compute in Hm.
      repeat (apply elem_of_cons in Hm as [->|Hm]; [discriminate Heq|]). by apply elem_of_nil in Hm.
    + reflexivity.
Defined.
End ArchiveFlaws.
