(* ===== verification/Ad1Listed.v ===== *)
(** Which files of an AD1 image are listed: exactly those that are reached through
    kept children; which child of a name is kept; and what is lost. *)
From S2P Require Import Prelude PyBase PyRuntime FileSystem PurePaths Ad1Image.
Import Bytes Str PyRuntime Ad1Image.

Module Ad1Listed.
Section listed.
Context `{Runtime} {P : Type}.
Abbreviation entry := (Ad1Image.entry P).
Abbreviation entry_info := (Ad1Image.entry_info P).

(** Induction over a tree: a property of all children gives that of the entry. *)
Lemma entry_ind_children (Q : entry -> Prop) : (forall info children, Forall Q children -> Q (Entry info children)) -> forall e, Q e.
Proof.
  intros Hstep. fix IH 1. intros [info children]. apply Hstep. induction children as [|c children IHc]; constructor; [apply IH|exact IHc].
Qed.

Definition key_of (e : entry) : str := py_lower (entry_name (info_of e)).
Definition live (e : entry) : bool := negb (deleted (info_of e)).
(** The children that are kept, in the order their names were first seen. *)
Definition chosen_of (children : list entry) : list (str * (entry_info * entry)) :=
  fold_left choose (map (fun child => (info_of child, child)) children) [].
Definition kept_children (children : list entry) : list entry := map (fun kv => snd (snd kv)) (chosen_of children).

Lemma choose_map {X Y} (f : X -> Y) chosen (c : entry_info * X) :
  choose (map (fun kv => (fst kv, (fst (snd kv), f (snd (snd kv))))) chosen) (fst c, f (snd c)) =
  map (fun kv => (fst kv, (fst (snd kv), f (snd (snd kv))))) (choose chosen c).
Proof.
  assert (Hget : forall k l, Dict.get k (map (fun kv : str * (entry_info * X) => (fst kv, (fst (snd kv), f (snd (snd kv))))) l) =
    (fun cx => (fst cx, f (snd cx))) <$> Dict.get k l).
  { intros k l. induction l as [|[k' [i x]] l IH]; [done|]. cbn. by destruct (decide _). }
  assert (Hset : forall k c l, Dict.set k (fst c, f (snd c)) (map (fun kv : str * (entry_info * X) => (fst kv, (fst (snd kv), f (snd (snd kv))))) l) =
    map (fun kv => (fst kv, (fst (snd kv), f (snd (snd kv))))) (Dict.set k c l)).
  { intros k [i x] l. induction l as [|[k' [i' x']] l IH]; [done|]. cbn. destruct (decide _); [done|]. cbn. by rewrite <-IH. }
  unfold choose. cbn [fst snd]. destruct (deleted (fst c)); [done|]. rewrite Hget.
  destruct (Dict.get _ chosen) as [[i x]|]; cbn [fmap option_fmap option_map fst]; [|apply Hset].
  destruct (_ && _ && _); [apply Hset|done].
Qed.

(** Walking an entry is walking its kept children. *)
Definition yields_of (parts : list str) (child : entry) : list (str * entry_info) :=
  yields (parts ++ [entry_name (info_of child)]) (info_of child, walk child).
Lemma chosen_info children kv : kv ∈ chosen_of children -> fst (snd kv) = info_of (snd (snd kv)).
Proof.
  unfold chosen_of. set (l := map _ children). assert (Hl : forall c, c ∈ l -> fst c = info_of (snd c)).
  { intros c (e & -> & _)%list_elem_of_fmap. done. }
  assert (Hgo : forall acc, (forall kv, kv ∈ acc -> fst (snd kv) = info_of (snd (snd kv))) -> forall kv, kv ∈ fold_left choose l acc -> fst (snd kv) = info_of (snd (snd kv))).
  { clearbody l. induction l as [|c l IH]; intros acc Hacc; [done|]. cbn. apply IH; [intros; apply Hl; by right|].
    intros [k' c']. unfold choose. destruct (deleted _); [apply Hacc|].
    assert (Hset : (k', c') ∈ Dict.set (py_lower (entry_name (fst c))) c acc -> fst c' = info_of (snd c')).
    { intros [[_ ->]|Hin]%Dict.elem_set; [apply Hl; by left|]. by apply (Hacc _ Hin). }
    destruct (Dict.get _ _); [destruct (_ && _ && _)|]; try done. apply Hacc. }
  apply Hgo. by intros ? ?%elem_of_nil.
Qed.
Lemma walk_kept info children parts : walk (Entry info children) parts = concat (map (yields_of parts) (kept_children children)).
Proof.
  cbn [walk]. f_equal. unfold kept_children. rewrite map_map.
  assert (Hmap : fold_left choose (map (fun child => (info_of child, walk child)) children) [] =
    map (fun kv => (fst kv, (fst (snd kv), walk (snd (snd kv))))) (chosen_of children)).
  { unfold chosen_of. change [] with (map (fun kv : str * (entry_info * entry) => (fst kv, (fst (snd kv), walk (snd (snd kv))))) []) at 1.
    generalize (@nil (str * (entry_info * entry))) as acc. induction children as [|c children IH]; intros acc; [done|].
    cbn [map fold_left]. rewrite <-IH. f_equal. apply (choose_map walk acc (info_of c, c)). }
  rewrite Hmap, map_map. apply map_ext_in. intros kv Hin%list_elem_of_In. unfold yields_of. cbn [fst snd].
  by rewrite (chosen_info _ _ Hin).
Qed.

(** A file is listed when it is a regular file reached through kept children; its
    path is that of its names, rebased. *)
Inductive listed : entry -> list str -> str * entry_info -> Prop :=
  | listed_file root parts child : child ∈ kept_children (iterdir root) ->
      is_dir (info_of child) = false -> is_file (info_of child) = true -> is_symlink (info_of child) = false ->
      rebase_parts (parts ++ [entry_name (info_of child)]) <> [] ->
      listed root parts (PurePaths.intercalate (lit "/") (rebase_parts (parts ++ [entry_name (info_of child)])), info_of child)
  | listed_dir root parts child r : child ∈ kept_children (iterdir root) ->
      is_dir (info_of child) = true -> listed child (parts ++ [entry_name (info_of child)]) r -> listed root parts r.

Lemma kept_in children e : e ∈ kept_children children -> e ∈ children.
Proof.
  unfold kept_children, chosen_of. intros (kv & -> & Hkv)%list_elem_of_fmap.
  assert (Hgo : forall l acc kv, kv ∈ fold_left choose l acc -> kv ∈ acc \/ (snd kv : entry_info * entry) ∈ l).
  { induction l as [|c l IH]; intros acc x; [by left|]. cbn. intros [Hx|Hx]%IH; [|right; by right].
    unfold choose in Hx. destruct (deleted _); [by left|].
    assert (Hset : x ∈ Dict.set (py_lower (entry_name (fst c))) c acc -> x ∈ acc \/ snd x ∈ c :: l).
    { destruct x as [k v]. intros [[_ ->]|?]%Dict.elem_set; [right; by left|by left]. }
    destruct (Dict.get _ _); [destruct (_ && _ && _)|]; auto. }
  apply Hgo in Hkv as [?%elem_of_nil|Hin]; [done|]. apply list_elem_of_fmap in Hin as (e & He & Hin). by rewrite He.
Qed.

Lemma walk_listed e parts r : r ∈ walk e parts <-> listed e parts r.
Proof.
  revert parts. induction e as [info children IH] using entry_ind_children. intros parts. rewrite walk_kept. split.
  - intros Hin%list_elem_of_In. apply in_concat in Hin as (l & (child & <- & Hc)%in_map_iff & Hr). apply list_elem_of_In in Hc, Hr.
    unfold yields_of, yields in Hr. cbn [fst snd] in Hr. destruct (is_dir (info_of child)) eqn:Hd.
    + eapply listed_dir; [exact Hc|done|]. rewrite Forall_forall in IH. apply IH; [by apply kept_in|done].
    + destruct (is_file (info_of child)) eqn:Hf, (is_symlink (info_of child)) eqn:Hs; cbn [andb negb] in Hr; try (by apply elem_of_nil in Hr).
      destruct (rebase_parts _) eqn:Hrb; [by apply elem_of_nil in Hr|]. apply list_elem_of_singleton in Hr as ->.
      rewrite <-Hrb. apply listed_file; [done..|congruence].
  - intros Hl. apply list_elem_of_In, in_concat. inversion Hl as [? ? child Hc Hd Hf Hs Hne|? ? child ? Hc Hd Hrest]; subst.
    + exists (yields_of parts child). split; [apply in_map, list_elem_of_In, Hc|]. apply list_elem_of_In. unfold yields_of, yields.
      cbn [fst snd]. rewrite Hd, Hf, Hs. cbn [andb negb]. destruct (rebase_parts _) eqn:Hrb; [done|]. by left.
    + exists (yields_of parts child). split; [apply in_map, list_elem_of_In, Hc|]. apply list_elem_of_In. unfold yields_of, yields.
      cbn [fst snd]. rewrite Hd. rewrite Forall_forall in IH. by apply IH; [apply kept_in|].
Qed.

(** * Which child of a name is kept *)
Definition group (k : str) (children : list entry) : list entry := filter (fun e => live e = true /\ key_of e = k) children.
Definition rank (e : entry) : Z * Z := _content_rank (info_of e).
Definition beats (x current : entry) : bool :=
  negb (is_dir (info_of x)) && negb (is_dir (info_of current)) && rank_gt (rank x) (rank current).
Definition better (current x : entry) : entry := if beats x current then x else current.
Definition best (group : list entry) : option entry := match group with [] => None | c :: rest => Some (fold_left better rest c) end.

Lemma chosen_snoc children c : chosen_of (children ++ [c]) = choose (chosen_of children) (info_of c, c).
Proof. unfold chosen_of. by rewrite map_app, fold_left_app. Qed.
Lemma best_snoc g c : best (g ++ [c]) = Some (match best g with Some current => better current c | None => c end).
Proof. destruct g as [|d g]; [done|]. cbn. by rewrite fold_left_app. Qed.
Lemma group_snoc k children c : group k (children ++ [c]) = group k children ++ (if bool_decide (live c = true /\ key_of c = k) then [c] else []).
Proof. unfold group. rewrite filter_app, filter_cons. by case_bool_decide; [rewrite decide_True|rewrite decide_False]. Qed.

Lemma chosen_get children k : Dict.get k (chosen_of children) = (fun e => (info_of e, e)) <$> best (group k children).
Proof.
  induction children as [|c children IH] using rev_ind; [done|]. rewrite chosen_snoc, group_snoc. unfold choose. cbn [fst snd].
  unfold live. destruct (deleted (info_of c)) eqn:Hd; cbn [negb].
  { rewrite bool_decide_eq_false_2 by (by intros []). by rewrite app_nil_r. }
  fold (key_of c). destruct (decide (key_of c = k)) as [Hk|Hk].
  - rewrite bool_decide_eq_true_2 by done. rewrite best_snoc, Hk, IH. destruct (best (group k children)) as [current|]; cbn [fmap option_fmap option_map fst].
    + unfold better, beats, rank. destruct (_ && _ && _); [|by rewrite IH]. rewrite Dict.get_set. by rewrite decide_True.
    + rewrite Dict.get_set. by rewrite decide_True.
  - rewrite bool_decide_eq_false_2 by (by intros []). rewrite app_nil_r, <-IH.
    assert (Hset : Dict.get k (Dict.set (key_of c) (info_of c, c) (chosen_of children)) = Dict.get k (chosen_of children)).
    { rewrite Dict.get_set. by rewrite decide_False. }
    destruct (Dict.get (key_of c) _); [|done]. by destruct (_ && _ && _).
Qed.
Lemma chosen_keys children : NoDup (Dict.keys (chosen_of children)).
Proof.
  induction children as [|c children IH] using rev_ind; [constructor|]. rewrite chosen_snoc. unfold choose. cbn [fst].
  destruct (deleted _); [done|]. destruct (Dict.get _ _); [destruct (_ && _ && _)|]; auto using Dict.set_nodup.
Qed.

Lemma best_in g e : best g = Some e -> e ∈ g.
Proof.
  revert e. induction g as [|c g IH] using rev_ind; intros e; [done|]. rewrite best_snoc. intros [= <-].
  destruct (best g) as [current|]; [|apply elem_of_app; right; by left]. unfold better.
  destruct (beats c current); [apply elem_of_app; right; by left|]. apply elem_of_app. left. by apply IH.
Qed.

(** Among the live children of a name: the first if it is a directory, else the
    first of those with the most content that are none. *)
Definition kept_of (g : list entry) (e : entry) : Prop :=
  e ∈ g /\
  match g with
  | c :: _ => if is_dir (info_of c) then e = c
              else is_dir (info_of e) = false /\ forall x, x ∈ g -> is_dir (info_of x) = false -> rank_gt (rank x) (rank e) = false
  | [] => False
  end.
Lemma rank_ge_trans a b c : rank_gt b a = false -> rank_gt c b = false -> rank_gt c a = false.
Proof. unfold rank_gt. destruct a, b, c. cbn. lia. Qed.
Lemma rank_gt_asym a b : rank_gt a b = true -> rank_gt b a = false.
Proof. unfold rank_gt. destruct a, b. cbn. lia. Qed.
Lemma rank_gt_irrefl a : rank_gt a a = false.
Proof. unfold rank_gt. destruct a. cbn. lia. Qed.
Lemma best_kept g e : best g = Some e -> kept_of g e.
Proof.
  intros Hb. split; [by apply best_in|]. revert e Hb. induction g as [|c g IH] using rev_ind; intros e; [done|]. rewrite best_snoc. intros [= <-].
  destruct g as [|d g]; [cbn in *|].
  { destruct (is_dir (info_of c)) eqn:Hd; [done|]. split; [done|]. intros x Hx%list_elem_of_singleton _. subst. apply rank_gt_irrefl. }
  cbn [app]. destruct (best (d :: g)) as [current|] eqn:Hbest; [|done]. specialize (IH current eq_refl). cbv beta iota in IH |- *.
  unfold better, beats. destruct (is_dir (info_of d)) eqn:Hdd.
  - subst current. rewrite Hdd. cbn [negb]. by rewrite andb_false_r.
  - destruct IH as [Hcd Hmax]. rewrite Hcd. cbn [negb]. rewrite andb_true_r.
    destruct (is_dir (info_of c)) eqn:Hdc; cbn [negb andb].
    { split; [done|]. intros x [->|Hx]%elem_of_cons Hxd; [apply Hmax; [by left|done]|]. apply elem_of_app in Hx as [Hx|Hx%list_elem_of_singleton]; [apply Hmax; [by right|done]|].
      subst. congruence. }
    destruct (rank_gt (rank c) (rank current)) eqn:Hgt.
    + split; [done|]. assert (Hall : forall x, x ∈ d :: g -> is_dir (info_of x) = false -> rank_gt (rank x) (rank c) = false).
      { intros x Hx Hxd. eapply rank_ge_trans; [|apply Hmax; done]. by apply rank_gt_asym. }
      intros x [->|[Hx|Hx%list_elem_of_singleton]%elem_of_app]%elem_of_cons Hxd; [apply Hall; [by left|done]|apply Hall; [by right|done]|].
      subst. apply rank_gt_irrefl.
    + split; [done|]. intros x [->|[Hx|Hx%list_elem_of_singleton]%elem_of_app]%elem_of_cons Hxd; [apply Hmax; [by left|done]|apply Hmax; [by right|done]|].
      by subst.
Qed.

Lemma kept_best children e : e ∈ kept_children children <-> live e = true /\ best (group (key_of e) children) = Some e.
Proof.
  unfold kept_children. split.
  - intros ([k [i x]] & -> & Hin)%list_elem_of_fmap. cbn [snd].
    pose proof (Dict.elem_get _ _ _ (chosen_keys children) Hin) as Hg. rewrite chosen_get in Hg.
    destruct (best (group k children)) as [e|] eqn:Hb; [|done]. injection Hg as _ ->.
    pose proof (best_in _ _ Hb) as [[Hl Hk] _]%list_elem_of_filter. by rewrite Hk.
  - intros [_ Hb]. apply list_elem_of_fmap. exists (key_of e, (info_of e, e)). split; [done|]. apply Dict.get_elem. by rewrite chosen_get, Hb.
Qed.

(** C24. The files listed of an image are exactly the regular files that are reached
    through kept children, under their rebased names.  In every directory, each
    name (in lower case) of a live child has exactly one kept child: the first if
    that is a directory, else one that is none and than which no other has more
    content. *)
Theorem ad1_files_listed (root : entry) :
  (forall r, r ∈ iter_ad1_files root <-> listed root [] r) /\
  forall children : list entry,
    (forall e, e ∈ kept_children children -> e ∈ children /\ live e = true /\ kept_of (group (key_of e) children) e) /\
    (forall e e', e ∈ kept_children children -> e' ∈ kept_children children -> key_of e = key_of e' -> e = e') /\
    (forall e, e ∈ children -> live e = true -> exists e', e' ∈ kept_children children /\ key_of e' = key_of e).
Proof.
  split; [intros r; apply walk_listed|]. intros children. split; [|split].
  - intros e He. pose proof (kept_in _ _ He). apply kept_best in He as [Hl Hb]. split; [done|]. split; [done|]. by apply best_kept.
  - intros e e' [_ He]%kept_best [_ He']%kept_best Hk. congruence.
  - intros e He Hl. assert (Hin : e ∈ group (key_of e) children) by (by apply list_elem_of_filter).
    destruct (best (group (key_of e) children)) as [e'|] eqn:Hb; [|by destruct (group _ _); [apply elem_of_nil in Hin|]].
    pose proof (best_in _ _ Hb) as [[Hl' Hk] _]%list_elem_of_filter. exists e'. split; [|done]. apply kept_best. by rewrite Hk.
Qed.
End listed.
End Ad1Listed.
