(* ===== verification/Prefetch.v ===== *)
(** ingest/raw_parsers/prefetch_parser.py: what a Windows Prefetch file says of the
    runs of a program, read from its bytes, with what a file that cannot be read is
    reported as. *)
From S2P Require Import Prelude PyBase PyText PyDates PurePaths.
Import Bytes Str PyText PyDates PurePaths.

Module Prefetch.

Definition SUPPORTED_PREFETCH_VERSIONS : list Z := [17; 23; 26; 30; 31].
Definition _PREFETCH_ENTRY_SIZES (version : Z) : Z := if version =? 17 then 40 else 104.

(** A [ValueError] by its message, or a [struct.error]. *)
Inductive prefetch_error : Type :=
  | MamFailed                       (** mam_decompression_failed *)
  | MamNotSupported                 (** mam_decompression_not_supported *)
  | TooSmall                        (** Prefetch file too small *)
  | InvalidSignature (signature : str)
  | Truncated.                      (** [struct.error] *)
#[export] Instance prefetch_error_eq_dec : EqDecision prefetch_error.
Proof. solve_decision. Defined.
Abbreviation parsed A := (result prefetch_error A).

(** * Fields *)
Definition _u32 (data : list Z) (offset : Z) : parsed Z := of_option Truncated (u_le 4 data offset).
Definition _safe_u32 (data : list Z) (offset : Z) : option Z :=
  if (offset <? 0) || (len data <? offset + 4) then None else u_le 4 data offset.
Definition _safe_u64 (data : list Z) (offset : Z) : option Z :=
  if (offset <? 0) || (len data <? offset + 8) then None else u_le 8 data offset.

(** [datetime(1601, 1, 1)] *)
Definition filetime_epoch : Z := 584389.
Definition _filetime_to_iso (value : option Z) : option str :=
  match value with
  | None => None
  | Some value => if value =? 0 then None else isoformat filetime_epoch (value / 10)
  end.

(** [s or None] *)
Definition some_text (s : str) : option str := match s with [] => None | _ => Some s end.
Definition _decode_utf16le_z (data : list Z) : option str :=
  match data with
  | [] => None
  | _ => some_text (strip (default [] (head (split_on 0 (utf16_ignore data)))))
  end.
Definition backslash (s : str) : str := replace_char (code "/") (code "\") s.
Definition _clean_pathish (value : option str) : option str :=
  match value with
  | None | Some [] => None
  | Some value => some_text (backslash (strip value))
  end.

(** * The name of the file: [(?P<exe>.+?)(?:-(?P<hash>[0-9A-Fa-f]{8}))?\.pf$] without case *)
Definition is_hex (c : Z) : bool :=
  (48 <=? c) && (c <=? 57) || (65 <=? c) && (c <=? 70) || (97 <=? c) && (c <=? 102).
Definition hex_upper (s : str) : str := map (fun c => if (97 <=? c) && (c <=? 102) then c - 32 else c) s.
(** [\.pf$] *)
Definition pf_end (rest : str) : bool :=
  match rest with
  | dot :: p :: f :: rest =>
      (dot =? code ".") && one_of (lit "pP") p && one_of (lit "fF") f &&
      match rest with [] => true | [c] => c =? 10 | _ => false end
  | _ => false
  end.
(** What follows the executable: the hash, if there is one. *)
Definition pf_tail (rest : str) : option (option str) :=
  let hash := take 8 (drop 1 rest) in
  if startswith (lit "-") rest && (len hash =? 8) && forallb is_hex hash && pf_end (drop 9 rest) then Some (Some hash)
  else if pf_end rest then Some None
  else None.
Fixpoint pf_match (exe rest : str) : option (str * option str) :=
  match exe, pf_tail rest with
  | _ :: _, Some hash => Some (exe, hash)
  | _, _ =>
      match rest with
      | [] => None
      | c :: rest => if c =? 10 then None else pf_match (exe ++ [c]) rest
      end
  end.
Definition _parse_prefetch_filename (path : str) : option str * option str :=
  match pf_match [] (name (Path path)) with
  | None => (None, None)
  | Some (exe, hash) => (some_text (strip exe), hex_upper <$> hash)
  end.

(** * Compressed files *)
Definition _read_magic (data : list Z) : str :=
  if bool_decide (slice 0 3 data = lit "MAM") then lit "MAM"
  else if 8 <=? len data then ascii_ignore (slice 4 8 data)
  else [].

(** The chunks after the header, each with its length; [None] when they do not end
    with the file. *)
Definition framed_step (data : list Z) (s : Z * list (list Z)) : parsed (Z * list (list Z) + option (list (list Z))) :=
  let '(cursor, chunks) := s in
  if cursor <? len data then
    if len data <? cursor + 4 then Ok (inr None)
    else
      let! compressed_size := _u32 data cursor in
      let cursor := cursor + 4 in
      if (compressed_size <=? 0) || (len data <? cursor + compressed_size) then Ok (inr None)
      else Ok (inl (cursor + compressed_size, chunks ++ [slice cursor (cursor + compressed_size) data]))
  else Ok (inr (Some chunks)).
Definition framed_chunks (data : list Z) : parsed (option (list (list Z))) :=
  while (S (length data)) (framed_step data) (12, []).

Section decompressor.
(** [xpress_lz77.lz77_huffman_decompress_py] when the module can be imported; it may
    raise. *)
Variable lz77_huffman_decompress_py : option (list Z -> Z -> option (list Z)).
(** [str.lower] *)
Variable py_lower : str -> str.

Fixpoint try_attempts (decompress : list Z -> Z -> option (list Z)) (uncompressed_size : Z) (seen attempts : list (list Z)) : parsed (list Z) :=
  match attempts with
  | [] => Raise MamFailed
  | candidate :: attempts =>
      if bool_decide (candidate = []) || bool_decide (candidate ∈ seen) then try_attempts decompress uncompressed_size seen attempts
      else
        match decompress candidate uncompressed_size with
        | Some decompressed =>
            if bool_decide (_read_magic decompressed = lit "SCCA") then Ok decompressed
            else try_attempts decompress uncompressed_size (candidate :: seen) attempts
        | None => try_attempts decompress uncompressed_size (candidate :: seen) attempts
        end
  end.
Definition mam_attempts (data : list Z) (chunks : option (list (list Z))) : list (list Z) :=
  match chunks with Some ((_ :: _) as chunks) => [concat chunks] | _ => [] end ++
  (if 12 <? len data then [drop 12 data] else []) ++
  (if 8 <? len data then [drop 8 data] else []).
Definition _decompress_mam_prefetch (data : list Z) : parsed (list Z) :=
  if (len data <? 12) || negb (bool_decide (slice 0 3 data = lit "MAM")) then Raise MamFailed
  else
    let! uncompressed_size := _u32 data 4 in
    if uncompressed_size <=? 0 then Raise MamFailed
    else
      match lz77_huffman_decompress_py with
      | None => Raise MamNotSupported
      | Some decompress =>
          let! chunks := framed_chunks data in
          try_attempts decompress uncompressed_size [] (mam_attempts data chunks)
      end.

(** * Strings *)
Definition _read_prefetch_string_block (data : list Z) (offset size : option Z) : list str :=
  match offset, size with
  | Some offset, Some size =>
      if (offset =? 0) || (size =? 0) then []
      else if (offset <? 0) || (size <? 0) || (len data <? offset + size) then []
      else
        let text := utf16_ignore (slice offset (offset + size) data) in
        dedup (map (fun part => backslash (strip part)) (filter (fun part => strip part <> []) (split_on 0 text)))
  | _, _ => []
  end.

Fixpoint directory_strings (data : list Z) (cursor : Z) (count : nat) : parsed (list str) :=
  match count with
  | O => Ok []
  | S count =>
      if len data <? cursor + 2 then Ok []
      else
        let! length := of_option Truncated (u_le 2 data cursor) in
        let cursor := cursor + 2 in
        let byte_length := length * 2 in
        if len data <? cursor + byte_length then Ok []
        else
          let value := _decode_utf16le_z (slice cursor (cursor + byte_length) data) in
          let cursor := cursor + byte_length in
          let cursor := if cursor + 2 <=? len data then cursor + 2 else cursor in
          let! values := directory_strings data cursor count in
          Ok (match value with Some value => backslash value :: values | None => values end)
  end.
Definition _read_directory_strings (data : list Z) (base_offset : Z) (offset count : option Z) : parsed (list str) :=
  match offset, count with
  | Some offset, Some count =>
      if (offset =? 0) || (count =? 0) then Ok []
      else let! values := directory_strings data (base_offset + offset) (Z.to_nat count) in Ok (dedup values)
  | _, _ => Ok []
  end.

Definition rstrip_backslash (s : str) : str := rstrip (fun c => c =? code "\") s.
Definition find_first {A} (p : A -> bool) (l : list A) : option A := head (filter (fun x => p x = true) l).
Definition _derive_executable_path (executable_name : str) (referenced_files referenced_directories : list str) (volume_device_path : option str) : option str :=
  let normalized_name := py_lower executable_name in
  let named := negb (bool_decide (normalized_name = [])) in
  match find_first (fun candidate => named && endswith (lit "\" ++ normalized_name) (py_lower candidate)) referenced_files with
  | Some candidate => Some candidate
  | None =>
      match find_first (fun candidate => endswith (lit ".exe") (py_lower candidate) && (negb named || contains normalized_name (py_lower candidate)))
              referenced_files with
      | Some candidate => Some candidate
      | None =>
          match find_first (fun directory => named && (contains (lit ":\") directory || startswith (lit "\\") directory)) referenced_directories with
          | Some directory => Some (rstrip_backslash directory ++ lit "\" ++ executable_name)
          | None =>
              match volume_device_path, executable_name with
              | Some volume_device_path, _ :: _ => Some (rstrip_backslash volume_device_path ++ lit "\" ++ executable_name)
              | _, _ => None
              end
          end
      end
  end.

(** * Times *)
Definition timestamp_slots (version info_offset : Z) : list Z :=
  if version =? 17 then [info_offset + 36]
  else if version =? 23 then [info_offset + 44]
  else if (version =? 26) || (version =? 30) || (version =? 31) then map (fun index => info_offset + 44 + Z.of_nat index * 8) (seq 0 8)
  else [].
Definition run_count_offset (version info_offset : Z) : option Z :=
  if version =? 17 then Some (info_offset + 60)
  else if version =? 23 then Some (info_offset + 68)
  else if (version =? 26) || (version =? 30) || (version =? 31) then Some (info_offset + 116)
  else None.
Definition _infer_timestamp_fields (version info_offset : Z) (data : list Z) : option str * list str * option Z :=
  let last_runs := omap (fun slot => _filetime_to_iso (_safe_u64 data slot)) (timestamp_slots version info_offset) in
  let run_count := run_count_offset version info_offset ≫= _safe_u32 data in
  let ordered := sorted_strs (dedup last_runs) in
  (last ordered, ordered, run_count).

(** * The whole file *)
(** The dictionary [parsed]; a key that was not set reads as [None]. *)
Record prefetch := {
  Version : Z;
  Signature : str;
  FileSize : Z;
  ExecutableName : option str;
  PrefetchHash : option str;
  ReferencedFiles : list str;
  ReferencedDirectories : list str;
  VolumeDevicePath : option str;
  VolumeSerialNumber : option str;
  VolumeCreationTime : option str;
  VolumeLabel : option str;
  LastRun : option str;
  LastRuns : list str;
  RunCount : option Z;
  ExecutablePath : option str }.

(** What the loop over the volumes collects. *)
Record volumes := {
  all_directories : list str;
  volume_paths : list str;
  volume_serials : list str;
  volume_created_times : list str;
  volume_info_truncated : bool }.
Definition no_volumes : volumes := Build_volumes [] [] [] [] false.

Definition volume_device_path (data : list Z) (volumes_info_offset entry_offset : Z) : option str :=
  match _safe_u32 data entry_offset, _safe_u32 data (entry_offset + 4) with
  | Some device_path_offset, Some device_path_chars =>
      if device_path_chars =? 0 then None
      else
        let device_start := volumes_info_offset + device_path_offset in
        let device_end := device_start + device_path_chars * 2 in
        backslash <$> _decode_utf16le_z (slice device_start device_end data)
  | _, _ => None
  end.
Definition volume_serial (data : list Z) (entry_offset : Z) : option str := hexfill 8 <$> _safe_u32 data (entry_offset + 16).
Definition volume_created (data : list Z) (entry_offset : Z) : option str := _filetime_to_iso (_safe_u64 data (entry_offset + 8)).
Fixpoint read_volumes (data : list Z) (volumes_info_offset volume_entry_size entry_offset : Z) (count : nat) (acc : volumes) : parsed volumes :=
  match count with
  | O => Ok acc
  | S count =>
      if len data <? entry_offset + 36 then
        Ok (Build_volumes (all_directories acc) (volume_paths acc) (volume_serials acc) (volume_created_times acc) true)
      else
        let! directories := _read_directory_strings data volumes_info_offset (_safe_u32 data (entry_offset + 28)) (_safe_u32 data (entry_offset + 32)) in
        read_volumes data volumes_info_offset volume_entry_size (entry_offset + volume_entry_size) count
          {| all_directories := all_directories acc ++ directories;
             volume_paths := volume_paths acc ++ option_list (volume_device_path data volumes_info_offset entry_offset);
             volume_serials := volume_serials acc ++ option_list (volume_serial data entry_offset);
             volume_created_times := volume_created_times acc ++ option_list (volume_created data entry_offset);
             volume_info_truncated := false |}
  end.
Definition missing_volumes : bool * volumes := (true, no_volumes).
(** The volumes, and whether their place in the file is missing. *)
Definition volumes_of (data : list Z) (version info_offset : Z) : parsed (bool * volumes) :=
  match _safe_u32 data (info_offset + 24), _safe_u32 data (info_offset + 28) with
  | Some volumes_info_offset, Some volumes_count =>
      let! v := read_volumes data volumes_info_offset (_PREFETCH_ENTRY_SIZES version) volumes_info_offset (Z.to_nat volumes_count) no_volumes in
      Ok (false, v)
  | _, _ => Ok missing_volumes
  end.

Definition when (b : bool) (w : str) : list str := if b then [w] else [].
Definition info_offset : Z := 84.
(** After the header, for a version that is supported. *)
Definition parse_information (data : list Z) (header : prefetch) : parsed (prefetch * list str) :=
  let '(last_run, last_runs, run_count) := _infer_timestamp_fields (Version header) info_offset data in
  let referenced_files := _read_prefetch_string_block data (_safe_u32 data (info_offset + 16)) (_safe_u32 data (info_offset + 20)) in
  let! (missing, v) := volumes_of data (Version header) info_offset in
  let directories := dedup (map backslash (filter (fun directory => directory <> []) (all_directories v))) in
  let executable_path :=
    _clean_pathish (_derive_executable_path (default [] (ExecutableName header)) referenced_files directories (head (volume_paths v))) in
  let p := {|
    Version := Version header; Signature := Signature header; FileSize := FileSize header;
    ExecutableName := ExecutableName header; PrefetchHash := PrefetchHash header;
    ReferencedFiles := referenced_files; ReferencedDirectories := directories;
    VolumeDevicePath := head (volume_paths v); VolumeSerialNumber := head (volume_serials v);
    VolumeCreationTime := head (volume_created_times v); VolumeLabel := None;
    LastRun := last_run; LastRuns := last_runs; RunCount := run_count; ExecutablePath := executable_path |} in
  Ok (p,
      when missing (lit "missing_volume_info") ++
      when (volume_info_truncated v) (lit "volume_info_truncated") ++
      when (bool_decide (executable_path = None)) (lit "executable_path_unresolved") ++
      when (bool_decide (last_run = None) && bool_decide (last_runs = [])) (lit "missing_last_run_timestamp") ++
      when (default 0 run_count =? 0) (lit "missing_run_count")).
Definition parse_scca (data : list Z) (source_name : str) : parsed (prefetch * list str) :=
  if len data <? 84 then Raise TooSmall
  else
    let! version := _u32 data 0 in
    let signature := ascii_ignore (slice 4 8 data) in
    let! file_size := _u32 data 12 in
    let executable_name := _decode_utf16le_z (slice 16 76 data) in
    let '(executable_from_name, hash_from_name) :=
      _parse_prefetch_filename (match source_name with [] => default [] executable_name | _ => source_name end) in
    if negb (bool_decide (signature = lit "SCCA")) then Raise (InvalidSignature signature)
    else
      let header := {|
        Version := version; Signature := signature; FileSize := file_size;
        ExecutableName := match executable_name with Some _ => executable_name | None => executable_from_name end;
        PrefetchHash := hash_from_name; ReferencedFiles := []; ReferencedDirectories := [];
        VolumeDevicePath := None; VolumeSerialNumber := None; VolumeCreationTime := None; VolumeLabel := None;
        LastRun := None; LastRuns := []; RunCount := None; ExecutablePath := None |} in
      if negb (bool_decide (version ∈ SUPPORTED_PREFETCH_VERSIONS)) then Ok (header, [lit "unsupported_prefetch_version"])
      else parse_information data header.
Definition parse_prefetch_bytes (data : list Z) (source_name : str) : parsed (prefetch * list str) :=
  if bool_decide (_read_magic data = lit "MAM") then let! data := _decompress_mam_prefetch data in parse_scca data source_name
  else parse_scca data source_name.

(** * What a file that cannot be read is reported as *)
(** [repr] of a string and the text of a [struct.error]. *)
Variables (py_repr : str -> str) (struct_error_text : str).
Definition error_text (e : prefetch_error) : str :=
  match e with
  | MamFailed => lit "mam_decompression_failed"
  | MamNotSupported => lit "mam_decompression_not_supported"
  | TooSmall => lit "Prefetch file too small"
  | InvalidSignature signature => lit "Invalid Prefetch signature: " ++ py_repr signature
  | Truncated => struct_error_text
  end.
(** The warnings so far with the text of the exception that [parse] catches; [None]:
    the file was read. *)
Definition read_failure (data : list Z) (source_name : str) : option (list str * str) :=
  match parse_prefetch_bytes data source_name with
  | Ok (p, parser_warnings) =>
      if bool_decide (lit "unsupported_prefetch_version" ∈ parser_warnings)
      then Some (parser_warnings, lit "unsupported_prefetch_version:" ++ str_of_Z (Version p))
      else None
  | Raise e => Some ([], error_text e)
  | OutOfFuel => None
  end.
(** [reason_if_zero_records] and the warnings that are added. *)
Definition failure_reason (text : str) : str * list str :=
  if startswith (lit "unsupported_prefetch_version") text then (lit "unsupported_version", [lit "unsupported_prefetch_version"])
  else if bool_decide (text = lit "mam_decompression_not_supported") then
    (lit "mam_decompression_not_supported", [lit "mam_compressed_prefetch"; lit "mam_decompression_not_supported"])
  else if bool_decide (text = lit "mam_decompression_failed") then
    (lit "mam_decompression_not_supported", [lit "mam_compressed_prefetch"; lit "mam_decompression_not_supported"; lit "mam_decompression_failed"])
  else if contains (lit "Invalid Prefetch signature") text then (lit "invalid_signature", [lit "invalid_signature"])
  else if contains (lit "too small") (lower text) then (lit "parser_returned_empty", [lit "parser_returned_empty"])
  else (lit "exception", [lit "exception"]).
(** [parser_status] without events. *)
Definition failed_status (warnings : list str) : str :=
  if bool_decide (lit "unsupported_prefetch_version" ∈ warnings) then lit "failed_unsupported"
  else if bool_decide (lit "mam_decompression_not_supported" ∈ warnings) then lit "failed_unsupported"
  else if bool_decide (lit "mam_decompression_failed" ∈ warnings) then lit "failed_unsupported"
  else lit "failed".
Definition failure_report (data : list Z) (source_name : str) : option (str * str * list str) :=
  match read_failure data source_name with
  | None => None
  | Some (warnings, text) =>
      let '(reason, more) := failure_reason text in
      Some (reason, failed_status (warnings ++ more), warnings ++ more)
  end.
End decompressor.
End Prefetch.
