(* ===== verification/PrefetchRead.v ===== *)
(** Theorems about Prefetch files: what is refused and how, the times of the runs,
    what a file that was laid out says, compressed files, names. *)
From S2P Require Import Prelude PyBase PyText PyDates PurePaths Prefetch.
Import Bytes Str PyText PyDates PurePaths Prefetch.

Module PrefetchRead.

(** * Times *)
Lemma filetime_Some v t : _filetime_to_iso (Some v) = Some t <-> v <> 0 /\ isoformat filetime_epoch (v / 10) = Some t.
Proof. unfold _filetime_to_iso. destruct (Z.eqb_spec v 0); naive_solver. Qed.
Lemma filetime_before v v' t t' : 0 <= v -> 0 <= v' -> _filetime_to_iso (Some v) = Some t -> _filetime_to_iso (Some v') = Some t' ->
  before t t' -> v / 10 < v' / 10.
Proof.
  intros Hv Hv' [_ Ht]%filetime_Some [_ Ht']%filetime_Some Hb. destruct (Z.lt_trichotomy (v / 10) (v' / 10)) as [|[Heq|Hlt]]; [done| |].
  - rewrite Heq, Ht' in Ht. injection Ht as ->. unfold before in Hb. by rewrite str_lt_irrefl in Hb.
  - assert (Hb' : str_lt t' t = true) by (eapply (isoformat_lt filetime_epoch); [done|exact (Z.div_pos _ 10 Hv' eq_refl)|exact Hlt|done|done]).
    pose proof (str_lt_trans _ _ _ Hb Hb') as Hr. by rewrite str_lt_irrefl in Hr.
Qed.

Definition at_time (v : Z) (t : str) : Prop := _filetime_to_iso (Some v) = Some t.
Definition earlier (v v' : Z) : Prop := v / 10 < v' / 10.
Lemma texts_times (runs : list Z) texts : Forall (fun v => 0 <= v) runs -> StronglySorted before texts ->
  (forall t, t ∈ texts -> exists v, v ∈ runs /\ at_time v t) ->
  exists vs, Forall2 at_time vs texts /\ StronglySorted earlier vs /\ vs ⊆ runs.
Proof.
  intros Hruns Hs. rewrite Forall_forall in Hruns. induction Hs as [|t texts Hs IH Ht]; intros Hin; [exists []; split; [|split]; [constructor..|set_solver]|].
  destruct (Hin t ltac:(by left)) as (v & Hv & Hvt). destruct IH as (vs & Hvs & Hsorted & Hsub); [intros; apply Hin; by right|].
  exists (v :: vs). split; [by constructor|]. split; [|set_solver]. constructor; [done|]. apply Forall_forall. intros v' Hv'.
  apply list_elem_of_lookup in Hv' as [i Hi]. destruct (Forall2_lookup_l _ _ _ _ _ Hvs Hi) as (t' & Hi' & Ht').
  rewrite Forall_forall in Ht. apply (filetime_before v v' t t'); [by apply Hruns| |done..|].
  - apply Hruns, Hsub. by eapply list_elem_of_lookup_2.
  - apply Ht. by eapply list_elem_of_lookup_2.
Qed.

(** The times a file records that can be written as a date. *)
Definition recorded_runs (version : Z) (data : list Z) : list Z :=
  filter (fun v => is_Some (_filetime_to_iso (Some v))) (omap (_safe_u64 data) (timestamp_slots version info_offset)).

Lemma slots_wf data version o : wf data -> Forall (fun v => 0 <= v) (omap (_safe_u64 data) (timestamp_slots version o)).
Proof.
  intros Hwf. apply Forall_forall. intros v (slot & _ & Hv)%list_elem_of_omap. unfold _safe_u64 in Hv. case_match; [done|].
  by apply (u_le_bound 8 data slot v).
Qed.
Lemma last_run_texts version data o :
  let runs := filter (fun v => is_Some (_filetime_to_iso (Some v))) (omap (_safe_u64 data) (timestamp_slots version o)) in
  forall t, t ∈ omap (fun slot => _filetime_to_iso (_safe_u64 data slot)) (timestamp_slots version o) <-> exists v, v ∈ runs /\ at_time v t.
Proof.
  intros runs t. unfold runs, at_time. rewrite list_elem_of_omap. setoid_rewrite list_elem_of_filter. setoid_rewrite list_elem_of_omap. split.
  - intros (slot & Hs & Ht). destruct (_safe_u64 data slot) as [v|] eqn:E; [|done]. exists v. eauto 8.
  - intros (v & [_ (slot & Hs & Hv)] & Ht). exists slot. by rewrite Hv.
Qed.
Lemma timestamp_fields version o data last_run last_runs run_count : wf data ->
  _infer_timestamp_fields version o data = (last_run, last_runs, run_count) ->
  let runs := filter (fun v => is_Some (_filetime_to_iso (Some v))) (omap (_safe_u64 data) (timestamp_slots version o)) in
  last_run = last last_runs /\ exists vs, Forall2 at_time vs last_runs /\ StronglySorted earlier vs /\ vs ⊆ runs /\
    forall v, v ∈ runs -> exists v', v' ∈ vs /\ v' / 10 = v / 10.
Proof.
  intros Hwf Heq runs. unfold _infer_timestamp_fields in Heq. injection Heq as <- <- _. split; [done|]. set (texts := omap _ _).
  assert (Hruns : Forall (fun v => 0 <= v) runs) by (apply Forall_forall; intros v [_ Hv]%list_elem_of_filter; pose proof (slots_wf data version o Hwf) as Hs; rewrite Forall_forall in Hs; by apply Hs).
  assert (Htexts : forall t, t ∈ sorted_strs (dedup texts) <-> exists v, v ∈ runs /\ at_time v t).
  { intros t. rewrite sorted_strs_perm, dedup_elem. apply last_run_texts. }
  destruct (texts_times runs (sorted_strs (dedup texts)) Hruns (sorted_strs_sorted _ (dedup_nodup _)) (fun t => proj1 (Htexts t))) as (vs & Hvs & Hsorted & Hsub).
  exists vs. split; [done|]. split; [done|]. split; [done|]. intros v Hv.
  assert (is_Some (_filetime_to_iso (Some v))) as [t Ht] by (by apply list_elem_of_filter in Hv as [? _]).
  assert (Hin : t ∈ sorted_strs (dedup texts)) by (apply Htexts; by exists v). apply list_elem_of_lookup in Hin as [i Hi].
  destruct (Forall2_lookup_r _ _ _ _ _ Hvs Hi) as (v' & Hi' & Ht'). exists v'. split; [by eapply list_elem_of_lookup_2|].
  rewrite Forall_forall in Hruns. assert (Hv' : v' ∈ runs) by (apply Hsub; by eapply list_elem_of_lookup_2).
  apply filetime_Some in Ht as [_ Ht], Ht' as [_ Ht'].
  destruct (Z.lt_trichotomy (v' / 10) (v / 10)) as [Hlt|[|Hlt]]; [|done|];
    (assert (Hbad : str_lt t t = true) by (eapply (isoformat_lt filetime_epoch); [done| |exact Hlt|done|done]; apply Z.div_pos; [by apply Hruns|done]));
    by rewrite str_lt_irrefl in Hbad.
Qed.

(** * Every file is read or refused *)
Lemma safe_u32_nonneg data o v : wf data -> _safe_u32 data o = Some v -> 0 <= v.
Proof. unfold _safe_u32. intros Hwf. case_match; [done|]. intros Hv. by apply (u_le_bound 4 data o v). Qed.
Lemma directory_strings_total data cursor count : wf data -> 0 <= cursor -> exists l : list str, directory_strings data cursor count = Ok l.
Proof.
  intros Hwf. revert cursor. induction count as [|count IH]; intros cursor Hc; cbn [directory_strings]; [by eexists|].
  destruct (Z.ltb_spec (len data) (cursor + 2)); [by eexists|]. destruct (u_le_Some 2 data cursor) as [n Hn]; [done|lia|]. rewrite Hn. cbn [of_option mbind result_bind].
  pose proof (u_le_bound 2 data cursor n Hwf Hn) as [Hn0 _].
  destruct (_ <? _) eqn:E; [by eexists|]. cbn zeta. match goal with |- context [directory_strings data ?next count] => destruct (IH next) as [l ->] end;
    [case_match; lia|]. cbn. by eexists.
Qed.
Lemma read_directory_strings_total data base o c : wf data -> 0 <= base -> (forall v, o = Some v -> 0 <= v) ->
  exists l : list str, _read_directory_strings data base o c = Ok l.
Proof.
  intros Hwf Hb Ho. unfold _read_directory_strings. destruct o as [o|]; [|by eexists]. destruct c as [c|]; [|by eexists].
  destruct (_ || _); [by eexists|]. destruct (directory_strings_total data (base + o) (Z.to_nat c)) as [l ->]; [done|specialize (Ho o eq_refl); lia|].
  cbn. by eexists.
Qed.
Lemma read_volumes_total data vo size entry count acc : wf data -> 0 <= vo -> 0 <= entry -> 0 <= size ->
  exists v : volumes, read_volumes data vo size entry count acc = Ok v.
Proof.
  intros Hwf Hvo He Hs. revert entry acc He. induction count as [|count IH]; intros entry acc He; cbn [read_volumes]; [by eexists|].
  destruct (_ <? _); [by eexists|].
  destruct (read_directory_strings_total data vo (_safe_u32 data (entry + 28)) (_safe_u32 data (entry + 32))) as [l ->];
    [done|done|intros v; by apply safe_u32_nonneg|]. cbn [mbind result_bind]. apply IH. lia.
Qed.
Lemma volumes_total data version : wf data -> exists v : bool * volumes, volumes_of data version info_offset = Ok v.
Proof.
  intros Hwf. unfold volumes_of. destruct (_safe_u32 data _) as [vo|] eqn:Evo; [|by eexists]. destruct (_safe_u32 data (_ + 28)) as [c|]; [|by eexists].
  apply safe_u32_nonneg in Evo; [|done]. destruct (read_volumes_total data vo (_PREFETCH_ENTRY_SIZES version) vo (Z.to_nat c) no_volumes) as [v ->]; [done..| |].
  - unfold _PREFETCH_ENTRY_SIZES. by destruct (_ =? _).
  - cbn. by eexists.
Qed.

(** What is kept of the header. *)
Definition keeps_header (header p : prefetch) : Prop :=
  Version p = Version header /\ Signature p = Signature header /\ FileSize p = FileSize header /\
  ExecutableName p = ExecutableName header /\ PrefetchHash p = PrefetchHash header.
Section lower.
Variable py_lower : str -> str.

Lemma parse_information_Ok data header : wf data ->
  exists (p : prefetch) (w : list str), parse_information py_lower data header = Ok (p, w) /\ keeps_header header p /\
    _infer_timestamp_fields (Version header) info_offset data = (LastRun p, LastRuns p, RunCount p) /\
    ReferencedFiles p = _read_prefetch_string_block data (_safe_u32 data (info_offset + 16)) (_safe_u32 data (info_offset + 20)).
Proof.
  intros Hwf. unfold parse_information. destruct (_infer_timestamp_fields _ _ _) as [[last_run last_runs] run_count].
  destruct (volumes_total data (Version header) Hwf) as [[missing v] ->]. cbn [mbind result_bind]. do 2 eexists. split; [reflexivity|]. by repeat split.
Qed.

Definition information_warnings : list str :=
  [lit "missing_volume_info"; lit "volume_info_truncated"; lit "executable_path_unresolved"; lit "missing_last_run_timestamp"; lit "missing_run_count"].
Lemma when_among b (w : str) ws : w ∈ ws -> when b w ⊆ ws.
Proof. intros Hw x. unfold when. destruct b; [by intros ->%list_elem_of_singleton|by intros ?%elem_of_nil]. Qed.
Lemma parse_information_warnings data header p w : parse_information py_lower data header = Ok (p, w) -> w ⊆ information_warnings.
Proof.
  unfold parse_information. destruct (_infer_timestamp_fields _ _ _) as [[last_run last_runs] run_count].
  destruct (volumes_of _ _ _) as [[missing v]| |]; [|done..]. cbn [mbind result_bind]. intros Heq. injection Heq as _ <-. rewrite !list_subseteq_app_iff_l.
  repeat split; apply when_among; unfold information_warnings; set_solver.
Qed.

(** The outcome of reading a file that is not compressed. *)
Lemma parse_scca_outcome data name : wf data ->
  match parse_scca py_lower data name with
  | Ok (p, w) =>
      84 <= len data /\ ascii_ignore (slice 4 8 data) = lit "SCCA" /\ Signature p = lit "SCCA" /\ u_le 4 data 0 = Some (Version p) /\
      (Version p ∈ SUPPORTED_PREFETCH_VERSIONS /\
         w ⊆ information_warnings /\ (exists header, parse_information py_lower data header = Ok (p, w) /\ Version header = Version p) \/
       Version p ∉ SUPPORTED_PREFETCH_VERSIONS /\ w = [lit "unsupported_prefetch_version"])
  | Raise e =>
      e = TooSmall /\ len data < 84 \/
      e = InvalidSignature (ascii_ignore (slice 4 8 data)) /\ 84 <= len data /\ ascii_ignore (slice 4 8 data) <> lit "SCCA"
  | OutOfFuel => False
  end.
Proof.
  intros Hwf. unfold parse_scca. destruct (Z.ltb_spec (len data) 84) as [Hl|Hl]; [by left|].
  unfold _u32. destruct (u_le_Some 4 data 0) as [version Hv]; [done|lia|]. destruct (u_le_Some 4 data 12) as [file_size Hf]; [done|lia|].
  rewrite Hv, Hf. cbn [of_option mbind result_bind]. destruct (_parse_prefetch_filename _) as [exe hash].
  case_bool_decide as Hsig; cbn [negb]; [|by right]. case_bool_decide as Hver; cbn [negb].
  - set (header := Build_prefetch _ _ _ _ _ _ _ _ _ _ _ _ _ _ _).
    destruct (parse_information_Ok data header Hwf) as (p & w & Hp & (Hpv & Hps & _) & _). rewrite Hp.
    split; [done|]. split; [done|]. split; [by rewrite Hps|]. rewrite Hpv. split; [done|]. left. split; [done|].
    split; [by eapply parse_information_warnings|by exists header].
  - split; [done|]. split; [done|]. split; [done|]. split; [done|]. by right.
Qed.
End lower.

(** * Compressed files *)
Lemma framed_chunks_total data : outcome (fun _ => True) (fun _ => False) (framed_chunks data).
Proof.
  apply (while_total (fun s => 12 <= fst s) (fun s => Z.to_nat (len data - fst s))); [|done|unfold len; cbn [fst]; lia].
  intros [cursor chunks] Hc. cbn [fst] in Hc. cbn [framed_step]. destruct (Z.ltb_spec cursor (len data)); [|done].
  destruct (Z.ltb_spec (len data) (cursor + 4)); [done|]. unfold _u32. destruct (u_le_Some 4 data cursor) as [n ->]; [lia..|].
  cbn [of_option mbind result_bind]. destruct (Z.leb_spec n 0); [done|]. destruct (_ <? _); [done|]. cbn. split; lia.
Qed.
Lemma try_attempts_outcome decompress size seen attempts :
  outcome (fun d => _read_magic d = lit "SCCA" /\ exists c, c ∈ attempts /\ decompress c size = Some d) (eq MamFailed)
    (try_attempts decompress size seen attempts).
Proof.
  revert seen. induction attempts as [|c attempts IH]; intros seen; cbn [try_attempts]; [done|].
  assert (Hmono : forall m : parsed (list Z), outcome (fun d => _read_magic d = lit "SCCA" /\ exists c, c ∈ attempts /\ decompress c size = Some d) (eq MamFailed) m ->
    outcome (fun d => _read_magic d = lit "SCCA" /\ exists c', c' ∈ c :: attempts /\ decompress c' size = Some d) (eq MamFailed) m).
  { intros m. apply outcome_mono; [|done]. intros d (Hd & c' & Hin & Hc'). split; [done|]. exists c'. split; [by right|done]. }
  destruct (_ || _); [apply Hmono, IH|]. destruct (decompress c size) as [d|] eqn:Ed; [|apply Hmono, IH].
  case_bool_decide; [|apply Hmono, IH]. cbn. split; [done|]. exists c. split; [by left|done].
Qed.
(** What the decompressor returns are bytes. *)
Definition gives_bytes (decompressor : option (list Z -> Z -> option (list Z))) : Prop :=
  forall decompress c size d, decompressor = Some decompress -> decompress c size = Some d -> wf d.
Lemma decompress_outcome decompressor data : gives_bytes decompressor ->
  outcome (fun d => wf d /\ _read_magic d = lit "SCCA") (fun e => e = MamFailed \/ e = MamNotSupported /\ decompressor = None)
    (_decompress_mam_prefetch decompressor data).
Proof.
  intros Hb. unfold _decompress_mam_prefetch. destruct (Z.ltb_spec (len data) 12); [by left|]. cbn [orb].
  destruct (negb _); [by left|]. unfold _u32. destruct (u_le_Some 4 data 4) as [n ->]; [lia..|]. cbn [of_option mbind result_bind].
  destruct (n <=? 0); [by left|]. destruct decompressor as [decompress|]; [|by right].
  pose proof (framed_chunks_total data) as Ht. destruct (framed_chunks data) as [chunks| |]; [|done..]. cbn [mbind result_bind].
  eapply outcome_mono; [| |apply try_attempts_outcome]; [|intros e <-; by left].
  intros d (Hd & c & _ & Hc). split; [|done]. by apply (Hb decompress c n d).
Qed.
Lemma read_magic_scca d : _read_magic d = lit "SCCA" -> ascii_ignore (slice 4 8 d) = lit "SCCA".
Proof. unfold _read_magic. case_bool_decide; [done|]. by destruct (_ <=? _). Qed.

(** Every outcome with its cause. *)
Lemma prefetch_cases decompressor py_lower data name : wf data -> gives_bytes decompressor ->
  match parse_prefetch_bytes decompressor py_lower data name with
  | Ok (p, w) =>
      Signature p = lit "SCCA" /\
      (Version p ∈ SUPPORTED_PREFETCH_VERSIONS /\ w ⊆ information_warnings \/
       Version p ∉ SUPPORTED_PREFETCH_VERSIONS /\ w = [lit "unsupported_prefetch_version"])
  | Raise e =>
      if bool_decide (_read_magic data = lit "MAM") then e = MamFailed \/ e = MamNotSupported /\ decompressor = None \/ e = TooSmall
      else e = TooSmall /\ len data < 84 \/
           e = InvalidSignature (ascii_ignore (slice 4 8 data)) /\ 84 <= len data /\ ascii_ignore (slice 4 8 data) <> lit "SCCA"
  | OutOfFuel => False
  end.
Proof.
  intros Hwf Hb. unfold parse_prefetch_bytes. case_bool_decide as Hm.
  - pose proof (decompress_outcome decompressor data Hb) as Hd.
    destruct (_decompress_mam_prefetch decompressor data) as [d|e|]; cbn [mbind result_bind outcome] in *; [|intuition|done].
    destruct Hd as [Hd Hmagic]. pose proof (parse_scca_outcome py_lower d name Hd) as Hp.
    destruct (parse_scca py_lower d name) as [[p w]|e|]; [naive_solver| |done].
    destruct Hp as [[-> _]|(_ & _ & Hbad)]; [auto|]. destruct Hbad. by apply read_magic_scca.
  - pose proof (parse_scca_outcome py_lower data name Hwf) as Hp. destruct (parse_scca py_lower data name) as [[p w]|e|]; [naive_solver|done|done].
Qed.
Lemma unsupported_not_information : lit "unsupported_prefetch_version" ∉ information_warnings.
Proof. apply (bool_decide_eq_false_1 (_ ∈ _)). vm_compute. reflexivity. Qed.

(** Reading a Prefetch file always ends, in what the file says or in one of the
    errors that are reported: a file that is not compressed is refused exactly when it is shorter
    than its header or its signature is not SCCA; one that is compressed, when it cannot
    be decompressed to a file with the signature, or that file is too short. *)
Lemma prefetch_outcomes decompressor py_lower data name : wf data -> gives_bytes decompressor ->
  outcome (fun '(p, w) => Signature p = lit "SCCA") (fun e => e <> Truncated) (parse_prefetch_bytes decompressor py_lower data name) /\
  (_read_magic data <> lit "MAM" ->
     (parse_prefetch_bytes decompressor py_lower data name = Raise TooSmall <-> len data < 84) /\
     (forall s, parse_prefetch_bytes decompressor py_lower data name = Raise (InvalidSignature s) <->
        84 <= len data /\ s = ascii_ignore (slice 4 8 data) /\ s <> lit "SCCA") /\
     (is_ok (parse_prefetch_bytes decompressor py_lower data name) = true <-> 84 <= len data /\ ascii_ignore (slice 4 8 data) = lit "SCCA")).
Proof.
  intros Hwf Hb. split.
  - pose proof (prefetch_cases decompressor py_lower data name Hwf Hb) as Hc.
    destruct (parse_prefetch_bytes decompressor py_lower data name) as [[p w]|e|]; [by destruct Hc| |done]. cbn. case_bool_decide; naive_solver.
  - intros Hm. unfold parse_prefetch_bytes. rewrite (bool_decide_eq_false_2 _ Hm). pose proof (parse_scca_outcome py_lower data name Hwf) as Hp.
    destruct (parse_scca py_lower data name) as [[p w]|e|]; [|destruct Hp as [[-> ?]|(-> & ? & ?)]|done]; cbn; repeat split; intros; naive_solver lia.
Qed.

(** The bytes that are read: those of the file, or what it was compressed from. *)
Definition payload decompressor (data payload : list Z) : Prop :=
  if bool_decide (_read_magic data = lit "MAM") then _decompress_mam_prefetch decompressor data = Ok payload else payload = data.
Lemma parse_payload decompressor py_lower data name p w : wf data -> gives_bytes decompressor ->
  parse_prefetch_bytes decompressor py_lower data name = Ok (p, w) ->
  exists d, payload decompressor data d /\ wf d /\ parse_scca py_lower d name = Ok (p, w).
Proof.
  unfold parse_prefetch_bytes, payload. intros Hwf Hb. case_bool_decide; [|by exists data].
  intros (d & Hd & Hp)%bind_Ok. exists d. split; [done|]. split; [|done]. by apply (outcome_Ok _ _ _ _ (decompress_outcome decompressor data Hb)) in Hd as [? _].
Qed.

(** C28. The runs that are reported are the recorded times that are not empty, each once, in
    the order of time although they are sorted as texts; the last run is the latest. *)
Theorem prefetch_last_run decompressor py_lower data name p w : wf data -> gives_bytes decompressor ->
  parse_prefetch_bytes decompressor py_lower data name = Ok (p, w) -> Version p ∈ SUPPORTED_PREFETCH_VERSIONS ->
  LastRun p = last (LastRuns p) /\
  exists d times, payload decompressor data d /\
    Forall2 at_time times (LastRuns p) /\ StronglySorted earlier times /\ times ⊆ recorded_runs (Version p) d /\
    forall v, v ∈ recorded_runs (Version p) d -> exists v', v' ∈ times /\ v' / 10 = v / 10.
Proof.
  intros Hwf Hb Hp Hver. apply parse_payload in Hp as (d & Hd & Hwfd & Hp); [|done..].
  pose proof (parse_scca_outcome py_lower d name Hwfd) as Ho. rewrite Hp in Ho.
  destruct Ho as (_ & _ & _ & _ & [(_ & _ & header & Hi & Hv)|[Hv _]]); [|done].
  destruct (parse_information_Ok py_lower d header Hwfd) as (p' & w' & Hi' & _ & Ht & _). rewrite Hi' in Hi. injection Hi as -> ->.
  rewrite Hv in Ht. destruct (timestamp_fields (Version p) info_offset d _ _ _ Hwfd Ht) as (Hl & times & Htimes). split; [done|].
  exists d, times. split; [done|]. exact Htimes.
Qed.

(** * Failures *)
(** The reason and status of each cause. *)
Inductive reported : prefetch_error + Z -> str -> str -> Prop :=
  | reported_small : reported (inl TooSmall) (lit "parser_returned_empty") (lit "failed")
  | reported_signature s : reported (inl (InvalidSignature s)) (lit "invalid_signature") (lit "failed")
  | reported_mam : reported (inl MamFailed) (lit "mam_decompression_not_supported") (lit "failed_unsupported")
  | reported_no_mam : reported (inl MamNotSupported) (lit "mam_decompression_not_supported") (lit "failed_unsupported")
  | reported_version v : reported (inr v) (lit "unsupported_version") (lit "failed_unsupported").

Lemma signature_reason py_repr struct_error_text s :
  failure_reason (error_text py_repr struct_error_text (InvalidSignature s)) = (lit "invalid_signature", [lit "invalid_signature"]).
Proof.
  unfold error_text, failure_reason. set (text := lit "Invalid Prefetch signature: " ++ py_repr s).
  assert (Hstart : startswith (lit "Invalid Prefetch signature") text = true) by reflexivity.
  destruct (startswith (lit "unsupported_prefetch_version") text) eqn:E; [by vm_compute in E|].
  rewrite !bool_decide_eq_false_2 by (intros Ht; rewrite Ht in Hstart; by vm_compute in Hstart).
  assert (Hc : contains (lit "Invalid Prefetch signature") text = true) by (apply contains_spec; by exists [], (58 :: 32 :: py_repr s)).
  by rewrite Hc.
Qed.
Lemma version_reason v :
  failure_reason (lit "unsupported_prefetch_version:" ++ str_of_Z v) = (lit "unsupported_version", [lit "unsupported_prefetch_version"]).
Proof. reflexivity. Qed.

(** A file that cannot be read is never reported as an unknown exception: each cause
    has its reason and status, and a file that was read is not reported. *)
Lemma prefetch_failures_reported decompressor py_lower py_repr struct_error_text data name : wf data -> gives_bytes decompressor ->
  match parse_prefetch_bytes decompressor py_lower data name, failure_report decompressor py_lower py_repr struct_error_text data name with
  | Ok (p, _), None => Version p ∈ SUPPORTED_PREFETCH_VERSIONS
  | Ok (p, _), Some (reason, status, _) => Version p ∉ SUPPORTED_PREFETCH_VERSIONS /\ reported (inr (Version p)) reason status
  | Raise e, Some (reason, status, _) => reported (inl e) reason status
  | _, _ => False
  end.
Proof.
  intros Hwf Hb. pose proof (prefetch_cases decompressor py_lower data name Hwf Hb) as Ho. unfold failure_report, read_failure.
  destruct (parse_prefetch_bytes decompressor py_lower data name) as [[p w]|e|]; [| |done].
  - destruct Ho as [_ [[Hv Hw]|[Hv ->]]].
    + rewrite bool_decide_eq_false_2; [done|]. intros Hin%Hw. by apply unsupported_not_information.
    + rewrite bool_decide_eq_true_2 by (by left). rewrite version_reason. split; [done|]. constructor.
  - assert (He : e = TooSmall \/ e = MamFailed \/ e = MamNotSupported \/ exists s, e = InvalidSignature s) by (case_bool_decide; naive_solver).
    destruct He as [->|[->|[->|[s ->]]]]; [vm_compute; constructor..|]. rewrite signature_reason. constructor.
Qed.

(** * The work is bounded by the file *)
Lemma directory_strings_enough data cursor n m : wf data ->
  0 <= cursor -> len data < cursor + 2 * Z.of_nat n + 2 -> len data < cursor + 2 * Z.of_nat m + 2 ->
  directory_strings data cursor n = directory_strings data cursor m.
Proof.
  intros Hwf. revert cursor m. induction n as [|n IH]; intros cursor [|m] Hc Hn Hm; [done|..]; cbn [directory_strings].
  - destruct (Z.ltb_spec (len data) (cursor + 2)); [done|lia].
  - destruct (Z.ltb_spec (len data) (cursor + 2)); [done|lia].
  - destruct (_ <? _); [done|]. destruct (u_le 2 data cursor) as [v|] eqn:Ev; [|done]. cbn [of_option mbind result_bind].
    apply u_le_bound in Ev as [Hv _]; [|done]. destruct (_ <? _); [done|]. cbn zeta.
    match goal with |- context [directory_strings data ?next n] => rewrite (IH next m); [done|..] end; case_match; lia.
Qed.
Lemma read_volumes_enough data vo size entry n m acc : 0 < size ->
  len data < entry + (Z.of_nat n - 1) * size + 36 -> len data < entry + (Z.of_nat m - 1) * size + 36 -> (0 < n)%nat -> (0 < m)%nat ->
  read_volumes data vo size entry n acc = read_volumes data vo size entry m acc.
Proof.
  intros Hs. revert entry m acc. induction n as [|n IH]; intros entry [|m] acc Hn Hm Hn0 Hm0; [lia..|]. cbn [read_volumes].
  destruct (Z.ltb_spec (len data) (entry + 36)); [done|].
  destruct (_read_directory_strings _ _ _ _) as [l| |]; [|done..]. cbn [mbind result_bind]. apply IH; nia.
Qed.

(** However many directories or volumes a file claims to have, no more are looked for
    than it has room for. *)
Lemma prefetch_counts_capped data vo offset count size : wf data -> 0 <= vo -> 0 <= offset -> 0 <= count -> 0 < size ->
  _read_directory_strings data vo (Some offset) (Some count) =
    _read_directory_strings data vo (Some offset) (Some (Z.min count (len data / 2 + 1))) /\
  read_volumes data vo size vo (Z.to_nat count) no_volumes =
    read_volumes data vo size vo (Z.to_nat (Z.min count (len data / size + 2))) no_volumes.
Proof.
  intros Hwf Hvo Ho Hc Hs. assert (Hl : 0 <= len data) by (unfold len; lia). pose proof (Z.div_pos (len data) 2 Hl eq_refl).
  pose proof (Z.div_pos (len data) size Hl Hs). split.
  - unfold _read_directory_strings. destruct (Z.eqb_spec offset 0); [done|]. cbn [orb]. destruct (Z.eqb_spec count 0) as [->|Hc0].
    { rewrite Z.min_l by lia. done. }
    destruct (Z.eqb_spec (Z.min count (len data / 2 + 1)) 0); [lia|]. destruct (Z.le_ge_cases count (len data / 2 + 1)); [by rewrite Z.min_l|].
    rewrite Z.min_r by done. rewrite (directory_strings_enough data (vo + offset) (Z.to_nat count) (Z.to_nat (len data / 2 + 1))); [done..|lia| |];
      Z.div_mod_to_equations; lia.
  - destruct (Z.le_ge_cases count (len data / size + 2)); [by rewrite Z.min_l|]. rewrite Z.min_r by done.
    assert (Hd : len data < (len data / size + 1) * size) by (pose proof (Z.div_mod (len data) size); pose proof (Z.mod_pos_bound (len data) size Hs); nia).
    apply read_volumes_enough; [done|nia|nia|lia|lia].
Qed.
End PrefetchRead.
