(* ===== verification/PrefetchLayout.v ===== *)
(** A Prefetch file that was laid out, in whatever order of its parts, is read
    back; a compressed file is read as what was compressed; the name of a file. *)
From S2P Require Import Prelude PyBase PyText PyDates Decimals PurePaths Prefetch PrefetchRead.
Import Bytes Str PyText PyDates Decimals PurePaths Prefetch PrefetchRead.

Module PrefetchLayout.

(** * Parts of a file *)
Definition part (data : list Z) (off : Z) (bytes : list Z) : Prop := exists before after, data = before ++ bytes ++ after /\ len before = off.
Definition field (n : nat) (data : list Z) (off v : Z) : Prop := 0 <= off /\ off + Z.of_nat n <= len data /\ u_le n data off = Some v.

Lemma part_slice data off bytes : part data off bytes -> slice off (off + len bytes) data = bytes.
Proof. intros (a & b & -> & <-). by apply slice_app. Qed.
Lemma part_end data off bytes : part data off bytes -> 0 <= off /\ off + len bytes <= len data.
Proof. intros (a & b & -> & <-). unfold len. rewrite !length_app. lia. Qed.
Lemma part_intro data off bytes : 0 <= off -> off + len bytes <= len data -> slice off (off + len bytes) data = bytes -> part data off bytes.
Proof.
  intros H0 Hl Hs. exists (take (Z.to_nat off) data), (drop (Z.to_nat off + length bytes) data). split.
  - rewrite <- Hs at 1. unfold slice. replace (Z.to_nat (off + len bytes - off)) with (length bytes) by (unfold len; lia).
    by rewrite <- drop_drop, take_drop, take_drop.
  - unfold len in *. rewrite length_take. lia.
Qed.
Lemma field_safe_u32 data off v : field 4 data off v -> _safe_u32 data off = Some v.
Proof. intros (H0 & H1 & Hu). unfold _safe_u32. destruct (Z.ltb_spec off 0); [lia|]. destruct (Z.ltb_spec (len data) (off + 4)); [lia|done]. Qed.
Lemma field_safe_u64 data off v : field 8 data off v -> _safe_u64 data off = Some v.
Proof. intros (H0 & H1 & Hu). unfold _safe_u64. destruct (Z.ltb_spec off 0); [lia|]. destruct (Z.ltb_spec (len data) (off + 8)); [lia|done]. Qed.

(** * Strings *)
Definition plain (s : str) : Prop := Forall is_char s /\ 0 ∉ s /\ code "/" ∉ s /\ s <> [] /\ strip s = s.
#[export] Instance plain_dec s : Decision (plain s).
Proof. unfold plain, is_char. apply _. Defined.
Lemma backslash_id s : code "/" ∉ s -> backslash s = s.
Proof.
  unfold backslash, replace_char. induction s as [|c s IH]; [done|]. intros [Hc Hs]%not_elem_of_cons. cbn [map].
  destruct (Z.eqb_spec c (code "/")); [congruence|]. by rewrite IH.
Qed.
Lemma split_on_none c s : c ∉ s -> split_on c s = [s].
Proof.
  induction s as [|d s IH]; [done|]. intros [Hc Hs]%not_elem_of_cons. cbn [split_on]. destruct (Z.eqb_spec d c); [congruence|]. by rewrite IH.
Qed.
Lemma utf16_encode_cons_ne s : s <> [] -> exists b d, utf16_encode s = b :: d.
Proof. destruct s as [|c s]; [done|]. intros _. rewrite utf16_encode_cons. unfold utf16_units. destruct (c <? 65536); cbn; eauto. Qed.
(** A string alone, or ended by a zero character. *)
Lemma decode_plain s tail : plain s -> (tail = [] \/ exists junk, tail = 0 :: 0 :: junk) -> _decode_utf16le_z (utf16_encode s ++ tail) = Some s.
Proof.
  intros (Hc & H0 & _ & Hne & Hs) Htail. destruct (utf16_encode_cons_ne s Hne) as (b & d & Hd).
  unfold _decode_utf16le_z. rewrite Hd. cbn [app]. change (b :: d ++ tail) with ((b :: d) ++ tail). rewrite <- Hd, utf16_decode_encode by done.
  assert (Hh : default [] (head (split_on 0 (s ++ utf16_ignore tail))) = s).
  { destruct Htail as [->|(junk & ->)]; [by rewrite app_nil_r, split_on_none|].
    change (utf16_ignore (0 :: 0 :: junk)) with (0 :: utf16_ignore junk). by rewrite split_on_cut. }
  rewrite Hh, Hs. by destruct s.
Qed.

Lemma decode_plain_alone s : plain s -> _decode_utf16le_z (utf16_encode s) = Some s.
Proof. intros Hs. rewrite <- (app_nil_r (utf16_encode s)). apply decode_plain; auto. Qed.

(** * The block of file names *)
Definition string_block (files : list str) : list Z := utf16_encode (concat (map (fun f => f ++ [0]) files)).
Lemma split_names files : Forall (fun f => 0 ∉ f) files -> split_on 0 (concat (map (fun f => f ++ [0]) files)) = files ++ [[]].
Proof. induction 1 as [|f files Hf _ IH]; [done|]. cbn [map concat]. rewrite <- app_assoc. cbn [app]. by rewrite split_on_cut, IH. Qed.
Lemma block_parts files : Forall plain files ->
  map (fun part => backslash (strip part)) (filter (fun part => strip part <> []) (files ++ [[]])) = files.
Proof.
  induction 1 as [|f files (_ & _ & Hb & Hne & Hs) _ IH]; [done|]. cbn [app]. rewrite filter_cons_True by (by rewrite Hs). cbn [map].
  by rewrite IH, Hs, backslash_id.
Qed.
Lemma block_chars files : Forall plain files -> Forall is_char (concat (map (fun f => f ++ [0]) files)).
Proof.
  induction 1 as [|f files (Hc & _) _ IH]; [constructor|]. cbn [map concat]. apply Forall_app. split; [|done]. apply Forall_app. split; [done|].
  repeat constructor. lia.
Qed.
Lemma string_block_read data so files : Forall plain files -> 0 < so -> part data so (string_block files) ->
  _read_prefetch_string_block data (Some so) (Some (len (string_block files))) = dedup files.
Proof.
  intros Hf Hso Hp. unfold _read_prefetch_string_block. destruct (Z.eqb_spec so 0); [lia|]. cbn [orb].
  pose proof (part_end _ _ _ Hp) as [_ Hend].
  destruct (Z.eqb_spec (len (string_block files)) 0) as [He|He].
  { destruct files as [|f files]; [done|]. exfalso. unfold string_block in He. cbn [map concat] in He. rewrite <- app_assoc, utf16_encode_app in He.
    apply Forall_cons in Hf as [(_ & _ & _ & Hne & _) _]. destruct (utf16_encode_cons_ne f Hne) as (b & d & Hd). rewrite Hd in He. by unfold len in He. }
  destruct (Z.ltb_spec so 0); [lia|]. destruct (Z.ltb_spec (len (string_block files)) 0); [unfold len in *; lia|].
  destruct (Z.ltb_spec (len data) (so + len (string_block files))); [lia|]. cbn [orb]. rewrite (part_slice _ _ _ Hp). unfold string_block.
  rewrite utf16_round by (by apply block_chars). rewrite split_names, block_parts; [done..|]. eapply Forall_impl; [exact Hf|]. by intros f (_ & Hz & _).
Qed.

(** * The directories of a volume *)
Definition dir_entry (s : str) : list Z := le_enc 2 (len (utf16_encode s) / 2) ++ utf16_encode s ++ [0; 0].
Definition short (s : str) : Prop := len (utf16_encode s) / 2 < 65536.
Lemma dir_entries_read dirs pre post : Forall plain dirs -> Forall short dirs ->
  directory_strings (pre ++ concat (map dir_entry dirs) ++ post) (len pre) (length dirs) = Ok dirs.
Proof.
  intros Hp Hs. revert pre. induction dirs as [|s dirs IH]; intros pre; [done|]. apply Forall_cons in Hp as [Hps Hp], Hs as [Hss Hs].
  cbn [length map concat directory_strings]. set (n := len (utf16_encode s) / 2). set (tail := concat (map dir_entry dirs) ++ post).
  assert (Hn : len (utf16_encode s) = n * 2) by (pose proof (utf16_encode_len s); unfold n; Z.div_mod_to_equations; lia).
  assert (Hd : pre ++ (dir_entry s ++ concat (map dir_entry dirs)) ++ post = pre ++ le_enc 2 n ++ utf16_encode s ++ [0; 0] ++ tail)
    by (unfold dir_entry, tail; fold n; by rewrite <- !app_assoc).
  rewrite Hd. assert (Hl : len (pre ++ le_enc 2 n ++ utf16_encode s ++ [0; 0] ++ tail) = len pre + 2 + n * 2 + 2 + len tail)
    by (unfold len in *; rewrite !length_app, le_enc_length; cbn [length]; lia).
  assert (Hn0 : 0 <= n) by (unfold len in Hn; lia). assert (0 <= len tail) by (unfold len; lia). rewrite Hl.
  destruct (Z.ltb_spec (len pre + 2 + n * 2 + 2 + len tail) (len pre + 2)); [lia|].
  rewrite (u_le_app 2 pre (le_enc 2 n)) by (rewrite ?le_enc_length; done). rewrite le_val_enc by (unfold short in Hss; fold n in Hss; lia).
  cbn [of_option mbind result_bind]. destruct (Z.ltb_spec (len pre + 2 + n * 2 + 2 + len tail) (len pre + 2 + n * 2)); [lia|].
  destruct (Z.leb_spec (len pre + 2 + n * 2 + 2) (len pre + 2 + n * 2 + 2 + len tail)); [|lia].
  assert (Hpre : pre ++ le_enc 2 n ++ utf16_encode s ++ [0; 0] ++ tail = (pre ++ le_enc 2 n) ++ utf16_encode s ++ [0; 0] ++ tail) by (by rewrite app_assoc).
  rewrite Hpre, slice_app; [|unfold len; rewrite length_app, le_enc_length; lia|unfold len in *; rewrite length_app, le_enc_length; lia].
  rewrite decode_plain_alone by done.
  assert (Hnext : (pre ++ le_enc 2 n) ++ utf16_encode s ++ [0; 0] ++ tail = (pre ++ dir_entry s) ++ concat (map dir_entry dirs) ++ post)
    by (unfold dir_entry, tail; fold n; by rewrite <- !app_assoc).
  rewrite Hnext. replace (len pre + 2 + n * 2 + 2) with (len (pre ++ dir_entry s))
    by (unfold dir_entry, len in *; fold n; rewrite !length_app, le_enc_length; cbn [length]; lia).
  rewrite IH by done. cbn. by rewrite backslash_id by apply Hps.
Qed.

(** * Volumes *)
Record disk_volume := { dv_device : str; dv_created : Z; dv_serial : Z; dv_directories : list str }.
(** The entry of a volume, with the device and the directories anywhere after the
    beginning of the volumes. *)
Definition volume_at (data : list Z) (vo entry : Z) (v : disk_volume) : Prop :=
  exists po pd,
    entry + 36 <= len data /\ field 4 data entry po /\ field 4 data (entry + 4) (len (utf16_encode (dv_device v)) / 2) /\
    field 8 data (entry + 8) (dv_created v) /\ field 4 data (entry + 16) (dv_serial v) /\
    field 4 data (entry + 28) pd /\ field 4 data (entry + 32) (len (dv_directories v)) /\ 0 < pd /\
    part data (vo + po) (utf16_encode (dv_device v)) /\ part data (vo + pd) (concat (map dir_entry (dv_directories v))) /\
    plain (dv_device v) /\ Forall plain (dv_directories v) /\ Forall short (dv_directories v).
Definition created_text (v : disk_volume) : option str := _filetime_to_iso (Some (dv_created v)).

Lemma volume_device_read data vo entry v : volume_at data vo entry v -> volume_device_path data vo entry = Some (dv_device v).
Proof.
  intros (po & pd & _ & Hpo & Hn & _ & _ & _ & _ & _ & Hp & _ & Hd & _). unfold volume_device_path.
  rewrite (field_safe_u32 _ _ _ Hpo), (field_safe_u32 _ _ _ Hn). pose proof (utf16_encode_len (dv_device v)) as Hm.
  assert (He : len (utf16_encode (dv_device v)) = len (utf16_encode (dv_device v)) / 2 * 2) by (Z.div_mod_to_equations; lia).
  destruct (Z.eqb_spec (len (utf16_encode (dv_device v)) / 2) 0) as [Hz|_].
  { exfalso. destruct (utf16_encode_cons_ne (dv_device v)) as (b & d & Hb); [apply Hd|]. rewrite Hz in He. rewrite Hb in He. by unfold len in He. }
  cbn zeta. rewrite <- He, (part_slice _ _ _ Hp), decode_plain_alone by done. cbn. f_equal. by apply backslash_id, Hd.
Qed.
Lemma directories_read data base pd dirs : part data (base + pd) (concat (map dir_entry dirs)) -> 0 < pd -> Forall plain dirs -> Forall short dirs ->
  _read_directory_strings data base (Some pd) (Some (len dirs)) = Ok (dedup dirs).
Proof.
  intros (pre & post & -> & Hb) Hpd Hp Hs. unfold _read_directory_strings. destruct (Z.eqb_spec pd 0); [lia|]. cbn [orb].
  destruct (Z.eqb_spec (len dirs) 0) as [Hz|_]; [unfold len in Hz; by destruct dirs|]. rewrite <- Hb. unfold len at 2. rewrite Nat2Z.id.
  by rewrite dir_entries_read.
Qed.
Lemma read_volumes_laid data vo size entry vs acc :
  (forall i v, vs !! i = Some v -> volume_at data vo (entry + Z.of_nat i * size) v) -> volume_info_truncated acc = false ->
  read_volumes data vo size entry (length vs) acc = Ok {|
    all_directories := all_directories acc ++ concat (map dedup (map dv_directories vs));
    volume_paths := volume_paths acc ++ map dv_device vs;
    volume_serials := volume_serials acc ++ map (fun v => hexfill 8 (dv_serial v)) vs;
    volume_created_times := volume_created_times acc ++ omap created_text vs;
    volume_info_truncated := false |}.
Proof.
  revert entry acc. induction vs as [|v vs IH]; intros entry acc Hvs Hacc; cbn [length read_volumes map omap list_omap concat].
  { rewrite !app_nil_r, <- Hacc. by destruct acc. }
  pose proof (Hvs 0%nat v eq_refl) as Hv. rewrite Z.add_0_r in Hv. rewrite (volume_device_read _ _ _ _ Hv).
  destruct Hv as (po & pd & Hend & _ & _ & Hc & Hs & Hpd & Hn & Hpos & _ & Hd & _ & Hplain & Hshort).
  destruct (Z.ltb_spec (len data) (entry + 36)); [lia|]. rewrite (field_safe_u32 _ _ _ Hpd), (field_safe_u32 _ _ _ Hn).
  rewrite directories_read by done. cbn [mbind result_bind]. rewrite IH; [|intros i u Hu; specialize (Hvs (S i) u Hu)|done].
  - unfold volume_serial, volume_created. rewrite (field_safe_u32 _ _ _ Hs), (field_safe_u64 _ _ _ Hc).
    cbn [all_directories volume_paths volume_serials volume_created_times]. rewrite <- !app_assoc. fold (created_text v).
    by destruct (created_text v).
  - by replace (entry + size + Z.of_nat i * size) with (entry + Z.of_nat (S i) * size) by lia.
Qed.

(** * The whole file *)
(** A file of a supported version that names an executable, files and volumes. *)
Record laid_out (data : list Z) (version file_size : Z) (exe : str) (files : list str) (count : Z) (vs : list disk_volume) : Prop := {
  lo_bytes : wf data;
  lo_version : version ∈ SUPPORTED_PREFETCH_VERSIONS /\ field 4 data 0 version;
  lo_signature : part data 4 (lit "SCCA");
  lo_file_size : field 4 data 12 file_size;
  lo_name : plain exe /\ exists tail, slice 16 76 data = utf16_encode exe ++ tail /\ (tail = [] \/ exists junk, tail = 0 :: 0 :: junk);
  lo_files : Forall plain files /\ exists so, 0 < so /\ field 4 data 100 so /\ field 4 data 104 (len (string_block files)) /\ part data so (string_block files);
  lo_count : exists o, run_count_offset version info_offset = Some o /\ field 4 data o count;
  lo_volumes : exists vo, field 4 data 108 vo /\ field 4 data 112 (len vs) /\
    forall i v, vs !! i = Some v -> volume_at data vo (vo + Z.of_nat i * _PREFETCH_ENTRY_SIZES version) v }.

Lemma le_val_head b d : wf d -> b <= le_val (b :: d).
Proof. intros Hd. change (b <= b + 256 * le_val d). pose proof (le_val_bound d Hd). lia. Qed.
(** A file that begins with its version is not taken for a compressed one. *)
Lemma version_not_mam data version : wf data -> version ∈ SUPPORTED_PREFETCH_VERSIONS -> field 4 data 0 version -> slice 0 3 data <> lit "MAM".
Proof.
  intros Hwf Hv (_ & Hl & Hu) Hm. unfold u_le in Hu. case_match eqn:El; [|done]. injection Hu as Hu.
  assert (Hs : slice 0 3 data = take 3 (slice 0 (0 + Z.of_nat 4) data)) by (unfold slice; by rewrite take_take).
  pose proof (slice_wf 0 (0 + Z.of_nat 4) data Hwf) as Hws. destruct (slice 0 (0 + Z.of_nat 4) data) as [|b d]; [by rewrite Hs in Hm|].
  rewrite Hs in Hm. injection Hm as Hb _. apply Forall_cons in Hws as [_ Hws]. pose proof (le_val_head b d Hws) as Hle. rewrite Hu, Hb in Hle.
  unfold SUPPORTED_PREFETCH_VERSIONS in Hv. rewrite !elem_of_cons, elem_of_nil in Hv. change (code "M") with 77 in Hle. lia.
Qed.
Lemma volumes_laid data version vs :
  (exists vo, field 4 data 108 vo /\ field 4 data 112 (len vs) /\
    forall i v, vs !! i = Some v -> volume_at data vo (vo + Z.of_nat i * _PREFETCH_ENTRY_SIZES version) v) ->
  volumes_of data version info_offset = Ok (false, {|
    all_directories := concat (map dedup (map dv_directories vs)); volume_paths := map dv_device vs;
    volume_serials := map (fun v => hexfill 8 (dv_serial v)) vs; volume_created_times := omap created_text vs; volume_info_truncated := false |}).
Proof.
  intros (vo & Hvo & Hn & Hvs). unfold volumes_of. change (info_offset + 24) with 108. change (info_offset + 28) with 112. rewrite (field_safe_u32 _ _ _ Hvo), (field_safe_u32 _ _ _ Hn).
  unfold len. rewrite Nat2Z.id, (read_volumes_laid _ _ _ _ _ _ Hvs) by done. reflexivity.
Qed.
Lemma plain_directories vs : Forall (fun v => Forall plain (dv_directories v)) vs ->
  dedup (map backslash (filter (fun directory => directory <> []) (concat (map dedup (map dv_directories vs))))) = dedup (concat (map dv_directories vs)).
Proof.
  intros Hvs. rewrite <- (dedup_concat (map dv_directories vs)). f_equal.
  assert (Hp : Forall plain (concat (map dedup (map dv_directories vs)))).
  { apply Forall_forall. intros s Hs%list_elem_of_In. apply in_concat in Hs as (l & Hl & Hs). apply list_elem_of_In in Hs.
    rewrite map_map in Hl. apply in_map_iff in Hl as (v & Hl & Hv). subst l. apply list_elem_of_In in Hv. rewrite dedup_elem in Hs.
    rewrite Forall_forall in Hvs. exact (proj1 (Forall_forall _ _) (Hvs v Hv) s Hs). }
  induction Hp as [|s l (_ & _ & Hb & Hne & _) _ IH]; [done|]. rewrite filter_cons_True by done. cbn [map]. by rewrite IH, backslash_id.
Qed.

(** C27. A file that was laid out, its parts in whatever order, is read back: the executable,
    the files and directories it refers to, its volume, the number of its runs. *)
Theorem prefetch_read_back decompressor py_lower data version file_size exe files count vs name :
  laid_out data version file_size exe files count vs ->
  exists p w, parse_prefetch_bytes decompressor py_lower data name = Ok (p, w) /\
    Version p = version /\ FileSize p = file_size /\ ExecutableName p = Some exe /\ ReferencedFiles p = dedup files /\
    ReferencedDirectories p = dedup (concat (map dv_directories vs)) /\ VolumeDevicePath p = head (map dv_device vs) /\
    VolumeSerialNumber p = head (map (fun v => hexfill 8 (dv_serial v)) vs) /\
    VolumeCreationTime p = head (omap created_text vs) /\ RunCount p = Some count.
Proof.
  intros [Hwf [Hver Hv] Hsig Hsize (Hexe & tail & Hname & Htail) (Hfiles & so & Hso & Hfo & Hfs & Hblock) (o & Hro & Hrc) Hvs].
  pose proof (version_not_mam data version Hwf Hver Hv) as Hmam.
  assert (Hlen : 116 <= len data) by (destruct Hvs as (vo & _ & (_ & Hl & _) & _); lia).
  assert (Hsignature : slice 4 8 data = lit "SCCA") by apply (part_slice data 4 (lit "SCCA") Hsig).
  unfold parse_prefetch_bytes, _read_magic. rewrite (bool_decide_eq_false_2 _ Hmam). rewrite Hsignature. change (ascii_ignore (lit "SCCA")) with (lit "SCCA").
  destruct (Z.leb_spec 8 (len data)); [|lia]. rewrite bool_decide_eq_false_2 by done.
  unfold parse_scca, _u32. destruct (Z.ltb_spec (len data) 84); [lia|].
  destruct Hv as (_ & _ & ->), Hsize as (_ & _ & ->). cbn [of_option mbind result_bind]. rewrite Hname, decode_plain by done.
  destruct (_parse_prefetch_filename _) as [exe' hash]. rewrite Hsignature. change (ascii_ignore (lit "SCCA")) with (lit "SCCA").
  rewrite (bool_decide_eq_true_2 (lit "SCCA" = lit "SCCA")) by done. rewrite (bool_decide_eq_true_2 _ Hver). cbn [negb].
  unfold parse_information. cbn [Prefetch.Version Prefetch.ExecutableName]. rewrite (volumes_laid _ _ _ Hvs).
  destruct (_infer_timestamp_fields version info_offset data) as [[last_run last_runs] run_count] eqn:Et. cbn [mbind result_bind].
  do 2 eexists. split; [reflexivity|]. cbn -[head]. split; [done|]. split; [done|]. split; [done|]. split; [|split; [|split; [done|split; [done|split; [done|]]]]].
  - change (info_offset + 16) with 100. change (info_offset + 20) with 104. rewrite (field_safe_u32 _ _ _ Hfo), (field_safe_u32 _ _ _ Hfs). by apply string_block_read.
  - apply plain_directories. apply Forall_forall. intros v (i & Hi)%list_elem_of_lookup. destruct Hvs as (vo & _ & _ & Hvs).
    destruct (Hvs i v Hi) as (po & pd & H'). apply H'.
  - unfold _infer_timestamp_fields in Et. injection Et as _ _ <-. rewrite Hro. cbn. by apply field_safe_u32.
Qed.

(** * A compressed file *)
Definition frame (chunk : list Z) : list Z := le_enc 4 (len chunk) ++ chunk.
Definition mam_header (kind : Z) (size checksum : Z) : list Z := lit "MAM" ++ [kind] ++ le_enc 4 size ++ le_enc 4 checksum.
Definition mam_file (kind size checksum : Z) (chunks : list (list Z)) : list Z := mam_header kind size checksum ++ concat (map frame chunks).
Definition good_chunk (chunk : list Z) : Prop := 0 < len chunk < 2 ^ 32.

Lemma frames_read pre chunks acc fuel : Forall good_chunk chunks -> (length chunks < fuel)%nat ->
  while fuel (framed_step (pre ++ concat (map frame chunks))) (len pre, acc) = Ok (Some (acc ++ chunks)).
Proof.
  intros Hc. revert pre acc fuel. induction Hc as [|c chunks Hg Hc IH]; intros pre acc [|fuel] Hf; [cbn in Hf; lia| |cbn in Hf; lia|]; rewrite while_unfold.
  - cbn [map concat framed_step]. rewrite !app_nil_r. destruct (Z.ltb_spec (len pre) (len pre)); [lia|done].
  - cbn [map concat framed_step]. set (rest := concat (map frame chunks)).
    replace (pre ++ frame c ++ rest) with (pre ++ le_enc 4 (len c) ++ c ++ rest) by (unfold frame; by rewrite <- !app_assoc).
    unfold good_chunk in Hg.
    assert (Hl : len (pre ++ le_enc 4 (len c) ++ c ++ rest) = len pre + 4 + len c + len rest) by (unfold len; rewrite !length_app, le_enc_length; lia).
    assert (0 <= len rest) by (unfold len; lia). rewrite Hl.
    destruct (Z.ltb_spec (len pre) (len pre + 4 + len c + len rest)); [|lia]. destruct (Z.ltb_spec (len pre + 4 + len c + len rest) (len pre + 4)); [lia|].
    unfold _u32. rewrite (u_le_app 4 pre (le_enc 4 (len c))) by (rewrite ?le_enc_length; done). rewrite le_val_enc by (change (256 ^ Z.of_nat 4) with (2 ^ 32); lia).
    cbn [of_option mbind result_bind]. destruct (Z.leb_spec (len c) 0); [lia|]. destruct (Z.ltb_spec (len pre + 4 + len c + len rest) (len pre + 4 + len c)); [lia|]. cbn [orb].
    assert (Hpre : pre ++ le_enc 4 (len c) ++ c ++ rest = (pre ++ le_enc 4 (len c)) ++ c ++ rest) by (by rewrite <- app_assoc).
    assert (Hp4 : len pre + 4 = len (pre ++ le_enc 4 (len c))) by (unfold len; rewrite length_app, le_enc_length; lia).
    rewrite Hpre, slice_app by lia. replace ((pre ++ le_enc 4 (len c)) ++ c ++ rest) with ((pre ++ le_enc 4 (len c) ++ c) ++ rest) by (by rewrite <- !app_assoc).
    replace (len pre + 4 + len c) with (len (pre ++ le_enc 4 (len c) ++ c)) by (unfold len; rewrite !length_app, le_enc_length; lia).
    unfold rest. rewrite IH by (cbn in Hf; lia). by rewrite <- app_assoc.
Qed.
Lemma frames_length chunks : (length chunks <= length (concat (map frame chunks)))%nat.
Proof. induction chunks as [|c chunks IH]; [done|]. cbn [map concat length]. rewrite length_app. unfold frame at 1. rewrite length_app, le_enc_length. lia. Qed.

(** A compressed file whose chunks follow its header, each with its length, is read as
    what the chunks decompress to together. *)
Lemma mam_read decompress py_lower kind size checksum chunks d name :
  0 < size < 2 ^ 32 -> chunks <> [] -> Forall good_chunk chunks -> decompress (concat chunks) size = Some d -> _read_magic d = lit "SCCA" ->
  parse_prefetch_bytes (Some decompress) py_lower (mam_file kind size checksum chunks) name = parse_prefetch_bytes (Some decompress) py_lower d name.
Proof.
  intros Hs Hne Hc Hd Hm. unfold parse_prefetch_bytes. rewrite Hm. rewrite (bool_decide_eq_false_2 (lit "SCCA" = lit "MAM")) by done.
  assert (Hmam : slice 0 3 (mam_file kind size checksum chunks) = lit "MAM") by (by apply (slice_app [] (lit "MAM"))).
  assert (Hmagic : _read_magic (mam_file kind size checksum chunks) = lit "MAM") by (unfold _read_magic; by rewrite (bool_decide_eq_true_2 _ Hmam)).
  rewrite (bool_decide_eq_true_2 _ Hmagic).
  assert (Hh : len (mam_header kind size checksum) = 12) by (unfold len, mam_header; by rewrite !length_app, !le_enc_length).
  unfold _decompress_mam_prefetch. rewrite (bool_decide_eq_true_2 _ Hmam). cbn [negb]. rewrite orb_false_r.
  destruct (Z.ltb_spec (len (mam_file kind size checksum chunks)) 12) as [Hl|_]; [unfold mam_file, len in *; rewrite length_app in Hl; lia|].
  unfold _u32. assert (Hu : u_le 4 (mam_file kind size checksum chunks) 4 = Some size).
  { unfold mam_file, mam_header. rewrite <- !app_assoc, app_assoc. rewrite u_le_app by done. f_equal. apply le_val_enc. change (256 ^ Z.of_nat 4) with (2 ^ 32). lia. }
  rewrite Hu. cbn [of_option mbind result_bind]. destruct (Z.leb_spec size 0); [lia|].
  assert (Hframes : framed_chunks (mam_file kind size checksum chunks) = Ok (Some chunks)).
  { unfold framed_chunks, mam_file. rewrite <- Hh. apply (frames_read _ _ []); [done|]. rewrite length_app. pose proof (frames_length chunks). lia. }
  rewrite Hframes. cbn [mbind result_bind]. unfold mam_attempts. destruct chunks as [|c chunks]; [done|]. cbn [app try_attempts].
  assert (Hcc : concat (c :: chunks) <> []) by (apply Forall_cons in Hc as [Hg _]; destruct c; [by destruct Hg|done]).
  rewrite (bool_decide_eq_false_2 _ Hcc), bool_decide_eq_false_2 by apply not_elem_of_nil. cbn [orb]. rewrite Hd.
  by rewrite (bool_decide_eq_true_2 _ Hm).
Qed.

(** * The name of a file *)
Lemma split_on_ne c s : split_on c s <> [].
Proof. destruct s as [|d s]; cbn; [done|]. destruct (d =? c); [done|]. by destruct (split_on c s). Qed.
Lemma split_on_app c a b : split_on c (a ++ c :: b) = split_on c a ++ split_on c b.
Proof.
  induction a as [|d a IH]; cbn [app split_on]; [by rewrite Z.eqb_refl|]. rewrite IH. destruct (d =? c); [done|].
  pose proof (split_on_ne c a). by destruct (split_on c a).
Qed.
Lemma name_last dir n : n <> [] -> n <> lit "." -> code "/" ∉ n -> name (Path (dir ++ lit "/" ++ n)) = n /\ name (Path n) = n.
Proof.
  intros Hne Hdot Hn. unfold name, Path. cbn [names]. change (lit "/" ++ n) with (code "/" :: n). rewrite split_on_app, (split_on_none _ n) by done.
  rewrite filter_app, filter_cons_True, filter_nil by done. by rewrite last_snoc.
Qed.
Lemma pf_end_length r : pf_end r = true -> length r = 3%nat \/ length r = 4%nat /\ last r = Some 10.
Proof.
  destruct r as [|a [|b [|c [|d [|e r]]]]]; cbn [pf_end]; try done; rewrite ?andb_false_r; try done; [by left|].
  intros [_ Hd]%andb_prop. right. split; [done|]. cbn. f_equal. lia.
Qed.
(** What follows the executable is at most a hash and the extension, or ends in a
    line feed. *)
Lemma pf_tail_length r h : pf_tail r = Some h -> (length r <= 12)%nat \/ last r = Some 10.
Proof.
  unfold pf_tail. destruct (_ && pf_end (drop 9 r)) eqn:E.
  - intros _. apply andb_true_iff in E as [_ E]. apply pf_end_length in E. rewrite length_drop in E. destruct E as [E|[E El]]; [left; lia|right].
    rewrite <- (take_drop 9 r), last_app. by rewrite El.
  - destruct (pf_end r) eqn:E'; [|done]. intros _. apply pf_end_length in E' as [E'|[_ E']]; [left; lia|by right].
Qed.
Lemma pf_match_named exe pre hash ext : Forall (fun c => c <> 10) exe -> pre ++ exe <> [] ->
  length hash = 8%nat -> forallb is_hex hash = true -> pf_end ext = true -> length ext = 3%nat ->
  pf_match pre (exe ++ lit "-" ++ hash ++ ext) = Some (pre ++ exe, Some hash).
Proof.
  intros Hexe. revert pre. induction Hexe as [|c exe Hc _ IH]; intros pre Hne Hl Hh He Hle.
  - rewrite app_nil_r in *. cbn [app]. assert (Ht : pf_tail (lit "-" ++ hash ++ ext) = Some (Some hash)).
    { unfold pf_tail. change (drop 1 (lit "-" ++ hash ++ ext)) with (hash ++ ext). change (drop 9 (lit "-" ++ hash ++ ext)) with (drop 8 (hash ++ ext)).
      rewrite <- Hl, take_app_length, drop_app_length, He, Hh. change (startswith (lit "-") (lit "-" ++ hash ++ ext)) with true.
      unfold len. rewrite Hl. done. }
    destruct pre as [|p pre]; [done|]. change (lit "-" ++ hash ++ ext) with (code "-" :: hash ++ ext) in *. cbn [pf_match]. by rewrite Ht.
  - cbn [app]. set (rest := lit "-" ++ hash ++ ext) in *. cbn [pf_match].
    assert (Ht : pf_tail (c :: exe ++ rest) = None).
    { destruct (pf_tail (c :: exe ++ rest)) as [h|] eqn:E; [|done]. apply pf_tail_length in E as [E|E].
      - unfold rest in E. cbn [length] in E. rewrite !length_app in E. change (length (lit "-")) with 1%nat in E. lia.
      - exfalso. destruct ext as [|a [|b [|f [|]]]]; try done. unfold rest in E. rewrite app_comm_cons in E.
        change [a; b; f] with ([a; b] ++ [f]) in E. rewrite !app_assoc, last_snoc in E. injection E as ->. cbn in He. by rewrite !andb_false_r in He. }
    rewrite Ht. destruct (Z.eqb_spec c 10); [done|]. rewrite IH; [|by destruct pre|done..]. rewrite <- app_assoc. by destruct pre.
Qed.

(** The name Windows gives a Prefetch file, in any folder, is taken apart into the
    executable and the hash, whatever characters and dashes the executable has. *)
Lemma prefetch_file_name dir exe hash ext :
  exe <> [] -> Forall (fun c => c <> 10) exe -> code "/" ∉ exe -> length hash = 8%nat -> forallb is_hex hash = true -> ext ∈ [lit ".pf"; lit ".PF"; lit ".Pf"; lit ".pF"] ->
  (dir = [] \/ exists parent, dir = parent ++ lit "/") ->
  _parse_prefetch_filename (dir ++ exe ++ lit "-" ++ hash ++ ext) = (some_text (strip exe), Some (hex_upper hash)).
Proof.
  intros Hne Hexe Hslash Hl Hh He Hdir. set (n := exe ++ lit "-" ++ hash ++ ext).
  assert (Hext : pf_end ext = true /\ length ext = 3%nat /\ code "/" ∉ ext).
  { rewrite !elem_of_cons, elem_of_nil in He. destruct He as [->|[->|[->|[->|[]]]]]; (split; [done|split; [done|]]; by apply (bool_decide_eq_false_1 (_ ∈ _))). }
  destruct Hext as (Hend & Hle & Hxs).
  assert (Hn : code "/" ∉ n).
  { unfold n. rewrite !not_elem_of_app. split; [done|]. split; [by apply (bool_decide_eq_false_1 (_ ∈ _))|]. split; [|done].
    intros Hin. rewrite forallb_forall in Hh. by specialize (Hh _ (proj1 (list_elem_of_In _ _) Hin)). }
  assert (Hlong : (12 < length n)%nat) by (unfold n; rewrite !length_app, Hl, Hle; change (length (lit "-")) with 1%nat; destruct exe; [done|cbn [length]; lia]).
  assert (Hname : name (Path (dir ++ n)) = n).
  { pose proof (fun d => name_last d n ltac:(intros Hd; apply (f_equal length) in Hd; change (length []) with 0%nat in Hd; lia) ltac:(intros Hd; apply (f_equal length) in Hd; change (length (lit ".")) with 1%nat in Hd; lia) Hn) as Hnl.
    destruct Hdir as [->|(d & ->)]; [apply (Hnl [])|]. rewrite <- app_assoc. apply (Hnl d). }
  unfold _parse_prefetch_filename. rewrite Hname. unfold n. rewrite pf_match_named by done. done.
Qed.
End PrefetchLayout.
