(* ===== verification/PrefetchSamples.v ===== *)
(** Concrete Prefetch files: the theorems at work, and volumes whose parts are
    reported together. *)
From S2P Require Import Prelude PyBase PyText PyDates PurePaths Prefetch PrefetchRead PrefetchLayout.
Import Bytes Str PyText PyDates PurePaths Prefetch PrefetchRead PrefetchLayout.

Module PrefetchSamples.

(** * A file of version 26 *)
Definition zeros (n : nat) : list Z := repeat 0 n.
Definition header (version file_size : Z) (exe : str) : list Z :=
  le_enc 4 version ++ lit "SCCA" ++ zeros 4 ++ le_enc 4 file_size ++ utf16_encode exe ++ zeros (60 - length (utf16_encode exe)) ++ zeros 8.
Definition information (so size vo count : Z) (runs : list Z) (run_count : Z) : list Z :=
  zeros 16 ++ flat_map (le_enc 4) [so; size; vo; count] ++ zeros 12 ++ flat_map (le_enc 8) runs ++ zeros (72 - 8 * length runs) ++
  le_enc 4 run_count ++ zeros 4.
Definition volume_entry (po chars created serial pd dirs : Z) : list Z :=
  le_enc 4 po ++ le_enc 4 chars ++ le_enc 8 created ++ le_enc 4 serial ++ zeros 8 ++ le_enc 4 pd ++ le_enc 4 dirs ++ zeros 68.
(** The information ends at 208, where the names of files begin; the volumes follow. *)
Definition file_of (exe : str) (files : list str) (runs : list Z) (run_count : Z) (entries : list (list Z)) (rest : list Z) : list Z :=
  header 26 5000 exe ++
  information 208 (len (string_block files)) (208 + len (string_block files)) (len entries) runs run_count ++
  string_block files ++ concat entries ++ rest.

Definition cmd : str := lit "CMD.EXE".
Definition files : list str := [lit "\DEVICE\DISK2\NTDLL.DLL"; lit "\DEVICE\DISK2\CMD.EXE"; lit "\DEVICE\DISK2\NTDLL.DLL"].
Definition dirs2 : list str := [lit "C:\WINDOWS"; lit "C:\USERS"].
(** 2 January 1601, one second later, a run of the first time again, and none. *)
Definition day : Z := 864000000000.
Definition sample_runs : list Z := [day + 10000000; day; day + 3; day; 0].
Definition disk1 : disk_volume := {| dv_device := lit "\DEVICE\DISK1"; dv_created := 0; dv_serial := 2864434397; dv_directories := [] |}.
Definition disk2 : disk_volume := {| dv_device := lit "\DEVICE\DISK2"; dv_created := 2 * day; dv_serial := 1; dv_directories := dirs2 |}.
Definition after_entries (v1 v2 : disk_volume) : list Z :=
  utf16_encode (dv_device v1) ++ utf16_encode (dv_device v2) ++ concat (map dir_entry (dv_directories v2)).
Definition sample : list Z :=
  file_of cmd files sample_runs 12
    [volume_entry 208 13 0 2864434397 260 0; volume_entry 234 13 (2 * day) 1 260 2] (after_entries disk1 disk2).
Definition no_lower (s : str) : str := lower s.

Lemma sample_read : exists p w, parse_prefetch_bytes None no_lower sample (lit "C:/x/CMD.EXE-0BD30981.pf") = Ok (p, w) /\ w = [] /\
  ExecutablePath p = Some (lit "\DEVICE\DISK2\CMD.EXE") /\ PrefetchHash p = Some (lit "0BD30981") /\
  LastRuns p = [lit "1601-01-02T00:00:00+00:00"; lit "1601-01-02T00:00:01+00:00"] /\ LastRun p = Some (lit "1601-01-02T00:00:01+00:00").
Proof. do 2 eexists. split; [vm_compute; reflexivity|]. by repeat split. Qed.

(** * The theorems at work *)
Ltac decided := match goal with |- ?P => apply (bool_decide_eq_true_1 P); vm_compute; reflexivity end.
Ltac at_place := split; [done|split; [by vm_compute|vm_compute; reflexivity]].
Ltac in_place := apply part_intro; [by vm_compute|by vm_compute|vm_compute; reflexivity].
Ltac piece :=
  lazymatch goal with
  | |- field _ _ _ _ => at_place
  | |- part _ _ _ => in_place
  | |- _ <= _ => by vm_compute
  | |- _ < _ => done
  | |- Forall short _ => unfold short; decided
  | |- _ => decided
  end.
Ltac laid := lazymatch goal with |- _ /\ _ => split; [piece|laid] | |- _ => piece end.
Lemma sample_bytes : wf sample.
Proof. unfold wf, is_byte. decided. Qed.
Lemma no_decompressor : gives_bytes None.
Proof. by intros d c n r [=]. Qed.
Lemma prefetch_sample_laid_out : laid_out sample 26 5000 cmd files 12 [disk1; disk2].
Proof.
  split.
  - apply sample_bytes.
  - split; [decided|at_place].
  - in_place.
  - at_place.
  - split; [decided|]. exists (zeros 46). split; [vm_compute; reflexivity|right]. by exists (zeros 44).
  - split; [decided|]. exists 208. split; [done|]. split; [at_place|]. split; [at_place|in_place].
  - exists 200. split; [done|at_place].
  - exists 348. split; [at_place|]. split; [at_place|]. intros [|[|i]] v Hi; [injection Hi as <-|injection Hi as <-|done].
    + exists 208, 260. laid. 
    + exists 234, 260. laid. 
Qed.
Lemma prefetch_read_back_witness :
  exists p w, parse_prefetch_bytes None no_lower sample [] = Ok (p, w) /\
    Version p = 26 /\ FileSize p = 5000 /\ ExecutableName p = Some cmd /\ ReferencedFiles p = dedup files /\
    ReferencedDirectories p = dedup (concat (map dv_directories [disk1; disk2])) /\ VolumeDevicePath p = head (map dv_device [disk1; disk2]) /\
    VolumeSerialNumber p = head (map (fun v => hexfill 8 (dv_serial v)) [disk1; disk2]) /\
    VolumeCreationTime p = head (omap created_text [disk1; disk2]) /\ RunCount p = Some 12.
Proof. exact (prefetch_read_back None no_lower sample 26 5000 cmd files 12 [disk1; disk2] [] prefetch_sample_laid_out). Defined.
Lemma prefetch_outcomes_witness :
  outcome (fun '(p, w) => Signature p = lit "SCCA") (fun e => e <> Truncated) (parse_prefetch_bytes None no_lower sample []) /\
  (_read_magic sample <> lit "MAM" ->
     (parse_prefetch_bytes None no_lower sample [] = Raise TooSmall <-> len sample < 84) /\
     (forall s, parse_prefetch_bytes None no_lower sample [] = Raise (InvalidSignature s) <->
        84 <= len sample /\ s = ascii_ignore (slice 4 8 sample) /\ s <> lit "SCCA") /\
     (is_ok (parse_prefetch_bytes None no_lower sample []) = true <-> 84 <= len sample /\ ascii_ignore (slice 4 8 sample) = lit "SCCA")).
Proof. exact (prefetch_outcomes None no_lower sample [] sample_bytes no_decompressor). Defined.
Lemma prefetch_last_run_witness : exists p w, parse_prefetch_bytes None no_lower sample [] = Ok (p, w) /\
  LastRun p = last (LastRuns p) /\
  exists d times, payload None sample d /\
    Forall2 at_time times (LastRuns p) /\ StronglySorted earlier times /\ times ⊆ recorded_runs (Version p) d /\
    forall v, v ∈ recorded_runs (Version p) d -> exists v', v' ∈ times /\ v' / 10 = v / 10.
Proof.
  do 2 eexists. split; [vm_compute; reflexivity|].
  eapply (prefetch_last_run None no_lower sample [] _ _ sample_bytes no_decompressor); [vm_compute; reflexivity|decided].
Defined.
Lemma prefetch_failures_reported_witness :
  match parse_prefetch_bytes None no_lower (take 83 sample) [], failure_report None no_lower no_lower [] (take 83 sample) [] with
  | Ok (p, _), None => Version p ∈ SUPPORTED_PREFETCH_VERSIONS
  | Ok (p, _), Some (reason, status, _) => Version p ∉ SUPPORTED_PREFETCH_VERSIONS /\ reported (inr (Version p)) reason status
  | Raise e, Some (reason, status, _) => reported (inl e) reason status
  | _, _ => False
  end.
Proof. exact (prefetch_failures_reported None no_lower no_lower [] (take 83 sample) [] (Forall_take _ _ _ sample_bytes) no_decompressor). Defined.
Lemma prefetch_counts_capped_witness :
  _read_directory_strings sample 348 (Some 260) (Some 4294967295) =
    _read_directory_strings sample 348 (Some 260) (Some (Z.min 4294967295 (len sample / 2 + 1))) /\
  read_volumes sample 348 104 348 (Z.to_nat 4294967295) no_volumes =
    read_volumes sample 348 104 348 (Z.to_nat (Z.min 4294967295 (len sample / 104 + 2))) no_volumes.
Proof. apply (prefetch_counts_capped sample 348 260 4294967295 104 sample_bytes); lia. Defined.
(** A decompressor that knows one file. *)
Definition knows (c : list Z) (size : Z) : option (list Z) := if bool_decide (c = [7; 8; 9]) then Some sample else None.
Lemma mam_read_witness :
  parse_prefetch_bytes (Some knows) no_lower (mam_file 4 5000 0 [[7; 8]; [9]]) (lit "x") = parse_prefetch_bytes (Some knows) no_lower sample (lit "x").
Proof.
  apply (mam_read knows no_lower 4 5000 0 [[7; 8]; [9]] sample (lit "x")); [lia|done| |reflexivity|by vm_compute].
  repeat constructor; by vm_compute.
Defined.
Lemma prefetch_file_name_witness :
  _parse_prefetch_filename (lit "C/Windows/Prefetch/" ++ lit "A-12345678.EXE" ++ lit "-" ++ lit "0bd30981" ++ lit ".PF") =
    (some_text (strip (lit "A-12345678.EXE")), Some (hex_upper (lit "0bd30981"))).
Proof.
  apply (prefetch_file_name (lit "C/Windows/Prefetch/") (lit "A-12345678.EXE") (lit "0bd30981") (lit ".PF"));
    [done|decided|decided|done|done|decided|right; by exists (lit "C/Windows/Prefetch")].
Defined.

(** The creation time that is reported need not be of the volume that is reported with
    it: the first volume has none, and the second one's is taken. *)
Example volumes_mixed : exists p w, parse_prefetch_bytes None no_lower sample [] = Ok (p, w) /\
  VolumeDevicePath p = Some (dv_device disk1) /\ VolumeSerialNumber p = Some (lit "AABBCCDD") /\
  created_text disk1 = None /\ VolumeCreationTime p = created_text disk2 /\ is_Some (created_text disk2).
Proof. do 2 eexists. split; [vm_compute; reflexivity|]. repeat (split; [done|]). by eexists. Qed.
End PrefetchSamples.
