(* ===== verification/LocalTime.v ===== *)
(** ingest/linux/local_time.py: the year and zone of log lines that were written
    without them, from the time of the file, the zone of the host and the times at
    which it was running. *)
From S2P Require Import Prelude PyBase PyText PyDates FileSystem.
Import Bytes Str PyText PyDates FileSystem.

Module LocalTime.

(** * datetime

    A moment on some clock: the microseconds since the day before 1 January of
    year 1. *)
Abbreviation datetime := Z.
Definition days (n : Z) : Z := n * us_per_day.
Definition minutes (n : Z) : Z := n * 60000000.
Definition representable (t : datetime) : bool := (us_per_day <=? t) && (t <? (max_ordinal + 1) * us_per_day).
(** [t + timedelta] *)
Definition add (t delta : Z) : result py_exn datetime := if representable (t + delta) then Ok (t + delta) else Raise OverflowError.
Definition year_of (t : datetime) : Z := fst (fst (ord2ymd (t / us_per_day))).
(** [t.isoformat()] of a time in UTC. *)
Definition iso_text (t : datetime) : str := default [] (isoformat 0 t).

Definition ASSUMED_YEAR : str := lit "assumed_year_utc".
Definition ASSUMED_ZONE : str := lit "assumed_utc".
Definition _OUT_OF_ORDER_TOLERANCE : Z := days 7.
Definition _UPTIME_SLACK : Z := minutes 10.
Definition _MIN_YEAR : Z := 1990.
Definition _MAX_ROOT_DEPTH : nat := 8.

(** A [tzinfo]: its offset at a local time, and the local time of a moment in UTC. *)
Record tzinfo := { utcoffset : datetime -> Z; fromutc : datetime -> result py_exn datetime }.
(** Each boot with its end, which is missing while the last one never ended. *)
Record HostClock := { zone : option tzinfo; uptime : list (datetime * option datetime) }.
Definition boot_years (clock : HostClock) : list Z :=
  flat_map (fun '(start, end_) => map (fun k => year_of start + Z.of_nat k) (seq 0 (Z.to_nat (year_of (default start end_) + 1 - year_of start))))
    (uptime clock).
Definition running_at (clock : HostClock) (moment : datetime) : result py_exn bool :=
  match uptime clock with
  | [] => Ok false
  | _ =>
      let starts := map fst (uptime clock) in
      let! late := add moment _UPTIME_SLACK in
      match Sort.bisect_right starts late with
      | O => Ok false
      | S index =>
          match uptime clock !! index with
          | None => Ok false
          | Some (_, None) => Ok true
          | Some (_, Some end_) => let! end_ := add end_ _UPTIME_SLACK in Ok (moment <=? end_)
          end
      end
  end.

(** * The root of the evidence

    Paths are absolute, without dots or links. *)
Definition parents (p : path) : list path := map (fun n => take n p) (rev (seq 0 (length p))).
Definition _is_outside_evidence (data_dir candidate : path) : bool :=
  bool_decide (candidate = []) || bool_decide (data_dir = candidate) || bool_decide (candidate ∈ parents data_dir).
Fixpoint first_root (data_dir : path) (f : fs) (candidates : list path) : option path :=
  match candidates with
  | [] => None
  | candidate :: candidates =>
      if _is_outside_evidence data_dir candidate then None
      else if is_dir (candidate ++ [lit "etc"]) f && is_dir (candidate ++ [lit "var"]) f then Some candidate
      else first_root data_dir f candidates
  end.
Definition _evidence_root (data_dir : path) (f : fs) (p : path) : option path := first_root data_dir f (take _MAX_ROOT_DEPTH (parents p)).

(** * The times at which the host was running *)
Inductive action : Type := system_boot | system_shutdown.
#[export] Instance action_eq_dec : EqDecision action.
Proof. solve_decision. Defined.
(** [events.sort()]: by time, a boot before a shutdown. *)
Definition event_key (e : datetime * action) : Z := 2 * fst e + match snd e with system_boot => 0 | system_shutdown => 1 end.
(** Closes the last interval if it is open. *)
Definition close_last (moment : datetime) (intervals : list (datetime * option datetime)) : list (datetime * option datetime) :=
  match last intervals with
  | Some (start, None) => removelast intervals ++ [(start, Some moment)]
  | _ => intervals
  end.
Definition interval_step (intervals : list (datetime * option datetime)) (e : datetime * action) : list (datetime * option datetime) :=
  match e with
  | (moment, system_boot) => close_last moment intervals ++ [(moment, None)]
  | (moment, system_shutdown) => close_last moment intervals
  end.
Definition uptime_of (events : list (datetime * action)) (last_seen : option datetime) : result py_exn (list (datetime * option datetime)) :=
  let intervals := fold_left interval_step (Sort.sort_by event_key events) [] in
  match last intervals, last_seen with
  | Some (start, None), Some last_seen =>
      let! end_ := add (Z.max last_seen start) (days 1) in
      Ok (close_last end_ intervals)
  | _, _ => Ok intervals
  end.

(** * Years *)
Definition _with_year (value : datetime) (year : Z) : option datetime :=
  let '(_, m, d) := ord2ymd (value / us_per_day) in
  if (1 <=? year) && (year <=? 9999) && (d <=? days_in_month year m) then Some (ymd2ord year m d * us_per_day + value mod us_per_day) else None.
Definition _to_utc (local : datetime) (zone : option tzinfo) : result py_exn datetime :=
  match zone with None => Ok local | Some z => add local (- utcoffset z local) end.

(** The year goes down until the line is no later than [limit]. *)
Definition year_step (local limit year : Z) : result py_exn (Z + Z * option datetime) :=
  let candidate := _with_year local year in
  let late := match candidate with None => true | Some c => limit <? c end in
  if late && (_MIN_YEAR <? year) then Ok (inl (year - 1)) else Ok (inr (year, candidate)).
Fixpoint walk_back (reference_local : datetime) (rev_locals : list datetime) (year : Z) (newer : option datetime) : result py_exn (list Z) :=
  match rev_locals with
  | [] => Ok []
  | local :: rev_locals =>
      let! limit := match newer with Some newer => add newer _OUT_OF_ORDER_TOLERANCE | None => add reference_local (days 1) end in
      let! (year, candidate) := while (S (Z.to_nat (year - _MIN_YEAR))) (year_step local limit) year in
      let! years := walk_back reference_local rev_locals year (match candidate with Some _ => candidate | None => newer end) in
      Ok (year :: years)
  end.
Definition _years_by_file_order (locals_ : list datetime) (reference_local : datetime) : result py_exn (list Z) :=
  let! years := walk_back reference_local (rev locals_) (year_of reference_local) None in
  Ok (rev years).

(** * Rows *)
Record row := { timestamp : option str; timestamp_status : option str }.
Definition provisional (status : str) (r : row) : bool :=
  bool_decide (timestamp_status r = Some status) && match timestamp r with Some (_ :: _) => true | _ => false end.

Section runtime.
(** [datetime.fromisoformat(text).replace(tzinfo=None)]; [None]: [ValueError]. *)
Variable fromisoformat : str -> option datetime.
Definition local_of (r : row) : option datetime := timestamp r ≫= fromisoformat.
Definition set_time (utc : datetime) (status : str) : row := {| timestamp := Some (iso_text utc); timestamp_status := Some status |}.

Definition zone_row (clock : HostClock) (r : row) : result py_exn (row * Z) :=
  match zone clock with
  | Some z =>
      if provisional ASSUMED_ZONE r then
        match local_of r with
        | None => Ok (r, 0)
        | Some local => let! utc := _to_utc local (Some z) in Ok (set_time utc (lit "host_timezone"), 1)
        end
      else Ok (r, 0)
  | None => Ok (r, 0)
  end.

(** The years in which the host was running at the time of the line. *)
Fixpoint fitting_years (clock : HostClock) (local : datetime) (years : list Z) : result py_exn (list Z) :=
  match years with
  | [] => Ok []
  | year :: years =>
      match _with_year local year with
      | None => fitting_years clock local years
      | Some candidate =>
          let! utc := _to_utc candidate (zone clock) in
          let! running := running_at clock utc in
          let! fitting := fitting_years clock local years in
          Ok (if (running : bool) then year :: fitting else fitting)
      end
  end.
Definition choose_year (fitting : list Z) (default_year : Z) : Z :=
  match last fitting with
  | Some latest => if bool_decide (default_year ∈ fitting) then default_year else latest
  | None => default_year
  end.
Definition candidate_years (clock : HostClock) (default_year : Z) : list Z := Sort.sort_by id (remove_dups (default_year :: boot_years clock)).
Definition chosen_year (clock : HostClock) (local : datetime) (default_year : Z) : result py_exn Z :=
  match boot_years clock with
  | [] => Ok default_year
  | _ => let! fitting := fitting_years clock local (candidate_years clock default_year) in Ok (choose_year fitting default_year)
  end.
Definition dated (clock : HostClock) (r : row) (local : datetime) (default_year : Z) : result py_exn (row * Z) :=
  let! chosen := chosen_year clock local default_year in
  match _with_year local chosen with
  | None => Ok (r, 0)
  | Some with_year =>
      let! utc := _to_utc with_year (zone clock) in
      Ok (set_time utc (match zone clock with Some _ => lit "inferred_year_host_timezone" | None => lit "inferred_year" end), 1)
  end.
Definition year_row (r : row) : option datetime := if provisional ASSUMED_YEAR r then local_of r else None.
(** The rows with the default year of each that has a date. *)
Fixpoint year_rows (clock : HostClock) (rows : list row) (default_years : list Z) : result py_exn (list (row * Z)) :=
  match rows with
  | [] => Ok []
  | r :: rows =>
      match year_row r, default_years with
      | Some local, default_year :: default_years =>
          let! r := dated clock r local default_year in
          let! rest := year_rows clock rows default_years in
          Ok (r :: rest)
      | _, _ => let! rest := year_rows clock rows default_years in Ok ((r, 0) :: rest)
      end
  end.
Definition total (rows : list (row * Z)) : Z := fold_left Z.add (map snd rows) 0.
Definition resolve_local_times (rows : list row) (reference : datetime) (clock : HostClock) : result py_exn (list row * Z) :=
  let! zoned := mapM_py (zone_row clock) rows in
  if forallb (fun r => negb (provisional ASSUMED_YEAR r)) rows then Ok (map fst zoned, total zoned)
  else
    let! reference_local := match zone clock with Some z => fromutc z reference | None => Ok reference end in
    let! default_years := _years_by_file_order (omap year_row rows) reference_local in
    let! resolved := year_rows clock (map fst zoned) default_years in
    Ok (map fst resolved, total zoned + total resolved).
End runtime.
End LocalTime.
