(* ===== verification/LocalTimeYears.v ===== *)
(** Theorems about the dates of log lines: which year is found in the order of a
    file, and that a line is dated within the uptime of its host. *)
From S2P Require Import Prelude PyBase PyText PyDates FileSystem LocalTime.
Import Bytes Str PyText PyDates FileSystem LocalTime.

Module LocalTimeYears.

(** * Dates and times *)
Lemma ymd2ord_pos y m d : 1 <= y -> is_date y m d -> 1 <= ymd2ord y m d.
Proof.
  intros Hy [Hm Hd]. unfold ymd2ord. rewrite days_before_month_leap.
  assert (0 <= days_before_year y).
  { destruct (Z.eq_dec y 1) as [->|]; [done|]. pose proof (days_before_mono 1 y). change (days_before_year 1) with 0 in *. change (is_leap 1) with false in *. lia. }
  assert (0 <= before_month (is_leap y) m).
  { destruct (Z.eq_dec m 1) as [->|]; [done|]. pose proof (before_month_mono (is_leap y) 1 m). change (before_month (is_leap y) 1) with 0 in *.
    change (month_length (is_leap y) 1) with 31 in *. lia. }
  lia.
Qed.
Lemma ord2ymd_ymd2ord y m d : 1 <= y -> is_date y m d -> ord2ymd (ymd2ord y m d) = (y, m, d).
Proof.
  intros Hy Hd. pose proof (ymd2ord_pos y m d Hy Hd) as H1.
  pose proof (ord2ymd_spec _ H1) as Hs. destruct (ord2ymd (ymd2ord y m d)) as [[y' m'] d']. destruct Hs as [Hd' Heq].
  assert (Hcases : date_lt (y, m, d) (y', m', d') \/ date_lt (y', m', d') (y, m, d) \/ (y', m', d') = (y, m, d)).
  { unfold date_lt. destruct (Z.lt_trichotomy y y') as [|[<-|]]; [lia| |lia]. destruct (Z.lt_trichotomy m m') as [|[<-|]]; [lia| |lia].
    destruct (Z.lt_trichotomy d d') as [|[<-|]]; [lia|auto|lia]. }
  destruct Hcases as [Hlt|[Hlt|]]; [| |done]; apply ymd2ord_lt in Hlt; [lia|done|done|lia|done|done].
Qed.
Lemma before_month_leap m : 1 <= m <= 12 -> before_month true m = before_month false m + (if 2 <? m then 1 else 0).
Proof.
  intros Hm. assert (Hall : forallb (fun m => before_month true m =? before_month false m + (if 2 <? m then 1 else 0)) [1; 2; 3; 4; 5; 6; 7; 8; 9; 10; 11; 12] = true)
    by (vm_compute; reflexivity).
  rewrite forallb_forall in Hall. apply Z.eqb_eq, Hall. cbn. lia.
Qed.
(** A date comes again after 365 days or more. *)
Lemma anniversary y y' m d : y < y' -> is_date y m d -> is_date y' m d -> ymd2ord y m d + 365 <= ymd2ord y' m d.
Proof.
  intros Hy [Hm Hd] [_ Hd']. unfold ymd2ord. rewrite !days_before_month_leap. rewrite !days_in_month_leap in *.
  pose proof (days_before_mono y y' Hy) as Hmono. pose proof (before_month_leap m Hm) as Hl.
  destruct (is_leap y), (is_leap y'); destruct (2 <? m); lia.
Qed.

(** The date of a moment. *)
Lemma moment_date t : us_per_day <= t ->
  exists y m d, ord2ymd (t / us_per_day) = (y, m, d) /\ is_date y m d /\ ymd2ord y m d = t / us_per_day /\ year_of t = y.
Proof.
  intros Ht. assert (1 <= t / us_per_day) by (apply Z.div_le_lower_bound; [done|lia]). pose proof (ord2ymd_spec (t / us_per_day) ltac:(done)) as Hs.
  unfold year_of. destruct (ord2ymd (t / us_per_day)) as [[y m] d] eqn:E. destruct Hs as [Hd Heq]. by exists y, m, d.
Qed.
Lemma representable_spec t : representable t = true <-> us_per_day <= t < (max_ordinal + 1) * us_per_day.
Proof. unfold representable. lia. Qed.
Lemma year_range t : representable t = true -> 1 <= year_of t <= 9999.
Proof.
  intros Hr%representable_spec. unfold year_of. pose proof (ord2ymd_year (t / us_per_day)) as Hy.
  destruct (ord2ymd (t / us_per_day)) as [[y m] d]. apply Hy. split; [apply Z.div_le_lower_bound; [done|lia]|].
  assert (t / us_per_day < max_ordinal + 1) by (apply Z.div_lt_upper_bound; [done|lia]). lia.
Qed.
Lemma with_year_self t : representable t = true -> _with_year t (year_of t) = Some t.
Proof.
  intros Hr. pose proof (year_range t Hr) as Hy. apply representable_spec in Hr.
  destruct (moment_date t ltac:(lia)) as (y & m & d & Ho & [Hm Hd] & Heq & Hyear). unfold _with_year. rewrite Hyear in *. rewrite Ho.
  destruct (Z.leb_spec 1 y); [|lia]. destruct (Z.leb_spec y 9999); [|lia]. destruct (Z.leb_spec d (days_in_month y m)); [|lia]. cbn.
  f_equal. rewrite Heq. pose proof (Z.div_mod t us_per_day ltac:(done)). lia.
Qed.
(** What a moment is in another year. *)
Lemma with_year_spec t y c : us_per_day <= t -> _with_year t y = Some c ->
  us_per_day <= c /\ year_of c = y /\ (forall y', _with_year c y' = _with_year t y') /\ (year_of t < y -> t + days 365 <= c).
Proof.
  intros Ht. destruct (moment_date t Ht) as (y0 & m & d & Ho & Hd0 & Heq & Hyear). unfold _with_year at 1. rewrite Ho.
  destruct (_ && (d <=? days_in_month y m)) eqn:E; [|done]. intros Hc%Some_inj.
  assert (Hy : 1 <= y <= 9999) by lia. assert (Hd : is_date y m d) by (unfold is_date in *; lia).
  pose proof (Z.mod_pos_bound t us_per_day ltac:(done)) as Hmod.
  assert (Hdiv : c / us_per_day = ymd2ord y m d) by (subst c; rewrite Z.div_add_l, Z.div_small by (done || lia); lia).
  assert (Hcm : c mod us_per_day = t mod us_per_day) by (subst c; rewrite Z.add_comm, Z.mod_add by done; apply Z.mod_small; lia).
  assert (Hord : ord2ymd (c / us_per_day) = (y, m, d)) by (rewrite Hdiv; apply ord2ymd_ymd2ord; [lia|done]).
  split; [|split; [|split]].
  - pose proof (ymd2ord_pos y m d ltac:(lia) Hd). subst c. unfold us_per_day in *. lia.
  - unfold year_of. by rewrite Hord.
  - intros y'. unfold _with_year. by rewrite Hord, Ho, Hcm.
  - rewrite Hyear. intros Hlt. pose proof (anniversary y0 y m d Hlt Hd0 Hd). pose proof (Z.div_mod t us_per_day ltac:(done)).
    unfold days. subst c. unfold us_per_day in *. lia.
Qed.

(** * The year of a line in its file *)
(** The search ends, at the latest year that is not too late. *)
Lemma year_found local limit year found c fuel : _with_year local found = Some c -> c <= limit ->
  (forall y, found < y <= year -> forall c', _with_year local y = Some c' -> limit < c') -> _MIN_YEAR <= found -> found <= year ->
  (Z.to_nat (year - _MIN_YEAR) < fuel)%nat -> while fuel (year_step local limit) year = Ok (found, Some c).
Proof.
  intros Hc Hle Hlate Hmin. revert year Hlate. induction fuel as [|fuel IH]; intros year Hlate Hyear Hfuel; [lia|]. rewrite while_unfold. unfold year_step.
  destruct (Z.eq_dec year found) as [->|Hne].
  - rewrite Hc. destruct (Z.ltb_spec limit c); [lia|done].
  - assert (Hl : (match _with_year local year with None => true | Some c => limit <? c end) = true).
    { destruct (_with_year local year) as [c'|] eqn:E; [|done]. specialize (Hlate year ltac:(lia) c' E). lia. }
    rewrite Hl. destruct (Z.ltb_spec _MIN_YEAR year); [|lia]. apply IH; [|lia|lia]. intros y Hy. apply Hlate. lia.
Qed.

(** Times of consecutive lines: at most a week back, less than 358 days on, and not
    back across a New Year. *)
Definition follows (older newer : datetime) : Prop :=
  year_of older <= year_of newer /\ older <= newer + _OUT_OF_ORDER_TOLERANCE /\ newer + _OUT_OF_ORDER_TOLERANCE < older + days 365.
(** The last line, with the time of the file. *)
Definition ends_before (last_ reference : datetime) : Prop :=
  year_of last_ <= year_of reference /\ last_ <= reference + days 1 /\ reference + days 1 < last_ + days 365.
Definition possible (t : datetime) : Prop := representable t = true /\ _MIN_YEAR <= year_of t /\ representable (t + _OUT_OF_ORDER_TOLERANCE) = true.
(** The line shows the time without its year. *)
Definition shows (local t : datetime) : Prop := us_per_day <= t /\ exists y, _with_year t y = Some local.

Lemma shows_year local t y : shows local t -> _with_year local y = _with_year t y.
Proof. intros (Ht & y0 & Hl). by apply with_year_spec in Hl as (_ & _ & H & _). Qed.
Lemma line_found local t limit year : shows local t -> possible t -> t <= limit -> limit < t + days 365 -> year_of t <= year ->
  while (S (Z.to_nat (year - _MIN_YEAR))) (year_step local limit) year = Ok (year_of t, Some t).
Proof.
  intros Hs (Hr & Hmin & _) Hle Hlt Hy. apply year_found; [|done| |done|done|lia].
  - rewrite (shows_year local t) by done. by apply with_year_self.
  - intros y Hyy c' Hc'. rewrite (shows_year local t) in Hc' by done. apply representable_spec in Hr.
    apply with_year_spec in Hc' as (_ & _ & _ & Hl); [|lia]. specialize (Hl ltac:(lia)). lia.
Qed.
Lemma sorted_snoc {A} (R : A -> A -> Prop) l x : Sorted R (l ++ [x]) -> Sorted R l /\ (forall y, last l = Some y -> R y x).
Proof.
  induction l as [|a l IH]; intros Hs; [split; [constructor|done]|]. cbn [app] in Hs. apply Sorted_inv in Hs as [Hs Hh]. apply IH in Hs as [Hs Hl].
  split.
  - constructor; [done|]. destruct l as [|b l]; [constructor|]. constructor. by apply HdRel_inv in Hh.
  - destruct l as [|b l]; [|exact Hl]. intros y [= ->]. by apply HdRel_inv in Hh.
Qed.
Lemma add_possible t : possible t -> add t _OUT_OF_ORDER_TOLERANCE = Ok (t + _OUT_OF_ORDER_TOLERANCE).
Proof. intros (_ & _ & Hr). unfold add. by rewrite Hr. Qed.

Lemma walk_after reference locals_ ts newer : Sorted follows ts -> Forall2 shows locals_ ts -> Forall possible ts -> possible newer ->
  (forall t, last ts = Some t -> follows t newer) ->
  walk_back reference (rev locals_) (year_of newer) (Some newer) = Ok (rev (map year_of ts)).
Proof.
  revert locals_ newer. induction ts as [|t ts IH] using rev_ind; intros locals_ newer Hs Hf Hp Hn Hl.
  { apply Forall2_nil_inv_r in Hf as ->. done. }
  apply Forall2_app_inv_r in Hf as (ls & l & Hls & Hll & ->). apply Forall2_cons_inv_r in Hll as (l' & l'' & Hlt & Hnil & ->).
  apply Forall2_nil_inv_r in Hnil as ->. apply Forall_app in Hp as [Hp Hpt]. apply Forall_cons in Hpt as [Hpt _].
  apply sorted_snoc in Hs as [Hs Hlast]. destruct (Hl t ltac:(by rewrite last_snoc)) as (Hy & Hle & Hlt').
  rewrite rev_app_distr, map_app, rev_app_distr. cbn [rev app walk_back map]. rewrite add_possible by done. cbn [mbind result_bind].
  rewrite (line_found l' t) by done. cbn [mbind result_bind]. by rewrite (IH ls t).
Qed.
(** The years of the lines in their file. *)
Lemma years_in_file reference locals_ ts : Sorted follows ts -> Forall2 shows locals_ ts -> Forall possible ts ->
  representable (reference + days 1) = true -> (forall t, last ts = Some t -> ends_before t reference) ->
  _years_by_file_order locals_ reference = Ok (map year_of ts).
Proof.
  intros Hs Hf Hp Hr Hl. unfold _years_by_file_order. destruct ts as [|t ts _] using rev_ind.
  { apply Forall2_nil_inv_r in Hf as ->. done. }
  apply Forall2_app_inv_r in Hf as (ls & l & Hls & Hll & ->). apply Forall2_cons_inv_r in Hll as (l' & l'' & Hlt & Hnil & ->).
  apply Forall2_nil_inv_r in Hnil as ->. apply Forall_app in Hp as [Hp Hpt]. apply Forall_cons in Hpt as [Hpt _].
  apply sorted_snoc in Hs as [Hs Hlast]. destruct (Hl t ltac:(by rewrite last_snoc)) as (Hy & Hle & Hlt').
  rewrite rev_app_distr. cbn [rev app walk_back]. unfold add. rewrite Hr. cbn [mbind result_bind]. rewrite (line_found l' t) by done. cbn [mbind result_bind].
  rewrite (walk_after reference ls ts t) by done. cbn [mbind result_bind rev]. by rewrite rev_involutive, map_app.
Qed.

(** * Uptime *)
(** Intervals in order, each over before the next begins; only the last may be open. *)
Fixpoint in_order (l : list (datetime * option datetime)) : Prop :=
  match l with
  | [] => True
  | (start, None) :: l' => l' = []
  | (start, Some end_) :: l' => start <= end_ /\ (forall next, head l' = Some next -> end_ <= fst next) /\ in_order l'
  end.
Definition inside (moment : datetime) (i : datetime * option datetime) : Prop :=
  fst i <= moment + _UPTIME_SLACK /\ match snd i with None => True | Some end_ => moment <= end_ + _UPTIME_SLACK end.

Lemma in_order_tail i l : in_order (i :: l) -> in_order l.
Proof. destruct i as [start [end_|]]; cbn; [tauto|by intros ->]. Qed.
Lemma in_order_starts l : in_order l -> StronglySorted Z.le (map fst l).
Proof.
  induction l as [|[start o] l IH]; intros Hl; [constructor|]. pose proof (IH (in_order_tail _ _ Hl)) as Hs. cbn [map fst]. constructor; [done|].
  destruct o as [end_|]; cbn in Hl; [|subst l; constructor]. destruct Hl as (Hse & Hnext & _).
  destruct l as [|[start' o'] l]; [constructor|]. specialize (Hnext _ eq_refl). cbn [map fst] in *. constructor; [lia|].
  apply StronglySorted_inv in Hs as [_ Hs]. eapply Forall_impl; [exact Hs|]. cbn. lia.
Qed.
(** An interval that is closed is over when a later one begins. *)
Lemma in_order_later l i j x y : in_order l -> (i < j)%nat -> l !! i = Some x -> l !! j = Some y ->
  exists end_, snd x = Some end_ /\ fst x <= end_ /\ end_ <= fst y.
Proof.
  revert i j x. induction l as [|[start o] l IH]; intros [|i] [|j] x Hl Hij Hi Hj; try done; try lia.
  - injection Hi as <-. cbn in Hj. destruct o as [end_|]; cbn in Hl; [|by subst l]. destruct Hl as (Hse & Hnext & Hl).
    exists end_. split; [done|]. split; [done|]. destruct l as [|n l]; [done|]. specialize (Hnext n eq_refl).
    destruct j as [|j]; [injection Hj as ->; exact Hnext|]. destruct (IH 0%nat (S j) n Hl ltac:(lia) eq_refl Hj) as (e & _ & He & He'). cbn in He. lia.
  - eapply IH; [exact (in_order_tail _ _ Hl)| |exact Hi|exact Hj]. lia.
Qed.

Lemma in_order_closed l i start end_ : in_order l -> l !! i = Some (start, Some end_) -> start <= end_.
Proof.
  revert i. induction l as [|[start' o] l IH]; intros [|i] Hl Hi; try done.
  - injection Hi as -> ->. by destruct Hl.
  - eapply IH; [exact (in_order_tail _ _ Hl)|exact Hi].
Qed.
Lemma add_Ok t d u : add t d = Ok u -> u = t + d.
Proof. unfold add. destruct (representable _); [|done]. by intros [= <-]. Qed.
Lemma running_iff clock moment r : in_order (uptime clock) -> running_at clock moment = Ok r ->
  (r = true <-> exists i, i ∈ uptime clock /\ inside moment i).
Proof.
  intros Hl. unfold running_at. destruct (uptime clock) as [|i0 l0] eqn:El; [intros [= <-]; split; [done|intros (i & Hi & _); by apply elem_of_nil in Hi]|].
  rewrite <- El in *. clear El. intros (late & ->%add_Ok & Hr)%bind_Ok. revert Hr.
  destruct (Sort.bisect_right_spec (map fst (uptime clock)) (moment + _UPTIME_SLACK) (in_order_starts _ Hl)) as (Hle & Hbefore & Hafter).
  assert (Hout : forall k i, (Sort.bisect_right (map fst (uptime clock)) (moment + _UPTIME_SLACK) <= k)%nat -> uptime clock !! k = Some i -> ~ inside moment i).
  { intros k i Hk Hi [Hin _]. specialize (Hafter k (fst i) Hk ltac:(by rewrite list_lookup_fmap, Hi)). lia. }
  destruct (Sort.bisect_right _ _) as [|index].
  { intros [= <-]. split; [done|]. intros (i & (k & Hk)%list_elem_of_lookup & Hin). exfalso. by apply (Hout k i ltac:(lia) Hk). }
  rewrite length_map in Hle. destruct (lookup_lt_is_Some_2 (uptime clock) index ltac:(lia)) as [[start o] Hindex]. rewrite Hindex.
  assert (Hstart : start <= moment + _UPTIME_SLACK) by (apply (Hbefore index start); [lia|by rewrite list_lookup_fmap, Hindex]).
  destruct o as [end_|].
  - intros (e' & ->%add_Ok & [= <-])%bind_Ok. rewrite Z.leb_le. split.
    + intros He. exists (start, Some end_). split; [by eapply list_elem_of_lookup_2|done].
    + intros (i & (k & Hk)%list_elem_of_lookup & Hin). destruct (Nat.lt_trichotomy k index) as [Hlt|[->|Hgt]].
      * destruct (in_order_later _ _ _ _ _ Hl Hlt Hk Hindex) as (e & He & _ & Hes). destruct Hin as [_ Hin]. rewrite He in Hin. cbn in Hes.
        pose proof (in_order_closed _ _ _ _ Hl Hindex). lia.
      * rewrite Hindex in Hk. injection Hk as <-. by destruct Hin.
      * exfalso. by apply (Hout k i ltac:(lia) Hk).
  - intros [= <-]. split; [|done]. intros _. exists (start, None). split; [by eapply list_elem_of_lookup_2|done].
Qed.

(** * The intervals of the records *)
Definition ended_by (m : datetime) (i : datetime * option datetime) : Prop := exists e, snd i = Some e /\ e <= m.
Lemma in_order_snoc l start o : in_order l -> Forall (ended_by start) l -> match o with Some e => start <= e | None => True end ->
  in_order (l ++ [(start, o)]).
Proof.
  intros Hl Hf Ho. induction l as [|[s o'] l IH]; [by destruct o|]. apply Forall_cons in Hf as [(e & He & Hes) Hf]. cbn in He. subst o'.
  destruct Hl as (Hse & Hnext & Hl). cbn [app in_order]. split; [done|]. split; [|by apply IH].
  intros next Hn. destruct l as [|n l]; [injection Hn as <-; done|]. injection Hn as <-. by apply Hnext.
Qed.
Lemma in_order_init l x : in_order (l ++ [x]) -> in_order l /\ Forall (ended_by (fst x)) l /\ match snd x with Some e => fst x <= e | None => True end.
Proof.
  intros Hl. split; [|split].
  - induction l as [|[s [e|]] l IH]; [done| |]; cbn [app in_order] in Hl.
    + destruct Hl as (Hse & Hnext & Hl). split; [done|]. split; [|by apply IH]. intros n Hn. destruct l as [|n' l]; [done|]. by apply Hnext.
    + by destruct l.
  - apply Forall_lookup. intros i y Hi. pose proof (lookup_lt_Some _ _ _ Hi) as Hlt.
    destruct (in_order_later (l ++ [x]) i (length l) y x Hl Hlt) as (e & He & _ & Hex).
    + by rewrite lookup_app_l.
    + by apply list_lookup_middle.
    + by exists e.
  - destruct x as [start [e|]]; [|done]. apply (in_order_closed (l ++ [(start, Some e)]) (length l)); [done|by apply list_lookup_middle].
Qed.
(** Nothing in the list is after [m]. *)
Definition until (m : datetime) (i : datetime * option datetime) : Prop := fst i <= m /\ match snd i with Some e => e <= m | None => True end.
Lemma close_last_snoc m l start : close_last m (l ++ [(start, None)]) = l ++ [(start, Some m)].
Proof. unfold close_last. by rewrite last_snoc, removelast_last. Qed.
Lemma close_last_closed m l start e : close_last m (l ++ [(start, Some e)]) = l ++ [(start, Some e)].
Proof. unfold close_last. by rewrite last_snoc. Qed.
Lemma close_in_order m l : in_order l -> (forall start, last l = Some (start, None) -> start <= m) -> in_order (close_last m l).
Proof.
  intros Hl Hm. destruct l as [|[start [e|]] l _] using rev_ind; [done|by rewrite close_last_closed|]. rewrite close_last_snoc.
  apply in_order_init in Hl as (Hl & Hf & _). apply in_order_snoc; [done|done|]. apply Hm. by rewrite last_snoc.
Qed.
Lemma close_ended m l : in_order l -> Forall (until m) l -> Forall (ended_by m) (close_last m l).
Proof.
  intros Hl Hf. destruct l as [|[start o] l _] using rev_ind; [constructor|]. apply in_order_init in Hl as (Hl & He & _).
  apply Forall_app in Hf as [Hf Hx]. apply Forall_cons in Hx as [[Hs Ho] _]. cbn in Hs, He.
  assert (Hl' : Forall (ended_by m) l) by (eapply Forall_impl; [exact He|]; intros i (e & Hie & Hle); exists e; split; [done|lia]).
  destruct o as [e|]; [rewrite close_last_closed|rewrite close_last_snoc]; apply Forall_app; (split; [done|]); repeat constructor; by eexists.
Qed.
Lemma interval_step_ok intervals e m : in_order intervals -> Forall (until m) intervals -> m <= fst e ->
  in_order (interval_step intervals e) /\ Forall (until (fst e)) (interval_step intervals e).
Proof.
  destruct e as [t a]. cbn [fst]. intros Hl Hf Hm.
  assert (Hf' : Forall (until t) intervals).
  { eapply Forall_impl; [exact Hf|]. intros [s o] [Hs Ho]. cbn in *. split; [cbn; lia|]. destruct o; cbn in *; lia. }
  assert (Hc : in_order (close_last t intervals)).
  { apply close_in_order; [done|]. intros start Hlast. apply last_Some in Hlast as [l ->]. apply Forall_app in Hf' as [_ Hx]. by apply Forall_cons in Hx as [[Hs _] _]. }
  pose proof (close_ended t intervals Hl Hf') as He.
  assert (Hu : Forall (until t) (close_last t intervals)).
  { apply Forall_lookup. intros i [s o] Hi. rewrite Forall_lookup in He. destruct (He i _ Hi) as (e & Ho & Hle). cbn in Ho. subst o.
    pose proof (in_order_closed _ _ _ _ Hc Hi). split; cbn; lia. }
  destruct a; cbn [interval_step]; [|done]. split.
  - by apply in_order_snoc.
  - apply Forall_app. split; [done|]. repeat constructor. cbn. lia.
Qed.
Lemma intervals_in_order events intervals m : StronglySorted (Sort.le_key event_key) events -> in_order intervals -> Forall (until m) intervals ->
  Forall (fun e => m <= fst e) events -> in_order (fold_left interval_step events intervals).
Proof.
  intros Hs. revert intervals m. induction Hs as [|e events Hs IH He]; intros intervals m Hl Hf Hm; [done|]. cbn [fold_left].
  apply Forall_cons in Hm as [Hm _]. destruct (interval_step_ok intervals e m Hl Hf Hm) as [Hl' Hf'].
  apply (IH _ (fst e)); [done|done|]. eapply Forall_impl; [exact He|]. intros e' Hk. unfold Sort.le_key, event_key in Hk.
  destruct (snd e), (snd e'); lia.
Qed.
Lemma uptime_in_order events last_seen l : uptime_of events last_seen = Ok l -> in_order l.
Proof.
  unfold uptime_of. set (sorted := Sort.sort_by event_key events).
  assert (Hl : in_order (fold_left interval_step sorted [])).
  { pose proof (Sort.sort_by_sorted event_key events) as Hs. fold sorted in Hs. destruct sorted as [|e rest]; [done|].
    apply (intervals_in_order _ _ (fst e) Hs); [done|constructor|]. constructor; [lia|]. apply StronglySorted_inv in Hs as [_ Hs].
    eapply Forall_impl; [exact Hs|]. intros e' Hk. unfold Sort.le_key, event_key in Hk. destruct (snd e), (snd e'); lia. }
  destruct (last (fold_left interval_step sorted [])) as [[start [e|]]|] eqn:El; [by intros [= <-]| |by intros [= <-]].
  destruct last_seen as [seen|]; [|by intros [= <-]]. intros (end_ & ->%add_Ok & [= <-])%bind_Ok. apply close_in_order; [done|].
  intros start' Hs. rewrite Hs in El. injection El as ->. unfold days, us_per_day. lia.
Qed.

(** * The year that is chosen *)
(** The host was running at the time of the line in that year. *)
Definition runs_in (clock : HostClock) (local year : Z) : Prop :=
  exists candidate utc, _with_year local year = Some candidate /\ _to_utc candidate (zone clock) = Ok utc /\ running_at clock utc = Ok true.
Lemma fitting_years_spec clock local years fitting : fitting_years clock local years = Ok fitting ->
  (StronglySorted Z.lt years -> StronglySorted Z.lt fitting) /\ forall y, y ∈ fitting <-> y ∈ years /\ runs_in clock local y.
Proof.
  revert fitting. induction years as [|year years IH]; intros fitting; cbn [fitting_years].
  { intros [= <-]. split; [done|]. intros y. rewrite elem_of_nil. tauto. }
  destruct (_with_year local year) as [c|] eqn:Ec.
  - intros (utc & Hu & (running & Hr & (rest & Hrest & [= <-])%bind_Ok)%bind_Ok)%bind_Ok. destruct (IH rest Hrest) as [Hsort Hin].
    assert (Hruns : runs_in clock local year <-> running = true).
    { split; [intros (c' & u & Hc' & Hu' & Hrun); congruence|intros ->; by exists c, utc]. }
    destruct running.
    + split; [|intros y; rewrite !elem_of_cons, Hin; naive_solver]. intros [Hs Hy]%StronglySorted_inv. constructor; [by apply Hsort|].
      apply Forall_forall. intros y [Hyin _]%Hin. rewrite Forall_forall in Hy. by apply Hy.
    + split; [intros [Hs _]%StronglySorted_inv; by apply Hsort|]. intros y. rewrite Hin, elem_of_cons. naive_solver.
  - intros Hf. destruct (IH fitting Hf) as [Hsort Hin]. split; [intros [Hs _]%StronglySorted_inv; by apply Hsort|].
    intros y. rewrite Hin, elem_of_cons. split; [naive_solver|]. intros [[->|Hyin] Hr]; [|done]. destruct Hr as (c & u & Hc & _). congruence.
Qed.
Lemma sorted_distinct l : StronglySorted Z.le l -> NoDup l -> StronglySorted Z.lt l.
Proof.
  induction 1 as [|x l Hl IH Hx]; intros Hn; [constructor|]. apply NoDup_cons in Hn as [Hx' Hn]. constructor; [by apply IH|].
  rewrite Forall_forall in Hx. apply Forall_forall. intros y Hy. specialize (Hx y Hy). assert (x <> y) by (by intros ->). lia.
Qed.
Lemma candidates_sorted clock d : StronglySorted Z.lt (candidate_years clock d).
Proof.
  unfold candidate_years. apply sorted_distinct.
  - exact (Sort.sort_by_sorted id _).
  - rewrite Sort.sort_by_perm. apply NoDup_remove_dups.
Qed.
Lemma candidates_elem clock d y : y ∈ candidate_years clock d <-> y = d \/ y ∈ boot_years clock.
Proof. unfold candidate_years. rewrite Sort.sort_by_perm, elem_of_remove_dups, elem_of_cons. done. Qed.
Lemma sorted_last_max l x : StronglySorted Z.lt l -> last l = Some x -> x ∈ l /\ forall y, y ∈ l -> y <= x.
Proof.
  destruct l as [|z l _] using rev_ind; [done|]. rewrite last_snoc. intros Hs [= ->]. split; [apply elem_of_app; right; by left|].
  intros y [Hy| ->%list_elem_of_singleton]%elem_of_app; [|done]. induction l as [|a l IH]; [by apply elem_of_nil in Hy|]. cbn [app] in Hs.
  apply StronglySorted_inv in Hs as [Hs Ha]. apply elem_of_cons in Hy as [->|Hy]; [|by apply IH]. apply Forall_app in Ha as [_ Ha].
  apply Forall_cons in Ha as [Ha _]. lia.
Qed.
(** The default year when the host was running then; otherwise the latest in which it
    was; the default year again when it was in none. *)
Lemma chosen_year_spec clock local d y : boot_years clock <> [] -> chosen_year clock local d = Ok y ->
  (runs_in clock local d /\ y = d) \/
  (~ runs_in clock local d /\ y ∈ boot_years clock /\ runs_in clock local y /\
     forall y', y' ∈ boot_years clock -> runs_in clock local y' -> y' <= y) \/
  (y = d /\ ~ runs_in clock local d /\ forall y', y' ∈ boot_years clock -> ~ runs_in clock local y').
Proof.
  intros Hne. unfold chosen_year. destruct (boot_years clock) as [|b bs] eqn:Eb; [done|]. rewrite <- Eb in *.
  intros (fitting & Hf & [= <-])%bind_Ok. apply fitting_years_spec in Hf as [Hsort Hin]. specialize (Hsort (candidates_sorted clock d)).
  unfold choose_year. destruct (last fitting) as [latest|] eqn:El.
  - apply sorted_last_max in El as [Hlatest Hmax]; [|done]. case_bool_decide as Hd.
    + left. split; [|done]. by apply Hin in Hd as [_ ?].
    + right. left. assert (Hnd : ~ runs_in clock local d) by (intros Hr; apply Hd, Hin; split; [|done]; apply candidates_elem; by left).
      pose proof (proj1 (Hin latest) Hlatest) as [Hc Hr]. apply candidates_elem in Hc as [->|Hc]; [done|].
      repeat (split; [done|]). intros y' Hy' Hr'. apply Hmax, Hin. split; [|done]. apply candidates_elem. by right.
  - right. right. apply last_None in El as ->. split; [done|]. split.
    + intros Hr. eapply elem_of_nil, Hin. split; [|exact Hr]. apply candidates_elem. by left.
    + intros y' Hy' Hr. eapply elem_of_nil, Hin. split; [|exact Hr]. apply candidates_elem. by right.
Qed.

(** * Nothing overflows *)
Lemma year_bounds t : us_per_day <= t -> ymd2ord (year_of t) 1 1 <= t / us_per_day <= ymd2ord (year_of t) 12 31.
Proof.
  intros Ht. destruct (moment_date t Ht) as (y & m & d & _ & Hd & Heq & ->). rewrite <- Heq. pose proof (days_in_month_max y m).
  assert (Hfirst : is_date y 1 1) by (split; [lia|]; change (days_in_month y 1) with 31; lia).
  assert (Hlast : is_date y 12 31) by (split; [lia|]; change (days_in_month y 12) with 31; lia). unfold is_date in Hd. split.
  - destruct (Z.eq_dec m 1) as [->|]; [destruct (Z.eq_dec d 1) as [->|]; [lia|]|]; apply Z.lt_le_incl, ymd2ord_lt; unfold date_lt; unfold is_date in *; lia.
  - destruct (Z.eq_dec m 12) as [->|]; [destruct (Z.eq_dec d 31) as [->|]; [lia|]|]; apply Z.lt_le_incl, ymd2ord_lt; unfold date_lt; unfold is_date in *; lia.
Qed.
(** Years whose moments can be moved by a day and stay dates. *)
Definition moderate (year : Z) : Prop := 2 <= year <= 9998.
Lemma moderate_bounds t : us_per_day <= t -> moderate (year_of t) -> 366 * us_per_day <= t < (max_ordinal - 364) * us_per_day.
Proof.
  intros Ht [H2 H9]. pose proof (year_bounds t Ht) as [Hl Hu]. pose proof (Z.div_mod t us_per_day ltac:(done)) as Hdm.
  pose proof (Z.mod_pos_bound t us_per_day ltac:(done)).
  assert (366 <= ymd2ord (year_of t) 1 1).
  { destruct (Z.eq_dec (year_of t) 2) as [->|]; [done|]. apply (Z.le_trans _ (ymd2ord 2 1 1)); [done|]. apply Z.lt_le_incl, ymd2ord_lt; [by vm_compute| |left; lia].
    split; [lia|]. change (days_in_month (year_of t) 1) with 31. lia. }
  assert (ymd2ord (year_of t) 12 31 <= max_ordinal - 365).
  { destruct (Z.eq_dec (year_of t) 9998) as [->|]; [done|]. apply (Z.le_trans _ (ymd2ord 9998 12 31)); [|done].
    apply Z.lt_le_incl, ymd2ord_lt; [|by vm_compute|left; lia]. split; [lia|]. change (days_in_month (year_of t) 12) with 31. lia. }
  unfold us_per_day in *. lia.
Qed.
(** The offset of a zone is less than a day; the boots and ends of an uptime are not at the
    end of time. *)
Definition sound_clock (clock : HostClock) : Prop :=
  (forall z t, zone clock = Some z -> Z.abs (utcoffset z t) < us_per_day) /\
  Forall (fun i => match snd i with Some end_ => representable (end_ + _UPTIME_SLACK) = true | None => True end) (uptime clock) /\
  Forall moderate (boot_years clock).
Lemma to_utc_ok clock t : sound_clock clock -> us_per_day <= t -> moderate (year_of t) ->
  exists utc, _to_utc t (zone clock) = Ok utc /\ representable (utc + _UPTIME_SLACK) = true.
Proof.
  intros (Hz & _ & _) Ht Hm. apply moderate_bounds in Hm as Hb; [|done]. unfold _to_utc. destruct (zone clock) as [z|].
  - specialize (Hz z t eq_refl). unfold add. exists (t - utcoffset z t).
    assert (Hr : representable (t + - utcoffset z t) = true) by (apply representable_spec; unfold us_per_day, max_ordinal in *; lia). rewrite Hr.
    split; [f_equal; lia|]. apply representable_spec. unfold _UPTIME_SLACK, minutes, us_per_day, max_ordinal in *. lia.
  - exists t. split; [done|]. apply representable_spec. unfold _UPTIME_SLACK, minutes, us_per_day, max_ordinal in *. lia.
Qed.
Lemma running_at_ok clock utc : sound_clock clock -> representable (utc + _UPTIME_SLACK) = true -> exists b : bool, running_at clock utc = Ok b.
Proof.
  intros (_ & He & _) Hr. unfold running_at. destruct (uptime clock) as [|i l] eqn:El; [by eexists|]. rewrite <- El in *. clear El.
  unfold add at 2. rewrite Hr. cbn [mbind result_bind]. destruct (Sort.bisect_right _ _) as [|index]; [by eexists|].
  destruct (uptime clock !! index) as [[start [end_|]]|] eqn:Ei; [|by eexists|by eexists]. rewrite Forall_lookup in He. specialize (He _ _ Ei). cbn in He.
  unfold add. rewrite He. cbn. by eexists.
Qed.
Lemma fitting_years_ok clock local years : sound_clock clock -> us_per_day <= local -> Forall moderate years ->
  exists fitting : list Z, fitting_years clock local years = Ok fitting.
Proof.
  intros Hs Hl. induction 1 as [|year years Hm _ [fitting IH]]; cbn [fitting_years]; [by eexists|].
  destruct (_with_year local year) as [c|] eqn:Ec; [|by eexists]. apply with_year_spec in Ec as (Hc & Hy & _); [|done].
  destruct (to_utc_ok clock c Hs Hc) as (utc & -> & Hr); [by rewrite Hy|]. destruct (running_at_ok clock utc Hs Hr) as [b Hb].
  cbn [mbind result_bind]. rewrite Hb. cbn [mbind result_bind]. rewrite IH. cbn. by eexists.
Qed.
Lemma chosen_year_ok clock local d : sound_clock clock -> us_per_day <= local -> moderate d -> exists y, chosen_year clock local d = Ok y.
Proof.
  intros Hs Hl Hd. unfold chosen_year. destruct (boot_years clock) eqn:Eb; [by eexists|]. clear Eb.
  destruct (fitting_years_ok clock local (candidate_years clock d) Hs Hl) as [fitting ->]; [|cbn; by eexists].
  apply Forall_forall. intros y [->|Hy]%candidates_elem; [done|]. destruct Hs as (_ & _ & Hb). rewrite Forall_forall in Hb. by apply Hb.
Qed.

(** * The rows of a log *)
Section rows.
Variable fromisoformat : str -> option datetime.

(** What a line says that was written at [t] on the clock of the host: nothing else of
    the row is changed, and the year written first does not matter. *)
Definition written_at (r : row) (t : datetime) : Prop :=
  provisional ASSUMED_YEAR r = true /\ exists local, local_of fromisoformat r = Some local /\ shows local t.
Lemma written_year_row r t : written_at r t -> exists local, year_row fromisoformat r = Some local /\ shows local t.
Proof. intros (Hp & local & Hl & Hs). exists local. unfold year_row. by rewrite Hp. Qed.
Lemma written_zone_row clock r t : written_at r t -> zone_row fromisoformat clock r = Ok (r, 0).
Proof.
  intros (Hp & _). unfold zone_row. destruct (zone clock); [|done].
  assert (Hz : provisional ASSUMED_ZONE r = false); [|by rewrite Hz].
  unfold provisional in *. apply andb_true_iff in Hp as [Hp _]. apply bool_decide_eq_true in Hp. rewrite Hp. by rewrite bool_decide_eq_false_2.
Qed.
(** The host was running when the line was written, as far as its records tell. *)
Definition was_running (clock : HostClock) (t : datetime) : Prop := boot_years clock = [] \/ exists utc, _to_utc t (zone clock) = Ok utc /\ running_at clock utc = Ok true.
Definition year_status (clock : HostClock) : str := match zone clock with Some _ => lit "inferred_year_host_timezone" | None => lit "inferred_year" end.
Lemma row_dated clock r local t : sound_clock clock -> shows local t -> possible t -> moderate (year_of t) -> was_running clock t ->
  exists utc, _to_utc t (zone clock) = Ok utc /\ dated clock r local (year_of t) = Ok (set_time utc (year_status clock), 1).
Proof.
  intros Hc Hs (Hr & _) Hm Hrun. assert (Ht : us_per_day <= t) by apply Hs.
  assert (Hself : _with_year local (year_of t) = Some t) by (rewrite (shows_year local t) by done; by apply with_year_self).
  assert (Hl : us_per_day <= local) by (destruct Hs as (_ & y & Hy); by apply with_year_spec in Hy as [? _]).
  destruct (chosen_year_ok clock local (year_of t) Hc Hl Hm) as [chosen Hchosen]. unfold dated. rewrite Hchosen. cbn [mbind result_bind].
  assert (chosen = year_of t) as ->.
  { destruct (boot_years clock) as [|b bs] eqn:Eb; [unfold chosen_year in Hchosen; rewrite Eb in Hchosen; by injection Hchosen|].
    destruct Hrun as [Hb|(utc & Hu & Hrun)]; [congruence|]. assert (Hin : runs_in clock local (year_of t)) by (by exists t, utc).
    apply chosen_year_spec in Hchosen; [naive_solver|by rewrite Eb]. }
  rewrite Hself. destruct (to_utc_ok clock t Hc Ht Hm) as (utc & Hu & _). exists utc. split; [done|]. by rewrite Hu.
Qed.
Lemma rows_dated clock rows ts : sound_clock clock -> Forall2 written_at rows ts -> Forall possible ts -> Forall (fun t => moderate (year_of t)) ts ->
  Forall (was_running clock) ts ->
  exists utcs, Forall2 (fun t utc => _to_utc t (zone clock) = Ok utc) ts utcs /\
    year_rows fromisoformat clock rows (map year_of ts) = Ok (map (fun utc => (set_time utc (year_status clock), 1)) utcs).
Proof.
  intros Hc. induction 1 as [|r t rows ts Hw _ IH]; intros Hp Hm Hrun; [by exists []|].
  apply Forall_cons in Hp as [Hp0 Hp], Hm as [Hm0 Hm], Hrun as [Hrun0 Hrun]. destruct (IH Hp Hm Hrun) as (utcs & Hutcs & Hrows).
  destruct (written_year_row r t Hw) as (local & Hl & Hs). destruct (row_dated clock r local t) as (utc & Hu & Hd); [done..|].
  exists (utc :: utcs). split; [by constructor|]. cbn [year_rows map]. rewrite Hl, Hd. cbn [mbind result_bind]. by rewrite Hrows.
Qed.
Lemma total_ones {A} (f : A -> row) l : total (map (fun x => (f x, 1)) l) = len l.
Proof.
  unfold total, len. rewrite map_map. cbn [snd]. rewrite <- (Z.add_0_l (Z.of_nat _)). generalize 0. induction l as [|x l IH]; intros k; cbn [map fold_left length]; [lia|].
  rewrite IH. lia.
Qed.
Lemma total_zeros (l : list row) : total (map (fun x => (x, 0)) l) = 0.
Proof. unfold total. rewrite map_map. cbn [snd]. induction l as [|x l IH]; [done|]. exact IH. Qed.
Lemma written_rows_zoned clock rows ts : Forall2 written_at rows ts -> mapM_py (zone_row fromisoformat clock) rows = Ok (map (fun r => (r, 0)) rows).
Proof.
  induction 1 as [|r t rows ts Hw _ IH]; [done|]. cbn [mapM_py map]. rewrite (written_zone_row clock r t Hw). cbn [mbind result_bind]. by rewrite IH.
Qed.
Lemma written_rows_shown rows ts : Forall2 written_at rows ts -> Forall2 shows (omap (year_row fromisoformat) rows) ts.
Proof.
  induction 1 as [|r t rows ts Hw _ IH]; [constructor|]. destruct (written_year_row r t Hw) as (local & Hl & Hs). cbn [omap list_omap]. rewrite Hl.
  by constructor.
Qed.

(** C25. Lines that show no year get the times at which they were written, in
    UTC, under these conditions.  From one line to the next the time goes back by
    at most a week and forward by less than 365 days less a week, and never back
    across a New Year ([follows]; see [new_year_disorder] for that case).  The
    last line is at most a day after the time of the file and less than 364 days
    before it, and not of a later year ([ends_before]).  Uptime records, if the
    host has any, show it running at each line.  The years are from [_MIN_YEAR] to
    9998, and without a zone of the host the local time counts as UTC. *)
Theorem log_lines_dated rows ts reference reference_local clock :
  Forall2 written_at rows ts -> Sorted follows ts -> Forall possible ts -> Forall (fun t => moderate (year_of t)) ts -> sound_clock clock ->
  Forall (was_running clock) ts ->
  match zone clock with Some z => fromutc z reference | None => Ok reference end = Ok reference_local ->
  representable (reference_local + days 1) = true -> (forall t, last ts = Some t -> ends_before t reference_local) ->
  exists utcs, Forall2 (fun t utc => _to_utc t (zone clock) = Ok utc) ts utcs /\
    resolve_local_times fromisoformat rows reference clock = Ok (map (fun utc => set_time utc (year_status clock)) utcs, len rows).
Proof.
  intros Hw Hs Hp Hm Hc Hrun Href Hr Hlast. destruct (rows_dated clock rows ts Hc Hw Hp Hm Hrun) as (utcs & Hutcs & Hrows).
  exists utcs. split; [done|]. unfold resolve_local_times. rewrite (written_rows_zoned clock rows ts Hw). cbn [mbind result_bind].
  rewrite map_map. cbn [fst]. rewrite map_id. rewrite total_zeros. pose proof (Forall2_length _ _ _ Hw) as Hlen. pose proof (Forall2_length _ _ _ Hutcs) as Hlen'.
  destruct (forallb _ rows) eqn:Eall.
  - destruct Hw as [|r t rows ts [Hprov _] _]; [|cbn [forallb] in Eall; by rewrite Hprov in Eall]. by destruct utcs.
  - rewrite Href. cbn [mbind result_bind]. rewrite (years_in_file reference_local _ ts) by (done || by apply written_rows_shown). cbn [mbind result_bind].
    rewrite Hrows. cbn [mbind result_bind]. rewrite map_map. cbn [fst]. rewrite total_ones. unfold len. by rewrite Hlen, Hlen'.
Qed.
End rows.

(** C26. The intervals made of boot and shutdown records, in whatever order these come, are in
    order and do not overlap, and the host counts as running exactly within ten
    minutes of one of them. *)
Theorem uptime_intervals events last_seen z intervals moment r :
  uptime_of events last_seen = Ok intervals -> running_at {| zone := z; uptime := intervals |} moment = Ok r ->
  in_order intervals /\ (r = true <-> exists i, i ∈ intervals /\ inside moment i).
Proof. intros Hu%uptime_in_order Hr. split; [done|]. by apply (running_iff {| zone := z; uptime := intervals |} moment). Qed.

(** * The root of the evidence *)
Lemma first_root_spec data_dir f candidates root : first_root data_dir f candidates = Some root ->
  root ∈ candidates /\ _is_outside_evidence data_dir root = false /\ is_dir (root ++ [lit "etc"]) f = true /\ is_dir (root ++ [lit "var"]) f = true.
Proof.
  induction candidates as [|c candidates IH]; cbn [first_root]; [done|]. destruct (_is_outside_evidence data_dir c) eqn:Eo; [done|].
  destruct (_ && _) eqn:Ed.
  - intros [= <-]. apply andb_true_iff in Ed as [? ?]. split; [by left|done].
  - intros (Hin & H)%IH. split; [by right|done].
Qed.
Lemma parents_elem p q : q ∈ parents p <-> exists n, (n < length p)%nat /\ q = take n p.
Proof.
  unfold parents. rewrite list_elem_of_In, in_map_iff. setoid_rewrite <- in_rev. setoid_rewrite in_seq. split.
  - intros (n & <- & Hn). exists n. split; [lia|done].
  - intros (n & Hn & ->). exists n. split; [done|lia].
Qed.

(** The zone and records of a host are only taken from a directory above the log that has
    etc and var, and never from the machine that runs Kairon: not from its root and not from
    a directory that holds Kairon's data. *)
Lemma evidence_root_inside data_dir f p root : _evidence_root data_dir f p = Some root ->
  root <> [] /\ ~ root `prefix_of` data_dir /\ (exists below, below <> [] /\ p = root ++ below) /\
  is_dir (root ++ [lit "etc"]) f = true /\ is_dir (root ++ [lit "var"]) f = true.
Proof.
  intros (Hin & Ho & Hetc & Hvar)%first_root_spec. apply elem_of_take in Hin as (i & Hi & _). apply list_elem_of_lookup_2, parents_elem in Hi as (n & Hn & ->).
  unfold _is_outside_evidence in Ho. apply orb_false_iff in Ho as [Ho Hnp]. apply orb_false_iff in Ho as [Hne Hd].
  apply bool_decide_eq_false in Hne, Hd, Hnp. split; [done|]. split; [|split; [|done]].
  - intros [rest Hrest]. destruct rest as [|x rest]; [by rewrite app_nil_r in Hrest|]. apply Hnp, parents_elem. exists (length (take n p)).
    rewrite Hrest, length_app. split; [cbn; lia|]. by rewrite take_app_length.
  - exists (drop n p). split; [|by rewrite take_drop]. intros Hz. apply (f_equal length) in Hz. rewrite length_drop in Hz. cbn in Hz. lia.
Qed.
End LocalTimeYears.
