(* ===== verification/LocalTimeSamples.v ===== *)
(** Concrete logs: a host in a zone with two boots, and lines out of order around a
    New Year. *)
From S2P Require Import Prelude PyBase PyText PyDates FileSystem LocalTime LocalTimeYears.
Import Bytes Str PyText PyDates FileSystem LocalTime LocalTimeYears.

Module LocalTimeSamples.

Definition at_ (y m d h mi s : Z) : datetime := ymd2ord y m d * us_per_day + (h * 3600 + mi * 60 + s) * 1000000.
(** The digits of [YYYY-MM-DDTHH:MM:SS]. *)
Definition number (s : str) : Z := fold_left (fun n c => 10 * n + (c - 48)) s 0.
Definition read_iso (s : str) : option datetime :=
  if (length s <? 19)%nat then None
  else Some (at_ (number (take 4 s)) (number (take 2 (drop 5 s))) (number (take 2 (drop 8 s)))
                 (number (take 2 (drop 11 s))) (number (take 2 (drop 14 s))) (number (take 2 (drop 17 s)))).

(** Two hours east of UTC; booted in April 2016 for an hour, and again in October 2019. *)
Definition brussels : tzinfo := {| utcoffset := fun _ => 7200000000; fromutc := fun t => add t 7200000000 |}.
Definition records : list (datetime * action) :=
  [(at_ 2019 10 5 9 41 55, system_boot); (at_ 2016 4 3 16 15 16, system_boot); (at_ 2016 4 3 17 9 31, system_shutdown)].
Definition sample_uptime : list (datetime * option datetime) :=
  [(at_ 2016 4 3 16 15 16, Some (at_ 2016 4 3 17 9 31)); (at_ 2019 10 5 9 41 55, Some (at_ 2019 10 6 11 20 59))].
Definition host : HostClock := {| zone := Some brussels; uptime := sample_uptime |}.
Definition line (t : string) : row := {| timestamp := Some (lit t); timestamp_status := Some ASSUMED_YEAR |}.
Definition log : list row := [line "2026-10-05T11:42:10+00:00"; line "2026-10-05T11:42:09+00:00"; line "2026-10-05T13:24:04+00:00"].
Definition log_times : list datetime := [at_ 2019 10 5 11 42 10; at_ 2019 10 5 11 42 9; at_ 2019 10 5 13 24 4].

Example records_read : uptime_of records (Some (at_ 2019 10 5 11 20 59)) = Ok sample_uptime.
Proof. vm_compute. reflexivity. Qed.
Lemma uptime_intervals_witness :
  in_order sample_uptime /\ (true = true <-> exists i, i ∈ sample_uptime /\ inside (at_ 2016 4 3 16 10 0) i).
Proof.
  apply (uptime_intervals records (Some (at_ 2019 10 5 11 20 59)) None sample_uptime (at_ 2016 4 3 16 10 0) true); vm_compute; reflexivity.
Defined.

Lemma log_lines_dated_witness :
  exists utcs, Forall2 (fun t utc => _to_utc t (zone host) = Ok utc) log_times utcs /\
    resolve_local_times read_iso log (at_ 2019 10 6 0 0 0) host = Ok (map (fun utc => set_time utc (year_status host)) utcs, len log).
Proof.
  apply (log_lines_dated read_iso log log_times (at_ 2019 10 6 0 0 0) (at_ 2019 10 6 2 0 0) host).
  - repeat constructor; (eexists; split; [vm_compute; reflexivity|]); (split; [by vm_compute|]); exists 2026; vm_compute; reflexivity.
  - repeat constructor; by vm_compute.
  - repeat constructor; by vm_compute.
  - repeat constructor; by vm_compute.
  - split; [intros z t [= <-]; done|]. split; repeat constructor; by vm_compute.
  - constructor; [|constructor; [|constructor; [|constructor]]]; right; (eexists; split; [vm_compute; reflexivity|vm_compute; reflexivity]).
  - vm_compute. reflexivity.
  - vm_compute. reflexivity.
  - intros t [= <-]. repeat split; by vm_compute.
Defined.
(** The texts of the rows, and a line of 2016 that the time of the file puts in 2019. *)
Example log_read : resolve_local_times read_iso (line "2026-04-03T18:15:13+00:00" :: log) (at_ 2019 10 6 0 0 0) host =
  Ok (map (fun t => {| timestamp := Some (lit t); timestamp_status := Some (lit "inferred_year_host_timezone") |})
        ["2016-04-03T16:15:13+00:00"%string; "2019-10-05T09:42:10+00:00"%string; "2019-10-05T09:42:09+00:00"%string; "2019-10-05T11:24:04+00:00"%string], 4).
Proof. vm_compute. reflexivity. Qed.

Definition evidence : fs :=
  <[[lit "data"] := Dir]> (<[[lit "data"; lit "e1"] := Dir]> (<[[lit "data"; lit "e1"; lit "etc"] := Dir]> (<[[lit "data"; lit "e1"; lit "var"] := Dir]>
  (<[[lit "etc"] := Dir]> (<[[lit "var"] := Dir]> ∅))))).
Lemma evidence_root_inside_witness :
  [lit "data"; lit "e1"] <> [] /\ ~ [lit "data"; lit "e1"] `prefix_of` [lit "data"] /\
  (exists below, below <> [] /\ [lit "data"; lit "e1"; lit "var"; lit "log"; lit "syslog"] = [lit "data"; lit "e1"] ++ below) /\
  is_dir ([lit "data"; lit "e1"] ++ [lit "etc"]) evidence = true /\ is_dir ([lit "data"; lit "e1"] ++ [lit "var"]) evidence = true.
Proof.
  apply (evidence_root_inside [lit "data"] evidence [lit "data"; lit "e1"; lit "var"; lit "log"; lit "syslog"] [lit "data"; lit "e1"]).
  vm_compute. reflexivity.
Defined.

(** Lines out of order around a New Year: a line of 1 January that comes before one of 31
    December is dated a year early, although it is within the tolerance of a week, and
    so are all lines before it.  (The lines are of 30 December 2019, 1 January 2020, 31
    December 2019 and 2 January 2020, in a file of 3 January 2020.) *)
Lemma new_year_disorder :
  _years_by_file_order [at_ 2026 12 30 12 0 0; at_ 2026 1 1 0 0 1; at_ 2026 12 31 23 59 59; at_ 2026 1 2 0 0 0] (at_ 2020 1 3 0 0 0) =
    Ok [2018; 2019; 2019; 2020] /\
  _years_by_file_order [at_ 2026 12 30 12 0 0; at_ 2026 12 31 23 59 59; at_ 2026 1 1 0 0 1; at_ 2026 1 2 0 0 0] (at_ 2020 1 3 0 0 0) =
    Ok [2019; 2019; 2020; 2020].
Proof. split; vm_compute; reflexivity. Qed.
End LocalTimeSamples.
