(* ===== verification/UploadModel.v ===== *)
(** The rows, settings and errors of the chunked uploads, the world their
    requests share, and the steps on it: locks, database sessions and files.
    (services/memory/upload_sessions.py, upload_lifecycle.py, models/memory.py,
    services/upload_locks.py) *)
From S2P Require Import Prelude PyBase FileSystem Handlers.
Import Bytes Str FileSystem Handlers.

Module UploadModel.

(** * Errors *)
Inductive upload_exn : Type :=
  | MemoryUploadSessionError (failure : str)
  | MemoryUploadRegistrationError (failure : str)
  | ChunkedFinalizeSizeMismatch (actual_bytes expected_bytes : Z)
  | ChunkedFinalizeHashMismatch (actual_sha256 expected_sha256 : str)
  | UploadLockBusyError
  | UploadLockUnavailableError
  | IntegrityError
  | ClientDisconnect           (** starlette: the client has gone away *)
  | UploadOs (e : os_error)
  | UploadPy (e : py_exn).
#[export] Instance upload_exn_eq_dec : EqDecision upload_exn.
Proof. solve_decision. Defined.

Definition session_error (failure : string) : upload_exn := MemoryUploadSessionError (lit failure).

(** * Rows *)

(** The [status] column. *)
Inductive upload_status : Type :=
  | created | validating | uploading | verifying | finalizing | registration_pending
  | completed | cancelled | expired | failed | inconsistent.
#[export] Instance upload_status_eq_dec : EqDecision upload_status.
Proof. solve_decision. Defined.

Definition ACTIVE_UPLOAD_SESSION_STATUSES : list upload_status := [created; uploading; verifying; finalizing].
Definition TERMINAL_UPLOAD_SESSION_STATUSES : list upload_status := [completed; cancelled; expired; failed; inconsistent].

Record chunk_meta := { size : Z; chunk_sha256 : str }.
#[export] Instance chunk_meta_eq_dec : EqDecision chunk_meta.
Proof. solve_decision. Defined.

(** [metadata_json], a single column, with the keys that change; the dictionary
    of received chunks is keyed by the chunk index. *)
Record session_metadata := {
  received_chunks : gmap Z chunk_meta;
  active_chunks : gset Z;
  duplicate : option str }.
#[export] Instance session_metadata_rebuild : Rebuild session_metadata := fun m =>
  Build_session_metadata (received_chunks m) (active_chunks m) (duplicate m).
#[export] Instance session_metadata_eq_dec : EqDecision session_metadata.
Proof. solve_decision. Defined.

(** The columns, and the keys of [metadata_json], that are written when the row
    is created and never again. *)
Record upload_plan := {
  id : str;
  case_id : str;
  evidence_id : str;
  expected_bytes : Z;
  expected_sha256 : option str;
  display_name : str;
  source_host : str;
  extension : str;
  staging_name : str;
  canonical_relative_path : path;
  chunk_size_bytes : Z;
  total_chunks : Z;
  upload_mode : str;
  file_fingerprint : option str }.
#[export] Instance upload_plan_eq_dec : EqDecision upload_plan.
Proof. solve_decision. Defined.

Record MemoryUpload := {
  plan : upload_plan;
  status : upload_status;
  bytes_received : Z;
  received_chunk_count : Z;
  sha256 : option str;
  failure_code : option str;
  retryable : bool;
  stage : option str;
  registration_state : option str;
  registration_attempts : Z;
  canonical_preserved : bool;
  metadata_json : session_metadata;
  updated_at : Z;
  expires_at : Z }.
#[export] Instance MemoryUpload_eq_dec : EqDecision MemoryUpload.
Proof. solve_decision. Defined.
#[export] Instance MemoryUpload_rebuild : Rebuild MemoryUpload := fun r =>
  Build_MemoryUpload (plan r) (status r) (bytes_received r) (received_chunk_count r) (sha256 r) (failure_code r)
    (retryable r) (stage r) (registration_state r) (registration_attempts r) (canonical_preserved r) (metadata_json r)
    (updated_at r) (expires_at r).

(** The columns of the evidence table that the uploads read. *)
Inductive evidence_type : Type := memory_dump | other_evidence.
#[export] Instance evidence_type_eq_dec : EqDecision evidence_type.
Proof. solve_decision. Defined.
Record Evidence := {
  e_id : str;
  e_case_id : str;
  e_type : evidence_type;
  e_sha256 : str;
  e_size_bytes : Z;
  e_stored_path : path;
  e_original_filename : str }.

(** * The database

    A table of committed rows by primary key, as the uploads use it. *)
Class Table (T R : Type) := {
  row : T -> str -> option R;
  put : str -> R -> T -> T;
  rows : T -> list R;
  row_put_eq k r t : row (put k r t) k = Some r;
  row_put_ne k k' r t : k' <> k -> row (put k r t) k' = row t k';
  rows_spec t r : r ∈ rows t <-> exists k, row t k = Some r }.

#[export] Program Instance gmap_table R : Table (gmap str R) R := {
  row t k := t !! k;
  put := insert;
  rows t := map snd (map_to_list t) }.
Next Obligation. intros. apply lookup_insert_eq. Qed.
Next Obligation. intros. by apply lookup_insert_ne. Qed.
Next Obligation.
  intros R t r. rewrite list_elem_of_fmap. split.
  - intros ([k r'] & -> & Hin%elem_of_map_to_list). by exists k.
  - intros [k Hk]. exists (k, r). split; [done|]. by apply elem_of_map_to_list.
Qed.

(** An object loaded from a row writes, when its session commits, the columns
    whose values have changed since it was loaded; if there is none, nothing.
    What a write makes of [updated_at] is [stamp]. *)
Definition merge_columns (loaded item current : MemoryUpload) : MemoryUpload :=
  let merge := fun {A} `{EqDecision A} (f : MemoryUpload -> A) => merge_column (f loaded) (f item) (f current) in
  {| plan := plan current;
     status := merge status;
     bytes_received := merge bytes_received;
     received_chunk_count := merge received_chunk_count;
     sha256 := merge sha256;
     failure_code := merge failure_code;
     retryable := merge retryable;
     stage := merge stage;
     registration_state := merge registration_state;
     registration_attempts := merge registration_attempts;
     canonical_preserved := merge canonical_preserved;
     metadata_json := merge metadata_json;
     updated_at := merge updated_at;
     expires_at := merge expires_at |}.

(** * Settings *)
Record Settings := {
  memory_upload_enabled : bool;
  memory_upload_max_bytes : Z;
  memory_max_upload_size : Z;
  disk_image_ingest_enabled : bool;
  backend_max_upload_size : Z;
  memory_upload_extensions : list str;
  memory_upload_case_quota_bytes : Z;
  memory_upload_min_free_space_bytes : Z;
  memory_plugin_output_max_bytes : Z;
  memory_upload_direct_threshold_bytes : Z;
  memory_upload_chunk_size_bytes : Z;
  memory_upload_chunk_size_min_bytes : Z;
  memory_upload_chunk_size_max_bytes : Z;
  memory_upload_session_ttl_seconds : Z;
  memory_upload_cleanup_age_seconds : Z;
  memory_upload_staging_path : path;
  backend_data_dir : path;
  memory_output_root : option path }.

(** [n or default] *)
Definition or_int (n default : Z) : Z := if n =? 0 then default else n.

(** * The world *)
Section world.
Context {U V : Type} `{Table U MemoryUpload} `{Table V Evidence}.

Record world := {
  files : fs;
  uploads : U;
  evidence : V;
  locks : gmap str str;        (** Redis keys with their tokens *)
  redis_up : bool;
  disk_free : path -> Z;       (** [shutil.disk_usage(path).free] *)
  clock : Z;                   (** in seconds *)
  uuids : nat }.
#[global] Instance world_rebuild : Rebuild world := fun w =>
  Build_world (files w) (uploads w) (evidence w) (locks w) (redis_up w) (disk_free w) (clock w) (uuids w).

Abbreviation prog := (prog world upload_exn).

(** [uuid4()]: the texts it gives are its own. *)
Variable uuid_text : nat -> str.
Definition uuid4 : prog str :=
  Step (fun w => w <| uuids := S (uuids w) |>) (fun w => Done (Ok (uuid_text (uuids w)))).

Definition utc_now_naive : prog Z := look clock.

(** One operation on the files. *)
Definition on_files (f : fs -> result os_error fs) : prog unit :=
  attempt (fun w => match f (files w) with
                    | Ok f' => Ok (w <| files := f' |>, tt)
                    | Raise e => Raise (UploadOs e)
                    | OutOfFuel => OutOfFuel
                    end).
Definition read_files {A} (f : fs -> result os_error A) : prog A :=
  attempt (fun w => match f (files w) with
                    | Ok a => Ok (w, a)
                    | Raise e => Raise (UploadOs e)
                    | OutOfFuel => OutOfFuel
                    end).

(** [db.refresh] and [db.get]. *)
Definition get_row (upload_id : str) : prog (option MemoryUpload) := look (fun w => row (uploads w) upload_id).
Definition refresh (upload_id : str) : prog MemoryUpload :=
  attempt (fun w => match row (uploads w) upload_id with
                    | Some item => Ok (w, item)
                    | None => Raise (UploadPy LookupError)
                    end).
(** [onupdate] fills in [updated_at] when the object has not been given another. *)
Definition stamp (now : Z) (loaded item : MemoryUpload) : Z :=
  if decide (updated_at item = updated_at loaded) then now else updated_at item.
(** [db.commit] of an object that was loaded as [loaded]. *)
Definition commit (loaded item : MemoryUpload) : prog unit :=
  update (fun w => match row (uploads w) (id (plan loaded)) with
                   | Some current =>
                       if decide (item = loaded) then w
                       else w <| uploads := put (id (plan loaded))
                                  (merge_columns loaded item current <| updated_at := stamp (clock w) loaded item |>) (uploads w) |>
                   | None => w
                   end).
(** [db.commit] of columns that were not loaded. *)
Definition write_columns (upload_id : str) (f : MemoryUpload -> MemoryUpload) : prog unit :=
  update (fun w => match row (uploads w) upload_id with
                   | Some current =>
                       w <| uploads := put upload_id (f current <| updated_at := stamp (clock w) current (f current) |>) (uploads w) |>
                   | None => w
                   end).

(** * Locks *)

(** [redis_upload_lock] without waiting: [SET key token NX EX ttl], and on the
    way out the script that deletes the key if it still holds the token. *)
Definition acquire (key token : str) : prog unit :=
  attempt (fun w =>
    if negb (redis_up w) then Raise UploadLockUnavailableError
    else match locks w !! key with
         | Some _ => Raise UploadLockBusyError
         | None => Ok (w <| locks := <[key := token]> (locks w) |>, tt)
         end).
Definition release (key token : str) : prog unit :=
  update (fun w => if redis_up w && bool_decide (locks w !! key = Some token)
                   then w <| locks := delete key (locks w) |> else w).
Definition redis_upload_lock {A} (key : str) (body : prog A) : prog A :=
  let* token := uuid4 in
  acquire key token;*
  finally body (release key token).

Definition _redis_upload_lock {A} (key : str) (body : prog A) : prog A :=
  catch (redis_upload_lock key body) (fun e =>
    match e with
    | UploadLockUnavailableError => raise (session_error "MEMORY_UPLOAD_LOCK_UNAVAILABLE")
    | UploadLockBusyError => raise (session_error "MEMORY_UPLOAD_LOCKED")
    | _ => raise e
    end).
End world.
Arguments world U V : clear implicits.
End UploadModel.
