(* ===== verification/UploadShared.v ===== *)
(** services/upload_shared: the classification of a staging directory, the
    assembly of the chunks, the promotion of the assembled file and the order of
    a finalization, with the registry of what follows it. *)
From S2P Require Import Prelude PyBase FileSystem Handlers UploadModel.
Import Bytes Str FileSystem Handlers UploadModel.

Module UploadShared.

(** * chunk_validation.py *)
Inductive integrity_status : Type :=
  | STAGING_HEALTHY | STAGING_MISSING | MISSING_CHUNKS | EXTRA_CHUNKS | SIZE_MISMATCH | HASH_MISMATCH.
#[export] Instance integrity_status_eq_dec : EqDecision integrity_status.
Proof. solve_decision. Defined.

Record integrity := {
  i_status : integrity_status;
  i_resumable : bool;
  i_repairable : bool;
  i_expected_chunks : Z;
  i_db_received_chunks : Z;
  i_disk_chunks : Z;
  missing_db_chunks_on_disk : list Z;
  extra_disk_chunks : list Z;
  size_mismatches : list Z;
  hash_mismatches : list Z }.

Definition sorted_indices (l : list Z) : list Z := Sort.sort_by (fun i => i) l.

Section validation.
Variable sha256_file : bytes -> str.   (** the hexadecimal digest of the content *)

(** The index in the name of a stored chunk. *)
Definition disk_index (f : fs) (entry : path) : option Z :=
  let name := name_of entry in
  if negb (is_file entry f) then None
  else if endswith (lit ".part") name then None
  else if negb (endswith (lit ".chunk") name) then None
  else py_int (hd [] (split_on (code ".") name)).

(** The three lists of the loop over the recorded chunks. *)
Inductive chunk_verdict : Type := chunk_missing | chunk_size_mismatch | chunk_hash_mismatch | chunk_intact.
#[export] Instance chunk_verdict_eq_dec : EqDecision chunk_verdict.
Proof. solve_decision. Defined.
Definition chunk_check (verify_hashes : bool) (chunk_path_fn : Z -> path) (chunk_metadata : gmap Z chunk_meta)
    (f : fs) (index : Z) : chunk_verdict :=
  match f !! chunk_path_fn index, chunk_metadata !! index with
  | Some (File content), Some meta =>
      if negb (size meta =? 0) && negb (len content =? size meta) then chunk_size_mismatch
      else if verify_hashes && negb (bool_decide (chunk_sha256 meta = [])) &&
              negb (bool_decide (sha256_file content = chunk_sha256 meta)) then chunk_hash_mismatch
      else chunk_intact
  | Some (File _), None => chunk_intact
  | _, _ => chunk_missing
  end.

Definition classify_chunk_staging (session_root chunks_dir : path) (chunk_path_fn : Z -> path)
    (expected_chunks db_received_chunk_count : Z) (chunk_metadata : gmap Z chunk_meta) (verify_hashes : bool)
    (f : fs) : integrity :=
  let db_indices := sorted_indices (map fst (map_to_list chunk_metadata)) in
  let gone := fun missing =>
    {| i_status := STAGING_MISSING; i_resumable := false; i_repairable := false; i_expected_chunks := expected_chunks;
       i_db_received_chunks := db_received_chunk_count; i_disk_chunks := 0; missing_db_chunks_on_disk := missing;
       extra_disk_chunks := []; size_mismatches := []; hash_mismatches := [] |} in
  if negb (is_dir session_root f) then gone []
  else if negb (is_dir chunks_dir f) then gone db_indices
  else
    let disk_indices := sorted_indices (omap (disk_index f) (iterdir chunks_dir f)) in
    let those := fun v => filter (fun index => chunk_check verify_hashes chunk_path_fn chunk_metadata f index = v) db_indices in
    let missing := those chunk_missing in
    let sizes := those chunk_size_mismatch in
    let hashes := those chunk_hash_mismatch in
    let extra := sorted_indices (remove_dups (filter (fun i => i ∉ db_indices) disk_indices)) in
    let '(status, resumable, repairable) :=
      match missing, sizes, hashes, extra with
      | _ :: _, _, _, _ => (MISSING_CHUNKS, false, false)
      | [], _ :: _, _, _ => (SIZE_MISMATCH, false, false)
      | [], [], _ :: _, _ => (HASH_MISMATCH, false, false)
      | [], [], [], _ :: _ => (EXTRA_CHUNKS, true, true)
      | [], [], [], [] => (STAGING_HEALTHY, true, true)
      end in
    {| i_status := status; i_resumable := resumable; i_repairable := repairable; i_expected_chunks := expected_chunks;
       i_db_received_chunks := db_received_chunk_count; i_disk_chunks := Z.of_nat (length disk_indices);
       missing_db_chunks_on_disk := missing; extra_disk_chunks := extra; size_mismatches := sizes; hash_mismatches := hashes |}.
End validation.

(** * storage_scan.py *)
Definition directory_size (p : path) (f : fs) : Z :=
  fold_left Z.add (map (fun q => match f !! q with Some (File c) => len c | _ => 0 end) (rglob p f)) 0.

Definition list_orphan_directories (st_mtime : path -> Z) (staging_root : path) (known_names : list str)
    (mtime_before : option Z) (f : fs) : list path :=
  if negb (exists_ staging_root f) then []
  else filter (fun entry =>
    Is_true (is_dir entry f && negb (bool_decide (name_of entry ∈ known_names)) &&
             match mtime_before with Some t => negb (t <? st_mtime entry) | None => true end))
    (iterdir staging_root f).

Section programs.
Context {U V : Type} `{Table U MemoryUpload} `{Table V Evidence}.
Abbreviation prog := (prog (world U V) upload_exn).
Variables (sha256_of : bytes -> str) (device : path -> Z) (getpid : str).

(** * hashing.py

    The content is read and written a block at a time in the code; here each
    chunk is one read and one write. *)
Definition concat_step (dest_path : path) (acc : bytes) (chunk_path : path) : prog bytes :=
  let* blob := read_files (read_bytes chunk_path) in
  on_files (fun f => Ok (append_bytes dest_path blob f));*
  Done (Ok (acc ++ blob)).
Definition concat_and_hash (chunk_paths : list path) (dest_path : path) : prog (Z * str) :=
  on_files (create_file dest_path []);*
  let* written := forP (concat_step dest_path) [] chunk_paths in
  Done (Ok (len written, sha256_of written)).

(** * promotion.py *)
Definition promote_temp (dest : path) : path :=
  parent dest ++ [lit "." ++ name_of dest ++ lit "." ++ getpid ++ lit ".promote-tmp"].

Definition _cross_filesystem_promote (src dest : path) : prog unit :=
  let temp_dest := promote_temp dest in
  catch
    (let* content := read_files (read_bytes src) in
     on_files (create_file temp_dest []);*
     on_files (fun f => Ok (append_bytes temp_dest content f));*
     on_files (replace_file device temp_dest dest))
    (fun e => on_files (unlink temp_dest);* raise e);*
  on_files (unlink src).

Definition atomic_promote (src dest : path) : prog unit :=
  catch (on_files (replace_file device src dest)) (fun e =>
    if bool_decide (e = UploadOs EXDEV) then _cross_filesystem_promote src dest else raise e).

Definition fsync_directory (p : path) : prog unit :=
  read_files (fun f => if is_dir p f then Ok tt else Raise (if exists_ p f then ENOTDIR else ENOENT)).

(** * finalize.py *)
Record ChunkedFinalizeConfig := {
  config_total_chunks : nat;
  chunk_path_fn : nat -> path;
  final_path : path;
  assembly_path : path;
  config_expected_bytes : Z;
  config_expected_sha256 : option str }.

(** The callbacks share what they close over; it is passed along as [S]. *)
Definition run_chunked_finalize {S D R} (config : ChunkedFinalizeConfig) (closure : S)
    (on_verifying : S -> prog S) (find_duplicate : S -> str -> Z -> prog (S * option D)) (on_duplicate : S -> D -> prog S)
    (on_finalizing : S -> Z -> Z -> prog S) (post_promote : path -> prog unit) (register : S -> prog R)
    (cleanup : S -> prog unit) : prog (str * Z * R) :=
  on_files (mkdir (parent (final_path config)));*
  let* closure := on_verifying closure in
  let* (total_bytes, computed_sha256) :=
    concat_and_hash (map (chunk_path_fn config) (seq 0 (config_total_chunks config))) (assembly_path config) in
  guard (negb (total_bytes =? config_expected_bytes config))
    (ChunkedFinalizeSizeMismatch total_bytes (config_expected_bytes config));*
  match config_expected_sha256 config with
  | Some ((_ :: _) as expected) =>
      guard (negb (bool_decide (computed_sha256 = expected))) (ChunkedFinalizeHashMismatch computed_sha256 expected)
  | _ => Done (Ok tt)
  end;*
  let* (closure, duplicate) := find_duplicate closure computed_sha256 total_bytes in
  let* closure := match duplicate with Some d => on_duplicate closure d | None => Done (Ok closure) end in
  let* closure := on_finalizing closure total_bytes (Z.of_nat (config_total_chunks config)) in
  atomic_promote (assembly_path config) (final_path config);*
  post_promote (final_path config);*
  let* registered := register closure in
  cleanup closure;*
  Done (Ok (computed_sha256, total_bytes, registered)).
End programs.

(** * workflow.py *)
Section workflow.
Context {handler : Type}.
Definition register_workflow_handler (name : str) (h : handler) (_HANDLERS : list (str * handler)) : list (str * handler) :=
  Dict.set name h _HANDLERS.
Definition get_workflow_handler (name : str) (_HANDLERS : list (str * handler)) : result upload_exn handler :=
  of_option (UploadPy LookupError) (Dict.get name _HANDLERS).
End workflow.
End UploadShared.
