(* ===== verification/UploadSession.v ===== *)
(** services/memory/upload_sessions.py and the registration of
    upload_lifecycle.py: the requests of a chunked upload session. *)
From S2P Require Import Prelude PyBase PyFloat FileSystem PurePaths Handlers UploadModel UploadShared.
Import Bytes Str PyFloat FileSystem Handlers UploadModel UploadShared.

Module UploadSession.

(** * The chunk plan *)

(** [math.ceil(a / b)] of positive integers: the quotient is rounded to the
    nearest float, 53 bits, ties to even. *)
Definition ceil_true_div (a b : Z) : Z :=
  let s := Z.log2 a - Z.log2 b - 52 in
  let s := if a * 2 ^ Z.max 0 (- s) <? 2 ^ 52 * (b * 2 ^ Z.max 0 s) then s - 1 else s in
  let q := round_div (a * 2 ^ Z.max 0 (- s)) (b * 2 ^ Z.max 0 s) in
  if 0 <=? s then q * 2 ^ s else - (- q / 2 ^ (- s)).

Definition chunk_count (expected_size_bytes chunk_size : Z) : Z :=
  Z.max 1 (ceil_true_div expected_size_bytes chunk_size).
Definition expected_length (p : upload_plan) (chunk_index : Z) : Z :=
  Z.min (chunk_size_bytes p) (expected_bytes p - chunk_index * chunk_size_bytes p).

(** * Names and paths *)

(** The decimal digits of [n], at least eight of them. *)
Definition pad8 (n : Z) : str := let ds := str_of_Z n in repeat (code "0") (8 - length ds) ++ ds.
Definition chunk_name (chunk_index : Z) : str := pad8 chunk_index ++ lit ".chunk".
Definition part_name (chunk_index : Z) (token : str) : str := pad8 chunk_index ++ lit "." ++ token ++ lit ".part".

(** What the callbacks of a finalization close over: the session's object, as
    loaded and as changed since. *)
Abbreviation session := (MemoryUpload * MemoryUpload)%type.

Section sessions.
Context {U V : Type} `{Table U MemoryUpload} `{Table V Evidence}.
Abbreviation prog := (prog (world U V) upload_exn).
Variables (sha256_of : bytes -> str) (device : path -> Z) (getpid : str) (uuid_text : nat -> str).
Variables (py_lower : str -> str) (isalnum : Z -> bool).
Variable settings : Settings.
#[local] Abbreviation uuid4 := (uuid4 uuid_text).
#[local] Abbreviation lock key body := (_redis_upload_lock uuid_text key body).

Definition _session_root (item : MemoryUpload) : path :=
  memory_upload_staging_path settings ++ [staging_name (plan item)].
Definition _chunk_dir (item : MemoryUpload) : path := _session_root item ++ [lit "chunks"].
Definition _chunk_path (item : MemoryUpload) (chunk_index : Z) : path := _chunk_dir item ++ [chunk_name chunk_index].
Definition _canonical_path (item : MemoryUpload) : path :=
  backend_data_dir settings ++ canonical_relative_path (plan item).

(** [Path(filename)]: the last name, and its suffixes. *)
Definition path_name (filename : str) : str := PurePaths.name (PurePaths.Path filename).
Definition suffixes (filename : str) : list str := PurePaths.name_suffixes (path_name filename).
Definition suffix (filename : str) : str := PurePaths.name_suffix (path_name filename).

Definition safe_display_filename (filename : str) : str :=
  let filename := match filename with [] => lit "memory-image" | _ => filename end in
  let name := strip (path_name (map (fun c => if c =? 92 then code "/" else c) filename)) in
  let kept := map (fun c => if isalnum c || one_of (lit "._- ") c then c else code "_") name in
  let name := rstrip (one_of (lit " .")) (lstrip (one_of (lit " .")) kept) in
  match take 180 name with [] => lit "memory-image" | name => name end.

Definition _sanitize_sha256 (value : option str) : result upload_exn (option str) :=
  match py_lower (strip (default [] value)) with
  | [] => Ok None
  | normalized =>
      if negb (length normalized =? 64)%nat || negb (forallb (one_of (lit "0123456789abcdef")) normalized)
      then Raise (session_error "MEMORY_UPLOAD_INVALID_SHA256")
      else Ok (Some normalized)
  end.

(** * Policies per kind of evidence *)
Inductive upload_kind : Type := kind_memory_dump | kind_disk_image | kind_archive.

Definition CANDIDATE_MEMORY_EXTENSIONS : list str :=
  [lit ".raw"; lit ".mem"; lit ".dmp"; lit ".dump"; lit ".bin"; lit ".img"; lit ".vmem"; lit ".lime"].
Definition _allowed_memory_extension (filename : str) : result upload_exn str :=
  let extension := py_lower (suffix filename) in
  if bool_decide (extension ∈ memory_upload_extensions settings) || bool_decide (extension ∈ CANDIDATE_MEMORY_EXTENSIONS)
  then Ok extension else Raise (session_error "MEMORY_UPLOAD_UNSUPPORTED_EXTENSION").

Definition _ARCHIVE_SUFFIX_GROUPS : list (list str) :=
  [[lit ".zip"]; [lit ".ad1"]; [lit ".7z"]; [lit ".rar"]; [lit ".tar"; lit ".gz"]; [lit ".tar"]; [lit ".gz"]; [lit ".xz"]].
Definition _allowed_archive_extension (filename : str) : result upload_exn str :=
  let found := map py_lower (suffixes filename) in
  match filter (fun group => drop (length found - length group) found = group) _ARCHIVE_SUFFIX_GROUPS with
  | group :: _ => Ok (concat group)
  | [] => Raise (session_error "MEMORY_UPLOAD_INVALID_EXTENSION")
  end.

Record ChunkedUploadKindPolicy := {
  is_enabled : bool;
  disabled_error : upload_exn;
  max_bytes : Z;
  validate_extension : str -> result upload_exn str;
  quota : bool }.
Definition _KIND_POLICIES (kind : upload_kind) : ChunkedUploadKindPolicy :=
  match kind with
  | kind_memory_dump =>
      {| is_enabled := memory_upload_enabled settings;
         disabled_error := session_error "MEMORY_UPLOAD_DISABLED";
         max_bytes := or_int (memory_upload_max_bytes settings) (memory_max_upload_size settings);
         validate_extension := _allowed_memory_extension;
         quota := true |}
  | kind_disk_image =>
      {| is_enabled := disk_image_ingest_enabled settings;
         disabled_error := session_error "MEMORY_UPLOAD_DISABLED";
         max_bytes := backend_max_upload_size settings;
         validate_extension := fun filename => Ok (py_lower (suffix filename));
         quota := false |}
  | kind_archive =>
      {| is_enabled := true;
         disabled_error := session_error "ARCHIVE_UPLOAD_DISABLED";
         max_bytes := backend_max_upload_size settings;
         validate_extension := _allowed_archive_extension;
         quota := false |}
  end.

(** * Capacity *)
Definition sum_of {A} (f : A -> Z) (l : list A) : Z := fold_left (fun total x => total + f x) l 0.
Definition is_active (item : MemoryUpload) : Prop := status item ∈ ACTIVE_UPLOAD_SESSION_STATUSES.
Definition not_excluded (exclude : option str) (item : MemoryUpload) : Prop := Some (id (plan item)) <> exclude.

Definition _active_upload_reservation_bytes (exclude : option str) : prog Z :=
  look (fun w => sum_of (fun item => expected_bytes (plan item))
    (filter (fun item => bool_decide (is_active item) && bool_decide (not_excluded exclude item)) (rows (uploads w)))).
Definition _case_memory_usage_bytes (case : str) (exclude : option str) : prog Z :=
  look (fun w =>
    sum_of e_size_bytes (filter (fun e => e_case_id e = case /\ e_type e = memory_dump) (rows (evidence w))) +
    sum_of (fun item => expected_bytes (plan item))
      (filter (fun item => bool_decide (case_id (plan item) = case) && bool_decide (is_active item) &&
                           bool_decide (not_excluded exclude item)) (rows (uploads w)))).

Definition _available_bytes (p : path) : prog Z :=
  on_files (mkdir p);*
  look (fun w => disk_free w p).

Record capacity := {
  staging_available_bytes : Z;
  canonical_storage_available_bytes : Z;
  memory_output_available_bytes : Z;
  required_capacity_bytes : Z;
  atomic_move : bool;
  can_accept_selected_size : bool }.
Definition _capacity_snapshot (expected : Z) (exclude : option str) : prog capacity :=
  let staging_root := memory_upload_staging_path settings in
  let final_root := backend_data_dir settings ++ [lit "evidence"] in
  let output_root := default final_root (memory_output_root settings) in
  let* staging_available := _available_bytes staging_root in
  let* final_available := _available_bytes final_root in
  let* output_available := _available_bytes output_root in
  let same_fs := device staging_root =? device final_root in
  let* reserved := _active_upload_reservation_bytes exclude in
  let min_free := memory_upload_min_free_space_bytes settings in
  let output_allowance := Z.max (memory_plugin_output_max_bytes settings) (256 * 1024 * 1024) in
  let staging_required := expected + min_free + reserved in
  let final_required := (if same_fs then 0 else expected) + min_free + reserved in
  let output_required := output_allowance + min_free in
  Done (Ok {|
    staging_available_bytes := staging_available;
    canonical_storage_available_bytes := final_available;
    memory_output_available_bytes := output_available;
    required_capacity_bytes := Z.max (Z.max staging_required final_required) output_required;
    atomic_move := same_fs;
    can_accept_selected_size := (staging_required <=? staging_available) && (final_required <=? final_available) &&
                                (output_required <=? output_available) |}).

(** * Changes of a loaded session *)
Definition _touch_session (item : MemoryUpload) : prog MemoryUpload :=
  let ttl := Z.max 300 (or_int (memory_upload_session_ttl_seconds settings) 86400) in
  let* now := utc_now_naive in
  Done (Ok (item <| updated_at := now |> <| expires_at := now + ttl |>)).

Definition _set_active_chunk (item : MemoryUpload) (chunk_index : Z) (active : bool) : MemoryUpload :=
  let metadata := metadata_json item in
  let current := active_chunks metadata in
  item <| metadata_json := metadata <| active_chunks := if active then {[ chunk_index ]} ∪ current
                                                        else current ∖ {[ chunk_index ]} |> |>.
Definition _set_received_chunks (item : MemoryUpload) (chunks : gmap Z chunk_meta) : MemoryUpload :=
  item <| metadata_json := metadata_json item <| received_chunks := chunks |> |>.

Definition sum_sizes (chunks : gmap Z chunk_meta) : Z := sum_of (fun c => size (snd c)) (map_to_list chunks).

Definition _record_chunk_received (upload_id : str) (chunk_index : Z) (meta : chunk_meta)
    (new_status : option upload_status) : prog MemoryUpload :=
  lock (lit "kairon:memory_upload:" ++ upload_id ++ lit ":chunks_meta")
    (let* item := refresh upload_id in
     let chunks := <[chunk_index := meta]> (received_chunks (metadata_json item)) in
     let changed := _set_received_chunks item chunks <| received_chunk_count := Z.of_nat (map_size chunks) |>
                      <| bytes_received := sum_sizes chunks |> <| status := default (status item) new_status |>
                      <| failure_code := None |> in
     let* changed := _touch_session changed in
     commit item changed;*
     refresh upload_id).

Definition check_memory_upload_staging_integrity (verify_hashes : bool) (item : MemoryUpload) : prog integrity :=
  look (fun w => classify_chunk_staging sha256_of (_session_root item) (_chunk_dir item) (_chunk_path item)
    (total_chunks (plan item)) (received_chunk_count item) (received_chunks (metadata_json item)) verify_hashes (files w)).

Definition _cleanup_session_storage (item : MemoryUpload) : prog unit :=
  on_files (fun f => Ok (rmtree (_session_root item) f)).
(** * Creating a session *)
Record session_request := {
  r_case_id : str;
  r_filename : str;
  r_expected_size_bytes : Z;
  r_provided_host : str;
  r_expected_sha256 : option str;
  r_upload_mode : option str;
  r_file_fingerprint : option str;
  r_kind : upload_kind;
  r_canonical_filename : option str }.

(** A result that is no step. *)
Definition pure {A} (r : result upload_exn A) : prog A := Done r.

Definition create_memory_upload (upload_id staging : str) (new : str -> upload_plan) : prog MemoryUpload :=
  let* evidence_id := uuid4 in
  let* existing := get_row upload_id in
  match existing with
  | Some existing =>
      let p := new evidence_id in
      guard (negb (bool_decide (case_id (plan existing) = case_id p)) ||
             negb (expected_bytes (plan existing) =? expected_bytes p)) (UploadPy ValueError);*
      Done (Ok existing)
  | None =>
      let item := {| plan := new evidence_id; status := created; bytes_received := 0; received_chunk_count := 0;
                     sha256 := None; failure_code := None; retryable := false; stage := None; registration_state := None;
                     registration_attempts := 0; canonical_preserved := false;
                     metadata_json := {| received_chunks := ∅; active_chunks := ∅; duplicate := None |};
                     updated_at := 0; expires_at := 0 |} in
      let* item := _touch_session item in
      update (fun w => w <| uploads := put upload_id item (uploads w) |>);*
      refresh upload_id
  end.

Definition conflicting (case name : str) (expected : Z) (item : MemoryUpload) : bool :=
  bool_decide (case_id (plan item) = case) && bool_decide (display_name (plan item) = name) &&
  (expected_bytes (plan item) =? expected) && bool_decide (is_active item).

Definition chunk_size_of (selected_mode : str) (expected_size_bytes : Z) : Z :=
  if bool_decide (selected_mode = lit "direct") then expected_size_bytes
  else Z.max (or_int (memory_upload_chunk_size_min_bytes settings) 1048576)
         (Z.min (or_int (memory_upload_chunk_size_max_bytes settings) 268435456)
                (or_int (memory_upload_chunk_size_bytes settings) 67108864)).

Definition create_memory_upload_session (request : session_request) : prog MemoryUpload :=
  let policy := _KIND_POLICIES (r_kind request) in
  let expected_size_bytes := r_expected_size_bytes request in
  guard (negb (is_enabled policy)) (disabled_error policy);*
  guard (expected_size_bytes <=? 0) (session_error "MEMORY_UPLOAD_INVALID_SIZE");*
  guard (max_bytes policy <? expected_size_bytes) (session_error "MEMORY_UPLOAD_TOO_LARGE");*
  let* extension := pure (validate_extension policy (r_filename request)) in
  let safe_name := safe_display_filename (r_filename request) in
  let provided_host := strip (r_provided_host request) in
  guard (bool_decide (provided_host = [])) (session_error "MEMORY_UPLOAD_HOST_REQUIRED");*
  let* conflict := look (fun w => existsb (conflicting (r_case_id request) safe_name expected_size_bytes) (rows (uploads w))) in
  guard conflict (session_error "MEMORY_UPLOAD_ACTIVE_SESSION_EXISTS");*
  (if quota policy then
     let* case_usage := _case_memory_usage_bytes (r_case_id request) None in
     guard (memory_upload_case_quota_bytes settings <? case_usage + expected_size_bytes)
       (session_error "MEMORY_UPLOAD_CASE_QUOTA_EXCEEDED")
   else Done (Ok tt));*
  let* capacity := _capacity_snapshot expected_size_bytes None in
  guard (negb (can_accept_selected_size capacity)) (session_error "MEMORY_UPLOAD_INSUFFICIENT_SPACE");*
  let threshold := or_int (memory_upload_direct_threshold_bytes settings) 1073741824 in
  let selected_mode := py_lower (strip (match r_upload_mode request with Some ((_ :: _) as m) => m | _ => lit "resumable" end)) in
  guard (negb (bool_decide (selected_mode = lit "direct")) && negb (bool_decide (selected_mode = lit "resumable")))
    (session_error "MEMORY_UPLOAD_INVALID_MODE");*
  guard (bool_decide (selected_mode = lit "direct") && (threshold <? expected_size_bytes))
    (session_error "MEMORY_UPLOAD_DIRECT_TOO_LARGE");*
  let chunk_size := chunk_size_of selected_mode expected_size_bytes in
  let* sampled_fingerprint := pure (_sanitize_sha256 (r_file_fingerprint request)) in
  let* upload_id := uuid4 in
  let* expected_sha256 := pure (_sanitize_sha256 (r_expected_sha256 request)) in
  let* staging_name := uuid4 in
  let new := fun evidence_id =>
    {| id := upload_id; case_id := r_case_id request; evidence_id := evidence_id; expected_bytes := expected_size_bytes;
       expected_sha256 := expected_sha256; display_name := safe_name; source_host := provided_host;
       extension := extension; staging_name := staging_name;
       canonical_relative_path := [lit "evidence"; r_case_id request; evidence_id; lit "original";
         default (lit "memory-image" ++ extension) (r_canonical_filename request)];
       chunk_size_bytes := chunk_size; total_chunks := chunk_count expected_size_bytes chunk_size;
       upload_mode := selected_mode; file_fingerprint := sampled_fingerprint |} in
  let* upload := create_memory_upload upload_id staging_name new in
  let* changed := _touch_session (upload <| received_chunk_count := 0 |> <| bytes_received := 0 |>) in
  commit upload changed;*
  let* upload := refresh upload_id in
  on_files (mkdir (_chunk_dir upload));*
  Done (Ok upload).

(** * Receiving a chunk *)
Definition get_memory_upload (case upload_id : str) : prog (option MemoryUpload) :=
  let* found := get_row upload_id in
  Done (Ok match found with
           | Some item => if bool_decide (case_id (plan item) = case) then Some item else None
           | None => None
           end).

Definition truthy_text (o : option str) : option str := match o with Some (_ :: _) => o | _ => None end.

(** The chunk is recorded with this length, its file is there, and its hash is
    the one declared. *)
Definition already_stored (item : MemoryUpload) (chunk_index length : Z) (declared : option str) (f : fs) : bool :=
  match received_chunks (metadata_json item) !! chunk_index with
  | Some existing =>
      (size existing =? length) && is_file (_chunk_path item chunk_index) f &&
      match declared with Some sha => bool_decide (chunk_sha256 existing = sha) | None => true end
  | None => false
  end.

(** The body as it comes in: its pieces, and [None] where the client goes away. *)
Abbreviation stream := (list (option bytes)).

(** [async for chunk in chunks]: every write is a step, and shows at once.  What
    was written stays when the client goes away. *)
Fixpoint write_stream (temp_path : path) (length : Z) (received : bytes) (chunks : stream) : prog bytes :=
  match chunks with
  | [] => Done (Ok received)
  | None :: _ => raise ClientDisconnect
  | Some chunk :: chunks' =>
      if bool_decide (chunk = []) then write_stream temp_path length received chunks'
      else
        let received := received ++ chunk in
        if length <? len received then
          on_files (unlink temp_path);* raise (session_error "MEMORY_UPLOAD_CHUNK_TOO_LARGE")
        else
          on_files (fun f => Ok (append_bytes temp_path chunk f));*
          write_stream temp_path length received chunks'
  end.

Definition receive_chunk (temp_path : path) (length : Z) (declared : option str) (chunks : stream) : prog str :=
  on_files (create_file temp_path []);*
  let* payload := write_stream temp_path length [] chunks in
  let computed_sha := sha256_of payload in
  if negb (len payload =? length) then
    on_files (unlink temp_path);* raise (session_error "MEMORY_UPLOAD_INVALID_CHUNK_LENGTH")
  else if match declared with Some sha => negb (bool_decide (sha = computed_sha)) | None => false end then
    on_files (unlink temp_path);* raise (session_error "MEMORY_UPLOAD_CHUNK_HASH_MISMATCH")
  else Done (Ok computed_sha).

(** A file of this index is there already. *)
Definition existing_chunk (upload_id : str) (item : MemoryUpload) (chunk_index : Z) (temp_path final_path : path)
    (meta : chunk_meta) : prog MemoryUpload :=
  let mismatch := on_files (unlink temp_path);* raise (session_error "MEMORY_UPLOAD_CHUNK_CONTENT_MISMATCH") in
  match received_chunks (metadata_json item) !! chunk_index with
  | Some existing =>
      if bool_decide (existing = meta) then on_files (unlink temp_path);* Done (Ok item) else mismatch
  | None =>
      let* adopted := catch
        (let* disk_size := read_files (st_size final_path) in
         if negb (disk_size =? size meta) then
           on_files (unlink temp_path);* raise (session_error "MEMORY_UPLOAD_CHUNK_SIZE_MISMATCH")
         else
           let* content := read_files (read_bytes final_path) in
           if bool_decide (sha256_of content = chunk_sha256 meta) then
             on_files (unlink temp_path);*
             let* item := _record_chunk_received upload_id chunk_index meta None in
             Done (Ok (Some item))
           else Done (Ok None))
        (fun e => match e with UploadOs _ => Done (Ok None) | _ => raise e end) in
      match adopted with Some item => Done (Ok item) | None => mismatch end
  end.

(** The payload goes to a file of its own, then under its name, then into the
    record. *)
Definition write_chunk (upload_id : str) (item : MemoryUpload) (chunk_index length : Z) (declared : option str)
    (chunks : stream) : prog MemoryUpload :=
  let target_dir := _chunk_dir item in
  on_files (mkdir target_dir);*
  let* token := uuid4 in
  let temp_path := target_dir ++ [part_name chunk_index token] in
  let final_path := _chunk_path item chunk_index in
  let* computed_sha := receive_chunk temp_path length declared chunks in
  let meta := {| size := length; chunk_sha256 := computed_sha |} in
  let* there := look (fun w => exists_ final_path (files w)) in
  if (there : bool) then existing_chunk upload_id item chunk_index temp_path final_path meta
  else
    catch
      (on_files (replace_file device temp_path final_path);*
       fsync_directory target_dir)
      (fun e =>
         if bool_decide (e = UploadOs ENOENT) then
           let* item := refresh upload_id in
           if bool_decide (status item ∈ TERMINAL_UPLOAD_SESSION_STATUSES)
           then raise (session_error "MEMORY_UPLOAD_TERMINAL") else raise e
         else raise e);*
    _record_chunk_received upload_id chunk_index meta (Some uploading).

Definition store_memory_upload_chunk_stream (case upload_id : str) (chunk_index : Z) (chunks : stream)
    (content_length : option Z) (declared_header : option str) (expected_mode : str) : prog MemoryUpload :=
  let* found := get_memory_upload case upload_id in
  match found with
  | None => raise (session_error "MEMORY_UPLOAD_NOT_FOUND")
  | Some item =>
  guard (bool_decide (status item ∈ TERMINAL_UPLOAD_SESSION_STATUSES)) (session_error "MEMORY_UPLOAD_TERMINAL");*
  guard (bool_decide (status item ∈ [verifying; finalizing])) (session_error "MEMORY_UPLOAD_FINALIZING");*
  guard (negb (bool_decide (upload_mode (plan item) = expected_mode))) (session_error "MEMORY_UPLOAD_MODE_CONFLICT");*
  guard ((chunk_index <? 0) || (total_chunks (plan item) <=? chunk_index)) (session_error "MEMORY_UPLOAD_INVALID_CHUNK_INDEX");*
  let* now := utc_now_naive in
  (if expires_at item <? now then
     commit item (item <| status := expired |> <| failure_code := Some (lit "MEMORY_UPLOAD_SESSION_EXPIRED") |>);*
     raise (session_error "MEMORY_UPLOAD_SESSION_EXPIRED")
   else Done (Ok tt));*
  let* integrity := check_memory_upload_staging_integrity false item in
  (if bool_decide (i_status integrity ∈ [STAGING_HEALTHY; EXTRA_CHUNKS]) then Done (Ok tt)
   else
     let failure := match i_status integrity with
                    | STAGING_MISSING => lit "MEMORY_UPLOAD_STAGING_STAGING_MISSING"
                    | MISSING_CHUNKS => lit "MEMORY_UPLOAD_STAGING_MISSING_CHUNKS_ON_DISK"
                    | SIZE_MISMATCH => lit "MEMORY_UPLOAD_STAGING_SIZE_MISMATCH"
                    | _ => lit "MEMORY_UPLOAD_STAGING_HASH_MISMATCH"
                    end in
     commit item (item <| status := failed |> <| failure_code := Some failure |> <| retryable := true |>);*
     raise (MemoryUploadSessionError failure));*
  let length := expected_length (plan item) chunk_index in
  guard (match content_length with Some n => negb (n =? length) | None => false end)
    (session_error "MEMORY_UPLOAD_INVALID_CHUNK_LENGTH");*
  let* declared_chunk_sha := pure (_sanitize_sha256 declared_header) in
  let* stored := look (fun w => already_stored item chunk_index length declared_chunk_sha (files w)) in
  if (stored : bool) then Done (Ok item) else
  lock (lit "kairon:memory_upload:" ++ upload_id ++ lit ":chunk:" ++ str_of_Z chunk_index)
    (let* item := refresh upload_id in
     guard (bool_decide (status item ∈ TERMINAL_UPLOAD_SESSION_STATUSES) || bool_decide (status item ∈ [verifying; finalizing]))
       (session_error "MEMORY_UPLOAD_FINALIZING");*
     let* stored := look (fun w => already_stored item chunk_index length declared_chunk_sha (files w)) in
     if (stored : bool) then Done (Ok item) else
     commit item (_set_active_chunk item chunk_index true);*
     finally
       (write_chunk upload_id item chunk_index length declared_chunk_sha chunks)
       (catch
          (let* item := refresh upload_id in
           commit item (_set_active_chunk item chunk_index false))
          (fun _ => Done (Ok tt)));*
     refresh upload_id)
  end.
(** * Registration (upload_lifecycle.py) *)
Definition _valid_regular_file (p : path) (expected_size : Z) (f : fs) : bool :=
  match f !! p with Some (File content) => len content =? expected_size | _ => false end.

Definition same_evidence (item : MemoryUpload) (sha : str) (e : Evidence) : bool :=
  bool_decide (e_case_id e = case_id (plan item)) && bool_decide (e_type e = memory_dump) &&
  bool_decide (e_sha256 e = sha) && (e_size_bytes e =? expected_bytes (plan item)) &&
  negb (bool_decide (e_id e = evidence_id (plan item))).
Definition _find_duplicate_memory_evidence (item : MemoryUpload) : prog (option Evidence) :=
  match truthy_text (sha256 item) with
  | None => Done (Ok None)
  | Some sha => look (fun w => head (filter (fun e => Is_true (same_evidence item sha e)) (rows (evidence w))))
  end.

Definition REG_STAGE_REGISTERING : str := lit "registering".
Definition REG_STAGE_COMPLETED : str := lit "completed".
Definition REG_STAGE_FAILED_VERIFICATION : str := lit "failed_verification".
Definition REG_STAGE_FAILED_REGISTRATION : str := lit "failed_registration".
Definition ERR_REGISTRATION_FAILED : str := lit "MEMORY_EVIDENCE_REGISTRATION_FAILED".
Definition ERR_REGISTRATION_DUPLICATE : str := lit "MEMORY_EVIDENCE_DUPLICATE".
Definition ERR_REGISTRATION_DB_CONSTRAINT : str := lit "MEMORY_EVIDENCE_DB_CONSTRAINT".

Definition _raise_duplicate_memory_upload {A} (item : MemoryUpload) : prog A :=
  commit item (item <| status := failed |> <| stage := Some REG_STAGE_FAILED_REGISTRATION |>
                 <| registration_state := None |> <| failure_code := Some ERR_REGISTRATION_DUPLICATE |>
                 <| retryable := false |> <| canonical_preserved := true |>);*
  raise (MemoryUploadRegistrationError ERR_REGISTRATION_DUPLICATE).

Definition _build_evidence_from_upload (item : MemoryUpload) (canonical : path) : Evidence :=
  {| e_id := evidence_id (plan item); e_case_id := case_id (plan item); e_type := memory_dump;
     e_sha256 := default [] (sha256 item); e_size_bytes := expected_bytes (plan item);
     e_stored_path := canonical; e_original_filename := display_name (plan item) |}.

(** The critical transaction: the row is inserted, or its key is taken. *)
Definition _persist_evidence_minimal (item : MemoryUpload) (canonical : path) : prog Evidence :=
  let e := _build_evidence_from_upload item canonical in
  attempt (fun w => match row (evidence w) (e_id e) with
                    | Some _ => Raise IntegrityError
                    | None => Ok (w <| evidence := put (e_id e) e (evidence w) |>, e)
                    end).

Definition registered (r : MemoryUpload) : MemoryUpload :=
  r <| status := completed |> <| stage := Some REG_STAGE_COMPLETED |> <| registration_state := None |>.
Definition registration_failed (failure : str) (r : MemoryUpload) : MemoryUpload :=
  r <| status := failed |> <| stage := Some REG_STAGE_FAILED_REGISTRATION |> <| failure_code := Some failure |>
    <| retryable := true |> <| registration_state := None |> <| canonical_preserved := true |>.

Definition register_memory_evidence_from_upload (upload_id : str) : prog Evidence :=
  let* found := get_row upload_id in
  match found with
  | None => raise (UploadPy LookupError)
  | Some item =>
  let* existing := look (fun w => row (evidence w) (evidence_id (plan item))) in
  let canonical := _canonical_path item in
  let expected := expected_bytes (plan item) in
  match existing with
  | Some existing =>
      let* valid := look (fun w => _valid_regular_file canonical expected (files w)) in
      if negb valid then
        commit item (item <| status := inconsistent |> <| failure_code := Some (lit "evidence_file_missing") |>
                       <| retryable := false |> <| stage := Some REG_STAGE_FAILED_VERIFICATION |>
                       <| registration_state := None |> <| canonical_preserved := false |>);*
        raise (MemoryUploadRegistrationError (lit "evidence_file_missing"))
      else
        commit item (registered item <| retryable := false |> <| canonical_preserved := true |>);*
        Done (Ok existing)
  | None =>
  guard (negb (bytes_received item =? expected)) (MemoryUploadRegistrationError (lit "evidence_upload_incomplete"));*
  guard (match truthy_text (sha256 item) with None => true | Some _ => false end)
    (MemoryUploadRegistrationError (lit "evidence_hash_missing"));*
  let* valid := look (fun w => _valid_regular_file canonical expected (files w)) in
  guard (negb valid) (MemoryUploadRegistrationError (lit "evidence_file_missing"));*
  let* content := read_files (read_bytes canonical) in
  guard (negb (bool_decide (Some (sha256_of content) = sha256 item)))
    (MemoryUploadRegistrationError (lit "evidence_hash_mismatch"));*
  let* duplicate := _find_duplicate_memory_evidence item in
  match duplicate with Some _ => _raise_duplicate_memory_upload item | None => Done (Ok tt) end;*
  commit item (item <| registration_attempts := registration_attempts item + 1 |>
                 <| stage := Some REG_STAGE_REGISTERING |> <| registration_state := Some (lit "registering") |>
                 <| canonical_preserved := true |> <| failure_code := None |>);*
  let* item := refresh upload_id in
  let* e := catch (_persist_evidence_minimal item canonical) (fun e =>
    match e with
    | IntegrityError =>
        let* existing := look (fun w => row (evidence w) (evidence_id (plan item))) in
        match existing with
        | Some existing =>
            write_columns upload_id (fun r => registered r <| canonical_preserved := true |>);*
            Done (Ok existing)
        | None =>
            write_columns upload_id (registration_failed ERR_REGISTRATION_DB_CONSTRAINT);*
            raise (MemoryUploadRegistrationError ERR_REGISTRATION_DB_CONSTRAINT)
        end
    | _ =>
        write_columns upload_id (registration_failed ERR_REGISTRATION_FAILED);*
        raise (MemoryUploadRegistrationError ERR_REGISTRATION_FAILED)
    end) in
  write_columns upload_id (fun r => registered r <| retryable := false |>);*
  Done (Ok e)
  end
  end.

(** * Finalization *)
Definition finalize_config (item : MemoryUpload) (assembly_path : path) (expected_sha : option str) : ChunkedFinalizeConfig :=
  {| config_total_chunks := Z.to_nat (total_chunks (plan item));
     chunk_path_fn := fun index => _chunk_path item (Z.of_nat index);
     final_path := _canonical_path item;
     assembly_path := assembly_path;
     config_expected_bytes := expected_bytes (plan item);
     config_expected_sha256 := expected_sha |}.

Definition missing_chunks (item : MemoryUpload) : list Z :=
  filter (fun index => received_chunks (metadata_json item) !! index = None)
    (map Z.of_nat (seq 0 (Z.to_nat (total_chunks (plan item))))).

Definition reload (upload_id : str) : prog session :=
  let* item := refresh upload_id in Done (Ok (item, item)).

Definition _on_verifying (s : session) : prog session :=
  let (loaded, item) := s in
  let* item := _touch_session (item <| status := verifying |> <| failure_code := None |>) in
  commit loaded item;*
  reload (id (plan loaded)).

Definition _find_duplicate (s : session) (computed_sha : str) (_total_bytes : Z) : prog (session * option Evidence) :=
  let (loaded, item) := s in
  let item := item <| sha256 := Some computed_sha |> in
  let* found := _find_duplicate_memory_evidence item in
  Done (Ok ((loaded, item), found)).

Definition _on_duplicate (s : session) (found : Evidence) : prog session :=
  let (loaded, item) := s in
  _cleanup_session_storage item;*
  on_files (fun f => Ok (rmtree (parent (parent (_canonical_path item))) f));*
  let* item := _touch_session (item <| status := failed |> <| failure_code := Some ERR_REGISTRATION_DUPLICATE |>
                                 <| retryable := false |>) in
  commit loaded (item <| metadata_json := metadata_json item <| duplicate := Some (e_id found) |> |>);*
  raise (MemoryUploadSessionError ERR_REGISTRATION_DUPLICATE).

Definition _on_finalizing (s : session) (total_bytes total : Z) : prog session :=
  let (loaded, item) := s in
  let* item := _touch_session (item <| status := finalizing |> <| bytes_received := total_bytes |>
                                 <| received_chunk_count := total |>) in
  commit loaded item;*
  reload (id (plan loaded)).

Definition _register (s : session) : prog Evidence := register_memory_evidence_from_upload (id (plan (fst s))).

(** The code that an exception carries. *)
Definition code_of (e : upload_exn) : str :=
  match e with
  | MemoryUploadSessionError c | MemoryUploadRegistrationError c => c
  | _ => lit "MEMORY_UPLOAD_FINALIZATION_FAILED"
  end.
(** What a finalization answers with: the session, and its evidence. *)
Definition finalize_memory_upload_session (case upload_id : str) (expected_header : option str)
    : prog (MemoryUpload * option Evidence) :=
  lock (lit "kairon:memory_upload:" ++ upload_id ++ lit ":finalize")
    (let* found := get_memory_upload case upload_id in
     match found with
     | None => raise (session_error "MEMORY_UPLOAD_NOT_FOUND")
     | Some item =>
     if bool_decide (status item ∈ [completed; cancelled; expired; inconsistent]) then
       if bool_decide (status item = completed) then
         let* e := look (fun w => row (evidence w) (evidence_id (plan item))) in Done (Ok (item, e))
       else Done (Ok (item, None))
     else
     guard (negb (bool_decide (active_chunks (metadata_json item) = ∅))) (session_error "MEMORY_UPLOAD_CHUNKS_ACTIVE");*
     let* integrity := check_memory_upload_staging_integrity true item in
     (if bool_decide (i_status integrity = STAGING_HEALTHY) then Done (Ok tt)
      else
        commit item (item <| status := failed |> <| failure_code := Some (lit "MEMORY_UPLOAD_STAGING_INCONSISTENT") |>
                       <| retryable := true |>);*
        raise (session_error "MEMORY_UPLOAD_STAGING_INCONSISTENT"));*
     let* expected_client_sha :=
       pure (_sanitize_sha256 (match truthy_text expected_header with Some h => Some h | None => expected_sha256 (plan item) end)) in
     guard (bool_decide (missing_chunks item <> [])) (session_error "MEMORY_UPLOAD_CHUNKS_MISSING");*
     let* capacity := _capacity_snapshot (expected_bytes (plan item)) (Some upload_id) in
     guard (negb (can_accept_selected_size capacity)) (session_error "MEMORY_UPLOAD_INSUFFICIENT_SPACE");*
     let* token := uuid4 in
     let assembly_path := _session_root item ++ [lit "assembly-" ++ token ++ lit ".part"] in
     catch
       (catch
          (let* (_, r) := run_chunked_finalize sha256_of device getpid (finalize_config item assembly_path expected_client_sha)
             (item, item) _on_verifying _find_duplicate _on_duplicate _on_finalizing
             (fun p => fsync_directory (parent p)) _register (fun s => _cleanup_session_storage (snd s)) in
           let* item := refresh upload_id in
           Done (Ok (item, Some r)))
          (fun e => match e with
                    | ChunkedFinalizeSizeMismatch _ _ => raise (session_error "MEMORY_UPLOAD_FINAL_SIZE_MISMATCH")
                    | ChunkedFinalizeHashMismatch _ _ => raise (session_error "MEMORY_UPLOAD_SHA256_MISMATCH")
                    | _ => raise e
                    end))
       (fun e => match e with
                 | MemoryUploadRegistrationError failure => raise (MemoryUploadSessionError failure)
                 | _ =>
                     on_files (fun f => if is_file assembly_path f then unlink assembly_path f else Ok f);*
                     let* now := utc_now_naive in
                     write_columns upload_id (fun r =>
                       r <| status := failed |> <| failure_code := Some (code_of e) |> <| retryable := true |>
                         <| updated_at := now |> <| expires_at := now + Z.max 300 (or_int (memory_upload_session_ttl_seconds settings) 86400) |>);*
                     raise e
                 end)
     end).

(** * Cancellation and expiry *)
Definition cancel_memory_upload_session (case upload_id : str) : prog MemoryUpload :=
  let* found := get_memory_upload case upload_id in
  match found with
  | None => raise (session_error "MEMORY_UPLOAD_NOT_FOUND")
  | Some item =>
  guard (bool_decide (status item = completed)) (session_error "MEMORY_UPLOAD_ALREADY_COMPLETED");*
  if bool_decide (status item ∈ [cancelled; expired; failed; inconsistent]) then Done (Ok item)
  else
    let* changed := _touch_session (item <| status := cancelled |> <| retryable := false |>
                                      <| failure_code := Some (lit "MEMORY_UPLOAD_CANCELLED") |>) in
    commit item changed;*
    _cleanup_session_storage item;*
    refresh upload_id
  end.

Definition expiring (now : Z) (item : MemoryUpload) : bool := bool_decide (is_active item) && (expires_at item <? now).
Definition stale (cutoff : Z) (item : MemoryUpload) : bool :=
  bool_decide (status item ∈ [cancelled; failed; expired]) && (updated_at item <? cutoff).

Definition cleanup_expired_memory_upload_sessions (limit : nat) : prog (Z * Z) :=
  let* now := utc_now_naive in
  let cleanup_age := Z.max 60 (or_int (memory_upload_cleanup_age_seconds settings) 86400) in
  let* expired_rows := look (fun w =>
    take limit (Sort.sort_by expires_at (filter (fun item => Is_true (expiring now item)) (rows (uploads w))))) in
  let* stale_terminal := look (fun w =>
    take limit (Sort.sort_by updated_at (filter (fun item => Is_true (stale (now - cleanup_age) item)) (rows (uploads w))))) in
  forP (fun _ item =>
    commit item (item <| status := expired |> <| failure_code := Some (lit "MEMORY_UPLOAD_SESSION_EXPIRED") |>
                   <| retryable := false |> <| updated_at := now |>)) tt expired_rows;*
  forP (fun _ item => _cleanup_session_storage item) tt (expired_rows ++ stale_terminal);*
  Done (Ok (Z.of_nat (length expired_rows), Z.of_nat (length stale_terminal))).

(** * Administration *)
Inductive drift : Type :=
  | db_session_staging_missing (upload_id : str)
  | completed_session_evidence_missing (upload_id : str)
  | chunk_metadata_differs_from_filesystem (upload_id : str) (found : integrity_status)
  | staging_exists_db_session_missing (staging : str).

Definition session_drift (w : world U V) (item : MemoryUpload) : list drift :=
  let found := i_status (classify_chunk_staging sha256_of (_session_root item) (_chunk_dir item) (_chunk_path item)
    (total_chunks (plan item)) (received_chunk_count item) (received_chunks (metadata_json item)) false (files w)) in
  if bool_decide (status item = completed) then
    match row (evidence w) (evidence_id (plan item)) with
    | None => [completed_session_evidence_missing (id (plan item))]
    | Some _ => []
    end
  else
    (if exists_ (_session_root item) (files w) then [] else [db_session_staging_missing (id (plan item))]) ++
    (if bool_decide (found = STAGING_HEALTHY) then []
     else [chunk_metadata_differs_from_filesystem (id (plan item)) found]).

(** The rows an administrator asks for. *)
Record selection := {
  s_case_id : option str;
  s_upload_id : option str;
  s_older_than_hours : option Z;
  s_limit : option Z }.
Definition cutoff (sel : selection) (now : Z) : option Z :=
  option_map (fun hours => now - 3600 * Z.max 0 hours) (s_older_than_hours sel).
Definition selected (sel : selection) (now : Z) (item : MemoryUpload) : bool :=
  match s_case_id sel with Some case => bool_decide (case_id (plan item) = case) | None => true end &&
  match s_upload_id sel with Some upload_id => bool_decide (id (plan item) = upload_id) | None => true end &&
  match cutoff sel now with Some t => updated_at item <? t | None => true end.
Definition limited {A} (sel : selection) (l : list A) : list A :=
  match s_limit sel with Some n => take (Z.to_nat (Z.max 1 n)) l | None => l end.
Definition select (sel : selection) (w : world U V) : list MemoryUpload :=
  limited sel (filter (fun item => Is_true (selected sel (clock w) item)) (rows (uploads w))).
(** The directories under the staging root that belong to none of the rows. *)
Definition orphans (st_mtime : path -> Z) (sel : selection) (mtime_before : option Z) (w : world U V) : list path :=
  match s_upload_id sel with
  | Some _ => []
  | None => list_orphan_directories st_mtime (memory_upload_staging_path settings)
              (map (fun item => staging_name (plan item)) (select sel w)) mtime_before (files w)
  end.

(** It changes nothing beyond making the staging root. *)
Definition reconcile_memory_upload_storage (st_mtime : path -> Z) (sel : selection) : prog (list drift) :=
  on_files (mkdir (memory_upload_staging_path settings));*
  look (fun w =>
    flat_map (session_drift w) (select sel w) ++
    map (fun entry => staging_exists_db_session_missing (name_of entry)) (orphans st_mtime sel None w)).

(** A session whose staging [cleanup_memory_upload_staging] removes. *)
Definition removable (w : world U V) (item : MemoryUpload) : bool :=
  negb (bool_decide (is_active item) || negb (bool_decide (active_chunks (metadata_json item) = ∅))) &&
  exists_ (_session_root item) (files w) && bool_decide (status item ∈ TERMINAL_UPLOAD_SESSION_STATUSES).
Definition cleanup_memory_upload_staging (st_mtime : path -> Z) (dry_run : bool) (sel : selection) : prog (list path) :=
  on_files (mkdir (memory_upload_staging_path settings));*
  let* candidates := look (fun w => limited sel
    (map _session_root (filter (fun item => Is_true (removable w item)) (select sel w)) ++
     orphans st_mtime sel (cutoff sel (clock w)) w)) in
  (if dry_run then Done (Ok tt) else forP (fun _ entry => on_files (fun f => Ok (rmtree entry f))) tt candidates);*
  Done (Ok candidates).
(** * Requests *)
Inductive upload_request : Type :=
  | StoreChunk (case upload_id : str) (chunk_index : Z) (chunks : stream) (content_length : option Z)
      (declared : option str) (mode : str)
  | Finalize (case upload_id : str) (declared : option str)
  | Cancel (case upload_id : str)
  | ExpireSessions (limit : nat)
  | CleanupStaging (st_mtime : path -> Z) (dry_run : bool) (sel : selection)
  | Reconcile (st_mtime : path -> Z) (sel : selection).

(** The handler of a request, without what it answers. *)
Definition ignore {A} (p : prog A) : prog unit := let* _ := p in Done (Ok tt).
Definition handle (request : upload_request) : prog unit :=
  match request with
  | StoreChunk case upload_id chunk_index chunks content_length declared mode =>
      ignore (store_memory_upload_chunk_stream case upload_id chunk_index chunks content_length declared mode)
  | Finalize case upload_id declared => ignore (finalize_memory_upload_session case upload_id declared)
  | Cancel case upload_id => ignore (cancel_memory_upload_session case upload_id)
  | ExpireSessions limit => ignore (cleanup_expired_memory_upload_sessions limit)
  | CleanupStaging st_mtime dry_run sel => ignore (cleanup_memory_upload_staging st_mtime dry_run sel)
  | Reconcile st_mtime sel => ignore (reconcile_memory_upload_storage st_mtime sel)
  end.
End sessions.
End UploadSession.
