(* ===== verification/UploadPlan.v ===== *)
(** The chunk plan of an upload: the number of chunks computed through a float
    division is exact, and the chunks partition the file. *)
From S2P Require Import Prelude PyBase PyFloat FileSystem Handlers UploadModel UploadShared UploadSession.
Import Bytes Str PyFloat FileSystem UploadModel UploadSession.

Module UploadPlan.

(** * The division *)
(** The scale of the quotient: between 2^52 and 2^53 units. *)
Lemma scale_bounds a b (s := Z.log2 a - Z.log2 b - 52)
    (s' := if a * 2 ^ Z.max 0 (- s) <? 2 ^ 52 * (b * 2 ^ Z.max 0 s) then s - 1 else s) :
  0 < a -> 0 < b ->
  2 ^ 52 * (b * 2 ^ Z.max 0 s') <= a * 2 ^ Z.max 0 (- s').
Proof.
  intros Ha Hb. pose proof (Z.log2_spec a Ha) as [Ha1 Ha2]. pose proof (Z.log2_spec b Hb) as [Hb1 Hb2].
  pose proof (Z.log2_nonneg a) as Hla. pose proof (Z.log2_nonneg b) as Hlb.
  subst s'. destruct (Z.ltb_spec (a * 2 ^ Z.max 0 (- s)) (2 ^ 52 * (b * 2 ^ Z.max 0 s))) as [Hlt|]; [|done].
  assert (Hsum : forall x y, 0 <= x -> 0 <= y -> 2 ^ (x + y) = 2 ^ x * 2 ^ y) by (intros; by apply Z.pow_add_r).
  replace (Z.succ (Z.log2 b)) with (Z.log2 b + 1) in Hb2 by lia.
  rewrite (Hsum _ 1) in Hb2 by lia. change (2 ^ 1) with 2 in Hb2.
  destruct (Z_le_gt_dec s 0) as [Hs|Hs].
  - rewrite (Z.max_l 0 (s - 1)), (Z.max_r 0 (- (s - 1))) by lia.
    assert (2 ^ 52 * 2 ^ Z.log2 b = 2 ^ Z.log2 a * 2 ^ (- s)) as He.
    { rewrite <-!Hsum by lia. f_equal. subst s. lia. }
    replace (- (s - 1)) with (- s + 1) by lia. rewrite Hsum by lia. change (2 ^ 1) with 2. change (2 ^ 0) with 1.
    assert (0 < 2 ^ (- s)) by lia. nia.
  - rewrite (Z.max_r 0 (s - 1)), (Z.max_l 0 (- (s - 1))) by lia.
    assert (2 ^ 52 * 2 ^ Z.log2 b * 2 ^ s = 2 ^ Z.log2 a) as He.
    { rewrite <-!Hsum by lia. f_equal. subst s. lia. }
    assert (2 ^ s = 2 * 2 ^ (s - 1)) as Hs2 by (rewrite <-(Hsum 1) by lia; f_equal; lia).
    change (2 ^ 0) with 1. rewrite Hs2 in He. assert (0 < 2 ^ (s - 1)) by lia. nia.
Qed.

(** For sizes below 2^53 the ceiling of the float quotient is the ceiling. *)
Lemma ceil_true_div_exact a b : 0 < a < 2 ^ 53 -> 0 < b -> ceil_true_div a b = (a + b - 1) / b.
Proof.
  intros Ha Hb. unfold ceil_true_div. cbv zeta. pose proof (scale_bounds a b ltac:(lia) Hb) as Hs. cbv zeta in Hs.
  set (s := if _ <? _ then _ else _) in *. clearbody s.
  set (n := (a + b - 1) / b).
  assert (Hn : (n - 1) * b < a <= n * b).
  { subst n. pose proof (Z.div_mod (a + b - 1) b ltac:(lia)). pose proof (Z.mod_pos_bound (a + b - 1) b Hb). nia. }
  clearbody n. destruct (Z.leb_spec 0 s) as [Hs0|Hs0].
  - rewrite (Z.max_r 0 s), (Z.max_l 0 (- s)) in * by lia. change (2 ^ 0) with 1 in *.
    assert (2 ^ s = 1 /\ b = 1) as [Hp Hb1].
    { assert (0 < 2 ^ s) by lia. change (2 ^ 53) with (2 * 2 ^ 52) in Ha. nia. }
    rewrite Hp, Hb1 in *. pose proof (round_div_bounds (a * 1) (1 * 1) a a ltac:(lia) ltac:(lia)). lia.
  - rewrite (Z.max_l 0 s), (Z.max_r 0 (- s)) in * by lia. change (2 ^ 0) with 1 in *. rewrite Z.mul_1_r in *.
    set (k := 2 ^ (- s)) in *. assert (0 < k) by (subst k; lia). clearbody k.
    set (q := round_div (a * k) b).
    assert (q <= n * k) by (apply (round_div_bounds (a * k) b ((n - 1) * k)); nia).
    assert ((n - 1) * k < q).
    { apply round_div_above; [done|]. change (2 ^ 53) with (2 * 2 ^ 52) in Ha.
      assert (b < 2 * k) by nia. nia. }
    clearbody q. apply Z.opp_inj. rewrite Z.opp_involutive.
    symmetry. apply (Z.div_unique _ _ _ (n * k - q)); lia.
Qed.

(** * The plan *)
Definition well_planned (p : upload_plan) : Prop :=
  0 < expected_bytes p < 2 ^ 53 /\ 0 < chunk_size_bytes p /\
  total_chunks p = chunk_count (expected_bytes p) (chunk_size_bytes p).

Lemma plan_total p : well_planned p ->
  1 <= total_chunks p /\ (total_chunks p - 1) * chunk_size_bytes p < expected_bytes p <= total_chunks p * chunk_size_bytes p.
Proof.
  intros (He & Hc & Ht). unfold chunk_count in Ht. rewrite ceil_true_div_exact in Ht by done.
  pose proof (Z.div_mod (expected_bytes p + chunk_size_bytes p - 1) (chunk_size_bytes p) ltac:(lia)).
  pose proof (Z.mod_pos_bound (expected_bytes p + chunk_size_bytes p - 1) (chunk_size_bytes p) Hc).
  assert (1 <= (expected_bytes p + chunk_size_bytes p - 1) / chunk_size_bytes p)
    by (apply Z.div_le_lower_bound; lia).
  nia.
Qed.

Lemma expected_length_pos p i : well_planned p -> 0 <= i < total_chunks p -> 0 < expected_length p i <= chunk_size_bytes p.
Proof. intros Hp Hi. pose proof (plan_total p Hp). destruct Hp as (_ & Hc & _). unfold expected_length. nia. Qed.

Lemma expected_length_full p i : well_planned p -> 0 <= i -> i + 1 < total_chunks p -> expected_length p i = chunk_size_bytes p.
Proof. intros Hp Hi Hl. pose proof (plan_total p Hp). destruct Hp as (_ & Hc & _). unfold expected_length. nia. Qed.

Lemma sum_of_acc {A} (f : A -> Z) l a : fold_left (fun total x => total + f x) l a = a + sum_of f l.
Proof.
  unfold sum_of. revert a. induction l as [|x l IH]; intros a; cbn [fold_left]; [lia|].
  rewrite IH, (IH (0 + f x)). lia.
Qed.

Lemma sum_of_cons {A} (f : A -> Z) x l : sum_of f (x :: l) = f x + sum_of f l.
Proof. unfold sum_of at 1. cbn [fold_left]. rewrite sum_of_acc. lia. Qed.

Lemma sum_of_app {A} (f : A -> Z) l l' : sum_of f (l ++ l') = sum_of f l + sum_of f l'.
Proof. induction l as [|x l IH]; [done|]. cbn [app]. rewrite !sum_of_cons, IH. lia. Qed.

Lemma sum_lengths_upto p n : well_planned p -> Z.of_nat n <= total_chunks p ->
  sum_of (fun i => expected_length p (Z.of_nat i)) (seq 0 n) = Z.min (expected_bytes p) (Z.of_nat n * chunk_size_bytes p).
Proof.
  intros Hp. pose proof (plan_total p Hp) as Ht. pose proof Hp as (He & Hc & _).
  induction n as [|n IH]; intros Hn; [cbn; lia|].
  rewrite seq_S, sum_of_app, IH by lia. rewrite sum_of_cons. change (sum_of _ []) with 0. cbn [Nat.add].
  unfold expected_length. nia.
Qed.
(** The part of the file that a client sends as one chunk. *)
Definition chunk_of (p : upload_plan) (data : bytes) (chunk_index : Z) : bytes :=
  slice (chunk_index * chunk_size_bytes p) (chunk_index * chunk_size_bytes p + expected_length p chunk_index) data.

Lemma chunk_of_length p data i : well_planned p -> len data = expected_bytes p -> 0 <= i < total_chunks p ->
  len (chunk_of p data i) = expected_length p i.
Proof.
  intros Hp Hd Hi. pose proof (plan_total p Hp). pose proof Hp as (_ & Hc & _).
  unfold chunk_of, expected_length. rewrite slice_length by nia. lia.
Qed.

Lemma slice_join {A} (d : list A) a b c : 0 <= a <= b -> b <= c -> slice a b d ++ slice b c d = slice a c d.
Proof.
  intros Hab Hbc. unfold slice. replace (drop (Z.to_nat b) d) with (drop (Z.to_nat (b - a)) (drop (Z.to_nat a) d)).
  2:{ rewrite drop_drop. f_equal. lia. }
  rewrite <-(take_drop (Z.to_nat (b - a)) (take (Z.to_nat (c - a)) (drop (Z.to_nat a) d))).
  rewrite take_take, skipn_firstn_comm. f_equal; f_equal; lia.
Qed.

Lemma chunks_upto p data n : well_planned p -> len data = expected_bytes p -> Z.of_nat n <= total_chunks p ->
  concat (map (fun i => chunk_of p data (Z.of_nat i)) (seq 0 n)) =
  slice 0 (Z.min (expected_bytes p) (Z.of_nat n * chunk_size_bytes p)) data.
Proof.
  intros Hp Hd. pose proof (plan_total p Hp) as Ht. pose proof Hp as (He & Hc & _).
  induction n as [|n IH]; intros Hn.
  { rewrite Z.mul_0_l, Z.min_r by lia. done. }
  rewrite seq_S, map_app, concat_app, IH by lia. cbn [map concat Nat.add]. rewrite app_nil_r. unfold chunk_of, expected_length.
  rewrite Z.min_r by nia. rewrite slice_join by nia. f_equal. nia.
Qed.

(** C32. The chunk plan is exact, although the number of chunks is the ceiling
    of a float quotient: it is the true ceiling, no chunk is empty or longer
    than the chunk size, and the chunks of a file of the declared size, in
    order, are the file. *)
Theorem chunk_plan_exact p data : well_planned p -> len data = expected_bytes p ->
  total_chunks p = (expected_bytes p + chunk_size_bytes p - 1) / chunk_size_bytes p /\
  (forall i, 0 <= i < total_chunks p ->
     0 < expected_length p i <= chunk_size_bytes p /\ len (chunk_of p data i) = expected_length p i) /\
  concat (map (fun i => chunk_of p data (Z.of_nat i)) (seq 0 (Z.to_nat (total_chunks p)))) = data.
Proof.
  intros Hp Hd. pose proof (plan_total p Hp) as Ht. pose proof Hp as (He & Hc & Hn). split_and!.
  - rewrite Hn. unfold chunk_count. rewrite ceil_true_div_exact by done. apply Z.max_r.
    apply Z.div_le_lower_bound; lia.
  - intros i Hi. split; [by apply expected_length_pos|by apply chunk_of_length].
  - rewrite chunks_upto by (done || lia). rewrite Z2Nat.id, Z.min_l by lia. rewrite <-Hd. apply slice_all. lia.
Qed.

Definition sample_plan : upload_plan :=
  {| id := lit "u"; case_id := lit "c"; evidence_id := lit "e"; expected_bytes := 5; expected_sha256 := None;
     display_name := lit "host.raw"; source_host := lit "host"; extension := lit ".raw"; staging_name := lit "s";
     canonical_relative_path := [lit "evidence"; lit "c"; lit "e"; lit "original"; lit "memory-image.raw"];
     chunk_size_bytes := 2; total_chunks := chunk_count 5 2; upload_mode := lit "resumable"; file_fingerprint := None |}.

Lemma chunk_plan_exact_witness :
  total_chunks sample_plan = 3 /\
  concat (map (fun i => chunk_of sample_plan [1; 2; 3; 4; 5] (Z.of_nat i)) (seq 0 (Z.to_nat (total_chunks sample_plan)))) =
  [1; 2; 3; 4; 5].
Proof.
  split; [reflexivity|].
  apply (chunk_plan_exact sample_plan [1; 2; 3; 4; 5]); [|reflexivity].
  unfold well_planned. cbn [expected_bytes chunk_size_bytes total_chunks sample_plan]. split; [lia|]. split; [lia|reflexivity].
Defined.
End UploadPlan.
