(* ===== verification/UploadPromote.v ===== *)
(** What the steps of the uploads do when a request runs alone, and the promotion
    of an assembled file: at every moment the destination is what it was or the
    whole file. *)
From S2P Require Import Prelude PyBase FileSystem Handlers UploadModel UploadShared.
Import Bytes Str FileSystem Handlers UploadModel UploadShared.

Module UploadPromote.

Section steps.
Context {U V : Type} `{Table U MemoryUpload} `{Table V Evidence}.
Abbreviation world := (world U V).
Abbreviation prog := (prog world upload_exn).
Implicit Types w : world.

Lemma run_on_files (f : fs -> result os_error fs) w :
  run (on_files f) w = match f (files w) with
                       | Ok f' => (w <| files := f' |>, Ok tt)
                       | Raise e => (w, Raise (UploadOs e))
                       | OutOfFuel => (w, OutOfFuel)
                       end.
Proof. unfold on_files, attempt. cbn [run]. by destruct (f (files w)). Qed.

Lemma run_read_files {A} (f : fs -> result os_error A) w :
  run (read_files f) w = (w, match f (files w) with
                             | Ok a => Ok a
                             | Raise e => Raise (UploadOs e)
                             | OutOfFuel => OutOfFuel
                             end).
Proof. unfold read_files, attempt. cbn [run]. by destruct (f (files w)). Qed.

Lemma traced_on_files (P : world -> Prop) (f : fs -> result os_error fs) w (Q : world -> result upload_exn unit -> Prop) :
  P w ->
  match f (files w) with
  | Ok f' => P (w <| files := f' |>) /\ Q (w <| files := f' |>) (Ok tt)
  | Raise e => Q w (Raise (UploadOs e))
  | OutOfFuel => Q w OutOfFuel
  end -> traced P (on_files f) w Q.
Proof. intros Hw HQ. apply traced_step; [done|]. unfold traced. cbn. destruct (f (files w)); naive_solver. Qed.

Lemma traced_read_files {A} (P : world -> Prop) (f : fs -> result os_error A) w Q :
  P w ->
  Q w (match f (files w) with Ok a => Ok a | Raise e => Raise (UploadOs e) | OutOfFuel => OutOfFuel end) ->
  traced P (read_files f) w Q.
Proof. intros Hw HQ. apply traced_step; [done|]. unfold traced. cbn. destruct (f (files w)); naive_solver. Qed.
End steps.

Lemma promote_temp_ne getpid dest : promote_temp getpid dest <> dest.
Proof.
  intros He. apply (f_equal name_of) in He. unfold promote_temp in He. rewrite name_snoc in He.
  apply (f_equal length) in He. rewrite !length_app in He. change (length (lit ".")) with 1%nat in He. lia.
Qed.

Section promote.
Context {U V : Type} `{Table U MemoryUpload} `{Table V Evidence}.
Abbreviation world := (world U V).
Variables (device : path -> Z) (getpid : str).
Implicit Types w : world.

(** [dest] is as in [w], or the whole content of [src] in [w]. *)
Definition old_or_whole (src dest : path) w w' : Prop :=
  files w' !! dest = files w !! dest \/
  exists content, files w !! src = Some (File content) /\ files w' !! dest = Some (File content).

(** [dest] now holds what [src] held, and the rest is as in [w]. *)
Definition promoted (src dest : path) w w' : Prop :=
  exists content, files w !! src = Some (File content) /\ files w' !! dest = Some (File content) /\
    (src <> dest -> files w' !! src = None) /\
    forall q, q <> src -> q <> dest -> q <> promote_temp getpid dest -> files w' !! q = files w !! q.

Lemma replace_promoted src dest w f : replace_file device src dest (files w) = Ok f -> promoted src dest w (w <| files := f |>).
Proof.
  intros (c & Hs & _ & ->)%replace_file_Ok. exists c. cbn. split_and!; [done|by rewrite lookup_insert_eq| |].
  - intros Hne. by rewrite lookup_insert_ne, lookup_delete_eq.
  - intros q Hq Hd _. by rewrite lookup_insert_ne, lookup_delete_ne.
Qed.

(** The outcome of a promotion that began in [w]. *)
Definition promotion (src dest : path) w w' (r : result upload_exn unit) : Prop :=
  match r with
  | Ok _ => promoted src dest w w'
  | Raise _ => files w' !! dest = files w !! dest /\ files w' !! src = files w !! src
  | OutOfFuel => False
  end.

Lemma cross_promote src dest w (temp := promote_temp getpid dest) :
  src <> temp -> src <> dest ->
  traced (old_or_whole src dest w) (_cross_filesystem_promote device getpid src dest) w (promotion src dest w).
Proof.
  intros Hst Hsd. pose proof (promote_temp_ne getpid dest) as Htd. fold temp in Htd.
  assert (Hw : old_or_whole src dest w w) by (by left).
  assert (Hfail : forall w' (e : upload_exn), (forall q, q <> temp -> files w' !! q = files w !! q) ->
    traced (A := unit) (old_or_whole src dest w) (on_files (unlink temp);* raise e) w'
      (fun w' r => match r with
                   | Ok _ => traced (old_or_whole src dest w) (on_files (unlink src)) w' (promotion src dest w)
                   | Raise e => promotion src dest w w' (Raise e)
                   | OutOfFuel => promotion src dest w w' OutOfFuel
                   end)).
  { intros w' e Hq. apply traced_bind, traced_on_files; [left; by apply Hq|].
    unfold unlink. destruct (files w' !! temp) as [[|c]|]; [by split; apply Hq| |].
    all: split; [left; cbn; rewrite lookup_delete_ne by done; by apply Hq|].
    all: apply traced_done; [left|split]; cbn; rewrite lookup_delete_ne by done; by apply Hq. }
  unfold _cross_filesystem_promote. fold temp. cbv zeta.
  apply traced_bind, traced_catch, traced_bind, traced_read_files; [done|].
  unfold read_bytes. destruct (files w !! src) as [[|content]|] eqn:Hsrc; [by apply Hfail| |by apply Hfail].
  apply traced_bind, traced_on_files; [done|]. destruct (create_file temp [] (files w)) as [f1|e|] eqn:Hc; [|by apply Hfail|].
  2:{ by apply create_file_total in Hc. }
  apply create_file_Ok in Hc as (_ & _ & ->).
  set (w1 := w <| files := <[temp := File []]> (files w) |>).
  split; [left; cbn; by rewrite lookup_insert_ne|].
  apply traced_bind, traced_on_files; [left; cbn; by rewrite lookup_insert_ne|].
  assert (append_bytes temp content (files w1) = <[temp := File content]> (files w)) as ->.
  { unfold append_bytes. cbn. by rewrite lookup_insert_eq, insert_insert_eq. }
  set (w2 := w1 <| files := <[temp := File content]> (files w) |>).
  assert (H2 : old_or_whole src dest w w2) by (left; cbn; by rewrite lookup_insert_ne).
  split; [done|]. apply traced_on_files; [done|].
  destruct (replace_file device temp dest (files w2)) as [f3|e|] eqn:Hr; [|apply Hfail|].
  - apply replace_file_Ok in Hr as (c & Ht & _ & ->). cbn in Ht. rewrite lookup_insert_eq in Ht. injection Ht as <-.
    set (w3 := w2 <| files := _ |>).
    assert (Hf3 : forall q, files w3 !! q =
      if decide (q = dest) then Some (File content) else if decide (q = temp) then None else files w !! q).
    { intros q. cbn. destruct (decide (q = dest)) as [->|Hd]; [by rewrite lookup_insert_eq|].
      rewrite lookup_insert_ne by done. destruct (decide (q = temp)) as [->|Ht]; [by rewrite lookup_delete_eq|].
      by rewrite lookup_delete_ne, lookup_insert_ne. }
    clearbody w3. assert (H3 : old_or_whole src dest w w3) by (right; exists content; rewrite Hf3; by rewrite decide_True).
    split; [done|]. apply traced_on_files; [done|]. unfold unlink. rewrite Hf3, !decide_False, Hsrc by done.
    assert (H4 : promoted src dest w (w3 <| files := delete src (files w3) |>)).
    { exists content. cbn. rewrite lookup_delete_ne, Hf3, decide_True by done. split_and!; [done|done| |].
      - intros _. apply lookup_delete_eq.
      - intros q Hq Hd Ht. by rewrite lookup_delete_ne, Hf3, !decide_False. }
    split; [right|done]. destruct H4 as (c & ? & ? & _). by exists c.
  - intros q Hq. cbn. by rewrite lookup_insert_ne.
  - by apply replace_file_total in Hr.
Qed.

(** C11. Promotion is atomic: while an assembled file is moved to its canonical
    path, on the same file system or across two, that path holds at every moment
    what it held before or the whole content; if the promotion fails, neither
    path has changed, and if it succeeds the content is at the destination, the
    source is gone and no other file but the temporary one has changed. *)
Theorem promotion_atomic src dest w : src <> promote_temp getpid dest -> src <> dest ->
  traced (old_or_whole src dest w) (atomic_promote device getpid src dest) w (promotion src dest w).
Proof.
  intros Hst Hsd. assert (Hw : old_or_whole src dest w w) by (by left).
  apply traced_catch, traced_on_files; [done|].
  destruct (replace_file device src dest (files w)) as [f|e|] eqn:Hr.
  - apply replace_promoted in Hr. split; [|done]. destruct Hr as (c & ? & ? & _). right. by exists c.
  - destruct (bool_decide_reflect (UploadOs e = UploadOs EXDEV)); [by apply cross_promote|]. by apply traced_done.
  - by apply replace_file_total in Hr.
Qed.
End promote.

Abbreviation sample_world := (world (gmap str MemoryUpload) (gmap str Evidence)).
Definition sample_files : fs :=
  <[[lit "staging"] := Dir]> (<[[lit "data"] := Dir]> (<[[lit "staging"; lit "a.part"] := File [1; 2]]> ∅)).
Definition empty_world (f : fs) : sample_world :=
  {| files := f; uploads := ∅; evidence := ∅; locks := ∅; redis_up := true; disk_free := fun _ => 2 ^ 50; clock := 0; uuids := 0 |}.
(** Staging on one device, the data on another. *)
Definition two_devices (p : path) : Z := if below [lit "data"] p then 1 else 0.

Lemma promotion_atomic_witness :
  let src := [lit "staging"; lit "a.part"] in
  let dest := [lit "data"; lit "image.raw"] in
  traced (old_or_whole src dest (empty_world sample_files)) (atomic_promote two_devices (lit "7") src dest)
    (empty_world sample_files) (promotion (lit "7") src dest (empty_world sample_files)) /\
  snd (run (atomic_promote two_devices (lit "7") src dest) (empty_world sample_files)) = Ok tt.
Proof.
  intros src dest. split; [|vm_compute; reflexivity].
  apply promotion_atomic; apply (bool_decide_eq_false_1 (_ = _)); vm_compute; reflexivity.
Defined.
End UploadPromote.
