(* ===== verification/UploadSamples.v ===== *)
(** Concrete settings, sessions and requests on which the theorems about uploads
    are evaluated. *)
From S2P Require Import Prelude PyBase FileSystem Handlers UploadModel UploadShared UploadSession UploadPlan UploadPromote.
Import Bytes Str FileSystem Handlers UploadModel UploadShared UploadSession UploadPlan UploadPromote.

Module UploadSamples.

Definition sample_settings : Settings := {|
  memory_upload_enabled := true; memory_upload_max_bytes := 2 ^ 40; memory_max_upload_size := 2 ^ 31;
  disk_image_ingest_enabled := true; backend_max_upload_size := 2 ^ 40; memory_upload_extensions := [lit ".raw"];
  memory_upload_case_quota_bytes := 2 ^ 40; memory_upload_min_free_space_bytes := 0; memory_plugin_output_max_bytes := 0;
  memory_upload_direct_threshold_bytes := 2 ^ 30; memory_upload_chunk_size_bytes := 2; memory_upload_chunk_size_min_bytes := 2;
  memory_upload_chunk_size_max_bytes := 2; memory_upload_session_ttl_seconds := 3600; memory_upload_cleanup_age_seconds := 3600;
  memory_upload_staging_path := [lit "staging"]; backend_data_dir := [lit "data"]; memory_output_root := None |}.
Definition sample_uuid (n : nat) : str := lit "uuid-" ++ str_of_Z (Z.of_nat n).
(** A hash for small contents: 64 characters that end with the content. *)
Definition sample_sha (b : bytes) : str := repeat (code "0") (64 - length b) ++ map (Z.add 48) b.
Definition one_device (p : path) : Z := 0.

(** A session as [create_memory_upload_session] leaves it. *)
Definition sample_row (p : upload_plan) : MemoryUpload :=
  {| plan := p; status := created; bytes_received := 0; received_chunk_count := 0; sha256 := None; failure_code := None;
     retryable := false; stage := None; registration_state := None; registration_attempts := 0; canonical_preserved := false;
     metadata_json := {| received_chunks := ∅; active_chunks := ∅; duplicate := None |}; updated_at := 0; expires_at := 3600 |}.
Definition session_files (p : upload_plan) : fs :=
  <[[lit "staging"; staging_name p; lit "chunks"] := Dir]> (<[[lit "staging"; staging_name p] := Dir]> (<[[lit "staging"] := Dir]> ∅)).
Definition session_world (p : upload_plan) : sample_world :=
  empty_world (session_files p) <| uploads := {[ id p := sample_row p ]} |>.

Definition small_plan : upload_plan :=
  {| id := lit "u"; case_id := lit "c"; evidence_id := lit "e"; expected_bytes := 2; expected_sha256 := None;
     display_name := lit "host.raw"; source_host := lit "host"; extension := lit ".raw"; staging_name := lit "s";
     canonical_relative_path := [lit "evidence"; lit "c"; lit "e"; lit "original"; lit "memory-image.raw"];
     chunk_size_bytes := 2; total_chunks := chunk_count 2 2; upload_mode := lit "resumable"; file_fingerprint := None |}.

Definition serve (request : upload_request) : prog sample_world upload_exn unit :=
  handle sample_sha one_device (lit "7") sample_uuid lower sample_settings request.
Definition store (i : Z) (chunk : bytes) (declared : option str) : upload_request :=
  StoreChunk (lit "c") (lit "u") i [Some chunk] None declared (lit "resumable").
Definition finalize : upload_request := Finalize (lit "c") (lit "u") None.
Definition cancel : upload_request := Cancel (lit "c") (lit "u").

(** The requests one after the other. *)
Definition serve_all (requests : list upload_request) (w : sample_world) : sample_world :=
  fold_left (fun w request => fst (run (serve request) w)) requests w.

(** What the tables and the tree hold of the session [u] afterwards. *)
Definition session_row (w : sample_world) : option MemoryUpload := row (uploads w) (lit "u").
Definition recorded (w : sample_world) (i : Z) : option chunk_meta :=
  match session_row w with Some item => received_chunks (metadata_json item) !! i | None => None end.
Definition stored (p : upload_plan) (w : sample_world) (i : Z) : option node :=
  files w !! _chunk_path sample_settings (sample_row p) i.
Definition canonical (p : upload_plan) (w : sample_world) : option node :=
  files w !! _canonical_path sample_settings (sample_row p).
Definition answers (ps : list (prog sample_world upload_exn unit)) : list (option (result upload_exn unit)) :=
  map (fun p => match p with Done r => Some r | Step _ _ => None end) ps.
End UploadSamples.
