(* ===== verification/UploadInvariant.v ===== *)
(** What holds in every interleaving of the requests of the upload sessions:
    the bounds and sizes of recorded chunks and of chunk files.  A request owns
    the temporary file that it writes piece by piece. *)
From stdpp Require Import relations.
From S2P Require Import Prelude PyBase Decimals FileSystem Handlers UploadModel UploadShared UploadSession UploadPlan UploadPromote.
Import Bytes Str Decimals FileSystem Handlers UploadModel UploadShared UploadSession UploadPlan UploadPromote.

Module UploadInvariant.

(** * Names of chunk files *)
Lemma pad8_inj i j : 0 <= i -> 0 <= j -> pad8 i = pad8 j -> i = j.
Proof. intros Hi Hj. by apply padded_inj. Qed.

Lemma pad8_no_dot i : 0 <= i -> code "." ∉ pad8 i.
Proof. intros Hi. apply padded_no_char; [done|]. left. reflexivity. Qed.

(** What precedes the first dot. *)
Lemma split_at_char (c : Z) (a b x y : str) : c ∉ a -> c ∉ b -> a ++ c :: x = b ++ c :: y -> a = b /\ x = y.
Proof.
  revert b. induction a as [|d a IH]; intros [|e b] Ha Hb; cbn [app].
  - by intros [= ->].
  - intros [= -> ->]. exfalso. apply Hb. by left.
  - intros [= -> <-]. exfalso. apply Ha. by left.
  - intros [= -> He]. rewrite not_elem_of_cons in Ha, Hb. destruct (IH b) as [-> ->]; tauto.
Qed.

Lemma chunk_name_inj i j : 0 <= i -> 0 <= j -> chunk_name i = chunk_name j -> i = j.
Proof.
  intros Hi Hj He. apply (split_at_char (code ".")) in He as [He _]; [by apply pad8_inj|by apply pad8_no_dot..].
Qed.

Lemma part_name_inj i j t t' : 0 <= i -> 0 <= j -> part_name i t = part_name j t' -> i = j.
Proof.
  intros Hi Hj He. apply (split_at_char (code ".")) in He as [He _]; [by apply pad8_inj|by apply pad8_no_dot..].
Qed.

Lemma chunk_part_ne i j t : chunk_name i <> part_name j t.
Proof.
  intros He. apply (f_equal last) in He. unfold chunk_name, part_name in He.
  rewrite !app_assoc in He. change (lit ".chunk") with (lit ".chun" ++ [code "k"]) in He.
  change (lit ".part") with (lit ".par" ++ [code "t"]) in He. by rewrite !app_assoc, !last_snoc in He.
Qed.

(** * Chunk files *)
Section invariant.
Context {U V : Type} `{Table U MemoryUpload} `{Table V Evidence}.
Abbreviation world := (world U V).
Abbreviation prog := (prog world upload_exn).
Implicit Types w : world.
Variables (sha256_of : bytes -> str) (device : path -> Z) (getpid : str) (uuid_text : nat -> str).
Variables (py_lower : str -> str) (settings : Settings).
Context `{!Inj (=) (=) uuid_text}.

(** The sessions there are, each with its plan and a staging directory of its
    own; canonical files are not kept under the staging root. *)
Variable plans : str -> option upload_plan.
Record sessions_ok : Prop := {
  plan_id u p : plans u = Some p -> id p = u;
  plan_ok u p : plans u = Some p -> well_planned p;
  own_staging u u' p p' : plans u = Some p -> plans u' = Some p' -> staging_name p = staging_name p' -> u = u';
  canonical_apart u p : plans u = Some p ->
    below (memory_upload_staging_path settings) (backend_data_dir settings ++ canonical_relative_path p) = false }.
Hypothesis Hsessions : sessions_ok.

Definition staged_dir (p : upload_plan) : path := memory_upload_staging_path settings ++ [staging_name p; lit "chunks"].
(** The file of chunk [i], and the temporary one of the request that drew [n]. *)
Definition chunk_file (p : upload_plan) (i : Z) : path := staged_dir p ++ [chunk_name i].
Definition part_file (p : upload_plan) (i : Z) (n : nat) : path := staged_dir p ++ [part_name i (uuid_text n)].

(** [q] is the file of chunk [i] of session [p], stored or still temporary. *)
Definition staged (p : upload_plan) (i : Z) (q : path) : Prop :=
  0 <= i < total_chunks p /\ (q = chunk_file p i \/ exists token, q = staged_dir p ++ [part_name i token]).

Definition files_ok (f : fs) : Prop :=
  forall u p i content, plans u = Some p -> 0 <= i < total_chunks p -> f !! chunk_file p i = Some (File content) ->
    len content = expected_length p i.
(** What is left of earlier requests has not a name that is still to be drawn. *)
Definition names_new w : Prop :=
  forall u p i n content, plans u = Some p -> 0 <= i < total_chunks p -> (uuids w <= n)%nat ->
    files w !! part_file p i n <> Some (File content).

Definition meta_ok (p : upload_plan) (m : session_metadata) : Prop :=
  (forall i c, received_chunks m !! i = Some c -> 0 <= i < total_chunks p /\ size c = expected_length p i) /\
  (forall i, i ∈ active_chunks m -> 0 <= i < total_chunks p).

Definition item_ok (item : MemoryUpload) : Prop :=
  plans (id (plan item)) = Some (plan item) /\ meta_ok (plan item) (metadata_json item).
Definition rows_ok w : Prop := forall u item, row (uploads w) u = Some item -> id (plan item) = u /\ item_ok item.

(** The invariant. *)
Definition sizes_ok w : Prop := files_ok (files w) /\ names_new w /\ rows_ok w.

(** A request that writes a chunk owns its temporary file: that file holds what
    the request has written to it, if it is there at all. *)
Abbreviation own := (option (path * bytes)).
Definition owns (o : own) w : Prop :=
  match o with
  | None => True
  | Some (q, content) =>
      (exists u p i n, plans u = Some p /\ 0 <= i < total_chunks p /\ (n < uuids w)%nat /\ q = part_file p i n) /\
      forall c, files w !! q = Some (File c) -> c = content
  end.
Definition apart (o o' : own) : Prop :=
  match o, o' with Some (q, _), Some (q', _) => q <> q' | _, _ => True end.
#[export] Instance apart_symmetric : Symmetric apart.
Proof. intros [[q b]|] [[q' b']|]; cbn; congruence. Qed.

(** No file of a chunk, stored or temporary, has appeared or changed. *)
Definition quiet_files (f f' : fs) : Prop :=
  forall u p i q content, plans u = Some p -> staged p i q -> f' !! q = Some (File content) -> f !! q = Some (File content).
Definition quiet w w' : Prop := (uuids w <= uuids w')%nat /\ quiet_files (files w) (files w').
#[local] Instance quiet_reflexive : Reflexive quiet.
Proof. intros w. split; [lia|]. by intros u p i q c. Qed.

Lemma quiet_same w w' : uuids w' = uuids w -> files w' = files w -> quiet w w'.
Proof. intros Hu Hf. unfold quiet. rewrite Hu, Hf. apply (quiet_reflexive w). Qed.

Lemma staged_chunk p i : 0 <= i < total_chunks p -> staged p i (chunk_file p i).
Proof. split; [done|by left]. Qed.
Lemma staged_part p i n : 0 <= i < total_chunks p -> staged p i (part_file p i n).
Proof. split; [done|right; by eexists]. Qed.

Lemma part_file_inj p i n p' i' n' : 0 <= i -> 0 <= i' -> part_file p i n = part_file p' i' n' -> n = n'.
Proof.
  intros Hi Hi' [_ He]%snoc_inj. apply (split_at_char (code ".")) in He as [_ He]; [|by apply pad8_no_dot..].
  apply app_inv_tail in He. by apply (inj uuid_text).
Qed.
Lemma chunk_part_file p i p' i' n : chunk_file p i <> part_file p' i' n.
Proof. intros [_ He]%snoc_inj. by apply chunk_part_ne in He. Qed.

Lemma owns_quiet o w w' : quiet w w' -> owns o w -> owns o w'.
Proof.
  intros [Hu Hf]. destruct o as [[q content]|]; [|done]. intros [(u & p & i & n & Hp & Hi & Hn & ->) Hc]. split.
  - exists u, p, i, n. split; [done|]. split; [done|]. split; [lia|done].
  - intros c Hq. apply Hc. eapply Hf; [done|by apply staged_part|done].
Qed.

Lemma quiet_sizes w w' : sizes_ok w -> quiet w w' -> rows_ok w' -> sizes_ok w'.
Proof.
  intros (Hf & Hn & _) [Hu Hq] Hr. split_and!; [| |done].
  - intros u p i c Hp Hi Hc. eapply Hf; [done|done|]. eapply Hq; [done|by apply staged_chunk|done].
  - intros u p i n c Hp Hi Hle Hc. eapply (Hn u p i n); [done|done|lia|]. eapply Hq; [done|by apply staged_part|done].
Qed.

Lemma chunk_file_inj u u' p p' i i' : plans u = Some p -> plans u' = Some p' -> 0 <= i < total_chunks p -> 0 <= i' < total_chunks p' ->
  chunk_file p' i' = chunk_file p i -> p' = p /\ i' = i.
Proof.
  intros Hp Hp' Hi Hi' [Hd He]%snoc_inj. apply chunk_name_inj in He; [|lia..]. split; [|done].
  unfold staged_dir in Hd. apply app_inv_head in Hd. injection Hd as Hd.
  assert (u' = u) as -> by (by eapply own_staging). congruence.
Qed.

Lemma staged_below p i q : staged p i q -> below (memory_upload_staging_path settings) q = true.
Proof.
  intros [_ [->|[t ->]]]; apply below_spec; unfold chunk_file, staged_dir; rewrite <-app_assoc; eauto.
Qed.

(** Files that are removed, kept, or not of a chunk do not matter. *)
Lemma quiet_mono (f f' : fs) :
  (forall q content, f' !! q = Some (File content) ->
     f !! q = Some (File content) \/ forall u p i, plans u = Some p -> ~ staged p i q) -> quiet_files f f'.
Proof. intros Hsub u p i q content Hp Hq Hc. destruct (Hsub _ _ Hc) as [Hc'|Hout]; [done|]. by destruct (Hout u p i Hp). Qed.

Lemma mkdir_quiet q f f' : mkdir q f = Ok f' -> quiet_files f f'.
Proof.
  intros Hm. apply quiet_mono. intros q' c. rewrite (mkdir_lookup _ _ _ _ Hm). destruct (_ && _); [done|]. by left.
Qed.

Lemma rmtree_quiet q f : quiet_files f (rmtree q f).
Proof. apply quiet_mono. intros q' c. rewrite rmtree_lookup. destruct (below q q'); [done|]. by left. Qed.

Lemma delete_quiet q f : quiet_files f (delete q f).
Proof. apply quiet_mono. intros q' c. rewrite lookup_delete_Some. by intros [_ ?]; left. Qed.

Lemma unlink_quiet q f f' : unlink q f = Ok f' -> quiet_files f f'.
Proof.
  intros Hu. unfold unlink in Hu. assert (f' = delete q f) as -> by (destruct (f !! q) as [[]|]; congruence). apply delete_quiet.
Qed.

(** A file outside the staging of chunks may be anything. *)
Lemma insert_outside q node f f0 : (forall u p i, plans u = Some p -> ~ staged p i q) -> quiet_files f0 f -> quiet_files f0 (<[q := node]> f).
Proof.
  intros Hq Hf u p i q' c Hp Hs. destruct (decide (q' = q)) as [->|Hne]; [by destruct (Hq u p i)|].
  rewrite lookup_insert_ne by done. by apply (Hf u p i).
Qed.

(** * Steps *)
Abbreviation keeping := (minds (W := world) (E := upload_exn) (A := _) sizes_ok owns apart).
Abbreviation acting := (acts (W := world) (E := upload_exn) (A := _) sizes_ok owns apart).

Lemma keeping_attempt {A} (Q : A -> Prop) f :
  (forall w w' a, sizes_ok w -> f w = Ok (w', a) -> quiet w w' /\ rows_ok w' /\ Q a) -> keeping Q (attempt f).
Proof.
  intros Hf. apply (minds_attempt _ _ _ _ owns_quiet). intros w w' a Hw Ha. destruct (Hf w w' a Hw Ha) as (Hq & Hr & HQ).
  split; [by eapply quiet_sizes|done].
Qed.

Lemma keeping_update f : (forall w, sizes_ok w -> quiet w (f w) /\ rows_ok (f w)) -> keeping (fun _ => True) (update f).
Proof.
  intros Hf. apply (minds_update _ _ _ _ owns_quiet). intros w Hw. destruct (Hf w Hw) as [Hq Hr].
  split; [by eapply quiet_sizes|done].
Qed.

Lemma keeping_look {A} (Q : A -> Prop) f : (forall w, sizes_ok w -> Q (f w)) -> keeping Q (look f).
Proof. apply (minds_look _ _ _ _ owns_quiet). Qed.

Lemma keeping_on_files g : (forall f f', g f = Ok f' -> quiet_files f f') -> keeping (fun _ => True) (on_files g).
Proof.
  intros Hg. apply keeping_attempt. intros w w' a Hw. destruct (g (files w)) as [f'| |] eqn:Hgf; [|done|done].
  intros [= <- _]. split; [|split; [apply Hw|done]]. split; [done|by apply Hg].
Qed.

Lemma keeping_read_files {A} (Q : A -> Prop) g : (forall f a, g f = Ok a -> Q a) -> keeping Q (read_files g).
Proof.
  intros Hg. apply keeping_attempt. intros w w' a Hw. destruct (g (files w)) as [x| |] eqn:Hgf; [|done|done].
  intros [= <- <-]. split; [by apply quiet_same|]. split; [apply Hw|by eapply Hg].
Qed.

Definition loaded_as (u : str) (item : MemoryUpload) : Prop := id (plan item) = u /\ item_ok item.

Lemma keeping_get_row u : keeping (fun o => forall item, o = Some item -> loaded_as u item) (get_row u).
Proof. apply keeping_look. intros w (_ & _ & Hr) item Hi. by apply Hr. Qed.

Lemma keeping_refresh u : keeping (loaded_as u) (refresh u).
Proof.
  apply keeping_attempt. intros w w' a Hw. destruct (row (uploads w) u) as [item|] eqn:Hu; [|done].
  intros [= <- <-]. split; [by apply quiet_same|]. destruct Hw as (_ & _ & Hr). split; [done|by apply Hr].
Qed.

Lemma with_row w u item : sizes_ok w -> id (plan item) = u -> item_ok item ->
  quiet w (w <| uploads := put u item (uploads w) |>) /\ rows_ok (w <| uploads := put u item (uploads w) |>).
Proof.
  intros (_ & _ & Hr) Hid Hi. split; [by apply quiet_same|]. intros u' item'. cbn. destruct (decide (u' = u)) as [->|Hne].
  - rewrite row_put_eq. by intros [= <-].
  - rewrite row_put_ne by done. apply Hr.
Qed.

Lemma keeping_commit loaded item : item_ok loaded -> meta_ok (plan loaded) (metadata_json item) ->
  keeping (fun _ => True) (commit loaded item).
Proof.
  intros [Hp Hm] Hi. apply keeping_update. intros w Hw. pose proof Hw as (_ & _ & Hr).
  destruct (row (uploads w) (id (plan loaded))) as [current|] eqn:Hc; [|split; [by apply quiet_same|done]].
  destruct (decide (item = loaded)); [split; [by apply quiet_same|done]|]. destruct (Hr _ _ Hc) as [Hid [Hcp Hcm]].
  assert (plan current = plan loaded) as Hpl by (rewrite Hid in Hcp; congruence).
  apply with_row; [done|done|]. split; [by cbn|]. cbn. unfold merge_column. rewrite Hpl in *.
  by destruct (decide (metadata_json item = metadata_json loaded)).
Qed.

Lemma keeping_write_columns u f : (forall r, plan (f r) = plan r /\ metadata_json (f r) = metadata_json r) ->
  keeping (fun _ => True) (write_columns u f).
Proof.
  intros Hf. apply keeping_update. intros w Hw. pose proof Hw as (_ & _ & Hr).
  destruct (row (uploads w) u) as [current|] eqn:Hc; [|split; [by apply quiet_same|done]]. destruct (Hr _ _ Hc) as [Hid Hok]. destruct (Hf current) as [Hp Hm].
  apply with_row; [done|by cbn; rewrite Hp|]. unfold item_ok. cbn. by rewrite Hp, Hm.
Qed.

(** Steps that touch neither files nor sessions. *)
Lemma keeping_elsewhere {A} (f : world -> result upload_exn (world * A)) :
  (forall w w' a, f w = Ok (w', a) -> files w' = files w /\ uploads w' = uploads w /\ uuids w' = uuids w) ->
  keeping (fun _ => True) (attempt f).
Proof.
  intros Hf. apply keeping_attempt. intros w w' a (_ & _ & Hr) (Hfi & Hu & Hn)%Hf.
  split; [by apply quiet_same|]. unfold rows_ok. by rewrite Hu.
Qed.

Lemma uuid_quiet w : quiet w (w <| uuids := S (uuids w) |>).
Proof. split; [cbn; lia|by intros u p i q c]. Qed.

Lemma keeping_uuid4 : keeping (fun _ => True) (uuid4 uuid_text : prog str).
Proof.
  intros o w Hw Ho. pose proof (uuid_quiet w) as Hq. split; [eapply quiet_sizes; [done|done|apply Hw]|].
  exists o. split; [by eapply owns_quiet|]. split; [by apply (spares_quiet _ _ _ owns_quiet)|done].
Qed.

Lemma keeping_lock {A} (Q : A -> Prop) key (body : prog A) : keeping Q body -> keeping Q (_redis_upload_lock uuid_text key body).
Proof.
  intros Hb. unfold _redis_upload_lock, redis_upload_lock. apply minds_catch; [|by intros []].
  eapply minds_bind; [apply keeping_uuid4|]. intros token _.
  eapply minds_bind.
  - apply keeping_elsewhere. intros w w' a. destruct (negb (redis_up w)); [done|]. destruct (locks w !! key); [done|].
    by intros [= <- _].
  - intros _ _. apply minds_finally; [done|]. apply keeping_update. intros w (_ & _ & Hr). destruct (_ && _); (split; [by apply quiet_same|done]).
Qed.

(** * Requests *)
Definition same_session (item item' : MemoryUpload) : Prop := plan item' = plan item /\ metadata_json item' = metadata_json item.

Lemma keeping_touch item : keeping (same_session item) (_touch_session settings item : prog MemoryUpload).
Proof.
  eapply minds_bind; [by apply (keeping_look (fun _ => True))|]. intros now _. apply minds_done. by intros a [= <-].
Qed.

Lemma keeping_cleanup item : keeping (fun _ => True) (_cleanup_session_storage settings item : prog unit).
Proof. apply keeping_on_files. intros f f' [= <-]. apply rmtree_quiet. Qed.

Lemma item_ok_meta item : item_ok item -> meta_ok (plan item) (metadata_json item).
Proof. by intros [_ ?]. Qed.

(** A commit after [_touch_session] of changes to other columns. *)
Lemma keeping_touch_commit loaded item : item_ok loaded -> meta_ok (plan loaded) (metadata_json item) ->
  keeping (fun _ => True) (let* changed := _touch_session settings item in commit loaded changed : prog unit).
Proof.
  intros Hl Hm. eapply minds_bind; [apply keeping_touch|]. intros changed [_ Hmeta].
  apply keeping_commit; [done|by rewrite Hmeta].
Qed.

Lemma received_meta_ok (p : upload_plan) i c (m : session_metadata) : meta_ok p m -> 0 <= i < total_chunks p -> size c = expected_length p i ->
  meta_ok p (m <| received_chunks := <[i := c]> (received_chunks m) |>).
Proof.
  intros [Hr Ha] Hi Hc. split; [|done]. cbn. intros j d. destruct (decide (j = i)) as [->|Hne].
  - rewrite lookup_insert_eq. by intros [= <-].
  - rewrite lookup_insert_ne by done. apply Hr.
Qed.

Lemma active_meta_ok (p : upload_plan) (i : Z) (b : bool) (m : session_metadata) : meta_ok p m -> 0 <= i < total_chunks p ->
  meta_ok p (m <| active_chunks := if b then {[ i ]} ∪ active_chunks m else active_chunks m ∖ {[ i ]} |>).
Proof. intros [Hr Ha] Hi. split; [done|]. cbn. intros j. destruct b; set_solver. Qed.

Lemma keeping_record u p i meta st : plans u = Some p -> 0 <= i < total_chunks p -> size meta = expected_length p i ->
  keeping (loaded_as u) (_record_chunk_received uuid_text settings u i meta st).
Proof.
  intros Hp Hi Hm. apply keeping_lock. eapply minds_bind; [apply keeping_refresh|]. intros item [Hid Hok].
  assert (plan item = p) as Hpl by (destruct Hok as [Hok _]; rewrite Hid in Hok; congruence).
  eapply minds_bind; [apply keeping_touch|]. intros changed [_ Hmeta].
  eapply minds_bind; [|intros _ _; apply keeping_refresh].
  apply keeping_commit; [done|]. rewrite Hmeta, Hpl. cbn. destruct Hok as [_ Hok]. rewrite Hpl in Hok.
  by apply received_meta_ok.
Qed.

Lemma keeping_unlink q : keeping (fun _ => True) (on_files (unlink q) : prog unit).
Proof. apply keeping_on_files. intros f f'. apply unlink_quiet. Qed.

Lemma keeping_mkdir q : keeping (fun _ => True) (on_files (mkdir q) : prog unit).
Proof. apply keeping_on_files. intros f f'. apply mkdir_quiet. Qed.

Lemma keeping_then {A B} (Q : B -> Prop) (p : prog A) (q : prog B) :
  keeping (fun _ => True) p -> keeping Q q -> keeping Q (p;* q).
Proof. intros Hp Hq. eapply minds_bind; [exact Hp|]. by intros. Qed.

Lemma keeping_any {A} (Q : A -> Prop) (p : prog A) : keeping Q p -> keeping (fun _ => True) p.
Proof. apply minds_mono. done. Qed.

(** A failure that follows the removal of a temporary file. *)
Lemma keeping_refuse {A} (Q : A -> Prop) q e : keeping Q (on_files (unlink q);* raise e : prog A).
Proof. apply keeping_then; [apply keeping_unlink|done]. Qed.

Lemma keeping_existing u p item i temp final meta : loaded_as u item -> plans u = Some p -> 0 <= i < total_chunks p ->
  size meta = expected_length p i ->
  keeping (loaded_as u) (existing_chunk sha256_of uuid_text settings u item i temp final meta).
Proof.
  intros Hitem Hp Hi Hm. unfold existing_chunk. cbv zeta.
  destruct (received_chunks (metadata_json item) !! i) as [existing|].
  - destruct (bool_decide (existing = meta)); [|apply keeping_refuse].
    apply keeping_then; [apply keeping_unlink|]. by apply minds_done; intros a [= <-].
  - apply (minds_bind _ _ _ _ (fun adopted => forall item', adopted = Some item' -> loaded_as u item')).
    + apply minds_catch; [|by intros []].
      eapply minds_bind; [by apply (keeping_read_files (fun _ => True))|]. intros disk_size _.
      destruct (negb _); [apply keeping_refuse|].
      eapply minds_bind; [by apply (keeping_read_files (fun _ => True))|]. intros content _.
      destruct (bool_decide _); [|by apply minds_done; intros a [= <-]].
      apply keeping_then; [apply keeping_unlink|].
      eapply minds_bind; [by eapply keeping_record|]. intros item' Hitem'. apply minds_done. by intros a [= <-] item'' [= <-].
    + intros [item'|] Had; [|apply keeping_refuse]. apply minds_done. intros a [= <-]. by apply Had.
Qed.

(** ** The temporary file of a request *)
Lemma acting_uuid4 u p i o : plans u = Some p -> 0 <= i < total_chunks p ->
  acting (fun o' token => o' = Some (staged_dir p ++ [part_name i token], [])) o (uuid4 uuid_text : prog str).
Proof.
  intros Hp Hi w Hw Ho. pose proof (uuid_quiet w) as Hq. split; [eapply quiet_sizes; [done|done|apply Hw]|].
  exists (Some (part_file p i (uuids w), [])). split; [|split; [|done]].
  - split; [exists u, p, i, (uuids w); split; [done|]; split; [done|]; split; [cbn; lia|done]|]. intros c Hc. destruct Hw as (_ & Hn & _).
    by destruct (Hn u p i (uuids w) c).
  - intros [[q2 b2]|] _; [|done]. intros Ho2. split; [|by apply (owns_quiet _ w)].
    destruct Ho2 as [(u2 & p2 & i2 & n2 & _ & Hi2 & Hn2 & ->) _]. cbn. intros He%part_file_inj; lia.
Qed.

(** A step that changes the owned file only. *)
Lemma acting_own q b b' g :
  (forall f f', (forall c, f !! q = Some (File c) -> c = b) -> g f = Ok f' ->
     (forall c, f' !! q = Some (File c) -> c = b') /\ forall q', q' <> q -> f' !! q' = f !! q') ->
  acting (fun o _ => o = Some (q, b')) (Some (q, b)) (on_files g : prog unit).
Proof.
  intros Hg. apply acts_attempt. intros w w' [] Hw [Hown Hc]. destruct (g (files w)) as [f'| |] eqn:Hgf; [|done|done].
  intros [= <-]. destruct (Hg _ _ Hc Hgf) as [Hc' Hoth]. destruct Hown as (u & p & i & n & Hp & Hi & Hn & ->).
  destruct Hw as (Hf & Hnew & Hr). split; [split_and!; [| |done]|].
  - intros u' p' i' c Hp' Hi'. cbn. rewrite Hoth by apply chunk_part_file. by apply (Hf u' p').
  - intros u' p' i' n' c Hp' Hi' Hle. cbn in *. rewrite Hoth; [by eapply Hnew|]. intros He%part_file_inj; lia.
  - exists (Some (part_file p i n, b')). split; [split; [by exists u, p, i, n|done]|]. split; [|done].
    intros [[q2 b2]|] Ha; [|done]. intros [Hown2 Hc2]. split; [done|]. split; [done|]. intros c. cbn. rewrite Hoth by (intros ->; by apply Ha).
    apply Hc2.
Qed.

Lemma acting_refuse {A} (Q : own -> A -> Prop) o q e : acting Q o (on_files (unlink q);* raise e : prog A).
Proof. eapply acts_bind; [apply keeping_unlink|]. done. Qed.

Lemma acting_stream q length received chunks :
  acting (fun o payload => o = Some (q, payload)) (Some (q, received)) (write_stream q length received chunks : prog bytes).
Proof.
  revert received. induction chunks as [|[chunk|] chunks IH]; intros received; cbn [write_stream]; [done| |done].
  destruct (bool_decide (chunk = [])); [apply IH|]. cbv zeta. destruct (_ <? _); [apply acting_refuse|].
  apply (acts_bind _ _ _ _ (fun o _ => o = Some (q, received ++ chunk))); [|by intros o [] ->; apply IH].
  apply acting_own. intros f f' Hc [= <-]. unfold append_bytes.
  destruct (f !! q) as [[|c]|] eqn:Hq; [split; [intros c; by rewrite Hq|done]| |split; [intros c; by rewrite Hq|done]].
  rewrite (Hc c eq_refl). split; [|intros q' Hne; by rewrite lookup_insert_ne].
  intros c'. rewrite lookup_insert_eq. by intros [= <-].
Qed.

Lemma acting_receive q length declared chunks :
  acting (fun o sha => exists content, o = Some (q, content) /\ len content = length) (Some (q, []))
    (receive_chunk sha256_of q length declared chunks : prog str).
Proof.
  unfold receive_chunk. eapply acts_bind.
  { apply (acting_own q [] []). intros f f' _ (_ & _ & ->)%create_file_Ok. split.
    - intros c. rewrite lookup_insert_eq. by intros [= <-].
    - intros q' Hne. by rewrite lookup_insert_ne. }
  intros o [] ->. eapply acts_bind; [apply acting_stream|]. intros o payload ->. cbv zeta.
  destruct (Z.eqb_spec (len payload) length) as [Hl|]; [|apply acting_refuse].
  destruct (match declared with Some _ => _ | None => _ end); [apply acting_refuse|]. by exists payload.
Qed.

Lemma acting_replace u p i q content : plans u = Some p -> 0 <= i < total_chunks p -> len content = expected_length p i ->
  acting (fun _ _ => True) (Some (q, content)) (on_files (replace_file device q (chunk_file p i)) : prog unit).
Proof.
  intros Hp Hi Hl. apply acts_attempt. intros w w' [] Hw Ho. destruct (replace_file _ _ _ _) as [f'| |] eqn:Hrf; [|done|done].
  intros [= <-]. apply replace_file_Ok in Hrf as (c & Hs & _ & ->). pose proof Ho as [(u1 & p1 & i1 & n & Hp1 & Hi1 & Hn & ->) Hc].
  rewrite (Hc c Hs) in *. destruct Hw as (Hf & Hnew & Hr).
  assert (Hother : forall q', q' <> chunk_file p i -> forall c', <[chunk_file p i := File content]> (delete (part_file p1 i1 n) (files w)) !! q' = Some (File c') ->
    q' <> part_file p1 i1 n /\ files w !! q' = Some (File c')).
  { intros q' Hq' c'. rewrite lookup_insert_ne by done. rewrite lookup_delete_Some. intros [? ?]. split; [congruence|done]. }
  split; [split_and!; [| |done]|].
  - intros u' p' i' c' Hp' Hi'. cbn. destruct (decide (chunk_file p' i' = chunk_file p i)) as [He|He].
    + rewrite He, lookup_insert_eq. intros [= <-]. destruct (chunk_file_inj u u' p p' i i') as [-> ->]; done.
    + intros [_ Hq]%Hother; [|done]. by eapply Hf.
  - intros u' p' i' n' c' Hp' Hi' Hle. cbn. intros [_ Hq]%Hother; [by eapply Hnew|]. by apply not_eq_sym, chunk_part_file.
  - exists None. split; [done|]. split; [|done]. intros [[q2 b2]|] _; [|done]. intros [Hown2 Hc2]. split; [done|]. split; [done|].
    intros c' Hq. apply Hc2. apply Hother in Hq as [_ ?]; [done|]. destruct Hown2 as (? & ? & ? & ? & _ & _ & _ & ->).
    by apply not_eq_sym, chunk_part_file.
Qed.

Lemma keeping_find case u : keeping (fun o => forall item, o = Some item -> loaded_as u item) (get_memory_upload case u : prog _).
Proof.
  eapply minds_bind; [apply keeping_get_row|]. intros o Ho. apply minds_done. intros a [= <-] item.
  destruct o as [item'|]; [|done]. case_bool_decide; [|done]. intros [= <-]. by apply Ho.
Qed.

Lemma keeping_guard {A} (Q : A -> Prop) b e (p : prog A) : (b = false -> keeping Q p) -> keeping Q (guard b e;* p).
Proof. intros Hp. eapply minds_bind; [apply minds_guard|]. intros [] Hb. by apply Hp. Qed.

Lemma keeping_clock : keeping (fun _ => True) (utc_now_naive : prog Z).
Proof. by apply keeping_look. Qed.

(** What runs under the chunk's lock. *)
Lemma keeping_write u p item i declared chunks : loaded_as u item -> plans u = Some p -> 0 <= i < total_chunks p ->
  keeping (loaded_as u)
    (write_chunk sha256_of device uuid_text settings u item i (expected_length p i) declared chunks : prog MemoryUpload).
Proof.
  intros Hitem Hp Hi. assert (plan item = p) as Hpl by (destruct Hitem as [Hid [Hok _]]; rewrite Hid in Hok; congruence).
  unfold write_chunk. cbv zeta. unfold _chunk_path, _chunk_dir, _session_root. rewrite Hpl, <-app_assoc.
  fold (staged_dir p). fold (chunk_file p i). apply keeping_then; [apply keeping_mkdir|]. intros o.
  eapply acts_bind; [by eapply acting_uuid4|]. intros o1 token ->.
  eapply acts_bind; [apply acting_receive|]. intros o2 sha (content & -> & Hl).
  eapply (acts_bind _ _ _ _ (fun o there => o = Some (staged_dir p ++ [part_name i token], content))).
  { intros w Hw Ho. split; [done|]. exists (Some (staged_dir p ++ [part_name i token], content)). split; [done|]. split; [|done].
    by apply (spares_quiet _ _ _ owns_quiet). }
  intros o3 [] ->; [by eapply keeping_existing|].
  eapply (acts_bind _ _ _ _ (fun _ _ => True)); [|intros o4 [] _; by eapply keeping_record].
  apply acts_catch.
  - eapply acts_bind; [by eapply acting_replace|]. intros o4 [] _. by apply (keeping_read_files (fun _ => True)).
  - intros o4 e. case_bool_decide; [|done]. apply (minds_bind _ _ _ _ (loaded_as u)); [apply keeping_refresh|].
    intros item' _. by case_bool_decide.
Qed.

Lemma keeping_set_active u p item (i : Z) b : loaded_as u item -> plans u = Some p -> 0 <= i < total_chunks p ->
  keeping (fun _ => True) (commit item (_set_active_chunk item i b) : prog unit).
Proof.
  intros [Hid Hok] Hp Hi. apply keeping_commit; [done|]. destruct Hok as [Hpl Hm].
  assert (p = plan item) as -> by (rewrite Hid in Hpl; congruence). by apply active_meta_ok.
Qed.

Lemma keeping_store case u i chunks content_length declared mode :
  keeping (loaded_as u)
    (store_memory_upload_chunk_stream sha256_of device uuid_text py_lower settings case u i chunks content_length declared mode).
Proof.
  unfold store_memory_upload_chunk_stream. eapply minds_bind; [apply keeping_find|]. intros [item|] Hitem; [|done].
  specialize (Hitem _ eq_refl). pose proof Hitem as [Hid Hok]. pose proof Hok as [Hp Hm]. rewrite Hid in Hp.
  do 3 (apply keeping_guard; intros _). apply keeping_guard. intros Hi. to_prop.
  assert (0 <= i < total_chunks (plan item)) as Hr by lia.
  eapply minds_bind; [apply keeping_clock|]. intros now _.
  apply keeping_then.
  { destruct (_ <? now); [|done]. apply keeping_then; [by apply keeping_commit|done]. }
  eapply minds_bind; [by apply (keeping_look (fun _ => True))|]. intros found _.
  apply keeping_then.
  { case_bool_decide; [done|]. apply keeping_then; [by apply keeping_commit|done]. }
  apply keeping_guard. intros _. eapply (minds_bind _ _ _ _ (fun _ => True)); [by apply minds_done|]. intros sha _.
  eapply minds_bind; [by apply (keeping_look (fun _ => True))|]. intros [] _; [by apply minds_done; intros a [= <-]|].
  apply keeping_lock. eapply minds_bind; [apply keeping_refresh|]. intros item2 Hitem2.
  apply keeping_guard. intros _.
  eapply minds_bind; [by apply (keeping_look (fun _ => True))|]. intros [] _; [by apply minds_done; intros a [= <-]|].
  apply keeping_then; [by eapply keeping_set_active|].
  apply keeping_then; [|apply keeping_refresh].
  apply minds_finally.
  - eapply keeping_any. by apply keeping_write.
  - apply minds_catch; [|by intros _; apply (minds_done _ _ _ (fun _ => True))].
    eapply minds_bind; [apply keeping_refresh|]. intros item3 Hitem3. by eapply keeping_set_active.
Qed.

(** ** Finalization *)
Lemma deep_path p i q : staged p i q -> length q = (length (memory_upload_staging_path settings) + 3)%nat.
Proof. intros [_ [->|[t ->]]]; unfold chunk_file, staged_dir; rewrite !length_app; cbn; lia. Qed.

Lemma assembly_outside item name u p i : plans u = Some p -> ~ staged p i (_session_root settings item ++ [name]).
Proof.
  intros _ Hs%deep_path. unfold _session_root in Hs. rewrite !length_app in Hs. cbn in Hs. lia.
Qed.

Lemma canonical_outside u p u' p' i : plans u = Some p -> plans u' = Some p' ->
  ~ staged p' i (backend_data_dir settings ++ canonical_relative_path p).
Proof. intros Hp _ Hs%staged_below. by rewrite (canonical_apart Hsessions u p Hp) in Hs. Qed.

Lemma promote_temp_outside u p u' p' i : plans u = Some p -> plans u' = Some p' ->
  ~ staged p' i (promote_temp getpid (backend_data_dir settings ++ canonical_relative_path p)).
Proof.
  intros Hp _ Hs. pose proof (canonical_apart Hsessions u p Hp) as Hc.
  set (dest := backend_data_dir settings ++ canonical_relative_path p) in *. clearbody dest.
  apply not_true_iff_false in Hc. apply Hc. apply below_spec.
  assert (exists t, parent dest = memory_upload_staging_path settings ++ t) as [t Ht].
  { unfold promote_temp in Hs. destruct Hs as [_ [Hs|[tok Hs]]]; apply snoc_inj in Hs as [-> _]; by eexists. }
  unfold parent in Ht. exists (t ++ drop (length dest - 1) dest). by rewrite app_assoc, <-Ht, take_drop.
Qed.

Lemma keeping_create_outside q c : (forall u p i, plans u = Some p -> ~ staged p i q) ->
  keeping (fun _ => True) (on_files (create_file q c) : prog unit).
Proof. intros Hq. apply keeping_on_files. intros f f' (_ & _ & ->)%create_file_Ok. apply insert_outside; [done|]. by intros u p i q' d. Qed.

Lemma keeping_append_outside q c : (forall u p i, plans u = Some p -> ~ staged p i q) ->
  keeping (fun _ => True) (on_files (fun f => Ok (append_bytes q c f)) : prog unit).
Proof.
  intros Hq. apply keeping_on_files. intros f f' [= <-]. unfold append_bytes.
  destruct (f !! q) as [[|c']|]; [by intros u p i q' d| |by intros u p i q' d]. apply insert_outside; [done|].
  by intros u p i q' d.
Qed.

Lemma keeping_replace_outside src dest : (forall u p i, plans u = Some p -> ~ staged p i dest) ->
  keeping (fun _ => True) (on_files (replace_file device src dest) : prog unit).
Proof.
  intros Hq. apply keeping_on_files. intros f f' (c & _ & _ & ->)%replace_file_Ok. apply insert_outside; [done|]. apply delete_quiet.
Qed.

Lemma keeping_promote src u p : plans u = Some p ->
  keeping (fun _ => True)
    (atomic_promote device getpid src (backend_data_dir settings ++ canonical_relative_path p) : prog unit).
Proof.
  intros Hp. pose proof (fun u' p' i => canonical_outside u p u' p' i Hp) as Hc.
  pose proof (fun u' p' i => promote_temp_outside u p u' p' i Hp) as Ht.
  apply minds_catch; [by apply keeping_replace_outside|]. intros e. case_bool_decide; [|done].
  unfold _cross_filesystem_promote. cbv zeta. apply keeping_then; [|apply keeping_unlink].
  apply minds_catch; [|intros e'; apply keeping_refuse].
  eapply minds_bind; [by apply (keeping_read_files (fun _ => True))|]. intros content _.
  apply keeping_then; [by apply keeping_create_outside|]. apply keeping_then; [by apply keeping_append_outside|].
  by apply keeping_replace_outside.
Qed.

Lemma keeping_concat chunk_paths dest : (forall u p i, plans u = Some p -> ~ staged p i dest) ->
  keeping (fun _ => True) (concat_and_hash sha256_of chunk_paths dest : prog (Z * str)).
Proof.
  intros Hd. apply keeping_then; [by apply keeping_create_outside|].
  eapply minds_bind; [|intros written _; by apply (minds_done _ _ _ (fun _ => True))].
  apply (minds_forP _ _ _ (fun _ => True) (fun _ => True)); [done|by apply Forall_forall|].
  intros acc q _ _. eapply minds_bind; [by apply (keeping_read_files (fun _ => True))|]. intros blob _.
  apply keeping_then; [by apply keeping_append_outside|]. by apply minds_done.
Qed.

(** A commit of columns other than the metadata. *)
Lemma keeping_commit_columns loaded item : item_ok loaded -> metadata_json item = metadata_json loaded ->
  keeping (fun _ => True) (commit loaded item : prog unit).
Proof. intros Hl Hm. apply keeping_commit; [done|]. rewrite Hm. by apply item_ok_meta. Qed.

Lemma keeping_register u : keeping (fun _ => True) (register_memory_evidence_from_upload sha256_of settings u).
Proof.
  unfold register_memory_evidence_from_upload. eapply minds_bind; [apply keeping_get_row|]. intros [item|] Hitem; [|done].
  specialize (Hitem _ eq_refl). destruct Hitem as [Hid Hok].
  eapply minds_bind; [by apply (keeping_look (fun _ => True))|]. intros [existing|] _.
  - eapply minds_bind; [by apply (keeping_look (fun _ => True))|]. intros valid _.
    destruct (negb valid); (apply keeping_then; [by apply keeping_commit_columns|]); [done|by apply minds_done].
  - do 2 (apply keeping_guard; intros _). eapply minds_bind; [by apply (keeping_look (fun _ => True))|]. intros valid _.
    apply keeping_guard. intros _. eapply minds_bind; [by apply (keeping_read_files (fun _ => True))|]. intros content _.
    apply keeping_guard. intros _.
    eapply (minds_bind _ _ _ _ (fun _ => True)).
    { unfold _find_duplicate_memory_evidence. destruct (truthy_text _); [by apply keeping_look|by apply minds_done]. }
    intros dup _. apply keeping_then.
    { destruct dup; [|by apply minds_done]. unfold _raise_duplicate_memory_upload. apply keeping_then; [by apply keeping_commit_columns|done]. }
    apply keeping_then; [by apply keeping_commit_columns|].
    eapply minds_bind; [apply keeping_refresh|]. intros item2 _.
    eapply (minds_bind _ _ _ _ (fun _ => True)).
    { apply minds_catch.
      - apply keeping_elsewhere. intros w w' a. destruct (row (evidence w) _); [done|]. by intros [= <- _].
      - intros e. destruct e; try (apply keeping_then; [by apply keeping_write_columns|done]).
        eapply minds_bind; [by apply (keeping_look (fun _ => True))|].
        intros [existing|] _; (apply keeping_then; [by apply keeping_write_columns|]); [by apply minds_done|done]. }
    intros e _. apply keeping_then; [by apply keeping_write_columns|by apply minds_done].
Qed.

(** What the callbacks close over. *)
Definition session_ok (p : upload_plan) (s : session) : Prop :=
  item_ok (fst s) /\ plan (fst s) = p /\ plan (snd s) = p /\ metadata_json (snd s) = metadata_json (fst s).

Lemma keeping_reload u p : plans u = Some p -> keeping (session_ok p) (reload u : prog session).
Proof.
  intros Hp. eapply minds_bind; [apply keeping_refresh|]. intros item [Hid Hok]. apply minds_done. intros a [= <-].
  assert (plan item = p) by (destruct Hok as [Hok _]; rewrite Hid in Hok; congruence). split; [done|by split_and!].
Qed.

(** The shape of [_on_verifying] and [_on_finalizing]. *)
Lemma keeping_touch_reload u p loaded item : plans u = Some p -> item_ok loaded -> plan loaded = p ->
  metadata_json item = metadata_json loaded ->
  keeping (session_ok p) (let* item := _touch_session settings item in commit loaded item;* reload (id (plan loaded)) : prog session).
Proof.
  intros Hp Hok Hpl Hm. eapply minds_bind; [apply keeping_touch|]. intros changed [_ Hc].
  apply keeping_then; [apply keeping_commit_columns; [done|by rewrite Hc]|]. apply keeping_reload.
  destruct Hok as [Hok _]. congruence.
Qed.

Lemma keeping_finalize_body u p item assembly sha : plans u = Some p -> loaded_as u item ->
  (forall u p i, plans u = Some p -> ~ staged p i assembly) ->
  keeping (fun _ => True)
    (run_chunked_finalize sha256_of device getpid (finalize_config settings item assembly sha) (item, item)
       (_on_verifying settings) _find_duplicate (_on_duplicate settings) (_on_finalizing settings)
       (fun q => fsync_directory (parent q)) (_register sha256_of settings) (fun s => _cleanup_session_storage settings (snd s)) : prog _).
Proof.
  intros Hp [Hid Hok] Hass. assert (plan item = p) as Hpl by (destruct Hok as [Hok' _]; rewrite Hid in Hok'; congruence).
  apply keeping_then; [apply keeping_mkdir|].
  eapply (minds_bind _ _ _ _ (session_ok p)); [by eapply keeping_touch_reload|]. intros [l i] (Hl & Hlp & Hip & Him). cbn [fst snd] in *.
  eapply minds_bind; [by apply keeping_concat|]. intros [total computed] _.
  apply keeping_guard. intros _. apply keeping_then.
  { destruct (config_expected_sha256 _) as [[|]|]; try by apply minds_done. eapply keeping_any, minds_guard. }
  eapply (minds_bind _ _ _ _ (fun r => session_ok p (fst r))).
  { unfold _find_duplicate. eapply (minds_bind _ _ _ _ (fun _ => True)); [|intros dup _; apply minds_done; by intros a [= <-]].
    unfold _find_duplicate_memory_evidence. destruct (truthy_text _); [by apply keeping_look|by apply minds_done]. }
  intros [[l2 i2] dup] (Hl2 & Hlp2 & Hip2 & Him2). cbn [fst snd] in *.
  eapply (minds_bind _ _ _ _ (session_ok p)).
  { destruct dup as [d|]; [|apply minds_done; by intros a [= <-]]. unfold _on_duplicate.
    apply keeping_then; [apply keeping_cleanup|]. apply keeping_then.
    { apply keeping_on_files. intros f f' [= <-]. apply rmtree_quiet. }
    eapply minds_bind; [apply keeping_touch|]. intros changed [_ Hc]. apply keeping_then; [|done].
    apply keeping_commit; [done|]. cbn in *. rewrite Hc, Him2. by apply item_ok_meta in Hl2. }
  intros [l3 i3] (Hl3 & Hlp3 & Hip3 & Him3). cbn [fst snd] in *.
  eapply (minds_bind _ _ _ _ (session_ok p)); [by eapply keeping_touch_reload|]. intros s _.
  apply keeping_then; [cbn; unfold _canonical_path; rewrite Hpl; by eapply keeping_promote|].
  apply keeping_then; [by apply keeping_read_files|].
  eapply minds_bind; [apply keeping_register|]. intros e _.
  apply keeping_then; [apply keeping_cleanup|by apply minds_done].
Qed.

Lemma keeping_capacity expected exclude : keeping (fun _ => True) (_capacity_snapshot device settings expected exclude : prog capacity).
Proof.
  assert (Ha : forall q, keeping (fun _ => True) (_available_bytes q : prog Z)).
  { intros q. apply keeping_then; [apply keeping_mkdir|by apply keeping_look]. }
  unfold _capacity_snapshot. cbv zeta. do 3 (eapply minds_bind; [apply Ha|intros ? _]).
  eapply minds_bind; [by apply (keeping_look (fun _ => True))|]. intros reserved _. by apply minds_done.
Qed.

Lemma keeping_finalize case u declared :
  keeping (fun _ => True) (finalize_memory_upload_session sha256_of device getpid uuid_text py_lower settings case u declared).
Proof.
  apply keeping_lock. eapply minds_bind; [apply keeping_find|]. intros [item|] Hitem; [|done].
  specialize (Hitem _ eq_refl). pose proof Hitem as [Hid Hok]. pose proof Hok as [Hp _]. rewrite Hid in Hp.
  case_bool_decide; [case_bool_decide; [|by apply minds_done]|].
  { eapply minds_bind; [by apply (keeping_look (fun _ => True))|]. intros e _. by apply minds_done. }
  apply keeping_guard. intros _. eapply minds_bind; [by apply (keeping_look (fun _ => True))|]. intros found _.
  apply keeping_then.
  { case_bool_decide; [by apply minds_done|]. apply keeping_then; [by apply keeping_commit_columns|done]. }
  eapply (minds_bind _ _ _ _ (fun _ => True)); [by apply minds_done|]. intros sha _.
  apply keeping_guard. intros _. eapply minds_bind; [apply keeping_capacity|]. intros capacity _.
  apply keeping_guard. intros _. eapply minds_bind; [apply keeping_uuid4|]. intros token _. cbv zeta.
  apply minds_catch; [apply minds_catch|].
  - eapply minds_bind.
    { eapply keeping_finalize_body; [exact Hp|exact Hitem|]. intros u' p' i Hp'. by apply (assembly_outside item _ u'). }
    intros [_ r] _. eapply minds_bind; [apply keeping_refresh|]. intros item' _. by apply minds_done.
  - by intros [].
  - assert (Hfail : forall e, keeping (fun _ => True)
      (on_files (fun f => if is_file (_session_root settings item ++ [lit "assembly-" ++ token ++ lit ".part"]) f
                          then unlink (_session_root settings item ++ [lit "assembly-" ++ token ++ lit ".part"]) f else Ok f);*
       let* now := utc_now_naive in
       write_columns u (fun r =>
         r <| status := failed |> <| failure_code := Some (code_of e) |> <| retryable := true |>
           <| updated_at := now |> <| expires_at := now + Z.max 300 (or_int (memory_upload_session_ttl_seconds settings) 86400) |>);*
       raise e : prog (MemoryUpload * option Evidence))).
    { intros e. apply keeping_then.
      - apply keeping_on_files. intros f f'. destruct (is_file _ f); [apply unlink_quiet|]. intros [= <-]. by intros u' p' i' q c.
      - eapply minds_bind; [apply keeping_clock|]. intros now _. apply keeping_then; [by apply keeping_write_columns|done]. }
    intros e. destruct e; try exact (Hfail _). done.
Qed.

Lemma keeping_cancel case u : keeping (fun _ => True) (cancel_memory_upload_session settings case u : prog MemoryUpload).
Proof.
  eapply minds_bind; [apply keeping_find|]. intros [item|] Hitem; [|done]. specialize (Hitem _ eq_refl) as [Hid Hok].
  apply keeping_guard. intros _. case_bool_decide; [by apply minds_done|].
  eapply minds_bind; [apply keeping_touch|]. intros changed [_ Hc].
  apply keeping_then; [by apply keeping_commit_columns|]. apply keeping_then; [apply keeping_cleanup|].
  eapply keeping_any, keeping_refresh.
Qed.

Lemma keeping_rows : keeping (fun l => Forall item_ok l) (look (fun w => rows (uploads w)) : prog (list MemoryUpload)).
Proof.
  apply keeping_look. intros w (_ & _ & Hr). apply Forall_forall. intros item [u Hu]%rows_spec. by apply Hr in Hu as [_ ?].
Qed.

Lemma keeping_expire limit : keeping (fun _ => True) (cleanup_expired_memory_upload_sessions settings limit : prog (Z * Z)).
Proof.
  unfold cleanup_expired_memory_upload_sessions. eapply minds_bind; [apply keeping_clock|]. intros now _. cbv zeta.
  assert (Hsel : forall (key : MemoryUpload -> Z) (P : MemoryUpload -> bool) w, sizes_ok w ->
    Forall item_ok (take limit (Sort.sort_by key (filter (fun item => Is_true (P item)) (rows (uploads w)))))).
  { intros key P w (_ & _ & Hr). apply Forall_take. rewrite Sort.sort_by_perm. apply Forall_forall.
    intros item [_ [u Hu]%rows_spec]%list_elem_of_filter. by apply Hr in Hu as [_ ?]. }
  eapply (minds_bind _ _ _ _ (Forall item_ok)); [apply keeping_look; intros w Hw; by apply (Hsel expires_at (expiring now))|].
  intros expired_rows He. eapply (minds_bind _ _ _ _ (Forall item_ok)).
  { apply keeping_look. intros w Hw. by apply (Hsel updated_at (stale _)). }
  intros stale_rows Hs. apply keeping_then.
  { eapply (minds_forP _ _ _ (fun _ => True)); [done|exact He|]. intros [] item _ Hi. by apply keeping_commit_columns. }
  apply keeping_then; [|by apply minds_done].
  apply (minds_forP _ _ _ (fun _ => True) (fun _ => True)); [done|by apply Forall_forall|]. intros [] item _ _. apply keeping_cleanup.
Qed.

Lemma keeping_admin st_mtime dry_run sel :
  keeping (fun _ => True) (cleanup_memory_upload_staging settings st_mtime dry_run sel : prog (list path)).
Proof.
  apply keeping_then; [apply keeping_mkdir|]. eapply minds_bind; [by apply (keeping_look (fun _ => True))|]. intros candidates _.
  apply keeping_then; [|by apply minds_done]. destruct dry_run; [by apply minds_done|].
  apply (minds_forP _ _ _ (fun _ => True) (fun _ => True)); [done|by apply Forall_forall|]. intros [] q _ _.
  apply keeping_on_files. intros f f' [= <-]. apply rmtree_quiet.
Qed.

Lemma keeping_handle request : keeping (fun _ => True) (handle sha256_of device getpid uuid_text py_lower settings request).
Proof.
  destruct request; (eapply minds_bind; [|intros a _; by apply (minds_done _ _ _ (fun _ => True))]).
  - eapply keeping_any, keeping_store.
  - apply keeping_finalize.
  - apply keeping_cancel.
  - apply keeping_expire.
  - apply keeping_admin.
  - apply (keeping_then (fun _ => True)); [apply keeping_mkdir|by apply keeping_look].
Qed.

(** What else may happen: time passes, locks expire, Redis fails or comes back,
    space and evidence come and go, files are lost, and sessions are opened. *)
Record surroundings w w' : Prop := {
  sr_uuids : (uuids w <= uuids w')%nat;
  sr_files q content : files w' !! q = Some (File content) -> files w !! q = Some (File content);
  sr_rows u item : row (uploads w') u = Some item -> row (uploads w) u = Some item \/
    row (uploads w) u = None /\ id (plan item) = u /\ plans u = Some (plan item) /\
    received_chunks (metadata_json item) = ∅ /\ active_chunks (metadata_json item) = ∅ }.

Lemma surroundings_quiet w w' : sizes_ok w -> surroundings w w' -> sizes_ok w' /\ quiet w w'.
Proof.
  intros Hw [Hu Hf Hr]. assert (quiet w w') as Hq by (split; [done|]; intros u p i q c _ _; apply Hf). split; [|done].
  eapply quiet_sizes; [done|done|]. destruct Hw as (_ & _ & Hok).
  intros u item [Hi|(_ & Hid & Hp & Hrec & Hact)]%Hr; [by apply Hok|]. split; [done|]. split; [by rewrite Hid|].
  split; [intros i c; by rewrite Hrec, lookup_empty|]. intros i. rewrite Hact. set_solver.
Qed.
End invariant.

Section interleaved.
Context {U V : Type} `{Table U MemoryUpload} `{Table V Evidence}.
Variables (sha256_of : bytes -> str) (device : path -> Z) (getpid : str) (uuid_text : nat -> str).
Variables (py_lower : str -> str) (settings : Settings).

(** C6. Chunk files have the planned length in every interleaving: however
    many requests for chunks, finalization, cancellation, expiry and clean-up run
    at the same time, in whatever order their steps fall, wherever the payloads
    break off, and whatever happens to the clock, the locks and the storage and
    whatever sessions are opened meanwhile, every chunk file under its final name
    has the length that the plan gives it, every recorded chunk has an index of
    its plan and the planned length, and every chunk marked as active is one of
    the plan.  The temporary files are written piece by piece and may have any
    length.  What is relied on: the texts of [uuid4] are never the same twice,
    each session has a staging directory of its own, outside the canonical files,
    and no file left from before has a name that is still to be drawn. *)
Theorem chunk_sizes_exact plans requests (w : world U V) w' ps : Inj (=) (=) uuid_text ->
  sessions_ok settings plans -> sizes_ok uuid_text settings plans w ->
  rtc (step (surroundings plans)) (w, map (handle sha256_of device getpid uuid_text py_lower settings) requests) (w', ps) ->
  sizes_ok uuid_text settings plans w'.
Proof.
  intros Hinj Hs Hw Hsteps.
  eapply (pool_owned (sizes_ok uuid_text settings plans) (owns uuid_text settings plans) apart (quiet settings plans)
    (owns_quiet uuid_text settings plans) (surroundings plans) None) in Hsteps; [done|..]; try done.
  - intros v v'. by apply surroundings_quiet.
  - cbn [snd]. apply Forall_forall. intros p (r & -> & _)%list_elem_of_fmap. by apply keeping_handle.
Qed.
End interleaved.
End UploadInvariant.
