(* ===== verification/UploadRaces.v ===== *)
(** Where the upload requests lose what they should keep: interleavings that drop
    a record, leave a terminal state or replace registered bytes, and a clean-up
    that removes sessions it was not asked about. *)
From stdpp Require Import relations.
From S2P Require Import Prelude PyBase Decimals FileSystem Handlers UploadModel UploadShared UploadSession UploadPlan UploadPromote UploadSamples UploadInvariant.
Import Bytes Str Decimals FileSystem Handlers UploadModel UploadShared UploadSession UploadPlan UploadPromote UploadSamples UploadInvariant.

Module UploadRaces.

(** * The witness of the invariant *)
Definition sample_plans (u : str) : option upload_plan := if decide (u = lit "u") then Some sample_plan else None.

Lemma sample_sessions_ok : sessions_ok sample_settings sample_plans.
Proof.
  assert (Hone : forall u p, sample_plans u = Some p -> u = lit "u" /\ p = sample_plan).
  { intros u p. unfold sample_plans. destruct (decide (u = lit "u")); [|done]. by intros [= <-]. }
  split.
  - by intros u p [-> ->]%Hone.
  - intros u p [_ ->]%Hone. unfold well_planned. cbn [expected_bytes chunk_size_bytes total_chunks sample_plan].
    split; [lia|]. split; [lia|reflexivity].
  - by intros u u' p p' [-> _]%Hone [-> _]%Hone _.
  - by intros u p [_ ->]%Hone.
Qed.

Lemma session_files_ok (settings : Settings) plans p : files_ok settings plans (session_files p).
Proof.
  intros u p' i c _ _ Hq. unfold session_files in Hq.
  do 3 (apply lookup_insert_Some in Hq as [[_ Hd]|[_ Hq]]; [discriminate Hd|]). by rewrite lookup_empty in Hq.
Qed.

Lemma sample_uuid_inj : Inj (=) (=) sample_uuid.
Proof. intros n m He%app_inv_head%(inj str_of_Z). lia. Qed.

Lemma sample_sizes_ok : sizes_ok sample_uuid sample_settings sample_plans (session_world sample_plan).
Proof.
  split; [apply session_files_ok|]. split.
  { intros u p i n c _ _ _ Hq. cbn in Hq. unfold session_files in Hq.
    do 3 (apply lookup_insert_Some in Hq as [[_ Hd]|[_ Hq]]; [discriminate Hd|]). by rewrite lookup_empty in Hq. } intros u item Hu. cbn in Hu. apply lookup_singleton_Some in Hu as [<- <-].
  split; [done|]. split; [reflexivity|]. split; cbn; [by intros i c|]. set_solver.
Qed.

(** A client goes away in the middle of chunk 1, then chunks 0 and 1 are stored
    at the same time: after ten steps of the one request the other runs to its
    end.  The piece that was received stays in its temporary file. *)
Definition broken_off : upload_request :=
  StoreChunk (lit "c") (lit "u") 1 [Some [3]; None] None None (lit "resumable").
Lemma chunk_sizes_exact_witness :
  let c := exec (repeat 2%nat 60 ++ repeat 0%nat 10 ++ repeat 1%nat 60 ++ repeat 0%nat 60)
             (session_world sample_plan, map serve [store 0 [1; 2] None; store 1 [3; 4] None; broken_off]) in
  sizes_ok sample_uuid sample_settings sample_plans (fst c) /\
  map (option_map size) [recorded (fst c) 0; recorded (fst c) 1] = [Some 2; Some 2] /\
  files (fst c) !! part_file sample_uuid sample_settings sample_plan 1 1 = Some (File [3]) /\
  answers (snd c) = [Some (Ok tt); Some (Ok tt); Some (Raise ClientDisconnect)].
Proof.
  intros c. split; [|split_and!; vm_compute; reflexivity].
  apply (chunk_sizes_exact sample_sha one_device (lit "7") sample_uuid lower sample_settings sample_plans
           [store 0 [1; 2] None; store 1 [3; 4] None; broken_off] (session_world sample_plan) (fst c) (snd c)
           sample_uuid_inj sample_sessions_ok sample_sizes_ok).
  rewrite <-surjective_pairing. apply exec_steps.
Defined.

(** * Races *)

(** The requests, started together in [w], can leave [w'] and these answers. *)
Definition reaches (requests : list upload_request) (w w' : sample_world) (results : list (option (result upload_exn unit))) : Prop :=
  exists ps, rtc (step (fun _ _ => False)) (w, map serve requests) (w', ps) /\ answers ps = results.

(** The first request makes [k] steps, then the second runs, then the first. *)
Definition overtaken (k : nat) : list nat := repeat 0%nat k ++ repeat 1%nat 60 ++ repeat 0%nat 60.
Lemma reaches_exec schedule requests w results :
  answers (snd (exec schedule (w, map serve requests))) = results ->
  reaches requests w (fst (exec schedule (w, map serve requests))) results.
Proof.
  intros Hr. eexists. split; [|exact Hr]. rewrite <-surjective_pairing. apply exec_steps.
Qed.

(** A record can be lost: two chunks of a session are uploaded at the same
    time, both requests succeed and both files are stored, and yet only the first
    chunk is recorded; when the rest has arrived the finalization fails and the
    upload has to start again. *)
Lemma chunk_record_lost :
  exists w, reaches [store 0 [1; 2] None; store 1 [3; 4] None] (session_world sample_plan) w [Some (Ok tt); Some (Ok tt)] /\
    recorded w 0 <> None /\ recorded w 1 = None /\ stored sample_plan w 1 = Some (File [3; 4]) /\
    let w' := serve_all [store 2 [5] None; finalize] w in
    option_map status (session_row w') = Some failed /\ canonical sample_plan w' = None.
Proof.
  eexists. split; [apply (reaches_exec (overtaken 7)); vm_compute; reflexivity|].
  split; [by vm_compute|]. cbv zeta. split_and!; vm_compute; reflexivity.
Qed.

(** Terminal states can be left: a session whose cancellation succeeded is
    uploading again once a chunk request that overlapped it has ended; and a
    chunk request that overlaps a finalization reopens the completed session, so
    that a second finalization replaces the registered evidence file while the
    evidence keeps the hash of the first. *)
Lemma terminal_states_left :
  (exists w, reaches [store 0 [1; 2] None; cancel] (session_world sample_plan) w [Some (Ok tt); Some (Ok tt)] /\
     option_map status (session_row w) = Some uploading) /\
  (exists w, reaches [store 0 [7; 8] (Some (sample_sha [7; 8])); finalize]
       (serve_all [store 0 [1; 2] None] (session_world small_plan)) w [Some (Ok tt); Some (Ok tt)] /\
     option_map status (session_row w) = Some uploading /\ canonical small_plan w = Some (File [1; 2]) /\
     let w' := serve_all [finalize] w in
     option_map status (session_row w') = Some completed /\ canonical small_plan w' = Some (File [7; 8]) /\
     option_map e_sha256 (row (evidence w') (lit "e")) = Some (sample_sha [1; 2])).
Proof.
  split.
  - eexists. split; [apply (reaches_exec (overtaken 7)); vm_compute; reflexivity|]. vm_compute. reflexivity.
  - eexists. split; [apply (reaches_exec (overtaken 7)); vm_compute; reflexivity|]. cbv zeta. split_and!; vm_compute; reflexivity.
Qed.

(** * Clean-up by case *)
Section cleanup.
Context {U V : Type} `{Table U MemoryUpload} `{Table V Evidence}.
Implicit Types w : world U V.

(** Removing directories one after the other. *)
Lemma run_rmtrees (entries : list path) w :
  exists w', run (forP (fun _ entry => on_files (fun f => Ok (rmtree entry f))) tt entries : prog (world U V) upload_exn unit) w = (w', Ok tt) /\
    (forall entry q, entry ∈ entries -> below entry q = true -> files w' !! q = None) /\
    (forall q, files w !! q = None -> files w' !! q = None) /\ uploads w' = uploads w.
Proof.
  revert w. induction entries as [|entry entries IH]; intros w.
  - exists w. split; [done|]. split; [by intros entry q ?%elem_of_nil|done].
  - rewrite run_forP_cons, run_bind, run_on_files. destruct (IH (w <| files := rmtree entry (files w) |>)) as (w' & Hrun & Hin & Hkeep & Hup).
    exists w'. split; [exact Hrun|]. assert (Hgone : forall q, below entry q = true -> files w' !! q = None).
    { intros q Hq. apply Hkeep. cbn. by rewrite rmtree_lookup, Hq. }
    split.
    + intros entry' q [->|Hin']%elem_of_cons; [apply Hgone|by apply Hin].
    + split; [|exact Hup]. intros q Hq. apply Hkeep. cbn. rewrite rmtree_lookup. by destruct (below entry q).
Qed.

Lemma is_dir_lookup p n f : is_dir (p ++ [n]) f = true -> f !! (p ++ [n]) = Some Dir.
Proof. unfold is_dir. destruct (p ++ [n]) eqn:He; [by destruct p|]. by intros ?%bool_decide_eq_true. Qed.

(** A directory under the staging root that no selected row names is an orphan. *)
Lemma unselected_orphan (settings : Settings) st_mtime sel name w : s_upload_id sel = None ->
  (forall item, item ∈ select sel w -> staging_name (plan item) <> name) ->
  exists_ (memory_upload_staging_path settings) (files w) = true ->
  is_dir (memory_upload_staging_path settings ++ [name]) (files w) = true ->
  memory_upload_staging_path settings ++ [name] ∈ orphans settings st_mtime sel None w.
Proof.
  intros Hid Hsel Hex Hdir. unfold orphans, list_orphan_directories. rewrite Hid, Hex. cbn [negb].
  apply list_elem_of_filter. split.
  - rewrite Hdir, name_snoc. rewrite bool_decide_false; [done|].
    intros (item & -> & Hin)%list_elem_of_fmap. by apply (Hsel item).
  - apply iterdir_spec. split; [by destruct (memory_upload_staging_path settings)|]. split; [apply parent_snoc|].
    rewrite is_dir_lookup by done. by eexists.
Qed.

Definition of_case (case : str) : selection :=
  {| s_case_id := Some case; s_upload_id := None; s_older_than_hours := None; s_limit := None |}.

(** The clean-up of one case removes the uploads of the others: a session
    of another case, however active, whose staging directory exists is taken for
    an orphan, and everything below the directory is removed. *)
Lemma cleanup_removes_other_cases settings st_mtime case u item w f :
  row (uploads w) u = Some item -> case_id (plan item) <> case -> is_active item ->
  (forall u' item', row (uploads w) u' = Some item' -> case_id (plan item') = case -> staging_name (plan item') <> staging_name (plan item)) ->
  mkdir (memory_upload_staging_path settings) (files w) = Ok f -> exists_ (memory_upload_staging_path settings) f = true ->
  is_dir (_session_root settings item) f = true ->
  exists w' removed, run (cleanup_memory_upload_staging settings st_mtime false (of_case case)) w = (w', Ok removed) /\
    uploads w' = uploads w /\ forall q, below (_session_root settings item) q = true -> files w' !! q = None.
Proof.
  intros Hrow Hcase Hact Hdist Hmk Hex Hdir. unfold cleanup_memory_upload_staging.
  rewrite run_bind, run_on_files, Hmk, run_bind. set (w1 := w <| files := f |>).
  cbn [run look Datatypes.id]. set (candidates := limited _ _).
  assert (Hin : _session_root settings item ∈ candidates).
  { apply elem_of_app. right. apply unselected_orphan; [done| |done|done].
    intros item' [Hs [u' Hu']%rows_spec]%list_elem_of_filter. apply (Hdist u'); [done|].
    unfold selected in Hs. cbn in Hs. rewrite !andb_true_r in Hs. by apply bool_decide_unpack in Hs. }
  clearbody candidates. cbv iota. rewrite run_bind.
  destruct (run_rmtrees candidates w1) as (w' & Hrun & Hgone & _ & Hup). rewrite Hrun.
  exists w', candidates. split; [done|]. split; [exact Hup|]. intros q Hq. by eapply Hgone.
Qed.
End cleanup.

Definition other_plan : upload_plan :=
  {| id := lit "v"; case_id := lit "d"; evidence_id := lit "f"; expected_bytes := 2; expected_sha256 := None;
     display_name := lit "b.raw"; source_host := lit "host"; extension := lit ".raw"; staging_name := lit "t";
     canonical_relative_path := [lit "evidence"; lit "d"; lit "f"; lit "original"; lit "memory-image.raw"];
     chunk_size_bytes := 2; total_chunks := 1; upload_mode := lit "resumable"; file_fingerprint := None |}.
(** The session [u] of case [c] has a chunk; case [d] has a session, too. *)
Definition two_cases : sample_world :=
  let w := serve_all [store 0 [1; 2] None] (session_world sample_plan) in
  w <| uploads := <[lit "v" := sample_row other_plan]> (uploads w) |>.

Lemma cleanup_removes_other_cases_witness :
  stored sample_plan two_cases 0 = Some (File [1; 2]) /\
  exists w' removed,
    run (cleanup_memory_upload_staging sample_settings (fun _ => 0) false (of_case (lit "d"))) two_cases = (w', Ok removed) /\
    uploads w' = uploads two_cases /\
    forall q, below (_session_root sample_settings (sample_row sample_plan)) q = true -> files w' !! q = None.
Proof.
  split; [vm_compute; reflexivity|].
  assert (Hi : match session_row two_cases with
    | Some item => bool_decide (plan item = sample_plan) && bool_decide (is_active item) | None => false end = true) by (vm_compute; reflexivity).
  assert (Hf : match mkdir [lit "staging"] (files two_cases) with Ok f => bool_decide (f = files two_cases) | _ => false end = true)
    by (vm_compute; reflexivity).
  assert (Hd1 : exists_ [lit "staging"] (files two_cases) = true) by (vm_compute; reflexivity).
  assert (Hd2 : is_dir (_session_root sample_settings (sample_row sample_plan)) (files two_cases) = true) by (vm_compute; reflexivity).
  assert (Hall : forallb (fun item => bool_decide (case_id (plan item) = lit "c") || bool_decide (staging_name (plan item) = lit "t"))
    (rows (uploads two_cases)) = true) by (vm_compute; reflexivity).
  revert Hi Hf Hd1 Hd2 Hall. generalize two_cases as w. intros w Hi Hf Hd1 Hd2 Hall.
  destruct (session_row w) as [item|] eqn:Hu; [|discriminate Hi].
  apply andb_prop in Hi as [Hp%bool_decide_eq_true Ha%bool_decide_eq_true].
  destruct (mkdir [lit "staging"] (files w)) as [f| |] eqn:Hmk; [|discriminate Hf..].
  apply bool_decide_eq_true in Hf as ->.
  assert (_session_root sample_settings (sample_row sample_plan) = _session_root sample_settings item) as Hroot
    by (unfold _session_root; by rewrite Hp).
  rewrite Hroot in *.
  apply (cleanup_removes_other_cases sample_settings (fun _ => 0) (lit "d") (lit "u") item w (files w) Hu);
    [by rewrite Hp|exact Ha| |exact Hmk|exact Hd1|exact Hd2].
  intros u' item' Hu' Hc. rewrite Hp. rewrite forallb_forall in Hall.
  assert (item' ∈ rows (uploads w)) as Hin by (apply rows_spec; by exists u').
  apply list_elem_of_In, Hall in Hin. rewrite Hc in Hin.
  destruct (bool_decide_reflect (staging_name (plan item') = lit "t")) as [->|]; [done|]. by rewrite orb_false_r in Hin.
Defined.
End UploadRaces.
