(* ===== verification/UploadRun.v ===== *)
(** Running the requests of a session one at a time: each chunk that is sent is
    stored and recorded, and the finalization registers the file. *)
From S2P Require Import Prelude PyBase Decimals FileSystem Handlers UploadModel UploadShared UploadSession UploadPlan UploadPromote UploadInvariant UploadSamples.
Import Bytes Str Decimals FileSystem Handlers UploadModel UploadShared UploadSession UploadPlan UploadPromote UploadInvariant UploadSamples.

Module UploadRun.

(** * Single steps *)
Section steps.
Context {U V : Type} `{Table U MemoryUpload} `{Table V Evidence}.
Abbreviation world := (world U V).
Abbreviation prog := (prog world upload_exn).
Implicit Types w : world.

Lemma run_look {A} (f : world -> A) w : run (look f : prog A) w = (w, Ok (f w)).
Proof. done. Qed.

Lemma run_guard_false {A} e (p : prog A) w : run (guard false e;* p) w = run p w.
Proof. done. Qed.

Lemma run_then {A B} (m : prog A) (f : A -> prog B) w w1 a : run m w = (w1, Ok a) -> run (m ≫= f) w = run (f a) w1.
Proof. intros Hm. by rewrite run_bind, Hm. Qed.

Lemma run_get_row u w : run (get_row u : prog _) w = (w, Ok (row (uploads w) u)).
Proof. done. Qed.

Lemma run_refresh u item w : row (uploads w) u = Some item -> run (refresh u : prog _) w = (w, Ok item).
Proof. intros Hu. unfold refresh, attempt. cbn [run]. by rewrite Hu. Qed.

(** A commit without anything else at work writes the object. *)
Definition written w (item : MemoryUpload) : world :=
  w <| uploads := put (id (plan item)) (item <| updated_at := clock w |>) (uploads w) |>.

Lemma run_commit loaded item w : row (uploads w) (id (plan loaded)) = Some loaded -> plan item = plan loaded -> item <> loaded ->
  (updated_at item = updated_at loaded \/ updated_at item = clock w) ->
  run (commit loaded item : prog unit) w = (written w item, Ok tt).
Proof.
  intros Hr Hp Hne Hu. unfold commit, update. cbn [run]. rewrite Hr, decide_False by done. unfold written, merge_columns.
  rewrite !merge_column_alone, Hp. assert (stamp (clock w) loaded item = clock w) as ->.
  { unfold stamp. by destruct Hu as [-> | ->]; case_decide. }
  by destruct item; cbn in *; subst.
Qed.

Lemma run_write_columns u f item w : row (uploads w) u = Some item -> updated_at (f item) = updated_at item ->
  run (write_columns u f : prog unit) w = (w <| uploads := put u (f item <| updated_at := clock w |>) (uploads w) |>, Ok tt).
Proof. intros Hu Hf. unfold write_columns, update. cbn [run]. rewrite Hu. unfold stamp. by rewrite decide_True. Qed.

Variable uuid_text : nat -> str.

(** Under a lock that nobody holds. *)
Lemma run_lock {A} key (body : prog A) w (w1 := w <| uuids := S (uuids w) |> <| locks := <[key := uuid_text (uuids w)]> (locks w) |>) w2 a :
  redis_up w = true -> locks w !! key = None -> run body w1 = (w2, Ok a) -> redis_up w2 = true -> locks w2 = locks w1 ->
  run (_redis_upload_lock uuid_text key body) w = (w2 <| locks := locks w |>, Ok a).
Proof.
  intros Hup Hl Hb Hup2 Hl2. unfold _redis_upload_lock, redis_upload_lock. rewrite run_catch, run_bind.
  cbn [run uuid4]. rewrite run_bind. unfold acquire, attempt. cbn [run redis_up locks set_field].
  rewrite Hup, Hl. cbn [negb]. rewrite run_finally. subst w1. cbn in Hb, Hl2.
  rewrite Hb. unfold release, update. cbn [run]. rewrite Hup2, Hl2, lookup_insert_eq.
  rewrite bool_decide_true by done. cbn [andb]. by rewrite delete_insert_id.
Qed.
End steps.

(** * Names *)
Lemma pad8_int i : 0 <= i < 2 ^ 53 -> py_int (pad8 i) = Some i.
Proof.
  intros Hi. apply py_int_padded; [|unfold int_max_str_digits; lia]. split; [lia|].
  assert (2 ^ 53 <= 10 ^ 16) by lia. assert (10 ^ 16 <= 10 ^ Z.of_nat int_max_str_digits); [|lia].
  apply Z.pow_le_mono_r; [lia|]. unfold int_max_str_digits. lia.
Qed.

Lemma disk_index_chunk f dir i c : 0 <= i < 2 ^ 53 -> f !! (dir ++ [chunk_name i]) = Some (File c) ->
  disk_index f (dir ++ [chunk_name i]) = Some i.
Proof.
  intros Hi Hf. unfold disk_index, is_file. rewrite name_snoc, Hf. cbn [negb].
  assert (endswith (lit ".part") (chunk_name i) = false) as ->.
  { unfold endswith, chunk_name. by rewrite rev_app_distr. }
  assert (endswith (lit ".chunk") (chunk_name i) = true) as ->.
  { unfold endswith, chunk_name. rewrite rev_app_distr. apply startswith_refl_app. }
  cbn [negb]. unfold chunk_name. change (lit ".chunk") with (code "." :: lit "chunk").
  rewrite split_on_cut by (apply pad8_no_dot; lia). cbn [hd]. by apply pad8_int.
Qed.

(** * A session in progress *)
Section session.
Context {U V : Type} `{Table U MemoryUpload} `{Table V Evidence}.
Abbreviation world := (world U V).
Abbreviation prog := (prog world upload_exn).
Implicit Types w : world.
Variables (sha256_of : bytes -> str) (device : path -> Z) (getpid : str) (uuid_text : nat -> str).
Variables (py_lower : str -> str) (settings : Settings).

(** The file and the plan of its upload. *)
Variables (p : upload_plan) (data : bytes).
Hypothesis Hplan : well_planned p.
Hypothesis Hdata : len data = expected_bytes p.

Definition meta_of (i : Z) : chunk_meta := {| size := expected_length p i; chunk_sha256 := sha256_of (chunk_of p data i) |}.
Definition root_of : path := memory_upload_staging_path settings ++ [staging_name p].
Definition dir_of : path := root_of ++ [lit "chunks"].

Record in_progress (D : gset Z) (item : MemoryUpload) : Prop := {
  ip_plan : plan item = p;
  ip_status : status item = created \/ status item = uploading;
  ip_received i : received_chunks (metadata_json item) !! i = if decide (i ∈ D) then Some (meta_of i) else None }.

Record stored_files (D : gset Z) (f : fs) : Prop := {
  sf_dirs q : below q dir_of = true -> q <> [] -> f !! q = Some Dir;
  sf_files name n : f !! (dir_of ++ [name]) = Some n <-> exists i, i ∈ D /\ name = chunk_name i /\ n = File (chunk_of p data i) }.

Definition in_plan (D : gset Z) : Prop := forall i, i ∈ D -> 0 <= i < total_chunks p.

Lemma below_app q r : below q (q ++ r) = true.
Proof. apply below_spec. by exists r. Qed.

Lemma stored_chunk D f i : stored_files D f -> i ∈ D -> f !! (dir_of ++ [chunk_name i]) = Some (File (chunk_of p data i)).
Proof. intros Hf Hi. apply (sf_files D f Hf). by exists i. Qed.

Lemma in_plan_small D i : in_plan D -> i ∈ D -> 0 <= i < 2 ^ 53.
Proof.
  intros HD Hi. apply HD in Hi. pose proof (plan_total p Hplan). destruct Hplan as (He & Hc & _). nia.
Qed.

(** Its staging is healthy, whether or not the hashes are checked. *)
Lemma integrity_healthy D item verify w : in_plan D -> in_progress D item -> stored_files D (files w) ->
  i_status (classify_chunk_staging sha256_of (_session_root settings item) (_chunk_dir settings item) (_chunk_path settings item)
    (total_chunks (plan item)) (received_chunk_count item) (received_chunks (metadata_json item)) verify (files w)) = STAGING_HEALTHY.
Proof.
  intros HD Hi Hf. unfold _chunk_path, _chunk_dir, _session_root. rewrite (ip_plan D item Hi). fold root_of. fold dir_of.
  unfold classify_chunk_staging. cbv zeta.
  assert (Hdir : forall q, below q dir_of = true -> is_dir q (files w) = true).
  { intros q Hq. unfold is_dir. destruct q; [done|]. apply bool_decide_eq_true. by apply (sf_dirs D _ Hf). }
  rewrite (Hdir root_of) by apply below_app. rewrite (Hdir dir_of) by apply below_refl. cbn [negb].
  set (db := sorted_indices _).
  assert (Hdb : forall i, i ∈ db <-> i ∈ D).
  { intros i. unfold db, sorted_indices. rewrite Sort.sort_by_perm, list_elem_of_fmap. split.
    - intros ([j m] & -> & Hj%elem_of_map_to_list). cbn. rewrite (ip_received D item Hi) in Hj. by case_decide.
    - intros Hin. exists (i, meta_of i). split; [done|]. apply elem_of_map_to_list.
      rewrite (ip_received D item Hi). by rewrite decide_True. }
  assert (Hcheck : forall i, i ∈ db ->
    chunk_check sha256_of verify (fun i => dir_of ++ [chunk_name i]) (received_chunks (metadata_json item)) (files w) i = chunk_intact).
  { intros i Hin%Hdb. unfold chunk_check. rewrite (stored_chunk D _ i Hf Hin), (ip_received D item Hi), decide_True by done.
    unfold meta_of. cbn [size chunk_sha256]. rewrite chunk_of_length by auto.
    rewrite Z.eqb_refl, andb_false_r. rewrite (bool_decide_true (sha256_of (chunk_of p data i) = sha256_of (chunk_of p data i))) by done. cbn [negb]. by rewrite andb_false_r. }
  assert (Hthose : forall v, v <> chunk_intact -> filter (fun index =>
    chunk_check sha256_of verify (fun i => dir_of ++ [chunk_name i]) (received_chunks (metadata_json item)) (files w) index = v) db = []).
  { intros v Hv. apply filter_none. intros i Hin. by rewrite Hcheck. }
  rewrite !Hthose by done. rewrite (filter_none _ (sorted_indices (omap _ _))); [done|].
  intros i. unfold sorted_indices. rewrite Sort.sort_by_perm, list_elem_of_omap.
  intros (q & (Hq & Hpar & [n Hn])%iterdir_spec & Hidx) Hnot. apply Hnot, Hdb.
  rewrite (path_split q Hq), Hpar in Hn, Hidx. apply (sf_files D _ Hf) in Hn as (j & Hj & Hname & ->).
  rewrite Hname in Hidx. rewrite (disk_index_chunk _ _ j (chunk_of p data j)) in Hidx; [by simplify_eq| |].
  - by eapply in_plan_small.
  - by apply (stored_chunk D).
Qed.

(** Nobody else is at work on the session, and it has not expired. *)
Record ready (D : gset Z) w : Prop := {
  rd_row : exists item, row (uploads w) (id p) = Some item /\ in_progress D item /\
             active_chunks (metadata_json item) = ∅ /\ clock w <= expires_at item;
  rd_files : stored_files D (files w);
  rd_locks : locks w = ∅;
  rd_redis : redis_up w = true }.

Lemma run_touch item w : run (_touch_session settings item : prog MemoryUpload) w =
  (w, Ok (item <| updated_at := clock w |>
          <| expires_at := clock w + Z.max 300 (or_int (memory_upload_session_ttl_seconds settings) 86400) |>)).
Proof. done. Qed.

Lemma run_record u i meta st item w : row (uploads w) u = Some item -> u = id (plan item) -> redis_up w = true ->
  locks w !! (lit "kairon:memory_upload:" ++ u ++ lit ":chunks_meta") = None -> received_chunks (metadata_json item) !! i = None ->
  exists item', run (_record_chunk_received uuid_text settings u i meta st : prog MemoryUpload) w =
      (w <| uuids := S (uuids w) |> <| uploads := put u item' (uploads w) |>, Ok item') /\
    plan item' = plan item /\ status item' = default (status item) st /\ clock w <= expires_at item' /\
    received_chunks (metadata_json item') = <[i := meta]> (received_chunks (metadata_json item)) /\
    active_chunks (metadata_json item') = active_chunks (metadata_json item).
Proof.
  intros Hu -> Hup Hl Hi. unfold _record_chunk_received. set (u := id (plan item)) in *.
  match goal with |- context [_redis_upload_lock uuid_text ?key ?body] => set (b := body) end.
  set (now := clock w). set (chunks := <[i := meta]> (received_chunks (metadata_json item))).
  set (item' := item <| metadata_json := metadata_json item <| received_chunks := chunks |> |>
    <| received_chunk_count := Z.of_nat (map_size chunks) |> <| bytes_received := sum_sizes chunks |>
    <| status := default (status item) st |> <| failure_code := None |> <| updated_at := now |>
    <| expires_at := now + Z.max 300 (or_int (memory_upload_session_ttl_seconds settings) 86400) |>).
  exists item'. split; [|by unfold item'; cbn; repeat split; lia].
  set (w1 := w <| uuids := S (uuids w) |>
    <| locks := <[lit "kairon:memory_upload:" ++ u ++ lit ":chunks_meta" := uuid_text (uuids w)]> (locks w) |>).
  assert (Hb : run b w1 = (w1 <| uploads := put u item' (uploads w) |>, Ok item')).
  { unfold b. erewrite run_then by (by apply run_refresh). erewrite run_then by apply run_touch.
    erewrite run_then; [|apply run_commit].
    - apply run_refresh. apply row_put_eq.
    - done.
    - done.
    - intros He. apply (f_equal (fun r => received_chunks (metadata_json r) !! i)) in He. cbn in He.
      rewrite lookup_insert_eq in He. congruence.
    - by right. }
  rewrite (run_lock uuid_text _ b w _ item' Hup Hl Hb) by done. by destruct w.
Qed.

Lemma mkdirs_there above names f : (forall q, below q (above ++ names) = true -> q <> [] -> f !! q = Some Dir) ->
  mkdirs above names f = Ok f.
Proof.
  revert above. induction names as [|n names IH]; intros above Hf; [done|]. cbn [mkdirs].
  rewrite Hf; [|apply below_spec; exists names; by rewrite <-app_assoc|by destruct above].
  apply IH. intros q. rewrite <-app_assoc. apply Hf.
Qed.

Lemma run_mkdir_there D w : stored_files D (files w) -> run (on_files (mkdir dir_of) : prog unit) w = (w, Ok tt).
Proof.
  intros Hf. rewrite run_on_files. unfold mkdir. rewrite mkdirs_there; [by destruct w|]. apply (sf_dirs D _ Hf).
Qed.

Lemma stored_dir D f : stored_files D f -> is_dir dir_of f = true.
Proof.
  intros Hf. unfold is_dir. destruct dir_of eqn:He; [done|]. rewrite <-He. apply bool_decide_eq_true.
  apply (sf_dirs D f Hf); [apply below_refl|by rewrite He].
Qed.

(** The temporary file of a chunk is written and moved to its name. *)
Definition moved (i : Z) (token : str) (content : bytes) (f : fs) : fs :=
  <[dir_of ++ [chunk_name i] := File content]>
    (delete (dir_of ++ [part_name i token]) (<[dir_of ++ [part_name i token] := File content]> f)).

Lemma create_part D i token content f : stored_files D f ->
  create_file (dir_of ++ [part_name i token]) content f = Ok (<[dir_of ++ [part_name i token] := File content]> f).
Proof.
  intros Hf. unfold create_file, check_parent. rewrite parent_snoc, (stored_dir D f Hf). cbn [mbind result_bind].
  assert (f !! (dir_of ++ [part_name i token]) = None) as Hn.
  { apply eq_None_not_Some. intros [n Hn]. apply (sf_files D f Hf) in Hn as (j & _ & Hj & _).
    by apply (chunk_part_ne j i token). }
  unfold exists_. destruct (dir_of ++ _) as [|a q] eqn:He; [by destruct dir_of|].
  rewrite Hn, bool_decide_false; [done|]. by intros [? ?].
Qed.

Lemma replace_part D i token content f : stored_files D f ->
  replace_file device (dir_of ++ [part_name i token]) (dir_of ++ [chunk_name i])
    (<[dir_of ++ [part_name i token] := File content]> f) = Ok (moved i token content f).
Proof.
  intros Hf. unfold replace_file. rewrite lookup_insert_eq. unfold check_parent. rewrite !parent_snoc.
  set (f' := <[_ := _]> f).
  assert (Hother : forall q, q <> dir_of ++ [part_name i token] -> f' !! q = f !! q) by (intros; by apply lookup_insert_ne).
  assert (is_dir dir_of f' = true) as ->.
  { unfold is_dir. destruct dir_of eqn:He; [done|]. rewrite <-He in *. apply bool_decide_eq_true. rewrite Hother.
    - apply (sf_dirs D f Hf); [apply below_refl|by rewrite He].
    - intros Hq. apply (f_equal length) in Hq. rewrite length_app in Hq. cbn in Hq. lia. }
  cbn [mbind result_bind]. rewrite Z.eqb_refl. cbn [negb].
  assert (is_dir (dir_of ++ [chunk_name i]) f' = false) as ->; [|done].
  unfold is_dir. destruct (dir_of ++ [chunk_name i]) eqn:He; [by destruct dir_of|]. rewrite <-He.
  apply bool_decide_eq_false. rewrite Hother by (intros [_ Hq]%snoc_inj; by apply (chunk_part_ne i i token)).
  intros Hd. by apply (sf_files D f Hf) in Hd as (j & _ & _ & ?).
Qed.

Lemma moved_stored D i token f : stored_files D f -> 0 <= i -> in_plan D -> i ∉ D ->
  stored_files (D ∪ {[i]}) (moved i token (chunk_of p data i) f).
Proof.
  intros Hf Hi HD HiD.
  assert (Hne : forall q, below q dir_of = true -> q <> dir_of ++ [chunk_name i] /\ q <> dir_of ++ [part_name i token]).
  { intros q [r Hr]%below_spec. split; intros ->; apply (f_equal length) in Hr; rewrite !length_app in Hr; cbn in Hr; lia. }
  unfold moved. split.
  - intros q Hq Hq'. destruct (Hne q Hq). rewrite lookup_insert_ne, lookup_delete_ne, lookup_insert_ne by done.
    by apply (sf_dirs D f Hf).
  - intros name n. destruct (decide (name = chunk_name i)) as [->|Hn].
    + rewrite lookup_insert_eq. split.
      * intros [= <-]. exists i. split; [set_solver|done].
      * intros (j & Hj & Hji & ->). assert (j = i) as ->; [|done]. apply chunk_name_inj; [|done|done].
        apply elem_of_union in Hj as [Hj%HD|Hj%elem_of_singleton]; lia.
    + rewrite lookup_insert_ne by (intros [_ He]%snoc_inj; congruence).
      destruct (decide (name = part_name i token)) as [->|Hpart].
      * rewrite lookup_delete_eq. split; [done|]. intros (j & _ & Hj & _). by destruct (chunk_part_ne j i token).
      * rewrite lookup_delete_ne, lookup_insert_ne by (intros [_ He]%snoc_inj; congruence). rewrite (sf_files D f Hf).
        split; intros (j & Hj & -> & ->); exists j; split_and!; set_solver.
Qed.

(** A request that sends chunk [i] of the file. *)
Record sends (i : Z) (chunks : list bytes) (content_length : option Z) (declared : option str) : Prop := {
  sd_index : 0 <= i < total_chunks p;
  sd_content : concat chunks = chunk_of p data i;
  sd_length : content_length = None \/ content_length = Some (expected_length p i);
  sd_declared : _sanitize_sha256 py_lower declared = Ok None \/
                _sanitize_sha256 py_lower declared = Ok (Some (sha256_of (chunk_of p data i))) }.

(** The pieces of a payload that is not too long are appended to the file. *)
Lemma run_stream temp length received parts w :
  files w !! temp = Some (File received) -> len (received ++ concat parts) <= length ->
  run (write_stream temp length received (map Some parts) : prog bytes) w =
  (w <| files := <[temp := File (received ++ concat parts)]> (files w) |>, Ok (received ++ concat parts)).
Proof.
  revert received w. induction parts as [|part parts IH]; intros received w Hw Hl; cbn [map write_stream concat].
  { rewrite app_nil_r, insert_id by done. by destruct w. }
  cbn [concat] in Hl. case_bool_decide as Hpart; [by subst part; apply IH|].
  rewrite app_assoc in *.
  assert (len (received ++ part) <= len ((received ++ part) ++ concat parts)) by (unfold len; rewrite (length_app _ (concat parts)); lia).
  destruct (Z.ltb_spec length (len (received ++ part))); [lia|].
  erewrite run_then by (rewrite run_on_files; unfold append_bytes; by rewrite Hw).
  rewrite IH by (cbn; rewrite ?lookup_insert_eq; done). cbn. by rewrite insert_insert_eq.
Qed.

Lemma run_receive D i chunks content_length declared sha token w :
  sends i chunks content_length declared -> _sanitize_sha256 py_lower declared = Ok sha -> stored_files D (files w) ->
  run (receive_chunk sha256_of (dir_of ++ [part_name i token]) (expected_length p i) sha (map Some chunks) : prog str) w =
  (w <| files := <[dir_of ++ [part_name i token] := File (chunk_of p data i)]> (files w) |>, Ok (sha256_of (chunk_of p data i))).
Proof.
  intros [Hi Hc _ Hd] Hsha Hf. unfold receive_chunk.
  erewrite run_then by (rewrite run_on_files, (create_part D) by done; done).
  erewrite run_then by (apply run_stream; [apply lookup_insert_eq|]; cbn [app]; rewrite Hc, chunk_of_length by done; done).
  cbn [app]. rewrite Hc, chunk_of_length, Z.eqb_refl by done. cbn [negb files set_field]. rewrite insert_insert_eq.
  rewrite Hsha in Hd. destruct Hd as [[= ->]|[= ->]]; [done|]. by rewrite bool_decide_true.
Qed.

Lemma get_memory_upload_run w item : row (uploads w) (id p) = Some item -> plan item = p ->
  run (get_memory_upload (case_id p) (id p) : prog _) w = (w, Ok (Some item)).
Proof.
  intros Hr Hp. unfold get_memory_upload. erewrite run_then by apply run_get_row. rewrite Hr, Hp. by rewrite bool_decide_true.
Qed.

Lemma run_integrity D item verify w : in_plan D -> in_progress D item -> stored_files D (files w) ->
  exists found, run (check_memory_upload_staging_integrity sha256_of settings verify item : prog integrity) w = (w, Ok found) /\
    i_status found = STAGING_HEALTHY.
Proof. intros HD Hi Hf. eexists. split; [done|]. by apply (integrity_healthy D). Qed.

Lemma already_stored_run D item i sha w : in_progress D item -> stored_files D (files w) -> in_plan D ->
  (sha = None \/ sha = Some (sha256_of (chunk_of p data i))) -> 0 <= i < total_chunks p ->
  already_stored settings item i (expected_length p i) sha (files w) = bool_decide (i ∈ D).
Proof.
  intros Hi Hf HD Hsha Hr. unfold already_stored, _chunk_path, _chunk_dir, _session_root. rewrite (ip_plan D item Hi).
  fold root_of. fold dir_of. rewrite (ip_received D item Hi). destruct (decide (i ∈ D)) as [Hin|Hin].
  - rewrite bool_decide_true by done. unfold is_file. rewrite (stored_chunk D _ i Hf Hin). cbn [size meta_of]. rewrite Z.eqb_refl.
    destruct Hsha as [->| ->]; [done|]. by apply bool_decide_eq_true.
  - by rewrite bool_decide_false.
Qed.

Lemma chunk_paths item i : plan item = p -> _chunk_dir settings item = dir_of /\ _chunk_path settings item i = dir_of ++ [chunk_name i].
Proof. intros Hp. unfold _chunk_path, _chunk_dir, _session_root. by rewrite Hp. Qed.

Lemma chunk_absent D i token content f : in_plan D -> stored_files D f -> i ∉ D -> 0 <= i ->
  exists_ (dir_of ++ [chunk_name i]) (<[dir_of ++ [part_name i token] := File content]> f) = false.
Proof.
  intros HD Hf HiD Hi. unfold exists_. destruct (dir_of ++ [chunk_name i]) eqn:He; [by destruct dir_of|]. rewrite <-He.
  apply bool_decide_eq_false. rewrite lookup_insert_ne by (intros [_ Hq]%snoc_inj; by apply (chunk_part_ne i i token)).
  intros [n (j & Hj & Hij & _)%(sf_files D _ Hf)]. apply chunk_name_inj in Hij; [congruence|done|]. apply HD in Hj; lia.
Qed.

Lemma run_write D i chunks content_length declared sha loaded item w :
  sends i chunks content_length declared -> _sanitize_sha256 py_lower declared = Ok sha ->
  in_plan D -> i ∉ D -> stored_files D (files w) -> row (uploads w) (id p) = Some item -> plan loaded = p -> plan item = p -> redis_up w = true ->
  locks w !! (lit "kairon:memory_upload:" ++ id p ++ lit ":chunks_meta") = None -> received_chunks (metadata_json item) !! i = None ->
  exists item' n token, run (write_chunk sha256_of device uuid_text settings (id p) loaded i (expected_length p i) sha (map Some chunks) : prog MemoryUpload) w =
      (w <| uuids := n |> <| files := moved i token (chunk_of p data i) (files w) |> <| uploads := put (id p) item' (uploads w) |>, Ok item') /\
    plan item' = p /\ status item' = uploading /\ clock w <= expires_at item' /\
    received_chunks (metadata_json item') = <[i := meta_of i]> (received_chunks (metadata_json item)) /\
    active_chunks (metadata_json item') = active_chunks (metadata_json item).
Proof.
  intros Hs Hsha HD HiD Hf Hr Hpl Hp Hup Hl Hi. pose proof (sd_index _ _ _ _ Hs) as Hin.
  unfold write_chunk. cbv zeta. destruct (chunk_paths loaded i Hpl) as [-> ->].
  erewrite run_then by (by apply (run_mkdir_there D)). set (token := uuid_text (uuids w)).
  erewrite run_then by done. fold token. set (w1 := w <| uuids := S (uuids w) |>).
  erewrite run_then by (by apply (run_receive D i chunks content_length declared)).
  set (part := <[_ := _]> (files w1)). set (w2 := w1 <| files := part |>).
  assert (Hpart : replace_file device (dir_of ++ [part_name i token]) (dir_of ++ [chunk_name i]) part =
    Ok (moved i token (chunk_of p data i) (files w))) by (by apply (replace_part D)).
  assert (exists_ (dir_of ++ [chunk_name i]) part = false) as Hno by (apply (chunk_absent D); (done || lia)).
  erewrite run_then by apply run_look. cbn [files w2 set_field]. change (files w2) with part. rewrite Hno.
  set (w3 := w2 <| files := moved i token (chunk_of p data i) (files w) |>).
  assert (stored_files (D ∪ {[i]}) (files w3)) as Hf3 by (apply moved_stored; [done|lia|done|done]).
  erewrite (run_then _ _ _ w3 tt).
  2:{ rewrite run_catch. erewrite run_then by (rewrite run_on_files; change (files w2) with part; by rewrite Hpart).
      unfold fsync_directory. rewrite run_read_files. change (files (w2 <| files := _ |>)) with (files w3).
      by rewrite (stored_dir _ _ Hf3). }
  destruct (run_record (id p) i (meta_of i) (Some uploading) item w3) as (item' & Hrun & Hp' & Hst & Hexp & Hrec & Hact);
    [done|by rewrite Hp|done|done|done|].
  exists item', (S (S (uuids w))), token. split_and!; [|congruence|done|done|done|done].
  unfold meta_of in Hrun. rewrite Hrun. by destruct w.
Qed.

Abbreviation send i chunks content_length declared :=
  (store_memory_upload_chunk_stream sha256_of device uuid_text py_lower settings (case_id p) (id p) i (map Some chunks) content_length declared
     (upload_mode p) : prog MemoryUpload).

(** The record is marked while the chunk is written, and the mark removed. *)
Lemma run_unmark item i w : row (uploads w) (id p) = Some item -> plan item = p -> active_chunks (metadata_json item) = {[i]} ->
  run (catch (let* item := refresh (id p) in commit item (_set_active_chunk item i false)) (fun _ => Done (Ok tt)) : prog unit) w =
  (written w (_set_active_chunk item i false), Ok tt).
Proof.
  intros Hr Hp Ha. rewrite run_catch. erewrite run_then by (by apply run_refresh). erewrite run_commit; [done|by rewrite Hp|done| |by left].
  intros He. apply (f_equal (fun r => active_chunks (metadata_json r))) in He. cbn in He. rewrite Ha in He. set_solver.
Qed.

Lemma chunk_key_ne u i : lit "kairon:memory_upload:" ++ u ++ lit ":chunk:" ++ str_of_Z i <>
  lit "kairon:memory_upload:" ++ u ++ lit ":chunks_meta".
Proof. intros He%app_inv_head%app_inv_head. discriminate. Qed.

Lemma send_locked D item i chunks content_length declared sha w :
  sends i chunks content_length declared -> _sanitize_sha256 py_lower declared = Ok sha -> in_plan D -> i ∉ D ->
  row (uploads w) (id p) = Some item -> in_progress D item -> active_chunks (metadata_json item) = ∅ ->
  stored_files D (files w) -> redis_up w = true ->
  locks w !! (lit "kairon:memory_upload:" ++ id p ++ lit ":chunks_meta") = None ->
  exists item' w', run (let* _ := commit item (_set_active_chunk item i true) in
                        let* _ := finally (write_chunk sha256_of device uuid_text settings (id p) item i (expected_length p i) sha (map Some chunks))
                          (catch (let* item := refresh (id p) in commit item (_set_active_chunk item i false)) (fun _ => Done (Ok tt))) in
                        refresh (id p) : prog MemoryUpload) w = (w', Ok item') /\
    row (uploads w') (id p) = Some item' /\ in_progress (D ∪ {[i]}) item' /\ active_chunks (metadata_json item') = ∅ /\
    clock w <= expires_at item' /\ stored_files (D ∪ {[i]}) (files w') /\ locks w' = locks w /\
    redis_up w' = true /\ clock w' = clock w.
Proof.
  intros Hs Hsha HD HiD Hr Hip Ha Hf Hup Hl. pose proof (ip_plan D item Hip) as Hp. pose proof (sd_index _ _ _ _ Hs) as Hin.
  set (item1 := _set_active_chunk item i true).
  erewrite (run_then _ _ w (written w item1)).
  2:{ apply run_commit; [by rewrite Hp|done| |by left]. intros He. apply (f_equal (fun r => active_chunks (metadata_json r))) in He.
      cbn in He. rewrite Ha in He. set_solver. }
  set (w1 := written w item1). set (row1 := item1 <| updated_at := clock w |>).
  assert (Hr1 : row (uploads w1) (id p) = Some row1) by (unfold w1, written; cbn; rewrite Hp; apply row_put_eq).
  destruct (run_write D i chunks content_length declared sha item row1 w1) as
    (item2 & n & token & Hw & Hp2 & Hst2 & Hexp2 & Hrec2 & Hact2); [done..| |].
  { unfold row1, item1. cbn. rewrite (ip_received D item Hip). by rewrite decide_False. }
  set (w2 := w1 <| uuids := n |> <| files := moved i token (chunk_of p data i) (files w1) |> <| uploads := put (id p) item2 (uploads w1) |>) in Hw.
  assert (Hact : active_chunks (metadata_json item2) = {[i]}) by (rewrite Hact2; unfold row1, item1; cbn; rewrite Ha; set_solver).
  assert (Hr2 : row (uploads w2) (id p) = Some item2) by apply row_put_eq.
  set (item3 := _set_active_chunk item2 i false). set (w3 := written w2 item3).
  erewrite (run_then _ _ w1 w3) by (rewrite run_finally, Hw; by rewrite (run_unmark item2)).
  exists (item3 <| updated_at := clock w |>), w3.
  assert (Hr3 : row (uploads w3) (id p) = Some (item3 <| updated_at := clock w |>)).
  { unfold w3, written. cbn. rewrite Hp2. apply row_put_eq. }
  split_and!; [by apply run_refresh|done| |cbn; rewrite Hact; set_solver|done|by apply moved_stored; (done || lia)|done..].
  split; [done|by right|]. intros j. cbn. rewrite Hrec2. unfold row1, item1. cbn.
  destruct (decide (j = i)) as [->|Hj].
  - rewrite lookup_insert_eq, decide_True by set_solver. done.
  - rewrite lookup_insert_ne, (ip_received D item Hip) by done. by apply decide_ext; set_solver.
Qed.

Lemma run_pure {A B} (a : A) (f : A -> prog B) w : run (pure (Ok a) ≫= f) w = run (f a) w.
Proof. done. Qed.

Lemma in_progress_open D item : in_progress D item ->
  status item ∉ TERMINAL_UPLOAD_SESSION_STATUSES /\ status item ∉ [verifying; finalizing].
Proof. intros Hi. destruct (ip_status D item Hi) as [-> | ->]; set_solver. Qed.

(** A chunk that is sent is stored and recorded. *)
Lemma send_ready D i chunks content_length declared w : sends i chunks content_length declared -> in_plan D -> ready D w ->
  exists item w', run (send i chunks content_length declared) w = (w', Ok item) /\ ready (D ∪ {[i]}) w' /\ clock w' = clock w.
Proof.
  intros Hs HD [(item & Hr & Hip & Ha & Hexp) Hf Hl Hup]. pose proof (ip_plan D item Hip) as Hp.
  pose proof (sd_index _ _ _ _ Hs) as Hin. destruct (in_progress_open D item Hip) as [Ht Hv].
  unfold store_memory_upload_chunk_stream. erewrite run_then by (by apply get_memory_upload_run).
  cbv beta iota. rewrite (bool_decide_false _ Ht), (bool_decide_false _ Hv), Hp, (bool_decide_true (upload_mode p = upload_mode p)) by done.
  destruct (Z.ltb_spec i 0); [lia|]. destruct (Z.leb_spec (total_chunks p) i); [lia|]. cbn [negb orb].
  rewrite !run_guard_false. erewrite run_then by apply run_look. destruct (Z.ltb_spec (expires_at item) (clock w)); [lia|].
  erewrite run_then by done.
  destruct (run_integrity D item false w HD Hip Hf) as (found & Hfound & Hhealthy).
  erewrite run_then by apply Hfound. rewrite Hhealthy, bool_decide_true by set_solver. erewrite run_then by done.
  assert (match content_length with Some n => negb (n =? expected_length p i) | None => false end = false) as ->.
  { destruct (sd_length _ _ _ _ Hs) as [->| ->]; [done|]. by rewrite Z.eqb_refl. }
  rewrite run_guard_false.
  assert (exists sha, _sanitize_sha256 py_lower declared = Ok sha /\ (sha = None \/ sha = Some (sha256_of (chunk_of p data i))))
    as (sha & Hsha & Hcase) by (destruct (sd_declared _ _ _ _ Hs); eauto).
  rewrite Hsha, run_pure. erewrite run_then by apply run_look. rewrite (already_stored_run D) by done.
  destruct (decide (i ∈ D)) as [HiD|HiD].
  { rewrite bool_decide_true by done. exists item, w. split_and!; [done| |done].
    replace (D ∪ {[i]}) with D by set_solver. split; [|done..]. by exists item. }
  rewrite bool_decide_false by done.
  match goal with |- context [_redis_upload_lock uuid_text ?k ?b] => set (key := k); set (body := b) end.
  set (w1 := w <| uuids := S (uuids w) |> <| locks := <[key := uuid_text (uuids w)]> (locks w) |>).
  destruct (send_locked D item i chunks content_length declared sha w1) as
    (item' & w2 & Hrun & Hr' & Hip' & Ha' & Hexp' & Hf' & Hl' & Hup' & Hc'); [done..| |].
  { cbn. rewrite lookup_insert_ne by apply chunk_key_ne. by rewrite Hl. }
  assert (Hb : run body w1 = (w2, Ok item')).
  { unfold body. erewrite run_then by (by apply run_refresh). rewrite (bool_decide_false _ Ht), (bool_decide_false _ Hv). cbn [orb].
    rewrite run_guard_false. erewrite run_then by apply run_look. rewrite (already_stored_run D) by done.
    by rewrite bool_decide_false. }
  exists item', (w2 <| locks := locks w |>). split_and!; [apply run_lock; [done|by rewrite Hl|done..]| |exact Hc'].
  split; [|done..]. exists item'. split_and!; [done..|]. cbn. by rewrite Hc'.
Qed.

(** The requests of a client, each with its index, its pieces, its length and its
    hash. *)
Abbreviation sending := (Z * list bytes * option Z * option str)%type.
Definition index_of (s : sending) : Z := s.1.1.1.
Definition sends_of (s : sending) : Prop := sends s.1.1.1 s.1.1.2 s.1.2 s.2.
Definition send_each (l : list sending) : prog unit :=
  forP (fun _ s => let* _ := send s.1.1.1 s.1.1.2 s.1.2 s.2 in Done (Ok tt)) tt l.

Lemma send_each_ready D l w : Forall sends_of l -> in_plan D -> ready D w ->
  exists w', run (send_each l) w = (w', Ok tt) /\ ready (D ∪ list_to_set (map index_of l)) w' /\ clock w' = clock w.
Proof.
  intros Hl. revert D w. induction Hl as [|s l Hs Hl IH]; intros D w HD Hw.
  { exists w. split_and!; [done| |done]. cbn. by replace (D ∪ ∅) with D by set_solver. }
  destruct (send_ready D _ _ _ _ w Hs HD Hw) as (item & w1 & Hrun & Hw1 & Hc1).
  destruct (IH (D ∪ {[index_of s]}) w1) as (w2 & Hrun2 & Hw2 & Hc2); [|done|].
  { intros j [Hj|Hj%elem_of_singleton]%elem_of_union; [by apply HD|]. subst j. apply (sd_index _ _ _ _ Hs). }
  exists w2. split_and!; [| |congruence].
  - unfold send_each. rewrite run_forP_cons. erewrite (run_then _ _ w w1 tt) by (by erewrite run_then by done). done.
  - cbn [map list_to_set]. by replace (D ∪ ({[index_of s]} ∪ _)) with (D ∪ {[index_of s]} ∪ list_to_set (map index_of l)) by set_solver.
Qed.

(** C17. Chunks may be sent in any order and sent again: if nobody else is at
    work on the session, every request for a chunk of the file is answered, and
    afterwards the files under its chunk directory are exactly the chunks that
    were sent, each holding its part of the file and recorded with its length
    and its hash. *)
Theorem chunks_stored l w : Forall sends_of l -> ready ∅ w ->
  exists w', run (send_each l) w = (w', Ok tt) /\ ready (list_to_set (map index_of l)) w' /\
    (forall name n, files w' !! (dir_of ++ [name]) = Some n <->
       exists i, i ∈ map index_of l /\ name = chunk_name i /\ n = File (chunk_of p data i)) /\
    exists item, row (uploads w') (id p) = Some item /\
      forall i, received_chunks (metadata_json item) !! i = if decide (i ∈ map index_of l) then Some (meta_of i) else None.
Proof.
  intros Hl Hw. destruct (send_each_ready ∅ l w Hl) as (w' & Hrun & Hw' & _); [by intros i Hi|done|].
  replace (∅ ∪ _) with (list_to_set (map index_of l) : gset Z) in Hw' by set_solver. exists w'. split_and!; [done|done| |].
  - intros name n. rewrite (sf_files _ _ (rd_files _ _ Hw')). by setoid_rewrite elem_of_list_to_set.
  - destruct (rd_row _ _ Hw') as (item & Hr & Hi & _). exists item. split; [done|]. intros i. rewrite (ip_received _ _ Hi).
    apply decide_ext. by rewrite elem_of_list_to_set.
Qed.
End session.

(** * A fresh session *)
Lemma session_lookup q (pl : upload_plan) :
  session_files pl !! q = if bool_decide (q ∈ [[lit "staging"; staging_name pl; lit "chunks"]; [lit "staging"; staging_name pl]; [lit "staging"]])
                          then Some Dir else None.
Proof.
  unfold session_files. case_bool_decide as Hq.
  - rewrite !elem_of_cons, elem_of_nil in Hq. destruct_or?; subst; try done;
      rewrite ?lookup_insert_eq; repeat first [rewrite lookup_insert_eq|rewrite lookup_insert_ne by done]; done.
  - rewrite !not_elem_of_cons in Hq. destruct_and?. by rewrite !lookup_insert_ne by congruence.
Qed.

Lemma session_stored (pl : upload_plan) data : stored_files sample_settings pl data ∅ (session_files pl).
Proof.
  split.
  - intros q Hq Hne. rewrite session_lookup. rewrite bool_decide_true; [done|].
    unfold below, dir_of, root_of in Hq. apply bool_decide_eq_true in Hq. cbn [memory_upload_staging_path sample_settings app] in Hq.
    destruct q as [|a [|b [|c [|d q]]]]; [done|..|done]; cbn in Hq; simplify_eq; set_solver.
  - intros name n. rewrite session_lookup, bool_decide_false; [by naive_solver set_solver|].
    cbn. rewrite !not_elem_of_cons. split_and!; try done. by apply not_elem_of_nil.
Qed.

Lemma session_ready sha (pl : upload_plan) data : ready sha sample_settings pl data ∅ (session_world pl).
Proof.
  split; [|apply session_stored|done|done]. exists (sample_row pl).
  split_and!; [by apply lookup_singleton_eq| |done|done]. split; [done|by left|]. intros i. by rewrite decide_False by set_solver.
Qed.

Lemma sample_well_planned : well_planned sample_plan.
Proof. unfold well_planned. cbn [expected_bytes chunk_size_bytes total_chunks sample_plan]. split; [lia|]. split; [lia|reflexivity]. Qed.

Lemma chunks_stored_witness :
  let data := [1; 2; 3; 4; 5] in
  let l := [(2, [[5]], None, None); (0, [[1]; [2]], Some 2, None); (2, [[5]], Some 1, None)] in
  exists w', run (send_each sample_sha one_device sample_uuid lower sample_settings sample_plan l) (session_world sample_plan) = (w', Ok tt) /\
    ready sample_sha sample_settings sample_plan data (list_to_set (map index_of l)) w' /\
    (forall name n, files w' !! (dir_of sample_settings sample_plan ++ [name]) = Some n <->
       exists i, i ∈ map index_of l /\ name = chunk_name i /\ n = File (chunk_of sample_plan data i)) /\
    exists item, row (uploads w') (id sample_plan) = Some item /\
      forall i, received_chunks (metadata_json item) !! i =
        if decide (i ∈ map index_of l) then Some (meta_of sample_sha sample_plan data i) else None.
Proof.
  intros data l. apply chunks_stored.
  - apply sample_well_planned.
  - reflexivity.
  - repeat constructor; try (left; reflexivity); try (right; reflexivity); try lia; cbn; lia.
  - apply session_ready.
Defined.
End UploadRun.
