(* ===== verification/UploadComplete.v ===== *)
(** A finalization that nothing disturbs: the session whose chunks are all there
    ends completed, its evidence registered and its file in place. *)
From S2P Require Import Prelude PyBase Decimals FileSystem Handlers UploadModel UploadShared UploadSession UploadPlan UploadPromote UploadInvariant UploadSamples UploadRun.
Import Bytes Str FileSystem Handlers UploadModel UploadShared UploadSession UploadPlan UploadPromote UploadInvariant UploadSamples UploadRun.

Module UploadComplete.

(** Two paths of different lengths. *)
Ltac by_length He := apply (f_equal length) in He; rewrite ?length_app in He; cbn in He; lia.

Section session.
Context {U V : Type} `{Table U MemoryUpload} `{Table V Evidence}.
Abbreviation world := (world U V).
Abbreviation prog := (prog world upload_exn).
Implicit Types w : world.
Variables (sha256_of : bytes -> str) (device : path -> Z) (getpid : str) (uuid_text : nat -> str).
Variables (py_lower : str -> str) (settings : Settings).
Variables (p : upload_plan) (data : bytes).
Hypothesis Hplan : well_planned p.
Hypothesis Hdata : len data = expected_bytes p.

Abbreviation stored_files := (stored_files settings p data).
Abbreviation root := (root_of settings p).
Abbreviation dir := (dir_of settings p).
Definition evidence_root : path := backend_data_dir settings ++ [lit "evidence"].
Definition output_root : path := default evidence_root (memory_output_root settings).
Definition target : path := backend_data_dir settings ++ canonical_relative_path p.
Definition assembly (token : str) : path := root ++ [lit "assembly-" ++ token ++ lit ".part"].

(** No file stands on the way to [q]. *)
Definition clear (q : path) (f : fs) : Prop := forall r c, f !! r = Some (File c) -> below r q = false.

(** The evidence goes where nothing is, outside the staging directory. *)
Record placed : Prop := {
  pl_target : exists name above, canonical_relative_path p = lit "evidence" :: above ++ [name] /\ above <> [];
  pl_apart : below root target = false;
  pl_output : below root output_root = false;
  pl_output_target : below target output_root = false;
  pl_device : device root = device (parent target) }.
Hypothesis Hplaced : placed.

Record free (D : gset Z) (f : fs) : Prop := {
  fr_stored : stored_files D f;
  fr_assembly token : f !! assembly token = None;
  fr_target : f !! target = None;
  fr_clear : clear target f;
  fr_output : clear output_root f }.

Lemma below_shorter a b : (length b < length a)%nat -> below a b = false.
Proof. intros Hl. apply below_false. intros [r ->]. rewrite length_app in Hl. lia. Qed.

Lemma free_mkdir D q f : free D f -> clear q f -> below root q = false -> below target q = false ->
  exists f', mkdir q f = Ok f' /\ free D f' /\ is_dir q f' = true /\ (clear q f' /\ forall r c, f' !! r = Some (File c) -> f !! r = Some (File c)).
Proof.
  intros Hf Hq Hroot Htarget. destruct (mkdirs_ok [] q f) as [f' Hm].
  { intros r c Hr. cbn [app]. by rewrite (Hq r c Hr). }
  exists f'. assert (Hl : forall r, f' !! r = if below r q && (0 <? length r)%nat then Some Dir else f !! r)
    by (intros r; by apply mkdir_lookup).
  assert (Hfile : forall r c, f' !! r = Some (File c) -> f !! r = Some (File c)).
  { intros r c. rewrite Hl. by destruct (below r q && _). }
  assert (Hsame : forall r, below r q = false -> f' !! r = f !! r) by (intros r Hr; by rewrite Hl, Hr).
  assert (Hin : forall r, below root (root ++ r) = true) by (intros r; apply below_app).
  assert (Hunder : forall r, f' !! (root ++ r) = f !! (root ++ r)).
  { intros r. apply Hsame. destruct (below (root ++ r) q) eqn:Hb; [|done].
    by rewrite (below_trans _ _ _ (Hin r) Hb) in Hroot. }
  split; [done|]. split; [split| split; [|split]].
  - split.
    + intros r Hr Hne. rewrite Hl. destruct (below r q && _); [done|]. by apply (sf_dirs _ _ _ _ _ (fr_stored D f Hf)).
    + intros name n. unfold dir_of. rewrite <-app_assoc, Hunder, app_assoc. apply (sf_files _ _ _ _ _ (fr_stored D f Hf)).
  - intros token. unfold assembly. rewrite Hunder. apply (fr_assembly D f Hf).
  - rewrite Hsame by done. apply (fr_target D f Hf).
  - intros r c Hr%Hfile. by apply (fr_clear D f Hf) in Hr.
  - intros r c Hr%Hfile. by apply (fr_output D f Hf) in Hr.
  - unfold is_dir. destruct q as [|a q]; [done|]. apply bool_decide_eq_true. rewrite Hl.
    by rewrite (proj2 (below_spec _ _)) by (exists []; by rewrite app_nil_r).
  - intros r c Hr%Hfile. by apply Hq in Hr.
  - done.
Qed.

Lemma clear_prefix a b f : below a b = true -> clear b f -> clear a f.
Proof.
  intros Hab Hb r c Hr. destruct (below r a) eqn:Hra; [|done]. by rewrite <-(Hb r c Hr), (below_trans r a b).
Qed.

Lemma run_available D q w : free D (files w) -> clear q (files w) -> below root q = false -> below target q = false ->
  exists f', run (_available_bytes q : prog Z) w = (w <| files := f' |>, Ok (disk_free w q)) /\ free D f'.
Proof.
  intros Hf Hq Hr Ht. destruct (free_mkdir D q (files w) Hf Hq Hr Ht) as (f' & Hm & Hf' & _).
  exists f'. split; [|done]. unfold _available_bytes. by rewrite (run_then _ _ w (w <| files := f' |>) tt) by (by rewrite run_on_files, Hm).
Qed.

Lemma target_above : exists name above, target = evidence_root ++ above ++ [name] /\ above <> [].
Proof.
  destruct (pl_target Hplaced) as (name & above & Ht & Hn). exists name, above. split; [|done].
  unfold target, evidence_root. rewrite Ht, <-app_assoc. done.
Qed.

Lemma evidence_root_above : below evidence_root target = true /\ below target evidence_root = false /\ below root evidence_root = false.
Proof.
  destruct target_above as (name & above & Ht & Hn). assert (below evidence_root target = true) as Hb by (rewrite Ht; apply below_app).
  split_and!; [done| |].
  - apply below_shorter. rewrite Ht, !length_app. cbn. lia.
  - destruct (below root evidence_root) eqn:Hr; [|done]. pose proof (pl_apart Hplaced) as Ha.
    by rewrite (below_trans _ _ _ Hr Hb) in Ha.
Qed.

Lemma staging_clear D f : free D f -> clear (memory_upload_staging_path settings) f /\
  below root (memory_upload_staging_path settings) = false /\ below target (memory_upload_staging_path settings) = false.
Proof.
  intros Hf.
  assert (Hdir : forall q, below q (memory_upload_staging_path settings) = true -> q <> [] -> f !! q = Some Dir).
  { intros q Hq Hne. apply (sf_dirs _ _ _ _ _ (fr_stored D f Hf)); [|done]. unfold dir_of, root_of.
    eapply below_trans; [done|]. rewrite <-app_assoc. apply below_app. }
  split_and!.
  - intros r c Hr. destruct (below r (memory_upload_staging_path settings)) eqn:Hb; [|done].
    destruct (decide (r = [])) as [->|Hne]; [|by rewrite (Hdir r Hb Hne) in Hr].
    pose proof (fr_clear D f Hf [] c Hr) as Hc. by rewrite (proj2 (below_spec _ _)) in Hc by (by exists target).
  - apply below_shorter. unfold root_of. rewrite length_app. cbn. lia.
  - destruct (below target _) eqn:Hb; [|done]. pose proof (fr_target D f Hf) as Ht. rewrite (Hdir target Hb) in Ht; [done|].
    destruct target_above as (name & above & -> & _). intros He. by_length He.
Qed.

(** What [_capacity_snapshot] asks for. *)
Definition room w : Prop :=
  let min_free := memory_upload_min_free_space_bytes settings in
  let reserved := sum_of (fun item => expected_bytes (plan item))
    (filter (fun item => bool_decide (is_active item) && bool_decide (not_excluded (Some (id p)) item)) (rows (uploads w))) in
  expected_bytes p + min_free + reserved <= disk_free w (memory_upload_staging_path settings) /\
  expected_bytes p + min_free + reserved <= disk_free w evidence_root /\
  Z.max (memory_plugin_output_max_bytes settings) (256 * 1024 * 1024) + min_free <= disk_free w output_root.

Lemma run_capacity D w : free D (files w) -> room w ->
  exists f' cap, run (_capacity_snapshot device settings (expected_bytes p) (Some (id p)) : prog capacity) w =
      (w <| files := f' |>, Ok cap) /\ can_accept_selected_size cap = true /\ free D f'.
Proof.
  intros Hf (Hr1 & Hr2 & Hr3). destruct (staging_clear D _ Hf) as (Hc1 & Hs1 & Hs2). destruct evidence_root_above as (He1 & He2 & He3).
  destruct (run_available D _ w Hf Hc1 Hs1 Hs2) as (f1 & Hrun1 & Hf1). set (w1 := w <| files := f1 |>) in *.
  destruct (run_available D evidence_root w1) as (f2 & Hrun2 & Hf2); [done|by eapply clear_prefix, (fr_clear D)|done..|].
  set (w2 := w1 <| files := f2 |>) in *.
  destruct (run_available D output_root w2) as (f3 & Hrun3 & Hf3);
    [done|by apply (fr_output D)|by apply (pl_output Hplaced)|by apply (pl_output_target Hplaced)|].
  exists f3. eexists. unfold _capacity_snapshot. cbv zeta. fold evidence_root. fold output_root.
  erewrite run_then by apply Hrun1. erewrite run_then by apply Hrun2. erewrite run_then by apply Hrun3.
  erewrite run_then by apply run_look. cbn [run]. split_and!; [by destruct w| |done].
  cbn [can_accept_selected_size]. pose proof (plan_total p Hplan). destruct Hplan as (He & _).
  change (disk_free w1) with (disk_free w). change (disk_free w2) with (disk_free w). change (uploads (w2 <| files := f3 |>)) with (uploads w).
  rewrite !andb_true_iff, !Z.leb_le. split_and!; [done| |done]. destruct (_ =? _); lia.
Qed.

Lemma run_concat paths contents dest acc w : files w !! dest = Some (File acc) ->
  Forall2 (fun q c => q <> dest /\ files w !! q = Some (File c)) paths contents ->
  run (forP (concat_step dest) acc paths : prog bytes) w =
  (w <| files := <[dest := File (acc ++ concat contents)]> (files w) |>, Ok (acc ++ concat contents)).
Proof.
  intros Hd Hf. revert acc contents w Hd Hf. induction paths as [|q paths IH]; intros acc contents w Hd Hf; inversion Hf as [|? c ? cs [Hne Hq] Hf'];
    subst; cbn [concat].
  { rewrite app_nil_r, insert_id by done. by destruct w. }
  rewrite run_forP_cons. set (w1 := w <| files := <[dest := File (acc ++ c)]> (files w) |>).
  erewrite (run_then _ _ w w1 (acc ++ c)).
  2:{ unfold concat_step. erewrite run_then by (rewrite run_read_files; unfold read_bytes; by rewrite Hq).
      erewrite run_then; [done|]. rewrite run_on_files. unfold append_bytes. by rewrite Hd. }
  rewrite (IH (acc ++ c) cs w1); cbn.
  - by rewrite insert_insert_eq, app_assoc.
  - apply lookup_insert_eq.
  - eapply Forall2_impl; [done|]. intros q' c' [Hne' Hq']. split; [done|]. by rewrite lookup_insert_ne.
Qed.

Definition everything (D : gset Z) : Prop := forall i, 0 <= i < total_chunks p -> i ∈ D.

Lemma chunks_data : concat (map (fun i => chunk_of p data (Z.of_nat i)) (seq 0 (Z.to_nat (total_chunks p)))) = data.
Proof.
  pose proof (plan_total p Hplan). rewrite chunks_upto by (done || lia). rewrite Z2Nat.id, Z.min_l by lia.
  rewrite <-Hdata. apply slice_all. lia.
Qed.

Lemma run_assemble D token item w : free D (files w) -> everything D -> plan item = p ->
  run (concat_and_hash sha256_of (map (fun i => _chunk_path settings item (Z.of_nat i)) (seq 0 (Z.to_nat (total_chunks p))))
    (assembly token) : prog _) w =
  (w <| files := <[assembly token := File data]> (files w) |>, Ok (len data, sha256_of data)).
Proof.
  intros Hf HD Hp.
  assert (Hne : forall n, dir ++ [n] <> assembly token) by (intros n He; unfold assembly, dir_of in He; by_length He).
  set (w1 := w <| files := <[assembly token := File []]> (files w) |>).
  unfold concat_and_hash. erewrite (run_then _ _ w w1 tt).
  2:{ rewrite run_on_files. unfold create_file, check_parent, assembly. rewrite parent_snoc. fold (assembly token).
      assert (is_dir root (files w) = true) as ->.
      { unfold is_dir. destruct root eqn:He; [done|]. rewrite <-He. apply bool_decide_eq_true.
        apply (sf_dirs _ _ _ _ _ (fr_stored D _ Hf)); [apply below_app|by rewrite He]. }
      cbn [mbind result_bind]. assert (exists_ (assembly token) (files w) = false) as ->; [|done].
      unfold exists_. destruct (assembly token) eqn:He; [unfold assembly in He; by_length He|]. rewrite <-He, (fr_assembly D _ Hf).
      apply bool_decide_eq_false. by intros [? ?]. }
  erewrite run_then.
  2:{ apply (run_concat _ (map (fun i => chunk_of p data (Z.of_nat i)) (seq 0 (Z.to_nat (total_chunks p))))).
      - cbn. apply lookup_insert_eq.
      - apply Forall2_fmap, Forall_Forall2_diag, Forall_forall. intros i Hi%elem_of_seq.
        destruct (chunk_paths settings p item (Z.of_nat i) Hp) as [_ ->]. split.
        + apply Hne.
        + cbn. rewrite lookup_insert_ne by (apply not_eq_sym, Hne).
          apply (stored_chunk settings p data D); [apply (fr_stored D _ Hf)|]. apply HD. lia. }
  cbn [app]. rewrite chunks_data. cbn. by rewrite insert_insert_eq.
Qed.

(** ** Registration *)
Hypothesis Hsha : sha256_of data <> [].
Definition no_duplicate w : Prop := forall e, e ∈ rows (evidence w) -> ~ (e_case_id e = case_id p /\ e_sha256 e = sha256_of data).
Definition registered_evidence : Evidence :=
  {| e_id := evidence_id p; e_case_id := case_id p; e_type := memory_dump; e_sha256 := sha256_of data;
     e_size_bytes := expected_bytes p; e_stored_path := target; e_original_filename := display_name p |}.

Lemma truthy_sha : truthy_text (Some (sha256_of data)) = Some (sha256_of data).
Proof. unfold truthy_text. by destruct (sha256_of data). Qed.

Lemma run_find_duplicate item w : plan item = p -> sha256 item = Some (sha256_of data) -> no_duplicate w ->
  run (_find_duplicate_memory_evidence item : prog (option Evidence)) w = (w, Ok None).
Proof.
  intros Hp Hs Hn. unfold _find_duplicate_memory_evidence. rewrite Hs, truthy_sha. cbn [run look].
  rewrite filter_none; [done|]. intros e He Hd%Is_true_true. unfold same_evidence in Hd. rewrite Hp in Hd.
  apply (Hn e He). to_prop. naive_solver.
Qed.

Lemma run_register item w : row (uploads w) (id p) = Some item -> plan item = p -> bytes_received item = expected_bytes p ->
  sha256 item = Some (sha256_of data) -> files w !! target = Some (File data) -> row (evidence w) (evidence_id p) = None ->
  no_duplicate w ->
  exists item' ups, run (register_memory_evidence_from_upload sha256_of settings (id p) : prog Evidence) w =
      (w <| uploads := ups |> <| evidence := put (evidence_id p) registered_evidence (evidence w) |>, Ok registered_evidence) /\
    row ups (id p) = Some item' /\ status item' = completed /\ plan item' = p.
Proof.
  intros Hr Hp Hb Hs Ht He Hn.
  assert (Hcan : forall it, plan it = p -> _canonical_path settings it = target) by (intros it Hit; unfold _canonical_path; by rewrite Hit).
  unfold register_memory_evidence_from_upload. erewrite run_then by apply run_get_row. rewrite Hr. cbv beta iota.
  erewrite run_then by apply run_look. rewrite (Hcan item Hp), Hp, He. cbv beta iota zeta.
  rewrite Hb, Z.eqb_refl, Hs, truthy_sha. cbn [negb]. rewrite !run_guard_false.
  erewrite run_then by apply run_look.
  assert (_valid_regular_file target (expected_bytes p) (files w) = true) as ->.
  { unfold _valid_regular_file. rewrite Ht, Hdata. apply Z.eqb_refl. }
  cbn [negb]. rewrite run_guard_false. erewrite run_then by (rewrite run_read_files; unfold read_bytes; by rewrite Ht).
  rewrite bool_decide_true by done. cbn [negb]. rewrite run_guard_false.
  erewrite run_then by (by apply run_find_duplicate). cbv beta iota. erewrite run_then by done.
  match goal with |- context [commit item ?changed] => set (item1 := changed) end.
  erewrite (run_then _ _ w (written w item1)).
  2:{ apply run_commit; [by rewrite Hp|done| |by left]. intros Heq. apply (f_equal registration_attempts) in Heq. cbn in Heq. lia. }
  set (w1 := written w item1). set (item2 := item1 <| updated_at := clock w |>).
  assert (row (uploads w1) (id p) = Some item2) as Hr2 by (unfold w1, written; cbn; rewrite Hp; apply row_put_eq).
  erewrite run_then by (by apply run_refresh).
  assert (Hbuild : _build_evidence_from_upload item2 target = registered_evidence).
  { unfold _build_evidence_from_upload, registered_evidence, item2, item1. cbn. by rewrite Hp, Hs. }
  set (w2 := w1 <| evidence := put (evidence_id p) registered_evidence (evidence w1) |>).
  erewrite (run_then _ _ w1 w2 registered_evidence).
  2:{ rewrite run_catch. unfold _persist_evidence_minimal. rewrite Hbuild. unfold attempt. cbn [run e_id registered_evidence].
      change (evidence w1) with (evidence w). by rewrite He. }
  erewrite run_then by (by apply run_write_columns). cbn [run].
  eexists. eexists. split; [by destruct w|]. split; [apply row_put_eq|]. by split.
Qed.

(** ** Promotion *)
Definition in_place (token : str) (f : fs) : fs :=
  <[target := File data]> (delete (assembly token) (<[assembly token := File data]> f)).

Lemma run_promote D token w : free D (files w) -> is_dir (parent target) (files w) = true ->
  run (atomic_promote device getpid (assembly token) target : prog unit) (w <| files := <[assembly token := File data]> (files w) |>) =
  (w <| files := in_place token (files w) |>, Ok tt).
Proof.
  intros Hf Hd. set (w1 := w <| files := _ |>). unfold atomic_promote. rewrite run_catch, run_on_files.
  assert (target <> assembly token) as Ht.
  { intros He. pose proof (pl_apart Hplaced) as Ha. rewrite He in Ha. unfold assembly in Ha.
    by rewrite (proj2 (below_spec _ _)) in Ha by eauto. }
  assert (replace_file device (assembly token) target (files w1) = Ok (in_place token (files w))) as ->; [|done].
  unfold replace_file, w1. cbn [files set_field]. rewrite lookup_insert_eq. unfold check_parent.
  assert (is_dir (parent target) (<[assembly token := File data]> (files w)) = true) as ->.
  { unfold is_dir in *. destruct (parent target) eqn:He; [done|]. rewrite <-He in *. apply bool_decide_eq_true in Hd.
    apply bool_decide_eq_true. rewrite lookup_insert_ne; [done|]. intros Hq. by rewrite <-Hq, (fr_assembly D _ Hf) in Hd. }
  cbn [mbind result_bind]. unfold assembly at 1. rewrite parent_snoc, (pl_device Hplaced), Z.eqb_refl. cbn [negb].
  assert (is_dir target (<[assembly token := File data]> (files w)) = false) as ->; [|done].
  destruct target_above as (name & above & Htar & _). unfold is_dir.
  destruct target eqn:He; [destruct above; by destruct (evidence_root)|]. rewrite <-He in *.
  rewrite lookup_insert_ne, (fr_target D _ Hf) by done. by apply bool_decide_eq_false.
Qed.

(** The session's object before and after a step of the finalization. *)
Lemma run_advance loaded item w : row (uploads w) (id p) = Some loaded -> plan loaded = p -> plan item = p -> status item <> status loaded ->
  run (let* item := _touch_session settings item in commit loaded item;* reload (id (plan loaded)) : prog session) w =
  let item' := item <| updated_at := clock w |>
                 <| expires_at := clock w + Z.max 300 (or_int (memory_upload_session_ttl_seconds settings) 86400) |> in
  (w <| uploads := put (id p) item' (uploads w) |>, Ok (item', item')).
Proof.
  intros Hr Hl Hi Hst. erewrite run_then by apply run_touch. cbv zeta. set (item' := item <| updated_at := _ |> <| expires_at := _ |>).
  erewrite (run_then _ _ w (written w item')).
  2:{ apply run_commit; [by rewrite Hl|by rewrite Hl| |by right]. intros He. by apply (f_equal status) in He. }
  assert (written w item' = w <| uploads := put (id p) item' (uploads w) |>) as -> by (unfold written; cbn; by rewrite Hi).
  unfold reload. rewrite Hl. erewrite run_then by (apply run_refresh, row_put_eq). done.
Qed.

(** ** Finalization *)
Lemma target_root : parent target <> [] /\ below root (parent target) = false /\ below target (parent target) = false /\
  below (parent target) target = true.
Proof.
  destruct target_above as (name & above & Ht & Hn). rewrite app_assoc in Ht. rewrite Ht, parent_snoc.
  assert (below (evidence_root ++ above) target = true) as Hb by (rewrite Ht; apply below_app).
  split_and!; [by destruct evidence_root| |apply below_shorter; rewrite !length_app; cbn; lia|by rewrite <-Ht].
  destruct (below root _) eqn:Hr; [|done]. pose proof (pl_apart Hplaced) as Ha. by rewrite (below_trans _ _ _ Hr Hb) in Ha.
Qed.

Lemma in_place_dir D token f : free D f -> is_dir (parent target) f = true -> is_dir (parent target) (in_place token f) = true.
Proof.
  intros Hf Hd. destruct target_root as (Hne & _ & Hpt & _). unfold is_dir in *. destruct (parent target) eqn:He; [done|]. rewrite <-He in *.
  apply bool_decide_eq_true in Hd. apply bool_decide_eq_true. unfold in_place.
  rewrite lookup_insert_ne by (intros Hq; rewrite <-Hq, (proj2 (below_spec _ _)) in Hpt; [done|exists []; by rewrite app_nil_r]).
  assert (assembly token <> parent target) as Ha by (intros Hq; by rewrite <-Hq, (fr_assembly D f Hf) in Hd).
  by rewrite lookup_delete_ne, lookup_insert_ne.
Qed.

Lemma run_finalize_body D item expected token w : free D (files w) -> everything D -> row (uploads w) (id p) = Some item ->
  plan item = p -> status item = created \/ status item = uploading -> expected = None \/ expected = Some (sha256_of data) ->
  row (evidence w) (evidence_id p) = None -> no_duplicate w ->
  exists item' ups f, run (run_chunked_finalize sha256_of device getpid (finalize_config settings item (assembly token) expected) (item, item)
      (_on_verifying settings) _find_duplicate (_on_duplicate settings) (_on_finalizing settings)
      (fun p => fsync_directory (parent p)) (_register sha256_of settings) (fun s => _cleanup_session_storage settings (snd s)) : prog _) w =
      (w <| files := f |> <| uploads := ups |> <| evidence := put (evidence_id p) registered_evidence (evidence w) |>,
       Ok (sha256_of data, len data, registered_evidence)) /\
    row ups (id p) = Some item' /\ status item' = completed /\ plan item' = p /\
    f !! target = Some (File data) /\ forall q, below root q = true -> f !! q = None.
Proof.
  intros Hf HD Hr Hp Hst Hexp He Hn. destruct target_root as (Hne & Hpr & Hpt & Hpb).
  unfold run_chunked_finalize, finalize_config. cbn [final_path assembly_path chunk_path_fn config_total_chunks config_expected_bytes config_expected_sha256].
  assert (_canonical_path settings item = target) as -> by (unfold _canonical_path; by rewrite Hp). rewrite !Hp.
  destruct (free_mkdir D (parent target) (files w)) as (f1 & Hm & Hf1 & Hd1 & _); [done|by eapply clear_prefix, (fr_clear D)|done..|].
  set (w1 := w <| files := f1 |>). erewrite (run_then _ _ w w1) by (rewrite run_on_files, Hm; done).
  erewrite run_then by (apply (run_advance item); [done|done|done|]; cbn; by destruct Hst as [-> | ->]).
  cbv zeta. match goal with |- context [put (id p) ?it _] => set (item2 := it) end.
  set (w2 := w1 <| uploads := put (id p) item2 (uploads w1) |>).
  erewrite run_then by (by apply (run_assemble D)). cbv beta iota. rewrite Hdata, Z.eqb_refl. cbn [negb]. rewrite run_guard_false.
  set (w3 := w2 <| files := <[assembly token := File data]> (files w2) |>).
  match goal with |- context [match expected with Some _ => _ | None => _ end] =>
    erewrite (run_then _ _ w3 w3 tt) by (destruct Hexp as [->| ->]; [done|];
      destruct (sha256_of data) eqn:Hsh; [done|]; rewrite <-Hsh; by rewrite bool_decide_true) end.
  erewrite (run_then _ _ w3 w3).
  2:{ unfold _find_duplicate. cbv zeta. erewrite run_then by (by apply run_find_duplicate). done. }
  cbv beta iota. erewrite run_then by done.
  erewrite run_then by (apply (run_advance item2); [apply row_put_eq|done..]).
  cbv zeta. match goal with |- context [put (id p) ?it (uploads w3)] => set (item4 := it) end.
  set (w4 := w3 <| uploads := put (id p) item4 (uploads w3) |>).
  set (w5 := w4 <| files := in_place token f1 |>).
  assert (run (atomic_promote device getpid (assembly token) target : prog unit) w4 = (w5, Ok tt)) as Hprom
    by exact (run_promote D token (w4 <| files := f1 |>) Hf1 Hd1).
  erewrite run_then by apply Hprom.
  assert (files w5 !! target = Some (File data)) as Ht5 by apply lookup_insert_eq.
  erewrite (run_then _ _ w5 w5 tt).
  2:{ unfold fsync_directory. rewrite run_read_files. change (files w5) with (in_place token f1).
      by rewrite (in_place_dir D token f1). }
  unfold _register. cbn [fst snd]. assert (plan item4 = p) as Hp4 by done. rewrite Hp4.
  destruct (run_register item4 w5) as (item' & ups & Hreg & Hr' & Hst' & Hp'); [apply row_put_eq|done..|].
  erewrite run_then by apply Hreg. unfold _cleanup_session_storage. erewrite run_then by (rewrite run_on_files; done).
  assert (_session_root settings item4 = root) as -> by (unfold _session_root; by rewrite Hp4).
  exists item', ups, (rmtree root (in_place token f1)). cbn [run]. split_and!; [by destruct w|done|done|done| |].
  - rewrite rmtree_lookup, (pl_apart Hplaced). apply lookup_insert_eq.
  - intros q Hq. by rewrite rmtree_lookup, Hq.
Qed.

Lemma none_missing D item : in_progress sha256_of p data D item -> everything D -> missing_chunks item = [].
Proof.
  intros Hi HD. unfold missing_chunks. apply filter_none. intros j (n & -> & Hn%elem_of_seq)%list_elem_of_fmap.
  rewrite (ip_received _ _ _ _ _ Hi), (ip_plan _ _ _ _ _ Hi) in *. rewrite decide_True; [done|]. apply HD. lia.
Qed.

(** The hash that the client declares, now or when it created the session. *)
Definition declares (declared : option str) : Prop :=
  let e := _sanitize_sha256 py_lower (match truthy_text declared with Some h => Some h | None => expected_sha256 p end) in
  e = Ok None \/ e = Ok (Some (sha256_of data)).

(** C2. A finalization that nothing disturbs completes: if every chunk of the
    file has been stored, nobody else is at work, there is room, and neither the
    evidence nor a duplicate is registered yet, then the request is answered with
    the completed session and its evidence, whose hash and size are those of the
    file; the file stands whole at its canonical path, nothing is left of the
    staging directory, and the lock is free again. *)
Theorem finalize_completes D declared w : in_plan p D -> everything D -> ready sha256_of settings p data D w -> free D (files w) ->
  declares declared -> room w -> row (evidence w) (evidence_id p) = None -> no_duplicate w ->
  exists item w', run (finalize_memory_upload_session sha256_of device getpid uuid_text py_lower settings (case_id p) (id p) declared
      : prog _) w = (w', Ok (item, Some registered_evidence)) /\
    row (uploads w') (id p) = Some item /\ status item = completed /\
    row (evidence w') (evidence_id p) = Some registered_evidence /\
    files w' !! target = Some (File data) /\ (forall q, below root q = true -> files w' !! q = None) /\ locks w' = ∅.
Proof.
  intros Hin HD [(item & Hr & Hip & Ha & _) Hst Hl Hup] Hf Hdec Hroom He Hn. pose proof (ip_plan _ _ _ _ _ Hip) as Hp.
  unfold finalize_memory_upload_session.
  match goal with |- context [_redis_upload_lock uuid_text ?k ?b] => set (key := k); set (body := b) end.
  set (w1 := w <| uuids := S (uuids w) |> <| locks := <[key := uuid_text (uuids w)]> (locks w) |>).
  assert (Hbody : exists item' w2, run body w1 = (w2, Ok (item', Some registered_evidence)) /\
    row (uploads w2) (id p) = Some item' /\ status item' = completed /\ row (evidence w2) (evidence_id p) = Some registered_evidence /\
    files w2 !! target = Some (File data) /\ (forall q, below root q = true -> files w2 !! q = None) /\
    locks w2 = locks w1 /\ redis_up w2 = true).
  { unfold body. erewrite run_then by (by apply get_memory_upload_run). cbv beta iota.
    rewrite bool_decide_false by (destruct (ip_status _ _ _ _ _ Hip) as [-> | ->]; set_solver).
    rewrite Ha, (bool_decide_true ((∅ : gset Z) = ∅)) by done. cbn [negb]. rewrite run_guard_false.
    destruct (run_integrity sha256_of settings p data Hplan Hdata D item true w1 Hin Hip Hst) as (found & Hfound & Hhealthy).
    erewrite run_then by apply Hfound. rewrite Hhealthy, (bool_decide_true (STAGING_HEALTHY = STAGING_HEALTHY)) by done. erewrite run_then by done.
    assert (exists e, _sanitize_sha256 py_lower (match truthy_text declared with Some h => Some h | None => expected_sha256 (plan item) end) = Ok e
      /\ (e = None \/ e = Some (sha256_of data))) as (e & Hsan & Hcase) by (rewrite Hp; destruct Hdec; eauto).
    rewrite Hsan, run_pure, (none_missing D item Hip HD), (bool_decide_false (([] : list Z) <> [])) by (intros Hne; by apply Hne). rewrite run_guard_false, Hp.
    destruct (run_capacity D w1 Hf Hroom) as (f2 & cap & Hcap & Hok & Hf2). erewrite run_then by apply Hcap. rewrite Hok. cbn [negb].
    rewrite run_guard_false. set (w2 := w1 <| files := f2 |>). set (token := uuid_text (uuids w2)).
    set (w3 := w2 <| uuids := S (uuids w2) |>). erewrite (run_then _ _ w2 w3 token) by done.
    assert (_session_root settings item = root) as -> by (unfold _session_root; by rewrite Hp). fold (assembly token).
    destruct (run_finalize_body D item e token w3) as (item' & ups & f & Hrun & Hr' & Hst' & Hp' & Ht' & Hgone);
      [done|done|done|done|apply (ip_status _ _ _ _ _ Hip)|done..|].
    eexists. eexists. split; [rewrite !run_catch; erewrite run_then by apply Hrun; cbv beta iota; by erewrite run_then by (by apply run_refresh)|].
    split_and!; [done|done|apply row_put_eq|done..]. }
  destruct Hbody as (item' & w2 & Hrun & Hr' & Hst' & He' & Ht' & Hgone & Hl' & Hup').
  exists item', (w2 <| locks := locks w |>). split_and!; [apply run_lock; [done|by rewrite Hl|done..]|done..].
Qed.
End session.

(** * A session of one chunk, received *)
Definition small_data : bytes := [1; 2].
Definition small_row : MemoryUpload :=
  sample_row small_plan <| status := uploading |> <| received_chunk_count := 1 |> <| bytes_received := 2 |>
    <| metadata_json := {| received_chunks := {[ 0 := meta_of sample_sha small_plan small_data 0 ]}; active_chunks := ∅; duplicate := None |} |>.
Definition received_world : sample_world :=
  empty_world (moved sample_settings small_plan 0 (lit "t") small_data (session_files small_plan)) <| uploads := {[ lit "u" := small_row ]} |>.

Lemma small_well_planned : well_planned small_plan.
Proof. unfold well_planned. cbn [expected_bytes chunk_size_bytes total_chunks small_plan]. split; [lia|]. split; [lia|reflexivity]. Qed.

Lemma received_stored : stored_files sample_settings small_plan small_data {[0]} (files received_world).
Proof.
  replace ({[0]} : gset Z) with (∅ ∪ {[0]} : gset Z) by set_solver.
  change (files received_world) with (moved sample_settings small_plan 0 (lit "t") (chunk_of small_plan small_data 0) (session_files small_plan)).
  apply (moved_stored sample_sha lower);
    [apply small_well_planned|reflexivity|apply session_stored|lia|by intros i Hi|set_solver].
Qed.

Lemma received_ready : ready sample_sha sample_settings small_plan small_data {[0]} received_world.
Proof.
  split; [|apply received_stored|done|done]. exists small_row. split_and!; [by apply lookup_singleton_eq| |done|done].
  split; [done|by right|]. intros i. cbn [metadata_json small_row]. destruct (decide (i = 0)) as [->|Hi].
  - by rewrite decide_True by set_solver.
  - rewrite decide_False by set_solver. change (({[ 0 := meta_of sample_sha small_plan small_data 0 ]} : gmap Z chunk_meta) !! i = None).
    by apply lookup_singleton_ne.
Qed.

Lemma received_lookup q n : files received_world !! q = Some n ->
  q ∈ [dir_of sample_settings small_plan ++ [chunk_name 0]; [lit "staging"; lit "s"; lit "chunks"]; [lit "staging"; lit "s"]; [lit "staging"]].
Proof.
  cbn [files received_world set_field empty_world]. unfold moved. intros Hq.
  apply lookup_insert_Some in Hq as [[<- <-]|[_ Hq]]; [by left|].
  apply lookup_delete_Some in Hq as [Hpart Hq]. rewrite lookup_insert_ne in Hq by done.
  rewrite session_lookup in Hq. case_bool_decide as Hin; [|done]. by right.
Qed.

Lemma small_placed : placed one_device sample_settings small_plan.
Proof.
  split; [|reflexivity..]. by exists (lit "memory-image.raw"), [lit "c"; lit "e"; lit "original"].
Qed.

Lemma received_free : free sample_settings small_plan small_data {[0]} (files received_world).
Proof.
  assert (Hclear : forall q, clear (lit "data" :: q) (files received_world)).
  { intros q r c Hr. apply below_false. intros [x Hx]. apply received_lookup in Hr.
    rewrite !elem_of_cons, elem_of_nil in Hr. destruct_or?; subst; discriminate. }
  split; [apply received_stored| |reflexivity|apply Hclear..].
  intros token. apply eq_None_not_Some. intros [n Hn%received_lookup].
  rewrite !elem_of_cons, elem_of_nil in Hn. destruct_or?; discriminate.
Qed.

Lemma finalize_completes_witness :
  exists item w', run (finalize_memory_upload_session sample_sha one_device (lit "7") sample_uuid lower sample_settings
      (lit "c") (lit "u") None) received_world =
    (w', Ok (item, Some (registered_evidence sample_sha sample_settings small_plan small_data))) /\
    row (uploads w') (lit "u") = Some item /\ status item = completed /\
    row (evidence w') (lit "e") = Some (registered_evidence sample_sha sample_settings small_plan small_data) /\
    files w' !! target sample_settings small_plan = Some (File small_data) /\
    (forall q, below (root_of sample_settings small_plan) q = true -> files w' !! q = None) /\ locks w' = ∅.
Proof.
  apply (finalize_completes sample_sha one_device (lit "7") sample_uuid lower sample_settings small_plan small_data) with (D := {[0]}).
  - apply small_well_planned.
  - reflexivity.
  - apply small_placed.
  - discriminate.
  - intros i ->%elem_of_singleton. change (total_chunks small_plan) with 1. lia.
  - intros i Hi. change (total_chunks small_plan) with 1 in Hi. assert (i = 0) as -> by lia. by apply elem_of_singleton.
  - apply received_ready.
  - apply received_free.
  - by left.
  - repeat split; vm_compute; discriminate.
  - reflexivity.
  - intros e He. by apply list_elem_of_In in He.
Defined.
End UploadComplete.
