(* ===== verification/MemoryCapacity.v ===== *)
(** [services/memory/upload_capacity.py], the room a memory image needs: what is
    required of each device in each phase of an upload, the decision, and the
    search for the largest upload that fits.

    The disks answer through [_snapshot], an argument: it makes the directory
    and asks for its device and its free bytes. *)
From S2P Require Import Prelude PyBase Decimals PurePaths.
Import Str Decimals.

Module Capacity.
Import PurePaths.

Definition GIB : Z := 1024 * 1024 * 1024.
Definition SAFETY_MARGIN_BYTES : Z := 2 * GIB.
Definition MIN_OUTPUT_ALLOWANCE_BYTES : Z := 256 * 1024 * 1024.
Definition MAX_SELECTED_SIZE_BYTES : Z := 64 * GIB.

(** The exceptions, with their texts. *)
Inductive capacity_exn : Type :=
  | ValueError (message : str)
  | MemoryCapacityError (category message : str)
  | KeyError
  | OSError.

Record FilesystemSnapshot := { device : Z; available_bytes : Z }.

Record CapacityDecision := {
  accepted : bool;
  phase : str;
  selected_size_bytes : Z;
  bytes_already_staged : Z;
  staging_available_bytes : Z;
  final_available_bytes : Z;
  output_available_bytes : Z;
  staging_and_final_same_filesystem : bool;
  finalization_strategy : str;
  required_additional_bytes : Z;
  output_allowance_bytes : Z;
  safety_margin_bytes : Z;
  shortfall_bytes : Z;
  requirements_by_device : gmap str Z }.

(** The settings the module reads. *)
Record CapacitySettings := {
  memory_plugin_output_max_bytes : Z;
  memory_upload_staging_path : pure_path;
  backend_data_dir : pure_path;
  memory_output_root : option pure_path }.

Definition _output_allowance (settings : CapacitySettings) : Z :=
  Z.max (memory_plugin_output_max_bytes settings * 5) MIN_OUTPUT_ALLOWANCE_BYTES.

Definition _storage_roots (settings : CapacitySettings) : pure_path * pure_path * pure_path :=
  let final := join (backend_data_dir settings) (Path (lit "evidence")) in
  (memory_upload_staging_path settings, final, default final (memory_output_root settings)).

(** The keys of [snapshots]. *)
Inductive role : Type := staging | final | output.
#[export] Instance role_eq_dec : EqDecision role.
Proof. solve_decision. Defined.
Definition roles : list role := [staging; final; output].

(** [max(values, default=0)] *)
Definition max_or_0 (values : list Z) : Z := match values with [] => 0 | x :: l => fold_left Z.max l x end.

Section evaluate.
Variables (settings : CapacitySettings) (_snapshot : pure_path -> result capacity_exn FilesystemSnapshot).

(** [snapshots], taken in the order of the dict. *)
Definition take_snapshots : result capacity_exn (role -> FilesystemSnapshot) :=
  let '(staging_root, final_root, output_root) := _storage_roots settings in
  let! s := _snapshot staging_root in
  let! f := _snapshot final_root in
  let! o := _snapshot output_root in
  Ok (fun r => match r with staging => s | final => f | output => o end).

Section snapshots.
Variable snapshots : role -> FilesystemSnapshot.

Definition same_filesystem : bool := device (snapshots staging) =? device (snapshots final).
Definition strategy : str := if same_filesystem then lit "atomic_rename" else lit "staged_copy".

(** [available[d] = min(available.get(d, free), free)] for each snapshot. *)
Definition available : gmap Z Z :=
  fold_left (fun m r => let s := snapshots r in
    <[device s := Z.min (default (available_bytes s) (m !! device s)) (available_bytes s)]> m) roles ∅.

(** [require(role, amount)] *)
Definition require (requirements : gmap Z Z) (r : role) (amount : Z) : gmap Z Z :=
  let d := device (snapshots r) in
  <[d := default 0 (requirements !! d) + Z.max 0 amount]> requirements.

Definition margins : gmap Z Z :=
  fold_left (fun m r => <[device (snapshots r) := SAFETY_MARGIN_BYTES]> m) roles ∅.

Definition requirements (size : Z) (ph : str) (staged : Z) : result capacity_exn (gmap Z Z) :=
  let req := margins in
  let! req :=
    if bool_decide (ph = lit "pre_upload") then
      let req := require req staging size in
      Ok (if negb same_filesystem then require req final size else req)
    else if bool_decide (ph = lit "streaming") then
      let req := require req staging (size - staged) in
      Ok (if negb same_filesystem then require req final size else req)
    else if bool_decide (ph = lit "finalization") then
      Ok (if negb same_filesystem then require req final size else req)
    else Raise (ValueError (lit "Unsupported memory capacity phase: " ++ ph)) in
  Ok (require req output (_output_allowance settings)).

(** [requirements[d] - available[d]] for each device. *)
Definition gaps (req : gmap Z Z) : result capacity_exn (list Z) :=
  mapM_py (fun '(d, need) => let! room := of_option KeyError (available !! d) in Ok (need - room)) (map_to_list req).
End snapshots.

Definition evaluate_memory_upload_capacity (size : Z) (ph : str) (staged : Z) : result capacity_exn CapacityDecision :=
  let! _ := raise_if (size <=? 0) (ValueError (lit "selected_size_bytes must be greater than zero")) in
  let! _ := raise_if (MAX_SELECTED_SIZE_BYTES <? size) (ValueError (lit "selected_size_bytes is too large")) in
  let! _ := raise_if ((staged <? 0) || (size <? staged))
              (ValueError (lit "bytes_already_staged is outside the selected file size")) in
  let! snapshots := take_snapshots in
  let! req := requirements snapshots size ph staged in
  let! gap := gaps snapshots req in
  let shortfall := max_or_0 gap in
  Ok {| accepted := shortfall <=? 0;
        phase := ph;
        selected_size_bytes := size;
        bytes_already_staged := staged;
        staging_available_bytes := available_bytes (snapshots staging);
        final_available_bytes := available_bytes (snapshots final);
        output_available_bytes := available_bytes (snapshots output);
        staging_and_final_same_filesystem := same_filesystem snapshots;
        finalization_strategy := strategy snapshots;
        required_additional_bytes := max_or_0 (map snd (map_to_list req));
        output_allowance_bytes := _output_allowance settings;
        safety_margin_bytes := SAFETY_MARGIN_BYTES;
        shortfall_bytes := Z.max 0 shortfall;
        requirements_by_device := kmap str_of_Z req |}.

Definition assert_memory_upload_capacity (size : Z) (ph : str) (staged : Z) : result capacity_exn CapacityDecision :=
  let! decision := evaluate_memory_upload_capacity size ph staged in
  let! _ := raise_if (negb (accepted decision))
              (MemoryCapacityError (lit "insufficient_storage") (lit "Insufficient storage capacity for memory image upload.")) in
  Ok decision.

(** The body of the search loop. *)
Definition search_step (bounds : Z * Z) : result capacity_exn ((Z * Z) + Z) :=
  let '(low, high) := bounds in
  if low <? high then
    let candidate := (low + high + 1) / 2 in
    let! decision := evaluate_memory_upload_capacity candidate (lit "pre_upload") 0 in
    Ok (inl (if accepted decision then (candidate, high) else (low, candidate - 1)))
  else Ok (inr low).
(** The interval is halved in every round, which bounds their number. *)
Definition rounds (length : Z) : nat := Z.to_nat (Z.log2 (2 * length + 1)).
Definition recommended_memory_upload_bytes (max_upload_bytes : Z) : result capacity_exn Z :=
  let high := Z.max 0 max_upload_bytes in
  while (S (rounds high)) search_step (0, high).
End evaluate.

(** * The decision

    What a role needs of its device, by phase: the bytes still to be staged,
    the copy when the evidence lies on another file system than the staging
    area, and the output of the analysis. *)
Definition phases : list str := [lit "pre_upload"; lit "streaming"; lit "finalization"].
Definition need (settings : CapacitySettings) (same : bool) (size : Z) (ph : str) (staged : Z) (r : role) : Z :=
  match r with
  | staging => if bool_decide (ph = lit "pre_upload") then size
               else if bool_decide (ph = lit "streaming") then size - staged else 0
  | final => if same then 0 else size
  | output => _output_allowance settings
  end.
(** The load of the device of a role. *)
Definition load (settings : CapacitySettings) (snapshots : role -> FilesystemSnapshot) (size : Z) (ph : str) (staged : Z) (r : role) : Z :=
  let same_device r' := device (snapshots r') =? device (snapshots r) in
  let needs r' := if same_device r' then need settings (same_filesystem snapshots) size ph staged r' else 0 in
  SAFETY_MARGIN_BYTES + needs staging + needs final + needs output.

Lemma max_or_0_le values n : values <> [] -> max_or_0 values <= n <-> Forall (fun x => x <= n) values.
Proof.
  destruct values as [|x l]; [done|]. intros _. cbn [max_or_0]. revert x.
  induction l as [|y l IH]; intros x; cbn [fold_left].
  - by rewrite Forall_singleton.
  - rewrite IH, !Forall_cons. split; [intros [? ?]|intros (? & ? & ?)]; repeat split; try done; lia.
Qed.

Section decision.
Context (settings : CapacitySettings).
Variable snap : role -> FilesystemSnapshot.

(** What is free on a device is the least of what its roles saw. *)
Definition at_most (n : Z) (o : option Z) : Prop := forall a, o = Some a -> n <= a.
Lemma available_fold rs (m : gmap Z Z) d :
  let m' := fold_left (fun m r => let s := snap r in
    <[device s := Z.min (default (available_bytes s) (m !! device s)) (available_bytes s)]> m) rs m in
  (forall n, at_most n (m' !! d) <-> at_most n (m !! d) /\ forall r, r ∈ rs -> device (snap r) = d -> n <= available_bytes (snap r)) /\
  (is_Some (m !! d) \/ (exists r, r ∈ rs /\ device (snap r) = d) -> is_Some (m' !! d)).
Proof using.
  revert m. induction rs as [|r rs IH]; intros m; cbn [fold_left].
  - split; [intros n; split; [intros ?; split; [done|by intros ? ?%elem_of_nil]|by intros [? _]]|].
    by intros [?|(r & ?%elem_of_nil & _)].
  - destruct (IH (<[device (snap r) := Z.min (default (available_bytes (snap r)) (m !! device (snap r))) (available_bytes (snap r))]> m)) as [IHn IHd].
    split.
    + intros n. rewrite IHn, lookup_insert. unfold at_most. split.
      * intros [Hm Hrs]. case_decide as Hd; subst.
        -- specialize (Hm _ eq_refl). split; [intros a Ha; rewrite Ha in Hm; cbn in Hm; lia|].
           intros r' [->|Hin]%elem_of_cons ?; [|by apply Hrs]. destruct (m !! _); cbn in Hm; lia.
        -- split; [done|]. intros r' [->|Hin]%elem_of_cons ?; [done|by apply Hrs].
      * intros [Hm Hrs]. split; [|intros r' Hr'; apply Hrs; by right].
        case_decide as Hd; [|done]. intros a [= <-]. subst.
        specialize (Hrs r ltac:(by left) eq_refl). destruct (m !! _) as [x|]; cbn; [specialize (Hm x eq_refl)|]; lia.
    + intros Hsome. apply IHd. rewrite lookup_insert. case_decide; [by left; eauto|].
      destruct Hsome as [?|(r' & [->|Hin]%elem_of_cons & Hd)]; [by left|done|right; eauto].
Qed.
Lemma role_in r : r ∈ roles.
Proof using. destruct r; unfold roles; set_solver. Qed.
Lemma available_spec r : exists a, available snap !! device (snap r) = Some a /\
  forall n, n <= a <-> forall r', device (snap r') = device (snap r) -> n <= available_bytes (snap r').
Proof using.
  destruct (available_fold roles ∅ (device (snap r))) as [Hn Hd]. cbv zeta in Hn, Hd.
  change (fold_left _ roles ∅) with (available snap) in Hn, Hd. destruct Hd as [a Ha]; [right; exists r; split; [apply role_in|done]|].
  exists a. split; [done|]. intros n. specialize (Hn n). rewrite Ha, lookup_empty in Hn. split.
  - intros Hle r' Hr'. assert (Hsome : at_most n (Some a)) by (by intros ? [= <-]).
    apply Hn in Hsome as [_ Hrs]. apply Hrs; [apply role_in|done].
  - intros Hall. assert (Hsome : at_most n (Some a)); [|by apply Hsome].
    apply Hn. split; [done|]. intros r' _ Hr'. by apply Hall.
Qed.

(** The devices of the requirements are those of the roles, each with its load. *)
Definition role_devices (req : gmap Z Z) (f : role -> Z) : Prop :=
  (forall r, req !! device (snap r) = Some (f r)) /\ (forall d, is_Some (req !! d) -> exists r, d = device (snap r)).
Lemma margins_devices : role_devices (margins snap) (fun _ => SAFETY_MARGIN_BYTES).
Proof using.
  unfold margins, roles. cbn [fold_left]. split.
  - intros r. rewrite !lookup_insert. repeat case_decide; try done. by destruct r.
  - intros d. rewrite !lookup_insert, lookup_empty. repeat case_decide; subst; eauto. by intros [? ?].
Qed.
Lemma require_devices req f r amount : role_devices req f -> 0 <= amount ->
  role_devices (require snap req r amount) (fun r' => f r' + if device (snap r) =? device (snap r') then amount else 0).
Proof using.
  intros [Hf Hd] Hamount. unfold require. split.
  - intros r'. rewrite lookup_insert, (Hf r). case_decide as He.
    + rewrite He, Z.eqb_refl. pose proof (Hf r') as H1. rewrite <-He, (Hf r) in H1. injection H1 as ->. cbn. do 2 f_equal. lia.
    + rewrite Hf. destruct (Z.eqb_spec (device (snap r)) (device (snap r'))); [done|]. f_equal. lia.
  - intros d. rewrite lookup_insert. case_decide as He; [by eauto|apply Hd].
Qed.

Lemma requirements_spec size ph staged : ph ∈ phases -> 0 <= staged <= size ->
  exists req, requirements settings snap size ph staged = Ok req /\ role_devices req (load settings snap size ph staged).
Proof using.
  intros Hph Hst. unfold requirements.
  assert (0 <= _output_allowance settings) as Hout by (unfold _output_allowance, MIN_OUTPUT_ALLOWANCE_BYTES; lia).
  assert (Hgo : forall req f, role_devices req f ->
    (forall r, f r = SAFETY_MARGIN_BYTES
      + (if device (snap staging) =? device (snap r) then need settings (same_filesystem snap) size ph staged staging else 0)
      + (if device (snap final) =? device (snap r) then need settings (same_filesystem snap) size ph staged final else 0)) ->
    exists req', Ok (require snap req output (_output_allowance settings)) = (Ok req' : result capacity_exn _) /\ role_devices req' (load settings snap size ph staged)).
  { intros req f Hreq Hf. eexists. split; [done|].
    apply (require_devices _ _ output (_output_allowance settings)) in Hreq as [H1 H2]; [|done].
    split; [|done]. intros r. rewrite H1, Hf. done. }
  unfold phases in Hph. rewrite !elem_of_cons, elem_of_nil in Hph.
  destruct (same_filesystem snap) eqn:Hsame, Hph as [->|[->|[->|[]]]];
    repeat match goal with |- context [bool_decide ?P] => let b := eval vm_compute in (bool_decide P) in change (bool_decide P) with b end;
    cbn [mbind result_bind negb].
  all: eapply Hgo; [repeat (apply require_devices; [|lia]); apply margins_devices|].
  all: intros r; cbn [need]; 
    repeat match goal with |- context [bool_decide ?P] => let b := eval vm_compute in (bool_decide P) in change (bool_decide P) with b end;
    cbv beta iota; repeat case_match; lia.
Qed.

Lemma gaps_spec size ph staged req : role_devices req (load settings snap size ph staged) ->
  exists gap, gaps snap req = Ok gap /\ forall n, max_or_0 gap <= n <->
    forall r, load settings snap size ph staged r <= available_bytes (snap r) + n.
Proof using.
  intros [Hreq Hd].
  assert (exists gap, gaps snap req = Ok gap) as [gap Hgap].
  { unfold gaps. assert (Forall (fun dn => is_Some (available snap !! fst dn)) (map_to_list req)) as Hall.
    { apply Forall_forall. intros [d x] Hin%elem_of_map_to_list. destruct (Hd d) as [r ->]; [by eauto|].
      destruct (available_spec r) as (a & Ha & _). cbn [fst]. rewrite Ha. by eauto. }
    induction Hall as [|[d x] l [a Ha] _ [gap IH]]; cbn [mapM_py]; [by eexists|]. cbn [fst] in Ha. rewrite Ha.
    cbn [of_option mbind result_bind]. rewrite IH. by eexists. }
  exists gap. split; [done|]. intros n. unfold gaps in Hgap. apply mapM_py_Ok in Hgap.
  rewrite max_or_0_le.
  - rewrite Forall_forall. split.
    + intros Hall r. destruct (available_spec r) as (a & Ha & Hmin).
      assert (Hin : (device (snap r), load settings snap size ph staged r) ∈ map_to_list req) by (by apply elem_of_map_to_list).
      apply list_elem_of_lookup in Hin as [i Hi]. destruct (Forall2_lookup_l _ _ _ _ _ Hgap Hi) as (g & Hg & Hval).
      rewrite Ha in Hval. cbn in Hval. injection Hval as Hval. apply list_elem_of_lookup_2 in Hg. specialize (Hall g Hg).
      assert (a <= available_bytes (snap r)) by (apply Hmin; [lia|done]). lia.
    + intros Hall g [i Hg]%list_elem_of_lookup. destruct (Forall2_lookup_r _ _ _ _ _ Hgap Hg) as ([d x] & Hin & Hval).
      apply list_elem_of_lookup_2, elem_of_map_to_list in Hin. destruct (Hd d) as [r ->]; [by eauto|].
      destruct (available_spec r) as (a & Ha & Hmin). rewrite Ha in Hval. cbn in Hval. injection Hval as <-.
      rewrite Hreq in Hin. injection Hin as <-. enough (load settings snap size ph staged r - n <= a) by lia.
      apply Hmin. intros r' Hr'. specialize (Hall r'). unfold load in *. rewrite Hr' in Hall. lia.
  - intros ->. apply Forall2_length in Hgap. cbn in Hgap. destruct (map_to_list req) as [|] eqn:Hl; [|done].
    apply map_to_list_empty_iff in Hl. subst. specialize (Hreq staging). by rewrite lookup_empty in Hreq.
Qed.
End decision.

(** What an evaluation returns when its arguments are in range. *)
Definition fits (settings : CapacitySettings) (snap : role -> FilesystemSnapshot) (size : Z) (ph : str) (staged : Z) : Prop :=
  forall r, load settings snap size ph staged r <= available_bytes (snap r).

Section evaluated.
Context (settings : CapacitySettings) (_snapshot : pure_path -> result capacity_exn FilesystemSnapshot).
Variable snap : role -> FilesystemSnapshot.
Hypothesis Hsn : take_snapshots settings _snapshot = Ok snap.

Lemma capacity_spec size ph staged : ph ∈ phases -> 0 < size <= MAX_SELECTED_SIZE_BYTES -> 0 <= staged <= size ->
  exists d, evaluate_memory_upload_capacity settings _snapshot size ph staged = Ok d /\
    (forall r, requirements_by_device d !! str_of_Z (device (snap r)) = Some (load settings snap size ph staged r)) /\
    finalization_strategy d = strategy snap /\
    (accepted d = true <-> fits settings snap size ph staged) /\
    0 <= shortfall_bytes d /\
    (forall n, 0 <= n -> shortfall_bytes d <= n <-> forall r, load settings snap size ph staged r <= available_bytes (snap r) + n).
Proof using Hsn.
  intros Hph Hsize Hst. unfold evaluate_memory_upload_capacity.
  destruct (Z.leb_spec size 0); [lia|]. destruct (Z.ltb_spec MAX_SELECTED_SIZE_BYTES size); [lia|].
  destruct (Z.ltb_spec staged 0); [lia|]. destruct (Z.ltb_spec size staged); [lia|].
  cbn [raise_if orb mbind result_bind]. rewrite Hsn. cbn [mbind result_bind].
  destruct (requirements_spec settings snap size ph staged Hph Hst) as (req & -> & Hreq). cbn [mbind result_bind].
  destruct (gaps_spec settings snap size ph staged req Hreq) as (gap & -> & Hgap). cbn [mbind result_bind].
  eexists. split; [reflexivity|]. cbn [requirements_by_device finalization_strategy accepted shortfall_bytes].
  split_and!.
  - intros r. rewrite (lookup_kmap str_of_Z). apply Hreq.
  - done.
  - rewrite Z.leb_le, Hgap. unfold fits. setoid_rewrite Z.add_0_r. done.
  - lia.
  - intros n Hn. rewrite <-Hgap. lia.
Qed.

Lemma evaluate_Ok size ph staged d : evaluate_memory_upload_capacity settings _snapshot size ph staged = Ok d ->
  0 < size <= MAX_SELECTED_SIZE_BYTES /\ 0 <= staged <= size.
Proof using.
  unfold evaluate_memory_upload_capacity.
  intros ([] & H1%raise_if_Ok & ([] & H2%raise_if_Ok & ([] & H3%raise_if_Ok & _)%bind_Ok)%bind_Ok)%bind_Ok. lia.
Qed.

Lemma assert_spec size ph staged : ph ∈ phases -> 0 < size <= MAX_SELECTED_SIZE_BYTES -> 0 <= staged <= size ->
  fits settings snap size ph staged <->
  exists d, assert_memory_upload_capacity settings _snapshot size ph staged = Ok d /\ finalization_strategy d = strategy snap.
Proof using Hsn.
  intros Hph Hsize Hst. destruct (capacity_spec size ph staged Hph Hsize Hst) as (d & Hd & _ & Hstr & Hacc & _).
  unfold assert_memory_upload_capacity. rewrite Hd. cbn [mbind result_bind]. rewrite <-Hacc. split.
  - intros ->. cbn. eauto.
  - intros (d' & Hd' & _). by destruct (accepted d).
Qed.

(** A smaller upload that fits where a larger one does. *)
Lemma fits_smaller size size' : size' <= size -> fits settings snap size (lit "pre_upload") 0 -> fits settings snap size' (lit "pre_upload") 0.
Proof using.
  intros Hle Hfits r. specialize (Hfits r). unfold load, need in *.
  change (bool_decide (lit "pre_upload" = lit "pre_upload")) with true in *. cbn beta iota in *.
  repeat case_match; lia.
Qed.
End evaluated.

(** Whatever the disks answer, the evaluation ends. *)
Lemma assert_total settings _snapshot size ph staged : (forall p, _snapshot p <> OutOfFuel) ->
  assert_memory_upload_capacity settings _snapshot size ph staged <> OutOfFuel.
Proof.
  intros Hs. unfold assert_memory_upload_capacity, evaluate_memory_upload_capacity, take_snapshots, requirements, gaps.
  destruct (size <=? 0); [done|]. destruct (MAX_SELECTED_SIZE_BYTES <? size); [done|]. destruct (_ || _); [done|]. cbn [raise_if mbind result_bind].
  destruct (_storage_roots settings) as [[a b] c]. pose proof (Hs a). pose proof (Hs b). pose proof (Hs c).
  destruct (_snapshot a) as [sa| |]; [|done..]. cbn [mbind result_bind]. destruct (_snapshot b) as [sb| |]; [|done..]. cbn [mbind result_bind].
  destruct (_snapshot c) as [sc| |]; [|done..]. cbn [mbind result_bind].
  destruct (if bool_decide (ph = lit "pre_upload") then _ else _) as [req| |] eqn:Hreq; cbn [mbind result_bind]; [|done|by repeat case_match].
  match goal with |- context [mapM_py ?f ?l] => destruct (mapM_py f l) as [gap| |] eqn:Hg end; cbn [mbind result_bind]; [|done|].
  - by destruct (accepted _).
  - exfalso. revert Hg. match goal with |- mapM_py ?f ?l = _ -> _ => generalize l end. intros l.
    induction l as [|[d x] l IH]; cbn [mapM_py]; [done|]. destruct (available _ !! d); [|done]. cbn [of_option mbind result_bind].
    by destruct (mapM_py _ l).
Qed.

(** C34. The decision is exact, in every phase: the upload is accepted just when the
    device of each role has free at least its margin and what all the roles on
    it still need, the shortfall is the least number of bytes that, freed on
    every device, would make it accepted, and the requirements reported are
    these loads. *)
Theorem upload_capacity_exact settings _snapshot snap size ph staged :
  take_snapshots settings _snapshot = Ok snap -> ph ∈ phases -> 0 < size <= MAX_SELECTED_SIZE_BYTES -> 0 <= staged <= size ->
  exists d, evaluate_memory_upload_capacity settings _snapshot size ph staged = Ok d /\
    (accepted d = true <-> forall r, load settings snap size ph staged r <= available_bytes (snap r)) /\
    (forall n, 0 <= n -> shortfall_bytes d <= n <-> forall r, load settings snap size ph staged r <= available_bytes (snap r) + n) /\
    (forall r, requirements_by_device d !! str_of_Z (device (snap r)) = Some (load settings snap size ph staged r)) /\
    assert_memory_upload_capacity settings _snapshot size ph staged =
      if accepted d then Ok d
      else Raise (MemoryCapacityError (lit "insufficient_storage") (lit "Insufficient storage capacity for memory image upload.")).
Proof.
  intros Hsn Hph Hsize Hst. destruct (capacity_spec settings _snapshot snap Hsn size ph staged Hph Hsize Hst) as (d & Hd & Hreq & _ & Hacc & _ & Hshort).
  exists d. split_and!; try done. unfold assert_memory_upload_capacity. rewrite Hd. cbn [mbind result_bind]. by destruct (accepted d).
Qed.

(** C33. An upload that was accepted before its first byte is accepted in every later
    check, while it streams and when it is finalized with the bytes that came,
    as long as nothing but its own staged bytes was taken from the disks. *)
Theorem upload_fits_throughout settings before now_ snap snap' size received :
  take_snapshots settings before = Ok snap -> take_snapshots settings now_ = Ok snap' ->
  is_ok (assert_memory_upload_capacity settings before size (lit "pre_upload") 0) = true ->
  0 <= received <= size ->
  (forall r, device (snap' r) = device (snap r)) ->
  (forall r, available_bytes (snap r) - (if device (snap r) =? device (snap staging) then received else 0) <= available_bytes (snap' r)) ->
  is_ok (assert_memory_upload_capacity settings now_ size (lit "streaming") received) = true /\
  (0 < received -> is_ok (assert_memory_upload_capacity settings now_ received (lit "finalization") received) = true).
Proof.
  intros Hsn Hsn' Hd Hrec Hdev Hroom.
  assert (Hsize : 0 < size <= MAX_SELECTED_SIZE_BYTES).
  { destruct (assert_memory_upload_capacity _ _ _ _ _) as [d| |] eqn:Ha; try done.
    unfold assert_memory_upload_capacity in Ha. apply bind_Ok in Ha as (d' & Hd' & _). by apply evaluate_Ok in Hd' as [? _]. }
  assert (Hphase : forall ph, ph ∈ phases <-> ph = lit "pre_upload" \/ ph = lit "streaming" \/ ph = lit "finalization").
  { intros ph. unfold phases. rewrite !elem_of_cons, elem_of_nil. naive_solver. }
  assert (Hfits : fits settings snap size (lit "pre_upload") 0).
  { destruct (capacity_spec settings before snap Hsn size (lit "pre_upload") 0) as (d' & Hd' & _ & _ & Hacc & _); [apply Hphase; auto|lia|lia|].
    apply Hacc. unfold assert_memory_upload_capacity in Hd. rewrite Hd' in Hd. cbn [mbind result_bind] in Hd. by destruct (accepted d'). }
  assert (Hsame : same_filesystem snap' = same_filesystem snap) by (unfold same_filesystem; by rewrite !Hdev).
  assert (0 <= _output_allowance settings) by (unfold _output_allowance, MIN_OUTPUT_ALLOWANCE_BYTES; lia).
  assert (Hgo : forall size' ph, ph ∈ phases -> 0 < size' <= size -> received <= size' ->
    (forall r, need settings (same_filesystem snap) size' ph received r + (match r with staging => received | _ => 0 end) <= need settings (same_filesystem snap) size (lit "pre_upload") 0 r) ->
    is_ok (assert_memory_upload_capacity settings now_ size' ph received) = true).
  { intros size' ph Hph Hs Hr Hneed.
    destruct (proj1 (assert_spec settings now_ snap' Hsn' size' ph received Hph ltac:(lia) ltac:(lia))) as (d' & -> & _); [|done].
    intros r. specialize (Hfits r). specialize (Hroom r). unfold load in *. rewrite Hsame, !Hdev.
    pose proof (Hneed staging) as H1. pose proof (Hneed final) as H2. pose proof (Hneed output) as H3. cbn beta iota in *.
    rewrite (Z.eqb_sym (device (snap r))) in Hroom. repeat case_match; lia. }
  split; [|intros Hpos]; apply Hgo; try (apply Hphase; auto); try lia.
  all: intros r; unfold need; change (bool_decide (lit "pre_upload" = lit "pre_upload")) with true;
    change (bool_decide (lit "streaming" = lit "pre_upload")) with false; change (bool_decide (lit "streaming" = lit "streaming")) with true;
    change (bool_decide (lit "finalization" = lit "pre_upload")) with false; change (bool_decide (lit "finalization" = lit "streaming")) with false;
    destruct r, (same_filesystem snap); lia.
Qed.

Lemma midpoint low up : low < up ->
  low < (low + up + 1) / 2 <= up /\ up - (low + up + 1) / 2 <= (up - low) / 2 /\ (low + up + 1) / 2 - 1 - low <= (up - low) / 2.
Proof.
  intros Hlt. pose proof (Z.div_mod (low + up + 1) 2 ltac:(lia)). pose proof (Z.mod_pos_bound (low + up + 1) 2 ltac:(lia)).
  pose proof (Z.div_mod (up - low) 2 ltac:(lia)). pose proof (Z.mod_pos_bound (up - low) 2 ltac:(lia)). lia.
Qed.
Lemma rounds_halved n m : 0 < m -> 0 <= n <= m / 2 -> (rounds n < rounds m)%nat.
Proof.
  intros Hm Hn. unfold rounds. pose proof (Z.div_mod m 2 ltac:(lia)). pose proof (Z.mod_pos_bound m 2 ltac:(lia)).
  rewrite (Z.log2_succ_double m) by lia. assert (0 <= Z.log2 m) by apply Z.log2_nonneg.
  destruct (decide (n = 0)) as [->|]; [change (Z.log2 (2 * 0 + 1)) with 0; lia|]. rewrite Z.log2_succ_double by lia.
  assert (Z.succ (Z.log2 n) <= Z.log2 m) by (rewrite <-Z.log2_double by lia; apply Z.log2_le_mono; lia).
  assert (0 <= Z.log2 n) by apply Z.log2_nonneg. lia.
Qed.

(** The search finds the largest upload that fits: it ends, raises nothing, and
    of the sizes up to the limit those accepted are the ones up to its result. *)
Lemma recommended_largest settings _snapshot snap max_upload_bytes :
  take_snapshots settings _snapshot = Ok snap -> max_upload_bytes <= MAX_SELECTED_SIZE_BYTES ->
  exists n, recommended_memory_upload_bytes settings _snapshot max_upload_bytes = Ok n /\ 0 <= n <= Z.max 0 max_upload_bytes /\
    forall size, 0 < size <= max_upload_bytes ->
      is_ok (assert_memory_upload_capacity settings _snapshot size (lit "pre_upload") 0) = true <-> size <= n.
Proof.
  intros Hsn Hmax. set (high := Z.max 0 max_upload_bytes).
  assert (Hpre : lit "pre_upload" ∈ phases) by (by left).
  assert (Hok : forall size, 0 < size <= high ->
    is_ok (assert_memory_upload_capacity settings _snapshot size (lit "pre_upload") 0) = true <-> fits settings snap size (lit "pre_upload") 0).
  { intros size Hs. rewrite (assert_spec settings _snapshot snap Hsn size (lit "pre_upload") 0 Hpre ltac:(lia) ltac:(lia)). split.
    - destruct (capacity_spec settings _snapshot snap Hsn size (lit "pre_upload") 0 Hpre ltac:(lia) ltac:(lia)) as (d & Hd & _ & Hstr & _).
      unfold assert_memory_upload_capacity. rewrite Hd. cbn [mbind result_bind]. destruct (accepted d); cbn; [eauto|done].
    - by intros (d & -> & _). }
  pose proof (while_total
    (fun b : Z * Z => 0 <= fst b <= snd b /\ snd b <= high /\ (0 < fst b -> fits settings snap (fst b) (lit "pre_upload") 0) /\
       forall size, snd b < size <= high -> ~ fits settings snap size (lit "pre_upload") 0)
    (fun b => rounds (snd b - fst b))
    (fun n => 0 <= n <= high /\ (0 < n -> fits settings snap n (lit "pre_upload") 0) /\ forall size, n < size <= high -> ~ fits settings snap size (lit "pre_upload") 0)
    (fun _ => False) (search_step settings _snapshot)) as Hloop.
  assert (Hrun : outcome (fun n => 0 <= n <= high /\ (0 < n -> fits settings snap n (lit "pre_upload") 0) /\
      forall size, n < size <= high -> ~ fits settings snap size (lit "pre_upload") 0) (fun _ => False)
    (recommended_memory_upload_bytes settings _snapshot max_upload_bytes)).
  { apply Hloop; cbn [fst snd]; [|split_and!; try done; try lia; intros; lia|rewrite Z.sub_0_r; lia]. intros [low up] (Hb & Hup & Hlow & Hout). cbn [fst snd] in *. unfold search_step.
    destruct (Z.ltb_spec low up); [|cbn [outcome]; split; [lia|]; split; [done|]; intros size Hs; apply Hout; lia].
    assert (Hc : low < (low + up + 1) / 2 <= up /\ up - (low + up + 1) / 2 <= (up - low) / 2 /\ (low + up + 1) / 2 - 1 - low <= (up - low) / 2) by (by apply midpoint). set (candidate := (low + up + 1) / 2) in *.
    destruct (capacity_spec settings _snapshot snap Hsn candidate (lit "pre_upload") 0 Hpre ltac:(lia) ltac:(lia)) as (d & -> & _ & _ & Hacc & _).
    cbn [mbind result_bind outcome]. destruct (accepted d); cbn [fst snd].
    - split; [split_and!; try lia; [by intros _; apply Hacc|done]|apply rounds_halved; lia].
    - split; [split_and!; try lia; [done|]|apply rounds_halved; lia]. intros size Hs Hfits. assert (fits settings snap candidate (lit "pre_upload") 0) as Hf%Hacc; [|done].
      eapply fits_smaller; [|exact Hfits]. lia. }
  clear Hloop. destruct (recommended_memory_upload_bytes settings _snapshot max_upload_bytes) as [n| |]; [|done..].
  destruct Hrun as (Hn & Hfits & Hout). exists n. split_and!; try done; try lia. intros size Hs. rewrite Hok by lia. split.
  - intros Hf. destruct (Z.leb_spec size n); [done|]. destruct (Hout size); [lia|done].
  - intros Hle. eapply fits_smaller; [exact Hle|]. apply Hfits. lia.
Qed.

(** Above twice the largest size the first candidate is refused as too large, and
    the search raises instead of answering. *)
Lemma recommended_too_large settings _snapshot max_upload_bytes : 2 * MAX_SELECTED_SIZE_BYTES < max_upload_bytes ->
  recommended_memory_upload_bytes settings _snapshot max_upload_bytes = Raise (ValueError (lit "selected_size_bytes is too large")).
Proof.
  intros Hmax. assert (0 < MAX_SELECTED_SIZE_BYTES) by done. unfold recommended_memory_upload_bytes. rewrite while_unfold. cbn [search_step].
  destruct (Z.ltb_spec 0 (Z.max 0 max_upload_bytes)); [|lia]. unfold evaluate_memory_upload_capacity.
  assert (MAX_SELECTED_SIZE_BYTES < (0 + Z.max 0 max_upload_bytes + 1) / 2) by (enough (MAX_SELECTED_SIZE_BYTES + 1 <= (0 + Z.max 0 max_upload_bytes + 1) / 2) by lia; apply Z.div_le_lower_bound; lia).
  destruct (Z.leb_spec ((0 + Z.max 0 max_upload_bytes + 1) / 2) 0); [lia|].
  by destruct (Z.ltb_spec MAX_SELECTED_SIZE_BYTES ((0 + Z.max 0 max_upload_bytes + 1) / 2)); [|lia].
Qed.

(** * A server with the evidence on a second disk *)
Definition sample_settings : CapacitySettings :=
  {| memory_plugin_output_max_bytes := 10485760;
     memory_upload_staging_path := Path (lit "/staging");
     backend_data_dir := Path (lit "/data");
     memory_output_root := None |}.
Definition sample_disks (staging_room data_room : Z) (p : pure_path) : result capacity_exn FilesystemSnapshot :=
  Ok (if bool_decide (names p = [lit "staging"]) then {| device := 1; available_bytes := staging_room |}
      else {| device := 2; available_bytes := data_room |}).
Definition sample_snapshots (staging_room data_room : Z) (r : role) : FilesystemSnapshot :=
  match r with staging => {| device := 1; available_bytes := staging_room |} | _ => {| device := 2; available_bytes := data_room |} end.

(** Four gigabytes with eight and five free: the copy does not fit. *)
Lemma upload_capacity_exact_witness : exists d,
  evaluate_memory_upload_capacity sample_settings (sample_disks (8 * GIB) (5 * GIB)) (4 * GIB) (lit "finalization") (4 * GIB) = Ok d /\
    (accepted d = true <-> forall r, load sample_settings (sample_snapshots (8 * GIB) (5 * GIB)) (4 * GIB) (lit "finalization") (4 * GIB) r <=
      available_bytes (sample_snapshots (8 * GIB) (5 * GIB) r)) /\
    shortfall_bytes d = GIB + MIN_OUTPUT_ALLOWANCE_BYTES.
Proof.
  destruct (upload_capacity_exact sample_settings (sample_disks (8 * GIB) (5 * GIB)) (sample_snapshots (8 * GIB) (5 * GIB)) (4 * GIB) (lit "finalization") (4 * GIB)) as (d & Hd & Hacc & _).
  - vm_compute. reflexivity.
  - do 2 right. by left.
  - by vm_compute.
  - by vm_compute.
  - exists d. split_and!; [exact Hd|exact Hacc|]. vm_compute in Hd. injection Hd as <-. reflexivity.
Defined.

Lemma upload_fits_throughout_witness :
  is_ok (assert_memory_upload_capacity sample_settings (sample_disks (5 * GIB) (7 * GIB)) (4 * GIB) (lit "streaming") (3 * GIB)) = true /\
  is_ok (assert_memory_upload_capacity sample_settings (sample_disks (5 * GIB) (7 * GIB)) (3 * GIB) (lit "finalization") (3 * GIB)) = true.
Proof.
  destruct (upload_fits_throughout sample_settings (sample_disks (8 * GIB) (7 * GIB)) (sample_disks (5 * GIB) (7 * GIB))
    (sample_snapshots (8 * GIB) (7 * GIB)) (sample_snapshots (5 * GIB) (7 * GIB)) (4 * GIB) (3 * GIB)) as [Hs Hf].
  - vm_compute. reflexivity.
  - vm_compute. reflexivity.
  - vm_compute. reflexivity.
  - by vm_compute.
  - by intros [].
  - by intros []; vm_compute.
  - split; [exact Hs|]. apply Hf. by vm_compute.
Defined.

Lemma recommended_largest_witness : exists n,
  recommended_memory_upload_bytes sample_settings (sample_disks (8 * GIB) (5 * GIB)) (32 * GIB) = Ok n /\
  n = 3 * GIB - MIN_OUTPUT_ALLOWANCE_BYTES /\
  (is_ok (assert_memory_upload_capacity sample_settings (sample_disks (8 * GIB) (5 * GIB)) (2 * GIB) (lit "pre_upload") 0) = true <-> 2 * GIB <= n).
Proof.
  destruct (recommended_largest sample_settings (sample_disks (8 * GIB) (5 * GIB)) (sample_snapshots (8 * GIB) (5 * GIB)) (32 * GIB)) as (n & Hn & _ & Hbest).
  - vm_compute. reflexivity.
  - by vm_compute.
  - assert (Hsize : 0 < 2 * GIB <= 32 * GIB) by (unfold GIB; lia).
    exists n. split; [exact Hn|]. specialize (Hbest _ Hsize). split; [|exact Hbest]. clear Hbest.
    vm_compute in Hn. injection Hn as <-. reflexivity.
Defined.
End Capacity.
