(* ===== verification/MemorySlot.v ===== *)
(** [MemoryUploadSlot] of [services/memory/upload_capacity.py]: one memory upload
    at a time, by a key of Redis that expires.  The key is shared by every
    process of the server; a call and its answer are two steps, between which
    anybody else may act, and either may be lost. *)
From S2P Require Import Prelude PyBase Decimals PurePaths MemoryCapacity.
Import Str.

Module Slot.
Import Capacity.

Definition UPLOAD_SLOT_KEY : str := lit "kairon:memory-upload:active".
(** Times are in microseconds. *)
Definition second : Z := 1000000.

(** * What the code takes from Redis

    [entry] is what a key holds and until when; the commands are given the time
    at which they are executed. *)
Class KeyStore (S : Type) := {
  set_nx_ex : str -> str -> Z -> Z -> S -> S * bool;   (** SET key value NX EX seconds *)
  get_key : str -> Z -> S -> option str;
  expire : str -> Z -> Z -> S -> S * Z;                (** EXPIRE key seconds *)
  del : str -> Z -> S -> S * Z;
  entry : str -> S -> option (str * Z) }.
Definition live {S} `{KeyStore S} (key : str) (now : Z) (s : S) : option str :=
  match entry key s with Some (v, until) => if now <? until then Some v else None | None => None end.
Class KeyStoreLaws (S : Type) `{KeyStore S} := {
  get_live : forall key now (s : S), get_key key now s = live key now s;
  set_taken : forall key value ttl now (s : S), live key now s <> None ->
    snd (set_nx_ex key value ttl now s) = false /\ entry key (fst (set_nx_ex key value ttl now s)) = entry key s;
  set_free : forall key value ttl now (s : S), live key now s = None ->
    snd (set_nx_ex key value ttl now s) = true /\
    entry key (fst (set_nx_ex key value ttl now s)) = Some (value, now + ttl * second);
  expire_live : forall key v ttl now (s : S), live key now s = Some v ->
    snd (expire key ttl now s) = 1 /\ entry key (fst (expire key ttl now s)) = Some (v, now + ttl * second);
  del_live : forall key v now (s : S), live key now s = Some v ->
    snd (del key now s) = 1 /\ entry key (fst (del key now s)) = None }.

(** * The slot *)
Record MemoryUploadSlot := { _token : str; _ttl_seconds : Z; _held : bool; _last_refresh : Z }.
#[export] Instance slot_rebuild : Rebuild MemoryUploadSlot := fun s =>
  Build_MemoryUploadSlot (_token s) (_ttl_seconds s) (_held s) (_last_refresh s).

(** [__init__]; [stale_timeout] is a setting that may be missing, and zero counts as missing. *)
Definition new_slot (memory_upload_request_timeout_seconds : Z) (memory_upload_stale_timeout_seconds : option Z)
    (request_id : option str) (uuid4 : str) : MemoryUploadSlot :=
  let or_default := fun n => if n =? 0 then 900 else n in
  let stale_timeout := or_default (default 900 memory_upload_stale_timeout_seconds) in
  {| _token := match request_id with Some ((_ :: _) as r) => r | _ => uuid4 end;
     _ttl_seconds := Z.max (Z.max 300 memory_upload_request_timeout_seconds) stale_timeout;
     _held := false; _last_refresh := 0 |}.

Definition guard_unavailable (text : string) : capacity_exn := MemoryCapacityError (lit "concurrency_guard_unavailable") (lit text).
Definition in_progress : capacity_exn :=
  MemoryCapacityError (lit "upload_in_progress") (lit "Another memory image upload is currently in progress.").
Definition reservation_lost : capacity_exn :=
  MemoryCapacityError (lit "upload_reservation_lost") (lit "Memory upload capacity reservation expired.").

Section commands.
Context {S : Type} `{KeyStore S}.
(** What each method sends. *)
Definition acquire_command (slot : MemoryUploadSlot) (now : Z) (s : S) : S * bool :=
  set_nx_ex UPLOAD_SLOT_KEY (_token slot) (_ttl_seconds slot) now s.
Definition refresh_script (token : str) (ttl now : Z) (s : S) : S * Z :=
  if bool_decide (get_key UPLOAD_SLOT_KEY now s = Some token) then expire UPLOAD_SLOT_KEY ttl now s else (s, 0).
Definition release_script (token : str) (now : Z) (s : S) : S * Z :=
  if bool_decide (get_key UPLOAD_SLOT_KEY now s = Some token) then del UPLOAD_SLOT_KEY now s else (s, 0).
End commands.

(** What each method does with the answer; [None] is an exception of the call. *)
Definition acquire_reply (reply : option bool) (now : Z) (slot : MemoryUploadSlot) : MemoryUploadSlot * result capacity_exn unit :=
  match reply with
  | None => (slot, Raise (guard_unavailable "Memory upload concurrency guard is unavailable."))
  | Some held =>
      let slot := slot <| _held := held |> in
      if negb held then (slot, Raise in_progress) else (slot <| _last_refresh := now |>, Ok tt)
  end.
Definition refresh_due (force : bool) (now : Z) (slot : MemoryUploadSlot) : bool :=
  negb (negb (_held slot) || (negb force && (now - _last_refresh slot <? 30 * second))).
Definition refresh_reply (reply : option Z) (now : Z) (slot : MemoryUploadSlot) : MemoryUploadSlot * result capacity_exn unit :=
  match reply with
  | None => (slot, Raise (guard_unavailable "Memory upload concurrency guard could not be renewed."))
  | Some refreshed => if negb (refreshed =? 1) then (slot, Raise reservation_lost) else (slot <| _last_refresh := now |>, Ok tt)
  end.
Definition release_reply (slot : MemoryUploadSlot) : MemoryUploadSlot * result capacity_exn unit := (slot <| _held := false |>, Ok tt).

(** [release_memory_upload_slot_if_owner] *)
Definition release_memory_upload_slot_if_owner (reply : option Z) : bool :=
  match reply with Some n => n =? 1 | None => false end.

(** * Many processes *)
Inductive command : Type := acquire | refresh (force : bool) | release.
(** A call reaches Redis or not, and its answer the caller. *)
Inductive delivery : Type := delivered | not_delivered | answer_lost.
Definition deliver {S A} (dl : delivery) (f : S -> S * A) (s : S) : S * option A :=
  match dl with
  | delivered => let '(s', a) := f s in (s', Some a)
  | not_delivered => (s, None)
  | answer_lost => (fst (f s), None)
  end.

Inductive waiting : Type :=
  | idle
  | acquiring (reply : option bool)
  | refreshing (reply : option Z)
  | releasing.

(** A request with its slot.  Three fields only record what happened: when the
    pending call was sent, until when Redis last granted the key to the
    request, and whether the key was given back since. *)
Record client := {
  slot : MemoryUploadSlot;
  state : waiting;
  raised : list capacity_exn;
  sent : Z;
  granted_until : Z;
  given_back : bool }.
#[export] Instance client_rebuild : Rebuild client := fun c =>
  Build_client (slot c) (state c) (raised c) (sent c) (granted_until c) (given_back c).

Inductive event : Type :=
  | Tick (d : Z)
  | Send (i : nat) (c : command) (dl : delivery)
  | Receive (i : nat)
  | Disown (upload_id : str) (dl : delivery).

Section system.
Context {S : Type} `{KeyStore S}.
Record system := { store : S; now : Z; clients : gmap nat client }.
#[global] Instance system_rebuild : Rebuild system := fun s => Build_system (store s) (now s) (clients s).

(** A call waits at most [patience] for its answer. *)
Variable patience : Z.
Definition patient (d : Z) (s : system) : bool :=
  forallb (fun ic => match state (snd ic) with idle => true | _ => now s + d <=? sent (snd ic) + patience end) (map_to_list (clients s)).

(** The key of a token is gone: who held it under that token has given it back. *)
Definition give_back (token : str) (c : client) : client :=
  if bool_decide (_token (slot c) = token) then c <| given_back := true |> else c.
Definition reached (dl : delivery) : bool := match dl with not_delivered => false | _ => true end.

Definition send (i : nat) (c : client) (cmd : command) (dl : delivery) (s : system) : system :=
  let sl := slot c in
  let grant := fun ok (c : client) => if (ok : bool) then c <| granted_until := now s + _ttl_seconds sl * second |> <| given_back := false |> else c in
  match cmd with
  | acquire =>
      let '(store', reply) := deliver dl (acquire_command sl (now s)) (store s) in
      let c := grant (reached dl && snd (acquire_command sl (now s) (store s))) c in
      s <| store := store' |> <| clients := <[i := c <| state := acquiring reply |> <| sent := now s |>]> (clients s) |>
  | refresh force =>
      if refresh_due force (now s) sl then
        let '(store', reply) := deliver dl (refresh_script (_token sl) (_ttl_seconds sl) (now s)) (store s) in
        let c := grant (reached dl && (snd (refresh_script (_token sl) (_ttl_seconds sl) (now s) (store s)) =? 1)) c in
        s <| store := store' |> <| clients := <[i := c <| state := refreshing reply |> <| sent := now s |>]> (clients s) |>
      else s
  | release =>
      if _held sl then
        let '(store', _) := deliver dl (release_script (_token sl) (now s)) (store s) in
        let cs := <[i := c <| state := releasing |> <| sent := now s |>]> (clients s) in
        s <| store := store' |> <| clients := if reached dl then give_back (_token sl) <$> cs else cs |>
      else s
  end.

Definition receive (i : nat) (c : client) (s : system) : system :=
  let '(sl, r) := match state c with
                  | idle => (slot c, Ok tt)
                  | acquiring reply => acquire_reply reply (now s) (slot c)
                  | refreshing reply => refresh_reply reply (now s) (slot c)
                  | releasing => release_reply (slot c)
                  end in
  s <| clients := <[i := c <| slot := sl |> <| state := idle |>
                          <| raised := match r with Raise e => raised c ++ [e] | _ => raised c end |>]> (clients s) |>.

(** [None]: the event cannot happen here. *)
Definition act (e : event) (s : system) : option system :=
  match e with
  | Tick d => if (0 <=? d) && patient d s then Some (s <| now := now s + d |>) else None
  | Send i cmd dl => c ← clients s !! i; match state c with idle => Some (send i c cmd dl s) | _ => None end
  | Receive i => c ← clients s !! i; Some (receive i c s)
  | Disown upload_id dl =>
      let '(store', _) := deliver dl (release_script upload_id (now s)) (store s) in
      Some (s <| store := store' |> <| clients := if reached dl then give_back upload_id <$> clients s else clients s |>)
  end.
Fixpoint run (es : list event) (s : system) : option system :=
  match es with [] => Some s | e :: es => s' ← act e s; run es s' end.
End system.
Arguments system S : clear implicits.

(** * The commands, by what the key holds *)
Section laws.
Context {S : Type} `{HS : KeyStore S} `{!KeyStoreLaws S}.
Implicit Types st : S.

Lemma live_entry st key now t until : entry key st = Some (t, until) -> now < until -> live key now st = Some t.
Proof using. intros He Hlt. unfold live. rewrite He. by destruct (Z.ltb_spec now until); [|lia]. Qed.
Lemma live_Some st key now t : live key now st = Some t -> exists until, entry key st = Some (t, until) /\ now < until.
Proof using. unfold live. destruct (entry key st) as [[v e]|]; [|done]. destruct (Z.ltb_spec now e); [|done]. intros [= ->]. eauto. Qed.

Lemma deliver_store {A} dl (f : S -> S * A) st : fst (deliver dl f st) = if reached dl then fst (f st) else st.
Proof using. destruct dl; cbn; [by destruct (f st)|done..]. Qed.
Lemma deliver_reply {A} dl (f : S -> S * A) st : snd (deliver dl f st) = match dl with delivered => Some (snd (f st)) | _ => None end.
Proof using. destruct dl; cbn; [by destruct (f st)|done..]. Qed.

Definition deadline_ok (ttl now : Z) st : Prop := forall t until, entry UPLOAD_SLOT_KEY st = Some (t, until) -> until <= now + ttl * second.
(** The grants that are running are running afterwards, save those of a token given back. *)
Definition kept (gone : option str) (now : Z) (st st' : S) : Prop :=
  forall t until, entry UPLOAD_SLOT_KEY st = Some (t, until) -> now < until -> gone <> Some t ->
    exists until', entry UPLOAD_SLOT_KEY st' = Some (t, until') /\ until <= until'.
Lemma kept_refl gone now st : kept gone now st st.
Proof using. intros t e He _ _. eauto with lia. Qed.

Lemma acquire_store sl now st : deadline_ok (_ttl_seconds sl) now st -> 0 <= _ttl_seconds sl ->
  let '(st', granted) := acquire_command sl now st in
  kept None now st st' /\ deadline_ok (_ttl_seconds sl) now st' /\
  granted = bool_decide (live UPLOAD_SLOT_KEY now st = None) /\
  (granted = true -> entry UPLOAD_SLOT_KEY st' = Some (_token sl, now + _ttl_seconds sl * second)).
Proof using All.
  intros Hd Httl. unfold acquire_command. destruct (set_nx_ex _ _ _ _ st) as [st' granted] eqn:Hset.
  case_bool_decide as Hlive.
  - destruct (set_free UPLOAD_SLOT_KEY (_token sl) (_ttl_seconds sl) now st Hlive) as [Hg He]. rewrite Hset in Hg, He. cbn in Hg, He. subst granted.
    split_and!; [|intros t e; rewrite He; intros [= <- <-]; lia|done|done].
    intros t e Hte Hlt _. by rewrite (live_entry _ _ _ _ _ Hte Hlt) in Hlive.
  - destruct (set_taken UPLOAD_SLOT_KEY (_token sl) (_ttl_seconds sl) now st Hlive) as [Hg He]. rewrite Hset in Hg, He. cbn in Hg, He. subst granted.
    split_and!; [|by intros t e; rewrite He; apply Hd|done|done]. intros t e Hte _ _. rewrite He. eauto with lia.
Qed.
Lemma refresh_store token ttl now st : deadline_ok ttl now st ->
  let '(st', n) := refresh_script token ttl now st in
  kept None now st st' /\ deadline_ok ttl now st' /\
  (live UPLOAD_SLOT_KEY now st = Some token -> n = 1) /\
  (n = 1 -> entry UPLOAD_SLOT_KEY st' = Some (token, now + ttl * second)).
Proof using All.
  intros Hd. unfold refresh_script. rewrite get_live. case_bool_decide as Hlive.
  - destruct (expire_live UPLOAD_SLOT_KEY token ttl now st Hlive) as [Hn He]. destruct (expire _ _ _ st) as [st' n]. cbn in Hn, He. subst n.
    split_and!; [|intros t e; rewrite He; intros [= <- <-]; lia|done|done].
    intros t e Hte Hlt _. rewrite (live_entry _ _ _ _ _ Hte Hlt) in Hlive. injection Hlive as ->. exists (now + ttl * second).
    split; [done|by eapply Hd].
  - split_and!; [apply kept_refl|done|done|done].
Qed.
Lemma release_store token now st ttl : deadline_ok ttl now st ->
  let '(st', _) := release_script token now st in
  kept (Some token) now st st' /\ deadline_ok ttl now st' /\ (live UPLOAD_SLOT_KEY now st <> Some token -> st' = st).
Proof using All.
  intros Hd. unfold release_script. rewrite get_live. case_bool_decide as Hlive.
  - destruct (del_live UPLOAD_SLOT_KEY token now st Hlive) as [_ He]. destruct (del _ _ st) as [st' n]. cbn in He.
    split_and!; [|intros t e; by rewrite He|done].
    intros t e Hte Hlt Hne. rewrite (live_entry _ _ _ _ _ Hte Hlt) in Hlive. by injection Hlive as ->.
  - split_and!; [apply kept_refl|done|done].
Qed.

(** * What holds in every reachable state *)
Section reachable.
Context (ttl patience : Z) (Httl : 0 <= ttl) (Hpatience : 0 <= patience).
Local Set Default Proof Using "All".

Record client_ok (st : S) (now : Z) (c : client) : Prop := {
  ok_ttl : _ttl_seconds (slot c) = ttl;
  (** A grant that runs and was not given back is what the key holds. *)
  ok_key : now < granted_until c -> given_back c = false ->
    exists until, entry UPLOAD_SLOT_KEY st = Some (_token (slot c), until) /\ granted_until c <= until;
  ok_sent : state c <> idle -> sent c <= now <= sent c + patience;
  ok_reply : state c = acquiring (Some true) \/ state c = refreshing (Some 1) -> given_back c = false ->
    sent c + ttl * second <= granted_until c;
  ok_held : _held (slot c) = true -> given_back c = false -> _last_refresh (slot c) + ttl * second <= granted_until c + patience;
  ok_granted : granted_until c <= now + ttl * second;
  ok_last : _held (slot c) = true -> _last_refresh (slot c) <= now }.
Definition system_ok (s : system S) : Prop :=
  deadline_ok ttl (now s) (store s) /\ forall i c, clients s !! i = Some c -> client_ok (store s) (now s) c.

Lemma client_store gone st st' now c : kept gone now st st' -> (gone = Some (_token (slot c)) -> given_back c = true) ->
  client_ok st now c -> client_ok st' now c.
Proof.
  intros Hkept Hgone []. split; try done. intros Hlt Hback.
  destruct ok_key0 as (e & He & Hle); [done..|].
  destruct (Hkept _ _ He ltac:(lia)) as (e' & He' & Hle'); [intros [= ->]; rewrite Hgone in Hback; done|]. eauto with lia.
Qed.
Lemma client_later st now d c : 0 <= d -> (state c <> idle -> now + d <= sent c + patience) -> client_ok st now c -> client_ok st (now + d) c.
Proof.
  intros Hd Hp []. split; try done; try lia.
  - intros Hlt. apply ok_key0. lia.
  - intros Hs. specialize (ok_sent0 Hs). specialize (Hp Hs). lia.
  - intros Hh. specialize (ok_last0 Hh). lia.
Qed.
Lemma client_back st now token c : client_ok st now c -> client_ok st now (give_back token c).
Proof. intros []. unfold give_back. case_bool_decide; by split. Qed.
(** The pending call, granted or not. *)
Lemma client_sends st now c r : client_ok st now c -> state c = idle ->
  (r = releasing \/ (exists b, r = acquiring b /\ b <> Some true) \/ exists n, r = refreshing n /\ n <> Some 1) ->
  client_ok st now (c <| state := r |> <| sent := now |>).
Proof.
  intros [] Hidle Hr. split; try done; cbn; try lia.
  intros Hs. exfalso. destruct Hr as [->|[(b & -> & ?)|(n & -> & ?)]], Hs as [[=]|[=]]; by subst.
Qed.
Lemma client_granted st st' now c r : client_ok st now c -> entry UPLOAD_SLOT_KEY st' = Some (_token (slot c), now + ttl * second) ->
  client_ok st' now (c <| granted_until := now + ttl * second |> <| given_back := false |> <| state := r |> <| sent := now |>).
Proof.
  intros [] He. split; cbn; rewrite ?ok_ttl0; try done; try lia.
  - eauto with lia.
  - intros Hh. specialize (ok_last0 Hh). lia.
Qed.

Lemma clients_kept gone s st' i c' : system_ok s -> kept gone (now s) (store s) st' -> deadline_ok ttl (now s) st' ->
  (forall j c, gone = Some (_token (slot c)) -> clients s !! j = Some c -> given_back c = true) ->
  client_ok st' (now s) c' -> system_ok (s <| store := st' |> <| clients := <[i := c']> (clients s) |>).
Proof.
  intros [_ Hc] Hkept Hd Hgone Hc'. split; [done|]. cbn. intros j c. rewrite lookup_insert. case_decide as Hij; [by intros [= <-]|].
  intros Hj. eapply client_store; [exact Hkept|intros Hg; by eapply Hgone|by eapply Hc].
Qed.

Lemma system_send i c cmd dl s : system_ok s -> clients s !! i = Some c -> state c = idle -> system_ok (send i c cmd dl s).
Proof.
  intros Hs Hi Hidle. pose proof Hs as [Hd Hc]. pose proof (Hc i c Hi) as Hok. pose proof (ok_ttl _ _ _ Hok) as Hcttl.
  assert (Hquiet : forall st', kept None (now s) (store s) st' -> client_ok st' (now s) c) by (intros st' Hk; by eapply client_store).
  destruct cmd as [|force|]; cbn [send].
  - pose proof (acquire_store (slot c) (now s) (store s)) as Hst. rewrite Hcttl in Hst |- *. specialize (Hst Hd Httl).
    rewrite (surjective_pairing (deliver _ _ _)), deliver_store, deliver_reply.
    destruct (acquire_command (slot c) (now s) (store s)) as [st' granted] eqn:Hcmd. destruct Hst as (Hkept & Hd' & _ & He). cbn [fst snd].
    destruct dl; cbn [reached andb].
    1,3: apply (clients_kept None); try done; destruct granted; [by apply (client_granted (store s)); [|apply He]|apply client_sends; eauto 10].
    apply (clients_kept None); try done; [apply kept_refl|]. apply client_sends; eauto 10.
  - destruct (refresh_due force (now s) (slot c)); [|done]. rewrite Hcttl.
    pose proof (refresh_store (_token (slot c)) ttl (now s) (store s) Hd) as Hst.
    rewrite (surjective_pairing (deliver _ _ _)), deliver_store, deliver_reply.
    destruct (refresh_script _ _ _ _) as [st' n] eqn:Hcmd. destruct Hst as (Hkept & Hd' & _ & He). cbn [fst snd].
    destruct dl; cbn [reached andb].
    1,3: apply (clients_kept None); try done; destruct (Z.eqb_spec n 1) as [->|Hne];
      [by apply (client_granted (store s)); [|apply He]|apply client_sends; [by apply Hquiet|done|right; right; eexists; split; [done|congruence]]].
    apply (clients_kept None); try done; [apply kept_refl|]. apply client_sends; eauto 10.
  - destruct (_held (slot c)); [|done].
    pose proof (release_store (_token (slot c)) (now s) (store s) ttl Hd) as Hst.
    rewrite (surjective_pairing (deliver _ _ _)), deliver_store.
    destruct (release_script _ _ _) as [st' n] eqn:Hcmd. destruct Hst as (Hkept & Hd' & _). cbn [fst snd].
    assert (Hsends : client_ok (store s) (now s) (c <| state := releasing |> <| sent := now s |>)) by (apply client_sends; auto).
    destruct dl; cbn [reached].
    2: { apply (clients_kept None); try done; apply kept_refl. }
    1,2: split; [done|]; cbn; intros j cj; rewrite lookup_fmap, lookup_insert; case_decide; cbn;
      [intros [= <-]; eapply client_store; [exact Hkept|intros [= Ht]; unfold give_back; by rewrite bool_decide_true|by apply client_back]|].
    all: destruct (clients s !! j) as [c0|] eqn:Hj; [|done]; intros [= <-]; eapply client_store;
      [exact Hkept| |apply client_back; by eapply Hc].
    all: unfold give_back; case_bool_decide as Ht; [done|]; cbn; intros [= Ht']; by rewrite Ht' in Ht.
Qed.

Lemma system_receive i c s : system_ok s -> clients s !! i = Some c -> system_ok (receive i c s).
Proof.
  intros Hs Hi. pose proof Hs as [Hd Hc]. destruct (Hc i c Hi) as []. unfold receive.
  destruct (match state c with idle => _ | acquiring reply => _ | refreshing reply => _ | releasing => _ end) as [sl r] eqn:Hm.
  assert (Hnew : client_ok (store s) (now s) (c <| slot := sl |> <| state := idle |>
      <| raised := match r with Raise e => raised c ++ [e] | _ => raised c end |>)).
  { destruct (state c) as [|[[]|]|[n|]|] eqn:Hst; cbn in Hm; try (injection Hm as <- <-; split; cbn; try done; try lia; by intros [?|?]).
    - injection Hm as <- <-. split; cbn; try done; try lia; [by intros [?|?]|]. intros _ Hb. specialize (ok_reply0 (or_introl eq_refl) Hb). specialize (ok_sent0 ltac:(done)). lia.
    - destruct (Z.eqb_spec n 1) as [->|]; injection Hm as <- <-; split; cbn; try done; try lia; try (by intros [?|?]).
      intros _ Hb. specialize (ok_reply0 (or_intror eq_refl) Hb). specialize (ok_sent0 ltac:(done)). lia. }
  destruct s as [st t cs]. by apply (clients_kept None (Build_system st t cs) st); [|apply kept_refl| | |].
Qed.

Lemma system_act e s s' : system_ok s -> act patience e s = Some s' -> system_ok s'.
Proof.
  intros Hs Hact. pose proof Hs as [Hd Hc]. destruct e as [d|i cmd dl|i|t dl]; cbn [act] in Hact.
  - destruct (0 <=? d) eqn:Hd0, (patient patience d s) eqn:Hp; try done. injection Hact as <-. apply Z.leb_le in Hd0. split; cbn.
    + intros t e He. specialize (Hd t e He). lia.
    + intros i c Hi. apply client_later; [done| |by eapply Hc]. intros Hidle. unfold patient in Hp. rewrite forallb_forall in Hp.
      specialize (Hp (i, c) ltac:(by apply list_elem_of_In, elem_of_map_to_list)). cbn in Hp. destruct (state c); [done|lia..].
  - apply bind_Some in Hact as (c & Hi & Hact). destruct (state c) eqn:Hidle; try done. injection Hact as <-. by eapply system_send.
  - apply bind_Some in Hact as (c & Hi & [= <-]). by apply system_receive.
  - pose proof (release_store t (now s) (store s) ttl Hd) as Hst.
    rewrite (surjective_pairing (deliver _ _ _)), deliver_store in Hact. destruct (release_script _ _ _) as [st' n]. destruct Hst as (Hkept & Hd' & _).
    injection Hact as <-. cbn [fst]. destruct (reached dl); [|by destruct s]. split; [done|]. cbn. intros j cj. rewrite lookup_fmap.
    destruct (clients s !! j) as [c0|] eqn:Hj; [|done]. intros [= <-]. eapply client_store; [exact Hkept| |apply client_back; by eapply Hc].
    unfold give_back. case_bool_decide as Ht; [done|]. cbn. intros [= Ht']. by rewrite Ht' in Ht.
Qed.
Lemma system_run es s s' : system_ok s -> run patience es s = Some s' -> system_ok s'.
Proof.
  revert s. induction es as [|e es IH]; intros s Hs; cbn [run]; [by intros [= <-]|].
  intros (s1 & H1 & H2)%bind_Some. eapply IH; [by eapply system_act|done].
Qed.

(** Nothing was sent yet, and no key outlives its time. *)
Definition fresh (s : system S) : Prop :=
  deadline_ok ttl (now s) (store s) /\ forall i c, clients s !! i = Some c ->
    _ttl_seconds (slot c) = ttl /\ _held (slot c) = false /\ state c = idle /\ raised c = [] /\ granted_until c <= now s.
Lemma fresh_ok s : fresh s -> system_ok s.
Proof.
  intros [Hd Hc]. split; [done|]. intros i c (H1 & H2 & H3 & H4 & H5)%Hc.
  split; try done; try congruence; try (unfold second; lia). intros Hr. exfalso. rewrite H3 in Hr. by destruct Hr.
Qed.

(** * What a request's own state depends on *)
(** Somebody else, with the id of the upload, has its key deleted: a cancellation,
    or a forced reconciliation. *)
Definition disowns (token : str) (e : event) : bool := match e with Disown t dl => bool_decide (t = token) && reached dl | _ => false end.
Definition by_others (i : nat) (e : event) : Prop := match e with Send j _ _ | Receive j => j <> i | _ => True end.
Definition foreign (i : nat) (token : str) (e : event) : Prop := by_others i e /\ disowns token e = false.
Definition alone (i : nat) (token : str) (s : system S) : Prop := forall j c, clients s !! j = Some c -> j <> i -> _token (slot c) <> token.

Lemma give_back_token t c : _token (slot (give_back t c)) = _token (slot c).
Proof. unfold give_back. by case_bool_decide. Qed.
Lemma give_back_other t c : _token (slot c) <> t -> give_back t c = c.
Proof. intros. unfold give_back. by rewrite bool_decide_false. Qed.
Lemma send_clients i c cmd dl s : clients s !! i = Some c ->
  (exists c', _token (slot c') = _token (slot c) /\ clients (send i c cmd dl s) = <[i := c']> (clients s)) \/
  (exists c', _token (slot c') = _token (slot c) /\ clients (send i c cmd dl s) = give_back (_token (slot c)) <$> <[i := c']> (clients s)).
Proof.
  intros Hi. assert (Hsame : clients s = <[i := c]> (clients s)) by (by rewrite insert_id).
  destruct cmd as [|force|]; cbn [send].
  - left. rewrite (surjective_pairing (deliver _ _ _)). cbn. eexists. split; [|done]. by destruct (reached dl && _).
  - left. destruct (refresh_due _ _ _); [|by exists c]. rewrite (surjective_pairing (deliver _ _ _)). cbn. eexists. split; [|done]. by destruct (reached dl && _).
  - destruct (_held (slot c)); [|left; by exists c]. rewrite (surjective_pairing (deliver _ _ _)). cbn.
    destruct (reached dl); [right|left]; by eexists; split; [|done].
Qed.
Lemma act_tokens e s s' : act patience e s = Some s' ->
  forall j, (fun c => _token (slot c)) <$> clients s' !! j = (fun c => _token (slot c)) <$> clients s !! j.
Proof.
  intros Hact j. destruct e as [d|k cmd dl|k|t dl]; cbn [act] in Hact.
  - destruct (_ && _); by simplify_eq.
  - apply bind_Some in Hact as (c & Hk & Hact). destruct (state c); try done. injection Hact as <-.
    destruct (send_clients k c cmd dl s Hk) as [(c' & Hc' & ->)|(c' & Hc' & ->)].
    + rewrite lookup_insert. case_decide; [|done]. subst. rewrite Hk. cbn. by rewrite Hc'.
    + rewrite lookup_fmap, lookup_insert. case_decide; [subst; rewrite Hk|destruct (clients s !! j)]; cbn; by rewrite ?give_back_token, ?Hc'.
  - apply bind_Some in Hact as (c & Hk & [= <-]). unfold receive.
    destruct (match state c with idle => _ | acquiring reply => _ | refreshing reply => _ | releasing => _ end) as [sl r] eqn:Hm. cbn.
    rewrite lookup_insert. case_decide; [|done]. subst. rewrite Hk. cbn. f_equal.
    destruct (state c) as [|[[]|]|[n|]|]; cbn in Hm; try (by injection Hm as <- <-). destruct (n =? 1); by injection Hm as <- <-.
  - rewrite (surjective_pairing (deliver _ _ _)) in Hact. injection Hact as <-. cbn. destruct (reached dl); [|done].
    rewrite lookup_fmap. destruct (clients s !! j); cbn; by rewrite ?give_back_token.
Qed.
Lemma run_tokens es s s' : run patience es s = Some s' ->
  forall j, (fun c => _token (slot c)) <$> clients s' !! j = (fun c => _token (slot c)) <$> clients s !! j.
Proof.
  intros Hrun j. revert s Hrun. induction es as [|e es IH]; intros s; cbn [run]; [by intros [= ->]|].
  intros (s1 & H1 & H2)%bind_Some. by rewrite (IH s1 H2), (act_tokens e s s1 H1).
Qed.
Lemma alone_act i token e s s' : alone i token s -> act patience e s = Some s' -> alone i token s'.
Proof.
  intros Ha Hact j c Hj Hne. pose proof (act_tokens e s s' Hact j) as Ht. rewrite Hj in Ht. cbn in Ht.
  destruct (clients s !! j) as [c0|] eqn:Hc0; [|done]. injection Ht as ->. by eapply Ha.
Qed.
Lemma alone_run i token es s s' : alone i token s -> run patience es s = Some s' -> alone i token s'.
Proof.
  revert s. induction es as [|e es IH]; intros s Ha; cbn [run]; [by intros [= <-]|].
  intros (s1 & H1 & H2)%bind_Some. eapply IH; [by eapply alone_act|done].
Qed.
Lemma act_foreign i c e s s' : clients s !! i = Some c -> alone i (_token (slot c)) s -> foreign i (_token (slot c)) e ->
  act patience e s = Some s' -> clients s' !! i = Some c.
Proof.
  intros Hi Ha [Hf Hd] Hact. destruct e as [d|k cmd dl|k|t dl]; cbn [act by_others disowns] in Hact, Hf, Hd.
  - destruct (_ && _); by simplify_eq.
  - apply bind_Some in Hact as (ck & Hk & Hact). destruct (state ck); try done. injection Hact as <-. pose proof (Ha k ck Hk Hf) as Hne.
    destruct (send_clients k ck cmd dl s Hk) as [(c' & Hc' & ->)|(c' & Hc' & ->)].
    + by rewrite lookup_insert_ne.
    + rewrite lookup_fmap, lookup_insert_ne, Hi by done. cbn. by rewrite give_back_other.
  - apply bind_Some in Hact as (ck & Hk & [= <-]). unfold receive. destruct (match state ck with idle => _ | acquiring reply => _ | refreshing reply => _ | releasing => _ end) as [sl r]. cbn. by rewrite lookup_insert_ne.
  - rewrite (surjective_pairing (deliver _ _ _)) in Hact. injection Hact as <-. cbn. destruct (reached dl); [|done].
    rewrite andb_true_r in Hd. apply bool_decide_eq_false in Hd. rewrite lookup_fmap, Hi. cbn. by rewrite give_back_other.
Qed.
Lemma run_foreign i c es s s' : clients s !! i = Some c -> alone i (_token (slot c)) s -> Forall (foreign i (_token (slot c))) es ->
  run patience es s = Some s' -> clients s' !! i = Some c.
Proof.
  intros Hi Ha Hes. revert s Hi Ha. induction Hes as [|e es He _ IH]; intros s Hi Ha; cbn [run]; [by intros [= <-]|].
  intros (s1 & H1 & H2)%bind_Some. apply (IH s1); [by eapply act_foreign|by eapply alone_act|done].
Qed.

Fixpoint elapsed (es : list event) : Z := match es with [] => 0 | Tick d :: es => d + elapsed es | _ :: es => elapsed es end.
Lemma send_now i c cmd dl s : now (send i c cmd dl s) = now s.
Proof.
  destruct cmd as [|force|]; cbn [send]; [|destruct (refresh_due _ _ _); [|done]|destruct (_held (slot c)); [|done]];
    by rewrite (surjective_pairing (deliver _ _ _)).
Qed.
Lemma run_now es s s' : run patience es s = Some s' -> now s' = now s + elapsed es.
Proof.
  revert s. induction es as [|e es IH]; intros s; cbn [run]; [intros [= <-]; cbn; lia|].
  intros (s1 & H1 & ->%IH)%bind_Some. destruct e as [d|k cmd dl|k|t dl]; cbn [act elapsed] in *.
  - destruct (_ && _); simplify_eq. cbn. lia.
  - apply bind_Some in H1 as (c & _ & H1). destruct (state c); try done. injection H1 as <-. by rewrite send_now.
  - apply bind_Some in H1 as (c & _ & [= <-]). unfold receive. by destruct (match state c with idle => _ | acquiring reply => _ | refreshing reply => _ | releasing => _ end).
  - rewrite (surjective_pairing (deliver _ _ _)) in H1. by injection H1 as <-.
Qed.

Lemma run_foreign_now i c es s s' : clients s !! i = Some c -> alone i (_token (slot c)) s -> Forall (foreign i (_token (slot c))) es ->
  system_ok s -> run patience es s = Some s' ->
  clients s' !! i = Some c /\ alone i (_token (slot c)) s' /\ system_ok s' /\ now s' = now s + elapsed es.
Proof.
  intros Hi Ha Hes Hs Hrun. split_and!; [by eapply run_foreign|by eapply alone_run|by eapply system_run|by eapply run_now].
Qed.

Lemma run_known es s s' k c : run patience es s = Some s' -> clients s' !! k = Some c -> exists c0, clients s !! k = Some c0.
Proof.
  intros Hrun Hk. revert s Hrun. induction es as [|e es IH]; intros s; cbn [run]; [intros [= ->]; eauto|].
  intros (s1 & H1 & [c1 Hc1]%IH)%bind_Some. pose proof (act_tokens e s s1 H1 k) as Ht. rewrite Hc1 in Ht.
  destruct (clients s !! k) as [c0|]; [eauto|done].
Qed.

(** * One holder at a time *)
Definition tidy (c : client) : Prop :=
  given_back c = true -> (_held (slot c) = true -> state c = releasing) /\ state c <> acquiring (Some true).
Lemma act_tidy i c e s s' : clients s !! i = Some c -> alone i (_token (slot c)) s -> disowns (_token (slot c)) e = false ->
  act patience e s = Some s' -> tidy c -> exists c', clients s' !! i = Some c' /\ _token (slot c') = _token (slot c) /\ tidy c'.
Proof.
  intros Hi Ha He Hact Hc.
  assert (foreign i (_token (slot c)) e -> exists c', clients s' !! i = Some c' /\ _token (slot c') = _token (slot c) /\ tidy c') as Hforeign.
  { intros Hf. exists c. split; [by eapply act_foreign|done]. }
  destruct e as [d|k cmd dl|k|t dl]; [by apply Hforeign| | |by apply Hforeign].
  - destruct (decide (k = i)) as [->|Hne]; [|by apply Hforeign]. cbn [act] in Hact. rewrite Hi in Hact. cbn [mbind option_bind] in Hact.
    destruct (state c) eqn:Hidle; try done. injection Hact as <-. unfold tidy in Hc. rewrite Hidle in Hc.
    destruct cmd as [|force|]; cbn [send].
    + rewrite (surjective_pairing (deliver _ _ _)), deliver_reply. cbn. rewrite lookup_insert_eq. eexists. split; [done|].
      destruct (acquire_command _ _ _) as [st' []], dl; cbn; (split; [done|]); intros Hb; try done; split; try done;
        intros Hh; by destruct (Hc Hb) as [Hr%(fun f => f Hh) _].
    + destruct (refresh_due _ _ _); [|exists c; split_and!; [done|done|]; unfold tidy; by rewrite Hidle].
      rewrite (surjective_pairing (deliver _ _ _)), deliver_reply. cbn. rewrite lookup_insert_eq. eexists. split; [done|].
      split; [by destruct (reached dl && _)|]. unfold tidy.
      destruct (reached dl && _); cbn; [done|]. intros Hb. split; [|done]. intros Hh. by destruct (Hc Hb) as [Hr%(fun f => f Hh) _].
    + destruct (_held (slot c)) eqn:Hh; [|exists c; split_and!; [done|done|]; unfold tidy; by rewrite Hidle, Hh].
      rewrite (surjective_pairing (deliver _ _ _)). cbn. destruct (reached dl).
      * rewrite lookup_fmap, lookup_insert_eq. cbn. eexists. split; [done|]. rewrite give_back_token. split; [done|].
        unfold tidy, give_back. by case_bool_decide.
      * rewrite lookup_insert_eq. eexists. split; [done|]. by split.
  - destruct (decide (k = i)) as [->|Hne]; [|by apply Hforeign]. cbn [act] in Hact. rewrite Hi in Hact. cbn [mbind option_bind] in Hact.
    injection Hact as <-. unfold receive.
    destruct (match state c with idle => _ | acquiring reply => _ | refreshing reply => _ | releasing => _ end) as [sl r] eqn:Hm. cbn.
    rewrite lookup_insert_eq. eexists. split; [done|]. unfold tidy in *. cbn.
    destruct (state c) as [|[[]|]|[n|]|]; cbn in Hm; [| | | |destruct (n =? 1)| |]; injection Hm as <- <-; cbn; (split; [done|]);
      intros Hb; destruct (Hc Hb) as [Hr Hr']; (split; [|done]); intros Hh; by try specialize (Hr Hh).
Qed.
Lemma run_tidy i c es s s' : clients s !! i = Some c -> alone i (_token (slot c)) s -> Forall (fun e => disowns (_token (slot c)) e = false) es ->
  run patience es s = Some s' -> tidy c ->
  exists c', clients s' !! i = Some c' /\ _token (slot c') = _token (slot c) /\ tidy c'.
Proof.
  intros Hi Ha Hes. revert s c Hi Ha Hes. induction es as [|e es IH]; intros s c Hi Ha Hes; cbn [run]; [intros [= <-]; by exists c|].
  apply Forall_cons in Hes as [He Hes]. intros (s1 & H1 & H2)%bind_Some Hc.
  destruct (act_tidy i c e s s1 Hi Ha He H1 Hc) as (c1 & Hi1 & Ht1 & Hc1). rewrite <-Ht1 in Ha, Hes |- *.
  apply (IH s1); [done|by eapply alone_act|done..].
Qed.

(** The request goes by its slot: it has it, is not giving it back, and its lease,
    counted from the last refresh it knows of, has not run out but for the
    patience of one call. *)
Definition in_lease (now : Z) (c : client) : Prop :=
  _held (slot c) = true /\ state c <> releasing /\ now < _last_refresh (slot c) + ttl * second - patience.

Lemma lease_entry es s s' k c : fresh s -> (forall k c, clients s !! k = Some c -> alone k (_token (slot c)) s) ->
  run patience es s = Some s' -> clients s' !! k = Some c -> in_lease (now s') c -> existsb (disowns (_token (slot c))) es = false ->
  alone k (_token (slot c)) s' /\ exists until, entry UPLOAD_SLOT_KEY (store s') = Some (_token (slot c), until).
Proof.
  intros Hfresh Hdist Hrun Hk (Hh & Hr & Hlt) Hes. pose proof (system_run es s s' (fresh_ok s Hfresh) Hrun) as [_ Hok].
  destruct (run_known _ _ _ _ _ Hrun Hk) as [c0 Hk0]. destruct Hfresh as [_ Hf]. destruct (Hf k c0 Hk0) as (_ & Hh0 & Hs0 & _ & _).
  pose proof (run_tokens es s s' Hrun k) as Ht0. rewrite Hk, Hk0 in Ht0. injection Ht0 as Ht0.
  destruct (run_tidy k c0 es s s' Hk0) as (c' & Hk' & Ht' & Htidy); [by eapply Hdist| |done| |].
  { apply Forall_forall. intros e He. rewrite <-Ht0. destruct (disowns _ e) eqn:Hd; [|done].
    assert (existsb (disowns (_token (slot c))) es = true); [|congruence]. apply existsb_exists. exists e. by rewrite <-list_elem_of_In. }
  { intros _. rewrite Hh0, Hs0. done. }
  assert (c' = c) as -> by congruence. split; [rewrite Ht0; eapply alone_run; [|done]; by eapply Hdist|].
  destruct (given_back c) eqn:Hb; [by destruct Hr; apply (Htidy Hb)|].
  destruct (Hok k c Hk) as []. specialize (ok_held0 Hh Hb). destruct ok_key0 as (until & He & _); [lia|done|eauto].
Qed.

(** C21. One memory upload at a time: when every request has an upload id of its
    own, then however the processes interleave, and whatever calls or answers are
    lost, no two requests are within their leases at once, unless one of the two
    was cancelled or reconciled by force during the execution, which deletes its
    key while it goes on (see [slot_taken_over]). *)
Theorem slot_exclusive es s s' i j ci cj :
  fresh s -> (forall k c, clients s !! k = Some c -> alone k (_token (slot c)) s) ->
  run patience es s = Some s' -> clients s' !! i = Some ci -> clients s' !! j = Some cj ->
  in_lease (now s') ci -> in_lease (now s') cj ->
  i = j \/ existsb (disowns (_token (slot ci))) es = true \/ existsb (disowns (_token (slot cj))) es = true.
Proof.
  intros Hfresh Hdist Hrun Hi Hj Hli Hlj.
  destruct (existsb (disowns (_token (slot ci))) es) eqn:Hdi; [by right; left|].
  destruct (existsb (disowns (_token (slot cj))) es) eqn:Hdj; [by right; right|]. left.
  destruct (lease_entry es s s' i ci Hfresh Hdist Hrun Hi Hli Hdi) as (Ha & e1 & He1).
  destruct (lease_entry es s s' j cj Hfresh Hdist Hrun Hj Hlj Hdj) as (_ & e2 & He2).
  destruct (decide (i = j)) as [|Hne]; [done|]. destruct (Ha j cj Hj ltac:(done)). congruence.
Qed.

(** C38. What a cancellation does to the slot: when a request is within its lease
    and its upload is cancelled, or reconciled by force, the next request that
    asks gets the slot, and both are within their leases. *)
Theorem slot_taken_over es s s' i j ci cj :
  patience < ttl * second -> fresh s -> (forall k c, clients s !! k = Some c -> alone k (_token (slot c)) s) ->
  run patience es s = Some s' -> existsb (disowns (_token (slot ci))) es = false ->
  clients s' !! i = Some ci -> in_lease (now s') ci -> clients s' !! j = Some cj -> state cj = idle -> i <> j ->
  exists s3 ci' cj', run patience [Disown (_token (slot ci)) delivered; Send j acquire delivered; Receive j] s' = Some s3 /\
    clients s3 !! i = Some ci' /\ in_lease (now s3) ci' /\ clients s3 !! j = Some cj' /\ in_lease (now s3) cj'.
Proof.
  intros Hlt Hfresh Hdist Hrun Hes Hi Hli Hj Hidle Hne. pose proof (system_run es s s' (fresh_ok s Hfresh) Hrun) as [Hd Hok].
  destruct (lease_entry es s s' i ci Hfresh Hdist Hrun Hi Hli Hes) as (Ha & until & He).
  assert (Hother : _token (slot cj) <> _token (slot ci)) by (apply (Ha j cj Hj); congruence).
  destruct (Hok j cj Hj) as [Hcttl _ _ _ _ _ _].
  (* the key is gone *)
  cbn [run act]. set (st1 := fst (release_script (_token (slot ci)) (now s') (store s'))).
  assert (Hfree : live UPLOAD_SLOT_KEY (now s') st1 = None).
  { unfold st1, release_script. rewrite get_live. case_bool_decide as Hlive.
    - destruct (del_live UPLOAD_SLOT_KEY _ (now s') (store s') Hlive) as [_ E]. unfold live. by rewrite E.
    - unfold live in *. cbn [fst]. rewrite He in *. by destruct (now s' <? until). }
  rewrite (surjective_pairing (deliver delivered _ (store s'))), (deliver_store delivered). cbn [reached fst snd mbind option_bind]. fold st1.
  set (s1 := s' <| store := st1 |> <| clients := give_back (_token (slot ci)) <$> clients s' |>).
  assert (Hi1 : clients s1 !! i = Some (ci <| given_back := true |>)).
  { unfold s1. cbn. rewrite lookup_fmap, Hi. cbn. unfold give_back. by rewrite bool_decide_true. }
  assert (Hj1 : clients s1 !! j = Some cj) by (unfold s1; cbn; rewrite lookup_fmap, Hj; cbn; by rewrite give_back_other).
  rewrite Hj1. cbn [mbind option_bind]. rewrite Hidle. cbn [send mbind option_bind].
  destruct (set_free UPLOAD_SLOT_KEY (_token (slot cj)) (_ttl_seconds (slot cj)) (now s') st1 Hfree) as [Hg _].
  assert (Hg1 : snd (acquire_command (slot cj) (now s1) (store s1)) = true) by exact Hg.
  rewrite (surjective_pairing (deliver delivered _ (store s1))), (deliver_reply delivered), Hg1. cbn. rewrite lookup_insert_eq. cbn.
  eexists _, _, _. split; [reflexivity|]. cbn. rewrite lookup_insert_ne, lookup_insert_ne, lookup_insert_eq by congruence.
  split; [exact Hi1|]. split; [exact Hli|]. split; [reflexivity|]. split; [done|]. split; [done|]. cbn. unfold second in *. lia.
Qed.

(** * A holder that keeps refreshing *)
Record round := { work : list event; forced : bool; call : list event }.
Definition round_events (i : nat) (r : round) : list event :=
  work r ++ Send i (refresh (forced r)) delivered :: call r ++ [Receive i].
(** Others do as they like; the request works for at most [gap] between its calls. *)
Definition timely (i : nat) (gap : Z) (r : round) : Prop :=
  Forall (by_others i) (work r) /\ elapsed (work r) <= gap /\ Forall (by_others i) (call r) /\ elapsed (call r) <= patience.
Lemma not_disowned i token es : Forall (by_others i) es -> existsb (disowns token) es = false -> Forall (foreign i token) es.
Proof.
  intros Hes. induction Hes as [|e es He _ IH]; [constructor|]. cbn [existsb]. intros [Hd Hds]%orb_false_iff. constructor; [done|by apply IH].
Qed.

Lemma run_app es1 es2 s : run patience (es1 ++ es2) s = s1 ← run patience es1 s; run patience es2 s1.
Proof. revert s. induction es1 as [|e es1 IH]; intros s; [done|]. cbn [app run]. destruct (act patience e s); cbn; [apply IH|done]. Qed.

Definition keeping (i : nat) (token : str) (s : system S) : Prop :=
  system_ok s /\ alone i token s /\ exists c, clients s !! i = Some c /\ _token (slot c) = token /\
    _held (slot c) = true /\ given_back c = false /\ state c = idle /\ raised c = [] /\ now s < _last_refresh (slot c) + 30 * second + patience.

Lemma keeping_live i token s : 30 * second + 2 * patience <= ttl * second -> keeping i token s ->
  live UPLOAD_SLOT_KEY (now s) (store s) = Some token.
Proof.
  intros Hle ([_ Hok] & _ & c & Hi & <- & Hh & Hb & _ & _ & Hlt). destruct (Hok i c Hi) as [].
  specialize (ok_held0 Hh Hb). destruct ok_key0 as (until & He & ?); [lia|done|]. eapply live_entry; [done|lia].
Qed.

Lemma keeping_round i token gap r s s' : 30 * second + gap + 2 * patience <= ttl * second -> timely i gap r ->
  existsb (disowns token) (round_events i r) = false -> keeping i token s -> run patience (round_events i r) s = Some s' -> keeping i token s'.
Proof.
  intros Hle (Hwork & Hgap & Hcall & Hpat) Hdis (Hs & Ha & c & Hi & <- & Hh & Hb & Hidle & Hr & Hlt). unfold round_events in *.
  rewrite existsb_app in Hdis. apply orb_false_iff in Hdis as [Hd1 Hd2]. cbn [existsb disowns orb] in Hd2. rewrite existsb_app in Hd2.
  apply orb_false_iff in Hd2 as [Hd2 _]. apply (not_disowned _ _ _ Hwork) in Hd1. apply (not_disowned _ _ _ Hcall) in Hd2. clear Hwork Hcall.
  rename Hd1 into Hwork, Hd2 into Hcall.
  rewrite run_app. intros (s1 & H1 & Hrun)%bind_Some.
  destruct (run_foreign_now i c _ s s1 Hi Ha Hwork Hs H1) as (Hi1 & Ha1 & Hs1 & Hn1).
  cbn [app run] in Hrun. apply bind_Some in Hrun as (s2 & H2 & Hrun). rewrite run_app in Hrun. apply bind_Some in Hrun as (s3 & H3 & Hrun).
  cbn [run] in Hrun. apply bind_Some in Hrun as (s4 & H4 & [= <-]).
  pose proof (system_act _ _ _ Hs1 H2) as Hs2. pose proof (alone_act _ _ _ _ _ Ha1 H2) as Ha2.
  cbn [act] in H2. rewrite Hi1 in H2. cbn [mbind option_bind] in H2. rewrite Hidle in H2. injection H2 as H2.
  pose proof Hs1 as [Hd1 Hok1]. destruct (Hok1 i c Hi1) as []. specialize (ok_held0 Hh Hb).
  destruct ok_key0 as (until & He & Hunt); [lia|done|].
  assert (Hlive : live UPLOAD_SLOT_KEY (now s1) (store s1) = Some (_token (slot c))) by (eapply live_entry; [done|lia]).
  cbn [send] in H2. destruct (refresh_due (forced r) (now s1) (slot c)) eqn:Hdue.
  - pose proof (refresh_store (_token (slot c)) (_ttl_seconds (slot c)) (now s1) (store s1)) as Hst.
    rewrite ok_ttl0 in Hst at 1. specialize (Hst Hd1).
    destruct (refresh_script _ _ _ _) as [st' n]. destruct Hst as (_ & _ & Hn & _). specialize (Hn Hlive). subst n. cbn in H2. subst s2.
    match type of H3 with context [<[i := ?c2]> _] => set (cr := c2) in * end.
    assert (Hi2 : clients (s1 <| store := st' |> <| clients := <[i := cr]> (clients s1) |>) !! i = Some cr) by (cbn; apply lookup_insert_eq).
    destruct (run_foreign_now i cr _ _ s3 Hi2 Ha2 Hcall Hs2 H3) as (Hi3 & Ha3 & Hs3 & Hn3).
    pose proof (system_act _ _ _ Hs3 H4) as Hs4. pose proof (alone_act _ _ _ _ _ Ha3 H4) as Ha4.
    cbn [act] in H4. rewrite Hi3 in H4. cbn [mbind option_bind] in H4. injection H4 as H4. unfold receive in H4. cbn in H4. subst s4.
    split; [done|]. split; [exact Ha4|]. eexists. cbn. split; [apply lookup_insert_eq|]. cbn. split_and!; try done. unfold second. lia.
  - subst s2. destruct (run_foreign_now i c _ _ s3 Hi1 Ha1 Hcall Hs1 H3) as (Hi3 & Ha3 & Hs3 & Hn3).
    pose proof (system_act _ _ _ Hs3 H4) as Hs4. pose proof (alone_act _ _ _ _ _ Ha3 H4) as Ha4.
    cbn [act] in H4. rewrite Hi3 in H4. cbn [mbind option_bind] in H4. injection H4 as H4. unfold receive in H4. rewrite Hidle in H4. cbn in H4. subst s4.
    split; [done|]. split; [exact Ha4|]. eexists. cbn. split; [apply lookup_insert_eq|]. cbn. split_and!; try done.
    unfold refresh_due in Hdue. rewrite Hh in Hdue. cbn in Hdue. apply negb_false_iff, andb_true_iff in Hdue as [_ Hdue]. apply Z.ltb_lt in Hdue. lia.
Qed.

(** C22. A request that got the slot keeps it, when its upload id is its own: as
    long as it works no longer than [gap] between two refreshes, with [gap], the
    half minute in which a refresh is skipped and the patience of two calls within
    the lifetime of the key, and its calls reach Redis and are answered, no refresh
    fails, and Redis holds its token, whatever the other requests send, unless its
    own upload is cancelled or reconciled by force meanwhile. *)
Theorem slot_kept gap pre rs s s' i c :
  30 * second + gap + 2 * patience <= ttl * second -> 0 <= gap ->
  fresh s -> clients s !! i = Some c -> alone i (_token (slot c)) s -> live UPLOAD_SLOT_KEY (now s) (store s) = None ->
  Forall (by_others i) pre -> elapsed pre <= patience -> Forall (timely i gap) rs ->
  run patience (Send i acquire delivered :: pre ++ Receive i :: concat (map (round_events i) rs)) s = Some s' ->
  existsb (disowns (_token (slot c))) (pre ++ concat (map (round_events i) rs)) = true \/
  exists c', clients s' !! i = Some c' /\ _held (slot c') = true /\ raised c' = [] /\
    live UPLOAD_SLOT_KEY (now s') (store s') = Some (_token (slot c)).
Proof.
  intros Hle Hgap Hfresh Hi Ha Hlive Hpre Hpat Hrs Hrun. pose proof (fresh_ok s Hfresh) as Hs.
  destruct (existsb _ _) eqn:Hdis; [by left|]. right. rewrite existsb_app in Hdis. apply orb_false_iff in Hdis as [Hdis Hdis'].
  apply (not_disowned _ _ _ Hpre) in Hdis. clear Hpre. rename Hdis into Hpre.
  destruct Hfresh as [Hd Hf]. destruct (Hf i c Hi) as (Httl' & Hh & Hidle & Hr & _).
  cbn [app run] in Hrun. apply bind_Some in Hrun as (s1 & H1 & Hrun). rewrite run_app in Hrun. apply bind_Some in Hrun as (s2 & H2 & Hrun).
  cbn [run] in Hrun. apply bind_Some in Hrun as (s3 & H3 & Hrun).
  assert (Hkeep : keeping i (_token (slot c)) s3).
  { pose proof (system_act _ _ _ Hs H1) as Hs1. pose proof (alone_act _ _ _ _ _ Ha H1) as Ha1.
    cbn [act] in H1. rewrite Hi in H1. cbn [mbind option_bind] in H1. rewrite Hidle in H1. injection H1 as H1.
    pose proof (acquire_store (slot c) (now s) (store s)) as Hst. rewrite Httl' in Hst. specialize (Hst Hd Httl).
    cbn [send] in H1.
    destruct (acquire_command _ _ _) as [st' b]. destruct Hst as (_ & _ & Hb & _). rewrite bool_decide_true in Hb by done. subst b. cbn in H1.
    match type of H1 with context [<[i := ?c2]> _] => set (cr := c2) in * end.
    assert (Hi1 : clients s1 !! i = Some cr) by (rewrite <-H1; cbn; apply lookup_insert_eq).
    destruct (run_foreign_now i cr _ _ s2 Hi1 Ha1 Hpre Hs1 H2) as (Hi2 & Ha2 & Hs2 & Hn2).
    pose proof (system_act _ _ _ Hs2 H3) as Hs3. pose proof (alone_act _ _ _ _ _ Ha2 H3) as Ha3.
    cbn [act] in H3. rewrite Hi2 in H3. cbn [mbind option_bind] in H3. injection H3 as H3. unfold receive in H3. cbn in H3. subst s3.
    split; [done|]. split; [exact Ha3|]. eexists. cbn. split; [apply lookup_insert_eq|]. cbn. split_and!; try done. unfold second. lia. }
  assert (Hend : keeping i (_token (slot c)) s').
  { clear H3. revert s3 Hkeep Hrun. induction Hrs as [|r rs Hr' _ IH]; intros s3 Hkeep; cbn [map concat] in *; [by intros [= <-]|].
    rewrite existsb_app in Hdis'. apply orb_false_iff in Hdis' as [Hd1 Hd2].
    rewrite run_app. intros (s4 & H4 & H5)%bind_Some. apply (IH Hd2 s4); [|done]. by eapply keeping_round. }
  pose proof (keeping_live i _ s' ltac:(lia) Hend) as Hl. destruct Hend as (_ & _ & c' & Hi' & _ & Hh' & _ & _ & Hr' & _). eauto 10.
Qed.

(** * A slot that nobody gives back *)
Definition silent (e : event) : Prop := match e with Send _ acquire _ | Send _ (refresh _) _ => False | _ => True end.
Lemma release_entry token now st x : entry UPLOAD_SLOT_KEY (fst (release_script token now st)) = Some x -> entry UPLOAD_SLOT_KEY st = Some x.
Proof.
  unfold release_script. rewrite get_live. case_bool_decide as Hlive; [|done].
  destruct (del_live UPLOAD_SLOT_KEY token now st Hlive) as [_ ->]. done.
Qed.
Lemma act_silent e s s' x : silent e -> act patience e s = Some s' -> entry UPLOAD_SLOT_KEY (store s') = Some x -> entry UPLOAD_SLOT_KEY (store s) = Some x.
Proof.
  intros He Hact. destruct e as [d|k cmd dl|k|t dl]; cbn [act] in Hact.
  - destruct (_ && _); by simplify_eq.
  - apply bind_Some in Hact as (c & _ & Hact). destruct (state c); try done. injection Hact as <-. destruct cmd as [| |]; try done. cbn [send].
    destruct (_held (slot c)); [|done]. rewrite (surjective_pairing (deliver _ _ _)), deliver_store. cbn. destruct (reached dl); [apply release_entry|done].
  - apply bind_Some in Hact as (c & _ & [= <-]). unfold receive. by destruct (match state c with idle => _ | acquiring reply => _ | refreshing reply => _ | releasing => _ end).
  - rewrite (surjective_pairing (deliver _ _ _)), deliver_store in Hact. injection Hact as <-. cbn. destruct (reached dl); [apply release_entry|done].
Qed.
Lemma run_silent es s s' x : Forall silent es -> run patience es s = Some s' -> entry UPLOAD_SLOT_KEY (store s') = Some x -> entry UPLOAD_SLOT_KEY (store s) = Some x.
Proof.
  intros Hes. revert s. induction Hes as [|e es He _ IH]; intros s; cbn [run]; [by intros [= ->]|].
  intros (s1 & H1 & H2)%bind_Some Hx. eapply act_silent; [done|done|]. by eapply IH.
Qed.

(** C23. No slot stays taken: once nobody has asked for the slot or refreshed it for the
    lifetime of the key, the next request gets it, whatever happened before and
    whoever died holding it. *)
Theorem slot_freed es quiet s s' s'' j c :
  fresh s -> run patience es s = Some s' -> Forall silent quiet -> ttl * second <= elapsed quiet ->
  run patience quiet s' = Some s'' -> clients s'' !! j = Some c -> state c = idle ->
  exists s3 c3, run patience [Send j acquire delivered; Receive j] s'' = Some s3 /\
    clients s3 !! j = Some c3 /\ _held (slot c3) = true /\ raised c3 = raised c.
Proof.
  intros Hfresh Hrun Hquiet Hlong Hrun' Hj Hidle.
  pose proof (system_run es s s' (fresh_ok s Hfresh) Hrun) as Hs'. pose proof (system_run quiet s' s'' Hs' Hrun') as [Hd Hok].
  assert (Hlive : live UPLOAD_SLOT_KEY (now s'') (store s'') = None).
  { destruct (live UPLOAD_SLOT_KEY (now s'') (store s'')) as [t|] eqn:Hl; [|done]. apply live_Some in Hl as (until & He & Hlt).
    apply (run_silent _ _ _ _ Hquiet Hrun') in He. destruct Hs' as [Hd' _]. specialize (Hd' _ _ He).
    pose proof (run_now _ _ _ Hrun'). lia. }
  pose proof (acquire_store (slot c) (now s'') (store s'')) as Hst. destruct (Hok j c Hj) as []. rewrite ok_ttl0 in Hst. specialize (Hst Hd Httl).
  cbn [run act]. rewrite Hj. cbn [mbind option_bind]. rewrite Hidle. cbn [send mbind option_bind].
  destruct (acquire_command _ _ _) as [st' b] eqn:Hcmd. destruct Hst as (_ & _ & Hb & _). rewrite bool_decide_true in Hb by done. subst b.
  cbn [deliver fst snd reached andb act run mbind option_bind]. rewrite Hcmd. cbn. rewrite lookup_insert_eq. cbn.
  eexists _, _. split; [done|]. cbn. split; [apply lookup_insert_eq|done].
Qed.
End reachable.
End laws.

(** * A store *)
Abbreviation sample_store := (gmap str (str * Z)).
Definition sample_live (key : str) (now : Z) (s : sample_store) : option str :=
  match s !! key with Some (v, until) => if now <? until then Some v else None | None => None end.
#[export] Instance sample_key_store : KeyStore sample_store := {|
  set_nx_ex key value ttl now s := match sample_live key now s with Some _ => (s, false) | None => (<[key := (value, now + ttl * second)]> s, true) end;
  get_key := sample_live;
  expire key ttl now s := match sample_live key now s with Some v => (<[key := (v, now + ttl * second)]> s, 1) | None => (s, 0) end;
  del key now s := match sample_live key now s with Some _ => (delete key s, 1) | None => (s, 0) end;
  entry key s := (s : gmap str (str * Z)) !! key |}.
#[export] Instance sample_laws : KeyStoreLaws sample_store.
Proof.
  split; [done|..]; intros *; change (live (S := sample_store)) with sample_live; cbn.
  - by destruct (sample_live key now0 s).
  - intros ->. cbn. by rewrite lookup_insert_eq.
  - intros ->. cbn. by rewrite lookup_insert_eq.
  - intros ->. cbn. by rewrite lookup_delete_eq.
Qed.

(** Two requests with a key that lives fifteen minutes. *)
Definition sample_client (id : string) : client :=
  {| slot := new_slot 0 None (Some (lit id)) []; state := idle; raised := []; sent := 0; granted_until := 0; given_back := false |}.
Definition sample_system : system sample_store :=
  {| store := (∅ : gmap str (str * Z)); now := 0; clients := {[ 0%nat := sample_client "first"; 1%nat := sample_client "second" ]} |}.
Lemma sample_fresh : fresh 900 sample_system.
Proof.
  split; [intros t until He; vm_compute in He; discriminate|]. cbn. intros i c Hi.
  apply lookup_insert_Some in Hi as [[_ <-]|[_ [_ <-]%lookup_singleton_Some]]; by vm_compute.
Qed.
Lemma sample_clients i c : clients sample_system !! i = Some c -> (i = 0%nat /\ c = sample_client "first") \/ (i = 1%nat /\ c = sample_client "second").
Proof. cbn. intros [[<- <-]|[_ [<- <-]%lookup_singleton_Some]]%lookup_insert_Some; auto. Qed.
Lemma sample_alone i c : clients sample_system !! i = Some c -> alone i (_token (slot c)) sample_system.
Proof. intros [[-> ->]|[-> ->]]%sample_clients j cj [[-> ->]|[-> ->]]%sample_clients; by vm_compute. Qed.

Definition minutes (n : Z) : Z := n * 60 * second.
(** The second request is refused while the first works, and gets in when the first is silent for too long. *)
Definition sample_start : list event := [Send 0 acquire delivered; Tick second; Receive 0; Send 1 acquire delivered; Receive 1].
Definition sample_stalled : list event := [Tick (minutes 15); Send 1 acquire delivered; Receive 1].

Definition after (es : list event) : system sample_store := default sample_system (run (10 * second) es sample_system).
Definition holds (i : nat) (s : system sample_store) : option bool := c ← clients s !! i; Some (_held (slot c)).

Lemma slot_exclusive_witness : holds 0 (after sample_start) = Some true /\ holds 1 (after sample_start) = Some false /\
  forall i j ci cj, clients (after sample_start) !! i = Some ci -> clients (after sample_start) !! j = Some cj ->
    in_lease 900 (10 * second) (now (after sample_start)) ci -> in_lease 900 (10 * second) (now (after sample_start)) cj -> i = j.
Proof.
  split; [vm_compute; reflexivity|]. split; [vm_compute; reflexivity|].
  intros i j ci cj Hi Hj Hli Hlj.
  destruct (slot_exclusive 900 (10 * second) ltac:(done) ltac:(done) sample_start sample_system (after sample_start) i j ci cj) as [Hij|[Hd|Hd]];
    try assumption; try discriminate Hd.
  - apply sample_fresh.
  - apply sample_alone.
  - vm_compute. reflexivity.
Defined.

(** A holder that refreshes every ten minutes while the other asks again and again. *)
Definition sample_round : round :=
  {| work := [Tick (minutes 10); Send 1 acquire delivered; Receive 1]; forced := false; call := [Tick second] |}.
Lemma slot_kept_witness : exists c',
  clients (after (Send 0 acquire delivered :: [Tick second] ++ Receive 0 :: concat (map (round_events 0) [sample_round; sample_round; sample_round]))) !! 0%nat = Some c' /\
  _held (slot c') = true /\ raised c' = [].
Proof.
  destruct (slot_kept 900 (10 * second) ltac:(done) ltac:(done) (minutes 10) [Tick second] [sample_round; sample_round; sample_round] sample_system
    (after (Send 0 acquire delivered :: [Tick second] ++ Receive 0 :: concat (map (round_events 0) [sample_round; sample_round; sample_round])))
    0 (sample_client "first")) as [Hd|(c' & Hc' & Hh & Hr & _)].
  - by vm_compute.
  - by vm_compute.
  - apply sample_fresh.
  - vm_compute. reflexivity.
  - apply sample_alone. vm_compute. reflexivity.
  - vm_compute. reflexivity.
  - repeat constructor.
  - by vm_compute.
  - repeat constructor; try by vm_compute.
  - vm_compute. reflexivity.
  - vm_compute in Hd. discriminate Hd.
  - exists c'. split; [exact Hc'|]. split; [exact Hh|exact Hr].
Defined.

(** The upload of the first request is cancelled while it works. *)
Definition first_works : list event := [Send 0 acquire delivered; Tick second; Receive 0].
Lemma slot_taken_over_witness : exists s3 ci cj,
  run (10 * second) [Disown (lit "first") delivered; Send 1 acquire delivered; Receive 1] (after first_works) = Some s3 /\
  clients s3 !! 0%nat = Some ci /\ in_lease 900 (10 * second) (now s3) ci /\ clients s3 !! 1%nat = Some cj /\ in_lease 900 (10 * second) (now s3) cj.
Proof.
  assert (H0 : exists ci, clients (after first_works) !! 0%nat = Some ci /\ _token (slot ci) = lit "first" /\
      in_lease 900 (10 * second) (now (after first_works)) ci).
  { eexists. split; [vm_compute; reflexivity|]. split; [vm_compute; reflexivity|]. by vm_compute. }
  destruct H0 as (ci & Hi & Ht & Hl). rewrite <-Ht.
  apply (slot_taken_over 900 (10 * second) ltac:(done) ltac:(done) first_works sample_system (after first_works) 0 1 ci (sample_client "second")).
  - done.
  - apply sample_fresh.
  - apply sample_alone.
  - vm_compute. reflexivity.
  - reflexivity.
  - exact Hi.
  - exact Hl.
  - vm_compute. reflexivity.
  - reflexivity.
  - done.
Defined.

(** The first request dies without giving the slot back; the second gets it. *)
Lemma slot_freed_witness : exists s3 c3,
  run (10 * second) [Send 1 acquire delivered; Receive 1] (after ([Send 0 acquire delivered; Receive 0] ++ [Tick (minutes 15)])) = Some s3 /\
  clients s3 !! 1%nat = Some c3 /\ _held (slot c3) = true.
Proof.
  destruct (slot_freed 900 (10 * second) ltac:(done) ltac:(done) [Send 0 acquire delivered; Receive 0] [Tick (minutes 15)] sample_system
    (after [Send 0 acquire delivered; Receive 0]) (after ([Send 0 acquire delivered; Receive 0] ++ [Tick (minutes 15)])) 1 (sample_client "second"))
    as (s3 & c3 & Hrun & Hc3 & Hh & _).
  - apply sample_fresh.
  - vm_compute. reflexivity.
  - repeat constructor.
  - by vm_compute.
  - vm_compute. reflexivity.
  - vm_compute. reflexivity.
  - vm_compute. reflexivity.
  - exists s3, c3. split; [exact Hrun|]. split; [exact Hc3|exact Hh].
Defined.

(** A request that is silent longer than its key lives is not told: both hold the slot
    until its next refresh finds the key lost. *)
Lemma slot_overlap : holds 0 (after (sample_start ++ sample_stalled)) = Some true /\ holds 1 (after (sample_start ++ sample_stalled)) = Some true /\
  (c ← clients (after (sample_start ++ sample_stalled ++ [Send 0 (refresh false) delivered; Receive 0])) !! 0%nat; Some (raised c)) = Some [reservation_lost].
Proof. split_and!; vm_compute; reflexivity. Qed.
End Slot.
