(* ===== verification/MemorySave.v ===== *)
(** [save_memory_upload] of [core/storage.py]: a memory image that comes in one
    request is staged, checked, moved or copied to its place and made readable,
    holding the upload slot; what is left when anything fails.

    What the surroundings do is an argument that is asked at every call, in order:
    the clock, what other processes did to Redis meanwhile, whether a call to it
    arrives, the room on the disks, the calls that fail half way, and what reading
    a file back gives, which need not be what was written. *)
From S2P Require Import Prelude PyBase FileSystem PurePaths UploadSession Effects MemoryCapacity MemorySlot.
Import Bytes Str.

Module Save.
Import FileSystem Effects Capacity Slot.

Inductive save_exn : Type :=
  | MemoryUploadError (code message : str)
  | CapacityFailed (e : capacity_exn)
  | OsFailed (e : os_error)
  | Interrupted (call : nat).    (** whatever else a call raises *)
Definition upload_error (code message : string) : save_exn := MemoryUploadError (lit code) (lit message).
Definition verification_timeout : save_exn :=
  upload_error "verification_timeout" "Memory upload verification exceeded the configured timeout.".
Definition copy_integrity_failed : save_exn :=
  upload_error "copy_integrity_failed" "Memory image integrity verification failed during finalization.".
Definition canonical_validation_failed : save_exn :=
  upload_error "canonical_validation_failed" "Canonical memory evidence validation failed after finalization.".
Definition canonical_permission_failed : save_exn :=
  upload_error "canonical_permission_failed" "Memory evidence was preserved, but secure worker-readable permissions could not be applied.".
Definition finalization_timeout : save_exn :=
  upload_error "finalization_timeout" "Memory upload finalization exceeded the configured timeout.".
#[export] Instance capacity_exn_eq_dec : EqDecision capacity_exn.
Proof. solve_decision. Defined.
#[export] Instance save_exn_eq_dec : EqDecision save_exn.
Proof. solve_decision. Defined.

Record SaveSettings := {
  capacity_settings : CapacitySettings;
  staging_dir : path;
  data_dir : path;
  upload_extensions : list str;
  memory_upload_chunk_size_bytes : Z;
  memory_upload_max_bytes : Z;
  memory_max_upload_size : Z;
  memory_upload_request_timeout_seconds : Z;
  memory_upload_stale_timeout_seconds : option Z;
  memory_upload_verification_timeout_seconds : Z;
  memory_upload_finalization_timeout_seconds : Z }.
Definition MEMORY_UPLOAD_CANDIDATE_EXTENSIONS : list str :=
  [lit ".raw"; lit ".mem"; lit ".dmp"; lit ".dump"; lit ".bin"; lit ".img"; lit ".vmem"; lit ".lime"].

(** The local variables that outlive an exception, with the files. *)
Record core := { files : fs; size : Z; received : bytes; preserve_for_recovery : bool; canonical_finalized : bool }.
#[export] Instance core_rebuild : Rebuild core := fun c =>
  Build_core (files c) (size c) (received c) (preserve_for_recovery c) (canonical_finalized c).

(** [^[0-9a-f-]{36}-[0-9a-f-]{36}\.memory-upload\.part$] *)
Definition uuid_like (s : str) : bool := (length s =? 36)%nat && forallb (one_of (lit "0123456789abcdef-")) s.
Definition _MEMORY_TEMP_NAME (name : str) : bool :=
  uuid_like (take 36 name) && startswith (lit "-") (drop 36 name) && uuid_like (take 36 (drop 37 name)) &&
  bool_decide (drop 73 name = lit ".memory-upload.part").

Definition _safe_unlink_memory_staging (p staging_root : path) (expected_name : str) (f : fs) : bool * fs :=
  if bool_decide (name_of p <> expected_name) || negb (_MEMORY_TEMP_NAME (name_of p)) then (false, f)
  else if negb (exists_ staging_root f) || negb (exists_ p f) || negb (below staging_root p) then (false, f)
  else if negb (is_file p f) then (false, f)
  else (true, delete p f).
Definition safe_remove (p : path) (f : fs) : fs :=
  if exists_ p f then if is_dir p f then rmtree p f else delete p f else f.

(** What [read(chunk_size)] gives, one after the other. *)
Fixpoint split_chunks (fuel : nat) (n : nat) (data : bytes) : list bytes :=
  match fuel, data with
  | _, [] => []
  | O, _ => []
  | S fuel, _ => take n data :: split_chunks fuel n (drop n data)
  end.

Section save.
Context {St : Type} `{KeyStore St}.
Record world := { vars : core; store : St; held_slot : MemoryUploadSlot; calls : nat }.
#[global] Instance world_rebuild : Rebuild world := fun w => Build_world (vars w) (store w) (held_slot w) (calls w).
Abbreviation io := (io world save_exn).

Variables (settings : SaveSettings) (sha256_of : bytes -> str) (py_lower : str -> str) (device : path -> Z) (uuid_text : nat -> str)
  (isalnum : Z -> bool).
Variables (clock : nat -> Z) (others : nat -> St -> St) (deliveries : nat -> delivery)
  (disks : nat -> PurePaths.pure_path -> result capacity_exn FilesystemSnapshot) (faults : nat -> option nat) (read_back : nat -> bytes -> bytes).

Definition next_call : io nat := fun w => (w <| calls := S (calls w) |>, Ok (calls w)).
Definition monotonic : io Z := do! n := next_call in mret (clock n).
Definition uuid4 : io str := do! n := next_call in mret (uuid_text n).
(** A call that may raise and changes nothing the program looks at. *)
Definition fallible : io unit := do! n := next_call in if faults n then raise (Interrupted n) else mret tt.
Definition publish : io unit := fallible.
Definition get {A} (f : core -> A) : io A := asks (fun w => Ok (f (vars w))).
Definition modify (f : core -> core) : io unit := update (fun w => Ok (tt, w <| vars := f (vars w) |>)).
Definition on_files (f : fs -> result os_error fs) : io unit :=
  update (fun w => match f (files (vars w)) with
                   | Ok f' => Ok (tt, w <| vars := vars w <| files := f' |> |>)
                   | Raise e => Raise (OsFailed e)
                   | OutOfFuel => OutOfFuel
                   end).
Definition check (b : bool) (e : save_exn) : io unit := if b then raise e else mret tt.

(** * The slot, called from here *)
Definition redis {A} (command : Z -> St -> St * A) : io (option A) := fun w =>
  let n := calls w in
  let '(store', reply) := deliver (deliveries n) (command (clock n)) (others n (store w)) in
  (w <| store := store' |> <| calls := S n |>, Ok reply).
Definition slot_reply (reply : MemoryUploadSlot -> MemoryUploadSlot * result capacity_exn unit) : io unit := fun w =>
  let '(slot, r) := reply (held_slot w) in (w <| held_slot := slot |>, map_err CapacityFailed r).
Definition slot_acquire : io unit :=
  do! slot := asks (fun w => Ok (held_slot w)) in
  do! reply := redis (acquire_command slot) in
  do! now := monotonic in
  slot_reply (acquire_reply reply now).
Definition slot_refresh (force : bool) : io unit :=
  do! slot := asks (fun w => Ok (held_slot w)) in
  do! now := monotonic in
  if refresh_due force now slot then
    do! reply := redis (refresh_script (_token slot) (_ttl_seconds slot)) in
    do! now := monotonic in
    slot_reply (refresh_reply reply now)
  else mret tt.
Definition slot_release : io unit :=
  do! slot := asks (fun w => Ok (held_slot w)) in
  if _held slot then
    do! _ := redis (release_script (_token slot)) in
    slot_reply release_reply
  else mret tt.
(** [try: body finally: cleanup] *)
Definition finally {A} (body : io A) (cleanup : io unit) : io A := fun w =>
  let '(w', r) := body w in
  let '(w'', rc) := cleanup w' in
  (w'', match rc with Ok _ => r | Raise e => Raise e | OutOfFuel => OutOfFuel end).
(** [with MemoryUploadSlot(...) as slot:] *)
Definition with_slot {A} (slot : MemoryUploadSlot) (body : io A) : io A :=
  do! _ := update (fun w => Ok (tt, w <| held_slot := slot |>)) in
  do! _ := slot_acquire in
  finally body slot_release.

Definition assert_capacity (n : Z) (ph : string) (staged : Z) : io CapacityDecision :=
  do! call := next_call in
  pure (map_err CapacityFailed (assert_memory_upload_capacity (capacity_settings settings) (disks call) n (lit ph) staged)).

(** [buffer.write(chunk)]; one that fails has written part of it. *)
Definition write (p : path) (chunk : bytes) : io unit :=
  do! n := next_call in
  match faults n with
  | None => modify (fun c => c <| files := append_bytes p chunk (files c) |>)
  | Some k => do! _ := modify (fun c => c <| files := append_bytes p (take k chunk) (files c) |>) in raise (Interrupted n)
  end.
Definition open_xb (p : path) : io unit :=
  do! _ := fallible in on_files (create_file p []).

Definition chunk_size : Z := Z.max 65536 (if memory_upload_chunk_size_bytes settings =? 0 then 4194304 else memory_upload_chunk_size_bytes settings).
Definition max_bytes : Z :=
  let n := memory_upload_max_bytes settings in
  let m := if n =? 0 then memory_max_upload_size settings else n in
  Z.max 1 (if m =? 0 then 1 else m).

(** [_copy_memory_upload_to_final] *)
Definition copy_chunk (target : path) (copied : bytes) (chunk : bytes) : io bytes :=
  do! _ := write target chunk in mret (copied ++ chunk).
Definition _copy_memory_upload_to_final (staging_path final_path : path) (expected_size : Z) (expected_sha256 : str) : io unit :=
  do! uuid := uuid4 in
  let destination_temp := parent final_path ++ [lit "." ++ name_of final_path ++ lit "." ++ uuid ++ lit ".part"] in
  finally
    (do! n := next_call in
     do! stored := asks (fun w => map_err OsFailed (read_bytes staging_path (files (vars w)))) in
     let content := read_back n stored in
     do! _ := open_xb destination_temp in
     do! copied := for_each (copy_chunk destination_temp) [] (split_chunks (length content) (Z.to_nat chunk_size) content) in
     do! _ := fallible in
     do! _ := fallible in
     do! _ := check (negb (len copied =? expected_size) || bool_decide (sha256_of copied <> expected_sha256)) copy_integrity_failed in
     do! _ := fallible in
     on_files (replace_file device destination_temp final_path))
    (do! present := get (fun c => exists_ destination_temp (files c)) in
     (if (present : bool) then on_files (unlink destination_temp) else mret tt) : io unit).

Section upload.
(** The request: its name, the size it announces, what reading its body gives
    ([None]: the read raises). *)
Variables (filename : option str) (hinted_size : option Z) (reads : list (option bytes)).
Variables (case_id : str) (upload_id evidence_id : option str).

Definition hint : option Z := match hinted_size with Some n => if 0 <? n then Some n else None | None => None end.
Definition expected_size : Z := default max_bytes hint.
Definition too_large : save_exn :=
  MemoryUploadError (lit "rejected_size") (lit "Memory image exceeds configured upload limit of " ++ str_of_Z max_bytes ++ lit " bytes.").
Definition extension : str := py_lower (PurePaths.suffix (PurePaths.Path (default [] filename))).

Definition build_evidence_root (evidence : str) : path := data_dir settings ++ [lit "evidence"; case_id; evidence].
Definition temp_path (evidence : str) : path := staging_dir settings ++ [case_id ++ lit "-" ++ evidence ++ lit ".memory-upload.part"].
Definition final_path (evidence : str) : path := build_evidence_root evidence ++ [lit "original"; lit "memory-image" ++ extension].

(** The loop over the body; it ends at the first empty chunk. *)
Fixpoint receive (temp : path) (reads : list (option bytes)) : io unit :=
  match reads with
  | [] | Some [] :: _ => mret tt
  | None :: _ => do! n := next_call in raise (Interrupted n)
  | Some chunk :: reads =>
      do! size0 := get size in
      let next_size := size0 + len chunk in
      do! _ := check ((max_bytes <? next_size) || (match hint with Some n => n <? next_size | None => false end)) too_large in
      do! _ := assert_capacity expected_size "streaming" size0 in
      do! _ := modify (fun c => c <| received := received c ++ chunk |>) in
      do! _ := write temp chunk in
      do! _ := modify (fun c => c <| size := next_size |>) in
      do! _ := if (next_size =? expected_size) || (next_size mod Z.max chunk_size 67108864 <? chunk_size) then publish else mret tt in
      do! _ := slot_refresh false in
      receive temp reads
  end.

(** What is done holding the slot, up to the staged file. *)
Definition stage (temp : path) : io unit :=
  do! _ := assert_capacity expected_size "pre_upload" 0 in
  do! _ := publish in
  do! _ := open_xb temp in
  do! _ := receive temp reads in
  do! verification_started := monotonic in
  do! _ := publish in
  do! _ := fallible in
  do! _ := fallible in
  do! verified := monotonic in
  do! _ := modify (fun c => c <| preserve_for_recovery := size c =? expected_size |>) in
  do! _ := check (Z.max 1 (memory_upload_verification_timeout_seconds settings) * second <? verified - verification_started) verification_timeout in
  do! total := get size in
  do! _ := check (total <=? 0) (upload_error "rejected_empty" "Empty memory image uploads are not accepted.") in
  check (match hint with Some n => negb (total =? n) | None => false end)
    (upload_error "size_mismatch" "Transferred memory image size did not match the declared size.").

(** And what moves it to its place. *)
Definition finalize (temp final : path) : io unit :=
  do! total := get size in
  do! data := get received in
  do! _ := publish in
  do! finalization_started := monotonic in
  do! decision := assert_capacity total "finalization" total in
  do! _ := monotonic in
  do! _ :=
    if bool_decide (finalization_strategy decision = lit "atomic_rename") then
      do! _ := fallible in on_files (replace_file device temp final)
    else
      do! _ := _copy_memory_upload_to_final temp final total (sha256_of data) in
      modify (fun c => c <| files := snd (_safe_unlink_memory_staging temp (staging_dir settings) (name_of temp) (files c)) |>) in
  do! _ := modify (fun c => c <| canonical_finalized := true |>) in
  do! _ := monotonic in
  do! stat_size := asks (fun w => map_err OsFailed (st_size final (files (vars w)))) in
  do! regular := get (fun c => is_file final (files c)) in
  do! _ := check (negb regular || negb (stat_size =? total)) canonical_validation_failed in
  do! permitted := next_call in
  do! _ := check (if faults permitted then true else false) canonical_permission_failed in
  do! _ := fallible in
  do! _ := fallible in
  do! finalized := monotonic in
  do! _ := check (Z.max 1 (memory_upload_finalization_timeout_seconds settings) * second <? finalized - finalization_started) finalization_timeout in
  slot_refresh true.

(** [except MemoryCapacityError] *)
Definition public_error (e : save_exn) : save_exn :=
  match e with
  | CapacityFailed (MemoryCapacityError category _) =>
      MemoryUploadError category
        (if bool_decide (category = lit "upload_in_progress") then lit "Another memory image upload is currently in progress."
         else lit "Server storage capacity is below the safe threshold for this memory image.")
  | e => e
  end.

(** [except Exception]: what can be deleted is, unless the bytes are all there. *)
Definition clean_up (temp root : path) : io unit :=
  modify (fun c =>
    if negb (preserve_for_recovery c) && negb (canonical_finalized c)
    then c <| files := safe_remove root (snd (_safe_unlink_memory_staging temp (staging_dir settings) (name_of temp) (files c))) |>
    else c).

Definition save_memory_upload : io (str * path * Z * str * str) :=
  do! _ := modify (fun c => c <| size := 0 |> <| received := [] |> <| preserve_for_recovery := false |> <| canonical_finalized := false |>) in
  do! _ := check (negb (bool_decide (extension ∈ upload_extensions settings)) && negb (bool_decide (extension ∈ MEMORY_UPLOAD_CANDIDATE_EXTENSIONS)))
             (upload_error "rejected_type" "This memory image extension is not enabled for browser upload.") in
  do! evidence := match evidence_id with Some ((_ :: _) as e) => mret e | _ => uuid4 end in
  let root := build_evidence_root evidence in
  let temp := temp_path evidence in
  let final := final_path evidence in
  do! _ := on_files (mkdir root) in
  do! _ := on_files (mkdir (staging_dir settings)) in
  do! _ := on_files (mkdir (parent final)) in
  let safe_name := UploadSession.safe_display_filename isalnum (default [] filename) in
  do! request_id := match upload_id with Some ((_ :: _) as u) => mret u | _ => uuid4 end in
  catch
    (do! _ := check (max_bytes <? expected_size) too_large in
     do! _ := catch
       (with_slot (new_slot (memory_upload_request_timeout_seconds settings) (memory_upload_stale_timeout_seconds settings) (Some request_id) [])
          (do! _ := stage temp in finalize temp final))
       (fun e => raise (public_error e)) in
     do! total := get size in
     do! data := get received in
     mret (evidence, final, total, sha256_of data, safe_name))
    (fun e => do! _ := clean_up temp root in raise e).
End upload.
End save.
End Save.
