(* ===== verification/MemorySaveRules.v ===== *)
(** What [save_memory_upload] leaves, however its surroundings behave. *)
From S2P Require Import Prelude PyBase FileSystem PurePaths Effects MemoryCapacity MemorySlot MemorySave.
Import Bytes Str.

Module SaveRules.
Import FileSystem Effects Capacity Slot Save.

(** What is raised once all the bytes are staged, and once the image has its place. *)
Definition kept_error (e : save_exn) : bool := bool_decide (e ∈ [verification_timeout; copy_integrity_failed]).
Definition placed_error (e : save_exn) : bool :=
  bool_decide (e ∈ [canonical_validation_failed; canonical_permission_failed; finalization_timeout]).
Definition late (e : save_exn) : bool := kept_error e || placed_error e.
Lemma late_false e : late e = false -> kept_error e = false /\ placed_error e = false.
Proof. by intros [? ?]%orb_false_iff. Qed.
(** These are all [MemoryUploadError]s, told by their messages. *)
Definition late_messages : list str :=
  map (fun e => match e with MemoryUploadError _ message => message | _ => [] end)
    [verification_timeout; copy_integrity_failed; canonical_validation_failed; canonical_permission_failed; finalization_timeout].
Lemma late_message e : late e = true -> exists code message, e = MemoryUploadError code message /\ message ∈ late_messages.
Proof.
  intros [H|H]%orb_true_iff; apply bool_decide_eq_true in H; revert H; rewrite !elem_of_cons, elem_of_nil;
    intros Hin; destruct_or? Hin; try done; subst e; eexists _, _; (split; [reflexivity|]); apply (bool_decide_eq_true_1 (_ ∈ _)); vm_compute; reflexivity.
Qed.
Lemma not_late e : (forall code message, e = MemoryUploadError code message -> bool_decide (message ∈ late_messages) = false) -> late e = false.
Proof.
  intros He. destruct (late e) eqn:Hl; [|done]. apply late_message in Hl as (code & message & -> & Hin).
  specialize (He code message eq_refl). apply bool_decide_eq_false in He. by destruct He.
Qed.
Lemma late_os e : late (OsFailed e) = false.
Proof. by apply not_late. Qed.
Lemma late_interrupted n : late (Interrupted n) = false.
Proof. by apply not_late. Qed.
Lemma late_capacity e : late (CapacityFailed e) = false.
Proof. by apply not_late. Qed.
(** What clients are told of the room and the slot is none of these. *)
Lemma late_public e : public_error e = e \/ late (public_error e) = false.
Proof.
  destruct e as [code message|[text|category text| |]|e|n]; try by left. right. apply not_late. cbn [public_error]. intros code message [= _ <-].
  destruct (bool_decide (category = _)); vm_compute; reflexivity.
Qed.

Section rules.
Context {St : Type} `{KeyStore St}.
Context (settings : SaveSettings) (sha256_of : bytes -> str) (py_lower : str -> str) (device : path -> Z) (uuid_text : nat -> str) (isalnum : Z -> bool).
Context (clock : nat -> Z) (others : nat -> St -> St) (deliveries : nat -> delivery)
  (disks : nat -> PurePaths.pure_path -> result capacity_exn FilesystemSnapshot) (faults : nat -> option nat) (read_back : nat -> bytes -> bytes).
Hypothesis Hdisks : forall n p, disks n p <> OutOfFuel.
Abbreviation world := (world (St := St)).
Abbreviation io := (io world save_exn).

(** * Calls that leave the variables and the files alone *)
Definition quiet {A} (m : io A) : Prop := forall w, vars (fst (m w)) = vars w /\ outcome (fun _ => True) (fun e => late e = false) (snd (m w)).
Definition on (p : core -> Prop) (w : world) : Prop := p (vars w).

Lemma calm_bind {A B} (m : io A) (f : A -> io B) : quiet m -> (forall a, quiet (f a)) -> quiet (mbind f m).
Proof using.
  intros Hm Hf w. unfold mbind, io_bind. destruct (Hm w) as [Hv Ho]. destruct (m w) as [w' [a|e|]]; cbn in *; [|done..].
  destruct (Hf a w') as [Hv' Ho']. split; [congruence|done].
Qed.
Lemma calm_ret {A} (a : A) : quiet (mret a).
Proof using. done. Qed.
Lemma calm_raise {A} e : late e = false -> quiet (raise e : io A).
Proof using. done. Qed.
Lemma calm_next : quiet next_call.
Proof using. done. Qed.
Lemma calm_asks {A} (f : world -> A) : quiet (asks (fun w => Ok (f w))).
Proof using. done. Qed.
Lemma calm_check b e : late e = false -> quiet (check b e).
Proof using. by destruct b. Qed.
Lemma calm_redis {A} (command : Z -> St -> St * A) : quiet (redis clock others deliveries command).
Proof using. intros w. unfold redis. by destruct (deliver _ _ _). Qed.
Lemma calm_slot_reply reply : (forall s, snd (reply s) <> OutOfFuel) -> quiet (slot_reply reply).
Proof using.
  intros Hr w. unfold slot_reply. specialize (Hr (held_slot w)). destruct (reply _) as [s [|e|]]; [done| |done]. split; [done|]. apply late_capacity.
Qed.
Lemma calm_fallible : quiet (fallible faults).
Proof using. apply calm_bind; [apply calm_next|]. intros n. destruct (faults n); [|done]. apply calm_raise, late_interrupted. Qed.
Lemma calm_monotonic : quiet (monotonic clock).
Proof using. apply calm_bind; [apply calm_next|]. intros n. apply calm_ret. Qed.
Lemma calm_uuid : quiet (uuid4 uuid_text).
Proof using. apply calm_bind; [apply calm_next|]. intros n. apply calm_ret. Qed.
Lemma calm_acquire : quiet (slot_acquire clock others deliveries).
Proof using.
  apply calm_bind; [apply calm_asks|]. intros slot. apply calm_bind; [apply calm_redis|]. intros reply. apply calm_bind; [apply calm_monotonic|].
  intros now. apply calm_slot_reply. by intros s; destruct reply as [[]|].
Qed.
Lemma calm_refresh force : quiet (slot_refresh clock others deliveries force).
Proof using.
  apply calm_bind; [apply calm_asks|]. intros slot. apply calm_bind; [apply calm_monotonic|]. intros now. destruct (refresh_due _ _ _); [|apply calm_ret].
  apply calm_bind; [apply calm_redis|]. intros reply. apply calm_bind; [apply calm_monotonic|].
  intros now'. apply calm_slot_reply. intros s; destruct reply as [n|]; [|done]. cbn. by destruct (n =? 1).
Qed.
Lemma calm_release : quiet (slot_release clock others deliveries).
Proof using.
  apply calm_bind; [apply calm_asks|]. intros slot. destruct (_held slot); [|apply calm_ret].
  apply calm_bind; [apply calm_redis|]. intros reply. by apply calm_slot_reply.
Qed.
Lemma calm_capacity n ph staged : quiet (assert_capacity settings disks n ph staged).
Proof using Hdisks.
  apply calm_bind; [apply calm_next|]. intros call w. split; [done|]. cbn.
  enough (assert_memory_upload_capacity (capacity_settings settings) (disks call) n (lit ph) staged <> OutOfFuel) as Hne
    by (destruct (assert_memory_upload_capacity _ _ _ _ _); [done|apply late_capacity|done]).
  by apply assert_total.
Qed.

Lemma ends_quiet {A} (p : core -> Prop) (m : io A) : quiet m -> ends (on p) m (fun _ => on p) (fun e => on (fun c => p c /\ late e = false)).
Proof using.
  intros Hm w Hw. destruct (Hm w) as [Hv Ho]. unfold on in *. destruct (m w) as [w' [a|e|]]; cbn in *; [by rewrite Hv|by rewrite Hv|done].
Qed.

Lemma ends_modify (p q : core -> Prop) (f : core -> core) (R : save_exn -> world -> Prop) : (forall c, p c -> q (f c)) -> ends (on p) (modify f) (fun _ => on q) R.
Proof using. intros Hf w Hw. by apply Hf. Qed.
Lemma ends_get {A} (p : core -> Prop) (f : core -> A) (R : save_exn -> world -> Prop) : ends (on p) (get f) (fun a => on (fun c => p c /\ a = f c)) R.
Proof using. intros w Hw. by split. Qed.
Lemma ends_check (p : core -> Prop) (r : save_exn -> world -> Prop) b e : (forall c, p c -> b = true -> forall w, vars w = c -> r e w) ->
  ends (on p) (check b e) (fun _ => on (fun c => p c /\ b = false)) r.
Proof using. intros Hb w Hw. destruct b; [by eapply Hb|]. by split. Qed.
Lemma ends_raises {A} (p q : core -> Prop) (r : save_exn -> core -> Prop) (m : io A) : quiet m -> (forall c, p c -> q c) ->
  (forall e c, late e = false -> p c -> r e c) -> ends (on p) m (fun _ => on q) (fun e => on (r e)).
Proof using.
  intros Hm Hq Hr. eapply ends_mono; [by apply ends_quiet|done| |].
  - intros a w. apply Hq.
  - intros e w [Hp Hl]. by apply Hr.
Qed.
(** A check that raises when all is in place for it. *)
Lemma ends_checks (p : core -> Prop) (r : save_exn -> core -> Prop) b e : (forall c, p c -> r e c) ->
  ends (on p) (check b e) (fun _ => on p) (fun e => on (r e)).
Proof using. intros Hr w Hw. destruct b; [by apply Hr|exact Hw]. Qed.

Lemma ends_pre {A} (p p' : core -> Prop) (phi : Prop) (m : io A) Q R : (forall c, p' c -> p c /\ phi) -> (phi -> ends (on p) m Q R) -> ends (on p') m Q R.
Proof using. intros Hp Hm w Hw. destruct (Hp _ Hw) as [Hpw Hphi]. by apply Hm. Qed.

Lemma ends_finally {A} P (body : io A) cleanup Q (R : save_exn -> world -> Prop) Q' (R' : save_exn -> world -> Prop) :
  ends P body Q R -> (forall a, ends (Q a) cleanup (fun _ => Q' a) R') -> (forall e, ends (R e) cleanup (fun _ => R' e) R') ->
  ends P (finally body cleanup) Q' R'.
Proof using.
  intros Hb Hq Hr w Hw. specialize (Hb w Hw). unfold finally. destruct (body w) as [w' [a|e|]]; [| |done].
  - specialize (Hq a w' Hb). by destruct (cleanup w') as [w'' [| |]].
  - specialize (Hr e w' Hb). by destruct (cleanup w') as [w'' [| |]].
Qed.

Lemma split_chunks_concat fuel n data : (0 < n)%nat -> (length data <= fuel)%nat -> concat (split_chunks fuel n data) = data.
Proof using.
  intros Hn. revert data. induction fuel as [|fuel IH]; intros [|x data] Hl; try done; [cbn in Hl; lia|].
  cbn [split_chunks concat]. rewrite IH; [by rewrite take_drop|]. rewrite length_drop. cbn [length] in *. lia.
Qed.

Lemma mkdirs_files (above names : path) (f f' : fs) : mkdirs above names f = Ok f' -> forall q c, f !! q = Some (File c) -> f' !! q = Some (File c).
Proof using.
  revert above f. induction names as [|n names IH]; intros above f; cbn [mkdirs]; [by intros [= <-]|].
  destruct (f !! (above ++ [n])) as [[|c]|] eqn:Hn; [apply IH|done|]. intros Hm q d Hq. eapply IH; [exact Hm|].
  rewrite lookup_insert_ne; [done|]. intros <-. congruence.
Qed.
Lemma mkdirs_total (above names : path) (f : fs) : mkdirs above names f <> OutOfFuel.
Proof using.
  revert above f. induction names as [|n names IH]; intros above f; cbn [mkdirs]; [done|].
  destruct (f !! (above ++ [n])) as [[|c]|]; [apply IH|done|apply IH].
Qed.

Lemma release_ok w : exists w', slot_release clock others deliveries w = (w', Ok tt).
Proof using.
  unfold slot_release, mbind, io_bind, asks. destruct (_held (held_slot w)); [|by eexists].
  unfold redis. destruct (deliver _ _ _). by eexists.
Qed.
Lemma ends_release (p : core -> Prop) (R : save_exn -> world -> Prop) : ends (on p) (slot_release clock others deliveries) (fun _ => on p) R.
Proof using.
  intros w Hw. destruct (calm_release w) as [Hv _]. destruct (release_ok w) as [w' He]. rewrite He in Hv |- *. unfold on in *. cbn in Hv. by rewrite Hv.
Qed.

(** * One upload *)
Section upload.
Context (hinted_size : option Z) (reads : list (option bytes)).
Context (temp root final : path) (f0 : fs).
Hypothesis Htemp : parent temp = staging_dir settings /\ temp <> [] /\ below root temp = false.
Hypothesis Hname : _MEMORY_TEMP_NAME (name_of temp) = true.
Hypothesis Hfinal : below root final = true /\ below root (parent final) = true /\ final <> [].
Abbreviation expected := (expected_size settings hinted_size).

(** The bytes that come: the chunks up to the first empty one. *)
Fixpoint body (reads : list (option bytes)) : bytes :=
  match reads with Some ((_ :: _) as chunk) :: reads => chunk ++ body reads | _ => [] end.

(** The files of others are as they were. *)
Definition frame (f : fs) : Prop := forall q c, q <> temp -> below root q = false -> f0 !! q = Some (File c) -> f !! q = Some (File c).
Definition no_files (f : fs) : Prop := forall q c, below root q = true -> f !! q <> Some (File c).
Definition within_limits (n : Z) : Prop := n <= max_bytes settings /\ forall k, hint hinted_size = Some k -> n <= k.

(** Before the staged file is made, while it holds [b], and when it has its place. *)
Definition before (c : core) : Prop :=
  frame (files c) /\ files c !! temp = None /\ no_files (files c) /\
  preserve_for_recovery c = false /\ canonical_finalized c = false /\ size c = 0 /\ received c = [].
Record staged (b : bytes) (preserve : bool) (c : core) : Prop := {
  st_frame : frame (files c);
  st_temp : files c !! temp = Some (File b);
  st_dir : is_dir (staging_dir settings) (files c) = true;
  st_none : no_files (files c);
  st_preserve : preserve_for_recovery c = preserve;
  st_finalized : canonical_finalized c = false;
  st_count : size c = len b;
  st_received : received c = b;
  st_limits : within_limits (len b) }.
(** What the copy is known to be: checked, and the same when files read back as they were written. *)
Definition copy_of (d b : bytes) : Prop := len d = len b /\ sha256_of d = sha256_of b /\ ((forall n c, read_back n c = c) -> d = b).
Definition moved (b : bytes) (c : core) : Prop :=
  frame (files c) /\ files c !! temp = None /\ (exists d, files c !! final = Some (File d) /\ copy_of d b) /\ canonical_finalized c = true /\
  size c = len b /\ received c = b.
Definition complete (b : bytes) : bool := len b =? expected.
(** What came is an image that can be accepted. *)
Definition acceptable : Prop :=
  0 < len (body reads) /\ (match hint hinted_size with Some n => len (body reads) = n | None => True end) /\ len (body reads) <= max_bytes settings.
(** When [e] is raised before the handler. *)
Definition failed (e : save_exn) (c : core) : Prop :=
  frame (files c) /\
  ((canonical_finalized c = false /\ no_files (files c) /\
    (files c !! temp = None \/ (exists d, files c !! temp = Some (File d)) /\ is_dir (staging_dir settings) (files c) = true) /\
    (preserve_for_recovery c = true -> files c !! temp = Some (File (body reads)) /\ len (body reads) = expected) /\
    placed_error e = false /\ (kept_error e = true -> preserve_for_recovery c = complete (body reads))) \/
   (canonical_finalized c = true /\ files c !! temp = None /\ (exists d, files c !! final = Some (File d) /\ copy_of d (body reads)) /\ acceptable)).

Lemma before_failed e c : late e = false -> before c -> failed e c.
Proof using.
  intros [He1 He2]%late_false (Hf & Ht & Hn & Hp & Hfin & _ & Hr). split; [done|]. left. rewrite He1. split_and!; auto; congruence.
Qed.
Lemma staged_failed b e c : late e = false -> staged b false c -> failed e c.
Proof using.
  intros [He1 He2]%late_false []. split; [done|]. left. rewrite He1. split_and!; eauto; congruence.
Qed.
(** All the bytes are staged. *)
Lemma staged_kept e c : placed_error e = false -> staged (body reads) (complete (body reads)) c -> failed e c.
Proof using.
  intros He []. split; [done|]. left. split_and!; eauto. rewrite st_preserve0. by intros ?%Z.eqb_eq.
Qed.
Lemma moved_failed e c : acceptable -> moved (body reads) c -> failed e c.
Proof using. intros Ha (Hf & Ht & Hfin & Hc & _). split; [done|]. right. auto. Qed.

Lemma parent_neq (q : path) : q <> [] -> parent q <> q.
Proof using. intros Hq He. apply (f_equal length) in He. unfold parent in He. rewrite length_take in He. destruct q; [done|]. cbn in He. lia. Qed.
Lemma dir_insert (p q : path) (n : node) (f : fs) : p <> q -> is_dir p (<[q := n]> f) = is_dir p f.
Proof using. intros Hne. unfold is_dir. destruct p; [done|]. by rewrite lookup_insert_ne. Qed.
Lemma dir_delete (p q : path) (f : fs) : p <> q -> is_dir p (delete q f) = is_dir p f.
Proof using. intros Hne. unfold is_dir. destruct p; [done|]. by rewrite lookup_delete_ne. Qed.

Lemma staged_file b b' p c f : staged b p c -> f = <[temp := File b']> (files c) ->
  frame f /\ f !! temp = Some (File b') /\ is_dir (staging_dir settings) f = true /\ no_files f.
Proof using All.
  intros [] ->. destruct Htemp as (Hpar & Hne & Hbelow). split_and!.
  - intros q d Hq Hb Hd. rewrite lookup_insert_ne by done. by apply st_frame0.
  - apply lookup_insert_eq.
  - rewrite dir_insert; [done|]. rewrite <-Hpar. by apply parent_neq.
  - intros q d Hq. rewrite lookup_insert_ne; [by apply st_none0|]. intros ->. congruence.
Qed.

Lemma append_staged b p c chunk : staged b p c -> append_bytes temp chunk (files c) = <[temp := File (b ++ chunk)]> (files c).
Proof using. intros []. unfold append_bytes. by rewrite st_temp0. Qed.

(** A chunk is written while [received] has it already. *)
Definition hashed (b chunk : bytes) (c : core) : Prop := exists c0, staged b false c0 /\ c = c0 <| received := b ++ chunk |>.
Definition written (b chunk : bytes) (c : core) : Prop := staged (b ++ chunk) false (c <| size := len (b ++ chunk) |>).
Lemma ends_write b chunk : within_limits (len (b ++ chunk)) ->
  ends (on (hashed b chunk)) (write faults temp chunk) (fun _ => on (written b chunk)) (fun e => on (failed e)).
Proof using All.
  intros Hlim w (c0 & Hc & Hw). unfold write, next_call, mbind, io_bind. cbn -[append_bytes].
  assert (Hfile : forall b', files (vars w) = files c0 -> append_bytes temp b' (files (vars w)) = <[temp := File (b ++ b')]> (files c0))
    by (intros b' ->; by eapply append_staged).
  assert (Hf0 : files (vars w) = files c0) by (by rewrite Hw).
  destruct (faults (calls w)) as [k|]; cbn -[append_bytes]; unfold on; cbn -[append_bytes]; rewrite Hfile by done.
  - destruct (staged_file b (b ++ take k chunk) false c0 _ Hc eq_refl) as (H1 & H2 & H3 & H4). destruct Hc.
    destruct (late_false _ (late_interrupted (calls w))) as [He1 He2]. split; [exact H1|]. rewrite Hw. cbn. left. rewrite He1. split_and!; eauto; congruence.
  - destruct (staged_file b (b ++ chunk) false c0 _ Hc eq_refl) as (H1 & H2 & H3 & H4). destruct Hc. unfold written. rewrite Hw. by split.
Qed.

Lemma ends_receive rest b : b ++ body rest = body reads ->
  ends (on (staged b false)) (receive settings clock others deliveries disks faults hinted_size temp rest)
    (fun _ => on (staged (body reads) false)) (fun e => on (failed e)).
Proof using All.
  revert b. induction rest as [|[[|x chunk]|] rest IH]; intros b Hb; cbn [receive body] in *.
  - rewrite app_nil_r in Hb. subst. by apply ends_ret.
  - rewrite app_nil_r in Hb. subst. by apply ends_ret.
  - assert (Hbf : forall e c, late e = false -> staged b false c -> failed e c) by (intros e c; apply staged_failed).
    set (ch := x :: chunk) in *.
    eapply ends_bind; [apply (ends_get (staged b false) size)|]. intros size0.
    eapply ends_bind; [apply (ends_check _ (fun e => on (failed e)))|]; [intros c [Hc _] _ w <-; apply Hbf; [by apply not_late; intros ? ? [= <- <-]; vm_compute|done]|]. intros [].
    apply (ends_pre (staged b false) _ (size0 = len b /\ within_limits (len (b ++ ch)))).
    { intros c [[Hc ->] Hg]. split; [done|]. destruct Hc. rewrite st_count0 in Hg |- *. split; [done|].
      assert (Hlen : len (b ++ ch) = len b + len ch) by (unfold len; rewrite length_app; lia). rewrite Hlen.
      apply orb_false_iff in Hg as [Hm%Z.ltb_ge Hh]. split; [done|]. intros k Hk. rewrite Hk in Hh. by apply Z.ltb_ge in Hh. }
    intros [-> Hlim].
    eapply ends_bind; [apply (ends_raises (staged b false) (staged b false) failed); [apply calm_capacity|done|exact Hbf]|]. intros d.
    eapply ends_bind; [apply (ends_modify _ (hashed b ch))|].
    { intros c Hc. exists c. split; [done|]. destruct Hc. by rewrite st_received0. }
    intros []. eapply ends_bind; [by apply ends_write|]. intros [].
    eapply ends_bind; [apply (ends_modify _ (staged (b ++ ch) false))|].
    { intros c Hc. unfold written in Hc. replace (len b + len ch) with (len (b ++ ch)) by (unfold len; rewrite length_app; lia). exact Hc. }
    intros []. assert (Hbf' : forall e c, late e = false -> staged (b ++ ch) false c -> failed e c) by (intros e c; apply staged_failed).
    eapply ends_bind; [apply (ends_raises (staged (b ++ ch) false) (staged (b ++ ch) false) failed); [|done|exact Hbf']|].
    { destruct (_ || _); [apply calm_fallible|apply calm_ret]. }
    intros []. eapply ends_bind; [apply (ends_raises (staged (b ++ ch) false) (staged (b ++ ch) false) failed); [apply calm_refresh|done|exact Hbf']|].
    intros []. apply IH. by rewrite <-app_assoc.
  - rewrite app_nil_r in Hb. subst b. eapply ends_bind; [apply (ends_raises (staged (body reads) false) (staged (body reads) false) failed);
      [apply calm_next|done|intros e c; apply staged_failed]|].
    intros n. apply ends_raises; [apply calm_raise, late_interrupted|done|]. intros e c. apply staged_failed.
Qed.

(** Opening the staged file: it is new. *)
Lemma ends_open : ends (on before) (open_xb faults temp) (fun _ => on (staged [] false)) (fun e => on (failed e)).
Proof using All.
  unfold open_xb. eapply ends_bind; [apply (ends_raises before before failed); [apply calm_fallible|done|apply before_failed]|].
  intros [] w Hw. unfold on_files, update. pose proof Hw as (Hf & Ht & Hn & Hp & Hfin & Hs & Hr). destruct Htemp as (Hpar & Hne & Hbelow).
  destruct (create_file temp [] (files (vars w))) as [f'|e|] eqn:Hc; [|apply before_failed; [apply late_os|done]|by apply create_file_total in Hc].
  apply create_file_Ok in Hc as (Hdir & _ & ->). unfold on. cbn. split; cbn; try done.
  - intros q d Hq Hb Hd. rewrite lookup_insert_ne by done. by apply Hf.
  - apply lookup_insert_eq.
  - rewrite dir_insert; [by rewrite <-Hpar|]. rewrite <-Hpar. by apply parent_neq.
  - intros q d Hq. rewrite lookup_insert_ne; [by apply Hn|]. intros ->. congruence.
  - change (len []) with 0. split; [unfold max_bytes; lia|]. intros k. unfold hint. destruct hinted_size as [n|]; [|done].
    destruct (Z.ltb_spec 0 n); [|done]. intros [= <-]. lia.
Qed.

(** All the bytes that came are staged; the file is kept if they are as many as were expected. *)
Lemma ends_stage : ends (on before) (stage settings clock others deliveries disks faults hinted_size reads temp)
  (fun _ => on (fun c => staged (body reads) (complete (body reads)) c /\ acceptable))
  (fun e => on (failed e)).
Proof using All.
  unfold stage. set (all := body reads).
  assert (Hsf : forall e c, late e = false -> staged all false c -> failed e c) by (intros e c; apply staged_failed).
  eapply ends_bind; [apply (ends_raises before before failed); [apply calm_capacity|done|apply before_failed]|]. intros ?.
  eapply ends_bind; [apply (ends_raises before before failed); [apply calm_fallible|done|apply before_failed]|]. intros ?.
  eapply ends_bind; [apply ends_open|]. intros ?.
  eapply ends_bind; [by apply (ends_receive reads [])|]. intros ?. fold all.
  eapply ends_bind; [apply (ends_raises (staged all false) (staged all false) failed); [apply calm_monotonic|done|exact Hsf]|]. intros t0.
  do 2 (eapply ends_bind; [apply (ends_raises (staged all false) (staged all false) failed); [apply calm_fallible|done|exact Hsf]|]; intros ?).
  eapply ends_bind; [apply (ends_raises (staged all false) (staged all false) failed); [apply calm_fallible|done|exact Hsf]|]. intros ?.
  eapply ends_bind; [apply (ends_raises (staged all false) (staged all false) failed); [apply calm_monotonic|done|exact Hsf]|]. intros t1.
  eapply ends_bind; [apply (ends_modify _ (staged all (complete all)))|].
  { intros c []. split; cbn; try done. by rewrite st_count0. }
  intros ?. eapply ends_bind; [apply (ends_checks (staged all (complete all)) failed); intros c; by apply staged_kept|]. intros ?.
  eapply ends_bind; [apply (ends_get (staged all (complete all)) size)|]. intros total.
  eapply ends_bind; [apply (ends_check _ (fun e => on (failed e))); by intros c [Hc _] _ w <-; apply staged_kept|]. intros ?.
  eapply ends_mono; [apply (ends_check (fun c => staged all (complete all) c /\ total = len all /\ 0 < len all) (fun e => on (failed e))); by intros c [Hc _] _ w <-; apply staged_kept| | |done].
  - intros w [[Hc ->] Hpos%Z.leb_gt]. destruct (Hc). unfold on. rewrite <-st_count0. auto.
  - intros [] w [(Hc & -> & Hpos) Hh]. split; [done|]. split; [done|]. split; [|destruct Hc; by destruct st_limits0].
    destruct (hint hinted_size); [|done]. by apply negb_false_iff, Z.eqb_eq in Hh.
Qed.

(** * The copy to another file system *)
Section copy.
Variable b : bytes.
Hypothesis Hall : b = body reads.
Variable dest : path.
Hypothesis Hdest : below root dest = true /\ parent dest = parent final /\ dest <> [] /\ dest <> final.
(** Under the root there is no file but the copy. *)
Definition copying (P : option node -> Prop) (c : core) : Prop :=
  frame (files c) /\ files c !! temp = Some (File b) /\ is_dir (staging_dir settings) (files c) = true /\
  (forall q d, below root q = true -> q <> dest -> files c !! q <> Some (File d)) /\
  (preserve_for_recovery c = complete b /\ canonical_finalized c = false /\ size c = len b /\ received c = b /\ within_limits (len b)) /\
  P (files c !! dest).

Lemma dest_neq : dest <> temp.
Proof using All. intros ->. destruct Hdest as [Hb _], Htemp as (_ & _ & Hb'). congruence. Qed.
Lemma staging_neq : staging_dir settings <> dest.
Proof using All.
  destruct Htemp as (<- & Hne & Hb'). destruct Hdest as [Hb _]. intros He. rewrite <-He in Hb.
  rewrite (path_split temp Hne), (below_trans root (parent temp)) in Hb'; [done|done|]. apply below_spec. by eexists.
Qed.
Lemma staged_copying c : staged b (complete b) c -> copying (fun n => forall d, n <> Some (File d)) c.
Proof using All. intros []. split_and!; try done; [|intros d; apply st_none0; by destruct Hdest]. intros q d Hq _. by apply st_none0. Qed.
Lemma copying_staged P c : copying P c -> (forall d, files c !! dest <> Some (File d)) -> staged b (complete b) c.
Proof using All.
  intros (H1 & H2 & H3 & H4 & (H5 & H6 & H7 & H8 & H9) & _) Hno. split; try done.
  intros q d Hq. destruct (decide (q = dest)) as [->|Hne]; [apply Hno|by apply H4].
Qed.
Lemma copying_any P c : copying P c -> copying (fun _ => True) c.
Proof using. intros (H1 & H2 & H3 & H4 & H5 & _). exact (conj H1 (conj H2 (conj H3 (conj H4 (conj H5 I))))). Qed.
(** A change of the copy alone. *)
Lemma copying_insert P (Q : option node -> Prop) c n f : copying P c -> f = <[dest := n]> (files c) -> Q (Some n) -> copying Q (c <| files := f |>).
Proof using All.
  intros (H1 & H2 & H3 & H4 & H5 & _) -> HQ. pose proof dest_neq. pose proof staging_neq. destruct Hdest as [Hb _]. unfold copying. cbn. split_and!; try apply H5.
  - intros q d Hq Hbq Hd. rewrite lookup_insert_ne; [by apply H1|]. intros <-. congruence.
  - by rewrite lookup_insert_ne.
  - by rewrite dir_insert.
  - intros q d Hq Hne. rewrite lookup_insert_ne by done. by apply H4.
  - by rewrite lookup_insert_eq.
Qed.
Lemma copying_delete P c : copying P c -> staged b (complete b) (c <| files := delete dest (files c) |>).
Proof using All.
  intros (H1 & H2 & H3 & H4 & (H5 & H6 & H7 & H8 & H9) & _). pose proof dest_neq. pose proof staging_neq. destruct Hdest as [Hb _]. split; cbn; try done.
  - intros q d Hq Hbq Hd. rewrite lookup_delete_ne; [by apply H1|]. intros <-. congruence.
  - by rewrite lookup_delete_ne.
  - by rewrite dir_delete.
  - intros q d Hq. destruct (decide (q = dest)) as [->|Hne]; [by rewrite lookup_delete_eq|]. rewrite lookup_delete_ne by done. by apply H4.
Qed.

Definition broken (e : save_exn) (c : core) : Prop := copying (fun _ => True) c /\ placed_error e = false.
Lemma early_broken P e c : late e = false -> copying P c -> broken e c.
Proof using. intros [_ He]%late_false Hc. split; [by eapply copying_any|done]. Qed.
Definition holds_copy (d : bytes) : core -> Prop := copying (fun n => n = Some (File d)).
Lemma holds_broken d e c : late e = false -> holds_copy d c -> broken e c.
Proof using. apply early_broken. Qed.

Lemma ends_copy_chunk copied chunk : ends (on (holds_copy copied)) (copy_chunk faults dest copied chunk)
  (fun d => on (fun c => holds_copy d c /\ d = copied ++ chunk)) (fun e => on (broken e)).
Proof using All.
  intros w Hw. unfold copy_chunk, write, next_call, mbind, io_bind. cbn -[append_bytes].
  assert (Happ : forall d, append_bytes dest d (files (vars w)) = <[dest := File (copied ++ d)]> (files (vars w))).
  { intros d. destruct Hw as (_ & _ & _ & _ & _ & Hd). unfold append_bytes. by rewrite Hd. }
  destruct (faults (calls w)) as [k|]; cbn -[append_bytes]; unfold on; cbn -[append_bytes]; rewrite Happ.
  - apply (early_broken (fun _ => True)); [apply late_interrupted|]. by eapply copying_insert.
  - split; [|done]. by eapply copying_insert.
Qed.

(** What is in place after the copy. *)
Definition placed (c : core) : Prop :=
  frame (files c) /\ files c !! temp = Some (File b) /\ is_dir (staging_dir settings) (files c) = true /\
  (exists d, files c !! final = Some (File d) /\ copy_of d b) /\ size c = len b /\ received c = b.

Lemma ends_copy_open : ends (on (copying (fun n => forall d, n <> Some (File d)))) (open_xb faults dest) (fun _ => on (holds_copy [])) (fun e => on (broken e)).
Proof using All.
  unfold open_xb. set (empty := copying (fun n => forall d, n <> Some (File d))).
  eapply ends_bind; [apply (ends_raises empty empty broken); [apply calm_fallible|done|apply early_broken]|].
  intros ? w Hw. unfold on_files, update. destruct (create_file dest [] (files (vars w))) as [f'|e|] eqn:Hc; [|by eapply early_broken; [apply late_os|]|by apply create_file_total in Hc].
  apply create_file_Ok in Hc as (_ & _ & ->). exact (copying_insert _ (fun n => n = Some (File [])) _ (File []) _ Hw eq_refl eq_refl).
Qed.
Lemma ends_copy_loop chunks : ends (on (holds_copy [])) (for_each (copy_chunk faults dest) [] chunks)
  (fun d => on (fun c => holds_copy d c /\ d = concat chunks)) (fun e => on (broken e)).
Proof using All.
  assert (Hstart : forall w : world, on (holds_copy []) w -> on (fun c => holds_copy [] c /\ [] = concat (A := Z) []) w) by (intros w Hw; by split).
  eapply ends_mono; [|exact Hstart|intros a w Ha; exact Ha|intros e w He; exact He].
  apply (ends_for (fun done_ d => on (fun c => holds_copy d c /\ d = concat done_))).
  intros done_ x rest d Hl. apply (ends_pre (holds_copy d) _ (d = concat done_)); [done|]. intros ->.
  eapply ends_mono; [apply ends_copy_chunk|done| |done]. intros a w [Ha ->]. split; [done|]. rewrite concat_app. cbn. by rewrite app_nil_r.
Qed.
Lemma ends_copied content : ((forall n c, read_back n c = c) -> content = b) -> ends (on (copying (fun n => forall d, n <> Some (File d))))
  (do! _ := open_xb faults dest in
   do! copied := for_each (copy_chunk faults dest) [] (split_chunks (length content) (Z.to_nat (chunk_size settings)) content) in
   do! _ := fallible faults in
   do! _ := fallible faults in
   do! _ := check (negb (len copied =? len b) || bool_decide (sha256_of copied <> sha256_of b)) copy_integrity_failed in
   do! _ := fallible faults in
   on_files (replace_file device dest final))
  (fun _ => on (fun c => placed c /\ files c !! dest = None)) (fun e => on (broken e)).
Proof using All.
  intros Hcontent.
  eapply ends_bind; [apply ends_copy_open|].
  intros ?. eapply ends_bind; [apply ends_copy_loop|].
  intros copied. cbn beta. apply (ends_pre (holds_copy content) _ (copied = content)).
  { intros c [Hc ->]. rewrite split_chunks_concat in Hc |- *; [done|unfold chunk_size; lia..]. }
  intros ->. do 2 (eapply ends_bind; [apply (ends_raises (holds_copy content) (holds_copy content) broken); [apply calm_fallible|done|apply holds_broken]|]; intros ?).
  eapply ends_bind; [apply (ends_check (holds_copy content) (fun e => on (broken e)))|].
  { intros c Hc _ w <-. split; [by eapply copying_any|]. vm_compute. reflexivity. }
  intros ?. cbn beta. apply (ends_pre (holds_copy content) _ (copy_of content b)).
  { intros c [Hc [Hl%negb_false_iff%Z.eqb_eq Hd%bool_decide_eq_false]%orb_false_iff]. split; [done|]. split; [done|]. split; [|done].
    destruct (decide (sha256_of content = sha256_of b)); [done|]. by destruct Hd. }
  intros Hcopy. eapply ends_bind; [apply (ends_raises (holds_copy content) (holds_copy content) broken); [apply calm_fallible|done|apply holds_broken]|].
  intros ? w Hw. unfold on_files, update. destruct (replace_file device dest final (files (vars w))) as [f'|e|] eqn:Hr; [|eapply holds_broken; [apply late_os|done]|by apply replace_file_total in Hr].
  apply replace_file_Ok in Hr as (c & Hc & _ & ->). pose proof Hw as (_ & _ & _ & _ & _ & Hd). rewrite Hd in Hc. injection Hc as <-.
  apply copying_delete in Hw as []. cbn in *. destruct Htemp as (Hpar & Hne & Hbelow), Hfinal as (Hbf & _ & Hnf), Hdest as (_ & _ & _ & Hdf).
  assert (final <> temp) by (intros ->; congruence). unfold on, placed. cbn. split_and!; try done.
  - intros q d Hq Hbq Hq0. rewrite lookup_insert_ne; [by apply st_frame0|]. intros <-. congruence.
  - by rewrite lookup_insert_ne.
  - rewrite dir_insert; [done|]. rewrite <-Hpar. intros He. rewrite <-He in Hbf.
    rewrite (path_split temp Hne), (below_trans root (parent temp)) in Hbelow; [done|done|]. apply below_spec. by eexists.
  - exists content. by rewrite lookup_insert_eq.
  - rewrite lookup_insert_ne by done. apply lookup_delete_eq.
Qed.

Lemma exists_dest (f : fs) : exists_ dest f = bool_decide (is_Some (f !! dest)).
Proof using All. destruct Hdest as (_ & _ & Hne & _). by destruct dest. Qed.
Definition discard : io unit :=
  do! present := get (fun c => exists_ dest (files c)) in if (present : bool) then on_files (unlink dest) else mret tt.
Lemma discard_none : ends (on (fun c => placed c /\ files c !! dest = None)) discard (fun _ => on placed) (fun e => on (failed e)).
Proof using All.
  intros w [Hw Hd]. unfold discard, get, asks, mbind, io_bind. rewrite exists_dest, Hd. rewrite bool_decide_false by (by intros [? ?]). done.
Qed.
Lemma discard_any e : ends (on (broken e)) discard (fun _ => on (failed e)) (fun e => on (failed e)).
Proof using All.
  intros w [Hw He]. unfold discard, get, asks, mbind, io_bind. rewrite exists_dest.
  assert (Hfail : forall e c, placed_error e = false -> staged b (complete b) c -> failed e c) by (rewrite Hall; apply staged_kept).
  case_bool_decide as Hd.
  - unfold on_files, update, unlink. destruct (files (vars w) !! dest) as [[|d]|] eqn:Hn; [|apply Hfail; [done|]; by eapply copying_delete|by destruct Hd].
    unfold on. apply Hfail; [apply (late_false _ (late_os _))|]. eapply copying_staged; [done|]. intros d. congruence.
  - unfold on, mret, io_ret. apply Hfail; [done|]. eapply copying_staged; [done|]. intros d Hn. apply Hd. rewrite Hn. by eexists.
Qed.
End copy.

Lemma placed_unlinked b c : placed b c -> moved b (c <| files := snd (_safe_unlink_memory_staging temp (staging_dir settings) (name_of temp) (files c)) |>
   <| canonical_finalized := true |>).
Proof using All.
  intros (H1 & H2 & H3 & H4 & H5 & H6). destruct Htemp as (Hpar & Hne & Hbelow), Hfinal as (Hbf & _ & Hnf).
  assert (Hun : _safe_unlink_memory_staging temp (staging_dir settings) (name_of temp) (files c) = (true, delete temp (files c))).
  { unfold _safe_unlink_memory_staging. rewrite bool_decide_false by (intros Hx; by apply Hx). rewrite Hname. cbn [negb orb].
    assert (exists_ (staging_dir settings) (files c) = true) as ->.
    { unfold exists_, is_dir in *. destruct (staging_dir settings); [done|]. apply bool_decide_eq_true in H3. rewrite H3. by apply bool_decide_true. }
    assert (exists_ temp (files c) = true) as ->.
    { unfold exists_. destruct temp; [done|]. rewrite H2. by apply bool_decide_true. }
    assert (below (staging_dir settings) temp = true) as ->.
    { apply below_spec. exists [name_of temp]. rewrite <-Hpar. by apply path_split. }
    unfold is_file. by rewrite H2. }
  rewrite Hun. unfold moved. cbn. assert (final <> temp) by (intros ->; congruence). split_and!; try done.
  - intros q d Hq Hb Hd. rewrite lookup_delete_ne by done. by apply H1.
  - apply lookup_delete_eq.
  - destruct H4 as (d & Hd & Hcopy). exists d. by rewrite lookup_delete_ne.
Qed.

Lemma ends_copy b : b = body reads ->
  ends (on (staged b (complete b))) (_copy_memory_upload_to_final settings sha256_of device uuid_text faults read_back temp final (len b) (sha256_of b))
    (fun _ => on (placed b)) (fun e => on (failed e)).
Proof using All.
  intros Hall. assert (Hfail : forall e c, late e = false -> staged b (complete b) c -> failed e c)
    by (rewrite Hall; intros e c [_ He]%late_false; by apply staged_kept).
  unfold _copy_memory_upload_to_final. eapply ends_bind; [apply (ends_raises (staged b (complete b)) (staged b (complete b)) failed); [apply calm_uuid|done|exact Hfail]|].
  intros uuid. cbn zeta. set (dest := parent final ++ [_]).
  assert (Hdest : below root dest = true /\ parent dest = parent final /\ dest <> [] /\ dest <> final).
  { destruct Hfinal as (Hbf & Hbp & Hnf). unfold dest. split_and!.
    - apply (below_trans _ _ _ Hbp). apply below_spec. by eexists.
    - apply parent_snoc.
    - by destruct (parent final).
    - intros He. apply (f_equal name_of) in He. rewrite name_snoc in He. apply (f_equal length) in He. rewrite !length_app in He.
      change (length (lit ".")) with 1%nat in He. lia. }
  eapply ends_finally; [|intros ?; by eapply discard_none|intros ?; by eapply discard_any].
  eapply ends_bind; [apply (ends_raises (staged b (complete b)) (staged b (complete b)) (broken b dest)); [apply calm_next|done|]|].
  { intros e c He Hc. eapply early_broken; [done|]. by eapply staged_copying. }
  intros n w Hw. pose proof (staged_copying b Hall dest Hdest _ Hw) as Hc. unfold mbind at 1, io_bind at 1, asks.
  unfold read_bytes. pose proof Hw as []. rewrite st_temp0. cbn [map_err]. apply (ends_copied b Hall dest Hdest (read_back n b)); [by intros Hr|done].
Qed.

(** The staged bytes get their place, by renaming or by the copy. *)
Lemma staged_renamed b p c f : staged b p c -> replace_file device temp final (files c) = Ok f ->
  moved b (c <| files := f |> <| canonical_finalized := true |>).
Proof using All.
  intros [] (d & Hd & _ & ->)%replace_file_Ok. rewrite st_temp0 in Hd. injection Hd as <-.
  destruct Htemp as (Hpar & Hne & Hbelow), Hfinal as (Hbf & _ & Hnf). assert (final <> temp) by (intros ->; congruence).
  unfold moved. cbn. split_and!; try done.
  - intros q d Hq Hb Hd. rewrite lookup_insert_ne, lookup_delete_ne; [by apply st_frame0|done|]. intros <-. congruence.
  - rewrite lookup_insert_ne by done. apply lookup_delete_eq.
  - exists b. by rewrite lookup_insert_eq.
Qed.

Lemma ends_place b decision : b = body reads ->
  ends (on (staged b (complete b)))
    (if bool_decide (finalization_strategy decision = lit "atomic_rename") then
       do! _ := fallible faults in on_files (replace_file device temp final)
     else
       do! _ := _copy_memory_upload_to_final settings sha256_of device uuid_text faults read_back temp final (len b) (sha256_of b) in
       modify (fun c => c <| files := snd (_safe_unlink_memory_staging temp (staging_dir settings) (name_of temp) (files c)) |>))
    (fun _ => on (fun c => moved b (c <| canonical_finalized := true |>))) (fun e => on (failed e)).
Proof using All.
  intros Hall. assert (Hfail : forall e c, late e = false -> staged b (complete b) c -> failed e c)
    by (rewrite Hall; intros e c [_ He]%late_false; by apply staged_kept).
  destruct (bool_decide (finalization_strategy decision = _)).
  - eapply ends_bind; [apply (ends_raises (staged b (complete b)) (staged b (complete b)) failed); [apply calm_fallible|done|exact Hfail]|].
    intros ? w Hw. unfold on_files, update. destruct (replace_file device temp final (files (vars w))) as [f'|e|] eqn:Hr; [|apply Hfail; [apply late_os|done]|by apply replace_file_total in Hr].
    by eapply staged_renamed.
  - eapply ends_bind; [by apply ends_copy|]. intros ?. apply ends_modify. intros c Hc. by apply placed_unlinked.
Qed.

Lemma ends_stat b : b = body reads -> acceptable ->
  ends (on (moved b)) (asks (fun w : world => map_err OsFailed (FileSystem.st_size final (files (vars w))))) (fun _ => on (moved b)) (fun e => on (failed e)).
Proof using All.
  intros Hall Ha w Hw. unfold asks. destruct (FileSystem.st_size final (files (vars w))) as [n|e|] eqn:Hs; cbn; [exact Hw|subst b; by apply moved_failed|].
  unfold FileSystem.st_size in Hs. by destruct (files (vars w) !! final) as [[|]|].
Qed.
Lemma ends_finalize b : b = body reads -> acceptable ->
  ends (on (staged b (complete b))) (finalize settings sha256_of device uuid_text clock others deliveries disks faults read_back temp final)
    (fun _ => on (moved b)) (fun e => on (failed e)).
Proof using All.
  intros Hall Ha. assert (Hfail : forall e c, late e = false -> staged b (complete b) c -> failed e c)
    by (rewrite Hall; intros e c [_ He]%late_false; by apply staged_kept).
  assert (Hmoved : forall e c, moved b c -> failed e c) by (rewrite Hall; intros e c; by apply moved_failed).
  assert (Hdone : forall e c, late e = false -> moved b c -> failed e c) by (intros e c _; apply Hmoved).
  unfold finalize. eapply ends_bind; [apply (ends_get (staged b (complete b)) size)|]. intros total.
  apply (ends_pre (staged b (complete b)) _ (total = len b)); [intros c [Hc ->]; by destruct (Hc)|]. intros ->.
  eapply ends_bind; [apply (ends_get (staged b (complete b)) received)|]. intros data.
  apply (ends_pre (staged b (complete b)) _ (data = b)); [intros c [Hc ->]; by destruct (Hc)|]. intros ->.
  eapply ends_bind; [apply (ends_raises (staged b (complete b)) (staged b (complete b)) failed); [apply calm_fallible|done|exact Hfail]|]. intros ?.
  eapply ends_bind; [apply (ends_raises (staged b (complete b)) (staged b (complete b)) failed); [apply calm_monotonic|done|exact Hfail]|]. intros t0.
  eapply ends_bind; [apply (ends_raises (staged b (complete b)) (staged b (complete b)) failed); [apply calm_capacity|done|exact Hfail]|]. intros decision.
  eapply ends_bind; [apply (ends_raises (staged b (complete b)) (staged b (complete b)) failed); [apply calm_monotonic|done|exact Hfail]|]. intros t1.
  eapply ends_bind; [by apply ends_place|]. intros ?. eapply ends_bind; [apply (ends_modify _ (moved b)); intros c Hc; exact Hc|]. intros ?.
  eapply ends_bind; [apply (ends_raises (moved b) (moved b) failed); [apply calm_monotonic|done|exact Hdone]|]. intros t2.
  eapply ends_bind; [by apply ends_stat|].
  intros stat_size. eapply ends_bind; [apply (ends_get (moved b))|]. intros regular. cbn beta.
  apply (ends_pre (moved b) _ True); [by intros c [Hc _]|]. intros _.
  eapply ends_bind; [apply (ends_checks (moved b) failed); intros c; apply Hmoved|]. intros ?.
  eapply ends_bind; [apply (ends_raises (moved b) (moved b) failed); [apply calm_next|done|exact Hdone]|]. intros permitted.
  eapply ends_bind; [apply (ends_checks (moved b) failed); intros c; apply Hmoved|]. intros ?.
  do 2 (eapply ends_bind; [apply (ends_raises (moved b) (moved b) failed); [apply calm_fallible|done|exact Hdone]|]; intros ?).
  eapply ends_bind; [apply (ends_raises (moved b) (moved b) failed); [apply calm_monotonic|done|exact Hdone]|]. intros t3.
  eapply ends_bind; [apply (ends_checks (moved b) failed); intros c; apply Hmoved|]. intros ?.
  apply ends_raises; [apply calm_refresh|done|exact Hdone].
Qed.

(** * The handler *)
Definition left_behind (e : save_exn) (c : core) : Prop :=
  frame (files c) /\
  ((files c !! temp = None /\ (exists d, files c !! final = Some (File d) /\ copy_of d (body reads)) /\ acceptable) \/
   (files c !! temp = Some (File (body reads)) /\ len (body reads) = expected /\ no_files (files c) /\ placed_error e = false) \/
   (files c !! temp = None /\ no_files (files c) /\ placed_error e = false /\ (kept_error e = true -> len (body reads) <> expected))).

Lemma safe_remove_root (f : fs) : no_files f -> frame f ->
  frame (safe_remove root f) /\ no_files (safe_remove root f) /\ safe_remove root f !! temp = f !! temp.
Proof using All.
  intros Hno Hf. destruct Htemp as (_ & _ & Hbelow). unfold safe_remove. destruct (exists_ root f); [|done].
  destruct (is_dir root f) eqn:Hdir.
  - split_and!.
    + intros q d Hq Hb Hd. rewrite rmtree_lookup, Hb. by apply Hf.
    + intros q d Hq. rewrite rmtree_lookup, Hq. done.
    + by rewrite rmtree_lookup, Hbelow.
  - split_and!.
    + intros q d Hq Hb Hd. rewrite lookup_delete_ne; [by apply Hf|]. intros <-. by rewrite below_refl in Hb.
    + intros q d Hq. destruct (decide (q = root)) as [->|Hne]; [by rewrite lookup_delete_eq|]. rewrite lookup_delete_ne by done. by apply Hno.
    + rewrite lookup_delete_ne; [done|]. intros <-. by rewrite below_refl in Hbelow.
Qed.

Lemma unlink_staged (f : fs) : frame f -> no_files f -> (f !! temp = None \/ (exists d, f !! temp = Some (File d)) /\ is_dir (staging_dir settings) f = true) ->
  let f' := snd (_safe_unlink_memory_staging temp (staging_dir settings) (name_of temp) f) in frame f' /\ no_files f' /\ f' !! temp = None.
Proof using All.
  intros Hf Hno Ht. unfold _safe_unlink_memory_staging. rewrite bool_decide_false by (intros Hx; by apply Hx). rewrite Hname. cbn [negb orb].
  destruct Htemp as (Hpar & Hne & Hbelow). destruct Ht as [Ht|[[d Ht] Hdir]].
  - assert (exists_ temp f = false) as -> by (unfold exists_; destruct temp; [done|]; rewrite Ht; apply bool_decide_false; by intros [? ?]).
    cbn [negb orb]. rewrite orb_true_r. done.
  - assert (exists_ (staging_dir settings) f = true) as ->.
    { unfold exists_, is_dir in *. destruct (staging_dir settings); [done|]. apply bool_decide_eq_true in Hdir. rewrite Hdir. by apply bool_decide_true. }
    assert (exists_ temp f = true) as -> by (unfold exists_; destruct temp; [done|]; rewrite Ht; by apply bool_decide_true).
    assert (below (staging_dir settings) temp = true) as ->.
    { apply below_spec. exists [name_of temp]. rewrite <-Hpar. by apply path_split. }
    unfold is_file. rewrite Ht. cbn. split_and!.
    + intros q e Hq Hb He. rewrite lookup_delete_ne by done. by apply Hf.
    + intros q e Hq. rewrite lookup_delete_ne; [by apply Hno|]. intros <-. congruence.
    + apply lookup_delete_eq.
Qed.

Lemma ends_clean_up e R : ends (on (failed e)) (clean_up settings temp root) (fun _ => on (left_behind e)) R.
Proof using All.
  apply ends_modify. intros c (Hf & Hcase). destruct Hcase as [(Hfin & Hno & Ht & Hp & He & Hk)|(Hfin & Ht & Hplace & Ha)]; rewrite Hfin.
  - destruct (preserve_for_recovery c) eqn:Hpres; cbn [negb andb].
    + destruct (Hp eq_refl) as [Htemp' Hlen]. split; [done|]. right. left. auto.
    + destruct (unlink_staged (files c) Hf Hno Ht) as (H1 & H2 & H3). cbn zeta in *.
      destruct (safe_remove_root _ H2 H1) as (H4 & H5 & H6). unfold left_behind. cbn. split; [done|]. right. right. split; [congruence|].
      split_and!; [done|done|]. intros Hke. specialize (Hk Hke). unfold complete in Hk. intros Hl. symmetry in Hk. apply Z.eqb_neq in Hk. done.
  - rewrite andb_false_r. split; [done|]. left. auto.
Qed.

(** * With the slot *)
Lemma ends_with_slot {A} (slot : MemoryUploadSlot) (m : io A) (q : core -> Prop) :
  ends (on before) m (fun _ => on q) (fun e => on (failed e)) ->
  ends (on before) (with_slot clock others deliveries slot m) (fun _ => on q) (fun e => on (failed e)).
Proof using All.
  intros Hm. unfold with_slot. eapply ends_bind; [by apply (ends_raises before before failed); [|done|apply before_failed]|]. intros ?.
  eapply ends_bind; [apply (ends_raises before before failed); [apply calm_acquire|done|apply before_failed]|]. intros ?.
  eapply ends_finally; [exact Hm| |]; intros ?; apply ends_release.
Qed.

Lemma ends_mkdir p : below temp p = false -> ends (on before) (on_files (mkdir p)) (fun _ => on before) (fun e => on (fun c => before c /\ late e = false)).
Proof using All.
  intros Hp w Hw. unfold on_files, update. destruct (mkdir p (files (vars w))) as [f'|e|] eqn:Hm; [|done|by destruct (mkdirs_total [] p (files (vars w)))].
  destruct Hw as (H1 & H2 & H3 & H4). unfold on, before. cbn. split_and!; try apply H4.
  - intros q d Hq Hb Hd. eapply mkdirs_files; [done|]. by apply H1.
  - by rewrite (mkdir_lookup _ _ _ _ Hm), Hp.
  - intros q d Hq. rewrite (mkdir_lookup _ _ _ _ Hm). destruct (_ && _); [done|]. by apply H3.
Qed.
End upload.

(** * The slot is not kept *)
Definition freed (w w' : world) : Prop := _held (held_slot w) = false -> _held (held_slot w') = false.
#[local] Instance freed_preorder : PreOrder freed.
Proof using. split; [intros w Hw; exact Hw|]. intros a b c Hab Hbc Ha. by apply Hbc, Hab. Qed.
Lemma release_frees w : _held (held_slot (fst (slot_release clock others deliveries w))) = false.
Proof using.
  unfold slot_release, mbind, io_bind, asks. destruct (_held (held_slot w)) eqn:Hh; [|done].
  unfold redis. destruct (deliver _ _ _). done.
Qed.
Lemma with_slot_frees {A} (slot : MemoryUploadSlot) (m : io A) w : _held slot = false ->
  _held (held_slot (fst (with_slot clock others deliveries slot m w))) = false.
Proof using.
  intros Hs. unfold with_slot, mbind, io_bind, update. cbn beta iota. set (w1 := w <| held_slot := slot |>).
  assert (Hacq : _held (held_slot (fst (slot_acquire clock others deliveries w1))) = false \/ exists w2, slot_acquire clock others deliveries w1 = (w2, Ok tt)).
  { unfold slot_acquire, monotonic, mbind, io_bind, asks, next_call, redis. destruct (deliver _ _ _) as [st reply]. cbn.
    unfold slot_reply. cbn. destruct reply as [[]|]; cbn; [right; by eexists|by left|by left]. }
  destruct (slot_acquire clock others deliveries w1) as [w2 [[]|e|]] eqn:Hw2; cbn in Hacq; [|by destruct Hacq as [|[? [=]]]..].
  unfold finally. destruct (m w2) as [w3 r]. pose proof (release_frees w3) as Hf. destruct (slot_release clock others deliveries w3) as [w4 rc]. exact Hf.
Qed.

Lemma freed_update {A} (f : world -> result save_exn (A * world)) :
  (forall w a w', f w = Ok (a, w') -> held_slot w' = held_slot w) -> throughout freed (update f).
Proof using. intros Hf. apply throughout_update; [apply _|]. intros w a w' Hw Hh. by rewrite (Hf w a w' Hw). Qed.
Lemma freed_modify f : throughout freed (modify f).
Proof using. apply freed_update. by intros w a w' [= <- <-]. Qed.
Lemma freed_files f : throughout freed (on_files f).
Proof using. apply freed_update. intros w a w' Hw. destruct (f (files (vars w))); try done. by injection Hw as <- <-. Qed.
Lemma freed_check b e : throughout freed (check b e).
Proof using. destruct b; [apply throughout_pure|apply throughout_ret]; apply _. Qed.
Lemma freed_uuid : throughout freed (uuid4 uuid_text).
Proof using. intros w Hw. exact Hw. Qed.

Section whole.
Context (filename : option str) (hinted_size : option Z) (reads : list (option bytes)) (case_id : str) (upload_id evidence_id : option str).
Abbreviation save := (save_memory_upload settings sha256_of py_lower device uuid_text isalnum clock others deliveries disks faults read_back
  filename hinted_size reads case_id upload_id evidence_id).
Lemma save_frees : throughout freed save.
Proof using.
  unfold save_memory_upload. apply throughout_bind; [apply _|apply freed_modify|intros ?]. apply throughout_bind; [apply _|apply freed_check|intros ?].
  apply throughout_bind; [apply _| |intros evidence].
  { destruct evidence_id as [[|]|]; try apply freed_uuid; apply throughout_ret; apply _. }
  cbn zeta. do 3 (apply throughout_bind; [apply _|apply freed_files|intros ?]).
  apply throughout_bind; [apply _| |intros request_id].
  { destruct upload_id as [[|]|]; try apply freed_uuid; apply throughout_ret; apply _. }
  apply throughout_catch; [apply _| |intros e].
  - apply throughout_bind; [apply _|apply freed_check|intros ?]. apply throughout_bind; [apply _| |intros ?].
    + apply throughout_catch; [apply _| |intros e; apply throughout_pure; apply _]. intros w Hw. by apply with_slot_frees.
    + apply throughout_bind; [apply _|apply throughout_asks; apply _|intros ?]. apply throughout_bind; [apply _|apply throughout_asks; apply _|intros ?].
      apply throughout_ret; apply _.
  - apply throughout_bind; [apply _|apply freed_modify|intros ?]. apply throughout_pure; apply _.
Qed.
End whole.

Lemma temp_name_ok case_id evidence : uuid_like case_id = true -> uuid_like evidence = true ->
  _MEMORY_TEMP_NAME (case_id ++ lit "-" ++ evidence ++ lit ".memory-upload.part") = true.
Proof using.
  intros Hc He. pose proof Hc as [Hlc%Nat.eqb_eq _]%andb_true_iff. pose proof He as [Hle%Nat.eqb_eq _]%andb_true_iff.
  unfold _MEMORY_TEMP_NAME. set (name := case_id ++ _).
  assert (H36 : drop 36 name = lit "-" ++ evidence ++ lit ".memory-upload.part") by (by apply drop_app_length').
  assert (H37 : drop 37 name = evidence ++ lit ".memory-upload.part") by (change 37%nat with (36 + 1)%nat; by rewrite <-drop_drop, H36).
  assert (H73 : drop 73 name = lit ".memory-upload.part") by (change 73%nat with (37 + 36)%nat; rewrite <-drop_drop, H37; by apply drop_app_length').
  rewrite H36, H37, H73. unfold name. rewrite !take_app_length' by done. by rewrite Hc, He, bool_decide_true.
Qed.

Section outcome.
Context (filename : option str) (hinted_size : option Z) (reads : list (option bytes)) (case_id evidence : str) (upload_id : option str).
Abbreviation root := (build_evidence_root settings case_id evidence).
Abbreviation temp := (temp_path settings case_id evidence).
Abbreviation place := (final_path settings py_lower filename case_id evidence).
Variable f0 : fs.
Hypothesis Hids : uuid_like case_id = true /\ uuid_like evidence = true.
Hypothesis Happart : below root temp = false /\ below temp root = false.

Lemma temp_facts : parent temp = staging_dir settings /\ temp <> [] /\ below root temp = false.
Proof using All. unfold temp_path. split_and!; [apply parent_snoc|by destruct (staging_dir settings)|apply Happart]. Qed.
Lemma temp_named : _MEMORY_TEMP_NAME (name_of temp) = true.
Proof using All. unfold temp_path. rewrite name_snoc. destruct Hids. by apply temp_name_ok. Qed.
Lemma place_parent : parent place = root ++ [lit "original"].
Proof using All. unfold final_path. replace (root ++ [_; _]) with ((root ++ [lit "original"]) ++ [lit "memory-image" ++ extension py_lower filename]) by (by rewrite <-app_assoc). apply parent_snoc. Qed.
Lemma place_facts : below root place = true /\ below root (parent place) = true /\ place <> [].
Proof using All.
  rewrite place_parent. unfold final_path. split_and!; [apply below_spec; by eexists|apply below_spec; by eexists|by destruct root].
Qed.
Lemma off_the_way : below temp root = false /\ below temp (staging_dir settings) = false /\ below temp (parent place) = false.
Proof using All.
  destruct Happart as [Hrt Htr]. split; [done|]. split.
  - apply not_true_iff_false. intros [r Hr]%below_spec. unfold temp_path in Hr. apply (f_equal length) in Hr. rewrite !length_app in Hr. cbn in Hr. lia.
  - apply not_true_iff_false. rewrite place_parent. intros [r Hr]%below_spec.
    destruct r as [|x r _] using rev_ind.
    + rewrite app_nil_r in Hr. rewrite <-Hr in Hrt. apply below_false in Hrt. apply Hrt. by eexists.
    + rewrite app_assoc in Hr. apply app_inj_tail in Hr as [Hr _]. apply below_false in Htr. apply Htr. by eexists.
Qed.

Abbreviation start := (before temp root f0).
Lemma ends_save : ends (on (fun c => frame temp root f0 (files c) /\ files c !! temp = None /\ no_files root (files c)))
  (save_memory_upload settings sha256_of py_lower device uuid_text isalnum clock others deliveries disks faults read_back filename hinted_size reads case_id upload_id (Some evidence))
  (fun r => on (fun c => (moved temp root place f0 (body reads) c /\ acceptable hinted_size reads) /\
     (r.1.1.1.1 = evidence /\ r.1.1.1.2 = place /\ r.1.1.2 = len (body reads) /\ r.1.2 = sha256_of (body reads))))
  (fun e => on (left_behind hinted_size reads temp root place f0 e)).
Proof using All.
  pose proof temp_facts as Htemp. pose proof temp_named as Hname. pose proof place_facts as Hplace. destruct off_the_way as (Hw1 & Hw2 & Hw3).
  assert (Hleft : forall e c, late e = false -> start c -> left_behind hinted_size reads temp root place f0 e c).
  { intros e c [He1 He2]%late_false (H1 & H2 & H3 & _). split; [done|]. right. right. rewrite He1. auto. }
  unfold save_memory_upload.
  eapply ends_bind; [apply (ends_modify _ start)|].
  { intros c (H1 & H2 & H3). by split_and!. }
  intros ?. eapply ends_bind; [apply (ends_raises start start (left_behind hinted_size reads temp root place f0)); [apply calm_check; vm_compute; reflexivity|done|exact Hleft]|]. intros ?.
  assert (He : exists x e, evidence = x :: e).
  { destruct Hids as [_ [Hl%Nat.eqb_eq _]%andb_true_iff]. destruct evidence; [done|by eexists _, _]. }
  apply (ends_bind _ _ _ (fun e => on (fun c => start c /\ e = evidence))).
  { destruct He as (x & e & ->). by apply ends_ret. }
  intros e. apply (ends_pre start _ (e = evidence)); [done|]. intros ->. clear He. cbn zeta.
  assert (Hdir : forall p, below temp p = false -> ends (on start) (on_files (mkdir p)) (fun _ => on start) (fun e => on (left_behind hinted_size reads temp root place f0 e))).
  { intros p Hp. eapply ends_mono; [exact (ends_mkdir hinted_size reads temp root place f0 Htemp Hname Hplace p Hp)|intros w Hw; exact Hw|intros ? w Hw; exact Hw|].
    intros e w [Hw He]. by apply Hleft. }
  eapply ends_bind; [by apply Hdir|]. intros ?. eapply ends_bind; [by apply Hdir|]. intros ?. eapply ends_bind; [by apply Hdir|]. intros ?.
  eapply ends_bind; [apply (ends_raises start start (left_behind hinted_size reads temp root place f0)); [|done|exact Hleft]|].
  { destruct upload_id as [[|]|]; try apply calm_uuid; apply calm_ret. }
  intros request_id.
  apply (ends_catch _ _ _ _ (fun e => on (failed hinted_size reads temp root place f0 e))).
  2: { intros e. eapply ends_bind; [exact (ends_clean_up hinted_size reads temp root place f0 Htemp Hname Hplace e _)|]. intros ? w Hw. exact Hw. }
  pose proof (before_failed hinted_size reads temp root place f0) as Hbf.
  eapply ends_bind; [apply (ends_raises start start (failed hinted_size reads temp root place f0)); [apply calm_check|done|exact Hbf]|].
  { by apply not_late; intros ? ? [= <- <-]; vm_compute. }
  intros ?. set (all := fun c => moved temp root place f0 (body reads) c /\ acceptable hinted_size reads).
  eapply ends_bind; [apply (ends_catch _ _ _ (fun _ => on all) (fun e => on (failed hinted_size reads temp root place f0 e)))|].
  - apply (ends_with_slot hinted_size reads temp root place f0 Htemp Hname Hplace).
    eapply ends_bind; [exact (ends_stage hinted_size reads temp root place f0 Htemp Hname Hplace)|]. intros ?. cbn beta.
    apply (ends_pre (staged hinted_size temp root f0 (body reads) (complete hinted_size (body reads))) _
      (acceptable hinted_size reads)); [done|].
    intros Ha. eapply ends_mono; [exact (ends_finalize hinted_size reads temp root place f0 Htemp Hname Hplace (body reads) eq_refl Ha)|done| |done].
    intros ? w Hw. by split.
  - intros e w (Hf & Hcase). split; [exact Hf|]. destruct (late_public e) as [->|Hl]; [exact Hcase|].
    apply late_false in Hl as [Hk Hp]. destruct Hcase as [(H1 & H2 & H3 & H4 & _)|Hcase]; [left|by right].
    split_and!; try done. by rewrite Hk.
  - intros ?. eapply ends_bind; [apply (ends_get all size)|]. intros total. cbn beta.
    apply (ends_pre all _ (total = len (body reads))); [intros c [Hc ->]; split; [done|]; by destruct Hc as [(_ & _ & _ & _ & -> & _) _]|]. intros ->.
    eapply ends_bind; [apply (ends_get all received)|]. intros data. cbn beta.
    apply (ends_pre all _ (data = body reads)); [intros c [Hc ->]; split; [done|]; by destruct Hc as [(_ & _ & _ & _ & _ & ->) _]|]. intros ->.
    apply ends_ret. intros w Hw. split; [exact Hw|done].
Qed.
End outcome.
End rules.


(** * A small upload *)
Definition sample_case : str := lit "00000000-0000-4000-8000-000000000001".
Definition sample_evidence : str := lit "00000000-0000-4000-8000-0000000000e1".
Definition sample_save_settings : SaveSettings :=
  {| capacity_settings := sample_settings; staging_dir := [lit "staging"]; data_dir := [lit "data"]; upload_extensions := [lit ".raw"];
     memory_upload_chunk_size_bytes := 0; memory_upload_max_bytes := 32 * GIB; memory_max_upload_size := 0;
     memory_upload_request_timeout_seconds := 1800; memory_upload_stale_timeout_seconds := None;
     memory_upload_verification_timeout_seconds := 300; memory_upload_finalization_timeout_seconds := 120 |}.
Definition sample_hash (d : bytes) : str := rev d.
Definition sample_world (slots : sample_store) (f : fs) : world :=
  {| vars := {| files := f; size := 0; received := []; preserve_for_recovery := false; canonical_finalized := false |};
     store := slots; held_slot := new_slot 0 None (Some (lit "r")) []; calls := 0 |}.
Definition sample_reads : list (option bytes) := [Some [1; 2; 3]; Some [4; 5]; Some []].
(** The evidence on a second disk; the call [broken] fails. *)
Definition sample_save (broken : option nat) (case_id evidence : str) (w : world) :=
  save_memory_upload sample_save_settings sample_hash (fun s => s) (fun p => if below [lit "staging"] p then 1 else 2) (fun n => str_of_Z (Z.of_nat n))
    (fun _ => true) (fun n => Z.of_nat n) (fun _ s => s) (fun _ => delivered) (fun _ => sample_disks (40 * GIB) (40 * GIB))
    (fun n => if decide (Some n = broken) then Some 1%nat else None) (fun _ content => content) (Some (lit "host.raw")) (Some 5) sample_reads case_id (Some (lit "up")) (Some evidence) w.


(** A request that is refused because the slot is taken deletes what the upload of
    the same evidence has staged, and its evidence directory. *)
Definition busy_world : world :=
  sample_world {[ UPLOAD_SLOT_KEY := (lit "up", 1000 * second) ]}
    (<[[lit "staging"] := Dir]> (<[temp_path sample_save_settings sample_case sample_evidence := File [1; 2; 3]]>
       {[ build_evidence_root sample_save_settings sample_case sample_evidence := Dir ]})).
Lemma refused_upload_deletes :
  let '(w', r) := sample_save None sample_case sample_evidence busy_world in
  r = Raise (upload_error "upload_in_progress" "Another memory image upload is currently in progress.") /\
  files (vars busy_world) !! temp_path sample_save_settings sample_case sample_evidence = Some (File [1; 2; 3]) /\
  files (vars w') !! temp_path sample_save_settings sample_case sample_evidence = None.
Proof. vm_compute. done. Qed.

(** An announced size within the configured limit but above 64 GiB is refused by the
    check of the room, with an exception that is no [MemoryUploadError]. *)
Definition roomy_settings : SaveSettings :=
  {| capacity_settings := sample_settings; staging_dir := [lit "staging"]; data_dir := [lit "data"]; upload_extensions := [];
     memory_upload_chunk_size_bytes := 0; memory_upload_max_bytes := 128 * GIB; memory_max_upload_size := 0;
     memory_upload_request_timeout_seconds := 1800; memory_upload_stale_timeout_seconds := None;
     memory_upload_verification_timeout_seconds := 300; memory_upload_finalization_timeout_seconds := 120 |}.
Lemma above_64_gib :
  snd (save_memory_upload roomy_settings sample_hash (fun s => s) (fun _ => 1) (fun n => str_of_Z (Z.of_nat n)) (fun _ => true) (fun n => Z.of_nat n)
         (fun _ s => s) (fun _ => delivered) (fun _ => sample_disks (400 * GIB) (400 * GIB)) (fun _ => None) (fun _ content => content)
         (Some (lit "host.raw")) (Some (65 * GIB)) sample_reads sample_case (Some (lit "up")) (Some sample_evidence) (sample_world ∅ ∅)) =
  Raise (CapacityFailed (ValueError (lit "selected_size_bytes is too large"))).
Proof. vm_compute. reflexivity. Qed.
End SaveRules.
