(* ===== verification/EvidenceOperations.v ===== *)
(** services/evidence_operations.py with the tables of models/evidence_operation.py
    and models/evidence_upload_session.py: the operation that follows an upload
    session, its jobs, and their reconciliation.  Definitions only; the theorems
    are in OperationRules, OperationReconcile and OperationOutcome. *)
From S2P Require Import Prelude PyBase PyFloat FileSystem UploadSession.
Import Str PyFloat FileSystem UploadSession.

Module EvidenceOperations.

(** * Tables *)
Inductive session_status : Type :=
  | s_created | s_uploading | s_interrupted | s_preflight_running | s_staged | s_promoted | s_cancelled | s_expired | s_failed.
#[export] Instance session_status_eq_dec : EqDecision session_status.
Proof. solve_decision. Defined.
Definition session_status_text (s : session_status) : str :=
  match s with
  | s_created => lit "created" | s_uploading => lit "uploading" | s_interrupted => lit "interrupted"
  | s_preflight_running => lit "preflight_running" | s_staged => lit "staged" | s_promoted => lit "promoted"
  | s_cancelled => lit "cancelled" | s_expired => lit "expired" | s_failed => lit "failed"
  end.

Record EvidenceUploadSession := {
  s_id : str;
  s_case_id : str;
  s_status : session_status;
  original_filename : str;
  staged_path : path;
  is_folder : bool;
  is_server_path : bool;
  size_bytes : Z;
  expected_size_bytes : option Z;
  s_bytes_received : Z;
  s_sha256 : option str;
  declared_platform : option str;
  category : option str;            (** the keys of [metadata_json] that are read *)
  current_stage : option str;
  backend : option str;
  unified_status : option str;
  s_expires_at : Z;
  promoted_evidence_id : option str;
  failure_message : option str;
  s_created_at : Z }.
#[export] Instance EvidenceUploadSession_rebuild : Rebuild EvidenceUploadSession := fun s =>
  Build_EvidenceUploadSession (s_id s) (s_case_id s) (s_status s) (original_filename s) (staged_path s) (is_folder s) (is_server_path s)
    (size_bytes s) (expected_size_bytes s) (s_bytes_received s) (s_sha256 s) (declared_platform s) (category s) (current_stage s)
    (backend s) (unified_status s) (s_expires_at s) (promoted_evidence_id s) (failure_message s) (s_created_at s).

Inductive operation_status : Type :=
  | created | waiting_upload | uploading | paused | finalizing | verifying | preflight | ready_for_promotion | waiting_user
  | promoting | queued | running | failed | cancelled | expired | completed.
#[export] Instance operation_status_eq_dec : EqDecision operation_status.
Proof. solve_decision. Defined.

(** What [_metadata] keeps of the session. *)
Record operation_metadata := {
  m_upload_session_id : str;
  m_label : str;
  m_category : option str;
  m_sha256 : option str;
  m_promoted_evidence_id : option str;
  m_failure_message : option str;
  m_is_server_path : bool;
  m_is_folder : bool;
  m_declared_platform : option str;
  m_backend : str;
  m_unified_status : option str }.

Record EvidenceOperation := {
  o_id : str;
  o_case_id : str;
  upload_session_id : option str;
  o_evidence_id : option str;
  kind : str;
  o_status : operation_status;
  o_stage : str;
  owner : str;
  progress : option Z;
  bytes_received : option Z;
  o_expected_size_bytes : option Z;
  started_at : option Z;
  completed_at : option Z;
  last_error : option str;
  metadata_json : option operation_metadata }.
#[export] Instance EvidenceOperation_rebuild : Rebuild EvidenceOperation := fun o =>
  Build_EvidenceOperation (o_id o) (o_case_id o) (upload_session_id o) (o_evidence_id o) (kind o) (o_status o) (o_stage o) (owner o)
    (progress o) (bytes_received o) (o_expected_size_bytes o) (started_at o) (completed_at o) (last_error o) (metadata_json o).

Inductive ingest_status : Type := i_pending | i_processing | i_completed | i_completed_with_errors | i_failed.
#[export] Instance ingest_status_eq_dec : EqDecision ingest_status.
Proof. solve_decision. Defined.

Inductive operation_exn : Type := InvalidTransition (current status : operation_status) | MultipleResultsFound.

(** * Transitions *)
Definition TERMINAL_OPERATION_STATUSES : list operation_status := [completed; failed; cancelled; expired].
Definition PREFLIGHT_SUBSTAGES : list str :=
  [lit "verifying_integrity"; lit "classifying"; lit "inspecting_evidence"; lit "preparing_evidence"; lit "preflight_complete"].
Definition _STAGE_PRESERVING_SESSION_STATUSES : list session_status := [s_preflight_running; s_staged; s_failed].

Definition ALLOWED_OPERATION_TRANSITIONS (current : operation_status) : list operation_status :=
  match current with
  | created => [waiting_upload; uploading; cancelled; failed]
  | waiting_upload => [uploading; paused; cancelled; expired; failed]
  | uploading => [paused; finalizing; cancelled; expired; failed]
  | paused => [uploading; finalizing; cancelled; expired; failed]
  | finalizing => [verifying; preflight; ready_for_promotion; failed]
  | verifying => [preflight; ready_for_promotion; failed]
  | preflight => [ready_for_promotion; waiting_user; failed]
  | ready_for_promotion => [waiting_user; promoting; cancelled; failed]
  | waiting_user => [promoting; cancelled; failed]
  | promoting => [queued; running; completed; failed]
  | queued => [running; completed; failed; cancelled]
  | running => [completed; failed; cancelled]
  | failed => [queued; running; finalizing; preflight; promoting; cancelled]
  | cancelled | expired | completed => []
  end.

Definition _operation_status (session_status : session_status) : operation_status :=
  match session_status with
  | s_created => waiting_upload
  | s_uploading => uploading
  | s_preflight_running => preflight
  | s_staged => waiting_user
  | s_promoted => completed
  | s_cancelled => cancelled
  | s_expired => expired
  | s_failed => failed
  | s_interrupted => paused
  end.

Definition transition_operation (now : Z) (operation : EvidenceOperation) (status : operation_status) (stage owner_ error : option str)
    (force : bool) : result operation_exn EvidenceOperation :=
  let current := o_status operation in
  if negb (bool_decide (current = status)) && negb force && negb (bool_decide (status ∈ ALLOWED_OPERATION_TRANSITIONS current))
  then Raise (InvalidTransition current status)
  else
    let operation := operation <| o_status := status |> in
    let operation := match stage with Some stage => operation <| o_stage := stage |> | None => operation end in
    let operation := match owner_ with Some owner_ => operation <| owner := owner_ |> | None => operation end in
    let operation := operation <| last_error := error |> in
    Ok (if decide (status ∈ TERMINAL_OPERATION_STATUSES)
        then operation <| completed_at := Some (default now (completed_at operation)) |>
        else operation <| completed_at := None |>).

Definition derive_operation_stage (session : EvidenceUploadSession) (operation_stage : option str) : str :=
  let fallback := match current_stage session with Some ((_ :: _) as stage) => stage | _ => session_status_text (s_status session) end in
  match operation_stage with
  | Some stage =>
      if bool_decide (stage ∈ PREFLIGHT_SUBSTAGES) && bool_decide (s_status session ∈ _STAGE_PRESERVING_SESSION_STATUSES) then stage else fallback
  | None => fallback
  end.

(** * Progress

    [round((received / expected) * 100)] *)
Definition or_zero (o : option Z) (n : Z) : Z := match o with Some 0 | None => n | Some m => m end.
Definition expected_of (session : EvidenceUploadSession) : Z := or_zero (expected_size_bytes session) (size_bytes session).
Definition received_of (session : EvidenceUploadSession) : Z := or_zero (Some (s_bytes_received session)) (size_bytes session).
Definition _operation_progress (session : EvidenceUploadSession) : option Z :=
  if 0 <? expected_of session then
    Some (Z.max 0 (Z.min 100 (float_round (float_times 100 (float_ratio (received_of session) (expected_of session))))))
  else if bool_decide (s_status session ∈ [s_staged; s_promoted]) then Some 100
  else None.

Definition _metadata (session : EvidenceUploadSession) : operation_metadata :=
  {| m_upload_session_id := s_id session; m_label := original_filename session; m_category := category session;
     m_sha256 := s_sha256 session; m_promoted_evidence_id := promoted_evidence_id session; m_failure_message := failure_message session;
     m_is_server_path := is_server_path session; m_is_folder := is_folder session; m_declared_platform := declared_platform session;
     m_backend := match backend session with Some ((_ :: _) as b) => b | _ => lit "legacy" end; m_unified_status := unified_status session |}.

(** * The database session

    Rows as committed; the objects that were loaded and changed since, and those
    that were added.  Without autoflush a query selects on the committed rows and
    returns the objects. *)
Record database := {
  sessions : list EvidenceUploadSession;
  rows : list EvidenceOperation;
  changed : gmap str EvidenceOperation;
  added : list EvidenceOperation;
  evidences : gmap str ingest_status;
  files : fs;
  next_id : nat }.
#[export] Instance database_rebuild : Rebuild database := fun d =>
  Build_database (sessions d) (rows d) (changed d) (added d) (evidences d) (files d) (next_id d).

Definition object_of (db : database) (row : EvidenceOperation) : EvidenceOperation := default row (changed db !! o_id row).
Definition query (P : EvidenceOperation -> bool) (db : database) : list EvidenceOperation := map (object_of db) (filter P (rows db)).
Definition one_or_none {A} (l : list A) : result operation_exn (option A) :=
  match l with [] => Ok None | [x] => Ok (Some x) | _ => Raise MultipleResultsFound end.
(** [db.add] of a loaded object, and of a new one. *)
Definition save (operation : EvidenceOperation) (db : database) : database :=
  if existsb (fun row => bool_decide (o_id row = o_id operation)) (rows db)
  then db <| changed := <[o_id operation := operation]> (changed db) |>
  else db <| added := added db ++ [operation] |>.
Definition commit (db : database) : database :=
  db <| rows := map (object_of db) (rows db) ++ added db |> <| changed := ∅ |> <| added := [] |>.

Section operations.
Variables (uuid_text : nat -> str) (is_uuid : str -> bool) (st_mtime : path -> Z) (backend_temp_dir : path).

Definition _uuid_or_none (value : option str) : option str :=
  match value with Some ((_ :: _) as v) => if is_uuid v then Some v else None | _ => None end.

Definition of_session (session_id : str) (row : EvidenceOperation) : bool := bool_decide (upload_session_id row = Some session_id).
Definition get_operation_for_session (db : database) (session : EvidenceUploadSession) : result operation_exn (option EvidenceOperation) :=
  one_or_none (query (fun row => of_session (s_id session) row && bool_decide (kind row = lit "upload")) db).
Definition get_operation_stage (db : database) (session : EvidenceUploadSession) : result operation_exn (option str) :=
  let! operation := get_operation_for_session db session in Ok (option_map o_stage operation).

(** A new object has no status and no stage until it is given them; here it is
    [created], which is what the code takes the missing status for. *)
Definition new_operation (id : str) (session : EvidenceUploadSession) : EvidenceOperation :=
  {| o_id := id; o_case_id := s_case_id session; upload_session_id := Some (s_id session); o_evidence_id := None; kind := lit "upload";
     o_status := created; o_stage := lit "created"; owner := lit "backend"; progress := None; bytes_received := None;
     o_expected_size_bytes := None; started_at := Some (s_created_at session); completed_at := None; last_error := None;
     metadata_json := None |}.

Definition next_owner (session : EvidenceUploadSession) : str :=
  match s_status session with
  | s_created | s_uploading | s_interrupted => lit "browser"
  | s_preflight_running | s_staged => lit "backend"
  | _ => lit "database"
  end.

Definition sync_upload_operation (now : Z) (db : database) (session : EvidenceUploadSession) (commit_ : bool)
    : result operation_exn (database * EvidenceOperation) :=
  let! found := get_operation_for_session db session in
  let '(db, operation) := match found with
                          | Some operation => (db, operation)
                          | None => (db <| next_id := S (next_id db) |>, new_operation (uuid_text (next_id db)) session)
                          end in
  let operation := operation <| o_case_id := s_case_id session |> in
  let promoted := match _uuid_or_none (promoted_evidence_id session) with
                  | Some id => if bool_decide (is_Some (evidences db !! id)) then Some id else None
                  | None => None
                  end in
  let operation := operation <| o_evidence_id := promoted |> in
  let! operation := transition_operation now operation (_operation_status (s_status session))
    (Some (derive_operation_stage session (Some (o_stage operation)))) (Some (next_owner session)) (failure_message session) true in
  let operation := operation <| progress := _operation_progress session |> <| bytes_received := Some (received_of session) |>
    <| o_expected_size_bytes := if expected_of session =? 0 then None else Some (expected_of session) |>
    <| metadata_json := Some (_metadata session) |> in
  let db := save operation db in
  Ok (if commit_ then commit db else db, operation).

(** * Reconciliation *)
Definition _session_root (session_id : str) : path := backend_temp_dir ++ [lit "evidence-upload-sessions"; session_id].
Definition _cleanup_storage (session : EvidenceUploadSession) (f : fs) : fs :=
  if is_server_path session then f
  else if bool_decide (backend session = Some (lit "unified")) then f
  else if exists_ (_session_root (s_id session)) f then rmtree (_session_root (s_id session)) f
  else match unlink (staged_path session) f with Ok f' => f' | _ => f end.

Definition expires (now : Z) (session : EvidenceUploadSession) : bool :=
  negb (bool_decide (backend session = Some (lit "unified"))) &&
  bool_decide (s_status session ∈ [s_created; s_uploading; s_interrupted; s_staged]) && (s_expires_at session <? now).
Definition expire (session : EvidenceUploadSession) : EvidenceUploadSession :=
  session <| s_status := s_expired |> <| failure_message := Some (lit "Upload session expired during reconciliation.") |>.

Record reconciliation := {
  sessions_without_operations : Z;
  operations_without_sessions : Z;
  operations_synced_from_evidence : Z;
  expired_uploads : Z;
  orphan_upload_dirs : Z;
  removed_empty_dirs : Z }.
#[local] Instance reconciliation_rebuild : Rebuild reconciliation := fun r =>
  Build_reconciliation (sessions_without_operations r) (operations_without_sessions r) (operations_synced_from_evidence r)
    (expired_uploads r) (orphan_upload_dirs r) (removed_empty_dirs r).

Definition reconcile_session (now : Z) (st : database * reconciliation) (session : EvidenceUploadSession)
    : result operation_exn (database * reconciliation) :=
  let (db, stats) := st in
  let! before := one_or_none (query (of_session (s_id session)) db) in
  let stats := match before with
               | None => stats <| sessions_without_operations := sessions_without_operations stats + 1 |>
               | Some _ => stats
               end in
  let '(db, session, stats) :=
    if expires now session then
      let updated := expire session in
      (db <| files := _cleanup_storage session (files db) |>
          <| sessions := map (fun s => if bool_decide (s_id s = s_id session) then updated else s) (sessions db) |>,
       updated, stats <| expired_uploads := expired_uploads stats + 1 |>)
    else (db, session, stats) in
  let! (db, _) := sync_upload_operation now db session false in
  Ok (db, stats).

Definition reconcile_missing (now : Z) (session_ids : list str) (st : database * reconciliation) (operation : EvidenceOperation)
    : result operation_exn (database * reconciliation) :=
  let (db, stats) := st in
  match upload_session_id operation with
  | Some session_id =>
      if bool_decide (session_id ∉ session_ids) && negb (bool_decide (o_status operation ∈ TERMINAL_OPERATION_STATUSES)) then
        let! operation := transition_operation now operation failed (Some (lit "session_missing")) (Some (lit "reconciler"))
          (Some (lit "Upload session is missing for active operation.")) true in
        Ok (save operation db, stats <| operations_without_sessions := operations_without_sessions stats + 1 |>)
      else Ok st
  | None => Ok st
  end.

Definition reconcile_processing (now : Z) (st : database * reconciliation) (operation : EvidenceOperation)
    : result operation_exn (database * reconciliation) :=
  let (db, stats) := st in
  let synced := stats <| operations_synced_from_evidence := operations_synced_from_evidence stats + 1 |> in
  match o_evidence_id operation ≫= fun id => evidences db !! id with
  | Some i_completed =>
      let! operation := transition_operation now operation completed (Some (lit "processing_complete")) (Some (lit "database")) None true in
      Ok (save operation db, synced)
  | Some i_failed =>
      let! operation := transition_operation now operation failed (Some (lit "processing_failed")) (Some (lit "database"))
        (Some (lit "Evidence processing failed.")) true in
      Ok (save operation db, synced)
  | _ => Ok st
  end.

(** A directory that belongs to no session goes when it is old and empty. *)
Definition reconcile_directory (now retention_seconds : Z) (session_ids : list str) (st : database * reconciliation) (child : path)
    : database * reconciliation :=
  let (db, stats) := st in
  if negb (is_dir child (files db)) || bool_decide (name_of child ∈ session_ids) then st
  else
    let stats := stats <| orphan_upload_dirs := orphan_upload_dirs stats + 1 |> in
    if (retention_seconds <? now - st_mtime child) && bool_decide (iterdir child (files db) = [])
    then (db <| files := rmtree child (files db) |>, stats <| removed_empty_dirs := removed_empty_dirs stats + 1 |>)
    else (db, stats).

Definition has_session (row : EvidenceOperation) : bool := bool_decide (is_Some (upload_session_id row)).
Definition in_processing (row : EvidenceOperation) : bool :=
  bool_decide (is_Some (o_evidence_id row)) && bool_decide (o_status row ∈ [queued; running]).

(** The objects of a query are loaded before the loop over them starts; what the
    loop changes in one of them it changes in none of the others. *)
Definition reconcile_evidence_operations (now retention_seconds : Z) (db : database) : result operation_exn (database * reconciliation) :=
  let stats := {| sessions_without_operations := 0; operations_without_sessions := 0; operations_synced_from_evidence := 0;
                  expired_uploads := 0; orphan_upload_dirs := 0; removed_empty_dirs := 0 |} in
  let loaded := take 500 (sessions db) in
  let session_ids := map s_id loaded in
  let! st := foldM (reconcile_session now) (db, stats) loaded in
  let! st := foldM (reconcile_missing now session_ids) st (take 500 (query has_session (fst st))) in
  let! st := foldM (reconcile_processing now) st (take 500 (query in_processing (fst st))) in
  let root := backend_temp_dir ++ [lit "evidence-upload-sessions"] in
  let '(db, stats) := if exists_ root (files (fst st))
    then fold_left (reconcile_directory now retention_seconds session_ids) (iterdir root (files (fst st))) st else st in
  Ok (commit db, stats).
End operations.

(** * Jobs *)
Inductive job_status : Type := j_queued | j_running | j_completed | j_failed | j_other (text : str).
#[export] Instance job_status_eq_dec : EqDecision job_status.
Proof. solve_decision. Defined.
Record EvidenceOperationJob := {
  operation_id : str;
  job_type : str;
  dedupe_key : str;
  j_status : job_status;
  j_owner : str;
  rq_job_id : option str;
  j_progress : option Z;
  j_started_at : option Z;
  j_finished_at : option Z;
  j_last_error : option str;
  j_metadata : list (str * str) }.
#[export] Instance EvidenceOperationJob_rebuild : Rebuild EvidenceOperationJob := fun j =>
  Build_EvidenceOperationJob (operation_id j) (job_type j) (dedupe_key j) (j_status j) (j_owner j) (rq_job_id j) (j_progress j)
    (j_started_at j) (j_finished_at j) (j_last_error j) (j_metadata j).
Definition ACTIVE_JOB_STATUSES : list job_status := [j_queued; j_running].

(** Jobs by operation, type and key, which the table keeps unique. *)
Abbreviation jobs := (gmap (str * str * str) EvidenceOperationJob).
Definition upsert_operation_job (operation : EvidenceOperation) (type : str) (key : option str) (status : job_status) (owner_ : str)
    (rq_id : option str) (metadata : list (str * str)) (table : jobs) : jobs :=
  let key := match key with Some ((_ :: _) as key) => key | _ => type end in
  let job := default {| operation_id := o_id operation; job_type := type; dedupe_key := key; j_status := j_queued; j_owner := lit "worker";
                        rq_job_id := None; j_progress := None; j_started_at := None; j_finished_at := None; j_last_error := None;
                        j_metadata := [] |} (table !! (o_id operation, type, key)) in
  let job := job <| j_status := status |> <| j_owner := owner_ |>
               <| rq_job_id := match rq_id with Some (_ :: _) => rq_id | _ => rq_job_id job end |>
               <| j_metadata := fold_left (fun d kv => Dict.set (fst kv) (snd kv) d) metadata (j_metadata job) |> in
  <[(o_id operation, type, key) := job]> table.
Definition mark_operation_job_running (now : Z) (job : EvidenceOperationJob) : EvidenceOperationJob :=
  job <| j_status := j_running |> <| j_started_at := Some (default now (j_started_at job)) |> <| j_finished_at := None |> <| j_last_error := None |>.
Definition mark_operation_job_finished (now : Z) (job : EvidenceOperationJob) (status : job_status) (error : option str) (progress_ : option Z)
    : EvidenceOperationJob :=
  job <| j_status := status |> <| j_finished_at := Some now |> <| j_last_error := error |>
    <| j_progress := match progress_ with Some _ => progress_ | None => j_progress job end |>.
End EvidenceOperations.
