(* ===== verification/OperationRules.v ===== *)
(** What a transition does to an evidence operation, and what every request that
    follows a session keeps of all operations: the time of completion is set in
    the terminal statuses and only there. *)
From S2P Require Import Prelude PyBase FileSystem UploadSession EvidenceOperations.
Import Str FileSystem UploadSession EvidenceOperations.

Module OperationRules.

(** * One transition *)
Definition enter (now : Z) (status : operation_status) (stage owner_ : str) (error : option str) (o : EvidenceOperation) : EvidenceOperation :=
  o <| o_status := status |> <| o_stage := stage |> <| owner := owner_ |> <| last_error := error |>
    <| completed_at := if decide (status ∈ TERMINAL_OPERATION_STATUSES) then Some (default now (completed_at o)) else None |>.

Lemma transition_forced now o status stage owner_ error :
  transition_operation now o status (Some stage) (Some owner_) error true = Ok (enter now status stage owner_ error o).
Proof. unfold transition_operation, enter. by destruct (bool_decide (o_status o = status)); cbn [negb andb]; case_decide. Qed.

Definition timed (o : EvidenceOperation) : Prop := is_Some (completed_at o) <-> o_status o ∈ TERMINAL_OPERATION_STATUSES.

Lemma enter_timed now status stage owner_ error o : timed (enter now status stage owner_ error o).
Proof. unfold timed, enter. case_decide; cbn; solve [by split | split; [by intros []|done]]. Qed.

Lemma transition_timed now o status stage owner_ error force o' :
  transition_operation now o status stage owner_ error force = Ok o' -> timed o'.
Proof.
  unfold transition_operation. destruct (_ && _); [done|]. intros [= <-]. unfold timed.
  case_decide; destruct stage, owner_; cbn; solve [by split | split; [by intros []|done]].
Qed.

(** * Sets of operations *)
Record all_ops (P : EvidenceOperation -> Prop) (db : database) : Prop := {
  in_rows : Forall P (rows db);
  in_changed : map_Forall (fun _ => P) (changed db);
  in_added : Forall P (added db) }.

Section all_ops.
Context (P : EvidenceOperation -> Prop).

Lemma object_ok db row : all_ops P db -> row ∈ rows db -> P (object_of db row).
Proof.
  intros [Hr Hc _] Hin. unfold object_of. destruct (changed db !! _) eqn:E; cbn; [by eapply Hc|].
  by eapply Forall_forall in Hr.
Qed.
Lemma query_ok f db : all_ops P db -> Forall P (query f db).
Proof.
  intros Hdb. apply Forall_forall. intros o. unfold query.
  intros (row & -> & [_ Hin]%list_elem_of_filter)%list_elem_of_fmap. by apply object_ok.
Qed.
Lemma save_ok o db : P o -> all_ops P db -> all_ops P (save o db).
Proof.
  intros Ho [Hr Hc Ha]. unfold save. destruct existsb; split; cbn; auto.
  - by apply map_Forall_insert_2.
  - apply Forall_app; auto.
Qed.
Lemma commit_ok db : all_ops P db -> all_ops P (commit db).
Proof.
  intros Hdb. split; cbn; [|apply map_Forall_empty|done].
  apply Forall_app. split; [|apply Hdb]. apply Forall_forall.
  intros o (row & -> & Hin)%list_elem_of_fmap. by apply object_ok.
Qed.
Lemma one_ok f db o : all_ops P db -> one_or_none (query f db) = Ok (Some o) -> P o.
Proof.
  intros Hdb%(query_ok f). unfold one_or_none. destruct (query f db) as [|? [|]]; intros [= ->].
  by inversion_clear Hdb.
Qed.
Lemma all_ops_same db db' : rows db' = rows db -> changed db' = changed db -> added db' = added db -> all_ops P db -> all_ops P db'.
Proof. intros Hr Hc Ha []. split; by rewrite ?Hr, ?Hc, ?Ha. Qed.
End all_ops.

Create HintDb operations.
#[export] Hint Resolve enter_timed save_ok commit_ok : operations.

(** * Operations keep their times *)
Section times.
Context (uuid_text : nat -> str) (is_uuid : str -> bool) (st_mtime : path -> Z) (backend_temp_dir : path).

(** ** Following a session *)
Definition live_evidence (evidences : gmap str ingest_status) (session : EvidenceUploadSession) : option str :=
  match _uuid_or_none is_uuid (promoted_evidence_id session) with
  | Some id => if bool_decide (is_Some (evidences !! id)) then Some id else None
  | None => None
  end.
Definition synced (now : Z) (evidences : gmap str ingest_status) (session : EvidenceUploadSession) (o : EvidenceOperation) : EvidenceOperation :=
  enter now (_operation_status (s_status session)) (derive_operation_stage session (Some (o_stage o))) (next_owner session)
    (failure_message session) (o <| o_case_id := s_case_id session |> <| o_evidence_id := live_evidence evidences session |>)
  <| progress := _operation_progress session |> <| bytes_received := Some (received_of session) |>
  <| o_expected_size_bytes := if expected_of session =? 0 then None else Some (expected_of session) |>
  <| metadata_json := Some (_metadata session) |>.

Lemma synced_timed now ev session o : timed (synced now ev session o).
Proof.
  change (is_Some (if decide (_operation_status (s_status session) ∈ TERMINAL_OPERATION_STATUSES) then Some (default now (completed_at o)) else None)
          <-> _operation_status (s_status session) ∈ TERMINAL_OPERATION_STATUSES).
  case_decide; [by split|]. split; [by intros []|done].
Qed.
#[local] Hint Resolve synced_timed : operations.

Definition followed (now : Z) (session : EvidenceUploadSession) (db : database) (found : option EvidenceOperation) : database * EvidenceOperation :=
  match found with
  | Some o => (save (synced now (evidences db) session o) db, synced now (evidences db) session o)
  | None => let o := synced now (evidences db) session (new_operation (uuid_text (next_id db)) session) in
            (save o (db <| next_id := S (next_id db) |>), o)
  end.

Lemma sync_spec now db session commit_ :
  sync_upload_operation uuid_text is_uuid now db session commit_ =
  (let! found := get_operation_for_session db session in
   let (db', o) := followed now session db found in Ok (if commit_ then commit db' else db', o)).
Proof.
  unfold sync_upload_operation, followed. destruct (get_operation_for_session db session) as [[o|]| |]; try done;
    cbn [mbind result_bind]; rewrite transition_forced; reflexivity.
Qed.

Lemma followed_timed now session db found : all_ops timed db -> all_ops timed (fst (followed now session db found)).
Proof.
  intros Hdb. destruct found; cbn [followed fst]; [auto with operations|].
  apply save_ok; [auto with operations|]. by apply (all_ops_same timed db).
Qed.

Lemma sync_timed now db session commit_ db' o :
  all_ops timed db -> sync_upload_operation uuid_text is_uuid now db session commit_ = Ok (db', o) -> all_ops timed db'.
Proof.
  intros Hdb. rewrite sync_spec. intros (found & _ & Hs)%bind_Ok.
  pose proof (followed_timed now session db found Hdb) as Hf. destruct (followed now session db found) as [d o'].
  injection Hs as <- _. destruct commit_; auto with operations.
Qed.

Lemma reconcile_session_timed now st session st' :
  all_ops timed (fst st) -> reconcile_session uuid_text is_uuid backend_temp_dir now st session = Ok st' -> all_ops timed (fst st').
Proof.
  destruct st as [db stats]. cbn [fst]. intros Hdb. unfold reconcile_session.
  intros (before & _ & Hs)%bind_Ok. destruct (expires now session); apply bind_Ok in Hs as ([db1 o] & Hs & [= <-]);
    (eapply sync_timed; [|exact Hs]); [by apply (all_ops_same timed db)|done].
Qed.

Lemma reconcile_missing_timed now ids st o st' :
  all_ops timed (fst st) -> reconcile_missing now ids st o = Ok st' -> all_ops timed (fst st').
Proof.
  destruct st as [db stats]. cbn [fst]. intros Hdb. unfold reconcile_missing.
  destruct (upload_session_id o); [|by intros [= <-]].
  destruct (_ && _); [|by intros [= <-]]. rewrite transition_forced. cbn [mbind result_bind].
  intros [= <-]. cbn [fst]. auto with operations.
Qed.

Lemma reconcile_processing_timed now st o st' :
  all_ops timed (fst st) -> reconcile_processing now st o = Ok st' -> all_ops timed (fst st').
Proof.
  destruct st as [db stats]. cbn [fst]. intros Hdb. unfold reconcile_processing.
  destruct (_ ≫= _) as [[| | | |]|]; try (by intros [= <-]); rewrite transition_forced; cbn [mbind result_bind];
    intros [= <-]; cbn [fst]; auto with operations.
Qed.

Lemma reconcile_directory_rows now retention ids st child :
  let st' := reconcile_directory st_mtime now retention ids st child in
  rows (fst st') = rows (fst st) /\ changed (fst st') = changed (fst st) /\ added (fst st') = added (fst st).
Proof. destruct st as [db stats]. unfold reconcile_directory. destruct (_ || _); [done|]. by destruct (_ && _). Qed.

Lemma reconcile_directories_rows now retention ids children st :
  let st' := fold_left (reconcile_directory st_mtime now retention ids) children st in
  rows (fst st') = rows (fst st) /\ changed (fst st') = changed (fst st) /\ added (fst st') = added (fst st).
Proof.
  revert st. induction children as [|c children IH]; intros st; [done|]. cbn [fold_left].
  destruct (reconcile_directory_rows now retention ids st c) as (Hr & Hc & Ha), (IH (reconcile_directory st_mtime now retention ids st c)) as (-> & -> & ->).
  by rewrite Hr, Hc, Ha.
Qed.

(** C39. An operation has a time of completion exactly in the statuses completed,
    failed, cancelled and expired: whatever is asked of [transition_operation],
    forced or not, and in every operation of the database after a session was
    followed or a pass of the reconciliation was made. *)
Theorem operations_timed :
  (forall now o status stage owner_ error force o', transition_operation now o status stage owner_ error force = Ok o' -> timed o') /\
  (forall now db session commit_ db' o, all_ops timed db ->
     sync_upload_operation uuid_text is_uuid now db session commit_ = Ok (db', o) -> all_ops timed db') /\
  (forall now retention db db' stats, all_ops timed db ->
     reconcile_evidence_operations uuid_text is_uuid st_mtime backend_temp_dir now retention db = Ok (db', stats) -> all_ops timed db').
Proof.
  split_and!.
  - apply transition_timed.
  - intros. by eapply sync_timed.
  - intros * Hdb Hrun. unfold reconcile_evidence_operations in Hrun.
    apply bind_Ok in Hrun as (st1 & H1 & Hrun). apply bind_Ok in Hrun as (st2 & H2 & Hrun). apply bind_Ok in Hrun as (st3 & H3 & Hrun).
    apply (foldM_inv (fun st => all_ops timed (fst st))) in H1; [|intros; by eapply reconcile_session_timed|done].
    apply (foldM_inv (fun st => all_ops timed (fst st))) in H2; [|intros; by eapply reconcile_missing_timed|done].
    apply (foldM_inv (fun st => all_ops timed (fst st))) in H3; [|intros; by eapply reconcile_processing_timed|done].
    destruct (exists_ _ _).
    + destruct (reconcile_directories_rows now retention (map s_id (take 500 (sessions db))) (iterdir (backend_temp_dir ++ [lit "evidence-upload-sessions"]) (files (fst st3))) st3) as (Hr & Hc & Ha).
      destruct (fold_left _ _ st3) as [db4 s4]. injection Hrun as <- _. apply commit_ok. by apply (all_ops_same timed (fst st3)).
    + destruct st3 as [db3 s3]. injection Hrun as <- _. by apply commit_ok.
Qed.
End times.
End OperationRules.
