(* ===== verification/OperationReconcile.v ===== *)
(** reconcile_evidence_operations, in closed form: what one pass makes of every
    operation, and which operations it adds; and what follows from it for the
    sessions it reads, for those it does not read, and for operations whose
    evidence is still being processed. *)
From S2P Require Import Prelude PyBase FileSystem UploadSession EvidenceOperations OperationRules.
Import Str FileSystem UploadSession EvidenceOperations OperationRules.

Module OperationReconcile.

Lemma filter_all_false {A} (P : A -> bool) (l : list A) : (forall x, x ∈ l -> P x = false) -> filter P l = [].
Proof.
  induction l as [|x l IH]; intros HP; [done|]. rewrite filter_cons, decide_False by (rewrite HP; [tauto|left]).
  apply IH. intros y Hy. apply HP. by right.
Qed.

Lemma filter_key {A} (key : A -> option str) (k : str) (l : list A) x :
  NoDup (omap key l) -> x ∈ l -> key x = Some k -> filter (fun y => bool_decide (key y = Some k)) l = [x].
Proof.
  induction l as [|y l IH]; intros Hnd Hin Hx; [by apply elem_of_nil in Hin|].
  rewrite filter_cons. cbn [omap list_omap] in Hnd.
  apply elem_of_cons in Hin as [<-|Hin].
  - rewrite decide_True by (by apply bool_decide_spec). f_equal. rewrite Hx in Hnd. apply NoDup_cons in Hnd as [Hk _].
    apply filter_all_false. intros z Hz. apply bool_decide_eq_false_2. intros Hb. apply Hk, list_elem_of_omap. eauto.
  - assert (key y <> Some k).
    { intros Hy. rewrite Hy in Hnd. apply NoDup_cons in Hnd as [Hk _]. apply Hk, list_elem_of_omap. eauto. }
    rewrite decide_False by (by rewrite bool_decide_spec). apply IH; [|done..].
    destruct (key y); [by apply NoDup_cons in Hnd as [_ ?]|done].
Qed.

Section reconcile.
Context (uuid_text : nat -> str) (is_uuid : str -> bool) (st_mtime : path -> Z) (backend_temp_dir : path) (now retention_seconds : Z).

(** * The closed form *)
Definition settled (session : EvidenceUploadSession) : EvidenceUploadSession := if expires now session then expire session else session.
Definition session_of (l : list EvidenceUploadSession) (row : EvidenceOperation) : option EvidenceUploadSession :=
  head (filter (fun s => of_session (s_id s) row) l).
Definition follow (ev : gmap str ingest_status) (l : list EvidenceUploadSession) (row : EvidenceOperation) : option EvidenceOperation :=
  option_map (fun s => synced is_uuid now ev (settled s) row) (session_of l row).

Definition orphaned (ids : list str) (o : EvidenceOperation) : option EvidenceOperation :=
  match upload_session_id o with
  | Some id => if bool_decide (id ∉ ids) && negb (bool_decide (o_status o ∈ TERMINAL_OPERATION_STATUSES))
               then Some (enter now failed (lit "session_missing") (lit "reconciler") (Some (lit "Upload session is missing for active operation.")) o)
               else None
  | None => None
  end.
Definition processed (ev : gmap str ingest_status) (o : EvidenceOperation) : option EvidenceOperation :=
  match o_evidence_id o ≫= fun id => ev !! id with
  | Some i_completed => Some (enter now completed (lit "processing_complete") (lit "database") None o)
  | Some i_failed => Some (enter now failed (lit "processing_failed") (lit "database") (Some (lit "Evidence processing failed.")) o)
  | _ => None
  end.

Definition among (rs : list EvidenceOperation) (row : EvidenceOperation) : bool := bool_decide (o_id row ∈ map o_id rs).
Definition settle_row (db : database) (row : EvidenceOperation) : EvidenceOperation :=
  let loaded := take 500 (sessions db) in
  let o := default row (follow (evidences db) loaded row) in
  let o := if among (take 500 (filter has_session (rows db))) row then default o (orphaned (map s_id loaded) o) else o in
  if among (take 500 (filter in_processing (rows db))) row then default o (processed (evidences db) o) else o.
Fixpoint created (ev : gmap str ingest_status) (table : list EvidenceOperation) (n : nat) (l : list EvidenceUploadSession) : list EvidenceOperation :=
  match l with
  | [] => []
  | s :: l => if existsb (of_session (s_id s)) table then created ev table n l
              else synced is_uuid now ev (settled s) (new_operation (uuid_text n) (settled s)) :: created ev table (S n) l
  end.

(** What the tables guarantee, and the uploads keep: identifiers are keys, a
    session has at most one operation, whose kind is "upload"; the database
    session is new, and the identifiers it will give are not taken. *)
Record linked (db : database) : Prop := {
  row_ids : NoDup (map o_id (rows db));
  session_ids : NoDup (map s_id (sessions db));
  one_each : NoDup (omap upload_session_id (rows db));
  upload_kind : Forall (fun row => has_session row -> kind row = lit "upload") (rows db);
  new_ids : forall n, (next_id db <= n)%nat -> uuid_text n ∉ map o_id (rows db);
  none_changed : changed db = ∅;
  none_added : added db = [] }.

(** * Loops that change some of the objects of a query *)
Lemma save_loaded db o : o_id o ∈ map o_id (rows db) -> save o db = db <| changed := <[o_id o := o]> (changed db) |>.
Proof.
  intros (r & Hr & Hin)%list_elem_of_fmap. unfold save.
  assert (existsb (fun row => bool_decide (o_id row = o_id o)) (rows db) = true) as ->; [|done].
  apply existsb_exists. exists r. rewrite <-list_elem_of_In. split; [done|]. by apply bool_decide_eq_true_2.
Qed.

Lemma object_save db o row :
  o_id o ∈ map o_id (rows db) ->
  object_of (save o db) row = if bool_decide (o_id row = o_id o) then o else object_of db row.
Proof.
  intros Hin. rewrite save_loaded by done. unfold object_of. cbn. case_bool_decide as Hid.
  - by rewrite Hid, lookup_insert_eq.
  - by rewrite lookup_insert_ne.
Qed.

Lemma key_inj {A B} (f : A -> B) (l : list A) x y : NoDup (map f l) -> x ∈ l -> y ∈ l -> f x = f y -> x = y.
Proof.
  induction l as [|z l IH]; intros Hnd Hx Hy Hf; [by apply elem_of_nil in Hx|].
  apply NoDup_cons in Hnd as [Hz Hnd]. apply elem_of_cons in Hx as [->|Hx], Hy as [->|Hy]; [done| | |by apply IH].
  - destruct Hz. rewrite Hf. by apply list_elem_of_fmap_2.
  - destruct Hz. rewrite <-Hf. by apply list_elem_of_fmap_2.
Qed.

Lemma query_objects P db n : take n (query P db) = map (object_of db) (take n (filter P (rows db))).
Proof. unfold query. symmetry. apply fmap_take. Qed.

Section update_loop.
Context (f : database * reconciliation -> EvidenceOperation -> result operation_exn (database * reconciliation)).
Context (ev : gmap str ingest_status) (g : EvidenceOperation -> option EvidenceOperation).
Hypothesis f_spec : forall db stats o, evidences db = ev ->
  exists stats', f (db, stats) o = Ok (match g o with Some o' => save o' db | None => db end, stats').
Hypothesis g_id : forall o o', g o = Some o' -> o_id o' = o_id o.

Definition same_tables (db db' : database) : Prop :=
  rows db' = rows db /\ sessions db' = sessions db /\ evidences db' = evidences db /\ added db' = added db.

Lemma first_update db r0 :
  r0 ∈ rows db -> (forall r, r ∈ rows db -> o_id (object_of db r) = o_id r) ->
  exists db', match g (object_of db r0) with Some o' => save o' db | None => db end = db' /\ same_tables db db' /\
    forall r, object_of db' r = if bool_decide (o_id r = o_id r0) then default (object_of db r) (g (object_of db r0)) else object_of db r.
Proof.
  intros Hin Hids. eexists. split; [done|]. destruct (g (object_of db r0)) as [o'|] eqn:Hg; [|split; [done|]; intros r; by case_bool_decide].
  apply g_id in Hg. rewrite Hids in Hg by done.
  assert (o_id o' ∈ map o_id (rows db)) by (rewrite Hg; by apply list_elem_of_fmap_2). split.
  - by rewrite save_loaded.
  - intros r. rewrite object_save by done. by rewrite Hg.
Qed.

Lemma update_loop rs db stats :
  evidences db = ev -> NoDup (map o_id rs) -> NoDup (map o_id (rows db)) -> (forall r, r ∈ rs -> r ∈ rows db) ->
  (forall r, r ∈ rows db -> o_id (object_of db r) = o_id r) ->
  exists db' stats', foldM f (db, stats) (map (object_of db) rs) = Ok (db', stats') /\ same_tables db db' /\
    forall r, r ∈ rows db -> object_of db' r = if among rs r then default (object_of db r) (g (object_of db r)) else object_of db r.
Proof.
  revert db stats. induction rs as [|r0 rs IH]; intros db stats Hev Hnd Hrows Hsub Hids.
  { exists db, stats. split_and!; done. }
  apply NoDup_cons in Hnd as [Hr0 Hnd]. cbn [map foldM].
  destruct (f_spec db stats (object_of db r0) Hev) as [stats1 ->]. cbn [mbind result_bind].
  destruct (first_update db r0) as (db1 & -> & (Hr1 & Hs1 & He1 & Ha1) & Hobj); [by apply Hsub; left|done|].
  assert (Hother : forall r, o_id r <> o_id r0 -> object_of db1 r = object_of db r)
    by (intros r Hr; rewrite Hobj; by rewrite bool_decide_eq_false_2).
  assert (map (object_of db) rs = map (object_of db1) rs) as ->.
  { apply map_ext_in. intros r Hr%list_elem_of_In. symmetry. apply Hother. intros Heq. apply Hr0. rewrite <-Heq. by apply list_elem_of_fmap_2. }
  destruct (IH db1 stats1) as (db2 & stats2 & -> & (Hr2 & Hs2 & He2 & Ha2) & Hobj2); rewrite ?Hr1; try congruence; auto.
  { intros r Hr. apply Hsub. by right. }
  { intros r Hr. rewrite Hobj. case_bool_decide as Hid; [|auto]. destruct (g _) eqn:Hg; cbn; [|auto].
    apply g_id in Hg. rewrite Hg, Hids by (apply Hsub; left). done. }
  exists db2, stats2. split; [done|]. split; [split_and!; congruence|]. intros r Hr.
  rewrite Hobj2 by (by rewrite Hr1). unfold among. cbn [map].
  destruct (decide (o_id r = o_id r0)) as [Hid|Hid].
  - assert (r = r0) as -> by (eapply key_inj; eauto; apply Hsub; left).
    rewrite (bool_decide_eq_false_2 (o_id r0 ∈ map o_id rs)) by done.
    rewrite (bool_decide_eq_true_2 (o_id r0 ∈ o_id r0 :: map o_id rs)) by left. by rewrite Hobj, bool_decide_eq_true_2.
  - rewrite (Hother r Hid). rewrite (bool_decide_ext (o_id r ∈ o_id r0 :: map o_id rs) (o_id r ∈ map o_id rs)); [done|].
    rewrite elem_of_cons. tauto.
Qed.
End update_loop.

(** * Following the sessions *)
Lemma upload_rows db id :
  Forall (fun row => has_session row -> kind row = lit "upload") (rows db) ->
  query (fun row => of_session id row && bool_decide (kind row = lit "upload")) db = query (of_session id) db.
Proof.
  intros Hk. unfold query. f_equal. induction Hk as [|r l Hr _ IH]; [done|]. rewrite !filter_cons, IH.
  destruct (of_session id r) eqn:E; [|done]. unfold of_session in E. apply bool_decide_eq_true in E.
  rewrite (bool_decide_eq_true_2 (kind r = lit "upload")); [done|]. apply Hr. unfold has_session. by rewrite E.
Qed.

Lemma session_rows db id :
  NoDup (omap upload_session_id (rows db)) ->
  filter (of_session id) (rows db) = [] /\ existsb (of_session id) (rows db) = false \/
  exists r, filter (of_session id) (rows db) = [r] /\ existsb (of_session id) (rows db) = true /\ r ∈ rows db /\ upload_session_id r = Some id.
Proof.
  intros Hnd. destruct (existsb (of_session id) (rows db)) eqn:E.
  - apply existsb_exists in E as (r & Hr%list_elem_of_In & Hid%bool_decide_eq_true). right. exists r. split_and!; [|done..].
    by apply filter_key.
  - left. split; [|done]. apply filter_all_false. intros r Hr%list_elem_of_In. destruct (of_session id r) eqn:Er; [|done].
    rewrite (proj2 (existsb_exists (of_session id) (rows db))) in E; [done|eauto].
Qed.

Definition followed_row (ev : gmap str ingest_status) (s : EvidenceUploadSession) (r : EvidenceOperation) : EvidenceOperation :=
  synced is_uuid now ev (settled s) r.

Lemma settled_id s : s_id (settled s) = s_id s.
Proof. unfold settled. by destruct expires. Qed.

(** The session is expired, if it is due, before it is followed. *)
Definition seen (db : database) (s : EvidenceUploadSession) : database :=
  if expires now s
  then db <| files := _cleanup_storage backend_temp_dir s (files db) |>
          <| sessions := map (fun s' => if bool_decide (s_id s' = s_id s) then expire s else s') (sessions db) |>
  else db.
Lemma seen_same db s :
  rows (seen db s) = rows db /\ changed (seen db s) = changed db /\ added (seen db s) = added db /\
  evidences (seen db s) = evidences db /\ next_id (seen db s) = next_id db.
Proof. unfold seen. by destruct expires. Qed.

Lemma reconcile_session_spec db stats s found :
  Forall (fun row => has_session row -> kind row = lit "upload") (rows db) ->
  one_or_none (query (of_session (s_id s)) db) = Ok found ->
  exists stats', reconcile_session uuid_text is_uuid backend_temp_dir now (db, stats) s =
    Ok (fst (followed uuid_text is_uuid now (settled s) (seen db s) found), stats').
Proof.
  intros Hk Hf. unfold reconcile_session. rewrite Hf. cbn [mbind result_bind]. unfold settled, seen.
  destruct (expires now s); cbv iota beta zeta; rewrite sync_spec; unfold get_operation_for_session;
    rewrite upload_rows by done.
  - change (query (of_session (s_id (expire s))) _) with (query (of_session (s_id s)) db). rewrite Hf. cbn [mbind result_bind].
    destruct (followed _ _ _ _ _ _) as [d o]. by eexists.
  - rewrite Hf. cbn [mbind result_bind]. destruct (followed _ _ _ _ _ _) as [d o]. by eexists.
Qed.

Lemma synced_id ev s o : o_id (synced is_uuid now ev s o) = o_id o.
Proof. done. Qed.

Lemma save_added db o : o_id o ∉ map o_id (rows db) -> save o db = db <| added := added db ++ [o] |>.
Proof.
  intros Hin. unfold save. destruct (existsb _ _) eqn:E; [|done]. destruct Hin.
  apply existsb_exists in E as (r & Hr%list_elem_of_In & Hid%bool_decide_eq_true). rewrite <-Hid. by apply list_elem_of_fmap_2.
Qed.

(** What the first loop needs of the state it is in, for the sessions [l] that
    are left. *)
Record to_follow (l : list EvidenceUploadSession) (db : database) : Prop := {
  f_rows : NoDup (map o_id (rows db));
  f_one : NoDup (omap upload_session_id (rows db));
  f_kind : Forall (fun row => has_session row -> kind row = lit "upload") (rows db);
  f_new : forall n, (next_id db <= n)%nat -> uuid_text n ∉ map o_id (rows db);
  f_l : NoDup (map s_id l);
  f_unchanged : forall r s, r ∈ rows db -> s ∈ l -> upload_session_id r = Some (s_id s) -> changed db !! o_id r = None }.

Lemma follow_cons ev s l r :
  follow ev (s :: l) r = if of_session (s_id s) r then Some (synced is_uuid now ev (settled s) r) else follow ev l r.
Proof.
  unfold follow, session_of. rewrite filter_cons. destruct (of_session (s_id s) r); [by rewrite decide_True|].
  by rewrite decide_False by tauto.
Qed.

Lemma follow_none ev s l r : s_id s ∉ map s_id l -> of_session (s_id s) r = true -> follow ev l r = None.
Proof.
  intros Hs Hr%bool_decide_eq_true. unfold follow, session_of. rewrite filter_all_false; [done|].
  intros s' Hs'. apply bool_decide_eq_false_2. rewrite Hr. intros [= Hid]. apply Hs. rewrite Hid. by apply list_elem_of_fmap_2.
Qed.

Lemma to_follow_next s l db db' :
  to_follow (s :: l) db -> rows db' = rows db -> (next_id db <= next_id db')%nat ->
  (forall r, r ∈ rows db -> upload_session_id r <> Some (s_id s) -> changed db' !! o_id r = changed db !! o_id r) ->
  to_follow l db'.
Proof.
  intros [Hids Hone Hk Hnew [Hs Hl]%NoDup_cons Hch] Hr Hn Hc. split; rewrite ?Hr; try done.
  - intros n ?. apply Hnew. lia.
  - intros r s' Hin Hs' Hid. rewrite Hc; [eapply Hch; eauto; by right|done|].
    rewrite Hid. intros [= Heq]. apply Hs. rewrite <-Heq. by apply list_elem_of_fmap_2.
Qed.

Lemma follow_step db stats s l :
  to_follow (s :: l) db ->
  exists db' stats', reconcile_session uuid_text is_uuid backend_temp_dir now (db, stats) s = Ok (db', stats') /\ to_follow l db' /\
    rows db' = rows db /\ evidences db' = evidences db /\
    added db' ++ created (evidences db) (rows db) (next_id db') l = added db ++ created (evidences db) (rows db) (next_id db) (s :: l) /\
    forall r, r ∈ rows db -> object_of db' r = if of_session (s_id s) r then synced is_uuid now (evidences db) (settled s) r else object_of db r.
Proof.
  intros Hdb. pose proof Hdb as [Hids Hone Hk Hnew _ Hch]. cbn [created].
  destruct (seen_same db s) as (Er & Ec & Ea & Ee & En).
  destruct (session_rows db (s_id s) Hone) as [[Hf He]|(r0 & Hf & He & Hr0 & Hid)]; rewrite He.
  - destruct (reconcile_session_spec db stats s None) as [stats' ->]; [done|unfold query; by rewrite Hf|].
    cbn [followed fst]. rewrite save_added by (cbn; rewrite Er, En; apply Hnew; lia).
    eexists _, stats'. split; [done|]. split_and!; cbn; rewrite ?Er, ?Ee, ?Ea, ?En; [|done..|by rewrite <-app_assoc|].
    + apply (to_follow_next s l db); cbn; rewrite ?Er, ?En, ?Ec; auto.
    + intros r Hr. unfold object_of. cbn. rewrite Ec. destruct (of_session (s_id s) r) eqn:E; [|done].
      assert (r ∈ []) as []%elem_of_nil. rewrite <-Hf. apply list_elem_of_filter. by rewrite E.
  - assert (Hobj : object_of db r0 = r0) by (unfold object_of; rewrite (Hch r0 s); [done..|left|done]).
    destruct (reconcile_session_spec db stats s (Some r0)) as [stats' ->]; [done|unfold query; rewrite Hf; cbn; by rewrite Hobj|].
    cbn [followed fst]. assert (Hin : o_id r0 ∈ map o_id (rows db)) by by apply list_elem_of_fmap_2.
    rewrite save_loaded by (rewrite synced_id, Er; done). rewrite synced_id.
    eexists _, stats'. split; [done|]. split_and!; cbn; rewrite ?Er, ?Ee, ?Ea, ?En; [|done..|].
    + apply (to_follow_next s l db); cbn; rewrite ?Er, ?En, ?Ec; [done..|]. intros r Hr Hne. apply lookup_insert_ne.
      intros Heq. apply Hne. rewrite <-Hid. f_equal. symmetry. by eapply key_inj.
    + intros r Hr. unfold object_of. cbn. rewrite Ec. destruct (of_session (s_id s) r) eqn:E.
      * assert (r ∈ [r0]) as ->%list_elem_of_singleton by (rewrite <-Hf; apply list_elem_of_filter; by rewrite E). by rewrite lookup_insert_eq.
      * rewrite lookup_insert_ne; [done|]. intros Heq. apply (key_inj o_id (rows db)) in Heq; [|done..]. subst r0.
        unfold of_session in E. by rewrite bool_decide_eq_true_2 in E.
Qed.

Lemma follow_loop l db stats :
  to_follow l db ->
  exists db' stats', foldM (reconcile_session uuid_text is_uuid backend_temp_dir now) (db, stats) l = Ok (db', stats') /\
    rows db' = rows db /\ evidences db' = evidences db /\
    added db' = added db ++ created (evidences db) (rows db) (next_id db) l /\
    forall r, r ∈ rows db -> object_of db' r = default (object_of db r) (follow (evidences db) l r).
Proof.
  revert db stats. induction l as [|s l IH]; intros db stats Hdb.
  { exists db, stats. cbn [created]. rewrite app_nil_r. done. }
  cbn [foldM]. destruct (follow_step db stats s l Hdb) as (db1 & stats1 & -> & Hdb1 & Hr1 & He1 & Ha1 & Ho1).
  cbn [mbind result_bind]. destruct (IH db1 stats1 Hdb1) as (db2 & stats2 & -> & Hr2 & He2 & Ha2 & Ho2).
  exists db2, stats2. split_and!; [done|congruence..| |].
  - rewrite Ha2, He1, Hr1. done.
  - intros r Hr. rewrite Ho2 by (by rewrite Hr1). rewrite Ho1, He1, follow_cons by done.
    destruct (of_session (s_id s) r) eqn:E; [|done]. cbn. rewrite (follow_none _ s); [done| |done].
    apply f_l in Hdb. by apply NoDup_cons in Hdb as [? _].
Qed.

(** * The other loops *)
Lemma missing_spec ids db stats o :
  exists stats', reconcile_missing now ids (db, stats) o = Ok (match orphaned ids o with Some o' => save o' db | None => db end, stats').
Proof.
  unfold reconcile_missing, orphaned. destruct (upload_session_id o); [|by eexists]. destruct (_ && _); [|by eexists].
  rewrite transition_forced. by eexists.
Qed.
Lemma processing_spec db stats o :
  exists stats', reconcile_processing now (db, stats) o =
    Ok (match processed (evidences db) o with Some o' => save o' db | None => db end, stats').
Proof.
  unfold reconcile_processing, processed. destruct (o_evidence_id o ≫= _) as [[| | | |]|]; try (by eexists);
    rewrite transition_forced; by eexists.
Qed.
Lemma orphaned_id ids o o' : orphaned ids o = Some o' -> o_id o' = o_id o.
Proof. unfold orphaned. destruct (upload_session_id o); [|done]. destruct (_ && _); [by intros [= <-]|done]. Qed.
Lemma processed_id ev o o' : processed ev o = Some o' -> o_id o' = o_id o.
Proof. unfold processed. destruct (o_evidence_id o ≫= _) as [[| | | |]|]; try done; by intros [= <-]. Qed.

Lemma selected_rows (P : EvidenceOperation -> bool) n db r : r ∈ take n (filter P (rows db)) -> r ∈ rows db.
Proof. intros Hr. eapply subseteq_take, list_elem_of_filter in Hr. tauto. Qed.
Lemma selected_ids (P : EvidenceOperation -> bool) n db : NoDup (map o_id (rows db)) -> NoDup (map o_id (take n (filter P (rows db)))).
Proof.
  intros Hnd. eapply sublist_NoDup; [exact Hnd|]. apply (fmap_sublist o_id). etrans; [apply sublist_take|apply sublist_filter].
Qed.

(** * One pass *)
Lemma linked_to_follow db : linked db -> to_follow (take 500 (sessions db)) db.
Proof.
  intros []. split; try done.
  - rewrite <-firstn_map. by eapply sublist_NoDup, sublist_take.
  - intros. by rewrite none_changed0.
Qed.

Lemma reconcile_spec db :
  linked db ->
  exists db' stats, reconcile_evidence_operations uuid_text is_uuid st_mtime backend_temp_dir now retention_seconds db = Ok (db', stats) /\
    rows db' = map (settle_row db) (rows db) ++ created (evidences db) (rows db) (next_id db) (take 500 (sessions db)).
Proof.
  intros Hdb. unfold reconcile_evidence_operations. pose proof (row_ids _ Hdb) as Hnd.
  set (stats0 := Build_reconciliation _ _ _ _ _ _). set (loaded := take 500 (sessions db)).
  destruct (follow_loop loaded db stats0) as (db1 & stats1 & -> & Hr1 & He1 & Ha1 & Ho1); [by apply linked_to_follow|].
  assert (Hobj : forall r, r ∈ rows db -> object_of db1 r = default r (follow (evidences db) loaded r)).
  { intros r Hr. rewrite Ho1 by done. unfold object_of. by rewrite (none_changed _ Hdb). }
  assert (Hid1 : forall r, r ∈ rows db1 -> o_id (object_of db1 r) = o_id r).
  { intros r Hr. rewrite Hr1 in Hr. rewrite Hobj by done. unfold follow. by destruct (session_of loaded r). }
  cbn [mbind result_bind fst]. rewrite query_objects.
  destruct (update_loop (reconcile_missing now (map s_id loaded)) (evidences db) (orphaned (map s_id loaded)) (fun db stats o _ => missing_spec _ db stats o)
    (orphaned_id _) (take 500 (filter has_session (rows db1))) db1 stats1)
    as (db2 & stats2 & -> & (Hr2 & _ & He2 & Ha2) & Ho2); [congruence|apply selected_ids; congruence|congruence|apply selected_rows|done|].
  assert (Hid2 : forall r, r ∈ rows db2 -> o_id (object_of db2 r) = o_id r).
  { intros r Hr. rewrite Hr2 in Hr. rewrite Ho2 by done. destruct (among _ r); [|auto].
    destruct (orphaned _ _) eqn:Hg; cbn; [apply orphaned_id in Hg; rewrite Hg|]; auto. }
  cbn [mbind result_bind fst]. rewrite query_objects.
  assert (Hf : forall d stats o, evidences d = evidences db -> exists stats',
    reconcile_processing now (d, stats) o = Ok (match processed (evidences db) o with Some o' => save o' d | None => d end, stats'))
    by (intros d stats o <-; apply processing_spec).
  destruct (update_loop (reconcile_processing now) (evidences db) (processed (evidences db)) Hf
    (processed_id _) (take 500 (filter in_processing (rows db2))) db2 stats2)
    as (db3 & stats3 & -> & (Hr3 & _ & He3 & Ha3) & Ho3); [congruence|apply selected_ids; congruence|congruence|apply selected_rows|done|].
  cbn [mbind result_bind fst].
  assert (Hrows : forall d, rows d = rows db3 -> changed d = changed db3 -> added d = added db3 ->
    rows (commit d) = map (settle_row db) (rows db) ++ created (evidences db) (rows db) (next_id db) loaded).
  { intros d Hr Hc Ha. cbn. rewrite Ha, Ha3, Ha2, Ha1, (none_added _ Hdb), Hr, Hr3, Hr2, Hr1. f_equal. apply map_ext_in.
    intros r Hin%list_elem_of_In. unfold object_of. rewrite Hc. change (object_of db3 r = settle_row db r).
    rewrite Ho3, Ho2, Hobj by congruence. unfold settle_row. fold loaded. by rewrite Hr2, Hr1. }
  destruct (exists_ _ _).
  - destruct (reconcile_directories_rows st_mtime now retention_seconds (map s_id loaded) (iterdir (backend_temp_dir ++ [lit "evidence-upload-sessions"]) (files db3)) (db3, stats3)) as (Hr & Hc & Ha).
    destruct (fold_left _ _ _) as [db4 stats4]. eexists _, stats4. split; [done|]. by apply Hrows.
  - eexists _, stats3. split; [done|]. by apply Hrows.
Qed.
End reconcile.
End OperationReconcile.
