(* ===== verification/OperationOutcome.v ===== *)
(** What a pass of the reconciliation leaves in the table of operations: one
    operation for every session it reads, that tells the session's state; a
    failure for the operation of a session it does not read; completion for an
    operation whose evidence is still being processed. *)
From S2P Require Import Prelude PyBase FileSystem UploadSession EvidenceOperations OperationRules OperationReconcile.
Import Str FileSystem UploadSession EvidenceOperations OperationRules OperationReconcile.

Module OperationOutcome.

Section outcome.
Context (uuid_text : nat -> str) (is_uuid : str -> bool) (st_mtime : path -> Z) (backend_temp_dir : path) (now retention_seconds : Z).
Abbreviation settle_row := (settle_row is_uuid now).
Abbreviation created := (created uuid_text is_uuid now).
Abbreviation settled := (settled now).
Abbreviation pass := (reconcile_evidence_operations uuid_text is_uuid st_mtime backend_temp_dir now retention_seconds).

(** ** What no part of a pass changes *)
Lemma settle_row_inv {A} (proj : EvidenceOperation -> A) db r :
  (forall status stage owner_ error o, proj (enter now status stage owner_ error o) = proj o) ->
  (forall s o, proj (synced is_uuid now (evidences db) s o) = proj o) ->
  proj (settle_row db r) = proj r.
Proof.
  intros He Hs. unfold OperationReconcile.settle_row.
  assert (Hf : forall l, proj (default r (follow is_uuid now (evidences db) l r)) = proj r) by (intros l; unfold follow; destruct (session_of l r); cbn; auto).
  assert (Ho : forall ids o, proj (default o (orphaned now ids o)) = proj o).
  { intros ids o. unfold orphaned. destruct (upload_session_id o); [|done]. destruct (_ && _); cbn; auto. }
  assert (Hp : forall ev o, proj (default o (processed now ev o)) = proj o).
  { intros ev o. unfold processed. destruct (o_evidence_id o ≫= _) as [[| | | |]|]; cbn; auto. }
  destruct (among (take 500 (filter has_session _)) r), (among _ r); by rewrite ?Hp, ?Ho.
Qed.

Lemma settle_row_id db r : o_id (settle_row db r) = o_id r.
Proof. by apply settle_row_inv. Qed.
Lemma settle_row_session db r : upload_session_id (settle_row db r) = upload_session_id r.
Proof. by apply settle_row_inv. Qed.
Lemma settle_row_kind db r : kind (settle_row db r) = kind r.
Proof. by apply settle_row_inv. Qed.

Lemma among_spec (P : EvidenceOperation -> bool) n db r :
  linked uuid_text db -> r ∈ rows db -> among (take n (filter P (rows db))) r = true -> P r = true.
Proof.
  intros Hdb Hr (r' & Hid & Hr')%bool_decide_eq_true%list_elem_of_fmap. assert (Hin : r' ∈ rows db) by by eapply selected_rows.
  apply (key_inj o_id (rows db)) in Hid; [subst r'|apply Hdb|done..].
  eapply subseteq_take, list_elem_of_filter in Hr' as [Hp _]. by destruct (P r).
Qed.
Lemma among_in rs r : r ∈ rs -> among rs r = true.
Proof. intros Hr. apply bool_decide_eq_true. by apply list_elem_of_fmap_2. Qed.

(** ** The operation of a session that is read *)
Lemma session_of_row l s r :
  NoDup (map s_id l) -> s ∈ l -> upload_session_id r = Some (s_id s) -> session_of l r = Some s.
Proof.
  intros Hnd Hs Hr. unfold session_of, of_session. rewrite Hr.
  assert (filter (fun s' => bool_decide (Some (s_id s) = Some (s_id s'))) l = [s]) as ->; [|done].
  transitivity (filter (fun s' => bool_decide (Some (s_id s') = Some (s_id s))) l).
  - apply list_filter_iff. intros s'. rewrite !bool_decide_spec. naive_solver.
  - apply (filter_key (fun s => Some (s_id s))); [|done..]. clear -Hnd. induction l as [|s0 l IH]; [constructor|].
    apply NoDup_cons in Hnd as [H0 Hnd]. cbn. apply NoDup_cons. split; [|auto].
    intros (s' & Hs' & [= Hid])%list_elem_of_omap. apply H0. rewrite <-Hid. by apply list_elem_of_fmap_2.
Qed.

Lemma session_of_none l r : (forall s, s ∈ l -> upload_session_id r <> Some (s_id s)) -> session_of l r = None.
Proof. intros Hl. unfold session_of. rewrite filter_all_false; [done|]. intros s Hs. by apply bool_decide_eq_false_2, Hl. Qed.

Lemma linked_loaded db n : linked uuid_text db -> NoDup (map s_id (take n (sessions db))).
Proof. intros Hdb. rewrite <-firstn_map. eapply sublist_NoDup; [exact (session_ids _ _ Hdb)|apply sublist_take]. Qed.

(** A session as the pass leaves it, and what its operation tells of it: the
    session's own state, or how the processing of its evidence ended. *)
Definition reports (ev : gmap str ingest_status) (s : EvidenceUploadSession) (o : EvidenceOperation) : Prop :=
  o_status o = _operation_status (s_status s) \/
  exists e, live_evidence is_uuid ev s = Some e /\
    (ev !! e = Some i_completed /\ o_status o = completed \/ ev !! e = Some i_failed /\ o_status o = failed).

Lemma processed_reports ev s o :
  o_status o = _operation_status (s_status s) -> o_evidence_id o = live_evidence is_uuid ev s ->
  reports ev s (default o (processed now ev o)).
Proof.
  intros Hs He. unfold processed, reports. rewrite He. destruct (live_evidence is_uuid ev s) as [e|]; cbn; [|by left].
  destruct (ev !! e) as [[| | | |]|] eqn:E; cbn; auto; right; exists e; auto.
Qed.

(** The operation of a session that is read is never taken for one without session. *)
Lemma settle_read db s r :
  linked uuid_text db -> r ∈ rows db -> s ∈ take 500 (sessions db) -> upload_session_id r = Some (s_id s) ->
  let o := synced is_uuid now (evidences db) (settled s) r in
  settle_row db r = if among (take 500 (filter in_processing (rows db))) r then default o (processed now (evidences db) o) else o.
Proof.
  intros Hdb Hr Hs Hid. cbn zeta. unfold OperationReconcile.settle_row, follow.
  rewrite (session_of_row _ s); [|by apply linked_loaded|done..].
  cbn [option_map from_option Datatypes.id]. set (o := synced _ _ _ _ _).
  assert (orphaned now (map s_id (take 500 (sessions db))) o = None) as ->; [|by destruct (among (take 500 (filter has_session _)) r)].
  unfold orphaned. change (upload_session_id o) with (upload_session_id r). rewrite Hid.
  rewrite (bool_decide_eq_false_2 (_ ∉ _)); [done|]. intros Hn. apply Hn. by apply list_elem_of_fmap_2.
Qed.

Lemma settle_reports db s r :
  linked uuid_text db -> r ∈ rows db -> s ∈ take 500 (sessions db) -> upload_session_id r = Some (s_id s) ->
  reports (evidences db) (settled s) (settle_row db r).
Proof.
  intros Hdb Hr Hs Hid. rewrite (settle_read db s) by done. destruct (among _ r); [by apply processed_reports|by left].
Qed.

Lemma created_of ev table n l s :
  NoDup (map s_id l) -> existsb (of_session (s_id s)) table = false ->
  filter (of_session (s_id s)) (created ev table n l) = [] /\ s_id s ∉ map s_id l \/
  exists m s', s' ∈ l /\ s_id s' = s_id s /\
    filter (of_session (s_id s)) (created ev table n l) = [synced is_uuid now ev (settled s') (new_operation (uuid_text m) (settled s'))].
Proof.
  intros Hnd Ht. revert n. induction l as [|s0 l IH]; intros n; [by left; split; [|apply not_elem_of_nil]|].
  apply NoDup_cons in Hnd as [H0 Hnd]. cbn [OperationReconcile.created].
  destruct (decide (s_id s0 = s_id s)) as [Heq|Hne].
  - right. rewrite Heq, Ht. exists n, s0. split_and!; [left|done|]. rewrite filter_cons, decide_True.
    + f_equal. destruct (IH Hnd (S n)) as [[-> _]|(m & s' & Hs' & Hid & _)]; [done|]. destruct H0. rewrite Heq, <-Hid. by apply list_elem_of_fmap_2.
    + unfold of_session. apply bool_decide_spec. change (Some (s_id (settled s0)) = Some (s_id s)). by rewrite settled_id, Heq.
  - assert (Hf : forall n, filter (of_session (s_id s)) (created ev table n (s0 :: l)) = filter (of_session (s_id s)) (created ev table (if existsb (of_session (s_id s0)) table then n else S n) l)).
    { intros m. cbn [OperationReconcile.created]. destruct (existsb (of_session (s_id s0)) table); [done|]. rewrite filter_cons, decide_False; [done|].
      unfold of_session. rewrite bool_decide_spec. change (Some (s_id (settled s0)) <> Some (s_id s)). rewrite settled_id. congruence. }
    specialize (Hf n). cbn [OperationReconcile.created] in Hf. rewrite Hf.
    destruct (IH Hnd (if existsb (of_session (s_id s0)) table then n else S n)) as [[? ?]|(m & s' & Hs' & ? & ?)].
    + left. split; [done|]. cbn [map]. apply not_elem_of_cons. split; [congruence|done].
    + right. exists m, s'. split_and!; [by right|done..].
Qed.

Lemma created_none ev table n l s :
  existsb (of_session (s_id s)) table = true -> filter (of_session (s_id s)) (created ev table n l) = [].
Proof.
  intros Ht. revert n. induction l as [|s0 l IH]; intros n; [done|]. cbn [OperationReconcile.created].
  destruct (existsb (of_session (s_id s0)) table) eqn:E; [done|]. rewrite filter_cons, decide_False; [done|].
  unfold of_session. rewrite bool_decide_spec. change (Some (s_id (settled s0)) <> Some (s_id s)). rewrite settled_id. congruence.
Qed.

Lemma filter_map_same {A} (f : A -> A) (P : A -> bool) l : (forall x, P (f x) = P x) -> filter P (map f l) = map f (filter P l).
Proof.
  intros Hf. induction l as [|x l IH]; [done|]. cbn [map]. rewrite !filter_cons, Hf. destruct (P x); cbn; by rewrite IH.
Qed.

(** C18. One pass over a consistent database with at most 500 sessions returns, and
    afterwards every session has exactly one operation: the one it had, under the
    same identifier, or a new one; and that operation tells the state the session
    is left in, or how the processing of its evidence ended. *)
Theorem reconcile_settles db :
  linked uuid_text db -> (length (sessions db) <= 500)%nat ->
  exists db' stats, pass db = Ok (db', stats) /\
    forall s, s ∈ sessions db -> exists o,
      filter (of_session (s_id s)) (rows db') = [o] /\ kind o = lit "upload" /\ reports (evidences db) (settled s) o /\
      (forall r, r ∈ rows db -> upload_session_id r = Some (s_id s) -> o_id o = o_id r).
Proof.
  intros Hdb Hlen. destruct (reconcile_spec uuid_text is_uuid st_mtime backend_temp_dir now retention_seconds db Hdb) as (db' & stats & Hrun & Hrows).
  exists db', stats. split; [done|]. intros s Hs.
  rewrite Hrows, filter_app, filter_map_same by (intros r; unfold of_session; by rewrite settle_row_session).
  rewrite take_ge by lia. destruct (session_rows db (s_id s) (one_each _ _ Hdb)) as [[-> He]|(r & -> & He & Hr & Hid)].
  - destruct (created_of (evidences db) (rows db) (next_id db) (sessions db) s (session_ids _ _ Hdb) He) as [[_ Hn]|(m & s' & Hs' & Hid & ->)];
      [destruct Hn; by apply list_elem_of_fmap_2|].
    assert (s' = s) as -> by (by eapply (key_inj s_id); [apply Hdb|..]).
    eexists. split; [done|]. split_and!; [done|by left|]. intros r Hr Hrs.
    assert (existsb (of_session (s_id s)) (rows db) = true) as Ht; [|by rewrite Ht in He].
    apply existsb_exists. exists r. split; [by apply list_elem_of_In|by apply bool_decide_eq_true].
  - assert (filter (of_session (s_id s)) (created (evidences db) (rows db) (next_id db) (sessions db)) = []) as ->.
    { by apply created_none. }
    exists (settle_row db r). split; [done|]. split_and!.
    + rewrite settle_row_kind. pose proof (upload_kind _ _ Hdb) as Hk. rewrite Forall_forall in Hk. apply Hk; [done|].
      unfold has_session. by rewrite Hid.
    + apply settle_reports; [done..| |done]. by rewrite take_ge by lia.
    + intros r' Hr' Hid'. rewrite settle_row_id. f_equal. symmetry.
      assert (r' ∈ [r]) as ->%list_elem_of_singleton; [|done].
      rewrite <-(filter_key upload_session_id (s_id s) (rows db) r); [|apply Hdb|done..]. apply list_elem_of_filter. by rewrite bool_decide_spec.
Qed.

(** After a pass the operation of a promoted session is completed, even when
    it was queued for the processing of its evidence and the evidence is still
    pending or being processed; and once it is completed it stays so when the
    processing fails.  Only an operation found queued or running after the
    processing has ended is told of it. *)
Lemma processing_forgotten db r s :
  linked uuid_text db -> r ∈ rows db -> s ∈ take 500 (sessions db) -> upload_session_id r = Some (s_id s) ->
  s_status s = s_promoted ->
  exists db' stats r', pass db = Ok (db', stats) /\ r' ∈ rows db' /\ o_id r' = o_id r /\
    (match live_evidence is_uuid (evidences db) s with
     | Some e => evidences db !! e <> Some i_failed \/ o_status r ∉ [queued; running]
     | None => True
     end -> o_status r' = completed).
Proof.
  intros Hdb Hr Hs Hid Hp. destruct (reconcile_spec uuid_text is_uuid st_mtime backend_temp_dir now retention_seconds db Hdb) as (db' & stats & Hrun & Hrows).
  exists db', stats, (settle_row db r). split_and!; [done| |apply settle_row_id|].
  { rewrite Hrows. apply elem_of_app. left. by apply list_elem_of_fmap_2. }
  assert (Hset : settled s = s) by (unfold OperationReconcile.settled, expires; rewrite Hp; by destruct (bool_decide (backend s = _))).
  rewrite (settle_read db s), Hset by done. set (o := synced _ _ _ _ _).
  assert (Ho : o_status o = completed) by (unfold o; cbn; by rewrite Hp).
  intros Hcase. destruct (among _ r) eqn:E; [|done]. apply among_spec in E; [|done..].
  unfold processed. change (o_evidence_id o) with (live_evidence is_uuid (evidences db) s).
  destruct (live_evidence is_uuid (evidences db) s) as [e|]; [|done]. cbn [mbind option_bind].
  destruct (evidences db !! e) as [[| | | |]|]; [exact Ho|exact Ho|reflexivity|exact Ho| |exact Ho].
  exfalso. destruct Hcase as [Hc|Hc]; [by apply Hc|]. apply Hc.
  unfold in_processing in E. apply andb_true_iff in E as [_ E]. by apply bool_decide_eq_true in E.
Qed.

(** A pass reads 500 sessions and takes every other for missing: an operation
    that is not finished, of a session that exists but is not among the 500, is
    marked failed because its session is missing. *)
Lemma sessions_past_limit_failed db r s :
  linked uuid_text db -> s ∈ drop 500 (sessions db) -> r ∈ take 500 (filter has_session (rows db)) -> upload_session_id r = Some (s_id s) ->
  o_status r ∉ TERMINAL_OPERATION_STATUSES -> in_processing r = false ->
  exists db' stats r', pass db = Ok (db', stats) /\ r' ∈ rows db' /\ o_id r' = o_id r /\
    o_status r' = failed /\ last_error r' = Some (lit "Upload session is missing for active operation.").
Proof.
  intros Hdb Hs Hr Hid Ht Hp. destruct (reconcile_spec uuid_text is_uuid st_mtime backend_temp_dir now retention_seconds db Hdb) as (db' & stats & Hrun & Hrows).
  assert (Hin : r ∈ rows db) by by eapply selected_rows.
  assert (Hn : s_id s ∉ map s_id (take 500 (sessions db))).
  { pose proof (session_ids _ _ Hdb) as Hnd. rewrite <-(take_drop 500 (sessions db)), map_app in Hnd. apply NoDup_app in Hnd as (_ & Hnd & _).
    intros H. apply (Hnd _ H). by apply list_elem_of_fmap_2. }
  exists db', stats, (settle_row db r). split_and!; [done|rewrite Hrows; apply elem_of_app; left; by apply list_elem_of_fmap_2|apply settle_row_id|..].
  all: unfold OperationReconcile.settle_row, follow; rewrite session_of_none, (among_in _ _ Hr) by
    (intros s' Hs'; rewrite Hid; intros [= Heq]; apply Hn; rewrite Heq; by apply list_elem_of_fmap_2).
  all: destruct (among (take 500 (filter in_processing _)) r) eqn:E; [apply among_spec in E; congruence|].
  all: cbn [option_map from_option]; unfold Datatypes.id, orphaned; rewrite Hid, (bool_decide_eq_true_2 (_ ∉ _)), (bool_decide_eq_false_2 (_ ∈ _)) by done; done.
Qed.
End outcome.
End OperationOutcome.

Module OperationExamples.
Import OperationOutcome.

Definition op_id (n : nat) : str := lit "op" ++ [Z.of_nat n].
Definition at_epoch (p : path) : Z := 0.
Definition any_id (text : str) : bool := true.

Definition a_session (name : str) (status : session_status) (evidence : option str) : EvidenceUploadSession :=
  {| s_id := name; s_case_id := lit "case"; s_status := status; original_filename := lit "disk.E01"; staged_path := [lit "tmp"; lit "disk.E01"];
     is_folder := false; is_server_path := false; size_bytes := 1000; expected_size_bytes := Some 1000; s_bytes_received := 1000; s_sha256 := None;
     declared_platform := None; category := None; current_stage := None; backend := None; unified_status := None; s_expires_at := 50;
     promoted_evidence_id := evidence; failure_message := None; s_created_at := 10 |}.
Definition a_row (id session : str) (status : operation_status) (evidence : option str) : EvidenceOperation :=
  {| o_id := id; o_case_id := lit "case"; upload_session_id := Some session; o_evidence_id := evidence; kind := lit "upload";
     o_status := status; o_stage := lit "x"; owner := lit "backend"; progress := None; bytes_received := None;
     o_expected_size_bytes := None; started_at := Some 10; completed_at := None; last_error := None; metadata_json := None |}.

(** One session is staged and due, one promoted with its evidence being
    processed, one being checked without an operation. *)
Definition three : database :=
  {| sessions := [a_session (lit "s1") s_staged None; a_session (lit "s2") s_promoted (Some (lit "e2")); a_session (lit "s3") s_preflight_running None];
     rows := [a_row (lit "r1") (lit "s1") waiting_user None; a_row (lit "r2") (lit "s2") queued (Some (lit "e2"))];
     changed := ∅; added := []; evidences := {[ lit "e2" := i_processing ]}; files := ∅; next_id := 0 |}.

Lemma op_id_new n ids : forallb (fun id => match id with c :: _ => negb (c =? 111) | [] => true end) ids = true -> op_id n ∉ ids.
Proof. intros Hf Hin%list_elem_of_In. rewrite forallb_forall in Hf. by specialize (Hf _ Hin). Qed.

Lemma three_linked : linked op_id three.
Proof.
  split; try reflexivity; try (apply (bool_decide_eq_true_1 _); vm_compute; reflexivity).
  intros n _. by apply op_id_new.
Qed.

Lemma reconcile_settles_witness :
  linked op_id three /\
  exists db' stats, reconcile_evidence_operations op_id any_id at_epoch [lit "backend"] 100 600 three = Ok (db', stats) /\
    forall s, s ∈ sessions three -> exists o,
      filter (of_session (s_id s)) (rows db') = [o] /\ kind o = lit "upload" /\ reports any_id (evidences three) (settled 100 s) o /\
      (forall r, r ∈ rows three -> upload_session_id r = Some (s_id s) -> o_id o = o_id r).
Proof. split; [exact three_linked|]. apply reconcile_settles; [exact three_linked|cbn; lia]. Defined.

Lemma operations_timed_witness :
  exists db', fst <$> match reconcile_evidence_operations op_id any_id at_epoch [lit "backend"] 100 600 three with Ok x => Some x | _ => None end = Some db' /\
    all_ops timed db' /\ map o_status (rows db') = [expired; completed; preflight] /\ map completed_at (rows db') = [Some 100; Some 100; None].
Proof.
  destruct (reconcile_evidence_operations op_id any_id at_epoch [lit "backend"] 100 600 three) as [[db' stats]| |] eqn:E;
    [|vm_compute in E; discriminate..].
  exists db'. split; [done|]. split; [|vm_compute in E; injection E as <- <-; by split].
  refine (proj2 (proj2 (operations_timed op_id any_id at_epoch [lit "backend"])) 100 600 three db' stats _ E).
  split; [|by apply map_Forall_empty|by constructor]. repeat (apply Forall_cons_2; [unfold timed; apply (bool_decide_eq_true_1 _); vm_compute; reflexivity|]). by constructor.
Defined.

(** The promoted session's operation while its evidence is processed, and after
    the processing has failed. *)
Lemma processing_forgotten_witness :
  linked op_id three /\
  exists db' stats r', reconcile_evidence_operations op_id any_id at_epoch [lit "backend"] 100 600 three = Ok (db', stats) /\ r' ∈ rows db' /\
    o_id r' = lit "r2" /\
    (match live_evidence any_id (evidences three) (a_session (lit "s2") s_promoted (Some (lit "e2"))) with
     | Some e => evidences three !! e <> Some i_failed \/ queued ∉ [queued; running]
     | None => True
     end -> o_status r' = completed).
Proof.
  split; [exact three_linked|].
  apply (processing_forgotten op_id any_id at_epoch [lit "backend"] 100 600 three
           (a_row (lit "r2") (lit "s2") queued (Some (lit "e2"))) (a_session (lit "s2") s_promoted (Some (lit "e2"))));
    [exact three_linked|cbn; right; left|cbn; right; left|reflexivity|reflexivity].
Defined.

(** 501 sessions, and the operation of the last. *)
Definition many : database :=
  {| sessions := map (fun i => a_session [Z.of_nat i] s_created None) (seq 0 501);
     rows := [a_row (lit "r1") [500] waiting_upload None];
     changed := ∅; added := []; evidences := ∅; files := ∅; next_id := 0 |}.

Lemma many_linked : linked op_id many.
Proof.
  split; try reflexivity; try (apply (bool_decide_eq_true_1 _); vm_compute; reflexivity).
  intros n _. by apply op_id_new.
Qed.

Lemma sessions_past_limit_failed_witness :
  linked op_id many /\
  exists db' stats r', reconcile_evidence_operations op_id any_id at_epoch [lit "backend"] 20 600 many = Ok (db', stats) /\ r' ∈ rows db' /\
    o_id r' = lit "r1" /\ o_status r' = failed /\ last_error r' = Some (lit "Upload session is missing for active operation.").
Proof.
  split; [exact many_linked|].
  apply (sessions_past_limit_failed op_id any_id at_epoch [lit "backend"] 20 600 many (a_row (lit "r1") [500] waiting_upload None)
           (a_session [500] s_created None)); [exact many_linked|left|left|reflexivity| |reflexivity].
  apply (bool_decide_eq_false_1 _). vm_compute. reflexivity.
Defined.
End OperationExamples.
