(* ===== verification/ExperimentalTrust.v ===== *)
(** services/memory/experimental_trust.py, experimental_catalogue.py and
    experimental_acknowledgement.py: the states of an experimental run, which
    symbol may be used for one, what it may run, and what an analyst must
    confirm.  The texts shown to analysts are left out. *)
From S2P Require Import Prelude PyBase PyRuntime.
Import Str PyRuntime.

Module ExperimentalTrust.

(** * States *)
Inductive run_status : Type :=
  | candidate_unavailable | acknowledgement_required | canary_queued | canary_running | canary_passed | canary_degraded
  | canary_failed | canary_inconclusive | full_run_queued | full_run_running | completed_untrusted | partial_untrusted
  | failed_untrusted | cancelled | deleted.
#[export] Instance run_status_eq_dec : EqDecision run_status.
Proof. solve_decision. Defined.

Inductive canary_status : Type := pending | running | passed | degraded | failed | inconclusive | skipped.
#[export] Instance canary_status_eq_dec : EqDecision canary_status.
Proof. solve_decision. Defined.

Inductive cache_classification : Type := exact | experimental_candidate.
#[export] Instance cache_classification_eq_dec : EqDecision cache_classification.
Proof. solve_decision. Defined.

Inductive analysis_mode : Type := mode_validated | mode_experimental.
#[export] Instance analysis_mode_eq_dec : EqDecision analysis_mode.
Proof. solve_decision. Defined.
Inductive trust_level : Type := trust_validated | trust_untrusted.
#[export] Instance trust_level_eq_dec : EqDecision trust_level.
Proof. solve_decision. Defined.

(** * Symbols *)
Record identity := { pdb_name : str; pdb_guid : str; pdb_age : Z; architecture : str }.
#[export] Instance identity_eq_dec : EqDecision identity.
Proof. solve_decision. Defined.

Record MemorySymbolRequirement := {
  req_id : str;
  req_case_id : str;
  req_evidence_id : str;
  req_created_at : Z;
  req_identity : identity }.

Record MemoryCachedSymbol := {
  sym_id : str;
  sym_identity : identity;
  pdb_relative_path : list str;
  isf_relative_path : list str;
  pdb_sha256 : str;
  isf_sha256 : str;
  validation_status : str;
  classification : cache_classification;
  required_pdb_guid : option str;
  required_pdb_age : option Z }.

(** What a scan run says of its trust; the columns are never null. *)
Record scan_trust := { t_mode : analysis_mode; t_level : trust_level }.
Definition is_validated_run (run : option scan_trust) : bool :=
  match run with
  | None => true
  | Some t => bool_decide (t_mode t = mode_validated) && bool_decide (t_level t = trust_validated)
  end.
Definition is_experimental_run (run : option scan_trust) : bool :=
  match run with
  | None => false
  | Some t => bool_decide (t_mode t = mode_experimental) && bool_decide (t_level t = trust_untrusted)
  end.

Definition is_validated_plugin (p : option scan_trust) : bool :=
  match p with None => true | Some t => bool_decide (t_mode t = mode_validated) end.
Definition is_experimental_candidate_cache_row (cache : option MemoryCachedSymbol) : bool :=
  match cache with None => false | Some c => bool_decide (classification c = experimental_candidate) end.

(** * Eligibility *)
Inductive match_type : Type := guid_only_age_mismatch.
#[export] Instance match_type_eq_dec : EqDecision match_type.
Proof. solve_decision. Defined.
Record verdict := { eligible : bool; error_code : option str; v_match_type : option match_type }.
Definition refused (code : str) : verdict := {| eligible := false; error_code := Some code; v_match_type := None |}.

Section eligibility.
Context `{Runtime}.

Definition normalize_pdb_name (name : str) : str := py_lower (strip name).

Definition compatible_pairs : list (str * str) :=
  [(lit "x64", lit "amd64"); (lit "x86", lit "i386"); (lit "arm64", lit "aarch64")].
Definition architectures_compatible (required observed : str) : bool :=
  match required, observed with
  | [], _ | _, [] => false
  | _, _ =>
      let a := py_lower (strip required) in
      let b := py_lower (strip observed) in
      bool_decide (a = b) || bool_decide ((a, b) ∈ compatible_pairs) || bool_decide ((b, a) ∈ compatible_pairs)
  end.

Definition evaluate_candidate_eligibility (requirement : option MemorySymbolRequirement) (cache : option MemoryCachedSymbol) : verdict :=
  match requirement, cache with
  | None, _ => refused (lit "EXPERIMENTAL_REQUIREMENT_MISSING")
  | _, None => refused (lit "EXPERIMENTAL_CANDIDATE_MISSING")
  | Some requirement, Some cache =>
      let wanted := req_identity requirement in
      let got := sym_identity cache in
      if negb (bool_decide (normalize_pdb_name (pdb_guid got) = normalize_pdb_name (pdb_guid wanted)))
      then refused (lit "EXPERIMENTAL_GUID_MISMATCH")
      else if negb (bool_decide (normalize_pdb_name (pdb_name got) = normalize_pdb_name (pdb_name wanted)))
      then refused (lit "EXPERIMENTAL_NAME_MISMATCH")
      else if negb (architectures_compatible (architecture got) (architecture wanted))
      then refused (lit "EXPERIMENTAL_ARCHITECTURE_MISMATCH")
      else if bool_decide (pdb_guid got = []) || bool_decide (pdb_name got = [])
      then refused (lit "EXPERIMENTAL_IDENTITY_INCOMPLETE")
      else if negb (bool_decide (classification cache = experimental_candidate))
      then refused (lit "EXPERIMENTAL_CANDIDATE_NOT_CLASSIFIED")
      else if negb (bool_decide (validation_status cache ∈ [lit "validated"; lit "usable"; lit "ready"]))
      then refused (lit "EXPERIMENTAL_ISF_SCHEMA_INVALID")
      else if pdb_age got =? pdb_age wanted
      then refused (lit "EXPERIMENTAL_EXACT_MATCH_NOT_ELIGIBLE")
      else {| eligible := true; error_code := None; v_match_type := Some guid_only_age_mismatch |}
  end.
End eligibility.

(** * The catalogue *)
Definition EXPERIMENTAL_CANARY_PROFILE : str := lit "experimental_canary".
Definition EXPERIMENTAL_CANARY_PLUGINS : list str := [lit "windows.info"].

Record experimental_profile := {
  profile : str;
  family : str;
  cost_label : str;
  est_duration_seconds : Z;
  requires_canary_pass : bool;
  plugins : list str;
  supported_os_families : list str }.
Definition windows_profile (name family cost : str) (seconds : Z) (plugins : list str) : experimental_profile :=
  {| profile := name; family := family; cost_label := cost; est_duration_seconds := seconds; requires_canary_pass := true;
     plugins := plugins; supported_os_families := [lit "windows"] |}.
Definition EXPERIMENTAL_PROFILES : list experimental_profile := [
  windows_profile (lit "experimental_metadata") (lit "system_info") (lit "Fast") 30 [lit "windows.info"];
  windows_profile (lit "experimental_processes") (lit "processes") (lit "Medium") 180
    [lit "windows.info"; lit "windows.pslist"; lit "windows.pstree"; lit "windows.psscan"];
  windows_profile (lit "experimental_process_scan") (lit "processes") (lit "Medium") 240
    [lit "windows.info"; lit "windows.pslist"; lit "windows.psscan"];
  windows_profile (lit "experimental_command_lines") (lit "processes") (lit "Medium") 180
    [lit "windows.info"; lit "windows.pslist"; lit "windows.cmdline"];
  windows_profile (lit "experimental_modules") (lit "modules") (lit "Medium") 180
    [lit "windows.info"; lit "windows.modules"; lit "windows.driverscan"];
  windows_profile (lit "experimental_network") (lit "network") (lit "Medium") 120 [lit "windows.info"; lit "windows.netscan"];
  windows_profile (lit "experimental_suspicious_memory") (lit "suspicious_regions") (lit "Slow") 1800
    [lit "windows.info"; lit "windows.malfind"] ].

Definition list_experimental_profiles : list experimental_profile := EXPERIMENTAL_PROFILES.
Definition profile_names : list str := map profile EXPERIMENTAL_PROFILES.
Definition get_experimental_profile (name : str) : option experimental_profile :=
  head (filter (fun p => bool_decide (profile p = name)) EXPERIMENTAL_PROFILES).
Definition allowed_profiles_for_canary_outcome (status : canary_status) : list str :=
  match status with
  | passed => profile_names
  | degraded => [lit "experimental_metadata"; lit "experimental_modules"]
  | _ => []
  end.

(** * Acknowledgement *)
Section acknowledgement.
Context `{Runtime}.
(** [str(...)] of containers, the hash of a payload's canonical text, and the
    version set on the server, which the code takes unless it is empty. *)
Variables (repr : json -> str) (fingerprint_acknowledgement : list (str * json) -> str) (configured_version : str).

Definition EXPERIMENTAL_ACK_WARNING_VERSION : str := lit "experimental-mismatch-ack-v1".
Definition forbidden_ack_fields : list str :=
  [lit "actor"; lit "acknowledged_at"; lit "warning_version"; lit "required_identity"; lit "observed_identity"; lit "warning_text"].

Record acknowledgement := {
  a_run_id : str;
  a_actor : str;
  a_warning_version : str;
  a_required : identity;
  a_observed : identity;
  a_fingerprint : str }.

Definition field_of (name : str) (default : json) (payload : list (str * json)) : json :=
  match Dict.get name payload with Some v => v | None => default end.

Definition validate_acknowledgement_payload (payload : json) (run_id : str) (expected_required expected_observed : identity)
    : str + acknowledgement :=
  match payload with
  | JDict payload =>
      if existsb (fun k => bool_decide (k ∈ forbidden_ack_fields)) (Dict.keys payload)
      then inl (lit "EXPERIMENTAL_ACK_CLIENT_FIELDS_FORBIDDEN")
      else if negb (bool_decide (lit "checkbox_confirmed" ∈ Dict.keys payload))
      then inl (lit "EXPERIMENTAL_ACK_FIELDS_MISSING")
      else if negb (truthy (field_of (lit "checkbox_confirmed") JNull payload))
      then inl (lit "EXPERIMENTAL_ACK_CHECKBOX_NOT_CONFIRMED")
      else inr {| a_run_id := run_id;
                  a_actor := strip (py_str repr (field_of (lit "client_actor_label") (JStr []) payload));
                  a_warning_version := match configured_version with [] => EXPERIMENTAL_ACK_WARNING_VERSION | v => v end;
                  a_required := expected_required; a_observed := expected_observed;
                  a_fingerprint := fingerprint_acknowledgement payload |}
  | _ => inl (lit "EXPERIMENTAL_ACK_PAYLOAD_INVALID")
  end.
End acknowledgement.
End ExperimentalTrust.
