(* ===== verification/ExperimentalCanary.v ===== *)
(** services/memory/experimental_canary.py: the checks made on the output of a
    few plugins before an experimental run may go on, and their verdict.  The
    details and values shown with a check are left out. *)
From S2P Require Import Prelude PyBase PyRuntime PyFloat ExperimentalTrust.
Import Bytes Str PyRuntime PyFloat ExperimentalTrust.

Module ExperimentalCanary.

(** * [int] of a parsed value *)
Inductive int_error : Type := IntValueError | IntOverflowError | IntTypeError.
#[export] Instance int_error_eq_dec : EqDecision int_error.
Proof. solve_decision. Defined.

(** The digits of a number in some base, with single underscores between them. *)
Definition digit_in (base c : Z) : option Z :=
  let v := match decimal_value c with
           | Some d => d
           | None => if in_ranges [(97, 102)] c then c - 87 else if in_ranges [(65, 70)] c then c - 55 else base
           end in
  if v <? base then Some v else None.
Fixpoint digits_in (base : Z) (s : str) (after_digit : bool) : option (list Z) :=
  match s with
  | [] => if after_digit then Some [] else None
  | c :: s' =>
      match digit_in base c with
      | Some d => option_map (cons d) (digits_in base s' true)
      | None => if (c =? code "_") && after_digit then digits_in base s' false else None
      end
  end.
Definition value_in (base : Z) (ds : list Z) : Z := fold_left (fun a d => base * a + d) ds 0.
Definition base_of (c : Z) : option Z :=
  if one_of (lit "xX") c then Some 16 else if one_of (lit "oO") c then Some 8 else if one_of (lit "bB") c then Some 2 else None.

Definition unsigned_base0 (body : str) : option Z :=
  match body with
  | z :: x :: rest =>
      match (if bool_decide (decimal_value z = Some 0) then base_of x else None) with
      | Some base => option_map (value_in base) (digits_in base (match rest with c :: r => if c =? code "_" then r else rest | [] => rest end) false)
      | None =>
          ds ← digits_in 10 body false;
          if bool_decide (decimal_value z = Some 0) && existsb (fun d => negb (d =? 0)) ds then None
          else if (int_max_str_digits <? length ds)%nat then None
          else Some (value_in 10 ds)
      end
  | _ => option_map (value_in 10) (digits_in 10 body false)
  end.
(** [int(text, 0)]; [None] stands for [ValueError]. *)
Definition py_int_base0 (s : str) : option Z :=
  match strip s with
  | c :: r => if c =? code "-" then option_map Z.opp (unsigned_base0 r) else if c =? code "+" then unsigned_base0 r else unsigned_base0 (c :: r)
  | [] => None
  end.

Section canary.
Context `{Runtime}.
(** [str(...)] of containers, which floats are infinite, and the texts
    [datetime.fromisoformat] accepts. *)
Variables (repr : json -> str) (float_is_inf : float -> bool) (fromisoformat : str -> bool).

Abbreviation row := (list (str * json)).
Abbreviation res := (result int_error).

Definition int_of (v : json) : res Z :=
  match v with
  | JInt n => Ok n
  | JBool b => Ok (if b then 1 else 0)
  | JFloat f => match float_trunc f with Some n => Ok n | None => Raise (if float_is_inf f then IntOverflowError else IntValueError) end
  | JStr s => of_option IntValueError (py_int s)
  | JNull | JList _ | JDict _ => Raise IntTypeError
  end.

(** [row.get(a) or row.get(b)] *)
Definition either (a b : str) (r : row) : json :=
  let v := field_of a JNull r in if truthy v then v else field_of b JNull r.
Definition pid_of (r : row) : res Z := int_of (field_of (lit "pid") (JInt (-1)) r).
Definition is_null (v : json) : bool := match v with JNull => true | _ => false end.
Definition has_pid (r : row) : bool := negb (is_null (field_of (lit "pid") JNull r)).
(** [k / n > a / b] and [k / n < a / b] as floats. *)
Definition ratio_gt (k n a b : Z) : bool := float_lt (float_ratio a b) (float_ratio k n).
Definition ratio_lt (k n a b : Z) : bool := float_lt (float_ratio k n) (float_ratio a b).
Definition count {A} (p : A -> bool) (l : list A) : Z := Z.of_nat (length (filter p l)).

(** * The checks *)
Definition _check_layer_construction (rows : list row) : res canary_status :=
  Ok (match rows with [] => failed | _ => passed end).

Definition _check_kernel_base (rows : list row) : res canary_status :=
  Ok (match rows with
      | [] => failed
      | r :: _ => if truthy (either (lit "kernel_base") (lit "ntoskrnl_base") r) then passed else inconclusive
      end).

Definition _check_pid_4_system (rows : list row) : res canary_status :=
  match rows with
  | [] => Ok inconclusive
  | _ =>
      let! has_pid_4 := anyM (fun r => let! pid := pid_of r in Ok (pid =? 4)) rows in
      Ok (if has_pid_4 : bool then passed else degraded)
  end.

(** [^[\x20-\x7e]+$] matches before a final newline too. *)
Definition printable (s : str) : bool :=
  let body := match rev s with c :: r => if c =? 10 then rev r else s | [] => s end in
  match body with [] => false | _ => forallb (in_ranges [(0x20, 0x7e)]) body end.
Definition _check_printable_process_names (rows : list row) : res canary_status :=
  match rows with
  | [] => Ok inconclusive
  | _ =>
      let bad := count (fun r => negb (printable (py_str repr (field_of (lit "name") (JStr []) r)))) rows in
      Ok (if ratio_gt bad (len rows) 10 100 then failed else if ratio_gt bad (len rows) 2 100 then degraded else passed)
  end.

Definition _check_pid_ranges (rows : list row) : res canary_status :=
  match rows with
  | [] => Ok inconclusive
  | _ =>
      let! pids := mapM_py pid_of (filter has_pid rows) in
      Ok (match pids with
          | [] => inconclusive
          | _ => if existsb (fun pid => (pid <? 0) || (100000 <? pid)) pids then degraded else passed
          end)
  end.

(** [datetime.fromisoformat(ts.replace("Z", "+00:00"))], of a text *)
Definition parseable (ts : json) : bool :=
  match ts with
  | JStr s => fromisoformat (flat_map (fun c => if c =? code "Z" then lit "+00:00" else [c]) s)
  | _ => true
  end.
Definition _check_timestamps (rows : list row) : res canary_status :=
  match rows with
  | [] => Ok inconclusive
  | _ =>
      let sample := filter (fun ts => negb (is_null ts)) (map (either (lit "create_time") (lit "created")) (take 50 rows)) in
      Ok (match sample with
          | [] => inconclusive
          | _ => if ratio_lt (count parseable sample) (len sample) 5 10 then failed else passed
          end)
  end.

Definition blank (key : str) (r : row) : bool :=
  match strip (py_str repr (field_of key (JStr []) r)) with [] => true | _ => false end.
Definition _check_malformed_ratio (rows : list row) : res canary_status :=
  match rows with
  | [] => Ok inconclusive
  | _ =>
      let bad := count (fun r => blank (lit "pid") r || blank (lit "name") r) rows in
      Ok (if ratio_gt bad (len rows) 30 100 then failed else if ratio_gt bad (len rows) 5 100 then degraded else passed)
  end.

Definition out_of_range (r : row) : res bool :=
  match either (lit "base_address") (lit "offset") r with
  | JNull => Ok false
  | addr =>
      match (match addr with JStr s => of_option IntValueError (py_int_base0 s) | _ => int_of addr end) with
      | Ok value => Ok (negb ((0xFFFF000000000000 <=? value) && (value <=? 0xFFFFFFFFFFFFFFFF)))
      | Raise IntOverflowError => Raise IntOverflowError
      | Raise _ => Ok true
      | OutOfFuel => OutOfFuel
      end
  end.
Definition _check_offsets_in_range (rows : list row) : res canary_status :=
  match rows with
  | [] => Ok inconclusive
  | _ =>
      let! outside := mapM_py out_of_range rows in
      Ok (if existsb Datatypes.id outside then degraded else passed)
  end.

Definition CANARY_CHECKS : list (str * (list row -> res canary_status)) := [
  (lit "layer_construction", _check_layer_construction);
  (lit "kernel_base_present", _check_kernel_base);
  (lit "pid_4_system", _check_pid_4_system);
  (lit "printable_process_names", _check_printable_process_names);
  (lit "pid_ranges", _check_pid_ranges);
  (lit "timestamps_parseable", _check_timestamps);
  (lit "malformed_ratio", _check_malformed_ratio);
  (lit "offsets_in_range", _check_offsets_in_range) ].

Abbreviation plugin_rows_t := (list (str * list row)).
Definition _coerce_rows (plugin_rows : plugin_rows_t) (plugin : str) (fallback : list row) : list row :=
  match Dict.get plugin plugin_rows with Some rows => rows | None => fallback end.

Definition pids_of (rows : list row) : res (gset Z) :=
  let! pids := mapM_py pid_of (filter has_pid rows) in Ok (list_to_set pids).
Definition _check_cross_plugin_overlap (plugin_rows : plugin_rows_t) : res canary_status :=
  let! pslist := pids_of (_coerce_rows plugin_rows (lit "windows.pslist") []) in
  let! psscan := pids_of (_coerce_rows plugin_rows (lit "windows.psscan") []) in
  if bool_decide (pslist = ∅) || bool_decide (psscan = ∅) then Ok inconclusive
  else
    let common := Z.of_nat (size (pslist ∩ psscan)) in
    let total := Z.max 1 (Z.of_nat (size (pslist ∪ psscan))) in
    Ok (if ratio_lt common total 20 100 then failed else if ratio_lt common total 50 100 then degraded else passed).

Definition _check_plugin_failure_ratio (plugin_results : list (str * str)) : canary_status :=
  match plugin_results with
  | [] => inconclusive
  | _ =>
      let failures := count (fun kv => negb (bool_decide (snd kv = lit "completed"))) plugin_results in
      let total := len plugin_results in
      if negb (ratio_lt failures total 5 10) then failed else if 0 <? failures then degraded else passed
  end.

(** * The verdict *)
Definition _aggregate_status (checks : list (str * canary_status)) : canary_status :=
  let statuses := map snd checks in
  if bool_decide (failed ∈ statuses) then failed
  else if negb (bool_decide (statuses = [])) && forallb (fun s => bool_decide (s = passed)) statuses then passed
  else if bool_decide (inconclusive ∈ statuses) && negb (bool_decide (passed ∈ statuses)) && negb (bool_decide (degraded ∈ statuses))
  then inconclusive
  else degraded.

(** Quarters; the score is in ten-thousandths, as [round(..., 4)] leaves it. *)
Definition weight (s : canary_status) : Z :=
  match s with passed => 4 | degraded => 2 | inconclusive => 1 | _ => 0 end.
Definition _score (checks : list (str * canary_status)) : Z :=
  match checks with
  | [] => 0
  | _ =>
      let x := float_ratio (foldr Z.add 0 (map (fun c => weight (snd c)) checks)) (4 * len checks) in
      round_div (10000 * fst x * 2 ^ Z.max 0 (snd x)) (2 ^ Z.max 0 (- snd x))
  end.

Record canary_result := {
  checks : list (str * canary_status);
  status : canary_status;
  score : Z;
  checks_passed : Z;
  checks_degraded : Z;
  checks_failed : Z;
  checks_inconclusive : Z }.

(** The rows a check is given. *)
Definition rows_for (name : str) (rows : list row) (plugin_rows : plugin_rows_t) : list row :=
  match plugin_rows with
  | [] => rows
  | _ =>
      if bool_decide (name = lit "layer_construction") then _coerce_rows plugin_rows (lit "windows.info") rows
      else if bool_decide (name ∈ [lit "pid_4_system"; lit "printable_process_names"; lit "pid_ranges"; lit "timestamps_parseable"; lit "malformed_ratio"])
      then _coerce_rows plugin_rows (lit "windows.pslist") rows
      else if bool_decide (name = lit "offsets_in_range") then _coerce_rows plugin_rows (lit "windows.modules") rows
      else rows
  end.
(** An exception of a check makes it inconclusive. *)
Definition run_check (rows : list row) (plugin_rows : plugin_rows_t) (c : str * (list row -> res canary_status)) : str * canary_status :=
  (fst c, match snd c (rows_for (fst c) rows plugin_rows) with Ok s => s | _ => inconclusive end).

Definition evaluate_canary (rows : list row) (plugin_rows : plugin_rows_t) (plugin_results : list (str * str)) : res canary_result :=
  let own := map (run_check rows plugin_rows) CANARY_CHECKS in
  let! checks :=
    match plugin_rows with
    | [] => Ok own
    | _ =>
        let! overlap := _check_cross_plugin_overlap plugin_rows in
        Ok (own ++ [(lit "cross_plugin_process_overlap", overlap); (lit "plugin_failure_ratio", _check_plugin_failure_ratio plugin_results)])
    end in
  let count_of := fun s => count (fun c => bool_decide (snd c = s)) checks in
  Ok {| checks := checks; status := _aggregate_status checks; score := _score checks;
        checks_passed := count_of passed; checks_degraded := count_of degraded;
        checks_failed := count_of failed; checks_inconclusive := count_of inconclusive |}.
End canary.
End ExperimentalCanary.
