(* ===== verification/ExperimentalModel.v ===== *)
(** models/memory.py and services/memory/experimental_lifecycle.py: the rows of
    an experimental run, the world its requests and workers share, the database
    steps on it, and the transitions of a run as functions of a loaded row. *)
From S2P Require Import Prelude PyBase PyRuntime FileSystem Handlers ExperimentalTrust ExperimentalCanary.
Import Bytes Str PyRuntime FileSystem Handlers ExperimentalTrust ExperimentalCanary.

Module ExperimentalModel.

(** * Errors *)
Inductive run_exn : Type :=
  | ExperimentalLifecycleError (error : str) (http_status : Z)
  | ExperimentalImportError (error : str)
  | HTTPException (status_code : Z)
  | IntegrityError
  | RunOs (e : os_error)
  | RunPy (e : py_exn)
  | CheckError (e : int_error).
#[export] Instance run_exn_eq_dec : EqDecision run_exn.
Proof. solve_decision. Defined.
Definition lifecycle_error (error : string) : Z -> run_exn := ExperimentalLifecycleError (lit error).
Definition import_error (error : string) : run_exn := ExperimentalImportError (lit error).

(** * Rows *)
Record MemoryExperimentalSymbolCandidate := {
  candidate_id : str;
  c_case_id : str;
  c_evidence_id : str;
  c_requirement_id : str;
  c_cached_symbol_id : str;
  c_required : identity;
  c_observed : identity;
  c_match_type : match_type;
  c_actor : str;
  c_source_host_path : option str;
  c_pdb_sha256 : str;
  c_isf_sha256 : str;
  c_created_at : Z;
  revoked_at : option Z;
  revoked_by : option str;
  revocation_reason : option str }.
#[export] Instance candidate_eq_dec : EqDecision MemoryExperimentalSymbolCandidate.
Proof. solve_decision. Defined.
#[export] Instance candidate_rebuild : Rebuild MemoryExperimentalSymbolCandidate := fun c =>
  Build_MemoryExperimentalSymbolCandidate (candidate_id c) (c_case_id c) (c_evidence_id c) (c_requirement_id c) (c_cached_symbol_id c)
    (c_required c) (c_observed c) (c_match_type c) (c_actor c) (c_source_host_path c) (c_pdb_sha256 c) (c_isf_sha256 c) (c_created_at c)
    (revoked_at c) (revoked_by c) (revocation_reason c).

(** The columns [acknowledgement_required_*] or [acknowledgement_observed_*]. *)
Record identity_columns := {
  i_pdb_name : option str;
  i_pdb_guid : option str;
  i_pdb_age : option Z;
  i_architecture : option str }.
#[export] Instance identity_columns_eq_dec : EqDecision identity_columns.
Proof. solve_decision. Defined.
Definition no_identity : identity_columns := {| i_pdb_name := None; i_pdb_guid := None; i_pdb_age := None; i_architecture := None |}.
Definition identity_in (i : identity) : identity_columns :=
  {| i_pdb_name := Some (pdb_name i); i_pdb_guid := Some (pdb_guid i); i_pdb_age := Some (pdb_age i);
     i_architecture := Some (architecture i) |}.

#[export] Instance canary_result_eq_dec : EqDecision canary_result.
Proof. solve_decision. Defined.

Record MemoryExperimentalRun := {
  run_id : str;
  r_case_id : str;
  r_evidence_id : str;
  r_candidate_id : str;
  r_requirement_id : str;
  r_cached_symbol_id : str;
  requested_profiles : list str;
  r_created_at : Z;
  r_status : run_status;
  acknowledgement_actor : option str;
  acknowledgement_at : option Z;
  acknowledgement_warning_version : option str;
  acknowledgement_required_identity : identity_columns;
  acknowledgement_observed : identity_columns;
  r_canary_status : canary_status;
  canary_started_at : option Z;
  canary_completed_at : option Z;
  canary_score : option Z;
  canary_checks : list (str * canary_status);
  canary_summary : option (canary_result * Z);
  canary_override_required : bool;
  canary_override_at : option Z;
  canary_override_actor : option str;
  canary_override_reason : option str;
  canary_worker_task_id : option str;
  full_worker_task_id : option str;
  profiles_queued : Z;
  profiles_completed : Z;
  profiles_failed : Z;
  profiles_cancelled : Z;
  started_at : option Z;
  completed_at : option Z;
  cancelled_at : option Z;
  cancelled_by : option str;
  cancellation_reason : option str;
  deleted_at : option Z;
  deleted_by : option str;
  deletion_reason : option str;
  audit_metadata_json : list (str * str);
  updated_at : Z }.
#[export] Instance run_eq_dec : EqDecision MemoryExperimentalRun.
Proof. solve_decision. Defined.
#[export] Instance run_rebuild : Rebuild MemoryExperimentalRun := fun r =>
  Build_MemoryExperimentalRun (run_id r) (r_case_id r) (r_evidence_id r) (r_candidate_id r) (r_requirement_id r) (r_cached_symbol_id r)
    (requested_profiles r) (r_created_at r) (r_status r) (acknowledgement_actor r) (acknowledgement_at r)
    (acknowledgement_warning_version r) (acknowledgement_required_identity r) (acknowledgement_observed r) (r_canary_status r)
    (canary_started_at r) (canary_completed_at r) (canary_score r) (canary_checks r) (canary_summary r) (canary_override_required r)
    (canary_override_at r) (canary_override_actor r) (canary_override_reason r) (canary_worker_task_id r) (full_worker_task_id r)
    (profiles_queued r) (profiles_completed r) (profiles_failed r) (profiles_cancelled r) (started_at r) (completed_at r)
    (cancelled_at r) (cancelled_by r) (cancellation_reason r) (deleted_at r) (deleted_by r) (deletion_reason r)
    (audit_metadata_json r) (updated_at r).

(** A scan run and its plugin runs; the columns that this flow reads or writes. *)
Inductive scan_status : Type := scan_pending | scan_running | scan_completed | scan_completed_with_errors | scan_failed.
#[export] Instance scan_status_eq_dec : EqDecision scan_status.
Proof. solve_decision. Defined.
Inductive plugin_status : Type := plugin_pending | plugin_running | plugin_completed | plugin_failed | plugin_timed_out.
#[export] Instance plugin_status_eq_dec : EqDecision plugin_status.
Proof. solve_decision. Defined.
#[export] Instance scan_trust_eq_dec : EqDecision scan_trust.
Proof. solve_decision. Defined.

Record MemoryScanRun := {
  scan_id : str;
  s_case_id : str;
  s_evidence_id : str;
  experimental_run_id : option str;
  s_profile : str;
  s_trust : scan_trust;
  requested_plugin_count : Z;
  s_created_at : Z;
  s_status : scan_status;
  plugins_completed : Z;
  plugins_failed : Z;
  output_dir : option path;
  s_started_at : option Z;
  s_completed_at : option Z }.
#[export] Instance scan_eq_dec : EqDecision MemoryScanRun.
Proof. solve_decision. Defined.
#[export] Instance scan_rebuild : Rebuild MemoryScanRun := fun s =>
  Build_MemoryScanRun (scan_id s) (s_case_id s) (s_evidence_id s) (experimental_run_id s) (s_profile s) (s_trust s)
    (requested_plugin_count s) (s_created_at s) (s_status s) (plugins_completed s) (plugins_failed s) (output_dir s)
    (s_started_at s) (s_completed_at s).

Record MemoryPluginRun := {
  plugin_run_id : str;
  p_scan_id : str;
  plugin : str;
  p_created_at : Z;
  p_trust : scan_trust;
  p_status : plugin_status;
  p_started_at : option Z;
  p_completed_at : option Z;
  row_count : Z;
  output_sha256 : option str;
  output_size : option Z;
  p_error_code : option str }.
#[export] Instance plugin_run_eq_dec : EqDecision MemoryPluginRun.
Proof. solve_decision. Defined.
#[export] Instance plugin_run_rebuild : Rebuild MemoryPluginRun := fun p =>
  Build_MemoryPluginRun (plugin_run_id p) (p_scan_id p) (plugin p) (p_created_at p) (p_trust p) (p_status p) (p_started_at p)
    (p_completed_at p) (row_count p) (output_sha256 p) (output_size p) (p_error_code p).

Record Evidence := { e_case_id : str; is_memory_dump : bool }.

(** * Writing back a loaded row

    At a commit an object writes the columns that differ from what was loaded. *)
Class Columns (R : Type) := {
  key : R -> str;
  merge_columns : R -> R -> R -> R;
  onupdate : Z -> R -> R }.

Definition merge_identity (loaded item current : identity_columns) : identity_columns :=
  let merge := fun {A} `{EqDecision A} (f : identity_columns -> A) => merge_column (f loaded) (f item) (f current) in
  {| i_pdb_name := merge i_pdb_name; i_pdb_guid := merge i_pdb_guid; i_pdb_age := merge i_pdb_age; i_architecture := merge i_architecture |}.

#[export] Instance run_columns : Columns MemoryExperimentalRun := {
  key := run_id;
  merge_columns loaded item current :=
    let merge := fun {A} `{EqDecision A} (f : MemoryExperimentalRun -> A) => merge_column (f loaded) (f item) (f current) in
    {| run_id := run_id current; r_case_id := r_case_id current; r_evidence_id := r_evidence_id current;
       r_candidate_id := r_candidate_id current; r_requirement_id := r_requirement_id current;
       r_cached_symbol_id := r_cached_symbol_id current; requested_profiles := requested_profiles current;
       r_created_at := r_created_at current;
       r_status := merge r_status;
       acknowledgement_actor := merge acknowledgement_actor;
       acknowledgement_at := merge acknowledgement_at;
       acknowledgement_warning_version := merge acknowledgement_warning_version;
       acknowledgement_required_identity :=
         merge_identity (acknowledgement_required_identity loaded) (acknowledgement_required_identity item) (acknowledgement_required_identity current);
       acknowledgement_observed :=
         merge_identity (acknowledgement_observed loaded) (acknowledgement_observed item) (acknowledgement_observed current);
       r_canary_status := merge r_canary_status;
       canary_started_at := merge canary_started_at;
       canary_completed_at := merge canary_completed_at;
       canary_score := merge canary_score;
       canary_checks := merge canary_checks;
       canary_summary := merge canary_summary;
       canary_override_required := merge canary_override_required;
       canary_override_at := merge canary_override_at;
       canary_override_actor := merge canary_override_actor;
       canary_override_reason := merge canary_override_reason;
       canary_worker_task_id := merge canary_worker_task_id;
       full_worker_task_id := merge full_worker_task_id;
       profiles_queued := merge profiles_queued;
       profiles_completed := merge profiles_completed;
       profiles_failed := merge profiles_failed;
       profiles_cancelled := merge profiles_cancelled;
       started_at := merge started_at;
       completed_at := merge completed_at;
       cancelled_at := merge cancelled_at;
       cancelled_by := merge cancelled_by;
       cancellation_reason := merge cancellation_reason;
       deleted_at := merge deleted_at;
       deleted_by := merge deleted_by;
       deletion_reason := merge deletion_reason;
       audit_metadata_json := merge audit_metadata_json;
       updated_at := merge updated_at |};
  onupdate now r := r <| updated_at := now |> }.

#[export] Instance candidate_columns : Columns MemoryExperimentalSymbolCandidate := {
  key := candidate_id;
  merge_columns loaded item current :=
    current <| revoked_at := merge_column (revoked_at loaded) (revoked_at item) (revoked_at current) |>
            <| revoked_by := merge_column (revoked_by loaded) (revoked_by item) (revoked_by current) |>
            <| revocation_reason := merge_column (revocation_reason loaded) (revocation_reason item) (revocation_reason current) |>;
  onupdate _ c := c }.

#[export] Instance scan_columns : Columns MemoryScanRun := {
  key := scan_id;
  merge_columns loaded item current :=
    let merge := fun {A} `{EqDecision A} (f : MemoryScanRun -> A) => merge_column (f loaded) (f item) (f current) in
    current <| s_status := merge s_status |> <| plugins_completed := merge plugins_completed |> <| plugins_failed := merge plugins_failed |>
            <| output_dir := merge output_dir |> <| s_started_at := merge s_started_at |> <| s_completed_at := merge s_completed_at |>;
  onupdate _ s := s }.

#[export] Instance plugin_columns : Columns MemoryPluginRun := {
  key := plugin_run_id;
  merge_columns loaded item current :=
    let merge := fun {A} `{EqDecision A} (f : MemoryPluginRun -> A) => merge_column (f loaded) (f item) (f current) in
    current <| p_trust := merge p_trust |> <| p_status := merge p_status |> <| p_started_at := merge p_started_at |>
            <| p_completed_at := merge p_completed_at |> <| row_count := merge row_count |> <| output_sha256 := merge output_sha256 |>
            <| output_size := merge output_size |> <| p_error_code := merge p_error_code |>;
  onupdate _ p := p }.

(** * The world *)
Record Settings := {
  memory_symbol_experimental_mismatch_enabled : bool;
  backend_data_dir : path;
  memory_output_root : option path;
  memory_plugin_output_max_bytes : Z }.

Inductive job : Type :=
  | CanaryJob (run : str)
  | ProfileJob (run profile : str)
  | DeletionJob (case evidence run : str).

(** Requirements, symbols and evidence are read only here. *)
Record world := {
  settings : Settings;
  cases : gset str;
  evidence : gmap str Evidence;
  requirements : gmap str MemorySymbolRequirement;
  symbols : gmap str MemoryCachedSymbol;
  candidates : gmap str MemoryExperimentalSymbolCandidate;
  runs : gmap str MemoryExperimentalRun;
  scans : gmap str MemoryScanRun;
  plugin_runs : gmap str MemoryPluginRun;
  files : fs;
  queue : list job;
  redis_up : bool;
  clock : Z;
  uuids : nat }.
#[export] Instance world_rebuild : Rebuild world := fun w =>
  Build_world (settings w) (cases w) (evidence w) (requirements w) (symbols w) (candidates w) (runs w) (scans w) (plugin_runs w) (files w)
    (queue w) (redis_up w) (clock w) (uuids w).

Class Stored (R : Type) := {
  table : world -> gmap str R;
  with_table : gmap str R -> world -> world }.
#[export] Instance runs_stored : Stored MemoryExperimentalRun := {
  table := runs; with_table t w := w <| runs := t |> }.
#[export] Instance candidates_stored : Stored MemoryExperimentalSymbolCandidate := {
  table := candidates; with_table t w := w <| candidates := t |> }.
#[export] Instance scans_stored : Stored MemoryScanRun := {
  table := scans; with_table t w := w <| scans := t |> }.
#[export] Instance plugin_runs_stored : Stored MemoryPluginRun := {
  table := plugin_runs; with_table t w := w <| plugin_runs := t |> }.

(** The unique indexes of the tables: what a row excludes. *)
Class Unique (R : Type) := clashes : R -> R -> bool.
Definition index_active (r : MemoryExperimentalRun) : bool :=
  bool_decide (deleted_at r = None) &&
  negb (bool_decide (r_status r ∈ [candidate_unavailable; cancelled; deleted; completed_untrusted; partial_untrusted; failed_untrusted;
                                   canary_failed; canary_inconclusive])).
#[export] Instance runs_unique : Unique MemoryExperimentalRun := fun r r' =>
  index_active r && index_active r' && bool_decide (r_case_id r = r_case_id r') && bool_decide (r_evidence_id r = r_evidence_id r').
#[export] Instance candidates_unique : Unique MemoryExperimentalSymbolCandidate := fun c c' =>
  bool_decide (revoked_at c = None) && bool_decide (revoked_at c' = None) && bool_decide (c_requirement_id c = c_requirement_id c').
#[export] Instance scans_unique : Unique MemoryScanRun := fun _ _ => false.
#[export] Instance plugin_runs_unique : Unique MemoryPluginRun := fun _ _ => false.

Definition unique_in {R} `{Unique R} (k : str) (r : R) (t : gmap str R) : bool :=
  forallb (fun kv => bool_decide (fst kv = k) || negb (clashes r (snd kv))) (map_to_list t).

Section steps.
Abbreviation prog := (prog world run_exn).

(** [uuid4()]: the texts it gives are its own. *)
Variable uuid_text : nat -> str.
Definition uuid4 : prog str :=
  Step (fun w => w <| uuids := S (uuids w) |>) (fun w => Done (Ok (uuid_text (uuids w)))).
Definition utc_now_naive : prog Z := look clock.

Definition on_files (f : fs -> result os_error fs) : prog unit :=
  attempt (fun w => match f (files w) with
                    | Ok f' => Ok (w <| files := f' |>, tt)
                    | Raise e => Raise (RunOs e)
                    | OutOfFuel => OutOfFuel
                    end).
Definition read_files {A} (f : fs -> result os_error A) : prog A :=
  attempt (fun w => match f (files w) with
                    | Ok a => Ok (w, a)
                    | Raise e => Raise (RunOs e)
                    | OutOfFuel => OutOfFuel
                    end).
Definition lift {A} (m : result run_exn A) : prog A := Done m.

(** * Database sessions *)
Section table.
Context {R : Type} `{Columns R} `{Stored R} `{Unique R} `{EqDecision R}.

Definition get (k : str) : prog (option R) := look (fun w => table w !! k).
Definition refresh (k : str) : prog R :=
  attempt (fun w => match table w !! k with
                    | Some r => Ok (w, r)
                    | None => Raise (RunPy LookupError)
                    end).
(** [db.add(new); db.commit()] *)
Definition insert_row (r : R) : prog unit :=
  attempt (fun w => if bool_decide (table w !! key r = None) && unique_in (key r) r (table w) then Ok (with_table (<[key r := r]> (table w)) w, tt) else Raise IntegrityError).
(** [db.commit()] of an object loaded as [loaded]. *)
Definition commit (loaded item : R) : prog unit :=
  attempt (fun w => match table w !! key loaded with
                    | Some current =>
                        if decide (item = loaded) then Ok (w, tt)
                        else
                          let r := onupdate (clock w) (merge_columns loaded item current) in
                          if unique_in (key loaded) r (table w) then Ok (with_table (<[key loaded := r]> (table w)) w, tt)
                          else Raise IntegrityError
                    | None => Raise (RunPy LookupError)
                    end).
(** [db.add(item); db.commit(); db.refresh(item)] *)
Definition save (loaded item : R) : prog R := commit loaded item;* refresh (key loaded).

(** Commits of other objects expire what a session has loaded: it is loaded
    again when it is next read. *)
Inductive handle : Type := Loaded (r : R) | Expired (k : str).
Definition reload (h : handle) : prog R :=
  match h with Loaded r => Done (Ok r) | Expired k => refresh k end.

(** [query.filter(p).order_by(created).first()] *)
Definition first_by (created : R -> Z) (p : R -> bool) (t : gmap str R) : option R :=
  head (Sort.sort_by created (filter (fun r => p r) (map snd (map_to_list t)))).
End table.
End steps.
Arguments handle R : clear implicits.

(** * Transitions of a loaded row *)
Abbreviation res := (result run_exn).

Definition acknowledge (now : Z) (iso : str) (required observed : identity) (a : acknowledgement) (run : MemoryExperimentalRun)
    : MemoryExperimentalRun :=
  run <| acknowledgement_actor := Some (a_actor a) |>
      <| acknowledgement_at := Some now |>
      <| acknowledgement_warning_version := Some (a_warning_version a) |>
      <| acknowledgement_required_identity := identity_in required |>
      <| acknowledgement_observed := identity_in observed |>
      <| audit_metadata_json :=
           Dict.set (lit "acknowledgement_actor_trust") (lit "unauthenticated_client_label")
             (Dict.set (lit "acknowledged_at_iso") iso
                (Dict.set (lit "acknowledgement_fingerprint") (a_fingerprint a) (audit_metadata_json run))) |>.

Definition advance_to_canary_queue (now : Z) (worker_task_id : option str) (run : MemoryExperimentalRun) : res MemoryExperimentalRun :=
  let! _ := raise_if (bool_decide (acknowledgement_at run = None)) (lifecycle_error "EXPERIMENTAL_ACK_REQUIRED" 409) in
  let! _ := raise_if (negb (bool_decide (r_status run ∈ [acknowledgement_required; canary_queued])))
              (lifecycle_error "EXPERIMENTAL_RUN_NOT_IN_ACK_STATE" 409) in
  Ok (run <| r_status := canary_queued |>
          <| r_canary_status := pending |>
          <| canary_worker_task_id := worker_task_id |>
          <| started_at := match started_at run with Some t => Some t | None => Some now end |>).

Definition mark_canary_running (now : Z) (run : MemoryExperimentalRun) : res MemoryExperimentalRun :=
  let! _ := raise_if (negb (bool_decide (r_status run = canary_queued))) (lifecycle_error "EXPERIMENTAL_RUN_NOT_QUEUED" 409) in
  Ok (run <| r_status := canary_running |> <| r_canary_status := running |> <| canary_started_at := Some now |>).

Definition persist_canary_result (now now' : Z) (result : canary_result) (run : MemoryExperimentalRun) : MemoryExperimentalRun :=
  let run :=
    run <| r_canary_status := status result |>
        <| canary_score := Some (score result) |>
        <| canary_checks := checks result |>
        <| canary_summary := Some (result, now) |>
        <| canary_completed_at := Some now |> in
  if bool_decide (status result ∈ [degraded; inconclusive])
  then run <| canary_override_required := true |>
  else run <| canary_override_required := false |>
           <| canary_override_at := Some now' |>
           <| canary_override_actor := Some (lit "system") |>
           <| canary_override_reason := Some (if bool_decide (status result = passed) then lit "not_required" else lit "n/a") |>.

Definition finalizable (run : MemoryExperimentalRun) : res unit :=
  raise_if (negb (bool_decide (r_status run ∈ [canary_running; canary_queued]))) (lifecycle_error "EXPERIMENTAL_RUN_NOT_RUNNING" 409).
Definition outcome_of_canary (now : Z) (aggregate : canary_status) (run : MemoryExperimentalRun) : MemoryExperimentalRun :=
  match aggregate with
  | passed => run <| r_status := canary_passed |>
  | degraded => run <| r_status := canary_degraded |>
  | inconclusive => run <| r_status := canary_inconclusive |>
  | _ => run <| r_status := canary_failed |> <| completed_at := Some now |>
  end.

Definition record_canary_override (now : Z) (actor reason : str) (run : MemoryExperimentalRun) : res MemoryExperimentalRun :=
  let! _ := raise_if (negb (bool_decide (r_status run ∈ [canary_degraded; canary_inconclusive])))
              (lifecycle_error "EXPERIMENTAL_CANARY_NOT_OVERRIDEABLE" 409) in
  Ok (run <| canary_override_at := Some now |>
          <| canary_override_actor := Some actor |>
          <| canary_override_reason := Some reason |>
          <| canary_override_required := false |>
          <| r_status := if bool_decide (r_canary_status run = degraded) then canary_degraded else canary_inconclusive |>).

Definition request_full_run (worker_task_id : option str) (run : MemoryExperimentalRun) : res MemoryExperimentalRun :=
  let! _ := raise_if (negb (bool_decide (r_status run ∈ [canary_passed; canary_degraded; canary_inconclusive])))
              (lifecycle_error "EXPERIMENTAL_CANARY_NOT_PASSED" 409) in
  let! _ := raise_if (bool_decide (r_status run = canary_inconclusive)) (lifecycle_error "EXPERIMENTAL_CANARY_INCONCLUSIVE_BLOCKED" 409) in
  let! _ := raise_if (bool_decide (r_status run = canary_degraded) && bool_decide (canary_override_at run = None))
              (lifecycle_error "EXPERIMENTAL_CANARY_OVERRIDE_REQUIRED" 409) in
  Ok (run <| r_status := full_run_queued |> <| full_worker_task_id := worker_task_id |>).

Definition mark_full_run_running (run : MemoryExperimentalRun) : res MemoryExperimentalRun :=
  let! _ := raise_if (negb (bool_decide (r_status run = full_run_queued))) (lifecycle_error "EXPERIMENTAL_RUN_NOT_QUEUED" 409) in
  Ok (run <| r_status := full_run_running |>).

Definition record_profile_progress (queued completed failed cancelled : Z) (run : MemoryExperimentalRun) : MemoryExperimentalRun :=
  run <| profiles_queued := profiles_queued run + queued |>
      <| profiles_completed := profiles_completed run + completed |>
      <| profiles_failed := profiles_failed run + failed |>
      <| profiles_cancelled := profiles_cancelled run + cancelled |>.

(** [outcome] as it is sent: any text. *)
Definition outcomes : list (str * run_status) :=
  [(lit "completed_untrusted", completed_untrusted); (lit "partial_untrusted", partial_untrusted); (lit "failed_untrusted", failed_untrusted)].
Definition finalise_run (now : Z) (outcome : str) (run : MemoryExperimentalRun) : res MemoryExperimentalRun :=
  let! status := of_option (lifecycle_error "EXPERIMENTAL_RUN_OUTCOME_INVALID" 400) (Dict.get outcome outcomes) in
  Ok (run <| r_status := status |> <| completed_at := Some now |>).

Definition cancel_run (now now' : Z) (actor reason : str) (run : MemoryExperimentalRun) : MemoryExperimentalRun :=
  run <| r_status := cancelled |>
      <| cancelled_at := Some now |>
      <| cancelled_by := Some actor |>
      <| cancellation_reason := Some reason |>
      <| completed_at := Some now' |>.

Definition delete_run (now now' : Z) (actor reason : str) (run : MemoryExperimentalRun) : res MemoryExperimentalRun :=
  let! _ := raise_if (negb (bool_decide (r_status run ∈ [cancelled; canary_failed; canary_inconclusive; completed_untrusted;
                                                         partial_untrusted; failed_untrusted])))
              (lifecycle_error "EXPERIMENTAL_DELETE_REQUIRES_TERMINAL_OR_CANCELLED" 409) in
  Ok (run <| r_status := deleted |>
          <| deleted_at := Some now |>
          <| deleted_by := Some actor |>
          <| deletion_reason := Some reason |>
          <| completed_at := match completed_at run with Some t => Some t | None => Some now' end |>).

Definition worker_heartbeat (iso stage : str) (run : MemoryExperimentalRun) : MemoryExperimentalRun :=
  run <| audit_metadata_json := Dict.set (lit "worker_stage") stage (Dict.set (lit "worker_heartbeat_at") iso (audit_metadata_json run)) |>.

(** What [_reconcile_run_terminal_state] finalizes a run to, if anything. *)
Definition terminal_outcome (run : MemoryExperimentalRun) : option str :=
  if negb (bool_decide (r_status run ∈ [full_run_running; full_run_queued])) then None
  else if profiles_completed run + profiles_failed run + profiles_cancelled run <? profiles_queued run then None
  else if profiles_completed run =? 0 then Some (lit "failed_untrusted")
  else if (0 <? profiles_failed run) || (0 <? profiles_cancelled run) then Some (lit "partial_untrusted")
  else Some (lit "completed_untrusted").
End ExperimentalModel.
