(* ===== verification/ExperimentalRun.v ===== *)
(** services/memory/experimental_lifecycle.py, experimental_worker.py,
    experimental_import.py (the check of a candidate's files) and
    api/routes_memory_experimental.py: the requests and background jobs of an
    experimental run as programs of atomic steps.  Definitions only; the theorems
    are in ExperimentalRules and ExperimentalFlaws. *)
From S2P Require Import Prelude PyBase PyRuntime FileSystem Handlers ExperimentalTrust ExperimentalCanary ExperimentalModel.
Import Bytes Str PyRuntime FileSystem Handlers ExperimentalTrust ExperimentalCanary ExperimentalModel.

Module ExperimentalRun.

Section programs.
Context `{Runtime}.
(** [uuid4], hashes, ISO texts of times, [json.loads], [str.upper], JSON texts, and as in
    ExperimentalTrust and ExperimentalCanary. *)
Variables (uuid_text : nat -> str) (sha256_file : bytes -> str) (isoformat : Z -> str) (json_loads : str -> option json)
  (py_upper : str -> str) (manifest_bytes : str -> list str -> Z -> bytes) (repr : json -> str) (float_is_inf : float -> bool) (fromisoformat : str -> bool)
  (fingerprint_acknowledgement : list (str * json) -> str) (configured_version : str).
(** The access checks of evidence_access.py: the code of their refusal, if any;
    and how many documents with an id normalizers.py makes of the outputs of a
    profile's plugins. *)
Variables (evidence_access : str -> fs -> option str) (documents_of : str -> list (str * json) -> Z).

Abbreviation prog := (prog world run_exn).
Abbreviation run_row := MemoryExperimentalRun.
Abbreviation candidate_row := MemoryExperimentalSymbolCandidate.

Definition require_feature_enabled : prog unit :=
  let* on := look (fun w => memory_symbol_experimental_mismatch_enabled (settings w)) in
  guard (negb on) (lifecycle_error "EXPERIMENTAL_DISABLED" 404).

(** A transition of a loaded row and its commit. *)
Definition transition (f : Z -> run_row -> res run_row) (run : run_row) : prog run_row :=
  let* now := utc_now_naive in
  let* item := lift (f now run) in
  save run item.
Definition transition2 (f : Z -> Z -> run_row -> res run_row) (run : run_row) : prog run_row :=
  let* now := utc_now_naive in
  transition (f now) run.

(** * The files of a candidate *)
Definition experimental_cache_root (s : Settings) : path := backend_data_dir s ++ [lit "experimental-symbol-cache"].
Definition _ensure_regular_readable_file (p : path) : prog unit :=
  let* there := look (fun w => exists_ p (files w)) in
  guard (negb there) (import_error "EXPERIMENTAL_CANDIDATE_FILE_MISSING");*
  let* regular := look (fun w => is_file p (files w)) in
  guard (negb regular) (import_error "EXPERIMENTAL_CANDIDATE_FILE_INVALID").
Definition hash_file (p : path) (max_bytes : Z) : prog str :=
  let* content := read_files (read_bytes p) in
  let* size := read_files (st_size p) in
  guard (max_bytes <? size) (RunPy ValueError);*
  mret (sha256_file content).

Definition unavailable : run_exn := import_error "EXPERIMENTAL_CANDIDATE_UNAVAILABLE".
Definition max_symbol_bytes : Z := 2 * 1024 * 1024 * 1024.
Definition verify_candidate_integrity (candidate : candidate_row) : prog (MemoryCachedSymbol * path * path) :=
  let* cache := look (fun w => symbols w !! c_cached_symbol_id candidate) in
  match cache with
  | None => raise unavailable
  | Some cache =>
      guard (negb (bool_decide (classification cache = experimental_candidate))) unavailable;*
      guard (bool_decide (pdb_sha256 cache = []) || bool_decide (isf_sha256 cache = []) || bool_decide (validation_status cache = [])) unavailable;*
      let* root := look (fun w => experimental_cache_root (settings w)) in
      let pdb_path := root ++ pdb_relative_path cache in
      let isf_path := root ++ isf_relative_path cache in
      _ensure_regular_readable_file pdb_path;*
      _ensure_regular_readable_file isf_path;*
      let* pdb_hash := hash_file pdb_path max_symbol_bytes in
      guard (negb (bool_decide (pdb_hash = pdb_sha256 cache))) unavailable;*
      let* isf_hash := hash_file isf_path max_symbol_bytes in
      guard (negb (bool_decide (isf_hash = isf_sha256 cache))) unavailable;*
      guard (negb (bool_decide (required_pdb_guid cache = Some (pdb_guid (c_required candidate)))) ||
             negb ((match required_pdb_age cache with Some age => if age =? 0 then -1 else age | None => -1 end)
                   =? pdb_age (c_required candidate))) unavailable;*
      mret (cache, pdb_path, isf_path)
  end.
(** [except ExperimentalImportError] of the requests. *)
Definition verified (candidate : candidate_row) : prog unit :=
  catch (verify_candidate_integrity candidate;* mret tt) (fun e =>
    match e with
    | ExperimentalImportError _ => raise (lifecycle_error "EXPERIMENTAL_CANDIDATE_UNAVAILABLE" 409)
    | _ => raise e
    end).

(** * Candidates *)
Definition upsert_candidate (case_id evidence_id : str) (requirement : MemorySymbolRequirement) (cache : MemoryCachedSymbol)
    (source_host_path : option str) (actor : str) : prog candidate_row :=
  require_feature_enabled;*
  let* existing := look (fun w => first_by c_created_at
    (fun c => bool_decide (c_requirement_id c = req_id requirement) && bool_decide (revoked_at c = None)) (candidates w)) in
  match existing with
  | Some existing => mret existing
  | None =>
      let v := evaluate_candidate_eligibility (Some requirement) (Some cache) in
      guard (negb (eligible v))
        (ExperimentalLifecycleError (match error_code v with Some code => code | None => lit "EXPERIMENTAL_NOT_ELIGIBLE" end) 400);*
      let* id := uuid4 uuid_text in
      let* now := utc_now_naive in
      let candidate := {|
        candidate_id := id; c_case_id := case_id; c_evidence_id := evidence_id; c_requirement_id := req_id requirement;
        c_cached_symbol_id := sym_id cache; c_required := req_identity requirement; c_observed := sym_identity cache;
        c_match_type := match v_match_type v with Some m => m | None => guid_only_age_mismatch end;
        c_actor := actor; c_source_host_path := source_host_path; c_pdb_sha256 := pdb_sha256 cache; c_isf_sha256 := isf_sha256 cache;
        c_created_at := now; revoked_at := None; revoked_by := None; revocation_reason := None |} in
      insert_row candidate;*
      refresh id
  end.

Definition revoke_candidate (actor reason : str) (candidate : candidate_row) : prog candidate_row :=
  let* now := utc_now_naive in
  save candidate (candidate <| revoked_at := Some now |> <| revoked_by := Some actor |> <| revocation_reason := Some reason |>).

Definition _load_requirement (case_id evidence_id : str) : prog (option MemorySymbolRequirement) :=
  look (fun w => first_by (fun r => - req_created_at r)
    (fun r => bool_decide (req_case_id r = case_id) && bool_decide (req_evidence_id r = evidence_id)) (requirements w)).

Definition list_candidates (case_id evidence_id : str) : prog (list candidate_row) :=
  look (fun w => Sort.sort_by (fun c => - c_created_at c)
    (filter (fun c => c_case_id c = case_id /\ c_evidence_id c = evidence_id) (map snd (map_to_list (candidates w))))).

(** The command line's way to a candidate. *)
Definition record_cli_candidate (case_id evidence_id cached_symbol_id : str) (source_host_path : option str) (actor : str) : prog candidate_row :=
  require_feature_enabled;*
  let* requirement := _load_requirement case_id evidence_id in
  let* requirement := lift (of_option (lifecycle_error "EXPERIMENTAL_REQUIREMENT_MISSING" 400) requirement) in
  let* cache := look (fun w => symbols w !! cached_symbol_id) in
  let* cache := lift (of_option (lifecycle_error "EXPERIMENTAL_CANDIDATE_MISSING" 400) cache) in
  upsert_candidate case_id evidence_id requirement cache source_host_path actor.

(** * The life of a run *)
Definition active (case_id evidence_id : str) (r : run_row) : bool :=
  bool_decide (r_case_id r = case_id) && bool_decide (r_evidence_id r = evidence_id) && bool_decide (deleted_at r = None)
  && negb (bool_decide (r_status r ∈ [deleted; cancelled])).
Definition create_run (case_id evidence_id : str) (candidate : candidate_row) (requested : option (list str)) (actor : str) : prog run_row :=
  require_feature_enabled;*
  guard (negb (bool_decide (revoked_at candidate = None))) (lifecycle_error "EXPERIMENTAL_CANDIDATE_REVOKED" 400);*
  verified candidate;*
  let* found := look (fun w => first_by r_created_at (active case_id evidence_id) (runs w)) in
  guard (negb (bool_decide (found = None))) (lifecycle_error "EXPERIMENTAL_RUN_ALREADY_ACTIVE" 409);*
  let requested := match requested with Some ((_ :: _) as names) => names | _ => map profile list_experimental_profiles end in
  guard (existsb (fun name => negb (bool_decide (name ∈ profile_names))) requested) (lifecycle_error "EXPERIMENTAL_PROFILE_UNKNOWN" 400);*
  let* id := uuid4 uuid_text in
  let* now := utc_now_naive in
  insert_row {|
    run_id := id; r_case_id := case_id; r_evidence_id := evidence_id; r_candidate_id := candidate_id candidate;
    r_requirement_id := c_requirement_id candidate; r_cached_symbol_id := c_cached_symbol_id candidate;
    requested_profiles := requested; r_created_at := now; r_status := acknowledgement_required;
    acknowledgement_actor := None; acknowledgement_at := None; acknowledgement_warning_version := None;
    acknowledgement_required_identity := no_identity; acknowledgement_observed := no_identity;
    r_canary_status := pending; canary_started_at := None; canary_completed_at := None; canary_score := None;
    canary_checks := []; canary_summary := None; canary_override_required := false; canary_override_at := None;
    canary_override_actor := None; canary_override_reason := None; canary_worker_task_id := None; full_worker_task_id := None;
    profiles_queued := 0; profiles_completed := 0; profiles_failed := 0; profiles_cancelled := 0; started_at := None;
    completed_at := None; cancelled_at := None; cancelled_by := None; cancellation_reason := None; deleted_at := None;
    deleted_by := None; deletion_reason := None; audit_metadata_json := [(lit "requested_actor", actor)]; updated_at := now |};*
  refresh id.

Definition record_acknowledgement (candidate : candidate_row) (payload : json) (run : run_row) : prog run_row :=
  require_feature_enabled;*
  guard (negb (bool_decide (r_status run = acknowledgement_required))) (lifecycle_error "EXPERIMENTAL_RUN_NOT_IN_ACK_STATE" 409);*
  let* requirement := look (fun w => requirements w !! r_requirement_id run) in
  let* required := lift (of_option (RunPy AttributeError) (option_map req_identity requirement)) in
  verified candidate;*
  let* cache := look (fun w => symbols w !! r_cached_symbol_id run) in
  let* observed := lift (of_option (RunPy AttributeError) (option_map sym_identity cache)) in
  match validate_acknowledgement_payload repr fingerprint_acknowledgement configured_version payload (run_id run) required observed with
  | inl code => raise (ExperimentalLifecycleError code 400)
  | inr a =>
      let* iso := look (fun w => isoformat (clock w)) in
      transition (fun now r => Ok (acknowledge now iso required observed a r)) run
  end.

(** The two commits of [finalize_canary]. *)
Definition finalize_canary (rows : list (list (str * json))) (plugin_rows : list (str * list (list (str * json))))
    (plugin_results : list (str * str)) (run : run_row) : prog run_row :=
  lift (finalizable run);*
  let* result := lift (map_err CheckError (evaluate_canary repr float_is_inf fromisoformat rows plugin_rows plugin_results)) in
  let* run := transition2 (fun now now' r => Ok (persist_canary_result now now' result r)) run in
  transition (fun now r => Ok (outcome_of_canary now (status result) r)) run.

Definition update_worker_heartbeat (stage : str) (run : run_row) : prog run_row :=
  transition (fun now r => Ok (worker_heartbeat (isoformat now) stage r)) run.
Definition finalise (outcome : str) : run_row -> prog run_row := transition (fun now => finalise_run now outcome).
Definition cancel (actor reason : str) : run_row -> prog run_row :=
  transition2 (fun now now' r => Ok (cancel_run now now' actor reason r)).
Definition progress (queued completed failed : Z) : run_row -> prog run_row :=
  transition (fun _ r => Ok (record_profile_progress queued completed failed 0 r)).

Definition list_runs (case_id evidence_id : str) (include_deleted : bool) : prog (list run_row) :=
  look (fun w => Sort.sort_by (fun r => - r_created_at r)
    (filter (fun r => r_case_id r = case_id /\ r_evidence_id r = evidence_id /\ (include_deleted = true \/ deleted_at r = None))
       (map snd (map_to_list (runs w))))).

(** What the analyst is shown of the state of an evidence. *)
Record ExperimentalTrustState := {
  is_enabled : bool;
  has_active_candidate : bool;
  active_run : option (str * run_status * canary_status);
  last_completed_at : option Z }.
Definition compute_trust_state (case_id evidence_id : str) : prog ExperimentalTrustState :=
  let* candidate := look (fun w => first_by (fun c => - c_created_at c)
    (fun c => bool_decide (c_case_id c = case_id) && bool_decide (c_evidence_id c = evidence_id) && bool_decide (revoked_at c = None))
    (candidates w)) in
  let* usable := match candidate with
                 | None => mret false
                 | Some c => catch (verify_candidate_integrity c;* mret true)
                               (fun e => match e with ExperimentalImportError _ => mret false | _ => raise e end)
                 end in
  let* found := look (fun w => first_by (fun r => - r_created_at r) (active case_id evidence_id) (runs w)) in
  let* last_run := look (fun w => first_by (fun r => - r_created_at r)
    (fun r => bool_decide (r_case_id r = case_id) && bool_decide (r_evidence_id r = evidence_id)) (runs w)) in
  let* on := look (fun w => memory_symbol_experimental_mismatch_enabled (settings w)) in
  mret {| is_enabled := on; has_active_candidate := usable;
          active_run := option_map (fun r => (run_id r, r_status r, r_canary_status r)) found;
          last_completed_at := match last_run with Some r => completed_at r | None => None end |}.

(** * Scans *)
Definition untrusted : scan_trust := {| t_mode := mode_experimental; t_level := trust_untrusted |}.

(** [_ensure_scan_run]: the scan, and the run as the session then holds it. *)
Definition _ensure_scan_run (run : handle run_row) (profile : str) (plugins : list str) : prog (handle run_row * MemoryScanRun) :=
  let* run := reload run in
  let* found := look (fun w => first_by (fun s => - s_created_at s)
    (fun s => bool_decide (experimental_run_id s = Some (run_id run)) && bool_decide (s_profile s = profile)) (scans w)) in
  match found with
  | Some scan => mret (Loaded run, scan)
  | None =>
      let* id := uuid4 uuid_text in
      let* now := utc_now_naive in
      let count := len plugins in
      insert_row {|
        scan_id := id; s_case_id := r_case_id run; s_evidence_id := r_evidence_id run; experimental_run_id := Some (run_id run);
        s_profile := profile; s_trust := untrusted; requested_plugin_count := count; s_created_at := now; s_status := scan_pending;
        plugins_completed := 0; plugins_failed := 0; output_dir := None; s_started_at := None; s_completed_at := None |};*
      let* scan := refresh id in
      mret (Expired (run_id run), scan)
  end.

(** [execution._plugin_run_for] *)
Definition _plugin_run_for (scan : MemoryScanRun) (name : str) : prog (handle MemoryPluginRun) :=
  let* found := look (fun w => first_by p_created_at
    (fun p => bool_decide (p_scan_id p = scan_id scan) && bool_decide (plugin p = name)) (plugin_runs w)) in
  match found with
  | Some p => mret (Loaded p)
  | None =>
      let* id := uuid4 uuid_text in
      let* now := utc_now_naive in
      insert_row {|
        plugin_run_id := id; p_scan_id := scan_id scan; plugin := name; p_created_at := now;
        p_trust := {| t_mode := mode_validated; t_level := trust_validated |}; p_status := plugin_pending; p_started_at := None;
        p_completed_at := None; row_count := 0; output_sha256 := None; output_size := None; p_error_code := None |};*
      mret (Expired id)
  end.
(** Setting columns of an object and committing: what was not loaded is written. *)
Definition assign (h : handle MemoryPluginRun) (f : MemoryPluginRun -> MemoryPluginRun) : prog str :=
  match h with
  | Loaded p => commit p (f p);* mret (plugin_run_id p)
  | Expired k =>
      attempt (fun w => match plugin_runs w !! k with
                        | Some p => Ok (w <| plugin_runs := <[k := f p]> (plugin_runs w) |>, k)
                        | None => Raise (RunPy LookupError)
                        end)
  end.

(** What Volatility gives for a plugin: its output, or an exception. *)
Inductive plugin_outcome : Type :=
  | PluginOutput (stdout : bytes)
  | VolatilityRunnerError (code : str)
  | PluginRaises (e : py_exn).

(** [open("wb")] of a path, and a rename over it. *)
Definition write_file (p : path) (content : bytes) (f : fs) : result os_error fs :=
  let! _ := check_parent p f in
  if is_dir p f then Raise EISDIR else Ok (<[p := File content]> f).
Definition write_atomic_bytes (p : path) (data : bytes) : prog (str * Z) :=
  let* cap := look (fun w => memory_plugin_output_max_bytes (settings w)) in
  guard (cap <? len data) (RunPy ValueError);*
  on_files (mkdir (parent p));*
  on_files (write_file p data);*
  let* content := read_files (read_bytes p) in
  let* size := read_files (st_size p) in
  mret (sha256_file content, size).

Definition _row_count (payload : json) : Z :=
  match payload with
  | JList l => len l
  | JDict d =>
      match field_of (lit "rows") JNull d with
      | JList l => len l
      | _ => match field_of (lit "data") JNull d with JList l => len l | _ => 1 end
      end
  | _ => 0
  end.

Definition experimental_memory_run_dir (s : Settings) (case_id evidence_id run_id : str) : path :=
  match memory_output_root s with
  | Some root => root ++ [lit "evidence"; case_id; evidence_id; lit "memory"; lit "experimental"; lit "runs"; run_id]
  | None => backend_data_dir s ++ [lit "evidence"; case_id; evidence_id; lit "memory"; lit "experimental"; lit "runs"; run_id]
  end.
Definition _resolve_run_dir (case_id evidence_id run_id : str) : prog path :=
  let* p := look (fun w => experimental_memory_run_dir (settings w) case_id evidence_id run_id) in
  on_files (mkdir p);* mret p.
Definition or_empty (o : option str) : str := default [] o.
(** [p / name]: an empty name adds nothing. *)
Definition join (p : path) (name : str) : path := match name with [] => p | _ => p ++ [name] end.
Definition overlay_target (run_dir : path) (run : run_row) : path :=
  let required := acknowledgement_required_identity run in
  join (run_dir ++ [lit "symbol-overlay"; lit "windows"]) (or_empty (i_pdb_name required)) ++
  [py_upper (or_empty (i_pdb_guid required)) ++ lit "-" ++ str_of_Z (default 0 (i_pdb_age required)) ++ lit ".json.xz"].
Definition _build_overlay_symbol_dir (run_dir : path) (run : run_row) (candidate_isf_path : path) : prog unit :=
  let target := overlay_target run_dir run in
  on_files (mkdir (parent target));*
  let* content := read_files (read_bytes candidate_isf_path) in
  on_files (write_file target content).

Definition plugin_failure (code : str) (now : Z) (p : MemoryPluginRun) : MemoryPluginRun :=
  p <| p_status := if bool_decide (code = lit "PLUGIN_TIMEOUT") then plugin_timed_out else plugin_failed |>
    <| p_completed_at := Some now |> <| p_error_code := Some code |>.
Definition status_text (s : plugin_status) : str :=
  match s with
  | plugin_pending => lit "pending" | plugin_running => lit "running" | plugin_completed => lit "completed"
  | plugin_failed => lit "failed" | plugin_timed_out => lit "timed_out"
  end.

(** The parsed output of the plugin, if any, and the status it ended with. *)
Definition _execute_plugin_for_scan (volatility : str -> plugin_outcome) (scan : MemoryScanRun) (name : str) (run_dir : path)
    : prog (option json * plugin_status) :=
  let* h := _plugin_run_for scan name in
  let* now := utc_now_naive in
  let* id := assign h (fun p => p <| p_trust := untrusted |> <| p_status := plugin_running |> <| p_started_at := Some now |>) in
  let fail := fun code =>
    let* now := utc_now_naive in
    assign (Expired id) (plugin_failure code now);*
    let* p := refresh id in
    mret (None, p_status p) in
  match volatility name with
  | VolatilityRunnerError code => fail code
  | PluginRaises e => raise (RunPy e)
  | PluginOutput stdout =>
      let* raw := write_atomic_bytes (run_dir ++ [name ++ lit ".json"]) stdout in
      let* text := lift (of_option (RunPy UnicodeDecodeError) (utf8_decode stdout)) in
      match json_loads text with
      | None => fail (lit "VOLATILITY_OUTPUT_INVALID")
      | Some payload =>
          let* now := utc_now_naive in
          assign (Expired id) (fun p =>
            p <| p_status := plugin_completed |> <| p_completed_at := Some now |> <| row_count := _row_count payload |>
              <| output_sha256 := Some (fst raw) |> <| output_size := Some (snd raw) |>);*
          let* p := refresh id in
          mret (Some payload, p_status p)
      end
  end.

Definition _finalize_scan_status (scan : str) : prog MemoryScanRun :=
  let* loaded := refresh scan in
  let* mine := look (fun w => filter (fun p => p_scan_id p = scan) (map snd (map_to_list (plugin_runs w)))) in
  let completed := Z.of_nat (length (filter (fun p => p_status p = plugin_completed) mine)) in
  let failed := Z.of_nat (length (filter (fun p => p_status p ∈ [plugin_failed; plugin_timed_out]) mine)) in
  let* now := utc_now_naive in
  save loaded
    (loaded <| plugins_completed := completed |> <| plugins_failed := failed |> <| s_completed_at := Some now |>
            <| s_status := if negb (completed =? 0) && (failed =? 0) then scan_completed
                           else if negb (completed =? 0) then scan_completed_with_errors else scan_failed |>).

Definition _reconcile_run_terminal_state (run : run_row) : prog run_row :=
  match terminal_outcome run with Some outcome => finalise outcome run | None => mret run end.

(** * The jobs *)
Definition dicts (l : list json) : list (list (str * json)) := omap (fun v => match v with JDict d => Some d | _ => None end) l.
Definition rows_of (payload : option json) : list (list (str * json)) :=
  match payload with
  | Some (JList l) => dicts l
  | Some (JDict d) =>
      match field_of (lit "rows") JNull d with
      | JList l => dicts l
      | _ => match field_of (lit "data") JNull d with JList l => dicts l | _ => [d] end
      end
  | _ => []
  end.
Definition field_rows (name : str) (plugin_rows : list (str * list (list (str * json)))) : list (list (str * json)) :=
  default [] (Dict.get name plugin_rows).
Definition or_rows (a b : list (list (str * json))) : list (list (str * json)) := match a with [] => b | _ => a end.

Definition cancel_reason (e : run_exn) : str := match e with ExperimentalImportError code => code | _ => lit "canary_failed" end.
Definition canary_text (s : canary_status) : str :=
  match s with
  | pending => lit "pending" | running => lit "running" | passed => lit "passed" | degraded => lit "degraded" | failed => lit "failed"
  | inconclusive => lit "inconclusive" | skipped => lit "skipped"
  end.

(** The candidate's ISF file, once it and the evidence have been checked. *)
Definition prepared (run : run_row) : prog path :=
  let* candidate := get (R := candidate_row) (r_candidate_id run) in
  let* candidate := lift (of_option unavailable candidate) in
  let* files_of := verify_candidate_integrity candidate in
  let* e := look (fun w => evidence w !! r_evidence_id run) in
  guard (negb (bool_decide (is_Some e))) (lifecycle_error "EXPERIMENTAL_EVIDENCE_NOT_FOUND" 404);*
  let* refused := look (fun w => evidence_access (r_evidence_id run) (files w)) in
  match refused with
  | Some code => raise (ExperimentalLifecycleError code 409)
  | None => let '(_, _, isf_path) := files_of in mret isf_path
  end.
Definition is_ours (e : run_exn) : bool :=
  match e with ExperimentalLifecycleError _ _ | ExperimentalImportError _ => true | _ => false end.

(** The end of a canary by one of the flow's own errors. *)
Definition given_up {A} (run : run_row) (e : run_exn) : prog (str + A) :=
  if is_ours e then cancel (lit "system") (cancel_reason e) run;* mret (inl (cancel_reason e)) else raise e.

(** One plugin of the canary: its rows and status, and the run as the session
    then holds it. *)
Definition canary_plugin (volatility : str -> plugin_outcome) (scan : MemoryScanRun) (run_dir : path) (id : str)
    (seen : list (str * list (list (str * json))) * list (str * str)) (name : str)
    : prog (list (str * list (list (str * json))) * list (str * str)) :=
  let* (payload, status) := _execute_plugin_for_scan volatility scan name run_dir in
  let* run := refresh id in
  update_worker_heartbeat (lit "canary_plugin:" ++ name) run;*
  mret (Dict.set name (rows_of payload) (fst seen), Dict.set name (status_text status) (snd seen)).

Definition run_experimental_canary (volatility : str -> plugin_outcome) (experimental_run_id : str) : prog str :=
  let* loaded := get (R := run_row) experimental_run_id in
  match loaded with
  | None => mret (lit "not_found")
  | Some run =>
      let* on := look (fun w => memory_symbol_experimental_mismatch_enabled (settings w)) in
      if negb on then cancel (lit "system") (lit "feature_disabled") run;* mret (lit "feature_disabled")
      else if bool_decide (r_status run ∈ [canary_passed; canary_degraded; canary_inconclusive; canary_failed])
      then mret (lit "already_finalised")
      else if negb (bool_decide (deleted_at run = None)) then mret (lit "deleted")
      else
        let* started := catch (let* isf_path := prepared run in
                               let* run := transition mark_canary_running run in
                               mret (inr (isf_path, run))) (given_up run) in
        match started with
        | inl code => mret code
        | inr (isf_path, run) =>
            let* run := update_worker_heartbeat (lit "canary_running") run in
            let* run_dir := _resolve_run_dir (r_case_id run) (r_evidence_id run) (run_id run) in
            _build_overlay_symbol_dir run_dir run isf_path;*
            let* (_, scan) := _ensure_scan_run (Loaded run) EXPERIMENTAL_CANARY_PROFILE EXPERIMENTAL_CANARY_PLUGINS in
            let* now := utc_now_naive in
            commit scan (scan <| output_dir := Some run_dir |> <| s_started_at := Some now |> <| s_status := scan_running |>);*
            let* (plugin_rows, plugin_results) :=
              forP (canary_plugin volatility scan run_dir (run_id run)) ([], []) EXPERIMENTAL_CANARY_PLUGINS in
            _finalize_scan_status (scan_id scan);*
            let flattened := or_rows (field_rows (lit "windows.pslist") plugin_rows) (field_rows (lit "windows.info") plugin_rows) in
            let* run := refresh (R := run_row) (run_id run) in
            let* ended := catch (let* run := finalize_canary flattened plugin_rows plugin_results run in mret (inr run)) (given_up run) in
            match ended with
            | inl code => mret code
            | inr run => mret (canary_text (r_canary_status run))
            end
        end
  end.

(** [queue_experimental_full_run]: the scans of the allowed profiles, then the
    request and the count of what is queued. *)
Definition queued_profiles (run : run_row) : list str :=
  let allowed := allowed_profiles_for_canary_outcome (r_canary_status run) in
  match r_canary_status run with
  | degraded | passed => filter (fun name => name ∈ requested_profiles run) allowed
  | _ => allowed
  end.
Definition queue_profile (s : handle run_row * Z) (name : str) : prog (handle run_row * Z) :=
  match get_experimental_profile name with
  | None => mret s
  | Some definition =>
      let* (run, _) := _ensure_scan_run (fst s) name (plugins definition) in
      mret (run, snd s + 1)
  end.
Definition queue_experimental_full_run (run : run_row) : prog run_row :=
  let allowed := queued_profiles run in
  guard (bool_decide (allowed = [])) (lifecycle_error "EXPERIMENTAL_CANARY_BLOCKED" 400);*
  let* (h, count) := forP queue_profile (Loaded run, 0) allowed in
  let* run := reload h in
  let* run := transition (fun _ => request_full_run None) run in
  progress count 0 0 run.

(** [json.loads] gives [None] for the text [null], which is not kept. *)
Definition kept (payload : option json) : option json := match payload with Some JNull => None | _ => payload end.

(** One plugin of a profile: the outputs so far, and whether one failed. *)
Definition profile_plugin (volatility : str -> plugin_outcome) (scan : MemoryScanRun) (run_dir : path) (id profile : str)
    (seen : list (str * json) * bool) (name : str) : prog (list (str * json) * bool) :=
  let* (payload, status) := _execute_plugin_for_scan volatility scan name run_dir in
  let payloads := match kept payload with Some v => Dict.set name v (fst seen) | None => fst seen end in
  let* run := refresh id in
  update_worker_heartbeat (lit "profile_plugin:" ++ profile ++ lit ":" ++ name) run;*
  mret (payloads, snd seen || negb (bool_decide (status = plugin_completed))).

Definition profile_failed (run : run_row) (e : run_exn) : prog str :=
  catch (let* run := progress 0 0 1 run in _reconcile_run_terminal_state run;* mret tt) (fun _ => mret tt);*
  mret (match e with ExperimentalImportError code => code | _ => lit "experimental_profile_failed" end).

Definition run_experimental_profile (volatility : str -> plugin_outcome) (index : result run_exn unit) (experimental_run_id name : str)
    : prog str :=
  let* loaded := get (R := run_row) experimental_run_id in
  match loaded with
  | None => mret (lit "not_found")
  | Some run =>
      if negb (bool_decide (deleted_at run = None)) then mret (lit "deleted")
      else
        let* on := look (fun w => memory_symbol_experimental_mismatch_enabled (settings w)) in
        if negb on then mret (lit "feature_disabled")
        else match get_experimental_profile name with
        | None => mret (lit "unknown_profile")
        | Some definition =>
            if negb (bool_decide (name ∈ allowed_profiles_for_canary_outcome (r_canary_status run))) ||
               negb (bool_decide (name ∈ requested_profiles run))
            then mret (lit "profile_not_allowed")
            else
              let* started := catch (let* isf_path := prepared run in mret (inr isf_path))
                (fun e => if is_ours e then let* code := profile_failed run e in mret (inl code) else raise e) in
              match started with
              | inl code => mret code
              | inr isf_path =>
                  let* run := catch (transition (fun _ => mark_full_run_running) run)
                    (fun e => match e with ExperimentalLifecycleError _ _ => mret run | _ => raise e end) in
                  let* run := update_worker_heartbeat (lit "profile_running:" ++ name) run in
                  let* run_dir := _resolve_run_dir (r_case_id run) (r_evidence_id run) (run_id run) in
                  _build_overlay_symbol_dir run_dir run isf_path;*
                  let* (_, scan) := _ensure_scan_run (Loaded run) name (plugins definition) in
                  let* now := utc_now_naive in
                  commit scan (scan <| output_dir := Some run_dir |>
                                    <| s_started_at := match s_started_at scan with Some t => Some t | None => Some now end |>
                                    <| s_status := scan_running |>);*
                  let* (payloads, had_failure) := forP (profile_plugin volatility scan run_dir (run_id run) name) ([], false) (plugins definition) in
                  _finalize_scan_status (scan_id scan);*
                  let documents := documents_of name payloads in
                  (if 0 <? documents then lift index else mret tt);*
                  let* run := refresh (R := run_row) (run_id run) in
                  let* run := (if (had_failure : bool) && (documents =? 0) then progress 0 0 1 run else progress 0 1 0 run) in
                  _reconcile_run_terminal_state run;*
                  write_atomic_bytes (run_dir ++ [name ++ lit ".manifest.json"]) (manifest_bytes name (Dict.keys payloads) documents);*
                  mret (if 0 <? documents then lit "ok" else if had_failure : bool then lit "failed" else lit "no_documents")
              end
        end
  end.

(** * The requests *)
Definition _feature_guard : prog unit :=
  let* on := look (fun w => memory_symbol_experimental_mismatch_enabled (settings w)) in guard (negb on) (HTTPException 404).
Definition _require_case (case_id : str) : prog unit :=
  let* there := look (fun w => bool_decide (case_id ∈ cases w)) in guard (negb there) (HTTPException 404).
Definition _require_evidence (case_id evidence_id : str) : prog unit :=
  let* e := look (fun w => evidence w !! evidence_id) in
  match e with
  | None => raise (HTTPException 404)
  | Some e =>
      guard (negb (bool_decide (e_case_id e = case_id))) (HTTPException 404);*
      guard (negb (is_memory_dump e)) (HTTPException 400)
  end.
Definition request {A} (case_id evidence_id : str) (body : prog A) : prog A :=
  _feature_guard;* _require_case case_id;* _require_evidence case_id evidence_id;* body.
Definition _handle_lifecycle_error {A} (body : prog A) : prog A :=
  catch body (fun e => match e with ExperimentalLifecycleError _ http_status => raise (HTTPException http_status) | _ => raise e end).

Definition get_run (case_id evidence_id id : str) : prog run_row :=
  let* run := get (R := run_row) id in
  let* run := lift (of_option (lifecycle_error "EXPERIMENTAL_RUN_NOT_FOUND" 404) run) in
  guard (negb (bool_decide (r_case_id run = case_id)) || negb (bool_decide (r_evidence_id run = evidence_id)))
    (lifecycle_error "EXPERIMENTAL_RUN_CROSS_CASE" 404);*
  mret run.
Definition _require_run_scope (case_id evidence_id : str) (run : run_row) : prog run_row :=
  guard (negb (bool_decide (r_case_id run = case_id)) || negb (bool_decide (r_evidence_id run = evidence_id))) (HTTPException 404);*
  let* candidate := get (R := candidate_row) (r_candidate_id run) in
  match candidate with
  | None => raise (HTTPException 404)
  | Some c =>
      guard (negb (bool_decide (c_case_id c = case_id)) || negb (bool_decide (c_evidence_id c = evidence_id))) (HTTPException 404);*
      let* requirement := look (fun w => requirements w !! r_requirement_id run) in
      match requirement with
      | None => raise (HTTPException 404)
      | Some q =>
          guard (negb (bool_decide (req_case_id q = case_id)) || negb (bool_decide (req_evidence_id q = evidence_id))) (HTTPException 404);*
          mret run
      end
  end.
Definition _require_candidate_scope (case_id evidence_id id : str) : prog candidate_row :=
  let* candidate := get (R := candidate_row) id in
  match candidate with
  | None => raise (HTTPException 404)
  | Some c =>
      guard (negb (bool_decide (c_case_id c = case_id)) || negb (bool_decide (c_evidence_id c = evidence_id))) (HTTPException 404);*
      let* requirement := look (fun w => requirements w !! c_requirement_id c) in
      match requirement with
      | None => raise (HTTPException 404)
      | Some q =>
          guard (negb (bool_decide (req_case_id q = case_id)) || negb (bool_decide (req_evidence_id q = evidence_id))) (HTTPException 404);*
          mret c
      end
  end.
(** The run of a request, loaded and checked. *)
Definition scoped (case_id evidence_id id : str) : prog run_row :=
  _handle_lifecycle_error (let* run := get_run case_id evidence_id id in _require_run_scope case_id evidence_id run).

(** [queue.enqueue]: the id of the job, or an exception of Redis. *)
Definition enqueue (j : job) : prog str :=
  let* id := uuid4 uuid_text in
  attempt (fun w => if redis_up w then Ok (w <| queue := queue w ++ [j] |>, id) else Raise (RunPy OSError)).
(** [try: body except Exception: logger.warning(...)] *)
Definition or_warn {A} (body : prog A) (otherwise : A) : prog A := catch body (fun _ => mret otherwise).

Definition client_label (label : option str) : str :=
  lit "unauthenticated_client_label:" ++ match strip (or_empty label) with [] => lit "anonymous" | s => s end.

Definition create_experimental_symbol_candidate (case_id evidence_id : str) (cached_symbol_id : str) (source_host_path : option str)
    (actor : str) : prog candidate_row :=
  request case_id evidence_id (
    let* requirement := _load_requirement case_id evidence_id in
    let* requirement := lift (of_option (HTTPException 409) requirement) in
    guard (bool_decide (cached_symbol_id = [])) (HTTPException 400);*
    let* cache := look (fun w => symbols w !! cached_symbol_id) in
    let* cache := lift (of_option (HTTPException 404) cache) in
    _handle_lifecycle_error (upsert_candidate case_id evidence_id requirement cache source_host_path
      (match actor with [] => lit "server-operator" | _ => actor end))).

Definition revoke_experimental_symbol_candidate (case_id evidence_id id : str) (label : option str) (reason : str) : prog candidate_row :=
  request case_id evidence_id (
    let* candidate := _require_candidate_scope case_id evidence_id id in
    revoke_candidate (client_label label) reason candidate).

Definition _get_active_candidate_for (case_id evidence_id : str) : prog candidate_row :=
  let* candidates := list_candidates case_id evidence_id in
  lift (of_option (HTTPException 409) (head (filter (fun c => revoked_at c = None) candidates))).
Definition create_experimental_run (case_id evidence_id : str) (requested : option (list str)) : prog run_row :=
  request case_id evidence_id (
    let* candidate := _get_active_candidate_for case_id evidence_id in
    _handle_lifecycle_error (create_run case_id evidence_id candidate requested (lit "server-operator"))).

(** [payload.dict()] *)
Definition acknowledgement_payload (checkbox_confirmed : bool) (label : option str) : json :=
  JDict [(lit "checkbox_confirmed", JBool checkbox_confirmed);
         (lit "client_actor_label", match label with Some s => JStr s | None => JNull end)].
Definition acknowledge_experimental_run (case_id evidence_id id : str) (checkbox_confirmed : bool) (label : option str) : prog run_row :=
  request case_id evidence_id (
    let* run := scoped case_id evidence_id id in
    let* candidate := get (R := candidate_row) (r_candidate_id run) in
    let* candidate := lift (of_option (HTTPException 404) candidate) in
    _handle_lifecycle_error (record_acknowledgement candidate (acknowledgement_payload checkbox_confirmed label) run)).

(** The task id is written by a database session of its own. *)
Definition start_experimental_canary (case_id evidence_id id : str) : prog run_row :=
  request case_id evidence_id (
    let* run := scoped case_id evidence_id id in
    let* run := _handle_lifecycle_error (transition (fun now => advance_to_canary_queue now None) run) in
    or_warn
      (let* worker_task_id := enqueue (CanaryJob (run_id run)) in
       let* local := get (R := run_row) (run_id run) in
       match local with
       | None => mret run
       | Some local => commit local (local <| canary_worker_task_id := Some worker_task_id |>);* refresh (run_id run)
       end) run).

Definition override_experimental_canary (case_id evidence_id id : str) (label : option str) (reason : str) : prog run_row :=
  request case_id evidence_id (
    let* run := scoped case_id evidence_id id in
    _handle_lifecycle_error (transition (fun now => record_canary_override now (client_label label) reason) run)).

Definition continue_experimental_run (case_id evidence_id id : str) : prog run_row :=
  request case_id evidence_id (
    let* run := scoped case_id evidence_id id in
    let* run := _handle_lifecycle_error (queue_experimental_full_run run) in
    or_warn
      (forP (fun _ name =>
         if bool_decide (name ∈ requested_profiles run) then enqueue (ProfileJob (run_id run) name);* mret tt else mret tt)
         tt (allowed_profiles_for_canary_outcome (r_canary_status run))) tt;*
    mret run).

Definition cancel_experimental_run (case_id evidence_id id : str) (label : option str) (reason : str) : prog run_row :=
  request case_id evidence_id (
    let* run := scoped case_id evidence_id id in
    _handle_lifecycle_error (cancel (client_label label) reason run)).

Definition finalize_experimental_run (case_id evidence_id id : str) (outcome : str) : prog run_row :=
  request case_id evidence_id (
    let* run := _handle_lifecycle_error (get_run case_id evidence_id id) in
    _handle_lifecycle_error (finalise outcome run)).

Definition delete_experimental_run (case_id evidence_id id : str) (label : option str) (reason : str) : prog run_row :=
  request case_id evidence_id (
    let* run := scoped case_id evidence_id id in
    let* run := transition2 (fun now now' => delete_run now now' (client_label label) reason) run in
    or_warn (enqueue (DeletionJob case_id evidence_id (run_id run));* mret tt) tt;*
    mret run).

(** * Everything that runs *)
Inductive action : Type :=
  | RecordCandidate (case evidence symbol : str) (source_host_path : option str) (actor : str)
  | CreateCandidate (case evidence symbol : str) (source_host_path : option str) (actor : str)
  | RevokeCandidate (case evidence candidate : str) (label : option str) (reason : str)
  | CreateRun (case evidence : str) (requested : option (list str))
  | Acknowledge (case evidence run : str) (checkbox_confirmed : bool) (label : option str)
  | StartCanary (case evidence run : str)
  | OverrideCanary (case evidence run : str) (label : option str) (reason : str)
  | Continue (case evidence run : str)
  | Cancel (case evidence run : str) (label : option str) (reason : str)
  | Finalize (case evidence run : str) (outcome : str)
  | Delete (case evidence run : str) (label : option str) (reason : str)
  | WorkCanary (run : str) (volatility : str -> plugin_outcome)
  | WorkProfile (run profile : str) (volatility : str -> plugin_outcome) (index : result run_exn unit).

Definition perform (a : action) : prog unit :=
  match a with
  | RecordCandidate c e s p actor => record_cli_candidate c e s p actor;* mret tt
  | CreateCandidate c e s p actor => create_experimental_symbol_candidate c e s p actor;* mret tt
  | RevokeCandidate c e k label reason => revoke_experimental_symbol_candidate c e k label reason;* mret tt
  | CreateRun c e requested => create_experimental_run c e requested;* mret tt
  | Acknowledge c e r confirmed label => acknowledge_experimental_run c e r confirmed label;* mret tt
  | StartCanary c e r => start_experimental_canary c e r;* mret tt
  | OverrideCanary c e r label reason => override_experimental_canary c e r label reason;* mret tt
  | Continue c e r => continue_experimental_run c e r;* mret tt
  | Cancel c e r label reason => cancel_experimental_run c e r label reason;* mret tt
  | Finalize c e r outcome => finalize_experimental_run c e r outcome;* mret tt
  | Delete c e r label reason => delete_experimental_run c e r label reason;* mret tt
  | WorkCanary r volatility => run_experimental_canary volatility r;* mret tt
  | WorkProfile r p volatility index => run_experimental_profile volatility index r p;* mret tt
  end.
End programs.
End ExperimentalRun.
