(* ===== verification/ExperimentalGates.v ===== *)
(** The rules an experimental run obeys, what its rows may become, and that every
    transition and every write of a loaded row obeys them. *)
From S2P Require Import Prelude PyBase PyRuntime FileSystem Handlers ExperimentalTrust ExperimentalCanary ExperimentalModel ExperimentalRun.
Import Bytes Str PyRuntime FileSystem Handlers ExperimentalTrust ExperimentalCanary ExperimentalModel ExperimentalRun.

Module ExperimentalGates.

(** * Rows *)
Definition past_acknowledgement : list run_status :=
  [canary_queued; canary_running; canary_passed; canary_degraded; canary_failed; canary_inconclusive; full_run_queued; full_run_running].
Definition past_canary : list run_status := [canary_passed; full_run_queued; full_run_running].

(** The identities the run acknowledged are those of its requirement and symbol. *)
Definition snapshot (w : world) (r : MemoryExperimentalRun) : Prop :=
  exists q c, requirements w !! r_requirement_id r = Some q /\ symbols w !! r_cached_symbol_id r = Some c /\
    acknowledgement_required_identity r = identity_in (req_identity q) /\ acknowledgement_observed r = identity_in (sym_identity c).

(** What a full run needs: the canary passed, or it was degraded and that was
    overridden. *)
Definition accepted (r : MemoryExperimentalRun) : Prop :=
  r_canary_status r = passed \/ r_status r = canary_degraded /\ is_Some (canary_override_at r).

Ltac guards H :=
  repeat match type of H with
  | mbind _ (raise_if ?b ?e) = Ok _ => destruct b eqn:?; cbn [raise_if mbind result_bind] in H; [discriminate H|]
  end;
  repeat match goal with
  | E : negb (bool_decide _) = false |- _ => apply negb_false_iff, bool_decide_eq_true in E
  | E : bool_decide _ = false |- _ => apply bool_decide_eq_false in E
  end.
(** Membership of a known status in a known list. *)
Ltac among :=
  match goal with
  | |- _ ∈ _ => apply (bool_decide_eq_true_1 (_ ∈ _)); reflexivity
  | Hs : _ ∈ _ |- _ => exfalso; revert Hs; apply (bool_decide_eq_false_1 (_ ∈ _)); reflexivity
  end.

Section rules.
(** The runs with a row that was [accepted] at some time. *)
Variable before : str -> Prop.

Record gated (w : world) (r : MemoryExperimentalRun) : Prop := {
  g_acknowledged : r_status r ∈ past_acknowledgement -> is_Some (acknowledgement_at r);
  g_decided : r_status r ∈ past_canary -> is_Some (canary_override_at r);
  g_before : r_status r ∈ past_canary -> before (run_id r);
  g_snapshot : is_Some (acknowledgement_at r) -> snapshot w r;
  g_blank : acknowledgement_at r = None ->
    acknowledgement_required_identity r = no_identity /\ acknowledgement_observed r = no_identity }.

(** How a row may change. *)
Record kept (r r' : MemoryExperimentalRun) : Prop := {
  k_id : run_id r' = run_id r;
  k_requirement : r_requirement_id r' = r_requirement_id r;
  k_symbol : r_cached_symbol_id r' = r_cached_symbol_id r;
  k_acknowledged : is_Some (acknowledgement_at r) -> is_Some (acknowledgement_at r');
  k_decided : is_Some (canary_override_at r) -> is_Some (canary_override_at r') }.

Definition known (r : MemoryExperimentalRun) : Prop := accepted r -> before (run_id r).

(** * Worlds *)
Definition experimental_scan (w : world) (k : str) : Prop := exists s, scans w !! k = Some s /\ is_Some (experimental_run_id s).

Record consistent (w : world) : Prop := {
  i_runs : forall k r, runs w !! k = Some r -> run_id r = k /\ gated w r;
  i_candidates : forall k c, candidates w !! k = Some c -> candidate_id c = k;
  i_scans : forall k s, scans w !! k = Some s -> scan_id s = k /\ (is_Some (experimental_run_id s) -> s_trust s = untrusted);
  i_plugin_runs : forall k p, plugin_runs w !! k = Some p -> plugin_run_id p = k }.

(** What the flow relies on: rows are not removed, and what it refers to is not
    changed under it. *)
Record later (w w' : world) : Prop := {
  l_requirements : forall k q, requirements w !! k = Some q -> exists q', requirements w' !! k = Some q' /\ req_identity q' = req_identity q;
  l_symbols : forall k c, symbols w !! k = Some c -> exists c', symbols w' !! k = Some c' /\ sym_identity c' = sym_identity c;
  l_runs : forall k r, runs w !! k = Some r -> exists r', runs w' !! k = Some r' /\ kept r r';
  l_scans : forall k s, scans w !! k = Some s -> exists s', scans w' !! k = Some s' /\ experimental_run_id s' = experimental_run_id s;
  l_plugin_runs : forall k p, plugin_runs w !! k = Some p -> exists p', plugin_runs w' !! k = Some p' /\ p_scan_id p' = p_scan_id p }.

(** What a step of the flow changes: rows of its own only. *)
Record isolated (w w' : world) : Prop := {
  s_later : later w w';
  s_evidence : evidence w' = evidence w;
  s_cases : cases w' = cases w;
  s_requirements : requirements w' = requirements w;
  s_symbols : symbols w' = symbols w;
  s_settings : settings w' = settings w;
  s_validated : forall k s, scans w !! k = Some s -> experimental_run_id s = None -> scans w' !! k = Some s;
  s_created : forall k s, scans w !! k = None -> scans w' !! k = Some s -> is_Some (experimental_run_id s);
  s_plugins : forall k p, plugin_runs w !! k = Some p -> ~ experimental_scan w (p_scan_id p) -> plugin_runs w' !! k = Some p;
  s_plugins_created : forall k p, plugin_runs w !! k = None -> plugin_runs w' !! k = Some p -> experimental_scan w (p_scan_id p) }.

#[export] Instance kept_preorder : PreOrder kept.
Proof.
  split.
  - intros r. by split.
  - intros r1 r2 r3 [] []. split; try congruence; auto.
Qed.

#[export] Instance later_preorder : PreOrder later.
Proof.
  split.
  - intros w. split; intros k x Hx; exists x; done.
  - intros w1 w2 w3 H12 H23. split; intros k x Hx.
    + destruct (l_requirements _ _ H12 _ _ Hx) as (y & Hy & ?). destruct (l_requirements _ _ H23 _ _ Hy) as (z & ? & ?). exists z. split; [done|congruence].
    + destruct (l_symbols _ _ H12 _ _ Hx) as (y & Hy & ?). destruct (l_symbols _ _ H23 _ _ Hy) as (z & ? & ?). exists z. split; [done|congruence].
    + destruct (l_runs _ _ H12 _ _ Hx) as (y & Hy & ?). destruct (l_runs _ _ H23 _ _ Hy) as (z & ? & ?). exists z. split; [done|]. by transitivity y.
    + destruct (l_scans _ _ H12 _ _ Hx) as (y & Hy & ?). destruct (l_scans _ _ H23 _ _ Hy) as (z & ? & ?). exists z. split; [done|congruence].
    + destruct (l_plugin_runs _ _ H12 _ _ Hx) as (y & Hy & ?). destruct (l_plugin_runs _ _ H23 _ _ Hy) as (z & ? & ?). exists z. split; [done|congruence].
Qed.

#[export] Instance isolated_reflexive : Reflexive isolated.
Proof. intros w. split; try done; by intros k x -> [=]. Qed.

Lemma isolated_later w w' : isolated w w' -> later w w'.
Proof. apply s_later. Qed.

Lemma gated_later w w' r : later w w' -> gated w r -> gated w' r.
Proof.
  intros Hl [Ha Ho Hp Hs Hb]. split; [done..| |done]. intros Hr. destruct (Hs Hr) as (q & c & Hq & Hc & Eq & Ec).
  destruct (l_requirements _ _ Hl _ _ Hq) as (q' & Hq' & Eq'). destruct (l_symbols _ _ Hl _ _ Hc) as (c' & Hc' & Ec').
  exists q', c'. rewrite Eq', Ec'. done.
Qed.

(** * Writing back *)
Lemma merge_column_some {A} (loaded item current : option A) `{EqDecision A} :
  is_Some item -> (is_Some loaded -> is_Some current) -> is_Some (merge_column loaded item current).
Proof. intros Hi Hl. unfold merge_column. case_decide; [|done]. subst. by apply Hl. Qed.

(** Columns that hold a fixed value once they are set. *)
Lemma merge_column_fixed {A} `{EqDecision A} (v : A) (loaded current : option A) :
  loaded = None \/ loaded = Some v /\ current = Some v -> merge_column loaded (Some v) current = Some v.
Proof. intros [->|[-> ->]]; unfold merge_column; by case_decide. Qed.
Lemma merge_identity_fixed v (loaded current : identity_columns) :
  loaded = no_identity \/ loaded = identity_in v /\ current = identity_in v -> merge_identity loaded (identity_in v) current = identity_in v.
Proof.
  intros [->|[-> ->]]; unfold merge_identity, identity_in, no_identity; cbn;
    by rewrite !merge_column_fixed by auto.
Qed.
Lemma merge_identity_same a c : merge_identity a a c = c.
Proof. unfold merge_identity. rewrite !merge_column_kept. by destruct c. Qed.

Section merge.
Variables (w : world) (loaded item current : MemoryExperimentalRun).
Hypotheses (Hcurrent : kept loaded current) (Hitem : kept loaded item).
Hypotheses (Gloaded : gated w loaded) (Gcurrent : gated w current) (Gitem : gated w item).
Let m : MemoryExperimentalRun := merge_columns loaded item current.

(** A column that is not cleared once it is set. *)
Lemma merge_set {A} `{EqDecision A} (l i c : option A) :
  (is_Some l -> is_Some c) -> (is_Some l -> is_Some i) -> is_Some (merge_column l i c) <-> is_Some c \/ is_Some i.
Proof.
  intros Hc Hi. unfold merge_column. case_decide as E.
  - subst. split; [by left|]. intros [?|?]; [done|by apply Hc].
  - split; [by right|]. intros [?|?]; [|done]. destruct l as [x|]; [by apply Hi|]. by destruct i.
Qed.
Lemma merged_acknowledged : is_Some (acknowledgement_at m) <-> is_Some (acknowledgement_at current) \/ is_Some (acknowledgement_at item).
Proof. apply merge_set; [apply Hcurrent|apply Hitem]. Qed.
Lemma merged_decided : is_Some (canary_override_at m) <-> is_Some (canary_override_at current) \/ is_Some (canary_override_at item).
Proof. apply merge_set; [apply Hcurrent|apply Hitem]. Qed.
Lemma merged_status : r_status m = r_status current \/ r_status m = r_status item.
Proof. change (r_status m) with (merge_column (r_status loaded) (r_status item) (r_status current)). unfold merge_column. case_decide; auto. Qed.

Lemma merged_snapshot : is_Some (acknowledgement_at m) -> snapshot w m.
Proof.
  intros Hm%merged_acknowledged. destruct (decide (is_Some (acknowledgement_at item))) as [Hi|Hi].
  - destruct (g_snapshot _ _ Gitem Hi) as (q & c & Hq & Hc & Eq & Ec).
    rewrite (k_requirement _ _ Hitem) in Hq. rewrite (k_symbol _ _ Hitem) in Hc.
    exists q, c. change (r_requirement_id m) with (r_requirement_id current). change (r_cached_symbol_id m) with (r_cached_symbol_id current).
    rewrite (k_requirement _ _ Hcurrent), (k_symbol _ _ Hcurrent). split; [done|]. split; [done|].
    change (acknowledgement_required_identity m) with
      (merge_identity (acknowledgement_required_identity loaded) (acknowledgement_required_identity item) (acknowledgement_required_identity current)).
    change (acknowledgement_observed m) with
      (merge_identity (acknowledgement_observed loaded) (acknowledgement_observed item) (acknowledgement_observed current)).
    rewrite Eq, Ec. destruct (acknowledgement_at loaded) as [t|] eqn:El.
    + destruct (g_snapshot _ _ Gloaded ltac:(by rewrite El)) as (q1 & c1 & Hq1 & Hc1 & -> & ->).
      destruct (g_snapshot _ _ Gcurrent (k_acknowledged _ _ Hcurrent ltac:(by rewrite El))) as (q2 & c2 & Hq2 & Hc2 & -> & ->).
      rewrite (k_requirement _ _ Hcurrent) in Hq2. rewrite (k_symbol _ _ Hcurrent) in Hc2. simplify_eq.
      split; apply merge_identity_fixed; auto.
    + destruct (g_blank _ _ Gloaded El) as [-> ->]. split; apply merge_identity_fixed; auto.
  - destruct Hm as [Hm|]; [|done].
    assert (El : acknowledgement_at loaded = None).
    { apply eq_None_not_Some. intros Hs. by apply Hi, Hitem. }
    apply eq_None_not_Some in Hi. destruct (g_blank _ _ Gloaded El) as [E1 E2], (g_blank _ _ Gitem Hi) as [E3 E4].
    destruct (g_snapshot _ _ Gcurrent Hm) as (q & c & Hq & Hc & Eq & Ec). exists q, c. split; [done|]. split; [done|].
    change (acknowledgement_required_identity m) with
      (merge_identity (acknowledgement_required_identity loaded) (acknowledgement_required_identity item) (acknowledgement_required_identity current)).
    change (acknowledgement_observed m) with
      (merge_identity (acknowledgement_observed loaded) (acknowledgement_observed item) (acknowledgement_observed current)).
    by rewrite E1, E2, E3, E4, !merge_identity_same.
Qed.

Lemma kept_item : kept item m.
Proof.
  split.
  - change (run_id current = run_id item). rewrite (k_id _ _ Hitem). apply Hcurrent.
  - change (r_requirement_id current = r_requirement_id item). rewrite (k_requirement _ _ Hitem). apply Hcurrent.
  - change (r_cached_symbol_id current = r_cached_symbol_id item). rewrite (k_symbol _ _ Hitem). apply Hcurrent.
  - intros Hs. apply merged_acknowledged; auto.
  - intros Hs. apply merged_decided; auto.
Qed.

(** Writing back a row that obeys the rules leaves one that does. *)
Lemma merged : kept current m /\ gated w m.
Proof.
  split.
  - split; [done..| |]; intros Hs; [apply merged_acknowledged|apply merged_decided]; by left.
  - split.
    + intros Hs. apply merged_acknowledged. destruct merged_status as [E|E]; rewrite E in Hs; [left; by apply Gcurrent|right; by apply Gitem].
    + intros Hs. apply merged_decided. destruct merged_status as [E|E]; rewrite E in Hs; [left; by apply Gcurrent|right; by apply Gitem].
    + intros Hs. change (before (run_id current)). destruct merged_status as [E|E]; rewrite E in Hs; [by apply Gcurrent|].
      rewrite (k_id _ _ Hcurrent), <-(k_id _ _ Hitem). by apply Gitem.
    + apply merged_snapshot.
    + intros Hm. assert (~ (is_Some (acknowledgement_at current) \/ is_Some (acknowledgement_at item))) as Hn.
      { intros Hs%merged_acknowledged. rewrite Hm in Hs. by destruct Hs. }
      assert (Ei : acknowledgement_at item = None) by (apply eq_None_not_Some; tauto).
      assert (Ec : acknowledgement_at current = None) by (apply eq_None_not_Some; tauto).
      assert (El : acknowledgement_at loaded = None).
      { apply eq_None_not_Some. intros Hs%(k_acknowledged _ _ Hitem). rewrite Ei in Hs. by destruct Hs. }
      destruct (g_blank _ _ Gloaded El) as [E1 E2], (g_blank _ _ Gitem Ei) as [E3 E4], (g_blank _ _ Gcurrent Ec) as [E5 E6].
      change (acknowledgement_required_identity m) with
        (merge_identity (acknowledgement_required_identity loaded) (acknowledgement_required_identity item) (acknowledgement_required_identity current)).
      change (acknowledgement_observed m) with
        (merge_identity (acknowledgement_observed loaded) (acknowledgement_observed item) (acknowledgement_observed current)).
      by rewrite E1, E2, E3, E4, E5, E6, !merge_identity_same.
Qed.
End merge.

(** * Transitions obey the rules *)
Definition lawful (f : MemoryExperimentalRun -> res MemoryExperimentalRun) : Prop :=
  forall w r item, gated w r -> known r -> f r = Ok item -> kept r item /\ gated w item.

(** A change of columns that the rules do not mention. *)
Lemma unrelated w r item : gated w r ->
  run_id item = run_id r -> r_requirement_id item = r_requirement_id r -> r_cached_symbol_id item = r_cached_symbol_id r ->
  acknowledgement_at item = acknowledgement_at r -> canary_override_at item = canary_override_at r ->
  acknowledgement_required_identity item = acknowledgement_required_identity r -> acknowledgement_observed item = acknowledgement_observed r ->
  (r_status item ∈ past_acknowledgement -> is_Some (acknowledgement_at r)) ->
  (r_status item ∈ past_canary -> is_Some (canary_override_at r) /\ before (run_id r)) -> kept r item /\ gated w item.
Proof.
  intros Hg E1 E2 E3 E4 E5 E6 E7 Ha Ho. split; [by split; rewrite ?E4, ?E5|].
  split; rewrite ?E1, ?E4, ?E5, ?E6, ?E7; [done|by intros [? _]%Ho|by intros [_ ?]%Ho| |apply Hg]. intros Hs.
  destruct (g_snapshot _ _ Hg Hs) as (q & c & Hq & Hc & H1 & H2). exists q, c. by rewrite E2, E3, E6, E7.
Qed.

Lemma not_in_false {A} `{EqDecision A} (x : A) (l : list A) : negb (bool_decide (x ∈ l)) = false -> x ∈ l.
Proof. by intros ?%negb_false_iff%bool_decide_eq_true. Qed.

Ltac unrelated_columns := apply unrelated; [done|reflexivity..| |]; cbn -[past_acknowledgement past_canary]; intros Hs.

Lemma lawful_advance now task : lawful (advance_to_canary_queue now task).
Proof.
  intros w r item Hg Hkn H. unfold advance_to_canary_queue in H. guards H. injection H as <-.
  unrelated_columns; [by apply not_eq_None_Some|among].
Qed.

Lemma lawful_running now : lawful (mark_canary_running now).
Proof.
  intros w r item Hg Hkn H. unfold mark_canary_running in H. guards H. injection H as <-.
  unrelated_columns; [apply Hg; rewrite Heqb; among|among].
Qed.

Lemma lawful_acknowledge now iso required observed a w r q c :
  gated w r -> requirements w !! r_requirement_id r = Some q -> symbols w !! r_cached_symbol_id r = Some c ->
  req_identity q = required -> sym_identity c = observed ->
  let item := acknowledge now iso required observed a r in kept r item /\ gated w item.
Proof.
  intros Hg Hq Hc <- <-. split; [by split|]. split; cbn -[past_acknowledgement past_canary]; [by eauto|apply Hg|apply Hg| |done].
  intros _. by exists q, c.
Qed.

Lemma lawful_persist now now' result : lawful (fun r => Ok (persist_canary_result now now' result r)).
Proof.
  intros w r item Hg Hkn H. injection H as <-. unfold persist_canary_result. case_bool_decide.
  - unrelated_columns; [by apply Hg|split; by apply Hg].
  - split; [by split; cbn; eauto|]. split; cbn -[past_acknowledgement past_canary]; [apply Hg|eauto|apply Hg..].
Qed.

(** The verdict is written once the canary ran: the run was acknowledged, and for
    a passing one that was recorded first. *)
Lemma lawful_outcome now aggregate w r item : gated w r -> is_Some (acknowledgement_at r) ->
  (aggregate = passed -> is_Some (canary_override_at r) /\ before (run_id r)) ->
  Ok (outcome_of_canary now aggregate r) = Ok (E := run_exn) item -> kept r item /\ gated w item.
Proof.
  intros Hg Ha Ho [= <-]. destruct aggregate; unrelated_columns; first [done|among|by apply Ho].
Qed.

Lemma lawful_override now actor reason : lawful (record_canary_override now actor reason).
Proof.
  intros w r item Hg Hkn H. unfold record_canary_override in H. guards H. injection H as <-.
  split; [by split; cbn; eauto|]. split; cbn -[past_acknowledgement past_canary]; [|by eauto| |apply Hg|apply Hg].
  2:{ case_bool_decide; intros ?; among. }
  intros _. apply Hg. revert Heqb. rewrite elem_of_cons, list_elem_of_singleton. intros [->| ->]; among.
Qed.

Lemma lawful_request task : lawful (request_full_run task).
Proof.
  intros w r item Hg Hkn H. unfold request_full_run in H. guards H. injection H as <-. rename Heqb into Hin, Heqb0 into Hne.
  assert (Hov : is_Some (canary_override_at r) /\ before (run_id r)).
  { revert Hin Heqb1. rewrite !elem_of_cons, list_elem_of_In. intros [E|[E|[E|[]]]] Hb; [split; apply Hg; rewrite E; among| |done].
    apply andb_false_iff in Hb as [Hb|Hb]; [by rewrite E in Hb|]. apply bool_decide_eq_false, not_eq_None_Some in Hb.
    split; [done|]. apply Hkn. by right. }
  unrelated_columns; [|done]. apply Hg. revert Hin. rewrite !elem_of_cons. intros [->|[->|[->|Hx]]]; among.
Qed.

Lemma lawful_full_running : lawful mark_full_run_running.
Proof.
  intros w r item Hg Hkn H. unfold mark_full_run_running in H. guards H. injection H as <-.
  unrelated_columns; [|split]; apply Hg; rewrite Heqb; among.
Qed.

Lemma lawful_progress queued completed failed cancelled :
  lawful (fun r => Ok (record_profile_progress queued completed failed cancelled r)).
Proof. intros w r item Hg Hkn [= <-]. unrelated_columns; [|split]; by apply Hg. Qed.
Lemma lawful_heartbeat iso stage : lawful (fun r => Ok (worker_heartbeat iso stage r)).
Proof. intros w r item Hg Hkn [= <-]. unrelated_columns; [|split]; by apply Hg. Qed.
Lemma lawful_cancel now now' actor reason : lawful (fun r => Ok (cancel_run now now' actor reason r)).
Proof. intros w r item Hg Hkn [= <-]. unrelated_columns; among. Qed.
Lemma lawful_delete now now' actor reason : lawful (delete_run now now' actor reason).
Proof. intros w r item Hg Hkn H. unfold delete_run in H. guards H. injection H as <-. unrelated_columns; among. Qed.
Lemma lawful_finalise now outcome : lawful (finalise_run now outcome).
Proof.
  intros w r item Hg Hkn H. unfold finalise_run in H.
  destruct (Dict.get outcome outcomes) as [status|] eqn:E; [|discriminate H]. injection H as <-.
  apply Dict.get_elem in E. unfold outcomes in E. rewrite !elem_of_cons in E.
  unrelated_columns; destruct E as [[= _ ->]|[[= _ ->]|[[= _ ->]|Hx%elem_of_nil]]]; first [done|among].
Qed.
Lemma lawful_task id : lawful (fun r => Ok (r <| canary_worker_task_id := Some id |>)).
Proof. intros w r item Hg Hkn [= <-]. unrelated_columns; [|split]; by apply Hg. Qed.

(** * Steps *)

(** A row the handler has loaded: it obeys the rules, and what the table holds
    by now developed from it. *)
Definition holds (r : MemoryExperimentalRun) (w : world) : Prop :=
  gated w r /\ known r /\ exists cur, runs w !! run_id r = Some cur /\ kept r cur.
Definition held_scan (s : MemoryScanRun) (w : world) : Prop :=
  is_Some (experimental_run_id s) /\ exists cur, scans w !! scan_id s = Some cur /\ experimental_run_id cur = experimental_run_id s.
Definition held_plugin (k : str) (w : world) : Prop :=
  exists p, plugin_runs w !! k = Some p /\ experimental_scan w (p_scan_id p).

Lemma holds_later r w w' : later w w' -> holds r w -> holds r w'.
Proof.
  intros Hl (Hg & Hkn & cur & Hc & Hk). split; [by eapply gated_later|]. split; [done|].
  destruct (l_runs _ _ Hl _ _ Hc) as (cur' & Hc' & Hk'). exists cur'. split; [done|]. by transitivity cur.
Qed.
Lemma experimental_later w w' k : later w w' -> experimental_scan w k -> experimental_scan w' k.
Proof. intros Hl (s & Hs & He). destruct (l_scans _ _ Hl _ _ Hs) as (s' & Hs' & Ee). exists s'. by rewrite Ee. Qed.
Lemma held_scan_later s w w' : later w w' -> held_scan s w -> held_scan s w'.
Proof.
  intros Hl [He (cur & Hc & Ec)]. split; [done|]. destruct (l_scans _ _ Hl _ _ Hc) as (s' & Hs' & Ee). exists s'. split; [done|congruence].
Qed.
Lemma held_scan_experimental s w : held_scan s w -> experimental_scan w (scan_id s).
Proof. intros [He (cur & Hc & Ec)]. exists cur. by rewrite Ec. Qed.
Lemma held_plugin_later k w w' : later w w' -> held_plugin k w -> held_plugin k w'.
Proof.
  intros Hl (p & Hp & He). destruct (l_plugin_runs _ _ Hl _ _ Hp) as (p' & Hp' & Ep). exists p'. split; [done|].
  rewrite Ep. by eapply experimental_later.
Qed.
Hint Resolve holds_later held_scan_later held_plugin_later experimental_later gated_later isolated_later : experimental.

(** What is in the table at some time in the execution is known. *)
Definition of_execution (seen : world -> Prop) : Prop := forall w k r, seen w -> runs w !! k = Some r -> accepted r -> before k.
Lemma loaded_holds seen w k r : of_execution seen -> seen w -> consistent w -> runs w !! k = Some r -> run_id r = k /\ holds r w.
Proof.
  intros Hseen Sw Hw Hr. destruct (i_runs _ Hw _ _ Hr) as [<- Hg]. split; [done|]. split; [done|].
  split; [intros Ha; exact (Hseen _ _ _ Sw Hr Ha)|]. by exists r.
Qed.

(** Steps that leave the tables as they are. *)
Lemma unchanged w w' : consistent w ->
  requirements w' = requirements w -> symbols w' = symbols w -> candidates w' = candidates w -> runs w' = runs w -> scans w' = scans w ->
  plugin_runs w' = plugin_runs w -> evidence w' = evidence w -> cases w' = cases w -> settings w' = settings w ->
  consistent w' /\ isolated w w'.
Proof.
  intros Hw E1 E2 E3 E4 E5 E6 E7 E8 E9.
  assert (Hl : later w w') by (split; rewrite ?E1, ?E2, ?E4, ?E5, ?E6; intros k x Hx; by exists x).
  split.
  - split; rewrite ?E3, ?E4, ?E5, ?E6; [|apply Hw..]. intros k r Hr. destruct (i_runs _ Hw _ _ Hr). eauto with experimental.
  - split; rewrite ?E5, ?E6; try done; by intros k x -> [=].
Qed.

Lemma set_run w k r : consistent w -> run_id r = k -> gated w r -> (forall cur, runs w !! k = Some cur -> kept cur r) ->
  let w' := w <| runs := <[k := r]> (runs w) |> in consistent w' /\ isolated w w' /\ runs w' !! run_id r = Some r.
Proof.
  intros Hw Hk Hg Hcur w'.
  assert (Hl : later w w').
  { split; intros k' x Hx; try (by exists x). cbn. destruct (decide (k' = k)) as [->|Hne].
    - exists r. rewrite lookup_insert_eq. split; [done|]. by apply Hcur.
    - exists x. rewrite lookup_insert_ne by done. done. }
  split_and!.
  - split; [|apply Hw..]. cbn. intros k' x [[<- <-]|[Hne Hx]]%lookup_insert_Some; [by eauto with experimental|].
    destruct (i_runs _ Hw _ _ Hx). eauto with experimental.
  - split; try done; intros k' x Hn Hx; cbn in Hx; by rewrite Hn in Hx.
  - cbn. by rewrite Hk, lookup_insert_eq.
Qed.

Lemma set_scan w k s : consistent w -> scan_id s = k -> is_Some (experimental_run_id s) -> s_trust s = untrusted ->
  (forall cur, scans w !! k = Some cur -> experimental_run_id s = experimental_run_id cur) ->
  let w' := w <| scans := <[k := s]> (scans w) |> in consistent w' /\ isolated w w' /\ held_scan s w'.
Proof.
  intros Hw Hk He Ht Hcur w'.
  assert (Hl : later w w').
  { split; intros k' x Hx; try (by exists x). cbn. destruct (decide (k' = k)) as [->|Hne].
    - exists s. rewrite lookup_insert_eq. split; [done|]. by apply Hcur.
    - exists x. rewrite lookup_insert_ne by done. done. }
  split_and!.
  - split; [|apply Hw| |apply Hw].
    + intros k' x Hx. destruct (i_runs _ Hw _ _ Hx). eauto with experimental.
    + cbn. intros k' x [[<- <-]|[Hne Hx]]%lookup_insert_Some; [done|by apply Hw].
  - split; try done; cbn.
    + intros k' x Hx Hn. destruct (decide (k' = k)) as [->|Hne]; [|by rewrite lookup_insert_ne].
      rewrite <-(Hcur _ Hx) in Hn. rewrite Hn in He. by destruct He.
    + intros k' x Hn [[<- <-]|[Hne Hx]]%lookup_insert_Some; [done|congruence].
    + intros k' x Hn Hx. by rewrite Hn in Hx.
  - split; [done|]. exists s. cbn. rewrite Hk, lookup_insert_eq. done.
Qed.

Lemma set_plugin w k p : consistent w -> plugin_run_id p = k -> experimental_scan w (p_scan_id p) ->
  (forall cur, plugin_runs w !! k = Some cur -> p_scan_id p = p_scan_id cur) ->
  let w' := w <| plugin_runs := <[k := p]> (plugin_runs w) |> in consistent w' /\ isolated w w' /\ held_plugin k w'.
Proof.
  intros Hw Hk He Hcur w'.
  assert (Hl : later w w').
  { split; intros k' x Hx; try (by exists x). cbn. destruct (decide (k' = k)) as [->|Hne].
    - exists p. rewrite lookup_insert_eq. split; [done|]. by apply Hcur.
    - exists x. rewrite lookup_insert_ne by done. done. }
  split_and!.
  - split; [|apply Hw..|].
    + intros k' x Hx. destruct (i_runs _ Hw _ _ Hx). eauto with experimental.
    + cbn. intros k' x [[<- <-]|[Hne Hx]]%lookup_insert_Some; [done|by apply Hw].
  - split; try done; cbn.
    + intros k' s Hn Hs. by rewrite Hn in Hs.
    + intros k' x Hx Hn. destruct (decide (k' = k)) as [->|Hne]; [|by rewrite lookup_insert_ne].
      destruct Hn. by rewrite <-(Hcur _ Hx).
    + intros k' x Hn [[<- <-]|[Hne Hx]]%lookup_insert_Some; [done|congruence].
  - exists p. cbn. rewrite lookup_insert_eq. split; [done|]. by eapply experimental_later.
Qed.

Lemma set_candidate w k c : consistent w -> candidate_id c = k ->
  let w' := w <| candidates := <[k := c]> (candidates w) |> in consistent w' /\ isolated w w'.
Proof.
  intros Hw Hk w'.
  assert (Hl : later w w') by (split; intros k' x Hx; by exists x).
  split.
  - split; [| |apply Hw..].
    + intros k' x Hx. destruct (i_runs _ Hw _ _ Hx). eauto with experimental.
    + cbn. intros k' x [[<- <-]|[Hne Hx]]%lookup_insert_Some; [done|by apply Hw].
  - split; try done; intros k' x Hn Hx; cbn in Hx; by rewrite Hn in Hx.
Qed.
End rules.
#[export] Hint Resolve holds_later held_scan_later held_plugin_later experimental_later gated_later isolated_later : experimental.
End ExperimentalGates.
