(* ===== verification/ExperimentalRules.v ===== *)
(** What holds of experimental runs in every interleaving of requests, jobs and
    other users of the database: no canary and no full run without the
    acknowledgement, no full run without a canary that was recorded as passed, or
    as degraded with an override, and nothing outside the experimental rows
    changed. *)
From stdpp Require Import relations.
From S2P Require Import Prelude PyBase PyRuntime FileSystem Handlers ExperimentalTrust ExperimentalCanary ExperimentalModel ExperimentalRun ExperimentalGates.
Import Bytes Str PyRuntime FileSystem Handlers ExperimentalTrust ExperimentalCanary ExperimentalModel ExperimentalRun ExperimentalGates.

Module ExperimentalRules.

Section rules.
(** The worlds of an execution, and the runs that had an accepted canary in one
    of them. *)
Variables (before : str -> Prop) (occurs : world -> Prop).
Hypothesis before_occurs : of_execution before occurs.
Abbreviation consistent := (consistent before).
Abbreviation gated := (gated before).
Abbreviation known := (known before).
Abbreviation holds := (holds before).
Abbreviation lawful := (lawful before).
Abbreviation guar := (guarantees consistent occurs later isolated).
Abbreviation prog := (prog world run_exn).

(** * Rules for programs *)
Lemma bind_rule {A B} (Q : B -> world -> Prop) (Q' : A -> world -> Prop) (f : A -> prog B) (p : prog A) w0 :
  guar Q' p w0 -> (forall a w, later w0 w -> consistent w -> Q' a w -> guar Q (f a) w) -> guar Q (p ≫= f) w0.
Proof. apply guarantees_bind; [apply _|exact isolated_later]. Qed.

(** Programs of which nothing is needed but that they obey the rules. *)
Definition quiet {A} (p : prog A) : Prop := forall w, guar (fun _ _ => True) p w.
Lemma quiet_then {A B} (Q : B -> world -> Prop) (f : A -> prog B) (p : prog A) w0 :
  quiet p -> (forall a w, later w0 w -> guar Q (f a) w) -> guar Q (p ≫= f) w0.
Proof. intros Hp Hf. eapply bind_rule; [apply Hp|]. intros a w Hl _ _. by apply Hf. Qed.
Lemma quiet_bind {A B} (f : A -> prog B) (p : prog A) : quiet p -> (forall a, quiet (f a)) -> quiet (p ≫= f).
Proof. intros Hp Hf w. apply quiet_then; [done|]. intros a w' _. apply Hf. Qed.
Lemma quiet_catch {A} (p : prog A) h : quiet p -> (forall e, quiet (h e)) -> quiet (catch p h).
Proof. intros Hp Hh w. apply guarantees_catch; [apply _|exact isolated_later|apply Hp|]. intros e w' _. apply Hh. Qed.
Lemma quiet_done {A} (m : result run_exn A) : quiet (Done m).
Proof. intros w. by destruct m. Qed.
Lemma quiet_ret {A} (a : A) : quiet (mret a).
Proof. by intros w. Qed.
Lemma quiet_guard b e : quiet (guard b e).
Proof. intros w. by destruct b. Qed.
Lemma quiet_look {A} (f : world -> A) : quiet (look f).
Proof. intros w. apply guarantees_look; [apply _..|done]. Qed.
Lemma quiet_attempt {A} (f : world -> result run_exn (world * A)) :
  (forall w w' a, consistent w -> f w = Ok (w', a) -> consistent w' /\ isolated w w') -> quiet (attempt f).
Proof. intros Hf w. apply guarantees_attempt; [apply _..|]. intros w1 w' a Hl Hw E. by destruct (Hf _ _ _ Hw E). Qed.
Lemma quiet_on_files f : quiet (on_files f).
Proof. apply quiet_attempt. intros w w' a Hw. destruct (f (files w)); [|done|done]. intros [= <- <-]. by apply unchanged. Qed.
Lemma quiet_read_files {A} (f : fs -> result os_error A) : quiet (read_files f).
Proof. apply quiet_attempt. intros w w' a Hw. destruct (f (files w)); [|done|done]. intros [= <- <-]. by apply unchanged. Qed.
Lemma quiet_uuid4 text : quiet (uuid4 text).
Proof. intros w0 w Hl Hw. destruct (unchanged before w (w <| uuids := S (uuids w) |>)) as [? ?]; done. Qed.
Lemma quiet_get {R} `{Stored R} k : quiet (get (R := R) k).
Proof. apply quiet_look. Qed.
Lemma quiet_refresh {R} `{Stored R} k : quiet (refresh (R := R) k).
Proof. apply quiet_attempt. intros w w' a Hw. destruct (table w !! k); [|done]. intros [= <- <-]. split; [done|reflexivity]. Qed.
Lemma quiet_enqueue text j : quiet (enqueue text j).
Proof.
  apply quiet_bind; [apply quiet_uuid4|]. intros id. apply quiet_attempt. intros w w' a Hw.
  destruct (redis_up w); [|done]. intros [= <- <-]. by apply unchanged.
Qed.
Lemma quiet_now : quiet utc_now_naive.
Proof. apply quiet_look. Qed.
Hint Resolve quiet_now quiet_done quiet_ret quiet_guard quiet_look quiet_on_files quiet_read_files quiet_uuid4 quiet_enqueue quiet_get quiet_refresh : quiet.

(** The structure of a program that only reads. *)
Ltac reads :=
  repeat first
    [ solve [auto with quiet]
    | match goal with |- forall _, quiet _ => intros ? end
    | apply quiet_bind; [|intros ?]
    | apply quiet_catch; [|intros ?]
    | match goal with |- quiet (match ?x with _ => _ end) => destruct x end
    | apply quiet_done ].
(** What is known of rows and tables moves along. *)
Ltac moved Hl :=
  repeat match goal with
  | H : holds _ _ |- _ => apply (holds_later _ _ _ _ Hl) in H
  | H : held_scan _ _ |- _ => apply (held_scan_later _ _ _ Hl) in H
  | H : held_plugin _ _ |- _ => apply (held_plugin_later _ _ _ Hl) in H
  | H : experimental_scan _ _ |- _ => apply (experimental_later _ _ _ Hl) in H
  end; clear Hl.
Ltac next_quiet := apply quiet_then; [solve [reads]|let a := fresh "a" in let w := fresh "w" in let Hl := fresh "Hl" in intros a w Hl; moved Hl].

Section flow.
Context `{Runtime}.
Variables (uuid_text : nat -> str) (sha256_file : bytes -> str) (isoformat : Z -> str) (json_loads : str -> option json)
  (py_upper : str -> str) (manifest_bytes : str -> list str -> Z -> bytes) (repr : json -> str) (float_is_inf : float -> bool)
  (fromisoformat : str -> bool) (fingerprint_acknowledgement : list (str * json) -> str) (configured_version : str)
  (evidence_access : str -> fs -> option str) (documents_of : str -> list (str * json) -> Z).

Lemma quiet_feature : quiet require_feature_enabled.
Proof. unfold require_feature_enabled. reads. Qed.
Lemma quiet_verify candidate : quiet (verify_candidate_integrity sha256_file candidate).
Proof. unfold verify_candidate_integrity, _ensure_regular_readable_file, hash_file. reads. Qed.
Lemma quiet_verified candidate : quiet (verified sha256_file candidate).
Proof. unfold verified. apply quiet_catch; [apply quiet_bind; [apply quiet_verify|]; reads|]. reads. Qed.
Hint Resolve quiet_feature quiet_verify quiet_verified : quiet.

(** * Rules for rows *)
Lemma guar_get_run k w0 : guar (fun o w => forall r, o = Some r -> run_id r = k /\ holds r w) (get (R := MemoryExperimentalRun) k) w0.
Proof.
  apply guarantees_look_seen; [apply _..|]. intros w w' _ Hw Sw Hl _ r Hr.
  destruct (loaded_holds before occurs w k r before_occurs Sw Hw Hr) as [? ?]. split; [done|]. by eapply holds_later.
Qed.

(** What is loaded again developed from what was there. *)
Definition developed (item : MemoryExperimentalRun) (k : str) (w : world) : Prop := exists cur, runs w !! k = Some cur /\ kept item cur.
Lemma guar_refresh_run item k w0 : developed item k w0 ->
  guar (fun r w => holds r w /\ kept item r) (refresh (R := MemoryExperimentalRun) k) w0.
Proof.
  intros (cur & Hc & Hk). apply guarantees_attempt_seen; [apply _..|]. intros w w' a Hl Hw E Sw _.
  destruct (table w !! k) as [r|] eqn:Hr; [|done]. injection E as <- <-. split; [done|]. split; [reflexivity|].
  intros w'' Hl'' _. destruct (loaded_holds before occurs w k r before_occurs Sw Hw Hr) as [_ Hh]. split; [by eapply holds_later|].
  destruct (l_runs _ _ Hl _ _ Hc) as (cur' & Hc' & Hk'). assert (cur' = r) as -> by (cbn in Hr; congruence). by transitivity cur.
Qed.
Lemma guar_load k w0 : guar (fun r w => holds r w) (refresh (R := MemoryExperimentalRun) k) w0.
Proof.
  apply guarantees_attempt_seen; [apply _..|]. intros w w' a Hl Hw E Sw _.
  destruct (table w !! k) as [r|] eqn:Hr; [|done]. injection E as <- <-. split; [done|]. split; [reflexivity|].
  intros w'' Hl'' _. destruct (loaded_holds before occurs w k r before_occurs Sw Hw Hr) as [_ Hh]. by eapply holds_later.
Qed.

(** A row that records a passed canary is written only to a run that had one. *)
Lemma guar_commit_run r item w0 : holds r w0 -> kept r item -> gated w0 item ->
  guar (fun _ w => developed item (run_id r) w /\ (r_canary_status item = passed -> before (run_id r))) (commit r item) w0.
Proof.
  intros Hr Hk Hg. apply guarantees_attempt_seen; [apply _..|]. intros w w' [] Hl Hw E _ Sw'.
  apply (holds_later _ _ _ _ Hl) in Hr as (Hgr & Hkn & cur & Hc & Hkc). apply (gated_later _ _ _ _ Hl) in Hg.
  change (table w !! key r) with (runs w !! run_id r) in E. rewrite Hc in E. case_decide as Hne; cbv zeta in E.
  - injection E as <-. subst item. split; [done|]. split; [reflexivity|]. intros w'' Hl'' _. split; [|intros Hp; apply Hkn; by left].
    destruct (l_runs _ _ Hl'' _ _ Hc) as (cur' & Hc' & Hk'). exists cur'. split; [done|]. by transitivity cur.
  - match type of E with context [if ?b then _ else _] => destruct b; [|done] end. injection E as <-.
    destruct (i_runs _ _ Hw _ _ Hc) as [Hid Hgc]. destruct (merged before w r item cur Hkc Hk Hgr Hgc Hg) as [Hkm Hgm].
    set (m := merge_columns r item cur) in *. set (m' := m <| updated_at := clock w |>) in *.
    assert (Hu : kept m m' /\ gated w m') by (apply unrelated; try done; [by apply Hgm|by split; apply Hgm]). destruct Hu as [Hku Hgu].
    assert (Hidm : run_id m' = run_id r) by (rewrite <-Hid; reflexivity).
    destruct (set_run before w (run_id r) m' Hw Hidm Hgu) as (Hw' & Hi & Hm').
    { intros cur' Hc'. rewrite Hc in Hc'. injection Hc' as <-. by transitivity m. }
    split; [exact Hw'|]. split; [exact Hi|]. intros w'' Hl'' _. rewrite Hidm in Hm'. split.
    + destruct (l_runs _ _ Hl'' (run_id r) m' Hm') as (cur' & Hc' & Hk'). exists cur'. split; [exact Hc'|].
      transitivity m'; [|done]. transitivity m; [|done]. exact (kept_item r item cur Hkc Hk).
    + intros Hp. destruct (decide (r_canary_status r = passed)) as [Hrp|Hrp]; [apply Hkn; by left|].
      apply (before_occurs _ _ _ Sw' Hm'). left. change (merge_column (r_canary_status r) (r_canary_status item) (r_canary_status cur) = passed).
      unfold merge_column. by rewrite decide_False by congruence.
Qed.

Lemma guar_save r item w0 : holds r w0 -> kept r item -> gated w0 item ->
  guar (fun r' w => holds r' w /\ kept item r' /\ (r_canary_status item = passed -> before (run_id r))) (save r item) w0.
Proof.
  intros Hr Hk Hg. eapply bind_rule; [by apply guar_commit_run|]. intros [] w Hl Hw [Hd Hp].
  eapply guarantees_mono; [|by apply guar_refresh_run]. by intros r' w' _ [? ?].
Qed.

Lemma guar_transition f r w0 : holds r w0 ->
  (forall now w item, later w0 w -> gated w r -> f now r = Ok item -> kept r item /\ gated w item) ->
  guar (fun r' w => holds r' w /\ kept r r' /\
          exists now item, f now r = Ok item /\ kept item r' /\ (r_canary_status item = passed -> before (run_id r))) (transition f r) w0.
Proof.
  intros Hr Hf. unfold transition. apply quiet_then; [reads|]. intros now w1 Hl1.
  eapply bind_rule with (Q' := fun item _ => f now r = Ok item); [by apply guarantees_done|].
  intros item w Hl _ E. assert (Hh : holds r w) by (by eapply holds_later, holds_later).
  destruct (Hf now w item) as [Hk Hg]; [by transitivity w1|apply Hh|done|].
  eapply guarantees_mono; [|by apply guar_save]. intros r' w' _ (Hr' & Hk' & Hp). split; [done|]. split; [by transitivity item|]. by exists now, item.
Qed.
Lemma guar_lawful f r w0 : holds r w0 -> (forall now, lawful (f now)) -> guar holds (transition f r) w0.
Proof.
  intros Hr Hf. eapply guarantees_mono; [|apply guar_transition; [done|]].
  - intros r' w _ [Hh _]. exact Hh.
  - intros now w item _ Hg E. eapply Hf; [exact Hg|apply Hr|exact E].
Qed.
Lemma guar_lawful2 f r w0 : holds r w0 -> (forall now now', lawful (f now now')) -> guar holds (transition2 f r) w0.
Proof.
  intros Hr Hf. unfold transition2. apply quiet_then; [reads|]. intros now w Hl. moved Hl. by apply guar_lawful.
Qed.

Lemma quiet_insert_run r : (forall w, gated w r) -> quiet (insert_row r).
Proof.
  intros Hg. apply quiet_attempt. intros w w' [] Hw.
  destruct (bool_decide (table w !! key r = None) && unique_in (key r) r (table w)) eqn:E; [|done]. intros [= <-].
  apply andb_true_iff in E as [E%bool_decide_eq_true _].
  destruct (set_run before w (run_id r) r Hw eq_refl (Hg w)) as (? & ? & _); [|done].
  intros cur Hc. change (runs w !! run_id r = None) in E. congruence.
Qed.

(** The session's run: loaded, or to be loaded. *)
Definition handle_ok (h : handle MemoryExperimentalRun) (w : world) : Prop := match h with Loaded r => holds r w | Expired _ => True end.
Lemma handle_ok_later h w w' : later w w' -> handle_ok h w -> handle_ok h w'.
Proof. destruct h; [apply holds_later|done]. Qed.
Lemma guar_reload h w0 : handle_ok h w0 -> guar holds (reload h) w0.
Proof.
  destruct h as [r|k]; intros Hh; [|apply guar_load]. apply guarantees_done. intros r' w [= <-] Hl _. by eapply holds_later.
Qed.

(** * Rules for scans *)
Lemma first_by_spec {R} (created : R -> Z) (p : R -> bool) (t : gmap str R) r : first_by created p t = Some r -> p r = true /\ exists k, t !! k = Some r.
Proof.
  unfold first_by. intros Hh. assert (Hin : r ∈ Sort.sort_by created (filter (fun x => p x) (map snd (map_to_list t)))).
  { destruct (Sort.sort_by created _) as [|x l]; [done|]. injection Hh as ->. by left. }
  rewrite Sort.sort_by_perm in Hin. apply list_elem_of_filter in Hin as [Hp Hin]. split; [by destruct (p r)|].
  apply list_elem_of_fmap in Hin as ([k x] & -> & Hin). exists k. by apply elem_of_map_to_list.
Qed.

Lemma guar_found_scan run_id_ profile w0 :
  guar (fun o w => forall s, o = Some s -> held_scan s w)
    (look (E := run_exn) (fun w => first_by (fun s => - s_created_at s)
      (fun s => bool_decide (experimental_run_id s = Some run_id_) && bool_decide (s_profile s = profile)) (scans w))) w0.
Proof.
  apply guarantees_look; [apply _..|]. intros w w' _ Hw Hl _ s Hs. apply first_by_spec in Hs as [Hp [k Hk]].
  apply andb_true_iff in Hp as [He%bool_decide_eq_true _]. destruct (i_scans _ _ Hw _ _ Hk) as [<- _].
  eapply held_scan_later; [exact Hl|]. split; [by rewrite He|]. by exists s.
Qed.

Lemma guar_insert_scan s w0 : is_Some (experimental_run_id s) -> s_trust s = untrusted -> guar (fun _ w => held_scan s w) (insert_row s) w0.
Proof.
  intros He Ht. apply guarantees_attempt; [apply _..|]. intros w w' [] _ Hw.
  destruct (bool_decide (table w !! key s = None) && unique_in (key s) s (table w)) eqn:E; [|done]. intros [= <-].
  apply andb_true_iff in E as [E%bool_decide_eq_true _].
  destruct (set_scan before w (scan_id s) s Hw eq_refl He Ht) as (Hw' & Hi & Hh).
  { intros cur Hc. change (scans w !! scan_id s = None) in E. congruence. }
  split; [exact Hw'|]. split; [exact Hi|]. intros w'' Hl _. by eapply held_scan_later.
Qed.

Lemma guar_refresh_scan s w0 : held_scan s w0 -> guar (fun s' w => held_scan s' w) (refresh (R := MemoryScanRun) (scan_id s)) w0.
Proof.
  intros Hs. apply guarantees_attempt; [apply _..|]. intros w w' a Hl Hw E.
  destruct (table w !! scan_id s) as [r|] eqn:Hr; [|done]. injection E as <- <-. split; [done|]. split; [reflexivity|].
  intros w'' Hl'' _. destruct (held_scan_later _ _ _ Hl Hs) as [He (cur & Hc & Ec)]. change (scans w !! scan_id s = Some r) in Hr.
  rewrite Hc in Hr. injection Hr as ->. eapply held_scan_later; [exact Hl''|]. split; [by rewrite Ec|].
  destruct (i_scans _ _ Hw _ _ Hc) as [-> _]. by exists r.
Qed.

Lemma guar_commit_scan s item w0 : held_scan s w0 -> guar (fun _ _ => True) (commit s item) w0.
Proof.
  intros Hs. apply guarantees_attempt; [apply _..|]. intros w w' [] Hl Hw E.
  destruct (held_scan_later _ _ _ Hl Hs) as [He (cur & Hc & Ec)].
  change (table w !! key s) with (scans w !! scan_id s) in E. rewrite Hc in E. case_decide; cbv zeta in E.
  - injection E as <-. split; [done|]. by split; [reflexivity|].
  - match type of E with context [if ?b then _ else _] => destruct b; [|done] end. injection E as <-.
    destruct (i_scans _ _ Hw _ _ Hc) as [Hid Ht].
    destruct (set_scan before w (scan_id s) (onupdate (clock w) (merge_columns s item cur)) Hw) as (Hw' & Hi & _); [exact Hid| | | |done].
    + change (is_Some (experimental_run_id cur)). by rewrite Ec.
    + change (s_trust cur = untrusted). apply Ht. by rewrite Ec.
    + intros cur' Hc'. assert (cur' = cur) as -> by congruence. reflexivity.
Qed.

Definition plugin_handle (h : handle MemoryPluginRun) (w : world) : Prop :=
  match h with Loaded p => held_plugin (plugin_run_id p) w | Expired k => held_plugin k w end.

Lemma guar_commit_plugin p item w0 : held_plugin (plugin_run_id p) w0 -> guar (fun _ w => held_plugin (plugin_run_id p) w) (commit p item) w0.
Proof.
  intros Hp. apply guarantees_attempt; [apply _..|]. intros w w' [] Hl Hw E.
  apply (held_plugin_later _ _ _ Hl) in Hp. pose proof Hp as (cur & Hc & He).
  change (table w !! key p) with (plugin_runs w !! plugin_run_id p) in E. rewrite Hc in E. case_decide; cbv zeta in E.
  - injection E as <-. split; [done|]. split; [reflexivity|]. intros w'' Hl'' _. by eapply held_plugin_later.
  - match type of E with context [if ?b then _ else _] => destruct b; [|done] end. injection E as <-.
    destruct (set_plugin before w (plugin_run_id p) (onupdate (clock w) (merge_columns p item cur)) Hw) as (Hw' & Hi & Hh).
    + exact (i_plugin_runs _ _ Hw _ _ Hc).
    + exact He.
    + intros cur' Hc'. assert (cur' = cur) as -> by congruence. reflexivity.
    + split; [exact Hw'|]. split; [exact Hi|]. intros w'' Hl'' _. by eapply held_plugin_later.
Qed.

Lemma guar_assign h f w0 : plugin_handle h w0 -> (forall p, plugin_run_id (f p) = plugin_run_id p /\ p_scan_id (f p) = p_scan_id p) ->
  guar (fun k w => held_plugin k w) (assign h f) w0.
Proof.
  intros Hh Hf. destruct h as [p|k]; cbn [assign].
  - eapply bind_rule; [by apply guar_commit_plugin|]. intros [] w _ _ Hp. apply guarantees_done.
    intros k w' [= <-] Hl _. by eapply held_plugin_later.
  - apply guarantees_attempt; [apply _..|]. intros w w' k' Hl Hw E.
    destruct (held_plugin_later _ _ _ Hl Hh) as (cur & Hc & He). rewrite Hc in E. injection E as <- <-.
    destruct (Hf cur) as [Ei Es]. destruct (set_plugin before w k (f cur) Hw) as (Hw' & Hi & Hh').
    + rewrite Ei. exact (i_plugin_runs _ _ Hw _ _ Hc).
    + by rewrite Es.
    + intros cur' Hc'. assert (cur' = cur) as -> by congruence. done.
    + split; [exact Hw'|]. split; [exact Hi|]. intros w'' Hl'' _. by eapply held_plugin_later.
Qed.

(** * The programs *)
Lemma guar_ensure_scan h profile plugins w0 : handle_ok h w0 ->
  guar (fun r w => handle_ok (fst r) w /\ held_scan (snd r) w) (_ensure_scan_run uuid_text h profile plugins) w0.
Proof.
  intros Hh. unfold _ensure_scan_run. eapply bind_rule; [by apply guar_reload|]. intros run w Hl _ Hr.
  eapply bind_rule; [apply guar_found_scan|]. intros [scan|] w1 Hl1 _ Hs.
  - apply guarantees_done. intros r w2 [= <-] Hl2 _. split; [by eapply holds_later, holds_later|].
    eapply held_scan_later; [exact Hl2|]. by apply Hs.
  - clear Hs Hr. next_quiet. next_quiet. eapply bind_rule; [by apply guar_insert_scan|]. intros [] w4 _ _ Hs.
    eapply bind_rule; [exact (guar_refresh_scan _ _ Hs)|]. intros scan w5 _ _ Hs'. apply guarantees_done.
    intros r w6 [= <-] Hl6 _. split; [done|]. by eapply held_scan_later.
Qed.

Lemma guar_plugin_run_for scan name w0 : held_scan scan w0 -> guar plugin_handle (_plugin_run_for uuid_text scan name) w0.
Proof.
  intros Hs. unfold _plugin_run_for.
  eapply bind_rule with (Q' := fun o w => forall p, o = Some p -> held_plugin (plugin_run_id p) w).
  { apply guarantees_look; [apply _..|]. intros w w' Hl Hw Hl' _ p Hp. apply first_by_spec in Hp as [Hp [k Hk]].
    apply andb_true_iff in Hp as [He%bool_decide_eq_true _]. rewrite (i_plugin_runs _ _ Hw _ _ Hk).
    eapply held_plugin_later; [exact Hl'|]. exists p. split; [done|]. rewrite He. eapply held_scan_experimental, held_scan_later; eassumption. }
  intros [p|] w Hl _ Hp.
  - apply guarantees_done. intros h w' [= <-] Hl' _. eapply held_plugin_later; [exact Hl'|]. by apply Hp.
  - clear Hp. moved Hl. next_quiet. next_quiet.
    eapply bind_rule with (Q' := fun _ w => held_plugin a w).
    { apply guarantees_attempt; [apply _..|]. intros w' w'' [] Hl' Hw E.
      match type of E with context [if ?b then _ else _] => destruct b eqn:Eb; [|done] end. injection E as <-.
      apply andb_true_iff in Eb as [Eb%bool_decide_eq_true _].
      match goal with |- context [<[_ := ?row]> (plugin_runs _)] => destruct (set_plugin before w' a row Hw eq_refl) as (Hw' & Hi & Hh) end.
      - eapply held_scan_experimental, held_scan_later; eassumption.
      - intros cur Hc. change (plugin_runs w' !! a = None) in Eb. congruence.
      - split; [exact Hw'|]. split; [exact Hi|]. intros w''' Hl'' _. by eapply held_plugin_later. }
    intros [] w' _ _ Hp. apply guarantees_done. intros h w'' [= <-] Hl' _. by eapply held_plugin_later.
Qed.

Lemma quiet_write_atomic p data : quiet (write_atomic_bytes sha256_file p data).
Proof. unfold write_atomic_bytes. reads. Qed.
Lemma quiet_run_dir c e r : quiet (_resolve_run_dir c e r).
Proof. unfold _resolve_run_dir. reads. Qed.
Lemma quiet_overlay run_dir run p : quiet (_build_overlay_symbol_dir py_upper run_dir run p).
Proof. unfold _build_overlay_symbol_dir. reads. Qed.
Hint Resolve quiet_write_atomic quiet_run_dir quiet_overlay : quiet.

Lemma guar_plugin_end {A} k f (result : MemoryPluginRun -> A) w0 : held_plugin k w0 ->
  (forall p, plugin_run_id (f p) = plugin_run_id p /\ p_scan_id (f p) = p_scan_id p) ->
  guar (fun _ _ => True) (assign (Expired k) f;* let* p := refresh (R := MemoryPluginRun) k in mret (result p)) w0.
Proof.
  intros Hk Hf. eapply bind_rule; [apply (guar_assign (Expired k)); [exact Hk|exact Hf]|]. intros k' w _ _ _. next_quiet. apply quiet_ret.
Qed.

Lemma guar_execute volatility scan name run_dir w0 : held_scan scan w0 ->
  guar (fun _ _ => True) (_execute_plugin_for_scan uuid_text sha256_file json_loads volatility scan name run_dir) w0.
Proof.
  intros Hs. unfold _execute_plugin_for_scan. eapply bind_rule; [by apply guar_plugin_run_for|]. intros h w Hl _ Hh. clear Hl.
  apply quiet_then; [solve [reads]|]. intros now w1 Hl1.
  eapply bind_rule; [apply guar_assign; [|by split]|].
  { destruct h; by eapply held_plugin_later. }
  intros k w2 Hl2 _ Hk.
  assert (Hfail : forall code w, held_plugin k w ->
    guar (fun _ _ => True) (let* now := utc_now_naive in assign (Expired k) (plugin_failure code now);*
                            let* p := refresh (R := MemoryPluginRun) k in mret (None (A := json), p_status p)) w).
  { intros code w' Hk'. apply quiet_then; [solve [reads]|]. intros now' w3 Hl3. apply guar_plugin_end; [by eapply held_plugin_later|done]. }
  destruct (volatility name) as [stdout|code|e]; [|by apply Hfail|done].
  apply quiet_then; [solve [reads]|]. intros raw w3 Hl3. apply quiet_then; [solve [reads]|]. intros text w4 Hl4.
  apply (held_plugin_later _ _ _ Hl3), (held_plugin_later _ _ _ Hl4) in Hk.
  destruct (json_loads text) as [payload|]; [|by apply Hfail].
  apply quiet_then; [solve [reads]|]. intros now' w5 Hl5. apply guar_plugin_end; [by eapply held_plugin_later|done].
Qed.

Lemma guar_finalize_scan scan w0 : held_scan scan w0 -> guar (fun _ _ => True) (_finalize_scan_status (scan_id scan)) w0.
Proof.
  intros Hs. unfold _finalize_scan_status. eapply bind_rule; [by apply guar_refresh_scan|]. intros loaded w _ _ Hs'.
  apply quiet_then; [solve [reads]|]. intros mine w1 Hl1. apply quiet_then; [solve [reads]|]. intros now w2 Hl2.
  unfold save. eapply bind_rule; [apply guar_commit_scan; eapply held_scan_later, held_scan_later; eassumption|].
  intros [] w3 _ _ _. apply quiet_refresh.
Qed.

Lemma guar_heartbeat stage r w0 : holds r w0 -> guar holds (update_worker_heartbeat isoformat stage r) w0.
Proof. intros Hr. apply guar_lawful; [done|]. intros now. apply lawful_heartbeat. Qed.
Lemma guar_cancel actor reason r w0 : holds r w0 -> guar holds (cancel actor reason r) w0.
Proof. intros Hr. apply guar_lawful2; [done|]. intros. apply lawful_cancel. Qed.
Lemma guar_progress queued completed failed r w0 : holds r w0 -> guar holds (progress queued completed failed r) w0.
Proof. intros Hr. apply guar_lawful; [done|]. intros. apply lawful_progress. Qed.
Lemma guar_finalise outcome r w0 : holds r w0 -> guar holds (finalise outcome r) w0.
Proof. intros Hr. apply guar_lawful; [done|]. intros. apply lawful_finalise. Qed.
Lemma guar_reconcile r w0 : holds r w0 -> guar holds (_reconcile_run_terminal_state r) w0.
Proof.
  intros Hr. unfold _reconcile_run_terminal_state. destruct (terminal_outcome r); [by apply guar_finalise|].
  apply guarantees_done. intros r' w [= <-] Hl _. by eapply holds_later.
Qed.

(** Forgetting what is known of the value. *)
Lemma guar_any {A} (Q : A -> world -> Prop) (p : prog A) w0 : guar Q p w0 -> guar (fun _ _ => True) p w0.
Proof. by apply guarantees_mono. Qed.
Lemma guar_then {A B} (Q' : A -> world -> Prop) (b : B) (p : prog A) w0 : guar Q' p w0 -> guar (fun _ _ => True) (p;* mret b) w0.
Proof. intros Hp. eapply bind_rule; [exact Hp|]. done. Qed.

Lemma quiet_prepared run : quiet (prepared sha256_file evidence_access run).
Proof. unfold prepared. reads. Qed.
Hint Resolve quiet_prepared : quiet.

(** The verdict is written only to a run that was acknowledged. *)
Lemma guar_finalize_canary rows plugin_rows plugin_results r w0 : holds r w0 ->
  guar holds (finalize_canary repr float_is_inf fromisoformat rows plugin_rows plugin_results r) w0.
Proof.
  intros Hr. unfold finalize_canary. eapply bind_rule with (Q' := fun _ _ => finalizable r = Ok tt).
  { apply guarantees_done. by intros [] w. }
  intros [] w Hl _ Hf. moved Hl.
  assert (Ha : is_Some (acknowledgement_at r)).
  { destruct Hr as [Hg _]. apply Hg. unfold finalizable in Hf. apply raise_if_Ok, not_in_false in Hf. revert Hf.
    rewrite elem_of_cons, list_elem_of_singleton. intros [-> | ->]; among. }
  apply quiet_then; [solve [reads]|]. intros result w1 Hl1. moved Hl1.
  eapply bind_rule with (Q' := fun r' w => holds r' w /\ is_Some (acknowledgement_at r') /\ (status result = passed -> is_Some (canary_override_at r') /\ before (run_id r'))).
  { unfold transition2. apply quiet_then; [solve [reads]|]. intros now w2 Hl2. moved Hl2.
    eapply guarantees_mono; [|apply guar_transition; [done|]].
    - intros r' w' _ (Hh & Hk & now' & item & [= <-] & Hk' & Hb). split; [done|]. split; [by apply Hk|]. intros Hp. split.
      + apply Hk'. unfold persist_canary_result. rewrite Hp. eauto.
      + rewrite (k_id _ _ Hk). apply Hb. unfold persist_canary_result. by rewrite Hp.
    - intros now' w' item _ Hg E. eapply lawful_persist; [exact Hg|apply Hr|exact E]. }
  intros r' w2 _ _ (Hr' & Ha' & Ho'). eapply guarantees_mono; [|apply guar_transition; [done|]].
  - by intros r'' w' _ [Hh _].
  - intros now w' item _ Hg E. by eapply lawful_outcome.
Qed.

(** * The jobs *)
Lemma guar_given_up {A} (Q : str + A -> world -> Prop) run e w0 : holds run w0 -> (forall code w, Q (inl code) w) -> guar Q (given_up run e) w0.
Proof.
  intros Hr HQ. unfold given_up. destruct (is_ours e); [|done]. eapply bind_rule; [by apply guar_cancel|].
  intros r w _ _ _. apply guarantees_done. by intros a w' [= <-].
Qed.

Lemma quiet_heartbeat_of stage id : quiet (let* run := refresh (R := MemoryExperimentalRun) id in update_worker_heartbeat isoformat stage run).
Proof. intros w. eapply bind_rule; [apply guar_load|]. intros r w' _ _ Hr. eapply guar_any. by apply guar_heartbeat. Qed.

Lemma guar_canary_plugin volatility scan run_dir id seen name w0 : held_scan scan w0 ->
  guar (fun _ _ => True) (canary_plugin uuid_text sha256_file isoformat json_loads volatility scan run_dir id seen name) w0.
Proof.
  intros Hs. unfold canary_plugin. eapply bind_rule; [by apply guar_execute|]. intros [payload st] w _ _ _.
  eapply bind_rule; [apply guar_load|]. intros r w1 _ _ Hr. eapply guar_then. by apply guar_heartbeat.
Qed.
Lemma guar_profile_plugin volatility scan run_dir id profile seen name w0 : held_scan scan w0 ->
  guar (fun _ _ => True) (profile_plugin uuid_text sha256_file isoformat json_loads volatility scan run_dir id profile seen name) w0.
Proof.
  intros Hs. unfold profile_plugin. eapply bind_rule; [by apply guar_execute|]. intros [payload st] w _ _ _.
  eapply bind_rule; [apply guar_load|]. intros r w1 _ _ Hr. eapply guar_then. by apply guar_heartbeat.
Qed.

(** A loop over plugins of a scan. *)
Lemma guar_plugins {S} scan (f : S -> str -> prog S) s l w0 : held_scan scan w0 ->
  (forall s name w, held_scan scan w -> guar (fun _ _ => True) (f s name) w) -> guar (fun _ _ => True) (forP f s l) w0.
Proof.
  intros Hs Hf. apply guarantees_forP; [apply _|exact isolated_later|done|done|]. intros s' x w Hl _ _. apply Hf. by eapply held_scan_later.
Qed.

Lemma quiet_canary volatility id :
  quiet (run_experimental_canary uuid_text sha256_file isoformat json_loads py_upper repr float_is_inf fromisoformat evidence_access volatility id).
Proof.
  intros w0. unfold run_experimental_canary. eapply bind_rule; [apply guar_get_run|]. intros [run|] w Hl _ Hrun; [|apply quiet_ret].
  destruct (Hrun run eq_refl) as [_ Hr]. clear Hl Hrun. next_quiet.
  destruct (negb a); [eapply guar_then; by apply guar_cancel|]. case_bool_decide; [apply quiet_ret|].
  destruct (negb _); [apply quiet_ret|].
  eapply bind_rule with (Q' := fun r w => match r with inl _ => True | inr (_, run) => holds run w end).
  { apply guarantees_catch; [apply _|exact isolated_later| |].
    - apply quiet_then; [solve [reads]|]. intros isf w2 Hl2. moved Hl2.
      eapply bind_rule; [apply guar_lawful; [done|exact (lawful_running before)]|]. intros run' w3 _ _ Hr'. apply guarantees_done.
      intros r w4 [= <-] Hl _. by eapply holds_later.
    - intros e w2 Hl. apply guar_given_up; [by eapply holds_later|done]. }
  intros [code|[isf_path run']] w2 _ _ Hr'; [apply quiet_ret|]. clear Hr.
  eapply bind_rule; [by apply guar_heartbeat|]. intros run2 w3 _ _ Hr2. next_quiet. next_quiet.
  eapply bind_rule; [by apply (guar_ensure_scan (Loaded run2))|]. intros [h scan] w6 _ _ [_ Hs]. clear Hr2. next_quiet.
  eapply bind_rule; [by apply guar_commit_scan|]. intros [] w8 Hl8 _ _. moved Hl8.
  eapply bind_rule; [apply (guar_plugins scan); [done|]; intros; by apply guar_canary_plugin|].
  intros [plugin_rows plugin_results] w9 Hl9 _ _. moved Hl9.
  eapply bind_rule; [by apply guar_finalize_scan|]. intros s9 w10 _ _ _.
  eapply bind_rule; [apply guar_load|]. intros run3 w11 _ _ Hr3.
  eapply bind_rule with (Q' := fun _ _ => True).
  { apply guarantees_catch; [apply _|exact isolated_later| |].
    - eapply bind_rule; [by apply guar_finalize_canary|]. intros r w12 _ _ _. apply quiet_ret.
    - intros e w12 Hl. apply guar_given_up; [by eapply holds_later|done]. }
  intros [code|r] w12 _ _ _; apply quiet_ret.
Qed.

Lemma quiet_profile_failed run e w0 : holds run w0 -> guar (fun _ _ => True) (profile_failed run e) w0.
Proof.
  intros Hr. unfold profile_failed. eapply guar_then with (Q' := fun _ _ => True).
  apply guarantees_catch; [apply _|exact isolated_later| |].
  - eapply bind_rule; [by apply guar_progress|]. intros r w _ _ Hr'. eapply guar_then. by apply guar_reconcile.
  - intros e' w _. apply quiet_ret.
Qed.

Lemma quiet_profile volatility index id name :
  quiet (run_experimental_profile uuid_text sha256_file isoformat json_loads py_upper manifest_bytes evidence_access documents_of volatility index id name).
Proof.
  intros w0. unfold run_experimental_profile. eapply bind_rule; [apply guar_get_run|]. intros [run|] w Hl _ Hrun; [|apply quiet_ret].
  destruct (Hrun run eq_refl) as [_ Hr]. clear Hl Hrun. destruct (negb _); [apply quiet_ret|]. next_quiet.
  destruct (negb a); [apply quiet_ret|]. destruct (get_experimental_profile name) as [definition|]; [|apply quiet_ret].
  destruct (_ || _); [apply quiet_ret|].
  eapply bind_rule with (Q' := fun _ _ => True).
  { apply guarantees_catch; [apply _|exact isolated_later|apply quiet_bind; [reads|intros; apply quiet_ret]|].
    intros e w2 Hl. destruct (is_ours e); [|done]. eapply bind_rule; [by eapply quiet_profile_failed, holds_later|].
    intros code w3 _ _ _. apply quiet_ret. }
  intros [code|isf_path] w2 Hl2 _ _; [apply quiet_ret|]. moved Hl2.
  eapply bind_rule with (Q' := holds).
  { apply guarantees_catch; [apply _|exact isolated_later|apply guar_lawful; [done|intros _; exact (lawful_full_running before)]|].
    intros e w3 Hl3. destruct e; try done. apply guarantees_done. intros r w4 [= <-] Hl4 _. by eapply holds_later, holds_later. }
  intros run2 w3 _ _ Hr2. clear Hr. eapply bind_rule; [by apply guar_heartbeat|]. intros run3 w4 _ _ Hr3. clear Hr2. next_quiet. next_quiet.
  eapply bind_rule; [by apply (guar_ensure_scan (Loaded run3))|]. intros [h scan] w7 _ _ [_ Hs]. clear Hr3. next_quiet.
  eapply bind_rule; [by apply guar_commit_scan|]. intros [] w9 Hl9 _ _. moved Hl9.
  eapply bind_rule; [apply (guar_plugins scan); [done|]; intros; by apply guar_profile_plugin|].
  intros [payloads had_failure] w10 Hl10 _ _. moved Hl10.
  eapply bind_rule; [by apply guar_finalize_scan|]. intros s10 w11 _ _ _. next_quiet.
  eapply bind_rule; [apply guar_load|]. intros run4 w13 _ _ Hr4.
  eapply bind_rule with (Q' := holds); [destruct (_ && _); by apply guar_progress|]. intros run5 w14 _ _ Hr5. clear Hr4.
  eapply bind_rule; [by apply guar_reconcile|]. intros run6 w15 _ _ _. next_quiet. apply quiet_ret.
Qed.

(** * The requests *)
Lemma quiet_request {A} case evidence_id (body : prog A) : quiet body -> quiet (request case evidence_id body).
Proof. intros Hb. unfold request, _feature_guard, _require_case, _require_evidence. reads; exact Hb. Qed.
Lemma guar_lifecycle {A} (Q : A -> world -> Prop) (body : prog A) w0 : guar Q body w0 -> guar Q (_handle_lifecycle_error body) w0.
Proof. intros Hb. apply guarantees_catch; [apply _|exact isolated_later|done|]. by intros [] w _. Qed.
Lemma quiet_lifecycle {A} (body : prog A) : quiet body -> quiet (_handle_lifecycle_error body).
Proof. intros Hb w. apply guar_lifecycle, Hb. Qed.
Lemma guar_warn {A} (body : prog A) otherwise w0 : guar (fun _ _ => True) body w0 -> guar (fun _ _ => True) (or_warn body otherwise) w0.
Proof. intros Hb. apply guarantees_catch; [apply _|exact isolated_later|done|done]. Qed.

Lemma guar_get_scoped case evidence_id id w0 : guar holds (get_run case evidence_id id) w0.
Proof.
  unfold get_run. eapply bind_rule; [apply guar_get_run|]. intros o w _ _ Ho.
  eapply bind_rule with (Q' := fun r w => holds r w).
  { destruct o as [r|]; [|done]. destruct (Ho r eq_refl) as [_ Hr]. apply guarantees_done. intros r' w' [= <-] Hl _. by eapply holds_later. }
  intros r v1 _ _ Hr. next_quiet. apply guarantees_done. intros r' v2 [= <-] Hl _. by eapply holds_later.
Qed.
Lemma guar_scoped case evidence_id id w0 : guar holds (scoped case evidence_id id) w0.
Proof.
  unfold scoped. apply guar_lifecycle. eapply bind_rule; [apply guar_get_scoped|]. intros r w _ _ Hr.
  unfold _require_run_scope. next_quiet. next_quiet. destruct a0 as [c|]; [|done]. next_quiet. next_quiet. destruct a1 as [q|]; [|done]. next_quiet.
  apply guarantees_done. intros r' w' [= <-] Hl _. by eapply holds_later.
Qed.

(** A request that loads a run and changes it. *)
Lemma quiet_scoped {A} case evidence_id id (body : MemoryExperimentalRun -> prog A) :
  (forall r w, holds r w -> guar (fun _ _ => True) (body r) w) -> quiet (request case evidence_id (scoped case evidence_id id ≫= body)).
Proof. intros Hb. apply quiet_request. intros w. eapply bind_rule; [apply guar_scoped|]. intros r w' _ _. apply Hb. Qed.

Lemma quiet_commit_candidate c item : candidate_id item = candidate_id c -> quiet (commit c item).
Proof.
  intros Hid. apply quiet_attempt. intros w w' [] Hw E. destruct (table w !! key c) as [cur|] eqn:Hc; [|done].
  change (candidates w !! candidate_id c = Some cur) in Hc. case_decide; cbv zeta in E; [by injection E as <-|].
  match type of E with context [if ?b then _ else _] => destruct b; [|done] end. injection E as <-.
  apply (set_candidate before); [done|]. exact (i_candidates _ _ Hw _ _ Hc).
Qed.
Lemma quiet_insert_candidate c : quiet (insert_row (R := MemoryExperimentalSymbolCandidate) c).
Proof.
  apply quiet_attempt. intros w w' [] Hw E. match type of E with context [if ?b then _ else _] => destruct b; [|done] end.
  injection E as <-. by apply set_candidate.
Qed.
Hint Resolve quiet_insert_candidate : quiet.

Lemma quiet_record_candidate case evidence_id symbol source actor :
  quiet (record_cli_candidate uuid_text case evidence_id symbol source actor).
Proof. unfold record_cli_candidate, _load_requirement, upsert_candidate. reads. Qed.
Lemma quiet_create_candidate case evidence_id symbol source actor :
  quiet (create_experimental_symbol_candidate uuid_text case evidence_id symbol source actor).
Proof.
  apply quiet_request. apply quiet_bind; [apply quiet_look|]. intros o. apply quiet_bind; [reads|]. intros requirement.
  reads; apply quiet_lifecycle; unfold upsert_candidate; reads.
Qed.
Lemma quiet_revoke_candidate case evidence_id id label reason : quiet (revoke_experimental_symbol_candidate case evidence_id id label reason).
Proof.
  apply quiet_request. unfold _require_candidate_scope, revoke_candidate, save. reads; by apply quiet_commit_candidate.
Qed.

Lemma quiet_create_run case evidence_id requested : quiet (create_experimental_run uuid_text sha256_file case evidence_id requested).
Proof.
  apply quiet_request. apply quiet_bind; [unfold _get_active_candidate_for, list_candidates; reads|]. intros candidate. apply quiet_lifecycle.
  unfold create_run. reads. apply quiet_insert_run. intros w. split; cbn -[past_acknowledgement past_canary]; [intros Hs; among..| |done].
  by intros [? [=]].
Qed.

Lemma guar_acknowledge candidate payload r w0 : holds r w0 ->
  guar (fun _ _ => True) (record_acknowledgement sha256_file isoformat repr fingerprint_acknowledgement configured_version candidate payload r) w0.
Proof.
  intros Hr. unfold record_acknowledgement. next_quiet. next_quiet.
  eapply bind_rule with (Q' := fun o w => forall q, o = Some q -> exists q', requirements w !! r_requirement_id r = Some q' /\ req_identity q' = req_identity q).
  { apply guarantees_look; [apply _..|]. intros v1 w' _ _ Hl _ q Hq. exact (l_requirements _ _ Hl _ _ Hq). }
  intros requirement v2 Hl2 _ Hq. moved Hl2.
  eapply bind_rule with (Q' := fun required w => exists q', requirements w !! r_requirement_id r = Some q' /\ req_identity q' = required).
  { apply guarantees_done. intros required v3 E Hl _. destruct requirement as [q|]; [|done]. injection E as <-.
    destruct (Hq q eq_refl) as (q' & Hq' & E). destruct (l_requirements _ _ Hl _ _ Hq') as (q'' & ? & ?). exists q''. split; [done|congruence]. }
  intros required v3 Hl3 _ (q & Hrq & Erq). moved Hl3. clear Hq. apply quiet_then; [solve [reads]|]. intros [] v4 Hl4.
  eapply bind_rule with (Q' := fun o w => forall c, o = Some c -> exists c', symbols w !! r_cached_symbol_id r = Some c' /\ sym_identity c' = sym_identity c).
  { apply guarantees_look; [apply _..|]. intros v1 w' _ _ Hl _ c Hc. exact (l_symbols _ _ Hl _ _ Hc). }
  intros cache v5 Hl5 _ Hc.
  eapply bind_rule with (Q' := fun observed w => exists c', symbols w !! r_cached_symbol_id r = Some c' /\ sym_identity c' = observed).
  { apply guarantees_done. intros observed v6 E Hl _. destruct cache as [c|]; [|done]. injection E as <-.
    destruct (Hc c eq_refl) as (c' & Hc' & E). destruct (l_symbols _ _ Hl _ _ Hc') as (c'' & ? & ?). exists c''. split; [done|congruence]. }
  intros observed v6 Hl6 _ (c & Hsc & Esc). clear Hc.
  destruct (validate_acknowledgement_payload _ _ _ _ _ _) as [code|a']; [done|].
  apply quiet_then; [solve [reads]|]. intros iso v7 Hl7.
  assert (Hl37 : later v3 v7) by (transitivity v4; [done|]; transitivity v5; [done|]; by transitivity v6).
  eapply guar_any, guar_transition; [by eapply holds_later|].
  intros now v8 item Hl8 Hg [= <-].
  destruct (l_requirements _ _ ltac:(transitivity v7; [exact Hl37|exact Hl8]) _ _ Hrq) as (q' & Hq' & Eq').
  destruct (l_symbols _ _ ltac:(transitivity v7; [exact Hl7|exact Hl8]) _ _ Hsc) as (c' & Hc' & Ec').
  eapply lawful_acknowledge; [done|exact Hq'|exact Hc'|congruence|congruence].
Qed.

Lemma quiet_acknowledge case evidence_id id confirmed label :
  quiet (acknowledge_experimental_run sha256_file isoformat repr fingerprint_acknowledgement configured_version case evidence_id id confirmed label).
Proof.
  apply quiet_scoped. intros r w Hr. next_quiet. next_quiet. apply guar_lifecycle. by apply guar_acknowledge.
Qed.

Lemma quiet_start case evidence_id id : quiet (start_experimental_canary uuid_text case evidence_id id).
Proof.
  apply quiet_scoped. intros r w Hr. eapply bind_rule.
  { apply guar_lifecycle, guar_lawful; [done|]. intros now. apply lawful_advance. }
  intros run v _ _ Hrun. apply guar_warn. next_quiet. eapply bind_rule; [apply guar_get_run|]. intros [local|] v1 _ _ Hl; [|apply quiet_ret].
  destruct (Hl local eq_refl) as [_ Hloc].
  destruct (lawful_task before a v1 local (local <| canary_worker_task_id := Some a |>)) as [Hk Hg]; [apply Hloc|apply Hloc|done|].
  eapply bind_rule; [by apply guar_commit_run|]. intros [] v2 _ _ _. apply quiet_refresh.
Qed.

Lemma quiet_override case evidence_id id label reason : quiet (override_experimental_canary case evidence_id id label reason).
Proof.
  apply quiet_scoped. intros r w Hr. eapply guar_any, guar_lifecycle, guar_lawful; [done|]. intros now. apply lawful_override.
Qed.

Lemma guar_queue r w0 : holds r w0 -> guar holds (queue_experimental_full_run uuid_text r) w0.
Proof.
  intros Hr. unfold queue_experimental_full_run. next_quiet.
  eapply bind_rule with (Q' := fun s w => handle_ok (fst s) w).
  { apply guarantees_forP; [apply _|exact isolated_later| |done|].
    - intros [h n] v v' Hl. by apply handle_ok_later.
    - intros [h n] name v _ _ Hh. unfold queue_profile. destruct (get_experimental_profile name).
      + eapply bind_rule; [by apply guar_ensure_scan|]. intros [h' scan] v1 _ _ [Hh' _]. apply guarantees_done.
        intros s' v2 [= <-] Hl _. by eapply handle_ok_later.
      + apply guarantees_done. intros s' v2 [= <-] Hl _. by eapply handle_ok_later. }
  intros [h count] v1 _ _ Hh. eapply bind_rule; [by apply guar_reload|]. intros r1 v2 _ _ Hr1.
  eapply bind_rule; [apply guar_lawful; [done|]; intros _; apply lawful_request|]. intros r2 v3 _ _ Hr2. by apply guar_progress.
Qed.

Lemma quiet_continue case evidence_id id : quiet (continue_experimental_run uuid_text case evidence_id id).
Proof.
  apply quiet_scoped. intros r w Hr. eapply bind_rule; [apply guar_lifecycle; by apply guar_queue|]. intros run v _ _ Hrun.
  apply quiet_then; [|intros; apply quiet_ret]. intros v1. apply guar_warn.
  apply guarantees_forP; [apply _|exact isolated_later|done|done|]. intros [] name v2 _ _ _. destruct (bool_decide _); [|apply quiet_ret].
  apply quiet_then; [apply quiet_enqueue|intros; apply quiet_ret].
Qed.

Lemma quiet_cancel case evidence_id id label reason : quiet (cancel_experimental_run case evidence_id id label reason).
Proof. apply quiet_scoped. intros r w Hr. eapply guar_any, guar_lifecycle. by apply guar_cancel. Qed.

Lemma quiet_finalize case evidence_id id outcome : quiet (finalize_experimental_run case evidence_id id outcome).
Proof.
  apply quiet_request. intros w. eapply bind_rule; [apply guar_lifecycle, guar_get_scoped|]. intros r v _ _ Hr.
  eapply guar_any, guar_lifecycle. by apply guar_finalise.
Qed.

Lemma quiet_delete case evidence_id id label reason : quiet (delete_experimental_run uuid_text case evidence_id id label reason).
Proof.
  apply quiet_scoped. intros r w Hr. eapply bind_rule; [apply guar_lawful2; [done|]; intros; apply lawful_delete|].
  intros run v _ _ _. apply quiet_then; [|intros; apply quiet_ret]. intros v1. apply guar_warn.
  apply quiet_then; [apply quiet_enqueue|intros; apply quiet_ret].
Qed.

Abbreviation performs := (perform uuid_text sha256_file isoformat json_loads py_upper manifest_bytes repr float_is_inf fromisoformat
                            fingerprint_acknowledgement configured_version evidence_access documents_of).
Lemma quiet_perform a : quiet (performs a).
Proof.
  destruct a; cbn [perform]; (apply quiet_bind; [|intros ?; apply quiet_ret]).
  - apply quiet_record_candidate.
  - apply quiet_create_candidate.
  - apply quiet_revoke_candidate.
  - apply quiet_create_run.
  - apply quiet_acknowledge.
  - apply quiet_start.
  - apply quiet_override.
  - apply quiet_continue.
  - apply quiet_cancel.
  - apply quiet_finalize.
  - apply quiet_delete.
  - apply quiet_canary.
  - apply quiet_profile.
Qed.

(** Requests and jobs at the same time, with others that keep to [env]. *)
Lemma pool_of actions env w c :
  (forall w w', env w w' -> occurs w -> occurs w' -> consistent w -> consistent w' /\ later w w') -> consistent w ->
  rtc (step env) (w, map performs actions) c ->
  (forall c1, rtc (step env) (w, map performs actions) c1 -> rtc (step env) c1 c -> occurs (fst c1)) ->
  all_guarantee consistent occurs later isolated (fun _ _ => True) c.
Proof.
  intros Henv Hw Hs Ho.
  apply (pool_guarantees consistent occurs later isolated isolated_later (fun _ _ => True) env (w, map performs actions) c Henv Hs Ho).
  split; [done|]. apply Forall_map, Forall_forall. intros a _. apply quiet_perform.
Qed.
End flow.
End rules.

(** * What is guaranteed *)
Definition past_in (w : world) (k : str) : Prop := exists r, runs w !! k = Some r /\ r_status r ∈ past_canary.
Definition accepted_in (w : world) (k : str) : Prop := exists r, runs w !! k = Some r /\ accepted r.

(** Others may add rows, and change those of the flow only as it does. *)
Definition others (w w' : world) : Prop :=
  later w w' /\ consistent (past_in w') w' /\ forall k, past_in w' k -> past_in w k \/ accepted_in w k \/ accepted_in w' k.

Lemma consistent_before before before' w : consistent before w -> (forall k, past_in w k -> before' k) -> consistent before' w.
Proof.
  intros [Hr Hc Hs Hp] Hb. split; [|done..]. intros k r Hk. destruct (Hr k r Hk) as [<- [Ha Ho _ Hsn Hbl]].
  split; [done|]. split; try done. intros Hst. apply Hb. by exists r.
Qed.
Lemma consistent_past before w k : consistent before w -> past_in w k -> before k.
Proof. intros Hw (r & Hr & Hst). destruct (i_runs _ _ Hw _ _ Hr) as [<- Hg]. by apply Hg. Qed.

Section properties.
Context `{Runtime}.
Variables (uuid_text : nat -> str) (sha256_file : bytes -> str) (isoformat : Z -> str) (json_loads : str -> option json)
  (py_upper : str -> str) (manifest_bytes : str -> list str -> Z -> bytes) (repr : json -> str) (float_is_inf : float -> bool)
  (fromisoformat : str -> bool) (fingerprint_acknowledgement : list (str * json) -> str) (configured_version : str)
  (evidence_access : str -> fs -> option str) (documents_of : str -> list (str * json) -> Z).
Abbreviation serve := (perform uuid_text sha256_file isoformat json_loads py_upper manifest_bytes repr float_is_inf fromisoformat
                         fingerprint_acknowledgement configured_version evidence_access documents_of).


(** C14. The trust boundary: whatever else happens at the same time, no step of a
    request or job changes an evidence, a case, a symbol requirement, a cached
    symbol, the settings, a scan that is not of an experimental run, or a plugin
    run of such a scan; every scan that a step adds belongs to an experimental run
    and is untrusted, and every plugin run that a step adds belongs to such a
    scan.  The trust of the plugin run itself is not covered: its row is added
    with the default trust, and the next commit sets it. *)
Theorem experimental_isolation (actions : list action) (w : world) c c' :
  consistent (past_in w) w -> rtc (step others) (w, map serve actions) c -> step (fun _ _ => False) c c' ->
  isolated (fst c) (fst c') /\
  forall k s, scans (fst c) !! k = None -> scans (fst c') !! k = Some s -> is_validated_run (Some (s_trust s)) = false /\ is_experimental_run (Some (s_trust s)) = true.
Proof.
  intros Hw Hs Hstep. set (any := fun _ : str => True). set (ever := fun _ : world => True).
  assert (Hc : all_guarantee (consistent any) ever later isolated (fun _ _ => True) c).
  { apply (pool_of any ever ltac:(done) uuid_text sha256_file isoformat json_loads py_upper manifest_bytes repr float_is_inf fromisoformat
      fingerprint_acknowledgement configured_version evidence_access documents_of actions others w c); [|by eapply consistent_before|done..].
    intros w1 w2 (Hl & Hc2 & _) _ _ _. split; [|done]. by eapply consistent_before. }
  pose proof (handler_step (consistent any) ever later isolated (fun _ _ => True) c c' Hstep I I Hc) as Hi. split; [done|].
  intros k s Hn Hk.
  destruct (pool_step (consistent any) ever later isolated isolated_later (fun _ _ => True) (fun _ _ => False) c c') as (_ & Hc' & _); [done..|].
  destruct (i_scans _ _ Hc' _ _ Hk) as [_ Ht]. rewrite Ht; [done|]. by eapply s_created.
Qed.
End properties.
End ExperimentalRules.
