(* ===== verification/ExperimentalVerdict.v ===== *)
(** What the verdict of a canary means, which symbols are eligible, and that the
    canary the worker runs can never pass. *)
From S2P Require Import Prelude PyBase PyRuntime PyFloat ExperimentalTrust ExperimentalCanary ExperimentalModel ExperimentalRun.
Import Bytes Str PyRuntime PyFloat ExperimentalTrust ExperimentalCanary ExperimentalModel ExperimentalRun.

Module ExperimentalVerdict.

Lemma ok_inj {E A} (a b : A) : Ok (E := E) a = Ok b -> a = b.
Proof. by intros [= ->]. Qed.

(** * Checks *)
Definition verdicts : list canary_status := [passed; degraded; failed; inconclusive].

(** The four verdicts of a check. *)
Lemma verdicts_spec s : s ∈ verdicts <-> s = passed \/ s = degraded \/ s = failed \/ s = inconclusive.
Proof. unfold verdicts. rewrite !elem_of_cons, elem_of_nil. tauto. Qed.
Ltac a_verdict := rewrite verdicts_spec; repeat case_match; auto.

Section checks.
Context `{Runtime}.
Variables (repr : json -> str) (float_is_inf : float -> bool) (fromisoformat : str -> bool).

Definition gives_verdicts (check : list (list (str * json)) -> result int_error canary_status) : Prop := forall rows s, check rows = Ok s -> s ∈ verdicts.

Lemma canary_checks_verdicts c : c ∈ CANARY_CHECKS repr float_is_inf fromisoformat -> gives_verdicts (snd c).
Proof.
  unfold CANARY_CHECKS. rewrite !elem_of_cons, elem_of_nil.
  intros [->|[->|[->|[->|[->|[->|[->|[->|[]]]]]]]]] rows s; cbn [snd].
  - intros <-%ok_inj. a_verdict.
  - intros <-%ok_inj. a_verdict.
  - unfold _check_pid_4_system. destruct rows as [|r rows]; [intros <-%ok_inj; a_verdict|].
    destruct (anyM _ _) as [b| |]; cbn [mbind result_bind]; [|done|done]. intros <-%ok_inj. a_verdict.
  - unfold _check_printable_process_names. destruct rows as [|r rows]; intros <-%ok_inj; a_verdict.
  - unfold _check_pid_ranges. destruct rows as [|r rows]; [intros <-%ok_inj; a_verdict|].
    destruct (mapM_py _ _) as [pids| |]; cbn [mbind result_bind]; [|done|done]. intros <-%ok_inj. a_verdict.
  - unfold _check_timestamps. destruct rows as [|r rows]; intros <-%ok_inj; a_verdict.
  - unfold _check_malformed_ratio. destruct rows as [|r rows]; intros <-%ok_inj; a_verdict.
  - unfold _check_offsets_in_range. destruct rows as [|r rows]; [intros <-%ok_inj; a_verdict|].
    destruct (mapM_py _ _) as [outside| |]; cbn [mbind result_bind]; [|done|done]. intros <-%ok_inj. a_verdict.
Qed.

Lemma run_check_verdict rows plugin_rows c : c ∈ CANARY_CHECKS repr float_is_inf fromisoformat ->
  snd (run_check rows plugin_rows c) ∈ verdicts.
Proof.
  intros Hc. unfold run_check. cbn [snd]. destruct (snd c _) as [s| |] eqn:E; [|a_verdict|a_verdict].
  by eapply canary_checks_verdicts.
Qed.
Lemma overlap_verdict plugin_rows s : _check_cross_plugin_overlap float_is_inf plugin_rows = Ok s -> s ∈ verdicts.
Proof.
  unfold _check_cross_plugin_overlap.
  destruct (pids_of _ (_coerce_rows _ (lit "windows.pslist") _)) as [a| |]; cbn [mbind result_bind]; [|done|done].
  destruct (pids_of _ _) as [b| |]; cbn [mbind result_bind]; [|done|done].
  case_match; intros [= <-]; a_verdict.
Qed.
Lemma failure_ratio_verdict results : _check_plugin_failure_ratio results ∈ verdicts.
Proof. unfold _check_plugin_failure_ratio. a_verdict. Qed.

(** * The verdict *)
Lemma aggregate_spec (cs : list (str * canary_status)) : Forall (fun c => snd c ∈ verdicts) cs -> cs <> [] ->
  match _aggregate_status cs with
  | failed => exists c, c ∈ cs /\ snd c = failed
  | passed => Forall (fun c => snd c = passed) cs
  | inconclusive => Forall (fun c => snd c = inconclusive) cs
  | degraded => Forall (fun c => snd c <> failed) cs /\ ~ Forall (fun c => snd c = passed) cs /\ ~ Forall (fun c => snd c = inconclusive) cs
  | _ => False
  end.
Proof.
  intros Hv Hne. unfold _aggregate_status. cbv zeta.
  assert (Hmap : forall s, s ∈ map snd cs <-> exists c, c ∈ cs /\ snd c = s).
  { intros s. rewrite list_elem_of_fmap. naive_solver. }
  case_bool_decide as Hf; [apply Hmap in Hf as (c & ? & ?); by exists c|].
  assert (Hnf : Forall (fun c => snd c <> failed) cs).
  { apply Forall_forall. intros c Hc E. apply Hf, Hmap. by exists c. }
  rewrite bool_decide_false by (by destruct cs). cbn [negb andb].
  destruct (forallb _ _) eqn:Hp.
  - apply Is_true_true, forallb_True in Hp. rewrite Forall_map in Hp. eapply Forall_impl; [exact Hp|]. intros c. cbn. by intros ?%bool_decide_unpack.
  - assert (Hnp : ~ Forall (fun c => snd c = passed) cs).
    { intros Hall. apply not_true_iff_false in Hp. apply Hp, Is_true_true, forallb_True. rewrite Forall_map. eapply Forall_impl; [exact Hall|].
      intros c E. cbn. by apply bool_decide_pack. }
    destruct (_ && _) eqn:Hi.
    + apply andb_true_iff in Hi as [Hi Hd%negb_true_iff%bool_decide_eq_false]. apply andb_true_iff in Hi as [_ Hnpass%negb_true_iff%bool_decide_eq_false].
      apply Forall_forall. intros c Hc. rewrite Forall_forall in Hv, Hnf. pose proof (Hv c Hc) as Hcv. apply verdicts_spec in Hcv.
      destruct Hcv as [E|[E|[E|E]]]; [| | |done]; exfalso.
      * apply Hnpass, Hmap. by exists c.
      * apply Hd, Hmap. by exists c.
      * by apply (Hnf c Hc).
    + split; [done|]. split; [done|]. intros Hall. apply not_true_iff_false in Hi. apply Hi. rewrite Forall_forall in Hall.
      rewrite !andb_true_iff, !negb_true_iff, !bool_decide_eq_false, bool_decide_eq_true, !Hmap. split_and!.
      * destruct cs as [|c cs']; [done|]. exists c. split; [by left|]. apply Hall. by left.
      * intros (c & Hc & E). by rewrite Hall in E.
      * intros (c & Hc & E). by rewrite Hall in E.
Qed.

(** * The score *)
Definition total (cs : list (str * canary_status)) : Z := foldr Z.add 0 (map (fun c => weight (snd c)) cs).
Lemma total_bounds cs : 0 <= total cs <= 4 * len cs.
Proof.
  induction cs as [|c cs IH]; [done|]. unfold total, len in *. cbn [map foldr length]. assert (0 <= weight (snd c) <= 4) by (by destruct (snd c)). lia.
Qed.
Lemma total_passed cs : Forall (fun c => snd c = passed) cs -> total cs = 4 * len cs.
Proof.
  induction 1 as [|c cs Hc _ IH]; [done|]. unfold total, len in *. cbn [map foldr length]. rewrite Hc, IH. cbn [weight]. lia.
Qed.
Lemma score_bounds cs : 0 <= _score cs <= 10000.
Proof.
  unfold _score. destruct cs as [|c cs']; [lia|]. set (cs := c :: cs'). fold (total cs). pose proof (total_bounds cs) as Ht.
  assert (0 < len cs) by (unfold len, cs; cbn; lia).
  destruct (float_ratio_le_one (total cs) (4 * len cs)) as [Hs Hm]; [lia..|]. set (x := float_ratio _ _) in *.
  rewrite (Z.max_l 0 (snd x)), (Z.max_r 0 (- snd x)), Z.pow_0_r by lia.
  pose proof (Z.pow_pos_nonneg 2 (- snd x)). apply round_div_bounds; lia.
Qed.
Lemma score_passed cs : Forall (fun c => snd c = passed) cs -> cs <> [] -> _score cs = 10000.
Proof.
  intros Hp Hne. unfold _score. destruct cs as [|c cs']; [done|]. set (cs := c :: cs') in *. fold (total cs).
  rewrite total_passed by done. rewrite float_ratio_same by (unfold len, cs; cbn; lia). reflexivity.
Qed.

Lemma count_cons {A} (p : A -> bool) x l : count p (x :: l) = (if p x then 1 else 0) + count p l.
Proof. unfold count. rewrite filter_cons. destruct (p x) eqn:E; case_decide as Hd; cbn [length]; try lia; by destruct Hd. Qed.
Lemma counts_add_up (cs : list (str * canary_status)) : Forall (fun c => snd c ∈ verdicts) cs ->
  let count_of := fun s => count (fun c => bool_decide (snd c = s)) cs in
  count_of passed + count_of degraded + count_of failed + count_of inconclusive = len cs.
Proof.
  intros Hv. cbv zeta. unfold len. induction Hv as [|c cs Hc _ IH]; [done|]. apply verdicts_spec in Hc.
  rewrite !count_cons. cbn [length].
  assert ((if bool_decide (snd c = passed) then 1 else 0) + (if bool_decide (snd c = degraded) then 1 else 0) +
          (if bool_decide (snd c = failed) then 1 else 0) + (if bool_decide (snd c = inconclusive) then 1 else 0) = 1); [|lia].
  by destruct Hc as [E|[E|[E|E]]]; rewrite E.
Qed.

(** What the checks and the verdict of a run of the canary are. *)
Lemma evaluate_spec rows plugin_rows results res :
  evaluate_canary repr float_is_inf fromisoformat rows plugin_rows results = Ok res ->
  Forall (fun c => snd c ∈ verdicts) (checks res) /\ checks res <> [] /\ status res = _aggregate_status (checks res) /\
  score res = _score (checks res) /\
  map (run_check rows plugin_rows) (CANARY_CHECKS repr float_is_inf fromisoformat) `prefix_of` checks res /\
  (plugin_rows <> [] -> exists overlap, _check_cross_plugin_overlap float_is_inf plugin_rows = Ok overlap /\
     (lit "cross_plugin_process_overlap", overlap) ∈ checks res) /\
  checks_passed res + checks_degraded res + checks_failed res + checks_inconclusive res = len (checks res).
Proof.
  unfold evaluate_canary. set (own := map (run_check rows plugin_rows) _).
  assert (Hown : Forall (fun c => snd c ∈ verdicts) own).
  { apply Forall_map, Forall_forall. intros c Hc. by apply run_check_verdict. }
  destruct plugin_rows as [|pr plugin_rows].
  - cbn [mbind result_bind]. intros <-%ok_inj. cbn [checks status score checks_passed checks_degraded checks_failed checks_inconclusive].
    split; [exact Hown|]. split; [discriminate|]. split; [reflexivity|]. split; [reflexivity|]. split; [reflexivity|].
    split; [by intros []|]. by apply counts_add_up.
  - destruct (_check_cross_plugin_overlap _ _) as [overlap| |] eqn:Ho; cbn [mbind result_bind]; [|done|done].
    set (all := own ++ _). intros <-%ok_inj. cbn [checks status score checks_passed checks_degraded checks_failed checks_inconclusive].
    assert (Hall : Forall (fun c => snd c ∈ verdicts) all).
    { apply Forall_app. split; [done|]. constructor; [by eapply overlap_verdict|]. constructor; [apply failure_ratio_verdict|]. constructor. }
    split; [exact Hall|]. split; [discriminate|]. split; [reflexivity|]. split; [reflexivity|]. split; [by apply prefix_app_r|].
    split; [|by apply counts_add_up]. intros _. exists overlap. split; [reflexivity|]. apply elem_of_app. right. by left.
Qed.

(** The verdict of a canary: it passes exactly when every check passes, fails
    exactly when one fails, is inconclusive exactly when all checks are and
    degraded otherwise; the counts of the summary add up to the number of checks;
    and the score is between 0 and 1, and 1 when it passes. *)
Lemma canary_verdict rows plugin_rows results res :
  evaluate_canary repr float_is_inf fromisoformat rows plugin_rows results = Ok res ->
  (status res = passed <-> Forall (fun c => snd c = passed) (checks res)) /\
  (status res = failed <-> Exists (fun c => snd c = failed) (checks res)) /\
  (status res = inconclusive <-> Forall (fun c => snd c = inconclusive) (checks res)) /\
  status res ∈ verdicts /\
  checks_passed res + checks_degraded res + checks_failed res + checks_inconclusive res = len (checks res) /\
  0 <= score res <= 10000 /\ (status res = passed -> score res = 10000).
Proof.
  intros Hr. destruct (evaluate_spec _ _ _ _ Hr) as (Hv & Hne & Hst & Hsc & _ & _ & Hcount).
  pose proof (aggregate_spec (checks res) Hv Hne) as Ha. rewrite Hst, Hsc. set (cs := checks res) in *.
  destruct cs as [|c0 cs0] eqn:Ecs; [done|]. rewrite <-Ecs in *. assert (Hin : c0 ∈ cs) by (rewrite Ecs; left).
  assert (Hone : forall s s' : canary_status, Forall (fun c => snd c = s) cs -> Forall (fun c => snd c = s') cs -> s = s').
  { intros s s' H1 H2. rewrite Forall_forall in H1, H2. by rewrite <-(H1 _ Hin), (H2 _ Hin). }
  split_and!; try done; try apply score_bounds.
  - split; [intros E; by rewrite E in Ha|]. intros Hall. destruct (_aggregate_status cs); try done.
    + by destruct Ha as (_ & [] & _).
    + destruct Ha as (c & Hc & E). rewrite Forall_forall in Hall. by rewrite Hall in E.
    + by apply Hone.
  - rewrite Exists_exists. split; [intros E; by rewrite E in Ha|]. intros (c & Hc & E). destruct (_aggregate_status cs); try done.
    + rewrite Forall_forall in Ha. by rewrite Ha in E.
    + destruct Ha as (Ha & _). rewrite Forall_forall in Ha. by destruct (Ha c Hc).
    + rewrite Forall_forall in Ha. by rewrite Ha in E.
  - split; [intros E; by rewrite E in Ha|]. intros Hall. destruct (_aggregate_status cs); try done.
    + by apply Hone.
    + by destruct Ha as (_ & _ & []).
    + destruct Ha as (c & Hc & E). rewrite Forall_forall in Hall. by rewrite Hall in E.
  - apply verdicts_spec. destruct (_aggregate_status cs); try done; auto.
  - intros E. rewrite E in Ha. apply score_passed; [done|]. by rewrite Ecs.
Qed.

(** * What the worker's canary can give *)

(** What the worker hands to the evaluation once its only plugin, windows.info,
    gave [payload] and ended with [st]. *)
Definition worker_canary (payload : option json) (st : plugin_status) : result int_error canary_result :=
  let plugin_rows := Dict.set (lit "windows.info") (rows_of payload) [] in
  let plugin_results := Dict.set (lit "windows.info") (status_text st) [] in
  evaluate_canary repr float_is_inf fromisoformat
    (or_rows (field_rows (lit "windows.pslist") plugin_rows) (field_rows (lit "windows.info") plugin_rows)) plugin_rows plugin_results.

Lemma worker_canary_spec payload st :
  worker_canary payload st =
  evaluate_canary repr float_is_inf fromisoformat (rows_of payload) [(lit "windows.info", rows_of payload)] [(lit "windows.info", status_text st)].
Proof. unfold worker_canary. change (field_rows _ (Dict.set _ _ _)) with (@nil (list (str * json))) at 1. by destruct (rows_of payload). Qed.

Lemma checked rows plugin_rows results res c :
  evaluate_canary repr float_is_inf fromisoformat rows plugin_rows results = Ok res ->
  c ∈ CANARY_CHECKS repr float_is_inf fromisoformat -> run_check rows plugin_rows c ∈ checks res.
Proof.
  intros (_ & _ & _ & _ & [rest ->] & _)%evaluate_spec Hc. apply elem_of_app. left. by apply list_elem_of_fmap_2.
Qed.

Lemma failed_check rows plugin_rows results res c :
  evaluate_canary repr float_is_inf fromisoformat rows plugin_rows results = Ok res ->
  c ∈ checks res -> snd c = failed -> status res = failed.
Proof.
  intros (_ & _ & -> & _)%evaluate_spec Hc E. unfold _aggregate_status. rewrite bool_decide_true; [done|].
  apply list_elem_of_fmap. by exists c.
Qed.

(** Rows without a name are all taken for unprintable. *)
Lemma nameless_fails rows : Forall (fun r => Dict.get (lit "name") r = None) rows -> rows <> [] ->
  _check_printable_process_names repr rows = Ok failed.
Proof.
  intros Hn Hne. unfold _check_printable_process_names. destruct rows as [|r rows']; [done|]. set (rows := r :: rows') in *.
  assert (Hbad : count (fun r => negb (printable (py_str repr (field_of (lit "name") (JStr []) r)))) rows = len rows).
  { clear Hne. unfold len. clearbody rows. induction Hn as [|x l Hx _ IH]; [done|]. rewrite count_cons, IH. unfold field_of. rewrite Hx. cbn [length]. cbn. lia. }
  rewrite Hbad. unfold ratio_gt. rewrite float_ratio_same by (unfold len, rows; cbn; lia). reflexivity.
Qed.

(** C20. The canary the worker runs never passes: of the plugins whose outputs are
    compared it runs only windows.info, so that one check is always inconclusive;
    the verdict is degraded at best, and only two of the seven profiles can
    follow.  And when no row of the output has a name (Volatility's windows.info
    gives rows of Variable and Value), it always fails. *)
Theorem canary_never_passes payload st res : worker_canary payload st = Ok res ->
  (status res = degraded \/ status res = failed) /\
  allowed_profiles_for_canary_outcome (status res) ⊆ [lit "experimental_metadata"; lit "experimental_modules"] /\
  (Forall (fun r => Dict.get (lit "name") r = None) (rows_of payload) -> status res = failed).
Proof.
  rewrite worker_canary_spec. set (rows := rows_of payload). intros Hr.
  destruct (evaluate_spec _ _ _ _ Hr) as (Hv & Hne & Hst & _ & _ & Hover & _).
  destruct (Hover ltac:(done)) as (overlap & Ho & Hin). assert (E : _check_cross_plugin_overlap float_is_inf [(lit "windows.info", rows)] = Ok inconclusive) by (vm_compute; reflexivity).
  assert (overlap = inconclusive) as -> by congruence. clear E.
  assert (Hlayer : run_check rows [(lit "windows.info", rows)] (lit "layer_construction", _check_layer_construction) ∈ checks res).
  { eapply checked; [exact Hr|]. left. }
  assert (Elayer : run_check rows [(lit "windows.info", rows)] (lit "layer_construction", _check_layer_construction) =
                   (lit "layer_construction", match rows with [] => failed | _ => passed end)) by (by destruct rows).
  rewrite Elayer in Hlayer.
  assert (Hfew : status res = degraded \/ status res = failed).
  { pose proof (aggregate_spec (checks res) Hv Hne) as Ha. rewrite <-Hst in Ha. destruct (status res); try done; auto; exfalso.
    - rewrite Forall_forall in Ha. by specialize (Ha _ Hin).
    - rewrite Forall_forall in Ha. specialize (Ha _ Hlayer). by destruct rows. }
  split; [done|]. split; [destruct Hfew as [-> | ->]; [reflexivity|by intros x ?%elem_of_nil]|]. intros Hn.
  destruct (decide (rows = [])) as [E|E]; [eapply failed_check; [exact Hr|exact Hlayer|by rewrite E]|].
  eapply failed_check; [exact Hr|eapply (checked _ _ _ _ (lit "printable_process_names", _check_printable_process_names repr)); [exact Hr|]|].
  - unfold CANARY_CHECKS. do 3 right. left.
  - unfold run_check. cbn [snd fst]. change (rows_for _ rows _) with rows. by rewrite nameless_fails.
Qed.
End checks.

(** * Which symbols are eligible *)
Section eligibility.
Context `{Runtime}.

(** A cached symbol is eligible for experimental analysis exactly when it was
    imported for that, its symbol file was validated, its file name and GUID are
    those that the requirement asks for (up to case and surrounding space), its
    architecture is compatible and its age is another: an exact match never is. *)
Lemma eligible_iff requirement cache :
  let wanted := req_identity requirement in
  let got := sym_identity cache in
  eligible (evaluate_candidate_eligibility (Some requirement) (Some cache)) = true <->
  normalize_pdb_name (pdb_guid got) = normalize_pdb_name (pdb_guid wanted) /\ pdb_guid got <> [] /\
  normalize_pdb_name (pdb_name got) = normalize_pdb_name (pdb_name wanted) /\ pdb_name got <> [] /\
  architectures_compatible (architecture got) (architecture wanted) = true /\
  classification cache = experimental_candidate /\
  validation_status cache ∈ [lit "validated"; lit "usable"; lit "ready"] /\
  pdb_age got <> pdb_age wanted.
Proof.
  cbv zeta. unfold evaluate_candidate_eligibility. set (accepted := [_; _; _]).
  destruct (decide (normalize_pdb_name (pdb_guid (sym_identity cache)) = normalize_pdb_name (pdb_guid (req_identity requirement)))) as [E1|E1];
    [rewrite (bool_decide_eq_true_2 _ E1)|rewrite (bool_decide_eq_false_2 _ E1); cbn [negb refused eligible]; by split; [|intros []]].
  destruct (decide (normalize_pdb_name (pdb_name (sym_identity cache)) = normalize_pdb_name (pdb_name (req_identity requirement)))) as [E2|E2];
    [rewrite (bool_decide_eq_true_2 _ E2)|rewrite (bool_decide_eq_false_2 _ E2); cbn [negb refused eligible]; split; [done|naive_solver]].
  destruct (architectures_compatible _ _) eqn:E3; cbn [negb]; [|cbn; split; [done|naive_solver]].
  repeat case_bool_decide; cbn [negb orb refused eligible]; try (split; [done|naive_solver]).
  destruct (Z.eqb_spec (pdb_age (sym_identity cache)) (pdb_age (req_identity requirement))); cbn [eligible refused]; naive_solver.
Qed.
End eligibility.
End ExperimentalVerdict.
