(* ===== verification/ExperimentalFlaws.v ===== *)
(** Concrete experimental runs: the witnesses of the theorems about them, and
    runs that end where they should not. *)
From stdpp Require Import relations.
From S2P Require Import Prelude PyBase PyRuntime FileSystem Handlers ExperimentalTrust ExperimentalCanary ExperimentalModel ExperimentalRun ExperimentalGates ExperimentalRules ExperimentalVerdict.
Import Bytes Str PyRuntime FileSystem Handlers ExperimentalTrust ExperimentalCanary ExperimentalModel ExperimentalRun ExperimentalGates
  ExperimentalRules ExperimentalVerdict.

Module ExperimentalFlaws.
#[local] Existing Instance toy_runtime.

(** * A world with one evidence, one requirement and one mismatched symbol *)
Definition kernel (age : Z) : identity :=
  {| pdb_name := lit "ntkrnlmp.pdb"; pdb_guid := lit "guid"; pdb_age := age; architecture := lit "x64" |}.
Definition requirement : MemorySymbolRequirement :=
  {| req_id := lit "q"; req_case_id := lit "c"; req_evidence_id := lit "e"; req_created_at := 0; req_identity := kernel 1 |}.
Definition sample_hash (b : bytes) : str := lit "h" ++ b.
Definition symbol : MemoryCachedSymbol :=
  {| sym_id := lit "s"; sym_identity := kernel 2; pdb_relative_path := [lit "pdb"]; isf_relative_path := [lit "isf"];
     pdb_sha256 := sample_hash [1]; isf_sha256 := sample_hash [2]; validation_status := lit "validated";
     classification := experimental_candidate; required_pdb_guid := Some (lit "guid"); required_pdb_age := Some 1 |}.
Definition sample_world : world := {|
  settings := {| memory_symbol_experimental_mismatch_enabled := true; backend_data_dir := [lit "data"]; memory_output_root := None;
                 memory_plugin_output_max_bytes := 1000 |};
  cases := {[ lit "c" ]};
  evidence := {[ lit "e" := {| e_case_id := lit "c"; is_memory_dump := true |} ]};
  requirements := {[ lit "q" := requirement ]};
  symbols := {[ lit "s" := symbol ]};
  candidates := ∅; runs := ∅; scans := ∅; plugin_runs := ∅;
  files := <[[lit "data"; lit "experimental-symbol-cache"; lit "pdb"] := File [1]]>
           (<[[lit "data"; lit "experimental-symbol-cache"; lit "isf"] := File [2]]>
           (<[[lit "data"; lit "experimental-symbol-cache"] := Dir]> (<[[lit "data"] := Dir]> ∅)));
  queue := []; redis_up := true; clock := 100; uuids := 0 |}.

Definition id_text (n : nat) : str := lit "u" ++ str_of_Z (Z.of_nat n).
Definition row (fields : list (string * json)) : json := JDict (map (fun kv => (lit (fst kv), snd kv)) fields).
(** Output as Volatility gives it for windows.info, and output of the fields that
    the checks look for. *)
Definition info_output : json := JList [row [("Variable", JStr (lit "Kernel Base")); ("Value", JStr (lit "0xf80000000000"))]].
Definition process_output : json :=
  JList [row [("name", JStr (lit "System")); ("pid", JInt 4); ("kernel_base", JInt 1)]].
Definition sample_json (text : str) : option json :=
  if bool_decide (text = lit "info") then Some info_output else if bool_decide (text = lit "processes") then Some process_output else None.

Abbreviation serve := (perform id_text sample_hash str_of_Z sample_json (fun s => s) (fun _ _ _ => lit "{}") (fun _ => []) (fun _ => false)
                         (fun _ => true) (fun _ => lit "f") [] (fun _ _ => None) (fun _ _ => 1)).
Definition gives (text : string) (plugin : str) : plugin_outcome := PluginOutput (lit text).

Definition serve_all (actions : list action) (w : world) : world := fold_left (fun w a => fst (Handlers.run (serve a) w)) actions w.
Definition answers (ps : list (Handlers.prog world run_exn unit)) : list (option (result run_exn unit)) :=
  map (fun p => match p with Done r => Some r | Step _ _ => None end) ps.
Definition the_run (w : world) : option MemoryExperimentalRun := runs w !! lit "u1".
Definition status_of (w : world) : option run_status := option_map r_status (the_run w).

Definition create : list action := [CreateCandidate (lit "c") (lit "e") (lit "s") None []; CreateRun (lit "c") (lit "e") None].
Definition acknowledge_ : action := Acknowledge (lit "c") (lit "e") (lit "u1") true (Some (lit "ann")).
Definition start : action := StartCanary (lit "c") (lit "e") (lit "u1").
Definition work (text : string) : action := WorkCanary (lit "u1") (gives text).
Definition override : action := OverrideCanary (lit "c") (lit "e") (lit "u1") None (lit "because").
Definition continue_ : action := Continue (lit "c") (lit "e") (lit "u1").
Definition profile_ (name : string) : action := WorkProfile (lit "u1") (lit name) (gives "processes") (Ok tt).
Definition finish (outcome : string) : action := Finalize (lit "c") (lit "e") (lit "u1") (lit outcome).
Definition delete_ : action := Delete (lit "c") (lit "e") (lit "u1") None (lit "done").
Definition cancel_ : action := Cancel (lit "c") (lit "e") (lit "u1") None (lit "stop").

(** * The witnesses of the rules *)
Lemma sample_consistent : consistent (past_in sample_world) sample_world.
Proof. split; intros k x Hx; cbn in Hx; by rewrite lookup_empty in Hx. Qed.

Definition flow : list action :=
  create ++ [acknowledge_; start; work "processes"; override; continue_; profile_ "experimental_metadata"].
(** The requests and jobs of [flow], one after the other. *)
Definition in_turn (n : nat) : list nat := flat_map (fun i => repeat i 200) (seq 0 n).

Definition flow_end := exec (in_turn 8) (sample_world, map serve flow).
Lemma flow_steps : rtc (step others) (sample_world, map serve flow) flow_end.
Proof. exact (exec_steps others (in_turn 8) (sample_world, map serve flow)). Qed.
Lemma flow_run : exists r, runs (fst flow_end) !! lit "u1" = Some r /\ r_status r = full_run_running.
Proof.
  assert (Hs : option_map r_status (runs (fst flow_end) !! lit "u1") = Some full_run_running) by (vm_compute; reflexivity).
  destruct (runs (fst flow_end) !! lit "u1") as [r|]; [|discriminate Hs]. exists r. split; [reflexivity|]. by injection Hs.
Qed.

(** The first step of a request. *)
Definition after_one (c : world * list (Handlers.prog world run_exn unit)) := step_of c 0.
Lemma experimental_isolation_witness :
  let c := (sample_world, map serve [start]) in isolated (fst c) (fst (after_one c)).
Proof.
  intros c.
  refine (proj1 (experimental_isolation id_text sample_hash str_of_Z sample_json (fun s => s) (fun _ _ _ => lit "{}") (fun _ => [])
    (fun _ => false) (fun _ => true) (fun _ => lit "f") [] (fun _ _ => None) (fun _ _ => 1) [start] sample_world c (after_one c)
    sample_consistent (rtc_refl _ c) _)).
  exact (step_handler (fun _ _ => False) sample_world (map serve [start]) 0 _ _ eq_refl).
Defined.

Lemma canary_never_passes_witness : exists res,
  worker_canary (fun _ => []) (fun _ => false) (fun _ => true) (Some info_output) plugin_completed = Ok res /\ status res = failed.
Proof.
  eexists. split; [vm_compute; reflexivity|].
  apply (canary_never_passes (fun _ => []) (fun _ => false) (fun _ => true) (Some info_output) plugin_completed); [vm_compute; reflexivity|].
  repeat constructor.
Defined.

Lemma canary_verdict_witness : exists res,
  evaluate_canary (fun _ => []) (fun _ => false) (fun _ => true) (rows_of (Some process_output)) [] [] = Ok res /\ 0 <= score res <= 10000.
Proof.
  eexists. split; [vm_compute; reflexivity|].
  apply (canary_verdict (fun _ => []) (fun _ => false) (fun _ => true) (rows_of (Some process_output)) [] []). vm_compute. reflexivity.
Defined.

(** * Runs that end where they should not *)

(** The request alone, on a run of its case and evidence. *)
Definition reachable_by_request (w : world) (case evidence_id id : str) (r : MemoryExperimentalRun) : Prop :=
  memory_symbol_experimental_mismatch_enabled (settings w) = true /\ case ∈ cases w /\
  (exists e, evidence w !! evidence_id = Some e /\ e_case_id e = case /\ is_memory_dump e = true) /\
  runs w !! id = Some r /\ run_id r = id /\ r_case_id r = case /\ r_evidence_id r = evidence_id.

Lemma run_looked {A B} (f : world -> A) (g : A -> Handlers.prog world run_exn B) w : Handlers.run (look f ≫= g) w = Handlers.run (g (f w)) w.
Proof. reflexivity. Qed.
Lemma run_guarded {B} b e (g : unit -> Handlers.prog world run_exn B) w : b = false -> Handlers.run (guard b e ≫= g) w = Handlers.run (g tt) w.
Proof. by intros ->. Qed.
Lemma run_attempted {A B} (f : world -> result run_exn (world * A)) (g : A -> Handlers.prog world run_exn B) w w' a :
  f w = Ok (w', a) -> Handlers.run (attempt f ≫= g) w = Handlers.run (g a) w'.
Proof. intros E. rewrite run_bind. cbn. by rewrite E. Qed.

Lemma run_request {A} case evidence_id id r (body : Handlers.prog world run_exn A) w :
  reachable_by_request w case evidence_id id r -> Handlers.run (request case evidence_id body) w = Handlers.run body w.
Proof.
  intros (Hon & Hcase & (e & He & Hec & Hed) & _). unfold request, _feature_guard, _require_case, _require_evidence.
  rewrite run_bind, run_looked, Hon. cbn [negb guard Handlers.run]. rewrite run_bind, run_looked, bool_decide_true by done.
  cbn [negb guard Handlers.run]. rewrite run_bind, run_looked, He, run_guarded by (by rewrite bool_decide_true). by rewrite Hed.
Qed.

Lemma inactive_unique (k : str) (r : MemoryExperimentalRun) t : index_active r = false -> unique_in k r t = true.
Proof.
  intros Hr. unfold unique_in. apply forallb_forall. intros kv _. unfold clashes, runs_unique. rewrite Hr. cbn. by rewrite orb_true_r.
Qed.


Lemma merge_identity_alone a b : merge_identity a b a = b.
Proof. unfold merge_identity. rewrite !merge_column_alone. by destruct b. Qed.

(** Undisturbed, what was loaded is what the table still holds. *)
Lemma run_save (r item : MemoryExperimentalRun) w : runs w !! run_id r = Some r -> merge_columns r item r = item -> index_active item = false ->
  exists w' r', Handlers.run (save r item) w = (w', Ok r') /\ runs w' !! run_id r = Some r' /\ (r' = item \/ r' = item <| updated_at := clock w |>).
Proof.
  intros Hr Hm Ha. unfold save, commit. change (key r) with (run_id r). destruct (decide (item = r)) as [->|Hne].
  - exists w, r. split; [|by auto]. erewrite (run_attempted _ _ w w tt).
    + cbn. change (table w !! run_id r) with (runs w !! run_id r). by rewrite Hr.
    + cbv beta. change (table w !! run_id r) with (runs w !! run_id r). by rewrite Hr.
  - set (item' := item <| updated_at := clock w |>). exists (w <| runs := <[run_id r := item']> (runs w) |>), item'.
    split; [|cbn; rewrite lookup_insert_eq; auto]. erewrite run_attempted.
    2:{ cbv beta. change (table w !! run_id r) with (runs w !! run_id r). rewrite Hr. cbv zeta. rewrite Hm.
        change (onupdate (clock w) item) with item'. rewrite inactive_unique by exact Ha. reflexivity. }
    cbn. by rewrite lookup_insert_eq.
Qed.

(** Finishing a run asks for nothing: the finalize request moves a run of any
    status, acknowledged or not, cancelled or deleted too, to the outcome that the
    client names, so that a run whose symbols were never acknowledged and whose
    canary never ran counts as completed. *)
Lemma finish_from_any_state case evidence_id id outcome status w r :
  reachable_by_request w case evidence_id id r -> (outcome, status) ∈ outcomes ->
  exists w' r', Handlers.run (serve (Finalize case evidence_id id outcome)) w = (w', Ok tt) /\ runs w' !! id = Some r' /\
    r_status r' = status /\ acknowledgement_at r' = acknowledgement_at r /\ deleted_at r' = deleted_at r.
Proof.
  intros Hw Hout. pose proof Hw as (_ & _ & _ & Hr & Hid & Hcase & Hev). subst id.
  set (item := r <| r_status := status |> <| completed_at := Some (clock w) |>).
  assert (Hf : finalise_run (clock w) outcome r = Ok item).
  { unfold outcomes in Hout. rewrite !elem_of_cons, elem_of_nil in Hout. by destruct Hout as [[= -> ->]|[[= -> ->]|[[= -> ->]|[]]]]. }
  assert (Hm : merge_columns r item r = item).
  { unfold merge_columns. cbn. rewrite !merge_column_alone, !merge_identity_alone. reflexivity. }
  assert (Ha : index_active item = false).
  { unfold index_active. apply andb_false_iff. right. apply negb_false_iff, bool_decide_eq_true. cbn.
    unfold outcomes in Hout. rewrite !elem_of_cons, elem_of_nil in Hout. destruct Hout as [[= _ ->]|[[= _ ->]|[[= _ ->]|[]]]]; among. }
  destruct (run_save r item w Hr Hm Ha) as (w' & r' & Hrun & Hr' & He). exists w', r'.
  split; [|split; [exact Hr'|by destruct He as [-> | ->]]].
  cbn [perform]. unfold finalize_experimental_run. rewrite run_bind, (run_request _ _ _ _ _ _ Hw).
  assert (Hget : Handlers.run (get_run case evidence_id (run_id r)) w = (w, Ok r)).
  { unfold get_run, get. rewrite run_looked. change (table w !! run_id r) with (runs w !! run_id r). rewrite Hr.
    change (lift _ ≫= ?g) with (g r). cbv beta. rewrite run_guarded by (by rewrite !bool_decide_true). reflexivity. }
  assert (Hfin : Handlers.run (finalise outcome r) w = (w', Ok r')).
  { unfold finalise, transition, utc_now_naive. rewrite run_looked, Hf. exact Hrun. }
  unfold _handle_lifecycle_error. rewrite run_bind, run_catch, Hget. rewrite run_catch, Hfin. reflexivity.
Qed.

Lemma finish_from_any_state_witness : exists w' r',
  Handlers.run (serve (finish "completed_untrusted")) (serve_all create sample_world) = (w', Ok tt) /\
  runs w' !! lit "u1" = Some r' /\ r_status r' = completed_untrusted /\ acknowledgement_at r' = None.
Proof.
  set (w := serve_all create sample_world).
  assert (Hr : exists r, runs w !! lit "u1" = Some r /\ acknowledgement_at r = None /\ reachable_by_request w (lit "c") (lit "e") (lit "u1") r).
  { eexists. split; [vm_compute; reflexivity|]. split; [reflexivity|]. unfold reachable_by_request. split; [vm_compute; reflexivity|].
    split; [apply (bool_decide_eq_true_1 (_ ∈ _)); vm_compute; reflexivity|]. split; [eexists; split; [vm_compute; reflexivity|done]|].
    split; [vm_compute; reflexivity|]. by vm_compute. }
  destruct Hr as (r & _ & Hn & Hw). clearbody w.
  destruct (finish_from_any_state (lit "c") (lit "e") (lit "u1") (lit "completed_untrusted") completed_untrusted w r Hw) as (w' & r' & Hrun & Hr' & Hs & Ha & _).
  { left. }
  exists w', r'. split; [exact Hrun|]. split; [exact Hr'|]. split; [exact Hs|]. by rewrite Ha.
Defined.

(** A plugin run of an experimental scan is first committed as validated. *)
Lemma plugin_runs_first_validated w scan name : (forall k p, plugin_runs w !! k = Some p -> p_scan_id p <> scan_id scan) ->
  plugin_runs w !! id_text (uuids w) = None ->
  exists w' p, Handlers.run (_plugin_run_for id_text scan name) w = (w', Ok (Expired (id_text (uuids w)))) /\
    plugin_runs w' !! id_text (uuids w) = Some p /\ p_scan_id p = scan_id scan /\ t_level (p_trust p) = trust_validated.
Proof.
  intros Hno Hfree. unfold _plugin_run_for. rewrite run_looked.
  destruct (first_by _ _ (plugin_runs w)) as [p|] eqn:Ef.
  { apply first_by_spec in Ef as [Hp (k & Hk)]. apply andb_true_iff in Hp as [Hp%bool_decide_eq_true _]. by destruct (Hno k p Hk). }
  set (k := id_text (uuids w)) in *.
  change (Handlers.run (uuid4 id_text ≫= ?g) w) with (Handlers.run (g k) (w <| uuids := S (uuids w) |>)). cbv beta.
  unfold utc_now_naive. rewrite run_looked. unfold insert_row. erewrite run_attempted.
  2:{ cbv beta. change (table _ !! key _) with (plugin_runs w !! k). rewrite Hfree, bool_decide_true by done.
      unfold unique_in. rewrite (proj2 (forallb_forall _ _)); [reflexivity|]. intros kv _. apply orb_true_iff. by right. }
  eexists _, _. split; [reflexivity|]. split; [cbn; apply lookup_insert_eq|]. done.
Qed.

(** The first action makes [k] steps, then the second runs, then the first. *)
Definition overtaken (k : nat) : list nat := repeat 0%nat k ++ repeat 1%nat 200 ++ repeat 0%nat 200.
Definition together (k : nat) (a b : action) (w : world) := exec (overtaken k) (w, map serve [a; b]).

(** Two things at once.  The request that starts the canary can be sent twice
    before a worker takes up the run; the second of the two jobs finds the canary
    running and cancels the run.  A cancellation that overlaps the end of a canary
    succeeds and is undone: the run goes on with its verdict.  Two profiles that
    end at the same time are counted as one, and the run never ends.  And when the
    output of a plugin is not UTF-8, the job raises, the run stays with its canary
    running, and no other run can be created for the evidence. *)
Lemma experimental_runs_lost :
  (let w := serve_all (create ++ [acknowledge_; start; start]) sample_world in
   let c := together 20 (work "processes") (work "processes") w in
   queue w = [CanaryJob (lit "u1"); CanaryJob (lit "u1")] /\ answers (snd c) = [Some (Ok tt); Some (Ok tt)] /\
   status_of (fst c) = Some cancelled /\ option_map cancelled_by (the_run (fst c)) = Some (Some (lit "system"))) /\
  (let w := serve_all (create ++ [acknowledge_; start]) sample_world in
   let c := together 58 (work "processes") cancel_ w in
   answers (snd c) = [Some (Ok tt); Some (Ok tt)] /\ status_of (fst c) = Some canary_degraded) /\
  (let w := serve_all (create ++ [acknowledge_; start; work "processes"; override; continue_]) sample_world in
   let c := together 53 (profile_ "experimental_metadata") (profile_ "experimental_modules") w in
   answers (snd c) = [Some (Ok tt); Some (Ok tt)] /\ status_of (fst c) = Some full_run_running /\
   option_map (fun r => (profiles_queued r, profiles_completed r)) (the_run (fst c)) = Some (2, 1)) /\
  (let w := serve_all (create ++ [acknowledge_; start]) sample_world in
   let (w', answer) := Handlers.run (serve (WorkCanary (lit "u1") (fun _ => PluginOutput [255]))) w in
   answer = Raise (RunPy UnicodeDecodeError) /\ status_of w' = Some canary_running /\
   snd (Handlers.run (serve (CreateRun (lit "c") (lit "e") None)) w') = Raise (HTTPException 409)).
Proof. split_and!; vm_compute; split_and!; reflexivity. Qed.
End ExperimentalFlaws.
